(* ===== verification/_CoqProject ===== *)
-Q . S2P
Prelude.v
RustStd.v
RustFmt.v
Utf8.v
ConfigTypes.v
ConfigLoader.v
ConfigCompat.v
LocalTime.v
Transport.v
EncStream.v
CompStream.v
IoConn.v
Sniff.v
WireV2.v
Secrets.v
Routers.v
Groups.v
ProxyManager.v
Throttle.v
ProxyProto.v
Stun.v
StcpBridge.v
WorkPool.v
CoreMsg.v
HttpClient.v
JsonValue.v
Auth.v
ServerPlugin.v
Metrics.v
ControlManager.v
StateErr.v
Control.v
Login.v
WorkConnHandler.v
Vhost.v
HttpText.v
HttpHead.v
HttpBridge.v
StaticFile.v
HttpProxy.v
Socks5.v
Plugins.v
UserConn.v
Web.v
ServerIngress.v
ClientRegistry.v
ClientConn.v
ClientVisitor.v
ClientSession.v
ClientLife.v
EndToEnd.v
Api.v
ConnPool.v
Sudp.v
WsConn.v
Mux.v
Kcp.v
KcpStream.v
ServerStart.v
Cli.v
AdminWeb.v
Logging.v
ServerMain.v
Bridge.v
Doors.v
