(* ===== verification/Prelude.v ===== *)
(** * rust_frp: a verification library

    rust_frp is a reverse proxy.  A server with a public address (frps,
    src/rust_frp_server) accepts connections of visitors and hands each to a
    client (frpc, src/rust_frp_client) that connected to it from a private
    network; the client bridges it to a local service.  The crates below them:
    src/rust_frp_net (transports, encryption, compression, the wire protocol),
    src/rust_frp_core (control messages), src/rust_frp_auth (tokens, OIDC),
    src/rust_frp_config (configuration), src/rust_frp_plugin (local and server
    plugins), src/rust_frp_util (bridging, time, logging).

    How the parts interact.  A client opens a control connection (TCP, TLS,
    websocket, KCP or QUIC, perhaps multiplexed), both sides sniff and negotiate
    the wire protocol, the client logs in and registers its proxies.  When a
    visitor connects to a proxy, the server takes a work connection from the
    proxy's pool or asks the client for one; the client opens it, proves itself
    with a signature, and the server bridges visitor and work connection through
    the record streams both sides agreed on.  Secret (STCP, SUDP, XTCP) proxies
    are reached by a visitor client: the server pairs two work connections, or the
    clients punch a hole and talk directly.

    This file is the prelude: machine integers and their wrap-around, bytes, I/O
    errors and the reading of a byte stream, results and their monad, lists, hash
    maps with their unspecified order ([HashIter]), the tactics and the hint
    database [frp].

    ** Files and what they model

    Library: RustStd (core::str, integers and text), RustFmt (Debug text, f64
    text), Utf8 (text from bytes), HttpText (lines and words of HTTP heads),
    JsonValue (serde_json::Value), StateErr (a state and error monad with
    postconditions), IoConn (connections used through read_exact and write_all),
    Transport (AsyncRead and AsyncWrite as an interface with laws).

    Configuration: ConfigTypes (config/types.rs), ConfigLoader (config/loader.rs),
    ConfigCompat (config/compat.rs), Cli (client bin/rust_frpc.rs), ServerMain
    (server bin/rust_frps.rs).

    Streams: EncStream (net/crypto.rs), CompStream (net/compress.rs), Sniff
    (net/lib.rs PrefixedStream), WsConn (net/lib.rs WebSocketConn), Kcp (net/lib.rs
    KcpConn, KcpListener), KcpStream (net/kcp_stream.rs), Mux (net/mux.rs),
    ConnPool (net/pool.rs), Bridge (util/lib.rs bridge_streams_counted).

    Protocol: WireV2 (net/wire_v2.rs), CoreMsg (core/lib.rs), Secrets (server
    secrets.rs and the HMAC signatures), Auth (auth/lib.rs), HttpClient
    (net/http.rs), Stun (net/stun.rs), ProxyProto (net/proxy_protocol.rs).

    Server: Throttle (login_throttle.rs), Routers (vhost.rs, tcpmux.rs), Groups and
    ProxyManager (proxy_manager.rs), StcpBridge and ControlManager (control.rs),
    WorkPool (work_conn.rs), Metrics (metrics.rs), ServerPlugin
    (plugin/server_plugin.rs), Control and Login (control.rs, the session),
    WorkConnHandler (server/work_conn.rs), Vhost (server/vhost.rs), UserConn
    (visitors of TCP, websocket and tcpmux proxies), Web and Api (web.rs, api.rs),
    ServerIngress (server.rs, server/ingress.rs, control.rs, transport.rs,
    tls_helpers.rs, reload.rs), Doors (the accept loops of server/work_conn.rs and
    server/vhost.rs), ServerStart (Server::start, net/quic.rs).

    Client: ClientRegistry (transport.rs, types.rs), ClientConn (transport.rs,
    work_conn.rs), ClientVisitor (visitor.rs), ClientSession (control.rs),
    ClientLife (client_impl.rs), Sudp (sudp.rs), AdminWeb (web.rs,
    admin_client.rs).

    Local plugins (plugin/lib.rs, plugin/http_bridge.rs): Plugins, HttpHead,
    HttpBridge, StaticFile, HttpProxy, Socks5.  Time and logs (util/localtime.rs,
    util/logging.rs): LocalTime, Logging.

    EndToEnd runs the client's and the server's definitions against each other.

    A struct is a record with a short prefix per struct; a method is a definition
    of its name.  A lock-protected section is one atomic step, and where several
    tasks meet (WorkPool, StcpBridge, ControlManager, Groups, ConnPool, Sudp, Mux,
    Kcp, KcpStream, Bridge) an execution is a sequence of such steps in any order.
    A poll function is a definition on the state of its stream.  Fields marked as
    ghosts record history for the statements and are never read by the code.

    ** What the theorems show

    End to end: an STCP tunnel comes about, whichever of the two clients opens its
    work connection first, and a work connection is read by the server as the
    client wrote it, within the 64 KiB its door allows.  Streams: no nonce repeats,
    records are delivered whole and in order, sniffing and watching for the end are
    transparent (instances of the transport's laws), the P2P stream delivers what
    was written, a bridge is cut no sooner than the grace period after the copying
    has read an end, and no later than seventy seconds and four scheduling delays.
    Authentication and confinement: dashboards, management port, proxy plugins,
    secret visitors and work connections act only for the right credentials; files
    stay inside their directory; the client's TLS settings and the TCP control port
    of a server that demands TLS fail closed.  State: the session registry, the
    bridges, the pools, the counters of the front door and the multiplexer keep
    their invariants in every interleaving, the quota of ports is enforced; a
    connection is never in two places.  Refinement: the
    session table against one that forgets nothing, the health checker and the
    pages of the API against their specifications.  Progress: draining, dialling,
    reconnecting, noticing a dead server, serving stream requests.  Round trips:
    wire messages, dates, chunked bodies, flags of the command line, heads of HTTP
    messages.  The SOCKS5 plugin reaches the address it is asked for.  Lemmas named in the text of a file after what
    they show record behaviour that differs from a comment of the source or
    from what the code means to do.

    ** Bounds and fuel

    A loop whose end is not structural takes fuel, and a theorem shows that the
    fuel given is enough or that the loop always decides.  The drain and read loops
    of the record streams: drain_enough, read_loop_enough.  Chunks and decoded
    bodies: the length of the input, since the position grows.  Lossy UTF-8: the
    length of the text.  STUN attributes: the length of the reply (stun_parse_total).
    The bridging plugin: one more than the bytes still to come (bridge_returns,
    proxy_returns).  The websocket writer: one more than the answers of the sink.
    The P2P stream's reader: two turns (poll_read_decides).  Discovery: two more
    samples (discover_ends).  The one loop of the program that need not
    end is the substitution of environment variables (replace_env_vars); there the
    fuel is an argument and its end a value.  Integers keep their width: counters
    wrap as a release build does, and a subtraction or slice that panics is [None].

    ** Interfaces

    Code outside the repository is an interface with its documented laws, or an
    argument: Aead (AES-256-GCM), Snappy, RingHash (SHA-256, HMAC), Base64, Jwt and
    Json (signatures and serde_json), HashIter (the order of a hash map), Os (bind),
    Lowercase (Unicode case), Kcp and KcpMachine (the kcp crate), Transport (tokio's
    traits); HTTP calls, TLS handshakes and configurations, files, directories,
    clocks, random bytes and what the network delivers are arguments.  Every
    main theorem with hypotheses has a witness at concrete values, with the interface
    instantiated by concrete functions.

    ** Not modelled

    The rate limiter (floating point, and nothing that runs reaches it), the retry
    helper and the work handler it serves (no caller sends to it), rustls
    configurations and certificate loading, the quinn endpoint, sockets, signals
    and file watchers, axum's routing and rendering, the pages of the dashboard,
    copy_bidirectional (tokio's; what it does in a poll is part of a step of
    Bridge), the desktop applications, tests, benchmarks and fuzz targets. *)
From Stdlib Require Export ZArith Lia.
From stdpp Require Export base tactics option list gmap sets strings pretty relations.
From Stdlib Require Strings.Byte Strings.String.
From Stdlib Require Export Strings.Ascii.

#[global] Open Scope Z_scope.
#[global] Arguments String.append !_ _ / : simpl nomatch.
#[global] Arguments Nat.min : simpl never.
#[global] Arguments Nat.sub : simpl never.
#[global] Arguments Z.pow : simpl never.

(** ** Result values

    [result E T] is Rust's [Result<T, E>].  The error type comes first so that
    [result E] is a monad and stdpp's [x ← m; k] is Rust's [?] operator. *)
Inductive result (E T : Type) : Type :=
| Ok (t : T)
| Err (e : E).
Arguments Ok {E T} t.
Arguments Err {E T} e.

#[global] Instance result_ret E : MRet (result E) := fun T t => Ok t.
#[global] Instance result_bind E : MBind (result E) :=
  fun A B f m => match m with Ok a => f a | Err e => Err e end.
#[global] Instance result_fmap E : FMap (result E) :=
  fun A B f m => match m with Ok a => Ok (f a) | Err e => Err e end.

Definition is_ok {E T} (r : result E T) : bool :=
  match r with Ok _ => true | Err _ => false end.

Definition map_err {E F T} (f : E -> F) (r : result E T) : result F T :=
  match r with Ok t => Ok t | Err e => Err (f e) end.

Definition ok_or {E T} (e : E) (o : option T) : result E T :=
  match o with Some t => Ok t | None => Err e end.

(** [for x in l { f(x)?; }] *)
Fixpoint for_each {E A} (f : A -> result E unit) (l : list A) : result E unit :=
  match l with
  | [] => Ok tt
  | x :: l => _ ← f x; for_each f l
  end.

(** ** Machine integers

    A [w]-bit integer is a [Z]; arithmetic that can leave the range is followed
    by the wrap-around of the release profile. *)
Definition wrap_u (w : Z) (z : Z) : Z := z mod 2 ^ w.
Definition wrap_s (w : Z) (z : Z) : Z := (z + 2 ^ (w - 1)) mod 2 ^ w - 2 ^ (w - 1).

Notation wrap_u8 := (wrap_u 8).
Notation wrap_u16 := (wrap_u 16).
Notation wrap_u32 := (wrap_u 32).
Notation wrap_u64 := (wrap_u 64).
Notation wrap_i64 := (wrap_s 64).

Definition u32_max : Z := 4294967295.
Definition u64_max : Z := 18446744073709551615.

(** ** Bytes and big-endian integers *)
Notation byte := Byte.byte.

#[global] Instance byte_eq_decision : EqDecision byte := Byte.byte_eq_dec.

Definition b2z (b : byte) : Z := Z.of_N (Byte.to_N b).
Definition z2b (z : Z) : byte :=
  match Byte.of_N (Z.to_N (z mod 256)) with Some b => b | None => Byte.x00 end.

(** [to_be_bytes] of an [8 * n]-bit integer. *)
Fixpoint be_bytes (n : nat) (z : Z) : list byte :=
  match n with
  | O => []
  | S k => be_bytes k (z / 256) ++ [z2b z]
  end.

(** [from_be_bytes]. *)
Definition be_value (l : list byte) : Z :=
  foldl (fun acc b => acc * 256 + b2z b) 0 l.

Definition zlen {A} (l : list A) : Z := Z.of_nat (length l).

Lemma zlen_app {A} (a b : list A) : zlen (a ++ b) = zlen a + zlen b.
Proof. unfold zlen. rewrite length_app. lia. Qed.

(** Rust's [.as_bytes()] and its inverse on byte strings. *)
Definition as_bytes (s : string) : list byte := String.list_byte_of_string s.
Definition of_bytes (l : list byte) : string := String.string_of_list_byte l.

(** ** Byte streams

    A connection being read is the list of bytes it still delivers before the
    peer closes it; [read_exact] fails with [UnexpectedEof] when it is short. *)
Inductive error_kind :=
| UnexpectedEof
| WriteZero
| BrokenPipe
| ConnectionReset
| ConnectionAborted
| InvalidData
| InvalidInput
| TimedOut
| OtherKind.

(** [std::io::Error]: its [kind()] and its text. *)
Record io_error := IoError { err_kind : error_kind; err_msg : string }.

Definition eof_error : io_error := IoError UnexpectedEof "early eof".

Definition read_exact (n : nat) (conn : list byte)
  : result io_error (list byte * list byte) :=
  if decide (n <= length conn)%nat
  then Ok (take n conn, drop n conn)
  else Err eof_error.

(** [slice.chunks(k)] for [0 < k]: pieces of [k] elements, the last one shorter. *)
Fixpoint chunks_fuel {A} (fuel k : nat) (l : list A) : list (list A) :=
  match fuel, l with
  | S f, _ :: _ => take k l :: chunks_fuel f k (drop k l)
  | _, _ => []
  end.
Definition chunks {A} (k : nat) (l : list A) : list (list A) := chunks_fuel (length l) k l.

(** ** Iteration order of hash maps

    [HashMap] iterates in an unspecified order: some permutation of the entries.
    Code that depends on it takes the order from this interface. *)
Class HashIter := {
  hash_iter : forall {K A : Type} `{Countable K}, gmap K A -> list (K * A);
}.

Class HashIterLaws `{HashIter} := {
  hash_iter_perm : forall {K A : Type} `{Countable K} (m : gmap K A),
    hash_iter m ≡ₚ map_to_list m;
}.

(** One such order, for running the definitions. *)
Definition map_order : HashIter := {| hash_iter := fun K A _ _ m => map_to_list m |}.

(** [iter.min_by_key(f)]: the first entry whose key is minimal. *)
Fixpoint min_by_key {A} (f : A -> Z) (l : list A) : option A :=
  match l with
  | [] => None
  | x :: l =>
      match min_by_key f l with
      | Some y => if decide (f y < f x) then Some y else Some x
      | None => Some x
      end
  end.

(** ** Durations and instants, in nanoseconds *)
Definition secs (n : Z) : Z := n * 1000000000.
Definition millis (n : Z) : Z := n * 1000000.

(** [Instant::duration_since] saturates at zero. *)
Definition duration_since (now earlier : Z) : Z := Z.max 0 (now - earlier).

(** ** Bounded histories

    [l.retain(|y| key(y) != key(x)); l.push(x); l.drain(..l.len() - cap)]: the
    newest [cap] entries, one per key, oldest first. *)
Definition fifo_push {A K} `{EqDecision K} (key : A -> K) (cap : nat) (l : list A) (x : A)
  : list A :=
  let l := filter (fun y => key y <> key x) l ++ [x] in
  drop (length l - cap) l.

(** [v.drain(..n)]: [None] when it panics, [n] being beyond the end. *)
Definition drain_front {A} (n : nat) (l : list A) : option (list A) :=
  if decide (n <= length l)%nat then Some (drop n l) else None.

(** The stable [sort_by_key]: [le x y] holds when [x] may stay before [y]. *)
Fixpoint sort_insert {A} (le : A -> A -> bool) (x : A) (l : list A) : list A :=
  match l with
  | [] => [x]
  | y :: l => if le x y then x :: y :: l else y :: sort_insert le x l
  end.
Definition stable_sort {A} (le : A -> A -> bool) (l : list A) : list A :=
  foldr (sort_insert le) [] l.

(** ** Automation *)
Create HintDb frp.
Create Rewrite HintDb frp.

(** Case analysis on the first [decide] or [match] in a hypothesis or the goal,
    closing the contradictory branches. *)
Ltac frp_case :=
  match goal with
  | H : context [decide ?P] |- _ => destruct (decide P)
  | |- context [decide ?P] => destruct (decide P)
  | H : context [match ?x with _ => _ end] |- _ => destruct x eqn:?
  | |- context [match ?x with _ => _ end] => destruct x eqn:?
  end; simplify_eq/=; try done.

Ltac frp_cases := repeat frp_case.

(** ** Lemmas on machine integers *)
Lemma wrap_u_small w z : 0 <= z < 2 ^ w -> wrap_u w z = z.
Proof. intros; unfold wrap_u; by apply Z.mod_small. Qed.

Lemma wrap_s_small w z :
  0 < w -> - 2 ^ (w - 1) <= z < 2 ^ (w - 1) -> wrap_s w z = z.
Proof.
  intros Hw Hz. unfold wrap_s.
  assert (2 ^ w = 2 * 2 ^ (w - 1)) as E.
  { rewrite <- Z.pow_succ_r by lia. f_equal; lia. }
  rewrite Z.mod_small; lia.
Qed.

Lemma wrap_u64_small z : 0 <= z < 18446744073709551616 -> wrap_u64 z = z.
Proof. intros; apply wrap_u_small; lia. Qed.

Lemma wrap_u32_small z : 0 <= z < 4294967296 -> wrap_u32 z = z.
Proof. intros; apply wrap_u_small; lia. Qed.

Lemma wrap_u16_small z : 0 <= z < 65536 -> wrap_u16 z = z.
Proof. intros; apply wrap_u_small; lia. Qed.

Lemma wrap_i64_small z :
  -9223372036854775808 <= z < 9223372036854775808 -> wrap_i64 z = z.
Proof. intros; apply wrap_s_small; simpl; lia. Qed.

Lemma wrap_u_range w z : 0 <= w -> 0 <= wrap_u w z < 2 ^ w.
Proof. intros; apply Z.mod_pos_bound, Z.pow_pos_nonneg; lia. Qed.

(** Division by constants, as linear arithmetic. *)
Ltac euclid := Z.to_euclidean_division_equations; lia.

(** Removes the wrap-arounds whose argument provably fits, innermost first. *)
Ltac unwrap_one :=
  match goal with
  | |- context [wrap_u 64 ?e] =>
      lazymatch e with context [wrap_u _ _] => fail | context [wrap_s _ _] => fail | _ => idtac end;
      rewrite (wrap_u64_small e) by first [lia | euclid]
  | |- context [wrap_u 32 ?e] =>
      lazymatch e with context [wrap_u _ _] => fail | context [wrap_s _ _] => fail | _ => idtac end;
      rewrite (wrap_u32_small e) by first [lia | euclid]
  | |- context [wrap_s 64 ?e] =>
      lazymatch e with context [wrap_u _ _] => fail | context [wrap_s _ _] => fail | _ => idtac end;
      rewrite (wrap_i64_small e) by first [lia | euclid]
  end.
Ltac unwrap := repeat unwrap_one.

(** ** Lemmas on results *)
Lemma for_each_Ok {E A} (f : A -> result E unit) l :
  for_each f l = Ok tt <-> Forall (fun x => f x = Ok tt) l.
Proof.
  induction l as [|x l IH]; simpl; [split; [by constructor|done]|].
  rewrite Forall_cons, <- IH. destruct (f x) as [[]|]; simpl; naive_solver.
Qed.

Lemma result_bind_Ok {E A B} (m : result E A) (f : A -> result E B) b :
  (m ≫= f) = Ok b <-> exists a, m = Ok a /\ f a = Ok b.
Proof. destruct m; simpl; naive_solver. Qed.

Lemma map_err_Ok {E F T} (f : E -> F) (r : result E T) t : map_err f r = Ok t <-> r = Ok t.
Proof. destruct r; simpl; split; by intros [=->] || done. Qed.

(** ** Lemmas on bytes *)
Lemma b2z_range b : 0 <= b2z b < 256.
Proof. unfold b2z. pose proof (Byte.to_N_bounded b). lia. Qed.

Lemma b2z_z2b z : b2z (z2b z) = z mod 256.
Proof.
  unfold z2b, b2z. pose proof (Z.mod_pos_bound z 256 eq_refl) as Hz.
  destruct (Byte.of_N (Z.to_N (z mod 256))) as [b|] eqn:E.
  - apply Byte.to_of_N in E. rewrite E. lia.
  - apply Byte.of_N_None_iff in E. lia.
Qed.

Lemma z2b_b2z b : z2b (b2z b) = b.
Proof.
  unfold z2b, b2z. pose proof (Byte.to_N_bounded b).
  rewrite Z.mod_small by lia. rewrite N2Z.id, Byte.of_to_N. done.
Qed.

Lemma b2z_inj b1 b2 : b2z b1 = b2z b2 -> b1 = b2.
Proof. intros H. by rewrite <- (z2b_b2z b1), <- (z2b_b2z b2), H. Qed.

Lemma length_be_bytes n z : length (be_bytes n z) = n.
Proof. revert z; induction n; intros; simpl; [done|]. rewrite length_app, IHn; simpl; lia. Qed.

Lemma be_value_app l b : be_value (l ++ [b]) = be_value l * 256 + b2z b.
Proof. unfold be_value. by rewrite foldl_app. Qed.

Lemma be_value_be_bytes n z : be_value (be_bytes n z) = z mod 256 ^ Z.of_nat n.
Proof.
  revert z; induction n as [|n IH]; intros z; simpl be_bytes.
  { change (256 ^ Z.of_nat 0) with 1. by rewrite Z.mod_1_r. }
  rewrite be_value_app, IH, b2z_z2b, Nat2Z.inj_succ, Z.pow_succ_r by lia.
  rewrite Z.rem_mul_r by lia. lia.
Qed.

Lemma be_value_range l : 0 <= be_value l < 256 ^ zlen l.
Proof.
  unfold zlen. induction l as [|b l IH] using rev_ind; [done|].
  rewrite be_value_app, length_app, Nat.add_1_r, Nat2Z.inj_succ, Z.pow_succ_r by lia.
  pose proof (b2z_range b). lia.
Qed.

Lemma be_bytes_be_value l : be_bytes (length l) (be_value l) = l.
Proof.
  induction l as [|b l IH] using rev_ind; [done|].
  rewrite be_value_app, length_app, Nat.add_1_r. simpl.
  pose proof (b2z_range b).
  rewrite Z.div_add_l, Z.div_small, Z.add_0_r, IH by lia. do 2 f_equal.
  apply b2z_inj. rewrite b2z_z2b, Z.add_comm, Z.mod_add, Z.mod_small by lia. done.
Qed.

Lemma be_value_inj l1 l2 :
  length l1 = length l2 -> be_value l1 = be_value l2 -> l1 = l2.
Proof.
  intros Hl Hv. rewrite <- (be_bytes_be_value l1), <- (be_bytes_be_value l2). congruence.
Qed.

Lemma be_bytes_inj n z1 z2 :
  0 <= z1 < 256 ^ Z.of_nat n -> 0 <= z2 < 256 ^ Z.of_nat n ->
  be_bytes n z1 = be_bytes n z2 -> z1 = z2.
Proof.
  intros H1 H2 E. apply (f_equal be_value) in E.
  rewrite !be_value_be_bytes, !Z.mod_small in E by done. done.
Qed.

(** ** Lemmas on byte streams *)
Lemma read_exact_app l rest : read_exact (length l) (l ++ rest) = Ok (l, rest).
Proof.
  unfold read_exact. rewrite decide_True by (rewrite length_app; lia).
  by rewrite take_app_length, drop_app_length.
Qed.

Lemma read_exact_app_n n l rest :
  length l = n -> read_exact n (l ++ rest) = Ok (l, rest).
Proof. intros <-. apply read_exact_app. Qed.

Lemma read_exact_Ok n conn l rest :
  read_exact n conn = Ok (l, rest) -> conn = l ++ rest /\ length l = n.
Proof.
  unfold read_exact. intros H. frp_case.
  rewrite take_drop, length_take. split; [done|lia].
Qed.

Lemma read_exact_short n conn :
  (length conn < n)%nat -> read_exact n conn = Err eof_error.
Proof. intros. unfold read_exact. by rewrite decide_False by lia. Qed.

(** ** Lemmas on maps and iteration *)
Lemma map_order_laws : @HashIterLaws map_order.
Proof. by split. Qed.

Lemma min_by_key_elem {A} (f : A -> Z) l x : min_by_key f l = Some x -> x ∈ l.
Proof.
  revert x; induction l as [|y l IH]; intros x; simpl; [done|].
  destruct (min_by_key f l) as [z|]; [case_decide|]; intros [= <-]; set_solver.
Qed.

Lemma min_by_key_None {A} (f : A -> Z) l : min_by_key f l = None -> l = [].
Proof. destruct l; simpl; [done|]. destruct (min_by_key f l); [by case_decide|done]. Qed.

Lemma min_by_key_le {A} (f : A -> Z) l x y : min_by_key f l = Some x -> y ∈ l -> f x <= f y.
Proof.
  revert x; induction l as [|z l IH]; intros x; simpl; [done|].
  destruct (min_by_key f l) as [w|] eqn:E.
  - rewrite elem_of_cons. case_decide; intros [= <-] [->|Hy]; try (specialize (IH _ eq_refl Hy)); lia.
  - apply min_by_key_None in E as ->. intros [= <-] Hy.
    apply list_elem_of_singleton in Hy as ->. lia.
Qed.

Lemma hash_iter_elem `{HashIterLaws} {K A} `{Countable K} (m : gmap K A) k v :
  (k, v) ∈ hash_iter m <-> m !! k = Some v.
Proof. by rewrite hash_iter_perm, elem_of_map_to_list. Qed.

Lemma map_size_filter_le {K A} `{Countable K} (P : K * A -> Prop) `{!forall x, Decision (P x)}
    (m : gmap K A) : (size (filter P m) <= size m)%nat.
Proof. apply map_subseteq_size, map_filter_subseteq. Qed.

Lemma map_size_insert_le {K A} `{Countable K} (m : gmap K A) k v :
  (size (<[k:=v]> m) <= S (size m))%nat.
Proof.
  destruct (m !! k) eqn:E.
  - rewrite map_size_insert_Some by eauto. lia.
  - by rewrite map_size_insert_None.
Qed.

Lemma map_size_delete_le {K A} `{Countable K} (m : gmap K A) k :
  (size (delete k m) <= size m)%nat.
Proof. apply map_subseteq_size, delete_subseteq. Qed.

(** ** Lemmas on chunks *)
Lemma chunks_fuel_concat {A} fuel k (l : list A) :
  (length l <= fuel)%nat -> (0 < k)%nat -> concat (chunks_fuel fuel k l) = l.
Proof.
  revert l; induction fuel as [|f IH]; intros [|x l] Hl Hk; simpl in *; try done; try lia.
  rewrite IH; [|rewrite length_drop; simpl; lia|done]. apply (take_drop k (x :: l)).
Qed.

Lemma chunks_concat {A} k (l : list A) : (0 < k)%nat -> concat (chunks k l) = l.
Proof. by apply chunks_fuel_concat. Qed.

Lemma chunks_fuel_bounds {A} fuel k (l : list A) : (0 < k)%nat ->
  Forall (fun c => 0 < length c <= k)%nat (chunks_fuel fuel k l).
Proof.
  intros Hk. revert l; induction fuel as [|f IH]; intros [|x l]; simpl; constructor; auto.
  rewrite length_take. simpl. lia.
Qed.

Lemma chunks_bounds {A} k (l : list A) : (0 < k)%nat ->
  Forall (fun c => 0 < length c <= k)%nat (chunks k l).
Proof. apply chunks_fuel_bounds. Qed.

Lemma fifo_push_length {A K} `{EqDecision K} (key : A -> K) cap l x :
  (length (fifo_push key cap l x) <= cap)%nat.
Proof. unfold fifo_push. rewrite length_drop. lia. Qed.

Lemma elem_of_drop_l {A} (x : A) n l : x ∈ drop n l -> x ∈ l.
Proof. rewrite <- (take_drop n l) at 2. set_solver. Qed.

Lemma fifo_push_elem {A K} `{EqDecision K} (key : A -> K) cap l x y :
  y ∈ fifo_push key cap l x -> y = x \/ (y ∈ l /\ key y <> key x).
Proof.
  unfold fifo_push. intros Hy%elem_of_drop_l. apply elem_of_app in Hy as [Hy|Hy].
  - apply list_elem_of_filter in Hy. tauto.
  - left. by apply list_elem_of_singleton.
Qed.

Lemma fifo_push_new {A K} `{EqDecision K} (key : A -> K) cap l x :
  (0 < cap)%nat -> x ∈ fifo_push key cap l x.
Proof.
  intros Hcap. unfold fifo_push. rewrite drop_app_le.
  - set_solver.
  - rewrite length_app. simpl. lia.
Qed.

Lemma NoDup_drop {A} n (l : list A) : NoDup l -> NoDup (drop n l).
Proof. rewrite <- (take_drop n l) at 1. rewrite NoDup_app. tauto. Qed.

Lemma NoDup_filter_key {A K} (key : A -> K) (P : A -> Prop) `{!forall x, Decision (P x)} l :
  NoDup (key <$> l) -> NoDup (key <$> filter P l).
Proof.
  induction l as [|x l IH]; [done|]. rewrite fmap_cons, NoDup_cons, filter_cons.
  intros [Hx Hl]. case_decide; [|by apply IH]. rewrite fmap_cons, NoDup_cons. split; [|by apply IH].
  rewrite list_elem_of_fmap in *. intros (y & E & Hy%list_elem_of_filter). apply Hx. exists y. tauto.
Qed.

Lemma fifo_push_NoDup {A K} `{EqDecision K} (key : A -> K) cap l x :
  NoDup (key <$> l) -> NoDup (key <$> fifo_push key cap l x).
Proof.
  intros Hl. unfold fifo_push. rewrite fmap_drop. apply NoDup_drop.
  rewrite fmap_app, NoDup_app. split_and!; [by apply NoDup_filter_key| |apply NoDup_singleton].
  intros k Hk Hx%list_elem_of_singleton. subst.
  apply list_elem_of_fmap in Hk as (y & E & [Hy _]%list_elem_of_filter). congruence.
Qed.

Lemma sort_insert_perm {A} (le : A -> A -> bool) x l : sort_insert le x l ≡ₚ x :: l.
Proof.
  induction l as [|y l IH]; simpl; [done|]. destruct (le x y); [done|]. rewrite IH. constructor.
Qed.

Lemma stable_sort_perm {A} (le : A -> A -> bool) l : stable_sort le l ≡ₚ l.
Proof. induction l as [|x l IH]; simpl; [done|]. by rewrite sort_insert_perm, IH. Qed.

#[export] Hint Resolve b2z_range length_be_bytes : frp.
#[export] Hint Rewrite length_be_bytes be_value_be_bytes b2z_z2b z2b_b2z : frp.
