(* ===== verification/RustStd.v ===== *)
(** * The Rust standard library's string operations, as the program uses them

    A Rust [str] is its UTF-8 byte sequence, a Rocq [string].  The operations
    are executable and follow the documented behaviour of [core::str]: trimming
    removes the Unicode [White_Space] characters, [split] keeps empty pieces,
    integer parsing rejects empty input, stray characters and overflow. *)
From S2P Require Import Prelude.

(** ** Characters *)
Definition code (c : ascii) : Z := Z.of_N (N_of_ascii c).

Definition is_ascii_upper (c : ascii) : bool := bool_decide (65 <= code c <= 90).
Definition is_ascii_digit (c : ascii) : bool := bool_decide (48 <= code c <= 57).

Definition to_ascii_lower (c : ascii) : ascii :=
  if is_ascii_upper c then ascii_of_N (Z.to_N (code c + 32)) else c.

(** One-, two- and three-byte encodings of the [White_Space] characters. *)
Definition ws1 (a : ascii) : bool :=
  bool_decide (9 <= code a <= 13 \/ code a = 32).
Definition ws2 (a b : ascii) : bool :=
  bool_decide (code a = 194 /\ (code b = 133 \/ code b = 160)).
Definition ws3 (a b c : ascii) : bool :=
  bool_decide
    ((code a = 225 /\ code b = 154 /\ code c = 128) \/
     (code a = 226 /\ code b = 128 /\
        (128 <= code c <= 138 \/ code c = 168 \/ code c = 169 \/ code c = 175)) \/
     (code a = 226 /\ code b = 129 /\ code c = 159) \/
     (code a = 227 /\ code b = 128 /\ code c = 128)).

(** ** Strings *)
Fixpoint str_len (s : string) : Z :=
  match s with EmptyString => 0 | String _ s' => 1 + str_len s' end.

Definition is_empty (s : string) : bool :=
  match s with EmptyString => true | _ => false end.

Fixpoint to_ascii_lowercase (s : string) : string :=
  match s with
  | EmptyString => EmptyString
  | String c s' => String (to_ascii_lower c) (to_ascii_lowercase s')
  end.

Definition eq_ignore_ascii_case (a b : string) : bool :=
  bool_decide (to_ascii_lowercase a = to_ascii_lowercase b).

Fixpoint str_rev_app (s acc : string) : string :=
  match s with EmptyString => acc | String c s' => str_rev_app s' (String c acc) end.
Definition str_rev (s : string) : string := str_rev_app s EmptyString.

Fixpoint trim_start (s : string) : string :=
  match s with
  | EmptyString => EmptyString
  | String a s1 =>
      if ws1 a then trim_start s1 else
      match s1 with
      | EmptyString => s
      | String b s2 =>
          if ws2 a b then trim_start s2 else
          match s2 with
          | EmptyString => s
          | String c s3 => if ws3 a b c then trim_start s3 else s
          end
      end
  end.

(** The same scan from the end of the reversed string. *)
Fixpoint trim_start_rev (s : string) : string :=
  match s with
  | EmptyString => EmptyString
  | String a s1 =>
      if ws1 a then trim_start_rev s1 else
      match s1 with
      | EmptyString => s
      | String b s2 =>
          if ws2 b a then trim_start_rev s2 else
          match s2 with
          | EmptyString => s
          | String c s3 => if ws3 c b a then trim_start_rev s3 else s
          end
      end
  end.

Definition trim_end (s : string) : string := str_rev (trim_start_rev (str_rev s)).
Definition trim (s : string) : string := trim_end (trim_start s).

(** [strip_prefix], [starts_with], [strip_suffix], [ends_with]. *)
Fixpoint strip_prefix (p s : string) : option string :=
  match p, s with
  | EmptyString, _ => Some s
  | String a p', String b s' => if decide (a = b) then strip_prefix p' s' else None
  | String _ _, EmptyString => None
  end.

Definition starts_with (p s : string) : bool :=
  match strip_prefix p s with Some _ => true | None => false end.

Definition strip_suffix (p s : string) : option string :=
  str_rev <$> strip_prefix (str_rev p) (str_rev s).

Definition ends_with (p s : string) : bool :=
  match strip_suffix p s with Some _ => true | None => false end.

Fixpoint contains_char (c : ascii) (s : string) : bool :=
  match s with
  | EmptyString => false
  | String a s' => if decide (a = c) then true else contains_char c s'
  end.

Fixpoint str_any (p : ascii -> bool) (s : string) : bool :=
  match s with EmptyString => false | String a s' => p a || str_any p s' end.

Definition str_all (p : ascii -> bool) (s : string) : bool :=
  negb (str_any (fun c => negb (p c)) s).

(** [s.find(pat)]: the text before and after the first occurrence. *)
Fixpoint split_once (pat : string) (s : string) : option (string * string) :=
  match strip_prefix pat s with
  | Some rest => Some (EmptyString, rest)
  | None =>
      match s with
      | EmptyString => None
      | String c s' =>
          match split_once pat s' with
          | Some (before, after) => Some (String c before, after)
          | None => None
          end
      end
  end.

Definition contains_str (pat s : string) : bool :=
  match split_once pat s with Some _ => true | None => false end.

(** [s.split(c)] for a one-byte character [c]. *)
Fixpoint split_char (c : ascii) (s : string) : list string :=
  match s with
  | EmptyString => [EmptyString]
  | String a s' =>
      if decide (a = c) then EmptyString :: split_char c s'
      else match split_char c s' with
           | p :: ps => String a p :: ps
           | [] => [String a EmptyString]
           end
  end.

(** [s.rsplit_once(c)]. *)
Definition rsplit_once (c : ascii) (s : string) : option (string * string) :=
  match split_once (String c EmptyString) (str_rev s) with
  | Some (after, before) => Some (str_rev before, str_rev after)
  | None => None
  end.

(** ** Integers and text *)

(** [z.to_string()] and the zero-padded [{z:0w}]. *)
Definition dec (z : Z) : string := pretty z.

Fixpoint zeros (n : nat) : string :=
  match n with O => EmptyString | S k => String "0"%char (zeros k) end.

Definition pad0 (w : Z) (z : Z) : string :=
  let body := pretty (Z.to_N (Z.abs z)) in
  let sign := if decide (z < 0) then "-"%string else EmptyString in
  (sign +:+ zeros (Z.to_nat (w - str_len sign - str_len body)) +:+ body)%string.

Fixpoint parse_digits (s : string) (acc : Z) : option Z :=
  match s with
  | EmptyString => Some acc
  | String c s' =>
      if is_ascii_digit c then parse_digits s' (10 * acc + (code c - 48)) else None
  end.

(** [from_str] of an unsigned [w]-bit integer: an optional [+], then digits. *)
Definition parse_unsigned (w : Z) (s : string) : option Z :=
  let body := match s with String "+"%char r => r | _ => s end in
  if is_empty body then None else
  v ← parse_digits body 0;
  if decide (v < 2 ^ w) then Some v else None.

(** [from_str] of a signed [w]-bit integer: an optional [+] or [-]. *)
Definition parse_signed (w : Z) (s : string) : option Z :=
  let '(neg, body) :=
    match s with
    | String "+"%char r => (false, r)
    | String "-"%char r => (true, r)
    | _ => (false, s)
    end in
  if is_empty body then None else
  v ← parse_digits body 0;
  let v := if neg then - v else v in
  if decide (- 2 ^ (w - 1) <= v < 2 ^ (w - 1)) then Some v else None.

(** [s.split_whitespace()]: the text between runs of white space. *)
Fixpoint take_word (fuel : nat) (s : string) : string * string :=
  match fuel, s with
  | S fuel, String c s' =>
      if decide (trim_start s = s) then let '(w, r) := take_word fuel s' in (String c w, r)
      else (EmptyString, s)
  | _, _ => (EmptyString, s)
  end.
Fixpoint words_fuel (fuel : nat) (s : string) : list string :=
  match fuel with
  | O => []
  | S fuel =>
      let s := trim_start s in
      if is_empty s then [] else
      let '(w, r) := take_word (String.length s) s in w :: words_fuel fuel r
  end.
Definition split_whitespace (s : string) : list string := words_fuel (S (String.length s)) s.

Definition crlf : string := String (ascii_of_N 13) (String (ascii_of_N 10) EmptyString).

(** Text made of decimal digits only. *)
Definition is_digits (s : string) : Prop := str_all is_ascii_digit s = true.

(** ** Lemmas *)
Lemma str_len_nonneg s : 0 <= str_len s.
Proof. induction s; simpl; lia. Qed.

Lemma str_app_assoc (a b c : string) : (a +:+ (b +:+ c) = (a +:+ b) +:+ c)%string.
Proof. induction a as [|x a IH]; simpl; [done|by rewrite IH]. Qed.

Lemma str_app_nil_r (a : string) : (a +:+ EmptyString = a)%string.
Proof. induction a as [|x a IH]; simpl; [done|by rewrite IH]. Qed.

Lemma str_len_app (a b : string) : str_len (a +:+ b)%string = str_len a + str_len b.
Proof. induction a as [|x a IH]; simpl; lia. Qed.

Lemma str_rev_app_spec s acc : str_rev_app s acc = (str_rev s +:+ acc)%string.
Proof.
  unfold str_rev. revert acc; induction s as [|c s IH]; intros acc; simpl; [done|].
  rewrite IH, (IH (String c EmptyString)). by rewrite <- str_app_assoc.
Qed.

Lemma str_rev_cons c s : str_rev (String c s) = (str_rev s +:+ String c EmptyString)%string.
Proof. unfold str_rev at 1. simpl. apply str_rev_app_spec. Qed.

Lemma str_rev_app_dist (a b : string) :
  str_rev (a +:+ b)%string = (str_rev b +:+ str_rev a)%string.
Proof.
  induction a as [|c a IH]; simpl.
  - by rewrite str_app_nil_r.
  - by rewrite !str_rev_cons, IH, str_app_assoc.
Qed.

Lemma str_rev_involutive s : str_rev (str_rev s) = s.
Proof.
  induction s as [|c s IH]; [done|].
  by rewrite str_rev_cons, str_rev_app_dist, IH.
Qed.

Lemma str_len_rev s : str_len (str_rev s) = str_len s.
Proof.
  induction s as [|c s IH]; [done|].
  rewrite str_rev_cons, str_len_app, IH; simpl; lia.
Qed.

Lemma strip_prefix_Some p s r : strip_prefix p s = Some r <-> s = (p +:+ r)%string.
Proof.
  revert s; induction p as [|c p IH]; intros s; simpl.
  - split; by intros [= ->] || intros ->.
  - destruct s as [|b s]; [done|]. destruct (decide (c = b)) as [->|].
    + rewrite IH. split; [by intros ->|by intros [= ->]].
    + split; [done|]. intros [= ?]; congruence.
Qed.

Lemma strip_suffix_Some p s r : strip_suffix p s = Some r <-> s = (r +:+ p)%string.
Proof.
  unfold strip_suffix. rewrite fmap_Some. split.
  - intros (x & Hx & ->). apply strip_prefix_Some in Hx.
    by rewrite <- (str_rev_involutive s), Hx, str_rev_app_dist, str_rev_involutive.
  - intros ->. exists (str_rev r). rewrite str_rev_involutive. split; [|done].
    apply strip_prefix_Some. by rewrite str_rev_app_dist.
Qed.

Lemma starts_with_true p s : starts_with p s = true <-> exists r, s = (p +:+ r)%string.
Proof.
  unfold starts_with. destruct (strip_prefix p s) as [r|] eqn:E.
  - apply strip_prefix_Some in E. split; [eauto|done].
  - split; [done|]. intros [r Hr]. apply strip_prefix_Some in Hr. congruence.
Qed.

Lemma ends_with_true p s : ends_with p s = true <-> exists r, s = (r +:+ p)%string.
Proof.
  unfold ends_with. destruct (strip_suffix p s) as [r|] eqn:E.
  - apply strip_suffix_Some in E. split; [eauto|done].
  - split; [done|]. intros [r Hr]. apply strip_suffix_Some in Hr. congruence.
Qed.

Lemma split_once_Some pat s b a :
  split_once pat s = Some (b, a) -> s = (b +:+ (pat +:+ a))%string.
Proof.
  revert b; induction s as [|c s IH]; intros b; simpl.
  - destruct (strip_prefix pat EmptyString) eqn:E; [|done]. intros [= <- <-].
    by apply strip_prefix_Some in E.
  - destruct (strip_prefix pat (String c s)) eqn:E.
    + intros [= <- <-]. by apply strip_prefix_Some in E.
    + destruct (split_once pat s) as [[b' a']|]; [|done].
      intros [= <- <-]. simpl. by rewrite (IH b').
Qed.

Lemma split_once_char c a b : contains_char c a = false ->
  split_once (String c EmptyString) (a +:+ String c b)%string = Some (a, b).
Proof.
  induction a as [|d a IH]; intros H; simpl in *.
  - destruct (decide (c = c)); [by destruct b|done].
  - destruct (decide (d = c)) as [|Hd]; [done|].
    destruct (decide (c = d)); [congruence|]. by rewrite IH.
Qed.

Lemma contains_char_app c a b :
  contains_char c (a +:+ b)%string = contains_char c a || contains_char c b.
Proof. induction a as [|x a IH]; simpl; [done|]. by destruct (decide (x = c)). Qed.

Lemma split_char_nonempty c s : split_char c s <> [].
Proof. destruct s; simpl; [done|]. repeat case_match; done. Qed.

(** A piece without the separator, then the separator: the first piece. *)
Lemma split_char_app c p rest :
  contains_char c p = false ->
  split_char c (p +:+ String c rest)%string = p :: split_char c rest.
Proof.
  induction p as [|x p IH]; simpl; intros H.
  - by rewrite decide_True.
  - destruct (decide (x = c)); [done|]. by rewrite IH.
Qed.

Lemma split_char_single c p : contains_char c p = false -> split_char c p = [p].
Proof.
  induction p as [|x p IH]; simpl; intros H; [done|].
  destruct (decide (x = c)); [done|]. by rewrite IH.
Qed.

Lemma to_ascii_lower_idem c : to_ascii_lower (to_ascii_lower c) = to_ascii_lower c.
Proof. by destruct c as [[] [] [] [] [] [] [] []]; vm_compute. Qed.

Lemma to_ascii_lowercase_idem s :
  to_ascii_lowercase (to_ascii_lowercase s) = to_ascii_lowercase s.
Proof. induction s as [|c s IH]; simpl; [done|]. by rewrite to_ascii_lower_idem, IH. Qed.

Lemma to_ascii_lowercase_app a b :
  to_ascii_lowercase (a +:+ b)%string
  = (to_ascii_lowercase a +:+ to_ascii_lowercase b)%string.
Proof. induction a as [|x a IH]; simpl; [done|by rewrite IH]. Qed.

Lemma is_empty_true s : is_empty s = true <-> s = EmptyString.
Proof. by destruct s. Qed.

Lemma is_empty_false s : is_empty s = false <-> s <> EmptyString.
Proof. by destruct s. Qed.

(** *** Decimal text *)
Lemma str_any_app p a b : str_any p (a +:+ b)%string = str_any p a || str_any p b.
Proof. induction a as [|c a IH]; simpl; [done|]. by rewrite IH, orb_assoc. Qed.

Lemma str_all_app p a b : str_all p (a +:+ b)%string = str_all p a && str_all p b.
Proof. unfold str_all. by rewrite str_any_app, negb_orb. Qed.

Lemma str_all_cons p c s : str_all p (String c s) = p c && str_all p s.
Proof. unfold str_all. simpl. by rewrite negb_orb, negb_involutive. Qed.

Lemma parse_digits_app a b acc v :
  parse_digits a acc = Some v -> parse_digits (a +:+ b)%string acc = parse_digits b v.
Proof.
  revert acc; induction a as [|c a IH]; intros acc; simpl; [by intros [= ->]|].
  destruct (is_ascii_digit c); [apply IH|done].
Qed.

Lemma pretty_N_char_digit x : (x < 10)%N ->
  is_ascii_digit (pretty_N_char x) = true /\ code (pretty_N_char x) - 48 = Z.of_N x.
Proof.
  intros H. assert (x = 0 \/ x = 1 \/ x = 2 \/ x = 3 \/ x = 4 \/ x = 5 \/ x = 6 \/ x = 7
    \/ x = 8 \/ x = 9)%N as Hx by lia.
  by destruct_or! Hx; subst x.
Qed.

Lemma pretty_N_go_spec x : (0 < x)%N -> exists p, is_digits p /\
  (forall s, pretty_N_go x s = (p +:+ s)%string) /\ parse_digits p 0 = Some (Z.of_N x) /\
  p <> EmptyString /\ forall k, (x < 10 ^ k)%N -> str_len p <= Z.of_N k.
Proof.
  induction (N.lt_wf_0 x) as [x _ IH]; intros Hx.
  destruct (pretty_N_char_digit (x mod 10)) as [Hd Hc]; [by apply N.mod_lt|].
  set (c := pretty_N_char (x mod 10)) in *.
  pose proof (N.div_mod x 10 ltac:(lia)) as Hdm.
  destruct (decide (x < 10)%N) as [Hs|Hs].
  - exists (String c EmptyString).
    rewrite N.mod_small in Hc by done.
    split_and!; [by unfold is_digits; rewrite str_all_cons, Hd|..|done|].
    + intros s. rewrite pretty_N_go_step by done. fold c.
      by rewrite N.div_small, pretty_N_go_0 by done.
    + simpl. rewrite Hd. f_equal. lia.
    + intros k Hk. simpl. destruct (decide (k = 0)%N); [subst; simpl in *; lia|lia].
  - assert (x / 10 < x)%N by (apply N.div_lt; lia).
    assert (0 < x / 10)%N by (apply N.div_str_pos; lia).
    destruct (IH (x / 10)%N) as (p & Hp & Hgo & Hparse & Hne & Hlen); [done..|].
    exists (p +:+ String c EmptyString)%string. split_and!.
    + unfold is_digits in *. rewrite str_all_app, Hp, str_all_cons, Hd. done.
    + intros s. rewrite pretty_N_go_step by done. fold c. rewrite Hgo.
      by rewrite <- str_app_assoc.
    + rewrite (parse_digits_app _ _ _ _ Hparse). simpl. rewrite Hd. f_equal. lia.
    + by destruct p.
    + intros k Hk. rewrite str_len_app. simpl.
      destruct (decide (k = 0)%N); [subst; simpl in *; lia|].
      specialize (Hlen (N.pred k)). 
      enough (x / 10 < 10 ^ N.pred k)%N by lia.
      apply N.Div0.div_lt_upper_bound. rewrite <- N.pow_succ_r', N.succ_pred; done.
Qed.

Lemma pretty_N_spec n : exists p, pretty n = p /\ is_digits p /\
  parse_digits p 0 = Some (Z.of_N n) /\ p <> EmptyString /\
  forall k, (0 < k)%N -> (n < 10 ^ k)%N -> str_len p <= Z.of_N k.
Proof.
  destruct (decide (n = 0%N)) as [->|Hn].
  - exists "0"%string. split_and!; try done. intros. simpl. lia.
  - destruct (pretty_N_go_spec n) as (p & Hp & Hgo & Hparse & Hne & Hlen); [lia|].
    exists p. split_and!; try done.
    + unfold pretty, pretty_N. rewrite decide_False by done. by rewrite Hgo, str_app_nil_r.
    + intros k _ Hk. by apply Hlen.
Qed.
Lemma str_len_zeros n : str_len (zeros n) = Z.of_nat n.
Proof. induction n; simpl; lia. Qed.

Lemma zeros_digits n : is_digits (zeros n) /\ parse_digits (zeros n) 0 = Some 0.
Proof.
  induction n as [|n [IH1 IH2]]; simpl; [done|].
  unfold is_digits in *. by rewrite str_all_cons, IH1.
Qed.

(** Zero-padded text of a number that fits its width. *)
Lemma pad0_spec w z : 0 < w -> 0 <= z < 10 ^ w ->
  is_digits (pad0 w z) /\ str_len (pad0 w z) = w /\ parse_digits (pad0 w z) 0 = Some z.
Proof.
  intros Hw Hz. destruct (pretty_N_spec (Z.to_N z)) as (p & Hp & Hd & Hparse & Hne & Hlen).
  unfold pad0. rewrite Z.abs_eq, decide_False, Hp by lia. simpl (_ +:+ _)%string.
  specialize (Hlen (Z.to_N w)).
  assert (str_len p <= w) as Hlp.
  { rewrite Z2N.id in Hlen by lia. apply Hlen; [lia|].
    apply N2Z.inj_lt. rewrite N2Z.inj_pow, !Z2N.id; lia. }
  destruct (zeros_digits (Z.to_nat (w - 0 - str_len p))) as [Hzd Hzp].
  split_and!.
  - unfold is_digits in *. change (EmptyString +:+ ?x)%string with x.
    by rewrite str_all_app, Hd, Hzd.
  - change (EmptyString +:+ ?x)%string with x. rewrite str_len_app, str_len_zeros.
    simpl str_len. lia.
  - change (EmptyString +:+ ?x)%string with x.
    rewrite (parse_digits_app _ _ _ _ Hzp), Hparse. f_equal; lia.
Qed.

Lemma digits_no_char c s : is_ascii_digit c = false -> is_digits s -> contains_char c s = false.
Proof.
  unfold is_digits. intros Hc. induction s as [|x s IH]; [done|].
  rewrite str_all_cons, andb_true_iff. intros [Hx Hs]. simpl.
  destruct (decide (x = c)) as [->|]; [congruence|auto].
Qed.

Lemma parse_digits_nonneg s acc v : 0 <= acc -> parse_digits s acc = Some v -> acc <= v.
Proof.
  revert acc; induction s as [|c s IH]; simpl; intros acc Hacc; [by intros [= ->]|].
  destruct (is_ascii_digit c) eqn:E; [|done]. unfold is_ascii_digit in E.
  apply bool_decide_eq_true in E. intros H%IH; lia.
Qed.

Lemma parse_unsigned_digits w s v :
  is_digits s -> s <> EmptyString -> parse_digits s 0 = Some v -> v < 2 ^ w ->
  parse_unsigned w s = Some v.
Proof.
  intros Hd Hne Hp Hv. unfold parse_unsigned.
  assert ((match s with String "+"%char r => r | _ => s end) = s) as ->.
  { destruct s as [|c s]; [done|]. unfold is_digits in Hd. rewrite str_all_cons in Hd.
    by destruct c as [[] [] [] [] [] [] [] []]. }
  rewrite (proj2 (is_empty_false s)) by done. rewrite Hp. simpl. by rewrite decide_True.
Qed.

Lemma parse_signed_digits w s v :
  is_digits s -> s <> EmptyString -> parse_digits s 0 = Some v -> v < 2 ^ (w - 1) ->
  parse_signed w s = Some v.
Proof.
  intros Hd Hne Hp Hv. unfold parse_signed.
  assert (match s with
    | String "+"%char r => (false, r)
    | String "-"%char r => (true, r)
    | _ => (false, s)
    end = (false, s)) as ->.
  { destruct s as [|c s]; [done|]. unfold is_digits in Hd. rewrite str_all_cons in Hd.
    by destruct c as [[] [] [] [] [] [] [] []]. }
  rewrite (proj2 (is_empty_false s)) by done. rewrite Hp. simpl.
  apply parse_digits_nonneg in Hp; [|done].
  rewrite decide_True; [done|]. lia.
Qed.

#[export] Hint Rewrite str_len_app str_len_rev str_rev_involutive
  to_ascii_lowercase_idem : frp.
#[export] Hint Resolve str_len_nonneg split_char_nonempty : frp.
