(* ===== verification/RustFmt.v ===== *)
(** * Debug formatting and floating-point text

    The parts of [core::fmt] and of [f64::from_str] that configuration checking
    uses.  Debug formatting is exact on ASCII; other characters are kept as they
    are (Rust also escapes the non-printable ones among them). *)
From S2P Require Import Prelude RustStd.

Definition dquote : string := String (ascii_of_N 34) EmptyString.

Definition hex_digit (d : Z) : ascii :=
  ascii_of_N (Z.to_N (if decide (d < 10) then 48 + d else 87 + d)).

(** One- or two-digit hexadecimal. *)
Definition hex (z : Z) : string :=
  (if decide (z < 16) then EmptyString else String (hex_digit (z / 16)) EmptyString)
    +:+ String (hex_digit (z mod 16)) EmptyString.

Definition debug_char (c : ascii) : string :=
  let z := code c in
  if decide (z = 0) then "\0"%string
  else if decide (z = 9) then "\t"%string
  else if decide (z = 10) then "\n"%string
  else if decide (z = 13) then "\r"%string
  else if decide (z = 34) then ("\" +:+ dquote)%string
  else if decide (z = 92) then "\\"%string
  else if decide (z < 32 \/ z = 127) then ("\u{" +:+ hex z +:+ "}")%string
  else String c EmptyString.

Fixpoint debug_chars (s : string) : string :=
  match s with
  | EmptyString => EmptyString
  | String c s' => (debug_char c +:+ debug_chars s')%string
  end.

(** [{:?}] of a [str] and of a slice of them. *)
Definition debug_str (s : string) : string := (dquote +:+ debug_chars s +:+ dquote)%string.

Definition str_join (sep : string) (l : list string) : string :=
  match l with
  | [] => EmptyString
  | s :: l => foldl (fun acc x => acc +:+ sep +:+ x)%string s l
  end.

Definition debug_strs (l : list string) : string :=
  ("[" +:+ str_join ", " (map debug_str l) +:+ "]")%string.

(** ** Characters and cases *)
Definition is_ascii_lowercase (c : ascii) : bool := bool_decide (97 <= code c <= 122).
Definition is_ascii_alphanumeric (c : ascii) : bool :=
  is_ascii_upper c || is_ascii_lowercase c || is_ascii_digit c.

Definition to_ascii_upper (c : ascii) : ascii :=
  if is_ascii_lowercase c then ascii_of_N (Z.to_N (code c - 32)) else c.

Fixpoint to_ascii_uppercase (s : string) : string :=
  match s with
  | EmptyString => EmptyString
  | String c s' => String (to_ascii_upper c) (to_ascii_uppercase s')
  end.

(** [s.split([..]).next()]: the text before the first of the given characters. *)
Fixpoint before_any (cs : list ascii) (s : string) : string :=
  match s with
  | EmptyString => EmptyString
  | String a s' => if decide (a ∈ cs) then EmptyString else String a (before_any cs s')
  end.

(** [trim_end_matches('/')], on the reversed text. *)
Fixpoint drop_slashes (s : string) : string :=
  match s with String "/"%char s => drop_slashes s | _ => s end.
Definition trim_end_slashes (s : string) : string := str_rev (drop_slashes (str_rev s)).

(** ** [f64::from_str]

    The text is an infinity, a NaN or a decimal [m * 10^e] with a sign. *)
Inductive f64_text :=
| FInf (negative : bool)
| FNan
| FDec (negative : bool) (m e : Z).

(** The leading digits: their value, their number and the rest. *)
Fixpoint take_digits (s : string) (acc n : Z) : Z * Z * string :=
  match s with
  | String c s' =>
      if is_ascii_digit c then take_digits s' (10 * acc + (code c - 48)) (n + 1)
      else (acc, n, s)
  | EmptyString => (acc, n, s)
  end.

(** An optional sign. *)
Definition take_sign (s : string) : bool * string :=
  match s with
  | String "+"%char r => (false, r)
  | String "-"%char r => (true, r)
  | _ => (false, s)
  end.

Definition parse_exponent (s : string) : option Z :=
  match s with
  | EmptyString => Some 0
  | String c r =>
      if decide (c = "e"%char \/ c = "E"%char) then
        let '(neg, r) := take_sign r in
        let '(v, n, rest) := take_digits r 0 0 in
        if decide (0 < n /\ rest = EmptyString) then Some (if neg then - v else v) else None
      else None
  end.

Definition parse_decimal (s : string) : option (Z * Z) :=
  let '(m, ni, rest) := take_digits s 0 0 in
  let '(m, nf, rest) :=
    match rest with
    | String "."%char r => take_digits r m 0
    | _ => (m, 0, rest)
    end in
  if decide (ni + nf = 0) then None else
  e ← parse_exponent rest;
  Some (m, e - nf).

Definition parse_f64 (s : string) : option f64_text :=
  let '(neg, body) := take_sign s in
  match parse_decimal body with
  | Some (m, e) => Some (FDec neg m e)
  | None =>
      if eq_ignore_ascii_case body "inf" || eq_ignore_ascii_case body "infinity"
      then Some (FInf neg)
      else if eq_ignore_ascii_case body "nan" then Some FNan else None
  end.

(** [v.is_finite() && v > 0.0] of the nearest double: above half of the least
    subnormal and below the midpoint past the largest finite value. *)
Definition finite_positive (v : f64_text) : bool :=
  match v with
  | FDec false m e =>
      bool_decide (10 ^ Z.max 0 (- e) < m * 10 ^ Z.max 0 e * 2 ^ 1075) &&
      bool_decide (m * 10 ^ Z.max 0 e < (2 ^ 1024 - 2 ^ 970) * 10 ^ Z.max 0 (- e))
  | _ => false
  end.

Example parse_f64_ex : parse_f64 "1.5e3" = Some (FDec false 15 2).
Proof. reflexivity. Qed.
Example debug_ex : debug_strs ["a"; "b\"]%string =
  ("[" +:+ dquote +:+ "a" +:+ dquote +:+ ", " +:+ dquote +:+ "b\\" +:+ dquote +:+ "]")%string.
Proof. reflexivity. Qed.

(** ** Lemmas *)
Lemma take_digits_value s acc n v k rest :
  0 <= acc -> take_digits s acc n = (v, k, rest) -> 0 <= v.
Proof.
  revert acc n; induction s as [|c s IH]; simpl; intros acc n Ha.
  { by intros [= <- _ _]. }
  destruct (is_ascii_digit c) eqn:E; [|by intros [= <- _ _]].
  apply bool_decide_eq_true in E. apply IH. lia.
Qed.

(** A string of digits is the decimal it writes. *)
Lemma take_digits_all s acc n :
  is_digits s -> exists v, take_digits s acc n = (v, n + str_len s, EmptyString) /\
    parse_digits s acc = Some v.
Proof.
  unfold is_digits, str_all. revert acc n; induction s as [|c s IH]; simpl; intros acc n Hd.
  { exists acc. by rewrite Z.add_0_r. }
  destruct (is_ascii_digit c); [|done]. simpl in Hd.
  destruct (IH (10 * acc + (code c - 48)) (n + 1) Hd) as (v & -> & ->).
  exists v. split; [|done]. do 2 f_equal. lia.
Qed.
