(* ===== verification/Utf8.v ===== *)
(** * Text from bytes

    [String::from_utf8_lossy]: every maximal ill-formed sequence becomes
    U+FFFD, as the standard library's [Utf8Chunks] decides it.  Also
    [str::lines] and searching a byte string. *)
From S2P Require Import Prelude RustStd.

Definition REPLACEMENT : list byte := [Byte.xef; Byte.xbf; Byte.xbd].

Definition in_range (lo hi : Z) (b : byte) : bool := bool_decide (lo <= b2z b <= hi).
Definition continuation : byte -> bool := in_range 128 191.

(** What may follow the first byte of a sequence: [None] if it starts none. *)
Definition utf8_tail (b : byte) : option (list (byte -> bool)) :=
  let z := b2z b in
  if decide (z < 128) then Some []
  else if decide (194 <= z <= 223) then Some [continuation]
  else if decide (z = 224) then Some [in_range 160 191; continuation]
  else if decide (z = 237) then Some [in_range 128 159; continuation]
  else if decide (225 <= z <= 239) then Some [continuation; continuation]
  else if decide (z = 240) then Some [in_range 144 191; continuation; continuation]
  else if decide (z = 244) then Some [in_range 128 143; continuation; continuation]
  else if decide (241 <= z <= 243) then Some [continuation; continuation; continuation]
  else None.

(** How many of the expected bytes follow. *)
Fixpoint utf8_match (tail : list (byte -> bool)) (l : list byte) : nat :=
  match tail, l with
  | p :: tail, b :: l => if p b then S (utf8_match tail l) else O
  | _, _ => O
  end.

Fixpoint lossy_fuel (fuel : nat) (l : list byte) : list byte :=
  match fuel, l with
  | S fuel, b :: rest =>
      match utf8_tail b with
      | None => REPLACEMENT ++ lossy_fuel fuel rest
      | Some tail =>
          let k := utf8_match tail rest in
          (if decide (k = length tail) then b :: take k rest else REPLACEMENT)
            ++ lossy_fuel fuel (drop k rest)
      end
  | _, _ => []
  end.

Definition utf8_lossy_bytes (l : list byte) : list byte := lossy_fuel (length l) l.
Definition from_utf8_lossy (l : list byte) : string := of_bytes (utf8_lossy_bytes l).

(** Well-formed UTF-8. *)
Fixpoint utf8_fuel (fuel : nat) (l : list byte) : bool :=
  match fuel, l with
  | _, [] => true
  | O, _ => false
  | S fuel, b :: rest =>
      match utf8_tail b with
      | None => false
      | Some tail => bool_decide (utf8_match tail rest = length tail) && utf8_fuel fuel (drop (length tail) rest)
      end
  end.
Definition is_utf8 (l : list byte) : bool := utf8_fuel (length l) l.

(** [str::lines]: a final empty line is dropped, and so is a line's [\r]. *)
Definition strip_cr (s : string) : string := default s (strip_suffix (String (ascii_of_N 13) EmptyString) s).

Definition str_lines (s : string) : list string :=
  let parts := split_char (ascii_of_N 10) s in
  let parts := match last parts with
               | Some l => if is_empty l then take (length parts - 1) parts else parts
               | None => parts
               end in
  map strip_cr parts.

(** [l.windows(pat.len()).position(|w| w == pat)]. *)
Fixpoint position_of (pat l : list byte) : option nat :=
  if decide (take (length pat) l = pat) then Some O else
  match l with
  | [] => None
  | _ :: l => S <$> position_of pat l
  end.

(** ** Lemmas *)
Lemma utf8_match_le tail l : (utf8_match tail l <= length tail)%nat.
Proof.
  revert l; induction tail as [|p tail IH]; intros [|b l]; simpl; try lia.
  destruct (p b); [specialize (IH l)|]; lia.
Qed.

Lemma utf8_match_len tail l : (utf8_match tail l <= length l)%nat.
Proof.
  revert l; induction tail as [|p tail IH]; intros [|b l]; simpl; try lia.
  destruct (p b); [specialize (IH l)|]; lia.
Qed.

(** Well-formed text is unchanged. *)
Lemma lossy_id fuel l : (length l <= fuel)%nat -> utf8_fuel fuel l = true -> lossy_fuel fuel l = l.
Proof.
  revert l; induction fuel as [|fuel IH]; intros [|b rest] Hl H; simpl in *; try done; try lia.
  destruct (utf8_tail b) as [tail|]; [|done].
  apply andb_true_iff in H as [Hk%bool_decide_eq_true H]. rewrite Hk, decide_True by done.
  rewrite IH; [|rewrite length_drop; lia|done]. simpl. by rewrite take_drop.
Qed.

Lemma utf8_lossy_id l : is_utf8 l = true -> utf8_lossy_bytes l = l.
Proof. intros H. by apply lossy_id. Qed.

Definition ascii_bytes (l : list byte) : Prop := Forall (fun b => b2z b < 128) l.

Lemma ascii_utf8 l : ascii_bytes l -> is_utf8 l = true.
Proof.
  intros H. unfold is_utf8. induction H as [|b l Hb _ IH]; [done|]. simpl.
  unfold utf8_tail. rewrite decide_True by done. simpl. by rewrite drop_0.
Qed.

Lemma lossy_ascii l : ascii_bytes l -> from_utf8_lossy l = of_bytes l.
Proof. intros H. unfold from_utf8_lossy. by rewrite utf8_lossy_id by by apply ascii_utf8. Qed.

(** The text of lossy decoding is well-formed. *)
Lemma utf8_match_app tail l rest : utf8_match tail l = length tail -> utf8_match tail (l ++ rest) = length tail.
Proof.
  revert l; induction tail as [|p tail IH]; intros [|b l] H; simpl in *; try done.
  destruct (p b); [|done]. by rewrite IH by lia.
Qed.

Lemma position_of_Some pat l i : position_of pat l = Some i -> exists pre post, l = pre ++ pat ++ post /\ length pre = i.
Proof.
  revert i; induction l as [|b l IH]; intros i; simpl.
  - destruct (decide _) as [E|]; [|done]. intros [= <-]. exists [], []. rewrite take_nil in E. by subst.
  - destruct (decide _) as [E|].
    + intros [= <-]. exists [], (drop (length pat) (b :: l)). simpl. split; [|done].
      rewrite <- E at 1. by rewrite take_drop.
    + intros (j & Hj & ->)%fmap_Some. apply IH in Hj as (pre & post & -> & <-).
      by exists (b :: pre), post.
Qed.

(** The first occurrence. *)
Lemma position_of_first pat pre post : (0 < length pat)%nat ->
  (forall i, (i < length pre)%nat -> take (length pat) (drop i (pre ++ pat ++ post)) <> pat) ->
  position_of pat (pre ++ pat ++ post) = Some (length pre).
Proof.
  intros Hp. induction pre as [|b pre IH]; intros H.
  - destruct pat as [|x pat]; [simpl in Hp; lia|]. simpl.
    by rewrite decide_True by (by rewrite take_app_length).
  - simpl. rewrite decide_False.
    + rewrite IH; [done|]. intros i Hi. apply (H (S i)). simpl. lia.
    + apply (H 0%nat). simpl. lia.
Qed.

(** ** Visible ASCII text *)

(** A character that is neither white space nor part of any. *)
Definition visible (c : ascii) : bool := bool_decide (33 <= code c <= 126).

Lemma visible_not_ws c x y : visible c = true -> ws1 c = false /\ ws2 c x = false /\ ws3 c x y = false /\
  ws2 x c = false /\ ws3 x y c = false.
Proof.
  unfold visible, ws1, ws2, ws3. rewrite bool_decide_eq_true. intros Hc.
  split_and!; apply bool_decide_eq_false; lia.
Qed.

Lemma trim_start_visible c s : visible c = true -> trim_start (String c s) = String c s.
Proof.
  intros Hc. cbn [trim_start]. rewrite (proj1 (visible_not_ws c c c Hc)).
  destruct s as [|b [|d s]]; [done|..].
  - by rewrite (proj1 (proj2 (visible_not_ws c b b Hc))).
  - destruct (visible_not_ws c b d Hc) as (_ & -> & -> & _). done.
Qed.

Lemma trim_start_rev_visible c s : visible c = true -> trim_start_rev (String c s) = String c s.
Proof.
  intros Hc. cbn [trim_start_rev]. rewrite (proj1 (visible_not_ws c c c Hc)).
  destruct s as [|b [|d s]]; [done|..].
  - destruct (visible_not_ws c b b Hc) as (_ & _ & _ & -> & _). done.
  - destruct (visible_not_ws c b d Hc) as (_ & _ & _ & -> & _).
    by destruct (visible_not_ws c d b Hc) as (_ & _ & _ & _ & ->).
Qed.

(** Text that starts and ends with a visible character, or is empty. *)
Definition tight (s : string) : Prop :=
  s = EmptyString \/ (exists c t, s = String c t /\ visible c = true) /\
                     (exists t c, s = (t +:+ String c EmptyString)%string /\ visible c = true).

Lemma trim_tight s : tight s -> trim s = s.
Proof.
  intros [->|[(c & t & -> & Hc) (t' & c' & E & Hc')]]; [done|].
  unfold trim. rewrite trim_start_visible by done. unfold trim_end. rewrite E, str_rev_app_dist.
  cbn [str_rev str_rev_app]. change (str_rev (String c' EmptyString)) with (String c' EmptyString).
  cbn [app]. change (String c' EmptyString +:+ str_rev t')%string with (String c' (str_rev t')).
  rewrite trim_start_rev_visible by done.
  rewrite str_rev_cons, str_rev_involutive. done.
Qed.

Lemma trim_after_space s : trim (String " "%char s) = trim s.
Proof. done. Qed.

Lemma word_tight s : str_all visible s = true -> tight s.
Proof.
  destruct s as [|c s]; [by left|]. intros H. right. split.
  - exists c, s. split; [done|]. unfold str_all in H. simpl in H. by destruct (visible c).
  - revert c H. induction s as [|d s IH]; intros c H.
    + exists EmptyString, c. split; [done|]. unfold str_all in H. simpl in H. by destruct (visible c).
    + destruct (IH d) as (t & e & E & He).
      { unfold str_all in *. simpl in *. by destruct (visible c). }
      exists (String c t), e. by rewrite E.
Qed.

Lemma str_all_cons_iff p c s : str_all p (String c s) = true <-> p c = true /\ str_all p s = true.
Proof. unfold str_all. simpl. destruct (p c); simpl; naive_solver. Qed.

Lemma trim_start_length s : (String.length (trim_start s) <= String.length s)%nat.
Proof.
  induction s as [s IH] using (induction_ltof1 _ String.length). unfold ltof in IH.
  destruct s as [|a [|b [|c s]]]; cbn [trim_start]; repeat case_match; simpl in *; try lia.
  all: etransitivity; [apply IH; simpl; lia|simpl; lia].
Qed.

(** The first word of a text. *)
Lemma take_word_space w rest fuel : str_all visible w = true ->
  (String.length w < fuel)%nat -> take_word fuel (w +:+ String " "%char rest)%string = (w, String " "%char rest).
Proof.
  revert fuel; induction w as [|c w IH]; intros [|fuel] Hw Hf; simpl in Hf; try lia.
  - change (EmptyString +:+ String " "%char rest)%string with (String " "%char rest). cbn [take_word].
    rewrite decide_False; [done|]. cbn [trim_start]. change (ws1 " "%char) with true. cbn iota.
    intros E. apply (f_equal String.length) in E. pose proof (trim_start_length rest). simpl in E. lia.
  - apply str_all_cons_iff in Hw as [Hc Hw].
    change (String c w +:+ String " "%char rest)%string with (String c (w +:+ String " "%char rest)).
    cbn [take_word]. rewrite decide_True by (by apply trim_start_visible).
    rewrite IH by (done || lia). done.
Qed.

Lemma take_word_end w fuel : str_all visible w = true ->
  (String.length w <= fuel)%nat -> take_word fuel w = (w, EmptyString).
Proof.
  revert fuel; induction w as [|c w IH]; intros [|fuel] Hw Hf; simpl in Hf; try lia; try done.
  apply str_all_cons_iff in Hw as [Hc Hw]. cbn [take_word].
  rewrite decide_True by (by apply trim_start_visible). rewrite IH by (done || lia). done.
Qed.

Lemma str_length_app a b : String.length (a +:+ b)%string = (String.length a + String.length b)%nat.
Proof. induction a as [|c a IH]; [done|]. simpl. by rewrite <- IH. Qed.

Lemma words_fuel_space fuel s : words_fuel fuel (String " "%char s) = words_fuel fuel s.
Proof. by destruct fuel. Qed.

Lemma words_fuel_word w rest fuel : w <> EmptyString -> str_all visible w = true ->
  words_fuel (S fuel) (w +:+ String " "%char rest)%string = w :: words_fuel fuel rest.
Proof.
  intros Hne Hw. destruct w as [|c w]; [done|]. pose proof Hw as Hw'. apply str_all_cons_iff in Hw' as [Hc _].
  cbn [words_fuel]. change (String c w +:+ String " "%char rest)%string with (String c (w +:+ String " "%char rest)).
  rewrite trim_start_visible by done. cbn [is_empty].
  change (String c (w +:+ String " "%char rest)) with (String c w +:+ String " "%char rest)%string.
  rewrite take_word_space; [by rewrite words_fuel_space|done|].
  rewrite str_length_app. simpl. lia.
Qed.

Lemma words_fuel_last w fuel : w <> EmptyString -> str_all visible w = true ->
  words_fuel (S (S fuel)) w = [w].
Proof.
  intros Hne Hw. destruct w as [|c w]; [done|]. pose proof Hw as Hw'. apply str_all_cons_iff in Hw' as [Hc _].
  remember (String c w) as s eqn:E. cbn [words_fuel]. assert (trim_start s = s) as -> by (rewrite E; by apply trim_start_visible).
  rewrite E at 1. cbn [is_empty]. by rewrite take_word_end.
Qed.

(** Three words. *)
Lemma split_three a b c : a <> EmptyString -> b <> EmptyString -> c <> EmptyString ->
  str_all visible a = true -> str_all visible b = true -> str_all visible c = true ->
  split_whitespace (a +:+ String " "%char (b +:+ String " "%char c))%string = [a; b; c].
Proof.
  intros Ha Hb Hc Va Vb Vc. unfold split_whitespace.
  rewrite words_fuel_word by done. rewrite str_length_app. cbn [String.length].
  rewrite str_length_app. cbn [String.length].
  replace (String.length a + S (String.length b + S (String.length c)))%nat
    with (S (S (S (String.length a + String.length b + String.length c - 1)))).
  - by rewrite words_fuel_word, words_fuel_last.
  - destruct a; [done|]. simpl. lia.
Qed.

(** ** Lines *)

(** Lines ended by CR LF, then the rest. *)
Definition crlf_lines (ls : list string) (rest : string) : string :=
  foldr (fun l acc => l +:+ crlf +:+ acc)%string rest ls.

Definition LF : ascii := ascii_of_N 10.

Lemma strip_cr_line l : strip_cr (l +:+ String (ascii_of_N 13) EmptyString)%string = l.
Proof.
  unfold strip_cr. by rewrite (proj2 (strip_suffix_Some _ _ l)).
Qed.

Lemma split_crlf_lines ls rest : Forall (fun l => contains_char LF l = false) ls ->
  split_char LF (crlf_lines ls rest) =
  map (fun l => l +:+ String (ascii_of_N 13) EmptyString)%string ls ++ split_char LF rest.
Proof.
  induction 1 as [|l ls Hl _ IH]; [done|]. cbn [crlf_lines foldr map app].
  fold (crlf_lines ls rest). change crlf with (String (ascii_of_N 13) (String LF EmptyString)).
  change (String (ascii_of_N 13) (String LF EmptyString) +:+ crlf_lines ls rest)%string
    with (String (ascii_of_N 13) EmptyString +:+ String LF (crlf_lines ls rest))%string.
  rewrite str_app_assoc, split_char_app, IH; [done|].
  rewrite contains_char_app, Hl. done.
Qed.

Lemma str_lines_crlf ls rest : Forall (fun l => contains_char LF l = false) ls ->
  exists more, str_lines (crlf_lines ls rest) = ls ++ more.
Proof.
  intros Hl. unfold str_lines. fold LF. rewrite split_crlf_lines by done.
  set (parts := map _ ls). pose proof (split_char_nonempty LF rest) as Hne.
  assert (exists more, match last (parts ++ split_char LF rest) with
    | Some l => if is_empty l then take (length (parts ++ split_char LF rest) - 1) (parts ++ split_char LF rest)
                else parts ++ split_char LF rest
    | None => parts ++ split_char LF rest
    end = parts ++ more) as [more ->].
  { destruct (last _) as [l|]; [|eauto]. destruct (is_empty l); [|eauto].
    rewrite length_app, take_app_ge.
    - eauto.
    - destruct (split_char LF rest); [done|]. simpl. lia. }
  exists (map strip_cr more). rewrite map_app. f_equal. unfold parts.
  clear. induction ls as [|l ls IH]; [done|]. cbn [map]. by rewrite strip_cr_line, IH.
Qed.
