(* ===== verification/ConfigTypes.v ===== *)
(** * The configuration model (src/rust_frp_config/src/types.rs)

    Every configuration struct as a record with the source's fields, prefixed by
    a short name of the struct, the [Default] instances, the accessors, and the
    custom-domain syntax check.  Port numbers and counters are [Z]. *)
From S2P Require Import Prelude RustStd RustFmt.

(** ** Logging *)
Record LogConfig := {
  log_to : option string;
  log_level : option string;
  log_max_days : option Z;
}.

Definition default_log : LogConfig :=
  {| log_to := None; log_level := None; log_max_days := None |}.

Record ResolvedLog := {
  rl_to : option string;
  rl_level : option string;
  rl_max_days : Z;
}.

Definition DEFAULT_LOG_MAX_DAYS : Z := 3.

(** [pick] of [LogConfig::merge]. *)
Definition pick_log (sect legacy : option string) : option string :=
  match (match sect with Some s => Some s | None => legacy end) with
  | Some s => let s := trim s in if is_empty s then None else Some s
  | None => None
  end.

Definition merge_log (l : LogConfig) (legacy_to legacy_level : option string)
    (legacy_max_days : option Z) : ResolvedLog :=
  {| rl_to := pick_log (log_to l) legacy_to;
     rl_level := pick_log (log_level l) legacy_level;
     rl_max_days := default DEFAULT_LOG_MAX_DAYS
       (match log_max_days l with Some d => Some d | None => legacy_max_days end) |}.

(** ** Web server, plugins, authentication *)
Record WebServerConfig := {
  ws_addr : string;
  ws_port : Z;
  ws_user : option string;
  ws_password : option string;
  ws_expose_metrics : bool;
}.

Definition default_web_server : WebServerConfig :=
  {| ws_addr := EmptyString; ws_port := 0; ws_user := None; ws_password := None;
     ws_expose_metrics := false |}.

Record HttpPluginConfig := {
  hp_name : string;
  hp_addr : string;
  hp_path : string;
  hp_ops : list string;
  hp_tls_verify : bool;
}.

Definition VALID_PLUGIN_OPS : list string :=
  ["Login"; "NewProxy"; "CloseProxy"; "Ping"; "NewWorkConn"; "NewUserConn"]%string.

Inductive ClientIdPolicy := Warn | Reject.

Record TokenSource := {
  ts_type : string;
  ts_file_path : option string;
  ts_exec : option (list string);
}.

Record OidcConfig := {
  oidc_issuer : string;
  oidc_audience : string;
  oidc_client_id : string;
  oidc_client_secret : string;
  oidc_token_endpoint_url : string;
  oidc_scope : string;
  oidc_additional_endpoint_params : gmap string string;
  oidc_trusted_ca_file : string;
  oidc_insecure_skip_verify : bool;
  oidc_skip_expiry_check : bool;
  oidc_skip_issuer_check : bool;
}.

Record AuthConfig := {
  au_method : string;
  au_token : option string;
  au_token_source : option TokenSource;
  au_additional_scopes : option (list string);
  au_client_id_policy : ClientIdPolicy;
  au_login_max_failures : Z;
  au_login_lockout_secs : Z;
  au_kick_require_same_cert : bool;
  au_oidc : option OidcConfig;
}.

Definition default_auth : AuthConfig :=
  {| au_method := "token"; au_token := None; au_token_source := None;
     au_additional_scopes := None; au_client_id_policy := Warn;
     au_login_max_failures := 5; au_login_lockout_secs := 600;
     au_kick_require_same_cert := false; au_oidc := None |}.

(** ** Transport *)
Record QuicConfig := {
  quic_max_idle_timeout : option Z;
  quic_max_incoming_streams : option Z;
  quic_keepalive_period : option Z;
}.

Record TlsConfig := {
  tls_enable : bool;
  tls_cert_file : option string;
  tls_key_file : option string;
  tls_trusted_ca_file : option string;
  tls_skip_verify : bool;
  tls_client_ca_file : option string;
  tls_require_client_cert : bool;
  tls_force : bool;
}.

Definition default_tls : TlsConfig :=
  {| tls_enable := true; tls_cert_file := None; tls_key_file := None;
     tls_trusted_ca_file := None; tls_skip_verify := false; tls_client_ca_file := None;
     tls_require_client_cert := false; tls_force := false |}.

Definition DEFAULT_MAX_POOL_COUNT : Z := 0.
Definition DEFAULT_TCP_KEEPALIVE_SECS : Z := 30.

Record TransportConfig := {
  tr_protocol : string;
  tr_tls : option TlsConfig;
  tr_tcp_mux : bool;
  tr_tls_only : bool;
  tr_pool_count : Z;
  tr_max_pool_count : option Z;
  tr_tcp_keepalive_secs : Z;
  tr_bandwidth_limit : option string;
  tr_use_encryption : bool;
  tr_use_compression : bool;
  tr_quic : option QuicConfig;
  tr_wire_protocol : string;
  tr_work_conn_via : string;
}.

Definition default_transport : TransportConfig :=
  {| tr_protocol := "tcp"; tr_tls := None; tr_tcp_mux := true; tr_tls_only := false;
     tr_pool_count := 0; tr_max_pool_count := None;
     tr_tcp_keepalive_secs := DEFAULT_TCP_KEEPALIVE_SECS; tr_bandwidth_limit := None;
     tr_use_encryption := false; tr_use_compression := false; tr_quic := None;
     tr_wire_protocol := "v1"; tr_work_conn_via := "auto" |}.

Definition effective_max_pool_count (t : TransportConfig) : Z :=
  default DEFAULT_MAX_POOL_COUNT (tr_max_pool_count t).

(** In nanoseconds. *)
Definition tcp_keepalive_idle (t : TransportConfig) : option Z :=
  if decide (tr_tcp_keepalive_secs t = 0) then None else Some (secs (tr_tcp_keepalive_secs t)).

(** ** Proxies and visitors *)
Record PortRange := {
  pr_start : option Z;
  pr_end : option Z;
  pr_single : option Z;
}.

Record HealthCheckConfig := {
  hc_type : string;
  hc_timeout_seconds : Z;
  hc_max_failed : Z;
  hc_interval_seconds : Z;
  hc_path : option string;
}.

Record HeaderOperations := { ho_set : gmap string string }.

Record PluginConfig := {
  pl_type : string;
  pl_unix_path : option string;
  pl_local_path : option string;
  pl_strip_prefix : option string;
  pl_http_user : option string;
  pl_http_password : option string;
  pl_username : option string;
  pl_password : option string;
  pl_local_addr : option string;
  pl_crt_path : option string;
  pl_key_path : option string;
  pl_host_header_rewrite : option string;
  pl_request_headers : option HeaderOperations;
}.

Record ProxyConfig := {
  px_name : string;
  px_type : string;
  px_local_ip : string;
  px_local_port : Z;
  px_remote_port : option Z;
  px_custom_domains : option (list string);
  px_subdomain : option string;
  px_locations : option (list string);
  px_host_header_rewrite : option string;
  px_http_user : option string;
  px_http_password : option string;
  px_health_check : option HealthCheckConfig;
  px_bandwidth_limit : option string;
  px_secret_key : option string;
  px_transport : option TransportConfig;
  px_plugin : option PluginConfig;
  px_proxy_protocol : option bool;
  px_proxy_protocol_version : option string;
  px_group : option string;
  px_group_key : option string;
  px_use_encryption : bool;
  px_use_compression : bool;
  px_multiplexer : option string;
  px_route_by_http_user : option string;
  px_allow_users : option (list string);
}.

(** [ProxyConfig::default()], the derived instance. *)
Definition default_proxy : ProxyConfig :=
  {| px_name := EmptyString; px_type := EmptyString; px_local_ip := EmptyString;
     px_local_port := 0; px_remote_port := None; px_custom_domains := None;
     px_subdomain := None; px_locations := None; px_host_header_rewrite := None;
     px_http_user := None; px_http_password := None; px_health_check := None;
     px_bandwidth_limit := None; px_secret_key := None; px_transport := None;
     px_plugin := None; px_proxy_protocol := None; px_proxy_protocol_version := None;
     px_group := None; px_group_key := None; px_use_encryption := false;
     px_use_compression := false; px_multiplexer := None; px_route_by_http_user := None;
     px_allow_users := None |}.

Record VisitorConfig := {
  vi_name : string;
  vi_type : string;
  vi_server_name : string;
  vi_secret_key : option string;
  vi_bind_addr : string;
  vi_bind_port : Z;
  vi_transport : option TransportConfig;
  vi_use_encryption : bool;
  vi_use_compression : bool;
}.

(** ** The two roots *)
Record ServerConfig := {
  sc_bind_addr : string;
  sc_bind_port : Z;
  sc_kcp_bind_port : option Z;
  sc_quic_bind_port : option Z;
  sc_vhost_http_port : option Z;
  sc_vhost_https_port : option Z;
  sc_tcpmux_http_connect_port : option Z;
  sc_work_conn_port : option Z;
  sc_web_server : WebServerConfig;
  sc_auth : AuthConfig;
  sc_transport : TransportConfig;
  sc_allow_ports : list PortRange;
  sc_max_ports_per_user : option Z;
  sc_custom_domains_allowlist : list string;
  sc_custom_404_page : option string;
  sc_log : LogConfig;
  sc_log_file : option string;
  sc_log_level : option string;
  sc_log_max_days : option Z;
  sc_includes : option (list string);
  sc_proxies : list ProxyConfig;
  sc_http_plugins : list HttpPluginConfig;
}.

Definition default_server : ServerConfig :=
  {| sc_bind_addr := "0.0.0.0"; sc_bind_port := 7000; sc_kcp_bind_port := None;
     sc_quic_bind_port := None; sc_vhost_http_port := None; sc_vhost_https_port := None;
     sc_tcpmux_http_connect_port := None; sc_work_conn_port := None;
     sc_web_server := default_web_server; sc_auth := default_auth;
     sc_transport := default_transport; sc_allow_ports := []; sc_max_ports_per_user := None;
     sc_custom_domains_allowlist := []; sc_custom_404_page := None; sc_log := default_log;
     sc_log_file := None; sc_log_level := None; sc_log_max_days := None;
     sc_includes := None; sc_proxies := []; sc_http_plugins := [] |}.

Record ClientConfig := {
  cc_server_addr : string;
  cc_server_port : Z;
  cc_work_conn_port : option Z;
  cc_user : option string;
  cc_client_id : option string;
  cc_web_server : WebServerConfig;
  cc_auth : AuthConfig;
  cc_transport : TransportConfig;
  cc_proxies : list ProxyConfig;
  cc_visitors : list VisitorConfig;
  cc_log : LogConfig;
  cc_log_file : option string;
  cc_log_level : option string;
  cc_log_max_days : option Z;
  cc_includes : option (list string);
}.

Definition default_client : ClientConfig :=
  {| cc_server_addr := "127.0.0.1"; cc_server_port := 7000; cc_work_conn_port := None;
     cc_user := None; cc_client_id := None; cc_web_server := default_web_server;
     cc_auth := default_auth; cc_transport := default_transport; cc_proxies := [];
     cc_visitors := []; cc_log := default_log; cc_log_file := None; cc_log_level := None;
     cc_log_max_days := None; cc_includes := None |}.

(** [ServerConfig::resolved_log] and [ClientConfig::resolved_log]. *)
Definition server_resolved_log (c : ServerConfig) : ResolvedLog :=
  merge_log (sc_log c) (sc_log_file c) (sc_log_level c) (sc_log_max_days c).
Definition client_resolved_log (c : ClientConfig) : ResolvedLog :=
  merge_log (cc_log c) (cc_log_file c) (cc_log_level c) (cc_log_max_days c).

(** ** Custom domains *)
Definition label_char (b : ascii) : bool := is_ascii_alphanumeric b || bool_decide (b = "-"%char).

(** One iteration of the label loop. *)
Definition validate_label (label : string) : result string unit :=
  if is_empty label then Err "empty label (leading/trailing/doubled '.')"%string
  else if decide (63 < str_len label) then
    Err ("label " +:+ debug_str label +:+ " is longer than 63 characters")%string
  else if starts_with "-" label || ends_with "-" label then
    Err ("label " +:+ debug_str label +:+ " must not start or end with '-'")%string
  else if negb (str_all label_char label) then
    Err ("label " +:+ debug_str label +:+ " contains characters outside [A-Za-z0-9-]")%string
  else Ok tt.

Definition validate_custom_domain (domain : string) : result string unit :=
  let d := trim domain in
  if is_empty d then Err "domain is empty"%string
  else if decide (253 < str_len d) then
    Err ("domain is too long (" +:+ dec (str_len d) +:+ " bytes > 253)")%string
  else
    let rest := default d (strip_prefix "*." d) in
    if contains_char "*"%char rest then
      Err "wildcard '*' is only allowed as a single leading '*.' label"%string
    else if is_empty rest then Err "wildcard must be followed by a domain"%string
    else for_each validate_label (split_char "."%char rest).

(** The documented syntax: an optional leading wildcard label, then dot-separated
    host-name labels of 1 to 63 letters, digits and inner hyphens. *)
Definition good_label (l : string) : Prop :=
  1 <= str_len l <= 63 /\ str_all label_char l = true /\
  starts_with "-" l = false /\ ends_with "-" l = false.

Definition hostname (s : string) : Prop := Forall good_label (split_char "."%char s).

Definition domain_syntax (d : string) : Prop :=
  1 <= str_len d <= 253 /\ exists rest, (d = rest \/ d = "*." +:+ rest)%string /\ hostname rest.

(** ** Lemmas *)
Lemma validate_label_Ok l : validate_label l = Ok tt <-> good_label l.
Proof.
  unfold validate_label, good_label. pose proof (str_len_nonneg l).
  destruct l as [|c l']; [simpl; split; [done|lia]|].
  set (l := String c l') in *.
  assert (1 <= str_len l) by (subst l; simpl; pose proof (str_len_nonneg l'); lia).
  replace (is_empty l) with false by done.
  destruct (decide (63 < str_len l)); [split; [done|lia]|].
  destruct (starts_with "-" l), (ends_with "-" l); simpl; try (split; [done|naive_solver]).
  destruct (str_all label_char l); simpl; (split; [done|naive_solver lia]) || split; naive_solver lia.
Qed.

Lemma validate_labels_Ok ls : for_each validate_label ls = Ok tt <-> Forall good_label ls.
Proof. rewrite for_each_Ok. apply Forall_iff. intros l. apply validate_label_Ok. Qed.

Lemma split_char_no_char c x s : c <> x ->
  Forall (fun l => contains_char c l = false) (split_char x s) -> contains_char c s = false.
Proof.
  intros Hne. induction s as [|a s IH]; simpl; [done|]. destruct (decide (a = x)) as [->|].
  - rewrite Forall_cons. intros [_ H]. rewrite decide_False by congruence. by apply IH.
  - destruct (split_char x s) as [|p ps] eqn:E; [by apply split_char_nonempty in E|].
    rewrite Forall_cons in *. simpl. intros [Hp Hps].
    destruct (decide (a = c)); [done|]. apply IH. by constructor.
Qed.

Lemma label_no_star l : str_all label_char l = true -> contains_char "*"%char l = false.
Proof.
  induction l as [|a l IH]; [done|]. rewrite str_all_cons, andb_true_iff. intros [Ha Hl].
  simpl. rewrite decide_False by (by intros ->). by apply IH.
Qed.

Lemma hostname_no_star s : hostname s -> contains_char "*"%char s = false.
Proof.
  intros H. apply (split_char_no_char _ "."%char); [done|].
  eapply Forall_impl; [exact H|]. intros l (_ & Hl & _). by apply label_no_star.
Qed.

Lemma hostname_nonempty s : hostname s -> is_empty s = false.
Proof.
  destruct s; [|done]. unfold hostname. simpl. rewrite Forall_cons. intros [[H _] _].
  simpl in H. lia.
Qed.

Lemma custom_domain_Ok domain :
  validate_custom_domain domain = Ok tt <-> domain_syntax (trim domain).
Proof.
  unfold validate_custom_domain, domain_syntax. set (d := trim domain).
  destruct (is_empty d) eqn:Ee.
  { apply is_empty_true in Ee. rewrite Ee. simpl. split; [done|lia]. }
  assert (1 <= str_len d).
  { destruct d as [|a d']; [done|]. simpl. pose proof (str_len_nonneg d'). lia. }
  destruct (decide (253 < str_len d)); [split; [done|lia]|]. split.
  - intros Hv. split; [lia|]. exists (default d (strip_prefix "*." d)).
    destruct (strip_prefix "*." d) as [r|] eqn:E; cbv [from_option id] in Hv |- *;
      [apply strip_prefix_Some in E; destruct (contains_char _ r), (is_empty r)
      |destruct (contains_char _ d), (is_empty d)];
      try done; apply validate_labels_Ok in Hv; auto.
  - intros [_ (rest & Hd & Hh)].
    assert (default d (strip_prefix "*." d) = rest) as ->.
    { destruct Hd as [-> | ->]; [|done]. destruct (strip_prefix "*." rest) eqn:E; [|done].
      apply strip_prefix_Some in E. apply hostname_no_star in Hh. by rewrite E in Hh. }
    rewrite (hostname_no_star _ Hh), (hostname_nonempty _ Hh). by apply validate_labels_Ok.
Qed.

(** ** Theorems *)

(** [validate_custom_domain] accepts exactly the documented syntax of the
    trimmed domain: at most 253 bytes, an optional single leading wildcard label,
    then labels of 1 to 63 letters, digits and hyphens that neither start nor end
    with a hyphen. *)
Theorem validate_custom_domain_iff domain :
  validate_custom_domain domain = Ok tt <-> domain_syntax (trim domain).
Proof. apply custom_domain_Ok. Qed.
