(* ===== verification/ConfigLoader.v ===== *)
(** * Loading and validating configurations (src/rust_frp_config/src/loader.rs)

    The pipeline parse, includes, environment variables, normalisation,
    validation.  Files, the three format parsers, [glob] and the environment are
    arguments; a [Box<dyn Error>] is an [io_error].  The substitution of
    environment variables is a loop that may not end, so it takes fuel and
    answers [None] when the fuel runs out. *)
From S2P Require Import Prelude RustStd RustFmt ConfigTypes.

Definition invalid_input (msg : string) : io_error := IoError InvalidInput msg.

(** [if bad { return Err(InvalidInput, msg) }] *)
Definition reject_if (bad : bool) (msg : string) : result io_error unit :=
  if bad then Err (invalid_input msg) else Ok tt.

Definition quoted (s : string) : string := (dquote +:+ s +:+ dquote)%string.

Definition contains (l : list string) (s : string) : bool := bool_decide (s ∈ l).

(** [opt.as_deref().unwrap_or(def)] with the empty default. *)
Definition or_empty (o : option string) : string := default EmptyString o.

(** ** Normalisation *)
Definition with_proxy_flags (p : ProxyConfig) (enc comp : bool) : ProxyConfig :=
  {| px_name := px_name p; px_type := px_type p; px_local_ip := px_local_ip p;
     px_local_port := px_local_port p; px_remote_port := px_remote_port p;
     px_custom_domains := px_custom_domains p; px_subdomain := px_subdomain p;
     px_locations := px_locations p; px_host_header_rewrite := px_host_header_rewrite p;
     px_http_user := px_http_user p; px_http_password := px_http_password p;
     px_health_check := px_health_check p; px_bandwidth_limit := px_bandwidth_limit p;
     px_secret_key := px_secret_key p; px_transport := px_transport p;
     px_plugin := px_plugin p; px_proxy_protocol := px_proxy_protocol p;
     px_proxy_protocol_version := px_proxy_protocol_version p; px_group := px_group p;
     px_group_key := px_group_key p; px_use_encryption := enc; px_use_compression := comp;
     px_multiplexer := px_multiplexer p; px_route_by_http_user := px_route_by_http_user p;
     px_allow_users := px_allow_users p |}.

Definition with_local_ip (p : ProxyConfig) (ip : string) : ProxyConfig :=
  {| px_name := px_name p; px_type := px_type p; px_local_ip := ip;
     px_local_port := px_local_port p; px_remote_port := px_remote_port p;
     px_custom_domains := px_custom_domains p; px_subdomain := px_subdomain p;
     px_locations := px_locations p; px_host_header_rewrite := px_host_header_rewrite p;
     px_http_user := px_http_user p; px_http_password := px_http_password p;
     px_health_check := px_health_check p; px_bandwidth_limit := px_bandwidth_limit p;
     px_secret_key := px_secret_key p; px_transport := px_transport p;
     px_plugin := px_plugin p; px_proxy_protocol := px_proxy_protocol p;
     px_proxy_protocol_version := px_proxy_protocol_version p; px_group := px_group p;
     px_group_key := px_group_key p; px_use_encryption := px_use_encryption p;
     px_use_compression := px_use_compression p; px_multiplexer := px_multiplexer p;
     px_route_by_http_user := px_route_by_http_user p; px_allow_users := px_allow_users p |}.

Definition with_visitor_flags (v : VisitorConfig) (enc comp : bool) : VisitorConfig :=
  {| vi_name := vi_name v; vi_type := vi_type v; vi_server_name := vi_server_name v;
     vi_secret_key := vi_secret_key v; vi_bind_addr := vi_bind_addr v;
     vi_bind_port := vi_bind_port v; vi_transport := vi_transport v;
     vi_use_encryption := enc; vi_use_compression := comp |}.

(** The fields of the server configuration that loading changes. *)
Definition with_server (c : ServerConfig) (addr : string) (port : Z)
    (kcp quic http https mux : option Z) (includes : option (list string))
    (proxies : list ProxyConfig) : ServerConfig :=
  {| sc_bind_addr := addr; sc_bind_port := port; sc_kcp_bind_port := kcp;
     sc_quic_bind_port := quic; sc_vhost_http_port := http; sc_vhost_https_port := https;
     sc_tcpmux_http_connect_port := mux; sc_work_conn_port := sc_work_conn_port c;
     sc_web_server := sc_web_server c; sc_auth := sc_auth c; sc_transport := sc_transport c;
     sc_allow_ports := sc_allow_ports c; sc_max_ports_per_user := sc_max_ports_per_user c;
     sc_custom_domains_allowlist := sc_custom_domains_allowlist c;
     sc_custom_404_page := sc_custom_404_page c; sc_log := sc_log c;
     sc_log_file := sc_log_file c; sc_log_level := sc_log_level c;
     sc_log_max_days := sc_log_max_days c; sc_includes := includes; sc_proxies := proxies;
     sc_http_plugins := sc_http_plugins c |}.

Definition with_server_proxies (c : ServerConfig) (includes : option (list string))
    (addr : string) (proxies : list ProxyConfig) : ServerConfig :=
  with_server c addr (sc_bind_port c) (sc_kcp_bind_port c) (sc_quic_bind_port c)
    (sc_vhost_http_port c) (sc_vhost_https_port c) (sc_tcpmux_http_connect_port c)
    includes proxies.

Definition with_client (c : ClientConfig) (addr : string) (port : Z)
    (user id : option string) (includes : option (list string))
    (proxies : list ProxyConfig) (visitors : list VisitorConfig) : ClientConfig :=
  {| cc_server_addr := addr; cc_server_port := port; cc_work_conn_port := cc_work_conn_port c;
     cc_user := user; cc_client_id := id; cc_web_server := cc_web_server c;
     cc_auth := cc_auth c; cc_transport := cc_transport c; cc_proxies := proxies;
     cc_visitors := visitors; cc_log := cc_log c; cc_log_file := cc_log_file c;
     cc_log_level := cc_log_level c; cc_log_max_days := cc_log_max_days c;
     cc_includes := includes |}.

(** The server only lifts the encryption switch. *)
Definition normalize_server_proxy (p : ProxyConfig) : ProxyConfig :=
  match px_transport p with
  | Some t => if tr_use_encryption t then with_proxy_flags p true (px_use_compression p) else p
  | None => p
  end.

Definition normalize_server_config (c : ServerConfig) : ServerConfig :=
  with_server_proxies c (sc_includes c) (sc_bind_addr c) (map normalize_server_proxy (sc_proxies c)).

Definition normalize_client_proxy (p : ProxyConfig) : ProxyConfig :=
  match px_transport p with
  | Some t =>
      let p := if tr_use_encryption t then with_proxy_flags p true (px_use_compression p) else p in
      if tr_use_compression t then with_proxy_flags p (px_use_encryption p) true else p
  | None => p
  end.

Definition normalize_visitor (v : VisitorConfig) : VisitorConfig :=
  match vi_transport v with
  | Some t =>
      let v := if tr_use_encryption t then with_visitor_flags v true (vi_use_compression v) else v in
      if tr_use_compression t then with_visitor_flags v (vi_use_encryption v) true else v
  | None => v
  end.

Definition normalize_client_config (c : ClientConfig) : ClientConfig :=
  with_client c (cc_server_addr c) (cc_server_port c) (cc_user c) (cc_client_id c)
    (cc_includes c) (map normalize_client_proxy (cc_proxies c))
    (map normalize_visitor (cc_visitors c)).

(** ** Includes *)
Definition or_else {A} (source target : option A) : option A :=
  match source with Some x => Some x | None => target end.

Definition merge_server_config (target source : ServerConfig) : ServerConfig :=
  with_server target
    (if negb (is_empty (sc_bind_addr source)) then sc_bind_addr source else sc_bind_addr target)
    (if decide (sc_bind_port source <> 0) then sc_bind_port source else sc_bind_port target)
    (or_else (sc_kcp_bind_port source) (sc_kcp_bind_port target))
    (or_else (sc_quic_bind_port source) (sc_quic_bind_port target))
    (or_else (sc_vhost_http_port source) (sc_vhost_http_port target))
    (or_else (sc_vhost_https_port source) (sc_vhost_https_port target))
    (or_else (sc_tcpmux_http_connect_port source) (sc_tcpmux_http_connect_port target))
    (sc_includes target)
    (sc_proxies target ++ sc_proxies source).

Definition merge_client_config (target source : ClientConfig) : ClientConfig :=
  with_client target
    (if negb (is_empty (cc_server_addr source)) then cc_server_addr source
     else cc_server_addr target)
    (if decide (cc_server_port source <> 0) then cc_server_port source else cc_server_port target)
    (or_else (cc_user source) (cc_user target))
    (or_else (cc_client_id source) (cc_client_id target))
    (cc_includes target)
    (cc_proxies target ++ cc_proxies source)
    (cc_visitors target ++ cc_visitors source).

Section Includes.
Context {C : Type} (glob : string -> result io_error (list (result string string))).
Context (load_config_from_file : string -> result io_error C) (merge : C -> C -> C).

(** The files of one pattern, in order; unreadable entries are only logged. *)
Fixpoint include_files (c : C) (files : list (result string string)) : result io_error C :=
  match files with
  | [] => Ok c
  | Ok path :: files => inc ← load_config_from_file path; include_files (merge c inc) files
  | Err _ :: files => include_files c files
  end.

Fixpoint include_patterns (c : C) (patterns : list string) : result io_error C :=
  match patterns with
  | [] => Ok c
  | p :: patterns => files ← glob p; c ← include_files c files; include_patterns c patterns
  end.
End Includes.

Definition process_includes glob load (c : ServerConfig) : result io_error ServerConfig :=
  include_patterns glob load merge_server_config c (default [] (sc_includes c)).

Definition process_includes_client glob load (c : ClientConfig) : result io_error ClientConfig :=
  include_patterns glob load merge_client_config c (default [] (cc_includes c)).

(** ** Environment variables *)
Section Env.
Context (env : string -> option string).

Fixpoint replace_env_vars (fuel : nat) (s : string) : option string :=
  match split_once "${" s with
  | None => Some s
  | Some (before, after) =>
      match split_once "}" after with
      | None => Some s
      | Some (var_name, rest) =>
          match fuel with
          | O => None
          | S fuel => replace_env_vars fuel (before +:+ or_empty (env var_name) +:+ rest)%string
          end
      end
  end.

Definition replace_includes (fuel : nat) (o : option (list string)) : option (option (list string)) :=
  match o with Some l => Some <$> mapM (replace_env_vars fuel) l | None => Some None end.

Definition replace_local_ip (fuel : nat) (p : ProxyConfig) : option ProxyConfig :=
  with_local_ip p <$> replace_env_vars fuel (px_local_ip p).

Definition replace_environment_variables (fuel : nat) (c : ServerConfig) : option ServerConfig :=
  addr ← replace_env_vars fuel (sc_bind_addr c);
  includes ← replace_includes fuel (sc_includes c);
  proxies ← mapM (replace_local_ip fuel) (sc_proxies c);
  Some (with_server_proxies c includes addr proxies).

Definition replace_environment_variables_client (fuel : nat) (c : ClientConfig) : option ClientConfig :=
  addr ← replace_env_vars fuel (cc_server_addr c);
  includes ← replace_includes fuel (cc_includes c);
  proxies ← mapM (replace_local_ip fuel) (cc_proxies c);
  Some (with_client c addr (cc_server_port c) (cc_user c) (cc_client_id c) includes proxies
          (cc_visitors c)).
End Env.

(** ** Validation *)
Definition validate_auth_throttle (auth : AuthConfig) : result io_error unit :=
  reject_if (bool_decide (0 < au_login_max_failures auth /\ au_login_lockout_secs auth = 0))
    "auth.login_max_failures > 0 requires auth.login_lockout_secs > 0 (a zero lockout window would make the throttle a no-op)".

Definition validate_tls_server_mtls (tls : option TlsConfig) : result io_error unit :=
  match tls with
  | None => Ok tt
  | Some tls =>
      reject_if (tls_require_client_cert tls && is_empty (or_empty (tls_client_ca_file tls)))
        "transport.tls.require_client_cert = true requires transport.tls.client_ca_file (client certificates cannot be enforced without a CA to verify them)"
  end.

Definition is_some {A} (o : option A) : bool := match o with Some _ => true | None => false end.

Definition validate_tls_client_mtls (tls : option TlsConfig) : result io_error unit :=
  match tls with
  | None => Ok tt
  | Some tls =>
      let cert := tls_cert_file tls in
      let key := tls_key_file tls in
      _ ← reject_if (xorb (is_some cert) (is_some key))
            "transport.tls.cert_file and transport.tls.key_file must be configured together (they carry the client certificate presented for mTLS)";
      reject_if (is_some cert && tls_skip_verify tls)
        "transport.tls.skip_verify = true cannot be combined with a client certificate (cert_file/key_file): skipping server verification would let an impostor server collect the client certificate. Remove skip_verify and set trusted_ca_file to pin the server CA instead."
  end.

Definition validate_web_server (web : WebServerConfig) : result io_error unit :=
  if decide (ws_port web = 0) then Ok tt else
  match ws_user web, ws_password web with
  | Some user, Some password =>
      reject_if (is_empty user || is_empty password)
        "web_server.user and web_server.password must be non-empty (an empty credential would disable dashboard authentication)"
  | None, None =>
      Err (invalid_input "web_server.port is set but web_server.user/password are missing: an unauthenticated dashboard would expose every page and the side-effecting /api/reload endpoint to anyone who can reach the port. Set both user and password, or set web_server.port = 0 to disable the dashboard.")
  | _, _ =>
      Err (invalid_input "web_server.user and web_server.password must be configured together")
  end.

Definition validate_allowlist_entry (domain : string) : result io_error unit :=
  match validate_custom_domain domain with
  | Ok _ => Ok tt
  | Err e => Err (invalid_input
      ("custom_domains_allowlist entry " +:+ debug_str domain +:+ " is invalid: " +:+ e)%string)
  end.

Definition validate_udp_ports (kcp quic : option Z) : result io_error unit :=
  match kcp, quic with
  | Some kcp, Some quic =>
      reject_if (bool_decide (kcp = quic /\ 0 < quic))
        ("kcp_bind_port and quic_bind_port cannot share the same UDP port (" +:+ dec kcp +:+ ")")%string
  | _, _ => Ok tt
  end.

Definition validate_http_plugin (ip : nat * HttpPluginConfig) : result io_error unit :=
  let '(i, plugin) := ip in
  let at_i := ("http_plugins[" +:+ dec (Z.of_nat i) +:+ "]")%string in
  let named := (at_i +:+ " (" +:+ hp_name plugin +:+ ")")%string in
  _ ← reject_if (is_empty (trim (hp_name plugin))) (at_i +:+ ".name must be non-empty")%string;
  _ ← reject_if (is_empty (trim (hp_addr plugin))) (at_i +:+ ".addr must be non-empty")%string;
  _ ← reject_if (bool_decide (hp_ops plugin = []))
        (named +:+ " subscribes to no operation; ops must list at least one of "
           +:+ debug_strs VALID_PLUGIN_OPS)%string;
  for_each (fun op =>
    reject_if (negb (contains VALID_PLUGIN_OPS op))
      (named +:+ " has unknown op " +:+ debug_str op +:+ "; valid ops are "
         +:+ debug_strs VALID_PLUGIN_OPS)%string) (hp_ops plugin).

Definition unsupported_method (other : string) : io_error :=
  invalid_input ("unsupported auth.method: " +:+ other +:+ " (expected " +:+ quoted "token"
                   +:+ " or " +:+ quoted "oidc" +:+ ")")%string.

Definition oidc_required : io_error :=
  invalid_input ("auth.oidc is required when auth.method = " +:+ quoted "oidc")%string.

Definition validate_server_auth (auth : AuthConfig) : result io_error unit :=
  if decide (au_method auth = "token") then Ok tt
  else if decide (au_method auth = "oidc") then
    match au_oidc auth with
    | None => Err oidc_required
    | Some oidc =>
        reject_if (is_empty (trim (oidc_issuer oidc)))
          "auth.oidc.issuer is required for server-side OIDC token verification"
    end
  else Err (unsupported_method (au_method auth)).

Definition validate_server_config (c : ServerConfig) : result io_error unit :=
  _ ← reject_if (bool_decide (sc_bind_port c = 0)) "bind_port is required";
  _ ← validate_tls_server_mtls (tr_tls (sc_transport c));
  _ ← validate_auth_throttle (sc_auth c);
  _ ← validate_web_server (sc_web_server c);
  _ ← for_each validate_allowlist_entry (sc_custom_domains_allowlist c);
  _ ← validate_udp_ports (sc_kcp_bind_port c) (sc_quic_bind_port c);
  _ ← for_each validate_http_plugin (imap pair (sc_http_plugins c));
  validate_server_auth (sc_auth c).

(** *** The client side *)
Definition absolute_http_url (value : string) : bool :=
  existsb (fun scheme =>
    match strip_prefix scheme value with
    | Some rest => negb (is_empty (before_any ["/"; "?"; "#"]%char rest))
    | None => false
    end) ["http://"; "https://"]%string.

Definition validate_absolute_http_url (value field : string) : result io_error unit :=
  reject_if (negb (absolute_http_url value))
    (field +:+ " = " +:+ quoted value +:+ " must be an absolute http or https URL")%string.

(** The number in front of the unit, in upper case.  Rust upper-cases all of
    Unicode; a non-ASCII letter spoils the number either way. *)
Definition bandwidth_number (value : string) : string :=
  let upper := to_ascii_uppercase (trim value) in
  match strip_suffix "GB" upper with
  | Some n => trim n
  | None =>
  match strip_suffix "MB" upper with
  | Some n => trim n
  | None =>
  match strip_suffix "KB" upper with
  | Some n => trim n
  | None =>
  match strip_suffix "B" upper with
  | Some n => trim n
  | None => upper
  end end end end.

Definition valid_bandwidth (value : string) : bool :=
  match parse_f64 (bandwidth_number value) with
  | Some v => finite_positive v
  | None => false
  end.

Definition validate_bandwidth_limit (value field : string) : result io_error unit :=
  reject_if (negb (valid_bandwidth value))
    (field +:+ " = " +:+ quoted value +:+ " is invalid; expected a positive value such as "
       +:+ quoted "1GB" +:+ ", " +:+ quoted "10MB" +:+ ", " +:+ quoted "500KB"
       +:+ " or a plain number of bytes")%string.

Definition validate_additional_scopes (auth : AuthConfig) : result io_error unit :=
  match au_additional_scopes auth with
  | None => Ok tt
  | Some scopes =>
      _ ← for_each (fun scope =>
            reject_if (negb (contains ["heartBeats"; "newWorkConns"]%string scope))
              ("auth.additional_scopes value " +:+ debug_str scope +:+ " is not supported (expected "
                 +:+ quoted "heartBeats" +:+ " or " +:+ quoted "newWorkConns" +:+ ")")%string) scopes;
      reject_if (contains scopes "heartBeats" &&
                 (negb (bool_decide (au_method auth = "token"%string)) ||
                  is_empty (trim (or_empty (au_token auth)))))
        ("auth.additional_scopes " +:+ quoted "heartBeats" +:+ " requires auth.method = "
           +:+ quoted "token" +:+ " with a non-empty token")%string
  end.

Definition validate_token_source (auth : AuthConfig) : result io_error unit :=
  match au_token_source auth with
  | None => Ok tt
  | Some ts =>
      _ ← reject_if (negb (is_empty (or_empty (au_token auth))))
            "auth.token and auth.tokenSource are mutually exclusive; set only one";
      if decide (ts_type ts = "file") then
        reject_if (is_empty (trim (or_empty (ts_file_path ts))))
          ("auth.tokenSource.filePath is required when type = " +:+ quoted "file")%string
      else if decide (ts_type ts = "exec") then
        reject_if (bool_decide (default [] (ts_exec ts) = []))
          ("auth.tokenSource.exec must list the program to run when type = " +:+ quoted "exec")%string
      else Err (invalid_input ("unsupported auth.tokenSource.type: " +:+ ts_type ts
                 +:+ " (expected " +:+ quoted "file" +:+ " or " +:+ quoted "exec" +:+ ")")%string)
  end.

Definition VALID_PROTOCOLS : list string := ["tcp"; "kcp"; "quic"; "websocket"; "wss"]%string.
Definition VALID_WIRE_PROTOCOLS : list string := ["v1"; "v2"]%string.

Definition has_ca (tls : option TlsConfig) : bool :=
  match tls with
  | Some t => negb (is_empty (trim (or_empty (tls_trusted_ca_file t))))
  | None => false
  end.

Definition insecure (tls : option TlsConfig) : bool :=
  match tls with Some t => tls_skip_verify t | None => false end.

Definition validate_client_transport (t : TransportConfig) (auth_method : string)
  : result io_error unit :=
  _ ← validate_tls_client_mtls (tr_tls t);
  _ ← match tr_bandwidth_limit t with
      | Some limit => validate_bandwidth_limit limit "transport.bandwidth_limit"
      | None => Ok tt
      end;
  _ ← reject_if (negb (contains VALID_PROTOCOLS (tr_protocol t)))
        ("transport.protocol " +:+ debug_str (tr_protocol t) +:+ " is not supported (expected one of "
           +:+ debug_strs VALID_PROTOCOLS +:+ ")")%string;
  _ ← reject_if (negb (contains VALID_WIRE_PROTOCOLS (tr_wire_protocol t)))
        ("transport.wire_protocol " +:+ debug_str (tr_wire_protocol t)
           +:+ " is not supported (expected one of " +:+ debug_strs VALID_WIRE_PROTOCOLS +:+ ")")%string;
  _ ← reject_if (bool_decide (tr_wire_protocol t = "v2"%string /\ auth_method <> "token"%string))
        ("transport.wire_protocol = " +:+ quoted "v2" +:+ " requires auth.method = "
           +:+ quoted "token"
           +:+ ": the v2 control channel derives its AEAD keys from SHA-256(token)")%string;
  reject_if (contains ["quic"; "wss"]%string (tr_protocol t) &&
             negb (has_ca (tr_tls t)) && negb (insecure (tr_tls t)))
    ("transport.protocol = " +:+ quoted (tr_protocol t) +:+ " always uses TLS and has no plaintext mode: set transport.tls.trusted_ca_file to pin the server CA, or transport.tls.skip_verify = true to accept encryption without authentication")%string.

Definition has_domain (p : ProxyConfig) : bool :=
  existsb (fun d => negb (is_empty d)) (default [] (px_custom_domains p)) ||
  negb (is_empty (or_empty (px_subdomain p))).

(** One iteration of the proxy loop. *)
Definition validate_client_proxy (p : ProxyConfig) : result io_error unit :=
  let named := ("proxies[name=" +:+ px_name p +:+ "]")%string in
  _ ← match px_bandwidth_limit p with
      | Some limit => validate_bandwidth_limit limit (named +:+ ".bandwidth_limit")%string
      | None => Ok tt
      end;
  _ ← match px_proxy_protocol_version p with
      | Some version =>
          reject_if (negb (contains ["v1"; "v2"]%string version))
            (named +:+ ".proxy_protocol_version " +:+ debug_str version
               +:+ " is not supported (expected " +:+ quoted "v1" +:+ " or " +:+ quoted "v2"
               +:+ ")")%string
      | None => Ok tt
      end;
  if decide (px_type p = "tcpmux") then
    _ ← match px_multiplexer p with
        | Some m =>
            reject_if (negb (is_empty m) && negb (bool_decide (m = "httpconnect"%string)))
              (named +:+ ".multiplexer [" +:+ m +:+ "] is not supported (only "
                 +:+ quoted "httpconnect" +:+ ")")%string
        | None => Ok tt
        end;
    reject_if (negb (has_domain p))
      (named +:+ " is a tcpmux proxy and requires custom_domains or subdomain")%string
  else Ok tt.

Definition validate_client_oidc (o : OidcConfig) : result io_error unit :=
  _ ← reject_if (is_empty (trim (oidc_client_id o)))
        "auth.oidc.client_id is required for OIDC client credentials";
  _ ← validate_absolute_http_url (trim (oidc_token_endpoint_url o)) "auth.oidc.token_endpoint_url";
  let params := oidc_additional_endpoint_params o in
  _ ← reject_if (is_some (params !! "scope"%string))
        "auth.oidc.additional_endpoint_params.scope is not allowed; use auth.oidc.scope instead";
  reject_if (negb (is_empty (oidc_audience o)) && is_some (params !! "audience"%string))
    "cannot specify both auth.oidc.audience and auth.oidc.additional_endpoint_params.audience".

Definition validate_client_auth (auth : AuthConfig) : result io_error unit :=
  if decide (au_method auth = "token") then validate_token_source auth
  else if decide (au_method auth = "oidc") then
    match au_oidc auth with
    | None => Err oidc_required
    | Some oidc => validate_client_oidc oidc
    end
  else Err (unsupported_method (au_method auth)).

Definition validate_client_config (c : ClientConfig) : result io_error unit :=
  _ ← reject_if (is_empty (cc_server_addr c)) "server_addr is required";
  _ ← reject_if (bool_decide (cc_server_port c = 0)) "server_port is required";
  _ ← validate_client_transport (cc_transport c) (au_method (cc_auth c));
  _ ← for_each validate_client_proxy (cc_proxies c);
  _ ← validate_additional_scopes (cc_auth c);
  validate_client_auth (cc_auth c).

(** ** The pipeline *)
Section Parse.
Context {T : Type} (from_toml from_yaml from_json : string -> result string T).
Context (check_raw_fields : string -> result io_error unit).

Definition nl : string := String (ascii_of_N 10) EmptyString.

(** TOML, then YAML, then JSON; all the errors when none parses. *)
Definition parse_config (content : string) : result io_error T :=
  match from_toml content with
  | Ok config => _ ← check_raw_fields content; Ok config
  | Err e1 =>
  match from_yaml content with
  | Ok config => _ ← check_raw_fields content; Ok config
  | Err e2 =>
  match from_json content with
  | Ok config => _ ← check_raw_fields content; Ok config
  | Err e3 =>
      Err (IoError InvalidData
        ("Failed to parse config file; attempted TOML/YAML/JSON, all failed:" +:+ nl +:+ "  "
           +:+ str_join (nl +:+ "  ") ["TOML: " +:+ e1; "YAML: " +:+ e2; "JSON: " +:+ e3])%string)
  end end end.

(** [read path] is [File::open] followed by [read_to_string]. *)
Definition load_config_from_file (read : string -> result io_error string) (path : string)
  : result io_error T :=
  content ← read path; parse_config content.
End Parse.

Definition validate_server_config_content
    (parse : string -> result io_error ServerConfig) (content : string)
  : result io_error ServerConfig :=
  config ← parse content;
  let config := normalize_server_config config in
  _ ← validate_server_config config; Ok config.

Definition validate_client_config_content
    (parse : string -> result io_error ClientConfig) (content : string)
  : result io_error ClientConfig :=
  config ← parse content;
  let config := normalize_client_config config in
  _ ← validate_client_config config; Ok config.

Section Load.
Context (env : string -> option string) (fuel : nat).
Context (glob : string -> result io_error (list (result string string))).

(** [None]: the substitution of environment variables does not end within the fuel. *)
Definition load_server_config (load : string -> result io_error ServerConfig) (path : string)
  : option (result io_error ServerConfig) :=
  match (config ← load path; process_includes glob load config) with
  | Err e => Some (Err e)
  | Ok config =>
      config ← replace_environment_variables env fuel config;
      let config := normalize_server_config config in
      Some (_ ← validate_server_config config; Ok config)
  end.

Definition load_client_config (load : string -> result io_error ClientConfig) (path : string)
  : option (result io_error ClientConfig) :=
  match (config ← load path; process_includes_client glob load config) with
  | Err e => Some (Err e)
  | Ok config =>
      config ← replace_environment_variables_client env fuel config;
      let config := normalize_client_config config in
      Some (_ ← validate_client_config config; Ok config)
  end.
End Load.

(** ** What the validators promise *)
Definition nonempty (s : string) : Prop := s <> EmptyString.
Definition is_set (o : option string) : Prop := exists s, o = Some s /\ nonempty s.
Definition is_set_trim (o : option string) : Prop := exists s, o = Some s /\ nonempty (trim s).

Record server_config_ok (c : ServerConfig) : Prop := {
  so_port : sc_bind_port c <> 0;
  so_mtls : forall tls, tr_tls (sc_transport c) = Some tls ->
    tls_require_client_cert tls = true -> is_set (tls_client_ca_file tls);
  so_throttle : 0 < au_login_max_failures (sc_auth c) -> au_login_lockout_secs (sc_auth c) <> 0;
  so_dashboard : ws_port (sc_web_server c) <> 0 ->
    is_set (ws_user (sc_web_server c)) /\ is_set (ws_password (sc_web_server c));
  so_allowlist : Forall (fun d => domain_syntax (trim d)) (sc_custom_domains_allowlist c);
  so_udp : forall k, sc_kcp_bind_port c = Some k -> sc_quic_bind_port c = Some k -> k <= 0;
  so_plugins : Forall (fun p => nonempty (trim (hp_name p)) /\ nonempty (trim (hp_addr p)) /\
    hp_ops p <> [] /\ Forall (fun op => op ∈ VALID_PLUGIN_OPS) (hp_ops p)) (sc_http_plugins c);
  so_auth : au_method (sc_auth c) = "token"%string \/
    au_method (sc_auth c) = "oidc"%string /\
      exists o, au_oidc (sc_auth c) = Some o /\ nonempty (trim (oidc_issuer o));
}.

(** An absolute URL with a host. *)
Definition absolute_url (s : string) : Prop :=
  exists scheme rest, (scheme = "http://" \/ scheme = "https://")%string /\
    s = (scheme +:+ rest)%string /\ nonempty (before_any ["/"; "?"; "#"]%char rest).

Record client_transport_ok (t : TransportConfig) (method : string) : Prop := {
  to_pair : forall tls, tr_tls t = Some tls ->
    (tls_cert_file tls = None <-> tls_key_file tls = None) /\
    (tls_cert_file tls <> None -> tls_skip_verify tls = false);
  to_bandwidth : forall l, tr_bandwidth_limit t = Some l -> valid_bandwidth l = true;
  to_protocol : tr_protocol t ∈ VALID_PROTOCOLS;
  to_wire : tr_wire_protocol t = "v1"%string \/
    tr_wire_protocol t = "v2"%string /\ method = "token"%string;
  to_trust : tr_protocol t = "quic"%string \/ tr_protocol t = "wss"%string ->
    exists tls, tr_tls t = Some tls /\
      (is_set_trim (tls_trusted_ca_file tls) \/ tls_skip_verify tls = true);
}.

Record client_proxy_ok (p : ProxyConfig) : Prop := {
  po_bandwidth : forall l, px_bandwidth_limit p = Some l -> valid_bandwidth l = true;
  po_version : forall v, px_proxy_protocol_version p = Some v -> v = "v1"%string \/ v = "v2"%string;
  po_tcpmux : px_type p = "tcpmux"%string ->
    (forall m, px_multiplexer p = Some m -> m = EmptyString \/ m = "httpconnect"%string) /\
    has_domain p = true;
}.

Record client_config_ok (c : ClientConfig) : Prop := {
  co_addr : nonempty (cc_server_addr c);
  co_port : cc_server_port c <> 0;
  co_transport : client_transport_ok (cc_transport c) (au_method (cc_auth c));
  co_proxies : Forall client_proxy_ok (cc_proxies c);
  co_scopes : forall l, au_additional_scopes (cc_auth c) = Some l ->
    Forall (fun s => s = "heartBeats"%string \/ s = "newWorkConns"%string) l /\
    ("heartBeats"%string ∈ l ->
       au_method (cc_auth c) = "token"%string /\ is_set_trim (au_token (cc_auth c)));
  co_auth :
    au_method (cc_auth c) = "token"%string /\
      (forall ts, au_token_source (cc_auth c) = Some ts ->
         ~ is_set (au_token (cc_auth c)) /\
         (ts_type ts = "file"%string /\ is_set_trim (ts_file_path ts) \/
          ts_type ts = "exec"%string /\ exists l, ts_exec ts = Some l /\ l <> [])) \/
    au_method (cc_auth c) = "oidc"%string /\
      exists o, au_oidc (cc_auth c) = Some o /\ nonempty (trim (oidc_client_id o)) /\
        absolute_url (trim (oidc_token_endpoint_url o)) /\
        oidc_additional_endpoint_params o !! "scope"%string = None /\
        (nonempty (oidc_audience o) ->
           oidc_additional_endpoint_params o !! "audience"%string = None);
}.

(** ** Lemmas *)
Lemma reject_if_Ok b msg : reject_if b msg = Ok tt <-> b = false.
Proof. by destruct b. Qed.

Lemma bind_unit_Ok {E} (m k : result E unit) : (m ≫= fun _ => k) = Ok tt <-> m = Ok tt /\ k = Ok tt.
Proof. destruct m as [[]|]; simpl; naive_solver. Qed.

Lemma for_each_reject {A} (b : A -> bool) (m : A -> string) l :
  for_each (fun x => reject_if (b x) (m x)) l = Ok tt <-> Forall (fun x => b x = false) l.
Proof. rewrite for_each_Ok. apply Forall_iff. intros x. apply reject_if_Ok. Qed.

Lemma is_empty_nonempty s : is_empty s = false <-> nonempty s.
Proof. apply is_empty_false. Qed.

Lemma or_empty_set o : is_empty (or_empty o) = false <-> is_set o.
Proof.
  unfold is_set. destruct o as [s|]; simpl; [rewrite is_empty_nonempty|]; naive_solver.
Qed.

Lemma trim_nil : trim EmptyString = EmptyString.
Proof. reflexivity. Qed.

Lemma or_empty_set_trim o : is_empty (trim (or_empty o)) = false <-> is_set_trim o.
Proof.
  unfold is_set_trim. destruct o as [s|]; cbn [or_empty from_option id].
  - change (or_empty (Some s)) with s. rewrite is_empty_nonempty. naive_solver.
  - change (is_empty (trim (or_empty None))) with true. naive_solver.
Qed.

Lemma contains_true l s : contains l s = true <-> s ∈ l.
Proof. apply bool_decide_eq_true. Qed.

Lemma contains_false l s : contains l s = false <-> s ∉ l.
Proof. apply bool_decide_eq_false. Qed.

Lemma validate_tls_server_mtls_Ok o : validate_tls_server_mtls o = Ok tt <->
  forall tls, o = Some tls -> tls_require_client_cert tls = true -> is_set (tls_client_ca_file tls).
Proof.
  destruct o as [tls|]; simpl; [|naive_solver]. rewrite reject_if_Ok, andb_false_iff, or_empty_set.
  destruct (tls_require_client_cert tls) eqn:E; naive_solver congruence.
Qed.

Lemma validate_auth_throttle_Ok a : validate_auth_throttle a = Ok tt <->
  (0 < au_login_max_failures a -> au_login_lockout_secs a <> 0).
Proof. unfold validate_auth_throttle. rewrite reject_if_Ok, bool_decide_eq_false. lia. Qed.

Lemma validate_web_server_Ok w : validate_web_server w = Ok tt <->
  (ws_port w <> 0 -> is_set (ws_user w) /\ is_set (ws_password w)).
Proof.
  unfold validate_web_server, is_set. destruct (decide (ws_port w = 0)) as [->|Hp]; [naive_solver lia|].
  destruct (ws_user w) as [u|], (ws_password w) as [p|]; try naive_solver.
  rewrite reject_if_Ok, orb_false_iff, !is_empty_nonempty. naive_solver.
Qed.

Lemma validate_allowlist_entry_Ok d :
  validate_allowlist_entry d = Ok tt <-> domain_syntax (trim d).
Proof.
  assert (validate_allowlist_entry d = Ok tt <-> validate_custom_domain d = Ok tt) as ->.
  { unfold validate_allowlist_entry. destruct (validate_custom_domain d) as [[]|]; naive_solver. }
  apply custom_domain_Ok.
Qed.

Lemma validate_udp_ports_Ok k q : validate_udp_ports k q = Ok tt <->
  (forall p, k = Some p -> q = Some p -> p <= 0).
Proof.
  destruct k as [k|], q as [q|]; simpl; try naive_solver.
  rewrite reject_if_Ok, bool_decide_eq_false. split.
  - intros H p [= ->] [= ->]. lia.
  - intros H [-> Hq]. specialize (H q eq_refl eq_refl). lia.
Qed.

Lemma validate_http_plugin_Ok i p : validate_http_plugin (i, p) = Ok tt <->
  nonempty (trim (hp_name p)) /\ nonempty (trim (hp_addr p)) /\ hp_ops p <> [] /\
  Forall (fun op => op ∈ VALID_PLUGIN_OPS) (hp_ops p).
Proof.
  unfold validate_http_plugin. rewrite !bind_unit_Ok, !reject_if_Ok, !is_empty_nonempty,
    bool_decide_eq_false, for_each_reject.
  do 3 f_equiv. apply Forall_iff. intros op. rewrite negb_false_iff. apply contains_true.
Qed.

Lemma imap_pair_Forall {A} (P : nat * A -> Prop) (Q : A -> Prop) l :
  (forall i x, P (i, x) <-> Q x) -> Forall P (imap pair l) <-> Forall Q l.
Proof.
  intros H. rewrite !Forall_lookup. setoid_rewrite list_lookup_imap. split.
  - intros HP i x Hx. apply (H i), (HP i). by rewrite Hx.
  - intros HQ i [j x]. destruct (l !! i) as [y|] eqn:E; simpl; [|done].
    intros [= <- <-]. apply H. eauto.
Qed.

Lemma validate_server_auth_Ok a : validate_server_auth a = Ok tt <->
  au_method a = "token"%string \/
  au_method a = "oidc"%string /\
    exists o, au_oidc a = Some o /\ nonempty (trim (oidc_issuer o)).
Proof.
  unfold validate_server_auth. destruct (decide (au_method a = "token"%string)); [naive_solver|].
  destruct (decide (au_method a = "oidc"%string)); [|naive_solver].
  destruct (au_oidc a) as [o|]; [|naive_solver].
  rewrite reject_if_Ok, is_empty_nonempty. naive_solver.
Qed.

Lemma validate_server_config_Ok c : validate_server_config c = Ok tt <-> server_config_ok c.
Proof.
  unfold validate_server_config.
  rewrite !bind_unit_Ok, reject_if_Ok, bool_decide_eq_false, validate_tls_server_mtls_Ok,
    validate_auth_throttle_Ok, validate_web_server_Ok, validate_udp_ports_Ok,
    validate_server_auth_Ok, !for_each_Ok.
  rewrite (imap_pair_Forall _ _ _ validate_http_plugin_Ok).
  rewrite (Forall_iff _ _ _ validate_allowlist_entry_Ok).
  split; [intros (?&?&?&?&?&?&?&?); by constructor | by intros []].
Qed.

Lemma validate_tls_client_mtls_Ok o : validate_tls_client_mtls o = Ok tt <->
  forall tls, o = Some tls -> (tls_cert_file tls = None <-> tls_key_file tls = None) /\
    (tls_cert_file tls <> None -> tls_skip_verify tls = false).
Proof.
  destruct o as [tls|]; simpl; [|naive_solver]. rewrite bind_unit_Ok, !reject_if_Ok.
  destruct (tls_cert_file tls) eqn:E1, (tls_key_file tls) eqn:E2, (tls_skip_verify tls) eqn:E3; simpl;
    (split; [intros [? ?] t [= <-]; rewrite ?E1, ?E2, ?E3; naive_solver
            |intros Ht; specialize (Ht tls eq_refl); rewrite ?E1, ?E2, ?E3 in Ht; naive_solver]).
Qed.

Lemma validate_bandwidth_limit_Ok v f :
  validate_bandwidth_limit v f = Ok tt <-> valid_bandwidth v = true.
Proof. unfold validate_bandwidth_limit. by rewrite reject_if_Ok, negb_false_iff. Qed.

Lemma bandwidth_option_Ok o f :
  match o with Some l => validate_bandwidth_limit l f | None => Ok tt end = Ok tt <->
  forall l, o = Some l -> valid_bandwidth l = true.
Proof. destruct o as [l|]; [rewrite validate_bandwidth_limit_Ok|]; naive_solver. Qed.

Lemma has_ca_true o : has_ca o = true <->
  exists tls, o = Some tls /\ is_set_trim (tls_trusted_ca_file tls).
Proof.
  destruct o as [tls|]; simpl; [|naive_solver].
  rewrite negb_true_iff, or_empty_set_trim. naive_solver.
Qed.

Lemma validate_client_transport_Ok t m :
  validate_client_transport t m = Ok tt <-> client_transport_ok t m.
Proof.
  unfold validate_client_transport.
  rewrite !bind_unit_Ok, validate_tls_client_mtls_Ok, bandwidth_option_Ok, !reject_if_Ok,
    !negb_false_iff, !contains_true, bool_decide_eq_false.
  assert (contains ["quic"; "wss"]%string (tr_protocol t) && negb (has_ca (tr_tls t)) &&
          negb (insecure (tr_tls t)) = false <->
    (tr_protocol t = "quic"%string \/ tr_protocol t = "wss"%string ->
     exists tls, tr_tls t = Some tls /\
       (is_set_trim (tls_trusted_ca_file tls) \/ tls_skip_verify tls = true))) as ->.
  { rewrite <- andb_assoc, andb_false_iff, contains_false, andb_false_iff, !negb_false_iff,
      has_ca_true, !elem_of_cons, elem_of_nil. unfold insecure.
    destruct (tr_tls t) as [tls|];
      destruct (decide (tr_protocol t = "quic"%string)), (decide (tr_protocol t = "wss"%string));
      naive_solver. }
  unfold VALID_WIRE_PROTOCOLS. rewrite !elem_of_cons, elem_of_nil.
  split.
  - intros (?&?&?&Hw&Hv&?). constructor; try done.
    destruct (decide (m = "token"%string)); naive_solver.
  - intros [Hp Hb Hpr Hw Ht]. split_and!; try done; try (destruct Hw as [?|[? ?]]; tauto); try (destruct Hw as [?|[? ?]]; intros [? ?]; congruence).
Qed.

Lemma validate_client_proxy_Ok p : validate_client_proxy p = Ok tt <-> client_proxy_ok p.
Proof.
  unfold validate_client_proxy. rewrite !bind_unit_Ok, bandwidth_option_Ok.
  assert (forall n, match px_proxy_protocol_version p with
          | Some v => reject_if (negb (contains ["v1"; "v2"]%string v)) (n v)
          | None => Ok tt end = Ok tt <->
    (forall v, px_proxy_protocol_version p = Some v -> v = "v1"%string \/ v = "v2"%string)) as Hv.
  { intros n. destruct (px_proxy_protocol_version p) as [v|]; [|naive_solver].
    rewrite reject_if_Ok, negb_false_iff, contains_true, !elem_of_cons, elem_of_nil. naive_solver. }
  rewrite (Hv (fun v => _)). clear Hv.
  destruct (decide (px_type p = "tcpmux"%string)) as [Ht|Ht]; cycle 1.
  { split; [intros (?&?&_)|intros []]; [by constructor|naive_solver]. }
  rewrite bind_unit_Ok, reject_if_Ok, negb_false_iff.
  assert (forall n, match px_multiplexer p with
          | Some m => reject_if (negb (is_empty m) && negb (bool_decide (m = "httpconnect"%string))) (n m)
          | None => Ok tt end = Ok tt <->
    (forall m, px_multiplexer p = Some m -> m = EmptyString \/ m = "httpconnect"%string)) as Hm.
  { intros n. destruct (px_multiplexer p) as [m|]; [|naive_solver].
    rewrite reject_if_Ok, andb_false_iff, !negb_false_iff, bool_decide_eq_true, is_empty_true.
    naive_solver. }
  rewrite (Hm (fun m => _)). clear Hm.
  split; [intros (?&?&?&?)|intros []]; [by constructor|naive_solver].
Qed.

Lemma absolute_http_url_true s : absolute_http_url s = true <-> absolute_url s.
Proof.
  unfold absolute_http_url, absolute_url. rewrite existsb_exists. split.
  - intros (scheme & Hin & Hs). destruct (strip_prefix scheme s) as [rest|] eqn:E; [|done].
    apply strip_prefix_Some in E. exists scheme, rest.
    rewrite negb_true_iff, is_empty_nonempty in Hs. simpl in Hin. naive_solver.
  - intros (scheme & rest & Hin & Hs & Hn). exists scheme. split; [simpl; naive_solver|].
    apply strip_prefix_Some in Hs. rewrite Hs. by rewrite negb_true_iff, is_empty_nonempty.
Qed.

Lemma is_some_false {A} (o : option A) : is_some o = false <-> o = None.
Proof. by destruct o. Qed.

Lemma validate_additional_scopes_Ok a : validate_additional_scopes a = Ok tt <->
  forall l, au_additional_scopes a = Some l ->
    Forall (fun s => s = "heartBeats"%string \/ s = "newWorkConns"%string) l /\
    ("heartBeats"%string ∈ l -> au_method a = "token"%string /\ is_set_trim (au_token a)).
Proof.
  unfold validate_additional_scopes. destruct (au_additional_scopes a) as [l|]; [|naive_solver].
  rewrite bind_unit_Ok, for_each_reject, reject_if_Ok, andb_false_iff, contains_false,
    orb_false_iff, negb_false_iff, bool_decide_eq_true, or_empty_set_trim.
  rewrite (Forall_iff _ l (fun s => s = "heartBeats"%string \/ s = "newWorkConns"%string)).
  - destruct (decide ("heartBeats"%string ∈ l)); naive_solver.
  - intros s. rewrite negb_false_iff, contains_true, !elem_of_cons, elem_of_nil. naive_solver.
Qed.

Lemma forall_Some {A} (x : A) (P : A -> Prop) : (forall y, Some x = Some y -> P y) <-> P x.
Proof. naive_solver. Qed.

Lemma validate_token_source_Ok a : validate_token_source a = Ok tt <->
  forall ts, au_token_source a = Some ts -> ~ is_set (au_token a) /\
    (ts_type ts = "file"%string /\ is_set_trim (ts_file_path ts) \/
     ts_type ts = "exec"%string /\ exists l, ts_exec ts = Some l /\ l <> []).
Proof.
  unfold validate_token_source. destruct (au_token_source a) as [ts|]; [|naive_solver].
  assert (is_empty (or_empty (au_token a)) = true <-> ~ is_set (au_token a)) as Ht.
  { rewrite <- or_empty_set. by destruct (is_empty _). }
  rewrite forall_Some, bind_unit_Ok, reject_if_Ok, negb_false_iff, Ht. clear Ht.
  destruct (decide (ts_type ts = "file"%string)) as [Ef|];
    [|destruct (decide (ts_type ts = "exec"%string)) as [Ee|]].
  - rewrite reject_if_Ok, or_empty_set_trim, Ef. intuition congruence.
  - rewrite reject_if_Ok, bool_decide_eq_false.
    assert (default [] (ts_exec ts) <> [] <-> exists l, ts_exec ts = Some l /\ l <> []) as ->;
      [destruct (ts_exec ts); naive_solver|intuition congruence].
  - intuition congruence.
Qed.

Lemma validate_client_oidc_Ok o : validate_client_oidc o = Ok tt <->
  nonempty (trim (oidc_client_id o)) /\ absolute_url (trim (oidc_token_endpoint_url o)) /\
  oidc_additional_endpoint_params o !! "scope"%string = None /\
  (nonempty (oidc_audience o) -> oidc_additional_endpoint_params o !! "audience"%string = None).
Proof.
  unfold validate_client_oidc, validate_absolute_http_url.
  rewrite !bind_unit_Ok, !reject_if_Ok, negb_false_iff, andb_false_iff, negb_false_iff,
    !is_some_false, is_empty_nonempty, absolute_http_url_true, is_empty_true.
  unfold nonempty. destruct (decide (oidc_audience o = EmptyString)); naive_solver.
Qed.

Lemma validate_client_auth_Ok a : validate_client_auth a = Ok tt <->
  au_method a = "token"%string /\ validate_token_source a = Ok tt \/
  au_method a = "oidc"%string /\ exists o, au_oidc a = Some o /\ validate_client_oidc o = Ok tt.
Proof.
  unfold validate_client_auth.
  destruct (decide (au_method a = "token"%string)); [intuition congruence|].
  destruct (decide (au_method a = "oidc"%string)); [|intuition congruence].
  destruct (au_oidc a) as [o'|]; [|naive_solver]. split; [eauto 6|].
  intros [[? _]|(_ & o & [= <-] & ?)]; [congruence|done].
Qed.

Lemma validate_client_config_Ok c : validate_client_config c = Ok tt <-> client_config_ok c.
Proof.
  unfold validate_client_config.
  rewrite !bind_unit_Ok, !reject_if_Ok, is_empty_nonempty, bool_decide_eq_false,
    validate_client_transport_Ok, for_each_Ok, (Forall_iff _ _ _ validate_client_proxy_Ok),
    validate_additional_scopes_Ok, validate_client_auth_Ok.
  rewrite validate_token_source_Ok. setoid_rewrite validate_client_oidc_Ok.
  split; [intros (?&?&?&?&?&?); by constructor | by intros []].
Qed.

(** *** Environment variables *)
Fixpoint dollars (s : string) : nat :=
  match s with
  | EmptyString => O
  | String c s' => ((if decide (c = "$"%char) then 1 else 0) + dollars s')%nat
  end.

(** No [${...}] is left. *)
Definition no_placeholder (s : string) : Prop :=
  match split_once "${" s with
  | None => True
  | Some (_, after) => split_once "}" after = None
  end.

Lemma dollars_app a b : dollars (a +:+ b)%string = (dollars a + dollars b)%nat.
Proof. induction a as [|c a IH]; simpl; [done|]. rewrite IH. lia. Qed.

Lemma dollars_none s : contains_char "$"%char s = false -> dollars s = O.
Proof. induction s as [|c s IH]; simpl; [done|]. by case_decide. Qed.

Lemma replace_env_vars_total env fuel s :
  (forall name v, env name = Some v -> contains_char "$"%char v = false) ->
  (dollars s <= fuel)%nat ->
  exists r, replace_env_vars env fuel s = Some r /\ no_placeholder r.
Proof.
  intros Henv. revert s; induction fuel as [|fuel IH]; intros s Hs;
    cbn [replace_env_vars]; destruct (split_once "${" s) as [[before after]|] eqn:E1;
    try (eexists; split; [reflexivity|unfold no_placeholder; by rewrite E1]);
    destruct (split_once "}" after) as [[name rest]|] eqn:E2;
    try (eexists; split; [reflexivity|unfold no_placeholder; by rewrite E1]);
    apply split_once_Some in E1, E2; subst s after; rewrite !dollars_app in Hs; simpl in Hs; try lia.
  apply IH. rewrite !dollars_app.
  assert (dollars (or_empty (env name)) = O) as ->; [|lia].
  destruct (env name) as [v|] eqn:Ev; [|done]. by apply dollars_none, (Henv name).
Qed.

Lemma replace_env_vars_done env fuel s r : replace_env_vars env fuel s = Some r -> no_placeholder r.
Proof.
  revert s; induction fuel as [|fuel IH]; intros s; cbn [replace_env_vars];
    destruct (split_once "${" s) as [[before after]|] eqn:E1;
    try (intros [= <-]; unfold no_placeholder; by rewrite E1);
    destruct (split_once "}" after) as [[name rest]|] eqn:E2;
    try (intros [= <-]; unfold no_placeholder; by rewrite E1); try done. apply IH.
Qed.

Lemma split_once_first p s : split_once p (p +:+ s)%string = Some (EmptyString, s).
Proof.
  assert (strip_prefix p (p +:+ s)%string = Some s) as E by by apply strip_prefix_Some.
  destruct (p +:+ s)%string; simpl; by rewrite E.
Qed.

(** *** Includes *)
Section IncludeFold.
Context {C : Type} (glob : string -> result io_error (list (result string string))).
Context (load : string -> result io_error C) (merge : C -> C -> C).

Lemma include_files_fold c files r : include_files load merge c files = Ok r ->
  exists incs, r = foldl merge c incs /\
    Forall2 (fun path inc => load path = Ok inc)
      (omap (fun f => match f with Ok p => Some p | Err _ => None end) files) incs.
Proof.
  revert c; induction files as [|[path|e] files IH]; intros c; simpl.
  - intros [= <-]. exists []. by split.
  - destruct (load path) as [inc|] eqn:E; [|done]. simpl. intros H.
    destruct (IH _ H) as (incs & -> & HF). exists (inc :: incs). split; [done|by constructor].
  - apply IH.
Qed.

Lemma include_patterns_fold c patterns r :
  include_patterns glob load merge c patterns = Ok r ->
  exists incs, r = foldl merge c incs /\ Forall (fun inc => exists path, load path = Ok inc) incs.
Proof.
  revert c; induction patterns as [|p patterns IH]; intros c; simpl.
  - intros [= <-]. exists []. by split.
  - destruct (glob p) as [files|]; [|done]. simpl.
    destruct (include_files load merge c files) as [c'|] eqn:E; [|done]. simpl. intros H.
    destruct (include_files_fold _ _ _ E) as (incs1 & -> & H1).
    destruct (IH _ H) as (incs2 & -> & H2). exists (incs1 ++ incs2).
    rewrite foldl_app, Forall_app. split_and!; [done| |done].
    eapply Forall2_Forall_r; [exact H1|]. apply Forall_forall. eauto.
Qed.
End IncludeFold.

(** The fields no include can change. *)
Definition kept_fields (c : ServerConfig) :=
  (sc_auth c, sc_transport c, sc_web_server c, sc_allow_ports c, sc_max_ports_per_user c,
   sc_custom_domains_allowlist c, sc_work_conn_port c, sc_includes c, sc_http_plugins c, sc_log c).

Lemma merge_fold_kept c incs : kept_fields (foldl merge_server_config c incs) = kept_fields c.
Proof. revert c; induction incs as [|i incs IH]; intros c; [done|]. simpl. by rewrite IH. Qed.

Lemma merge_fold_proxies c incs :
  sc_proxies (foldl merge_server_config c incs) = sc_proxies c ++ concat (map sc_proxies incs).
Proof.
  revert c; induction incs as [|i incs IH]; intros c; simpl; [by rewrite app_nil_r|].
  rewrite IH. simpl. by rewrite app_assoc.
Qed.

Lemma merge_fold_port c incs : Forall (fun i => sc_bind_port i <> 0) incs ->
  sc_bind_port (foldl merge_server_config c incs) = default (sc_bind_port c) (sc_bind_port <$> last incs).
Proof.
  intros H. induction incs as [|i incs _] using rev_ind; [done|].
  rewrite foldl_app, last_snoc. apply Forall_app in H as [_ H]. apply Forall_cons in H as [H _].
  simpl. by rewrite decide_True.
Qed.

Lemma normalize_client_proxy_spec p :
  px_use_encryption (normalize_client_proxy p) =
    px_use_encryption p || match px_transport p with Some t => tr_use_encryption t | None => false end /\
  px_use_compression (normalize_client_proxy p) =
    px_use_compression p || match px_transport p with Some t => tr_use_compression t | None => false end /\
  px_transport (normalize_client_proxy p) = px_transport p /\
  px_local_ip (normalize_client_proxy p) = px_local_ip p.
Proof.
  unfold normalize_client_proxy. destruct (px_transport p) as [t|] eqn:E.
  - destruct (tr_use_encryption t), (tr_use_compression t); simpl;
      rewrite ?orb_true_r, ?orb_false_r; auto.
  - by rewrite !orb_false_r.
Qed.

Lemma normalize_visitor_spec v :
  vi_use_encryption (normalize_visitor v) =
    vi_use_encryption v || match vi_transport v with Some t => tr_use_encryption t | None => false end /\
  vi_use_compression (normalize_visitor v) =
    vi_use_compression v || match vi_transport v with Some t => tr_use_compression t | None => false end /\
  vi_transport (normalize_visitor v) = vi_transport v.
Proof.
  unfold normalize_visitor. destruct (vi_transport v) as [t|] eqn:E.
  - destruct (tr_use_encryption t), (tr_use_compression t); simpl;
      rewrite ?orb_true_r, ?orb_false_r; auto.
  - by rewrite !orb_false_r.
Qed.

(** The switches of a transport sub-table are lifted to the proxy or visitor. *)
Definition lifted (t : option TransportConfig) (enc comp : bool) : Prop :=
  forall tr, t = Some tr ->
    (tr_use_encryption tr = true -> enc = true) /\ (tr_use_compression tr = true -> comp = true).

Lemma normalize_client_proxy_lifted p :
  lifted (px_transport (normalize_client_proxy p)) (px_use_encryption (normalize_client_proxy p))
    (px_use_compression (normalize_client_proxy p)).
Proof.
  destruct (normalize_client_proxy_spec p) as (-> & -> & -> & _). intros tr ->.
  split; intros ->; apply orb_true_r.
Qed.

Lemma normalize_visitor_lifted v :
  lifted (vi_transport (normalize_visitor v)) (vi_use_encryption (normalize_visitor v))
    (vi_use_compression (normalize_visitor v)).
Proof.
  destruct (normalize_visitor_spec v) as (-> & -> & ->). intros tr ->.
  split; intros ->; apply orb_true_r.
Qed.

Lemma replace_local_ips env fuel l l' : mapM (replace_local_ip env fuel) l = Some l' ->
  Forall (fun p => no_placeholder (px_local_ip p)) l'.
Proof.
  intros H. apply mapM_Some in H. induction H as [|p p' l l' Hp _ IH]; constructor; [|done].
  unfold replace_local_ip in Hp. apply fmap_Some in Hp as (ip & Hip & ->).
  simpl. by eapply replace_env_vars_done.
Qed.

(** ** Theorems *)

(** The server's configuration is accepted exactly when it satisfies the
    listed constraints: a control port, a CA whenever client certificates are
    required, a lock-out time whenever the throttle is on, both dashboard
    credentials whenever the dashboard is on, an allow-list of well-formed
    domains, distinct KCP and QUIC ports, complete plugins with known operations,
    and token authentication or OIDC with an issuer. *)
Theorem validate_server_config_iff c : validate_server_config c = Ok tt <-> server_config_ok c.
Proof. apply validate_server_config_Ok. Qed.

(** The client's configuration is accepted exactly when it satisfies the
    listed constraints, among them: certificate and key come together and never
    with [skip_verify]; quic and wss have a pinned CA or an explicit
    [skip_verify]; wire protocol v2 has token authentication; every bandwidth
    limit is a positive finite number; signed heartbeats have a static token;
    OIDC has a client id and an absolute token endpoint. *)
Theorem validate_client_config_iff c : validate_client_config c = Ok tt <-> client_config_ok c.
Proof. apply validate_client_config_Ok. Qed.

(** When no environment value contains a dollar sign, the substitution ends
    after at most as many rounds as the text has dollar signs, and leaves no
    placeholder. *)
Theorem replace_env_vars_terminates env s :
  (forall name v, env name = Some v -> contains_char "$"%char v = false) ->
  exists r, replace_env_vars env (dollars s) s = Some r /\ no_placeholder r.
Proof. intros Henv. by apply replace_env_vars_total. Qed.

(** The substitution does not end when a variable's value is its own
    placeholder: no amount of fuel gives a result. *)
Theorem replace_env_vars_diverges env name :
  contains_char "}"%char name = false ->
  env name = Some ("${" +:+ name +:+ "}")%string ->
  forall fuel, replace_env_vars env fuel ("${" +:+ name +:+ "}")%string = None.
Proof.
  intros Hn Henv fuel. induction fuel as [|fuel IH]; cbn [replace_env_vars];
    rewrite split_once_first, (split_once_char _ _ EmptyString Hn); try done.
  rewrite Henv. cbn [or_empty from_option id]. change (or_empty (Some ?x)) with x.
  rewrite str_app_nil_r. exact IH.
Qed.

(** Includes append the included proxies in order and change nothing of the
    security-relevant settings; but the last included file's control port always
    replaces the main file's, and a file that does not mention one carries the
    default 7000. *)
Theorem process_includes_spec glob load c r :
  (forall path inc, load path = Ok inc -> sc_bind_port inc <> 0) ->
  process_includes glob load c = Ok r ->
  exists incs, Forall (fun inc => exists path, load path = Ok inc) incs /\
    sc_proxies r = sc_proxies c ++ concat (map sc_proxies incs) /\
    kept_fields r = kept_fields c /\
    sc_bind_port r = default (sc_bind_port c) (sc_bind_port <$> last incs).
Proof.
  intros Hload H. apply include_patterns_fold in H as (incs & -> & HF). exists incs.
  split_and!; [done|apply merge_fold_proxies|apply merge_fold_kept|].
  apply merge_fold_port. eapply Forall_impl; [exact HF|]. intros inc [path ?]. eauto.
Qed.

(** A client configuration that loads satisfies every validated constraint,
    has no placeholder left in the server address or a proxy's local address, and
    has the encryption and compression switches of every transport sub-table
    lifted to the proxy or visitor, where the data path reads them. *)
Theorem load_client_config_result env fuel glob load path r :
  load_client_config env fuel glob load path = Some (Ok r) ->
  client_config_ok r /\ no_placeholder (cc_server_addr r) /\
  Forall (fun p => no_placeholder (px_local_ip p) /\
    lifted (px_transport p) (px_use_encryption p) (px_use_compression p)) (cc_proxies r) /\
  Forall (fun v => lifted (vi_transport v) (vi_use_encryption v) (vi_use_compression v))
    (cc_visitors r).
Proof.
  unfold load_client_config. destruct (_ ≫= _) as [c|e]; [|done].
  destruct (replace_environment_variables_client env fuel c) as [c'|] eqn:Ev; [|done].
  simpl. intros [= H]. apply result_bind_Ok in H as ([] & Hv & [= <-]).
  apply validate_client_config_Ok in Hv. split; [done|]. clear Hv.
  unfold replace_environment_variables_client in Ev.
  destruct (replace_env_vars env fuel (cc_server_addr c)) as [addr|] eqn:Ea; [|done].
  destruct (replace_includes env fuel (cc_includes c)) as [inc|]; [|done].
  destruct (mapM _ (cc_proxies c)) as [ps|] eqn:Ep; [|done]. simpl in Ev. injection Ev as <-.
  simpl. split; [by eapply replace_env_vars_done|].
  split; apply Forall_fmap, Forall_forall; [|intros; apply normalize_visitor_lifted].
  intros p Hp. split; [|apply normalize_client_proxy_lifted]. unfold compose.
  destruct (normalize_client_proxy_spec p) as (_ & _ & _ & ->).
  apply replace_local_ips in Ep. rewrite Forall_forall in Ep. by apply Ep.
Qed.

(** ** Witnesses *)
Definition toy_env : string -> option string :=
  fun n => if decide (n = "A"%string) then Some "10.0.0.1"%string else None.

Definition loop_env : string -> option string :=
  fun n => if decide (n = "A"%string) then Some "${A}"%string else None.

Lemma replace_env_vars_terminates_witness :
  replace_env_vars toy_env 2 "x-${A}${B}" = Some "x-10.0.0.1"%string /\
  exists r, replace_env_vars toy_env 2 "x-${A}${B}" = Some r /\ no_placeholder r.
Proof.
  split; [reflexivity|]. apply (replace_env_vars_terminates toy_env "x-${A}${B}").
  intros name v. unfold toy_env. destruct (decide _); [intros [= <-]; reflexivity|done].
Defined.

Lemma replace_env_vars_diverges_witness : replace_env_vars loop_env 100 "${A}" = None.
Proof. apply (replace_env_vars_diverges loop_env "A"); reflexivity. Defined.

(** A main file on port 9300 that includes one file with proxies only. *)
Definition main_server : ServerConfig :=
  with_server default_server "0.0.0.0" 9300 None None None None None (Some ["conf.d/*"%string]) [].

Definition extra_server : ServerConfig :=
  with_server_proxies default_server None "0.0.0.0" [default_proxy].

Definition toy_glob (p : string) : result io_error (list (result string string)) :=
  Ok [Ok "conf.d/a.toml"%string; Err "permission denied"%string].

Definition toy_load (path : string) : result io_error ServerConfig :=
  if decide (path = "conf.d/a.toml"%string) then Ok extra_server else Err (invalid_input "missing").

Lemma process_includes_spec_witness :
  exists r, process_includes toy_glob toy_load main_server = Ok r /\
    sc_bind_port main_server = 9300 /\ sc_bind_port r = 7000 /\ sc_proxies r = [default_proxy] /\
  exists incs, Forall (fun inc => exists path, toy_load path = Ok inc) incs /\
    sc_proxies r = sc_proxies main_server ++ concat (map sc_proxies incs) /\
    kept_fields r = kept_fields main_server /\
    sc_bind_port r = default (sc_bind_port main_server) (sc_bind_port <$> last incs).
Proof.
  eexists. split; [vm_compute; reflexivity|]. split_and!; [reflexivity..|].
  apply (process_includes_spec toy_glob toy_load main_server).
  - intros path inc. unfold toy_load. destruct (decide _); [intros [= <-]; by vm_compute|done].
  - vm_compute. reflexivity.
Defined.

Definition enc_transport : TransportConfig :=
  {| tr_protocol := "tcp"; tr_tls := None; tr_tcp_mux := true; tr_tls_only := false;
     tr_pool_count := 0; tr_max_pool_count := None; tr_tcp_keepalive_secs := 30;
     tr_bandwidth_limit := None; tr_use_encryption := true; tr_use_compression := false;
     tr_quic := None; tr_wire_protocol := "v1"; tr_work_conn_via := "auto" |}.

Definition enc_proxy : ProxyConfig :=
  {| px_name := "ssh"; px_type := "tcp"; px_local_ip := "${A}";
     px_local_port := 22; px_remote_port := Some 6000; px_custom_domains := None;
     px_subdomain := None; px_locations := None; px_host_header_rewrite := None;
     px_http_user := None; px_http_password := None; px_health_check := None;
     px_bandwidth_limit := Some "1.5 MB"; px_secret_key := None; px_transport := Some enc_transport;
     px_plugin := None; px_proxy_protocol := None; px_proxy_protocol_version := None;
     px_group := None; px_group_key := None; px_use_encryption := false;
     px_use_compression := false; px_multiplexer := None; px_route_by_http_user := None;
     px_allow_users := None |}%string.

Definition toy_load_client (path : string) : result io_error ClientConfig :=
  Ok (with_client default_client "${A}" 7000 None None None [enc_proxy] []).

Definition loaded_client : ClientConfig :=
  with_client default_client "10.0.0.1" 7000 None None None
    [with_proxy_flags (with_local_ip enc_proxy "10.0.0.1") true false] [].

Lemma load_client_config_result_witness :
  client_config_ok loaded_client /\ no_placeholder (cc_server_addr loaded_client) /\
  Forall (fun p => no_placeholder (px_local_ip p) /\
    lifted (px_transport p) (px_use_encryption p) (px_use_compression p)) (cc_proxies loaded_client) /\
  Forall (fun v => lifted (vi_transport v) (vi_use_encryption v) (vi_use_compression v))
    (cc_visitors loaded_client).
Proof.
  apply (load_client_config_result toy_env 1 toy_glob toy_load_client "frpc.toml").
  vm_compute. reflexivity.
Defined.
