(* ===== verification/ConfigCompat.v ===== *)
(** * Unknown configuration keys (src/rust_frp_config/src/compat.rs)

    The key tables of every configuration section (both spellings), the walk
    that collects the paths of unknown keys, and the error of strict mode.  Only
    the shape of a [serde_json::Value] matters here: null, booleans, numbers and
    strings are one constructor. *)
From S2P Require Import Prelude RustStd RustFmt.

Inductive ConfigKind := Server | Client.

Inductive json :=
| JScalar
| JArray (items : list json)
| JObject (fields : list (string * json)).

(** ** The key tables *)
Definition SERVER_ROOT : list string :=
  ["bind_addr"; "bindAddr"; "bind_port"; "bindPort"; "kcp_bind_port"; "kcpBindPort";
   "quic_bind_port"; "quicBindPort"; "vhost_http_port"; "vhostHTTPPort"; "vhost_https_port";
   "vhostHTTPSPort"; "tcpmux_http_connect_port"; "tcpmuxHTTPConnectPort"; "work_conn_port";
   "workConnPort"; "web_server"; "webServer"; "auth"; "transport"; "allow_ports";
   "allowPorts"; "max_ports_per_user"; "maxPortsPerUser"; "custom_domains_allowlist";
   "customDomainsAllowlist"; "custom_404_page"; "custom404Page"; "log"; "log_file"; "logFile";
   "log_level"; "logLevel"; "log_max_days"; "logMaxDays"; "includes"; "proxies";
   "http_plugins"; "httpPlugins"]%string.

Definition CLIENT_ROOT : list string :=
  ["server_addr"; "serverAddr"; "server_port"; "serverPort"; "work_conn_port"; "workConnPort";
   "user"; "client_id"; "clientID"; "web_server"; "webServer"; "auth"; "transport"; "proxies";
   "visitors"; "log"; "log_file"; "logFile"; "log_level"; "logLevel"; "log_max_days";
   "logMaxDays"; "includes"]%string.

Definition WEB_SERVER : list string :=
  ["addr"; "port"; "user"; "password"; "expose_metrics"; "exposeMetrics"]%string.

Definition AUTH : list string :=
  ["method"; "token"; "tokenSource"; "token_source"; "additionalScopes"; "additional_scopes";
   "clientIdPolicy"; "client_id_policy"; "loginMaxFailures"; "login_max_failures";
   "loginLockoutSecs"; "login_lockout_secs"; "kickRequireSameCert"; "kick_require_same_cert";
   "oidc"]%string.

Definition TOKEN_SOURCE : list string :=
  ["type"; "file_path"; "filePath"; "exec"]%string.

Definition OIDC : list string :=
  ["issuer"; "audience"; "client_id"; "clientID"; "client_secret"; "clientSecret";
   "token_endpoint_url"; "tokenEndpointURL"; "scope"; "additional_endpoint_params";
   "additionalEndpointParams"; "trusted_ca_file"; "trustedCaFile"; "insecure_skip_verify";
   "insecureSkipVerify"; "skip_expiry_check"; "skipExpiryCheck"; "skip_issuer_check";
   "skipIssuerCheck"]%string.

Definition TRANSPORT : list string :=
  ["protocol"; "tls"; "tcp_mux"; "tcpMux"; "tls_only"; "tlsOnly"; "pool_count"; "poolCount";
   "max_pool_count"; "maxPoolCount"; "tcp_keepalive_secs"; "tcpKeepaliveSecs";
   "bandwidth_limit"; "bandwidthLimit"; "use_encryption"; "useEncryption"; "use_compression";
   "useCompression"; "quic"; "wire_protocol"; "wireProtocol"; "work_conn_via"; "workConnVia"]%string.

Definition TLS : list string :=
  ["enable"; "cert_file"; "certFile"; "key_file"; "keyFile"; "trusted_ca_file";
   "trustedCaFile"; "skip_verify"; "skipVerify"; "client_ca_file"; "clientCaFile";
   "require_client_cert"; "requireClientCert"; "force"]%string.

Definition QUIC : list string :=
  ["max_idle_timeout"; "maxIdleTimeout"; "max_incoming_streams"; "maxIncomingStreams";
   "keepalive_period"; "keepalivePeriod"]%string.

Definition PROXY : list string :=
  ["name"; "type"; "local_ip"; "localIP"; "local_port"; "localPort"; "remote_port";
   "remotePort"; "custom_domains"; "customDomains"; "subdomain"; "subDomain"; "locations";
   "host_header_rewrite"; "hostHeaderRewrite"; "http_user"; "httpUser"; "http_password";
   "httpPassword"; "health_check"; "healthCheck"; "bandwidth_limit"; "bandwidthLimit";
   "secret_key"; "secretKey"; "transport"; "plugin"; "proxy_protocol"; "proxyProtocol";
   "proxy_protocol_version"; "proxyProtocolVersion"; "group"; "group_key"; "groupKey";
   "use_encryption"; "useEncryption"; "use_compression"; "useCompression"; "multiplexer";
   "route_by_http_user"; "routeByHTTPUser"; "allow_users"; "allowUsers"]%string.

Definition VISITOR : list string :=
  ["name"; "type"; "server_name"; "serverName"; "secret_key"; "secretKey"; "bind_addr";
   "bindAddr"; "bind_port"; "bindPort"; "transport"; "use_encryption"; "useEncryption";
   "use_compression"; "useCompression"]%string.

Definition HEALTH_CHECK : list string :=
  ["type"; "timeout_seconds"; "timeoutSeconds"; "max_failed"; "maxFailed"; "interval_seconds";
   "intervalSeconds"; "path"]%string.

Definition PLUGIN : list string :=
  ["type"; "unix_path"; "unixPath"; "local_path"; "localPath"; "strip_prefix"; "stripPrefix";
   "http_user"; "httpUser"; "http_password"; "httpPassword"; "username"; "password";
   "local_addr"; "localAddr"; "crt_path"; "crtPath"; "key_path"; "keyPath"]%string.

Definition PORT_RANGE : list string :=
  ["start"; "end"; "single"]%string.

Definition LOG : list string :=
  ["to"; "file"; "level"; "max_days"; "maxDays"]%string.

Definition HTTP_PLUGIN : list string :=
  ["name"; "addr"; "path"; "ops"; "tls_verify"; "tlsVerify"]%string.

Fixpoint assoc {A} (l : list (string * A)) (k : string) : option A :=
  match l with
  | [] => None
  | (k', a) :: l => if decide (k' = k) then Some a else assoc l k
  end.

Definition section_fields (section : string) : list string :=
  default [] (assoc
    [("server_root", SERVER_ROOT); ("client_root", CLIENT_ROOT); ("web_server", WEB_SERVER);
     ("auth", AUTH); ("oidc", OIDC); ("token_source", TOKEN_SOURCE); ("transport", TRANSPORT);
     ("tls", TLS); ("quic", QUIC); ("proxy", PROXY); ("visitor", VISITOR);
     ("health_check", HEALTH_CHECK); ("plugin", PLUGIN); ("port_range", PORT_RANGE);
     ("log", LOG); ("http_plugin", HTTP_PLUGIN)]%string section).

Definition root_children : list (string * string) :=
  [("web_server", "web_server"); ("webServer", "web_server"); ("auth", "auth");
   ("transport", "transport"); ("proxies", "proxy"); ("visitors", "visitor");
   ("allow_ports", "port_range"); ("allowPorts", "port_range"); ("log", "log");
   ("http_plugins", "http_plugin"); ("httpPlugins", "http_plugin")]%string.

Definition child_section (section key : string) : option string :=
  children ← assoc
    [("server_root", root_children); ("client_root", root_children);
     ("auth", [("oidc", "oidc"); ("tokenSource", "token_source"); ("token_source", "token_source")]);
     ("transport", [("tls", "tls"); ("quic", "quic")]);
     ("proxy", [("transport", "transport"); ("plugin", "plugin");
                ("health_check", "health_check"); ("healthCheck", "health_check")]);
     ("visitor", [("transport", "transport")])]%string section;
  assoc children key.

(** ** The walk *)
Definition is_object (v : json) : bool := match v with JObject _ => true | _ => false end.

Fixpoint check_table (section path : string) (value : json) : list string :=
  match value with
  | JObject obj =>
      (fix fields (obj : list (string * json)) : list string :=
         match obj with
         | [] => []
         | (key, val) :: obj =>
             (if decide (key ∈ section_fields section) then
                match child_section section key with
                | None => []
                | Some child =>
                    match val with
                    | JObject _ => check_table child (path +:+ key +:+ ".")%string val
                    | JArray arr =>
                        (fix items (i : Z) (arr : list json) : list string :=
                           match arr with
                           | [] => []
                           | item :: arr =>
                               (if is_object item then
                                  check_table child
                                    (path +:+ key +:+ "[" +:+ dec i +:+ "].")%string item
                                else []) ++ items (i + 1) arr
                           end) 0 arr
                    | JScalar => []
                    end
                end
              else [(path +:+ key)%string]) ++ fields obj
         end) obj
  | _ => []
  end.

Definition root_section (kind : ConfigKind) : string :=
  match kind with Server => "server_root" | Client => "client_root" end.

Definition collect_unknown_fields (kind : ConfigKind) (root : json) : list string :=
  check_table (root_section kind) EmptyString root.

Definition nl : string := String (ascii_of_N 10) EmptyString.

Definition strict_unknown_error (kind : ConfigKind) (root : json) : option string :=
  let unknown := collect_unknown_fields kind root in
  if decide (unknown = []) then None else
  let msg := ("strict config mode: " +:+ dec (zlen unknown)
                +:+ " unrecognized field(s) that are not supported:")%string in
  let msg := foldl (fun msg field => (msg +:+ nl +:+ "  - `" +:+ field +:+ "`")%string) msg
               (take 10 unknown) in
  Some (if decide (10 < zlen unknown) then
          (msg +:+ nl +:+ "  - ... and " +:+ dec (zlen unknown - 10) +:+ " more")%string
        else msg).

(** [check_raw_fields] after the conversion to JSON: strict mode turns unknown
    keys into an error, otherwise they are only logged. *)
Definition check_raw_fields (kind : ConfigKind) (strict : bool) (root : option json)
  : result io_error unit :=
  match root with
  | None => Ok tt
  | Some v =>
      if strict then
        match strict_unknown_error kind v with
        | Some msg => Err (IoError InvalidData msg)
        | None => Ok tt
        end
      else Ok tt
  end.

(** ** Specification: every key of every section is in its table *)
Inductive well_keyed : string -> json -> Prop :=
| wk_scalar section : well_keyed section JScalar
| wk_array section l : well_keyed section (JArray l)
| wk_object section obj :
    (forall key val, (key, val) ∈ obj ->
       key ∈ section_fields section /\
       forall child, child_section section key = Some child -> child_ok child val) ->
    well_keyed section (JObject obj)
with child_ok : string -> json -> Prop :=
| co_scalar child : child_ok child JScalar
| co_object child obj : well_keyed child (JObject obj) -> child_ok child (JObject obj)
| co_array child l : (forall v, v ∈ l -> well_keyed child v) -> child_ok child (JArray l).

(** ** Lemmas *)
Section JsonInd.
Context (P : json -> Prop) (Hs : P JScalar).
Context (Ha : forall l, Forall P l -> P (JArray l)).
Context (Ho : forall f, Forall (fun kv => P kv.2) f -> P (JObject f)).

Fixpoint json_induction (v : json) : P v :=
  match v with
  | JScalar => Hs
  | JArray l => Ha l ((fix go l : Forall P l :=
      match l with [] => Forall_nil_2 _ | v :: l => Forall_cons_2 _ _ _ (json_induction v) (go l) end) l)
  | JObject f => Ho f ((fix go f : Forall (fun kv => P kv.2) f :=
      match f with
      | [] => Forall_nil_2 _
      | kv :: f => Forall_cons_2 _ _ _ (let '(k, v) as kv := kv return P kv.2 in json_induction v) (go f)
      end) f)
  end.
End JsonInd.

(** The two loops of the walk, as functions. *)
Definition check_item (child prefix : string) (i : Z) (item : json) : list string :=
  if is_object item then check_table child (prefix +:+ "[" +:+ dec i +:+ "].")%string item else [].

Fixpoint check_items (child prefix : string) (i : Z) (arr : list json) : list string :=
  match arr with
  | [] => []
  | item :: arr => check_item child prefix i item ++ check_items child prefix (i + 1) arr
  end.

Definition check_field (section path : string) (kv : string * json) : list string :=
  let '(key, val) := kv in
  if decide (key ∈ section_fields section) then
    match child_section section key with
    | None => []
    | Some child =>
        match val with
        | JObject _ => check_table child (path +:+ key +:+ ".")%string val
        | JArray arr => check_items child (path +:+ key) 0 arr
        | JScalar => []
        end
    end
  else [(path +:+ key)%string].

Lemma check_items_eq child path key i arr :
  (fix items (i : Z) (arr : list json) : list string :=
     match arr with
     | [] => []
     | item :: arr =>
         (if is_object item then
            check_table child (path +:+ key +:+ "[" +:+ dec i +:+ "].")%string item
          else []) ++ items (i + 1) arr
     end) i arr = check_items child (path +:+ key) i arr.
Proof.
  revert i; induction arr as [|item arr IH]; intros i; [done|]. cbn [check_items].
  rewrite <- IH. unfold check_item. by rewrite <- str_app_assoc.
Qed.

Lemma check_table_object section path obj :
  check_table section path (JObject obj) = concat (map (check_field section path) obj).
Proof.
  cbn [check_table]. induction obj as [|[key val] obj IH]; [done|].
  cbn [map concat]. rewrite <- IH. f_equal. unfold check_field.
  destruct (decide _); [|done]. destruct (child_section section key); [|done].
  destruct val; try done. apply check_items_eq.
Qed.

Lemma check_items_nil child prefix i arr :
  (forall item j, item ∈ arr -> check_item child prefix j item = [] <-> well_keyed child item) ->
  check_items child prefix i arr = [] <-> forall v, v ∈ arr -> well_keyed child v.
Proof.
  revert i; induction arr as [|item arr IH]; intros i H; cbn [check_items].
  { split; [intros _ v; by rewrite elem_of_nil|done]. }
  rewrite app_nil, (H item) by (by left). rewrite IH by (intros; apply H; by right).
  setoid_rewrite elem_of_cons. naive_solver.
Qed.

Lemma concat_nil {A} (l : list (list A)) : concat l = [] <-> Forall (fun x => x = []) l.
Proof.
  induction l as [|x l IH]; simpl; [split; [by constructor|done]|].
  by rewrite app_nil, Forall_cons, IH.
Qed.

Lemma check_field_nil section path key val :
  (forall s p, check_table s p val = [] <-> well_keyed s val) ->
  (forall l, val = JArray l -> forall v, v ∈ l -> forall s p, check_table s p v = [] <-> well_keyed s v) ->
  check_field section path (key, val) = [] <->
  key ∈ section_fields section /\
    forall child, child_section section key = Some child -> child_ok child val.
Proof.
  intros Hval Harr. unfold check_field. destruct (decide (key ∈ section_fields section)) as [Hk|Hk];
    [|naive_solver].
  destruct (child_section section key) as [child|]; [|naive_solver].
  transitivity (child_ok child val); [|naive_solver].
  destruct val as [|arr|obj]; [split; [constructor|done]| |].
  - rewrite check_items_nil.
    + split; [by constructor|by inversion 1].
    + intros item j Hin. unfold check_item. destruct (is_object item) eqn:E; [by apply (Harr arr)|].
      split; [intros _|done]. destruct item; [constructor..|done].
  - rewrite Hval. split; [by constructor|by inversion 1].
Qed.

Lemma check_table_nil v : forall section path, check_table section path v = [] <-> well_keyed section v.
Proof.
  enough ((forall section path, check_table section path v = [] <-> well_keyed section v) /\
    (forall l, v = JArray l -> forall x, x ∈ l -> forall s p, check_table s p x = [] <-> well_keyed s x))
    by naive_solver.
  induction v as [|l IH|obj IH] using json_induction.
  - split; [split; [constructor|done]|done].
  - split; [split; [constructor|done]|]. intros l' [= ->] x Hx.
    rewrite Forall_forall in IH. by apply IH.
  - split; [|done]. intros section path. rewrite check_table_object, concat_nil, Forall_fmap.
    transitivity (forall key val, (key, val) ∈ obj -> key ∈ section_fields section /\
      forall child, child_section section key = Some child -> child_ok child val);
      [|split; [by constructor|by inversion 1]].
    rewrite Forall_forall. rewrite Forall_forall in IH. split.
    + intros H key val Hin. destruct (IH _ Hin) as [H1 H2].
      apply (check_field_nil section path key val H1 H2), (H _ Hin).
    + intros H [key val] Hin. destruct (IH _ Hin) as [H1 H2].
      apply (check_field_nil section path key val H1 H2). by apply H.
Qed.

(** ** Theorems *)

(** Strict mode accepts a configuration exactly when every key of every
    table, at any depth and in arrays of tables, is listed for its section;
    otherwise the error is [InvalidData]. *)
Theorem check_raw_fields_strict kind v :
  check_raw_fields kind true (Some v) = Ok tt <-> well_keyed (root_section kind) v.
Proof.
  rewrite <- (check_table_nil v _ EmptyString). unfold check_raw_fields, strict_unknown_error,
    collect_unknown_fields. destruct (decide _); naive_solver.
Qed.

(** A client file with a plugin that sets a request header. *)
Definition header_config : json :=
  JObject [("serverAddr", JScalar);
           ("proxies", JArray [JObject [("name", JScalar); ("plugin",
              JObject [("type", JScalar); ("requestHeaders", JObject [("set", JObject [])]);
                       ("hostHeaderRewrite", JScalar)])]])]%string.

(** Strict mode rejects keys the program does support: the table of plugin
    keys lists neither [requestHeaders] nor [hostHeaderRewrite]. *)
Theorem strict_rejects_supported_plugin_keys :
  collect_unknown_fields Client header_config =
    ["proxies[0].plugin.requestHeaders"; "proxies[0].plugin.hostHeaderRewrite"]%string /\
  is_ok (check_raw_fields Client true (Some header_config)) = false.
Proof. split; vm_compute; reflexivity. Qed.
