(* ===== verification/LocalTime.v ===== *)
(** * Civil calendar and local timestamps ([rust_frp_util/src/localtime.rs])

    The conversions between days since 1970-01-01 and (year, month, day), the
    timestamp formats of the logs, and the parser of rotated log-file dates.
    The offset of the local time zone comes from the C library and is an
    argument. *)
From S2P Require Import Prelude RustStd.

(** [div_euclid] / [rem_euclid] by a positive constant are [Z.div] / [Z.modulo];
    Rust's [/] and [%] on signed integers truncate, so they are [Z.quot] and
    [Z.rem]. *)

(** UTC seconds and offset to (days since 1970-01-01, second of the day). *)
Definition local_parts (utc_secs offset_secs : Z) : Z * Z :=
  let shifted := wrap_i64 (utc_secs + offset_secs) in
  (shifted / 86400, wrap_u32 (shifted mod 86400)).

(** Days since the epoch to (year, month, day). *)
Definition civil_from_days (z : Z) : Z * Z * Z :=
  let z := wrap_i64 (z + 719468) in
  let era := Z.quot (if decide (0 <= z) then z else wrap_i64 (z - 146096)) 146097 in
  let doe := wrap_u64 (wrap_i64 (z - wrap_i64 (era * 146097))) in
  let yoe := wrap_u64 (wrap_u64 (wrap_u64 (doe - doe / 1460) + doe / 36524) - doe / 146096) / 365 in
  let y := wrap_i64 (wrap_i64 yoe + wrap_i64 (era * 400)) in
  let doy := wrap_u64 (doe - wrap_u64 (wrap_u64 (365 * yoe + yoe / 4) - yoe / 100)) in
  let mp := wrap_u64 (5 * doy + 2) / 153 in
  let d := wrap_u32 (wrap_u64 (wrap_u64 (doy - wrap_u64 (153 * mp + 2) / 5) + 1)) in
  let m := wrap_u32 (if decide (mp < 10) then wrap_u64 (mp + 3) else wrap_u64 (mp - 9)) in
  (if decide (m <= 2) then wrap_i64 (y + 1) else y, m, d).

(** (year, month, day) to days since the epoch. *)
Definition days_from_civil (y m d : Z) : Z :=
  let y := if decide (m <= 2) then wrap_i64 (y - 1) else y in
  let era := Z.quot (if decide (0 <= y) then y else wrap_i64 (y - 399)) 400 in
  let yoe := wrap_u64 (wrap_i64 (y - wrap_i64 (era * 400))) in
  let mp := if decide (2 < m) then wrap_u32 (m - 3) else wrap_u32 (m + 9) in
  let doy := wrap_u64 (wrap_u64 ((153 * mp + 2) / 5 + d) - 1) in
  let doe := wrap_u64 (wrap_u64 (wrap_u64 (wrap_u64 (yoe * 365) + yoe / 4) - yoe / 100) + doy) in
  wrap_i64 (wrap_i64 (wrap_i64 (era * 146097) + wrap_i64 doe) - 719468).

(** Seconds since 1970 of a [SystemTime] given as nanoseconds since 1970. *)
Definition unix_secs (now : Z) : Z :=
  if decide (0 <= now) then wrap_i64 (now / 1000000000) else 0.

Definition format_clock (sec_of_day : Z) : string :=
  (pad0 2 (sec_of_day / 3600) +:+ ":" +:+ pad0 2 ((sec_of_day mod 3600) / 60)
   +:+ ":" +:+ pad0 2 (sec_of_day mod 60))%string.

Definition format_date (days : Z) : string :=
  let '(y, m, d) := civil_from_days days in
  (pad0 4 y +:+ "-" +:+ pad0 2 m +:+ "-" +:+ pad0 2 d)%string.

Definition format_local_datetime_with_offset (secs offset_secs : Z) : string :=
  let '(days, sec_of_day) := local_parts secs offset_secs in
  (format_date days +:+ " " +:+ format_clock sec_of_day)%string.

Definition offset_display (offset : Z) : string :=
  let sign := if decide (offset < 0) then "-"%string else "+"%string in
  let abs := Z.abs offset in
  (sign +:+ pad0 2 (abs / 3600) +:+ ":" +:+ pad0 2 ((abs mod 3600) / 60))%string.

Definition format_local_timestamp (utc_secs micros offset_secs : Z) : string :=
  let '(days, sec_of_day) := local_parts utc_secs offset_secs in
  (format_date days +:+ "T" +:+ format_clock sec_of_day +:+ "."
   +:+ pad0 6 micros +:+ offset_display offset_secs)%string.

Definition local_date_string (offset_secs_at : Z -> Z) (now : Z) : string :=
  let secs := unix_secs now in
  format_date (local_parts secs (offset_secs_at secs)).1.

(** The three pieces are parsed in order, each failure is [None]. *)
Definition parse_date (s : string) : option Z :=
  match split_char "-" s with
  | ys :: rest =>
      y ← parse_signed 64 ys;
      match rest with
      | ms :: rest =>
          m ← parse_unsigned 32 ms;
          match rest with
          | ds :: rest =>
              d ← parse_unsigned 32 ds;
              if negb (bool_decide (rest = [])) || negb (bool_decide (1 <= m <= 12))
                 || negb (bool_decide (1 <= d <= 31)) then None
              else if decide (str_len s <> 10) then None
              else Some (days_from_civil y m d)
          | [] => None
          end
      | [] => None
      end
  | [] => None
  end.

(** ** The Gregorian calendar, as the specification *)
Definition is_leap (y : Z) : bool :=
  bool_decide (y mod 4 = 0 /\ (y mod 100 <> 0 \/ y mod 400 = 0)).

Definition days_in_month (y m : Z) : Z :=
  if decide (m = 2) then if is_leap y then 29 else 28
  else if decide (m = 4 \/ m = 6 \/ m = 9 \/ m = 11) then 30 else 31.

Definition valid_date (c : Z * Z * Z) : Prop :=
  let '(y, m, d) := c in 1 <= m <= 12 /\ 1 <= d <= days_in_month y m.

Definition next_day (c : Z * Z * Z) : Z * Z * Z :=
  let '(y, m, d) := c in
  if decide (d < days_in_month y m) then (y, m, d + 1)
  else if decide (m < 12) then (y, m + 1, 1) else (y + 1, 1, 1).

(** Days and years for which no intermediate of the 64-bit code wraps. *)
Definition day_bound : Z := 2 ^ 62.
Definition year_bound : Z := 2 ^ 53.

(** The steps of the code's arithmetic, by floor division and without
    wrap-around. *)
Definition year_start (yoe : Z) : Z := 365 * yoe + yoe / 4 - yoe / 100.
Definition month_start (mp : Z) : Z := (153 * mp + 2) / 5.
Definition yoe_of_doe (doe : Z) : Z := (doe - doe / 1460 + doe / 36524 - doe / 146096) / 365.
Definition month_of_mp (mp : Z) : Z := if decide (mp < 10) then mp + 3 else mp - 9.
Definition long_yoe (yoe : Z) : Prop := yoe mod 4 = 3 /\ (yoe mod 100 <> 99 \/ yoe = 399).
(** The civil date of year-of-era [yoe] and day-of-year [doy] in era [era]. *)
Definition civil_of (era yoe mp d : Z) : Z * Z * Z :=
  (if decide (month_of_mp mp <= 2) then yoe + era * 400 + 1 else yoe + era * 400,
   month_of_mp mp, d).
(** Month index, as the inverse of [month_of_mp]. *)
Definition mp_of_month (m : Z) : Z := if decide (2 < m) then m - 3 else m + 9.

Example civil_0 : civil_from_days 0 = (1970, 1, 1).
Proof. vm_compute. reflexivity. Qed.
Example civil_1 : format_local_timestamp 1759638274 123456 28800 =
  "2025-10-05T12:24:34.123456+08:00"%string.
Proof. vm_compute. reflexivity. Qed.
Example civil_2 : format_date (-1) = "1969-12-31"%string /\ parse_date "2026-1-1" = None.
Proof. split; vm_compute; reflexivity. Qed.
Example civil_3 : parse_date "2000-01-01" = Some 10957 /\
  format_local_datetime_with_offset 0 (-19800) = "1969-12-31 18:30:00"%string.
Proof. split; vm_compute; reflexivity. Qed.

(** ** The arithmetic of the code without its wrap-arounds *)
Lemma quot_floor z n : 0 < n -> Z.quot (if decide (0 <= z) then z else z - (n - 1)) n = z / n.
Proof.
  intros Hn. case_decide.
  - by rewrite Z.quot_div_nonneg.
  - replace (z - (n - 1)) with (- ((n - 1) - z)) by lia.
    rewrite Z.quot_opp_l, Z.quot_div_nonneg by lia.
    assert (((n - 1) - z) / n = - (z / n)); [|lia].
    pose proof (Z.div_mod z n ltac:(lia)); pose proof (Z.mod_pos_bound z n Hn).
    symmetry. apply Z.div_unique with (n - 1 - z mod n); [lia|]. nia.
Qed.

Lemma yoe_of_doe_bounds doe : 0 <= doe < 146097 ->
  0 <= yoe_of_doe doe <= 399 /\ 0 <= doe - year_start (yoe_of_doe doe) <= 365 /\
  (doe - year_start (yoe_of_doe doe) = 365 -> long_yoe (yoe_of_doe doe)).
Proof. intros H. unfold long_yoe, yoe_of_doe, year_start. euclid. Qed.

Lemma yoe_of_doe_unique yoe doy : 0 <= yoe <= 399 -> 0 <= doy <= 365 ->
  (doy = 365 -> long_yoe yoe) ->
  0 <= year_start yoe + doy < 146097 /\
  yoe_of_doe (year_start yoe + doy) = yoe.
Proof. unfold long_yoe, yoe_of_doe, year_start. intros ???. split; euclid. Qed.

Lemma month_start_unique mp doy : 0 <= mp <= 11 ->
  month_start mp <= doy < month_start (mp + 1) -> (5 * doy + 2) / 153 = mp.
Proof. unfold month_start. intros. euclid. Qed.

Lemma month_of_doy doy : 0 <= doy <= 365 ->
  0 <= (5 * doy + 2) / 153 <= 11 /\
  month_start ((5 * doy + 2) / 153) <= doy < month_start ((5 * doy + 2) / 153 + 1).
Proof. unfold month_start. intros. euclid. Qed.

Lemma civil_from_days_pure z era doe yoe doy mp : - day_bound <= z <= day_bound ->
  era = (z + 719468) / 146097 -> doe = (z + 719468) mod 146097 ->
  yoe = yoe_of_doe doe -> doy = doe - year_start yoe -> mp = (5 * doy + 2) / 153 ->
  civil_from_days z = civil_of era yoe mp (doy - month_start mp + 1).
Proof.
  unfold day_bound. intros Hz Hera Hdoe Hyoe Hdoy Hmp.
  assert (0 <= doe < 146097) as Bdoe by (subst doe; apply Z.mod_pos_bound; lia).
  destruct (yoe_of_doe_bounds doe Bdoe) as (Byoe & Bdoy & _).
  rewrite <- Hyoe in *. rewrite <- Hdoy in *.
  destruct (month_of_doy doy Bdoy) as (Bmp & Bmd). rewrite <- Hmp in *.
  assert (z + 719468 = 146097 * era + doe) as Hsplit by (subst; apply Z.div_mod; lia).
  assert (- 2 ^ 45 <= era <= 2 ^ 45) as Bera by lia.
  unfold civil_from_days.
  rewrite (wrap_i64_small (z + 719468)) by lia.
  replace (if decide (0 <= z + 719468) then z + 719468 else wrap_i64 (z + 719468 - 146096))
    with (if decide (0 <= z + 719468) then z + 719468 else z + 719468 - (146097 - 1)).
  2:{ case_decide; [done|]. rewrite wrap_i64_small; lia. }
  rewrite quot_floor by lia. rewrite <- Hera.
  rewrite (wrap_i64_small (era * 146097)) by lia.
  replace (z + 719468 - era * 146097) with doe by lia. clear Hera Hdoe Hsplit Hz.
  rewrite (wrap_i64_small doe), (wrap_u64_small doe) by lia.
  unfold year_start, month_start, yoe_of_doe in *.
  replace (wrap_u64 (wrap_u64 (wrap_u64 (doe - doe / 1460) + doe / 36524) - doe / 146096) / 365)
    with yoe by (rewrite Hyoe; unwrap; done).
  replace (wrap_u64 (doe - wrap_u64 (wrap_u64 (365 * yoe + yoe / 4) - yoe / 100)))
    with doy by (clear Hyoe; unwrap; done).
  replace (wrap_u64 (5 * doy + 2) / 153) with mp by (rewrite Hmp; unwrap; done).
  clear Hyoe Hdoy Hmp Bdoe. unfold civil_of, month_of_mp.
  destruct (decide (mp < 10)); unwrap; case_decide; unwrap; done.
Qed.


Lemma days_from_civil_pure y m d era yoe :
  - (2 * year_bound) <= y <= 2 * year_bound -> 1 <= m <= 12 -> 1 <= d <= 31 ->
  era = (if decide (m <= 2) then y - 1 else y) / 400 ->
  yoe = (if decide (m <= 2) then y - 1 else y) mod 400 ->
  days_from_civil y m d =
    era * 146097 + (year_start yoe + (month_start (mp_of_month m) + d - 1)) - 719468.
Proof.
  unfold year_bound. intros Hy Hm Hd Hera Hyoe. unfold days_from_civil.
  set (y' := if decide (m <= 2) then y - 1 else y) in *.
  assert (- 2 ^ 54 - 1 <= y' <= 2 ^ 54) as Hy' by (subst y'; case_decide; lia).
  replace (if decide (m <= 2) then wrap_i64 (y - 1) else y) with y'.
  2:{ subst y'. case_decide; [|done]. rewrite wrap_i64_small; lia. }
  replace (if decide (0 <= y') then y' else wrap_i64 (y' - 399))
    with (if decide (0 <= y') then y' else y' - (400 - 1)).
  2:{ case_decide; [done|]. rewrite wrap_i64_small; lia. }
  rewrite quot_floor by lia. rewrite <- Hera.
  assert (y' = 400 * era + yoe) as Hsplit by (subst; apply Z.div_mod; lia).
  assert (0 <= yoe < 400) as Byoe by (subst; apply Z.mod_pos_bound; lia).
  rewrite (wrap_i64_small (era * 400)) by lia.
  replace (y' - era * 400) with yoe by lia.
  unfold mp_of_month, month_start, year_start. clear Hera Hyoe.
  assert (- 50000000000000 <= era <= 50000000000000) as Bera by lia. clear Hsplit.
  destruct (decide (2 < m)); unwrap; lia.
Qed.

Lemma mp_of_month_inv mp : 0 <= mp <= 11 -> mp_of_month (month_of_mp mp) = mp.
Proof. unfold mp_of_month, month_of_mp. intros. repeat case_decide; lia. Qed.

Lemma month_of_mp_inv m : 1 <= m <= 12 ->
  month_of_mp (mp_of_month m) = m /\ 0 <= mp_of_month m <= 11.
Proof. unfold mp_of_month, month_of_mp. intros. repeat case_decide; lia. Qed.

(** A valid date has a day of year below the next month's start, and the day
    366 only in a long year. *)
Lemma valid_date_doy y m d era yoe : valid_date (y, m, d) ->
  (if decide (m <= 2) then y - 1 else y) = 400 * era + yoe -> 0 <= yoe < 400 ->
  let mp := mp_of_month m in
  month_start mp <= month_start mp + d - 1 < month_start (mp + 1) /\
  0 <= month_start mp + d - 1 <= 365 /\
  (month_start mp + d - 1 = 365 -> long_yoe yoe).
Proof.
  intros [Hm Hd] Hy Hyoe mp. subst mp.
  unfold days_in_month, is_leap, month_start, mp_of_month, long_yoe in *.
  destruct (decide (m = 2)) as [->|Hm2].
  - rewrite decide_False, decide_True in * by lia. case_bool_decide; euclid.
  - repeat case_decide; euclid.
Qed.

Lemma days_civil_roundtrip_aux y m d : valid_date (y, m, d) ->
  - year_bound <= y <= year_bound ->
  civil_from_days (days_from_civil y m d) = (y, m, d).
Proof.
  intros Hv Hy.
  set (era := (if decide (m <= 2) then y - 1 else y) / 400).
  set (yoe := (if decide (m <= 2) then y - 1 else y) mod 400).
  assert (0 <= yoe < 400) as Byoe by (apply Z.mod_pos_bound; lia).
  assert ((if decide (m <= 2) then y - 1 else y) = 400 * era + yoe) as Hsplit
    by (apply Z.div_mod; lia).
  pose proof (valid_date_doy y m d era yoe Hv Hsplit Byoe) as (Hmp & Hdoy & Hlong).
  destruct Hv as [Hm Hd].
  assert (1 <= d <= 31) as Bd by (unfold days_in_month in Hd; repeat case_decide; try case_match; lia).
  rewrite (days_from_civil_pure y m d era yoe)
    by (done || unfold year_bound in *; lia).
  clearbody era yoe. cbv zeta in *.
  destruct (month_of_mp_inv m Hm) as [Hmm Bmp].
  set (mp := mp_of_month m) in *. set (doy := month_start mp + d - 1) in *.
  destruct (yoe_of_doe_unique yoe doy) as (Bdoe & Eyoe); [lia..|done|].
  assert (- 30000000000000 <= era <= 30000000000000) by (unfold year_bound in Hy; case_decide; lia).
  rewrite (civil_from_days_pure _ era (year_start yoe + doy) yoe doy mp).
  - unfold civil_of. rewrite Hmm. f_equal; [f_equal|subst doy; lia].
    repeat case_decide; lia.
  - unfold day_bound. lia.
  - rewrite Z.sub_add. apply Z.div_unique with (year_start yoe + doy); lia.
  - rewrite Z.sub_add. apply Z.mod_unique with era; lia.
  - done.
  - lia.
  - symmetry. by apply month_start_unique.
Qed.

Lemma civil_days_roundtrip_aux z : - day_bound <= z <= day_bound ->
  let '(y, m, d) := civil_from_days z in
  valid_date (y, m, d) /\ days_from_civil y m d = z.
Proof.
  intros Hz.
  set (era := (z + 719468) / 146097). set (doe := (z + 719468) mod 146097).
  set (yoe := yoe_of_doe doe). set (doy := doe - year_start yoe).
  set (mp := (5 * doy + 2) / 153).
  assert (0 <= doe < 146097) as Bdoe by (apply Z.mod_pos_bound; lia).
  assert (z + 719468 = 146097 * era + doe) as Hsplit by (apply Z.div_mod; lia).
  pose proof (yoe_of_doe_bounds doe Bdoe) as (Byoe & Bdoy & Hlong).
  fold yoe in Byoe, Bdoy, Hlong. fold doy in Bdoy, Hlong.
  destruct (month_of_doy doy Bdoy) as (Bmp & Bmd). fold mp in Bmp, Bmd.
  rewrite (civil_from_days_pure z era doe yoe doy mp) by done.
  unfold civil_of. clearbody era.
  assert (1 <= month_of_mp mp <= 12) as Bm by (unfold month_of_mp; case_decide; lia).
  set (y := if decide (month_of_mp mp <= 2) then _ else _).
  assert ((if decide (month_of_mp mp <= 2) then y - 1 else y) = yoe + era * 400) as Ey
    by (subst y; repeat case_decide; lia).
  assert (valid_date (y, month_of_mp mp, doy - month_start mp + 1)) as Hv.
  { assert (1 <= doy - month_start mp + 1) by lia. split; [lia|]. split; [lia|].
    unfold days_in_month, is_leap, month_of_mp, long_yoe, month_start in *.
    destruct (decide (mp < 10)); repeat case_decide; try case_bool_decide; try lia.
    all: euclid. }
  split; [done|].
  rewrite (days_from_civil_pure y _ _ era yoe).
  - rewrite mp_of_month_inv by done. subst doy. lia.
  - unfold year_bound, day_bound in *. subst y. case_decide; lia.
  - done.
  - destruct Hv as [_ Hd]. unfold days_in_month in Hd. repeat case_decide; try case_match; lia.
  - rewrite Ey. apply Z.div_unique with yoe; lia.
  - rewrite Ey. apply Z.mod_unique with era; lia.
Qed.

(** ** The calendar theorems *)
Lemma next_day_valid c : valid_date c -> valid_date (next_day c).
Proof.
  destruct c as [[y m] d]. unfold next_day, valid_date, days_in_month. intros [Hm Hd].
  repeat case_decide; try lia; try (repeat case_match; lia).
Qed.

(** Consecutive dates are consecutive days. *)
Lemma days_from_civil_next y m d : valid_date (y, m, d) ->
  - year_bound <= y <= year_bound ->
  let '(y', m', d') := next_day (y, m, d) in
  days_from_civil y' m' d' = days_from_civil y m d + 1.
Proof.
  intros Hv Hy. pose proof (next_day_valid _ Hv) as Hv'. destruct Hv as [Hm Hd].
  unfold next_day in *. unfold year_bound in *.
  assert (forall y m, days_in_month y m <= 31) as H31
    by (intros; unfold days_in_month; repeat case_decide; try case_match; lia).
  pose proof (H31 y m) as Hdy.
  destruct (decide (d < days_in_month y m)); [|destruct (decide (m < 12))];
    erewrite !days_from_civil_pure by (reflexivity || unfold year_bound in *; lia).
  - lia.
  - assert (d = days_in_month y m) as -> by lia. clear Hv' Hd H31 Hdy.
    unfold year_start, month_start, mp_of_month, days_in_month, is_leap.
    assert (m = 1 \/ m = 2 \/ m = 3 \/ m = 4 \/ m = 5 \/ m = 6 \/ m = 7 \/ m = 8 \/ m = 9
      \/ m = 10 \/ m = 11) as Hm' by lia.
    destruct_or! Hm'; subst m; case_bool_decide as Hb; simpl in *; try euclid.
  - assert (m = 12) as -> by lia. unfold days_in_month in *. simpl in *.
    replace (y + 1 - 1) with y by lia. unfold month_start, mp_of_month. clear H31. simpl. euclid.
Qed.

Lemma civil_year_bound z y m d : - year_bound <= z <= year_bound ->
  civil_from_days z = (y, m, d) -> - 2 ^ 52 <= y <= 2 ^ 52.
Proof.
  unfold year_bound. intros Hz.
  pose proof (Z.div_mod (z + 719468) 146097 ltac:(lia)) as Hsplit.
  pose proof (Z.mod_pos_bound (z + 719468) 146097 ltac:(lia)) as Hmod.
  destruct (yoe_of_doe_bounds _ Hmod) as (Byoe & _).
  erewrite civil_from_days_pure by (reflexivity || unfold day_bound; lia).
  unfold civil_of. intros [= <- _ _]. case_decide; lia.
Qed.

(** [days_from_civil] and [civil_from_days] are inverse: a valid civil date
    converts to a day number and back to itself, and every day number of the
    64-bit code's range converts to a valid civil date and back to itself. *)
Theorem civil_days_roundtrip :
  (forall y m d, valid_date (y, m, d) -> - year_bound <= y <= year_bound ->
     civil_from_days (days_from_civil y m d) = (y, m, d)) /\
  (forall z, - day_bound <= z <= day_bound ->
     let '(y, m, d) := civil_from_days z in
     valid_date (y, m, d) /\ days_from_civil y m d = z).
Proof.
  split; [exact days_civil_roundtrip_aux|exact civil_days_roundtrip_aux].
Qed.

Lemma civil_days_roundtrip_witness :
  civil_from_days (days_from_civil 2000 2 29) = (2000, 2, 29).
Proof. apply (proj1 civil_days_roundtrip); [split; vm_compute; intuition congruence|vm_compute; intuition congruence]. Defined.

(** [civil_from_days] is the Gregorian calendar: day 0 is 1970-01-01, and
    the date of the next day is the calendar successor of the date (month
    lengths and the 4/100/400 leap rule included). *)
Theorem civil_from_days_next_day :
  civil_from_days 0 = (1970, 1, 1) /\
  forall z, - year_bound <= z < year_bound ->
    civil_from_days (z + 1) = next_day (civil_from_days z).
Proof.
  split; [reflexivity|]. intros z Hz.
  pose proof (civil_days_roundtrip_aux z) as H.
  unfold year_bound, day_bound in *. destruct (civil_from_days z) as [[y m] d] eqn:E.
  destruct H as [Hv Hz']; [lia|].
  assert (- 2 ^ 53 + 1 <= y < 2 ^ 53 - 1) as Hy.
  { pose proof (civil_year_bound z y m d ltac:(unfold year_bound; lia) E). lia. }
  pose proof (days_from_civil_next y m d Hv ltac:(unfold year_bound; lia)) as Hn.
  pose proof (next_day_valid _ Hv) as Hv'.
  destruct (next_day (y, m, d)) as [[y' m'] d'] eqn:En.
  rewrite <- Hz', <- Hn. apply days_civil_roundtrip_aux; [done|].
  unfold next_day in En. unfold year_bound. repeat case_decide; simplify_eq; lia.
Qed.

Lemma civil_from_days_next_day_witness :
  civil_from_days (19781 + 1) = next_day (civil_from_days 19781).
Proof. apply (proj2 civil_from_days_next_day). vm_compute. intuition congruence. Defined.

(** Rotated log files are recognised again: the date text of every day of
    the years 0 to 9999 parses back to that day. *)
Theorem parse_format_date z y m d :
  civil_from_days z = (y, m, d) -> 0 <= y <= 9999 -> - day_bound <= z <= day_bound ->
  parse_date (format_date z) = Some z.
Proof.
  intros E Hy Hz. pose proof (civil_days_roundtrip_aux z Hz) as H. rewrite E in H.
  destruct H as ([Hm Hd] & Hdays).
  assert (1 <= d <= 31) as Hd'
    by (unfold days_in_month in Hd; repeat case_decide; try case_match; lia).
  destruct (pad0_spec 4 y) as (Dy & Ly & Py); [lia..|].
  destruct (pad0_spec 2 m) as (Dm & Lm & Pm); [lia..|].
  destruct (pad0_spec 2 d) as (Dd & Ld & Pd); [lia..|].
  unfold format_date, parse_date. rewrite E.
  assert (forall s, is_digits s -> contains_char "-" s = false) as Hno
    by (intros; by apply digits_no_char).
  change (split_char "-" _) with
    (split_char "-" (pad0 4 y +:+ String "-" (pad0 2 m +:+ String "-" (pad0 2 d)))%string).
  rewrite (split_char_app _ (pad0 4 y)), (split_char_app _ (pad0 2 m)),
    (split_char_single _ (pad0 2 d)) by (by apply Hno).
  assert (forall s w, str_len s = Zpos w -> s <> EmptyString) as Hne
    by (intros s w Hs Es; by rewrite Es in Hs).
  pose proof (Hne _ _ Ly); pose proof (Hne _ _ Lm); pose proof (Hne _ _ Ld).
  rewrite (parse_signed_digits _ _ y), (parse_unsigned_digits _ (pad0 2 m) m)
    by (done || lia). simpl.
  rewrite (parse_unsigned_digits _ _ d) by (done || lia). simpl.
  rewrite !bool_decide_true by (done || lia). simpl.
  rewrite decide_False; [by rewrite Hdays|].
  rewrite !str_len_app. simpl. rewrite !str_len_app. simpl. lia.
Qed.

Lemma parse_format_date_witness : parse_date (format_date 20731) = Some 20731.
Proof. apply (parse_format_date 20731 2026 10 5); vm_compute; intuition congruence. Defined.

(** The parser does not check the day against the month: 2026-02-31 is
    accepted and names the same day as 2026-03-03, so parsing then formatting
    does not give the text back. *)
Theorem parse_date_accepts_invalid_day :
  parse_date "2026-02-31" = parse_date "2026-03-03" /\
  is_Some (parse_date "2026-02-31") /\ ~ valid_date (2026, 2, 31).
Proof.
  split_and!; [vm_compute; reflexivity|vm_compute; eauto|].
  vm_compute. intuition congruence.
Qed.
