(* ===== verification/Transport.v ===== *)
(** * The byte transport below the record streams

    [FrpConn] (src/rust_frp_net/src/lib.rs) is any [AsyncRead + AsyncWrite]
    connection.  [Transport] is that interface as a state machine: every call
    returns what the poll function returned and the state after it.  The laws
    are the documented contracts of tokio's traits: an accepted write accepts a
    prefix, a read delivers the next bytes, an empty read is the end of the
    stream.  [script] is a transport driven by a list of answers: it runs the
    clients' definitions on concrete schedules and satisfies the laws. *)
From S2P Require Import Prelude.

(** [std::task::Poll]. *)
Inductive poll (A : Type) : Type :=
| Ready (a : A)
| Pending.
Arguments Ready {A} a.
Arguments Pending {A}.

Class Transport (T : Type) := {
  t_write : T -> list byte -> poll (result io_error nat) * T;
  t_flush : T -> poll (result io_error unit) * T;
  t_shutdown : T -> poll (result io_error unit) * T;
  (** [t_read t cap] reads at most [cap] bytes. *)
  t_read : T -> nat -> poll (result io_error (list byte)) * T;
  (** Ghost views: bytes accepted so far, and bytes still to be delivered. *)
  t_sent : T -> list byte;
  t_incoming : T -> list byte;
}.

Class TransportLaws (T : Type) `{Transport T} := {
  t_write_ok : forall t bs n t', t_write t bs = (Ready (Ok n), t') ->
    (n <= length bs)%nat /\ t_sent t' = t_sent t ++ take n bs /\
    t_incoming t' = t_incoming t;
  t_write_other : forall t bs r t', t_write t bs = (r, t') ->
    (forall n, r <> Ready (Ok n)) ->
    t_sent t' = t_sent t /\ t_incoming t' = t_incoming t;
  t_flush_frame : forall t r t', t_flush t = (r, t') ->
    t_sent t' = t_sent t /\ t_incoming t' = t_incoming t;
  t_read_ok : forall t cap bs t', t_read t cap = (Ready (Ok bs), t') ->
    (length bs <= cap)%nat /\ t_sent t' = t_sent t /\
    t_incoming t = bs ++ t_incoming t' /\
    (bs = [] -> (0 < cap)%nat -> t_incoming t = []);
  t_read_other : forall t cap r t', t_read t cap = (r, t') ->
    (forall bs, r <> Ready (Ok bs)) ->
    t_sent t' = t_sent t /\ t_incoming t' = t_incoming t;
}.

(** ** A scripted transport *)

(** How the next call is answered: at most [n + 1] bytes move, the call is not
    ready, or it fails. *)
Inductive answer :=
| Move (n : nat)
| NotReady
| Broken.

Record script := Script {
  s_answers : list answer;
  s_sent : list byte;
  s_incoming : list byte;
}.

Definition broken_pipe : io_error := IoError BrokenPipe "broken pipe".

(** Takes the next answer; an exhausted script moves everything. *)
Definition s_next (t : script) : answer * list answer :=
  match s_answers t with
  | [] => (Move 4095, [])
  | a :: rest => (a, rest)
  end.

Definition s_write (t : script) (bs : list byte) : poll (result io_error nat) * script :=
  match s_next t with
  | (Move k, rest) =>
      let n := Nat.min (S k) (length bs) in
      (Ready (Ok n), Script rest (s_sent t ++ take n bs) (s_incoming t))
  | (NotReady, rest) => (Pending, Script rest (s_sent t) (s_incoming t))
  | (Broken, rest) => (Ready (Err broken_pipe), Script rest (s_sent t) (s_incoming t))
  end.

Definition s_flush (t : script) : poll (result io_error unit) * script := (Ready (Ok tt), t).

Definition s_read (t : script) (cap : nat) : poll (result io_error (list byte)) * script :=
  match s_next t with
  | (Move k, rest) =>
      let n := Nat.min (S k) cap in
      (Ready (Ok (take n (s_incoming t))),
       Script rest (s_sent t) (drop n (s_incoming t)))
  | (NotReady, rest) => (Pending, Script rest (s_sent t) (s_incoming t))
  | (Broken, rest) => (Ready (Err broken_pipe), Script rest (s_sent t) (s_incoming t))
  end.

#[global] Instance script_transport : Transport script := {|
  t_write := s_write; t_flush := s_flush; t_shutdown := s_flush; t_read := s_read;
  t_sent := s_sent; t_incoming := s_incoming |}.

#[global] Instance script_laws : TransportLaws script.
Proof.
  split; simpl.
  - unfold s_write. intros t bs n t' E. destruct (s_next t) as [[] rest]; simplify_eq.
    split_and!; [lia|done|done].
  - unfold s_write. intros t bs r t' E Hr. destruct (s_next t) as [[] rest]; simplify_eq/=; try done.
    by destruct (Hr (Nat.min (S n) (length bs))).
  - intros t r t' [= <- <-]. done.
  - unfold s_read. intros t cap bs t' E. destruct (s_next t) as [[] rest]; simplify_eq; simpl.
    split_and!; [rewrite length_take; destruct cap; lia|done|symmetry; apply take_drop|].
    intros Hnil Hcap. destruct (s_incoming t); [done|]. destruct cap; [lia|].
    by rewrite <- Nat.succ_min_distr in Hnil.
  - unfold s_read. intros t cap r t' E Hr. destruct (s_next t) as [[] rest]; simplify_eq/=; try done.
    by destruct (Hr (take (Nat.min (S n) cap) (s_incoming t))).
Qed.
