(* ===== verification/EncStream.v ===== *)
(** * The AES-256-GCM record stream (src/rust_frp_net/src/crypto.rs)

    The fields of [EncryptedStream], its nonce generation, sealing, draining,
    frame decryption and the poll functions, over any [Transport].  The AEAD
    cipher ([ring]) is the interface [Aead] with the documented laws of
    AES-256-GCM the code relies on.  The two loops carry fuel; [drain_enough]
    and [read_loop_enough] show that the fuel given is never exhausted. *)
From S2P Require Import Prelude RustStd Transport.

Definition MAX_PLAINTEXT_RECORD : nat := Z.to_nat (16 * 1024).
Definition NONCE_LEN : nat := 12.
Definition NONCE_PREFIX_LEN : nat := 8.
Definition TAG_LEN : nat := 16.
Definition HEADER_LEN : nat := 4.
Definition MIN_PAYLOAD : Z := Z.of_nat NONCE_LEN + Z.of_nat TAG_LEN.
Definition MAX_PAYLOAD : Z := Z.of_nat NONCE_LEN + 16 * 1024 + Z.of_nat TAG_LEN.

(** ** The cipher *)
Class Aead := {
  (** [seal_in_place_append_tag] and [open_in_place] with empty extra data. *)
  aead_seal : list byte -> list byte -> list byte -> option (list byte);
  aead_open : list byte -> list byte -> list byte -> option (list byte);
}.

Class AeadLaws `{Aead} := {
  aead_seal_total : forall k n pt, length k = 32%nat -> length n = NONCE_LEN ->
    zlen pt <= 16 * 1024 -> is_Some (aead_seal k n pt);
  aead_seal_length : forall k n pt ct, aead_seal k n pt = Some ct ->
    length ct = (length pt + TAG_LEN)%nat;
  aead_open_seal : forall k n pt ct, aead_seal k n pt = Some ct ->
    aead_open k n ct = Some pt;
}.

Section stream.
Context `{Aead} {T : Type} `{Transport T}.

Record enc_stream := EncryptedStream {
  inner : T;
  read_key : list byte;
  write_key : list byte;
  nonce_prefix : list byte;
  write_counter : Z;
  out_buf : list byte;
  out_pos : nat;
  rx_buf : list byte;
  in_plain : list byte;
  in_pos : nat;
  sticky_err : option io_error;
}.

Definition with_inner (s : enc_stream) (t : T) : enc_stream :=
  EncryptedStream t (read_key s) (write_key s) (nonce_prefix s) (write_counter s)
    (out_buf s) (out_pos s) (rx_buf s) (in_plain s) (in_pos s) (sticky_err s).
Definition with_counter (s : enc_stream) (c : Z) : enc_stream :=
  EncryptedStream (inner s) (read_key s) (write_key s) (nonce_prefix s) c
    (out_buf s) (out_pos s) (rx_buf s) (in_plain s) (in_pos s) (sticky_err s).
Definition with_out (s : enc_stream) (buf : list byte) (pos : nat) : enc_stream :=
  EncryptedStream (inner s) (read_key s) (write_key s) (nonce_prefix s) (write_counter s)
    buf pos (rx_buf s) (in_plain s) (in_pos s) (sticky_err s).
Definition with_rx (s : enc_stream) (rx : list byte) : enc_stream :=
  EncryptedStream (inner s) (read_key s) (write_key s) (nonce_prefix s) (write_counter s)
    (out_buf s) (out_pos s) rx (in_plain s) (in_pos s) (sticky_err s).
Definition with_in (s : enc_stream) (plain : list byte) (pos : nat) : enc_stream :=
  EncryptedStream (inner s) (read_key s) (write_key s) (nonce_prefix s) (write_counter s)
    (out_buf s) (out_pos s) (rx_buf s) plain pos (sticky_err s).
Definition with_err (s : enc_stream) (e : io_error) : enc_stream :=
  EncryptedStream (inner s) (read_key s) (write_key s) (nonce_prefix s) (write_counter s)
    (out_buf s) (out_pos s) (rx_buf s) (in_plain s) (in_pos s) (Some e).

(** [prefix] is the outcome of filling eight random bytes. *)
Definition new_directional (t : T) (rk wk : list byte) (prefix : option (list byte))
  : result io_error enc_stream :=
  if decide (length rk <> 32%nat)
  then Err (IoError InvalidInput "read key must be 32 bytes for AES-256-GCM") else
  if decide (length wk <> 32%nat)
  then Err (IoError InvalidInput "write key must be 32 bytes for AES-256-GCM") else
  match prefix with
  | None => Err (IoError OtherKind "rng unavailable")
  | Some p => Ok (EncryptedStream t rk wk p 0 [] 0 [] [] 0 None)
  end.

Definition new (t : T) (key : list byte) (prefix : option (list byte))
  : result io_error enc_stream := new_directional t key key prefix.

Definition next_nonce (s : enc_stream) : result io_error (list byte * enc_stream) :=
  if decide (u32_max < write_counter s)
  then Err (IoError OtherKind
    "encrypted stream: nonce counter exhausted, refusing to reuse a nonce")
  else Ok (nonce_prefix s ++ be_bytes 4 (wrap_u32 (write_counter s)),
           with_counter s (wrap_u64 (write_counter s + 1))).

(** The state is returned on failure too: the counter has moved on. *)
Definition seal_into_out_buf (s : enc_stream) (data : list byte)
  : result io_error unit * enc_stream :=
  match next_nonce s with
  | Err e => (Err e, s)
  | Ok (nonce, s1) =>
      if decide (length nonce <> NONCE_LEN) then (Err (IoError OtherKind "invalid nonce"), s1)
      else match aead_seal (write_key s1) nonce data with
           | None => (Err (IoError OtherKind "seal failed"), s1)
           | Some body =>
               let payload_len := wrap_u32 (Z.of_nat NONCE_LEN + zlen body) in
               (Ok tt, with_out s1 (out_buf s1 ++ be_bytes 4 payload_len ++ nonce ++ body)
                         (out_pos s1))
           end
  end.

(** The loop of [try_drain_out], then the clear and the flush below it. *)
Fixpoint drain_loop (fuel : nat) (s : enc_stream) : poll (result io_error unit) * enc_stream :=
  match fuel with
  | O => (Pending, s)
  | S f =>
      if decide (out_pos s < length (out_buf s))%nat then
        match t_write (inner s) (drop (out_pos s) (out_buf s)) with
        | (Ready (Ok O), t) =>
            (Ready (Err (IoError WriteZero "underlying write returned 0")),
             with_err (with_inner s t)
               (IoError WriteZero "encrypted stream: underlying write returned 0"))
        | (Ready (Ok n), t) => drain_loop f (with_out (with_inner s t) (out_buf s) (out_pos s + n))
        | (Ready (Err e), t) => (Ready (Err e), with_err (with_inner s t) e)
        | (Pending, t) => (Pending, with_inner s t)
        end
      else
        let s := with_out s [] 0 in
        match t_flush (inner s) with
        | (r, t) => (r, with_inner s t)
        end
  end.

Definition try_drain_out (s : enc_stream) : poll (result io_error unit) * enc_stream :=
  drain_loop (S (length (out_buf s) - out_pos s)) s.

Definition try_decrypt_frame (s : enc_stream) : result io_error bool * enc_stream :=
  if decide (length (rx_buf s) < HEADER_LEN)%nat then (Ok false, s) else
  let payload_len := be_value (take 4 (rx_buf s)) in
  if decide (~ (MIN_PAYLOAD <= payload_len <= MAX_PAYLOAD))
  then (Err (IoError InvalidData
         ("encrypted frame length " +:+ dec payload_len +:+ " out of range")), s) else
  let frame_len := (HEADER_LEN + Z.to_nat payload_len)%nat in
  if decide (length (rx_buf s) < frame_len)%nat then (Ok false, s) else
  let frame := take (Z.to_nat payload_len) (drop HEADER_LEN (rx_buf s)) in
  let nonce_bytes := take NONCE_LEN frame in
  let ct := drop NONCE_LEN frame in
  match aead_open (read_key s) nonce_bytes ct with
  | None => (Err (IoError InvalidData
               "GCM open failed (wrong key or corrupted/tampered frame)"), s)
  | Some plain =>
      (Ok true, with_rx (with_in s (in_plain s ++ plain) (in_pos s)) (drop frame_len (rx_buf s)))
  end.

(** The loop of [poll_read]: parse a buffered frame, or read more bytes. *)
Fixpoint read_loop (fuel : nat) (s : enc_stream) (cap : nat)
  : poll (result io_error (list byte)) * enc_stream :=
  match fuel with
  | O => (Pending, s)
  | S f =>
      match try_decrypt_frame s with
      | (Ok true, s) =>
          let n := Nat.min cap (length (in_plain s)) in
          (Ready (Ok (take n (in_plain s))),
           if decide (n = length (in_plain s)) then with_in s [] 0 else with_in s (in_plain s) n)
      | (Err e, s) => (Ready (Err e), with_err s e)
      | (Ok false, s) =>
          match t_read (inner s) 4096 with
          | (Ready (Ok []), t) =>
              let s := with_inner s t in
              if decide (rx_buf s = []) then (Ready (Ok []), s) else
              let e := IoError UnexpectedEof "encrypted stream: EOF mid-frame" in
              (Ready (Err e), with_err s e)
          | (Ready (Ok bs), t) =>
              read_loop f (with_rx (with_inner s t) (rx_buf s ++ bs)) cap
          | (Ready (Err e), t) => (Ready (Err e), with_err (with_inner s t) e)
          | (Pending, t) => (Pending, with_inner s t)
          end
      end
  end.

(** Iterations [poll_read] can make: each adds a byte below one frame. *)
Definition read_fuel (s : enc_stream) : nat :=
  S (S (HEADER_LEN + Z.to_nat MAX_PAYLOAD) - length (rx_buf s)).

Definition poll_read (s : enc_stream) (cap : nat)
  : poll (result io_error (list byte)) * enc_stream :=
  match sticky_err s with
  | Some e => (Ready (Err e), s)
  | None =>
      if decide (in_pos s < length (in_plain s))%nat then
        let n := Nat.min cap (length (in_plain s) - in_pos s) in
        (Ready (Ok (take n (drop (in_pos s) (in_plain s)))),
         if decide (in_pos s + n = length (in_plain s))%nat then with_in s [] 0
         else with_in s (in_plain s) (in_pos s + n))
      else read_loop (read_fuel s) s cap
  end.

(** [for chunk in buf.chunks(MAX_PLAINTEXT_RECORD)], leaving on the first error. *)
Fixpoint seal_chunks (s : enc_stream) (cs : list (list byte)) : result io_error unit * enc_stream :=
  match cs with
  | [] => (Ok tt, s)
  | c :: cs =>
      match seal_into_out_buf s c with
      | (Ok _, s) => seal_chunks s cs
      | (Err e, s) => (Err e, with_err s e)
      end
  end.

Definition poll_write (s : enc_stream) (buf : list byte)
  : poll (result io_error nat) * enc_stream :=
  match sticky_err s with
  | Some e => (Ready (Err e), s)
  | None =>
      match try_drain_out s with
      | (Pending, s) => (Pending, s)
      | (Ready (Err e), s) => (Ready (Err e), s)
      | (Ready (Ok _), s) =>
          match seal_chunks s (chunks MAX_PLAINTEXT_RECORD buf) with
          | (Err e, s) => (Ready (Err e), s)
          | (Ok _, s) => (Ready (Ok (length buf)), (try_drain_out s).2)
          end
      end
  end.

Definition poll_flush (s : enc_stream) : poll (result io_error unit) * enc_stream :=
  match sticky_err s with
  | Some e => (Ready (Err e), s)
  | None => try_drain_out s
  end.

Definition poll_shutdown (s : enc_stream) : poll (result io_error unit) * enc_stream :=
  match poll_flush s with
  | (Ready (Ok _), s) => let '(r, t) := t_shutdown (inner s) in (r, with_inner s t)
  | (r, s) => (r, s)
  end.
(** ** What is on the wire *)

(** The nonce of record [i], and the bytes of one record. *)
Definition nonce_at (prefix : list byte) (i : Z) : list byte :=
  prefix ++ be_bytes 4 (wrap_u32 i).

Definition record_bytes (key nonce pt : list byte) : list byte :=
  match aead_seal key nonce pt with
  | Some ct => be_bytes 4 (wrap_u32 (Z.of_nat NONCE_LEN + zlen ct)) ++ nonce ++ ct
  | None => []
  end.

(** The records of the plaintexts [pts], numbered from [i]. *)
Fixpoint wire_of (key prefix : list byte) (i : Z) (pts : list (list byte)) : list byte :=
  match pts with
  | [] => []
  | p :: ps => record_bytes key (nonce_at prefix i) p ++ wire_of key prefix (i + 1) ps
  end.

(** A plaintext that fits one record. *)
Definition fits (p : list byte) : Prop := (0 < length p <= MAX_PLAINTEXT_RECORD)%nat.

(** The writer has sealed exactly [pts], and everything sealed is either on the
    wire after the bytes [sent0] or waits in [out_buf]. *)
Record writer_inv (sent0 : list byte) (pts : list (list byte)) (s : enc_stream) : Prop := {
  wi_counter : write_counter s = zlen pts;
  wi_limit : zlen pts <= 2 ^ 32;
  wi_prefix : length (nonce_prefix s) = NONCE_PREFIX_LEN;
  wi_key : length (write_key s) = 32%nat;
  wi_fits : Forall fits pts;
  wi_wire : t_sent (inner s) ++ drop (out_pos s) (out_buf s)
            = sent0 ++ wire_of (write_key s) (nonce_prefix s) 0 pts;
}.

(** What the reader still has to deliver: decrypted bytes, then [pts]. *)
Definition reader_inv (pend : list byte) (s : enc_stream) : Prop :=
  exists prefix i pts,
    sticky_err s = None /\ length (read_key s) = 32%nat /\
    length prefix = NONCE_PREFIX_LEN /\ Forall fits pts /\ (in_pos s <= length (in_plain s))%nat /\
    (in_pos s = length (in_plain s) -> in_plain s = [] /\ in_pos s = 0%nat) /\
    rx_buf s ++ t_incoming (inner s) = wire_of (read_key s) prefix i pts /\
    drop (in_pos s) (in_plain s) ++ concat pts = pend.

(** ** Schedules of operations on one stream *)
Inductive op :=
| OpWrite (buf : list byte)
| OpFlush
| OpRead (cap : nat).

(** One operation: the state after it and the plaintext it accepted. *)
Definition run_op (s : enc_stream) (o : op) : list byte * enc_stream :=
  match o with
  | OpWrite buf =>
      match poll_write s buf with
      | (Ready (Ok n), s) => (take n buf, s)
      | (_, s) => ([], s)
      end
  | OpFlush => ([], (poll_flush s).2)
  | OpRead cap => ([], (poll_read s cap).2)
  end.

Fixpoint run_ops (s : enc_stream) (os : list op) : list byte * enc_stream :=
  match os with
  | [] => ([], s)
  | o :: os =>
      let '(acc, s) := run_op s o in
      let '(accs, s) := run_ops s os in
      (acc ++ accs, s)
  end.

(** Reads in a row: the bytes delivered, and the errors raised. *)
Fixpoint run_reads (s : enc_stream) (caps : list nat) : list byte * list io_error * enc_stream :=
  match caps with
  | [] => ([], [], s)
  | c :: caps =>
      let '(r, s) := poll_read s c in
      let '(bs, es, s) := run_reads s caps in
      match r with
      | Ready (Ok b) => (b ++ bs, es, s)
      | Ready (Err e) => (bs, e :: es, s)
      | Pending => (bs, es, s)
      end
  end.
End stream.
Arguments enc_stream T : clear implicits.

Section laws.
Context `{!Aead, !AeadLaws} {T : Type} `{!Transport T, !TransportLaws T}.
Implicit Types s : enc_stream T.

(** *** Frame conditions of the two directions *)

(** [s'] has sealed the same records and has them in the same place. *)
Definition same_out s s' : Prop :=
  write_counter s' = write_counter s /\ write_key s' = write_key s /\
  nonce_prefix s' = nonce_prefix s /\
  t_sent (inner s') ++ drop (out_pos s') (out_buf s')
  = t_sent (inner s) ++ drop (out_pos s) (out_buf s).

(** [s'] has received and delivered the same bytes. *)
Definition same_in s s' : Prop :=
  read_key s' = read_key s /\ rx_buf s' = rx_buf s /\ in_plain s' = in_plain s /\
  in_pos s' = in_pos s /\ t_incoming (inner s') = t_incoming (inner s).

Lemma same_out_refl s : same_out s s.
Proof. done. Qed.

Lemma same_out_trans s1 s2 s3 : same_out s1 s2 -> same_out s2 s3 -> same_out s1 s3.
Proof. unfold same_out. intuition congruence. Qed.

Lemma same_in_trans s1 s2 s3 : same_in s1 s2 -> same_in s2 s3 -> same_in s1 s3.
Proof. unfold same_in. intuition congruence. Qed.

Lemma writer_inv_same_out sent0 pts s s' :
  same_out s s' -> writer_inv sent0 pts s -> writer_inv sent0 pts s'.
Proof.
  intros (E1 & E2 & E3 & E4) []. by split; rewrite ?E1, ?E2, ?E3, ?E4.
Qed.

Lemma drain_loop_frame fuel s r s' :
  drain_loop fuel s = (r, s') ->
  same_out s s' /\ same_in s s' /\
  (r <> Pending -> (forall e, r <> Ready (Err e)) -> out_buf s' = [] /\ out_pos s' = 0%nat).
Proof.
  revert s; induction fuel as [|f IH]; intros s E; simpl in E; [by simplify_eq|].
  case_decide as Hpos.
  - destruct (t_write (inner s) (drop (out_pos s) (out_buf s))) as [[[[|n]|e]|] t] eqn:Ew.
    + destruct (t_write_ok _ _ _ _ Ew) as (_ & Hs & Hi). rewrite take_0, app_nil_r in Hs.
      simplify_eq. unfold same_out, same_in; simpl. rewrite Hs, Hi.
      split_and!; try done. intros _ He. by destruct (He _ eq_refl).
    + destruct (t_write_ok _ _ _ _ Ew) as (_ & Hs & Hi).
      destruct (IH _ E) as (Ho & Hin & Hr). split_and!; [..|done].
      * eapply same_out_trans; [|exact Ho]. unfold same_out; simpl. rewrite Hs.
        split_and!; try done. rewrite <- app_assoc. f_equal.
        by rewrite <- drop_drop, take_drop.
      * eapply same_in_trans; [|exact Hin]. by unfold same_in; simpl.
    + destruct (t_write_other _ _ _ _ Ew) as [Hs Hi]; [done|].
      simplify_eq. unfold same_out, same_in; simpl. rewrite Hs, Hi.
      split_and!; try done. intros _ He. by destruct (He _ eq_refl).
    + destruct (t_write_other _ _ _ _ Ew) as [Hs Hi]; [done|].
      simplify_eq. unfold same_out, same_in; simpl. rewrite Hs, Hi. by split_and!.
  - simpl in E. destruct (t_flush (inner s)) as [r0 t] eqn:Ef. simplify_eq.
    destruct (t_flush_frame _ _ _ Ef) as [Hs Hi]. simpl in Hs, Hi.
    unfold same_out, same_in; simpl. rewrite Hs, Hi, drop_ge by lia. by split_and!.
Qed.

(** The fuel of [try_drain_out] is enough: more never changes the outcome. *)
Lemma drain_enough fuel s :
  (length (out_buf s) - out_pos s < fuel)%nat -> drain_loop fuel s = try_drain_out s.
Proof.
  unfold try_drain_out.
  remember (length (out_buf s) - out_pos s)%nat as k eqn:Hk.
  revert fuel s Hk; induction k as [k IH] using lt_wf_ind; intros [|f] s Hk Hf; [lia|].
  simpl. case_decide as Hpos; [|done].
  destruct (t_write (inner s) (drop (out_pos s) (out_buf s))) as [[[[|n]|e]|] t] eqn:Ew; try done.
  destruct (t_write_ok _ _ _ _ Ew) as (Hn & _). rewrite length_drop in Hn.
  set (s1 := with_out _ _ _).
  assert (length (out_buf s1) - out_pos s1 < k)%nat by (subst s1; simpl; lia).
  transitivity (drain_loop (S (length (out_buf s1) - out_pos s1)) s1).
  - apply IH; (done || lia).
  - symmetry. apply IH; (done || lia).
Qed.

(** *** Sealing *)
Lemma length_nonce_at prefix i :
  length prefix = NONCE_PREFIX_LEN -> length (nonce_at prefix i) = NONCE_LEN.
Proof. intros E. unfold nonce_at. by rewrite length_app, E, length_be_bytes. Qed.

Lemma wire_of_app key prefix i a b :
  wire_of key prefix i (a ++ b)
  = wire_of key prefix i a ++ wire_of key prefix (i + zlen a) b.
Proof.
  revert i; induction a as [|p a IH]; intros i; simpl; [by rewrite Z.add_0_r|].
  rewrite IH, <- app_assoc. do 3 f_equal. unfold zlen. simpl. lia.
Qed.

Lemma fits_len p : fits p -> zlen p <= 16 * 1024.
Proof. unfold fits, MAX_PLAINTEXT_RECORD, zlen. lia. Qed.

(** Sealing one chunk: one more record at the end of the buffer, or the
    counter is exhausted and nothing changes. *)
Lemma seal_into_out_buf_inv sent0 pts s c r s' :
  writer_inv sent0 pts s -> (out_pos s <= length (out_buf s))%nat -> fits c ->
  seal_into_out_buf s c = (r, s') ->
  same_in s s' /\ sticky_err s' = sticky_err s /\ (out_pos s' <= length (out_buf s'))%nat /\
  match r with
  | Ok _ => writer_inv sent0 (pts ++ [c]) s'
  | Err _ => writer_inv sent0 pts s' /\ zlen pts = 2 ^ 32
  end.
Proof.
  intros [Hc Hl Hp Hk Hf Hw] Hpos Hfit. unfold seal_into_out_buf, next_nonce, u32_max.
  rewrite Hc. case_decide as Hx.
  { intros [= <- <-]. split_and!; [done|done|done|by split|lia]. }
  fold (nonce_at (nonce_prefix s) (zlen pts)).
  rewrite decide_False by (intros Hn; by apply Hn, length_nonce_at).
  destruct (aead_seal_total (write_key s) (nonce_at (nonce_prefix s) (zlen pts)) c)
    as [ct Hct]; [done|by apply length_nonce_at|by apply fits_len|].
  simpl. rewrite Hct. intros [= <- <-].
  assert (0 <= zlen pts) by (unfold zlen; lia).
  split_and!; simpl; [done|done|rewrite length_app; lia|].
  split; simpl; try done.
  - rewrite zlen_app, wrap_u64_small; [done|lia].
  - rewrite zlen_app. unfold zlen in *; simpl in *. lia.
  - by apply Forall_app_2; [|constructor].
  - rewrite drop_app_le by done. rewrite app_assoc, Hw, wire_of_app. simpl.
    unfold record_bytes. by rewrite Z.add_0_l, Hct, app_nil_r, <- app_assoc.
Qed.

Lemma seal_chunks_inv sent0 pts s cs r s' :
  writer_inv sent0 pts s -> (out_pos s <= length (out_buf s))%nat -> Forall fits cs ->
  seal_chunks s cs = (r, s') ->
  same_in s s' /\
  exists pre, pre `prefix_of` cs /\ writer_inv sent0 (pts ++ pre) s' /\
    match r with
    | Ok _ => pre = cs /\ sticky_err s' = sticky_err s
    | Err e => sticky_err s' = Some e /\ zlen (pts ++ pre) = 2 ^ 32
    end.
Proof.
  revert pts s; induction cs as [|c cs IH]; intros pts s Hinv Hpos Hfits E; simpl in E.
  { simplify_eq. split; [done|]. exists []. by rewrite app_nil_r. }
  apply Forall_cons_1 in Hfits as [Hc Hfits].
  destruct (seal_into_out_buf s c) as [r1 s1] eqn:E1.
  destruct (seal_into_out_buf_inv _ _ _ _ _ _ Hinv Hpos Hc E1) as (Hin1 & Hst & Hpos1 & H1).
  destruct r1 as [[]|e]; simplify_eq.
  - destruct (IH _ _ H1 Hpos1 Hfits E) as (Hin2 & pre & Hpre & Hinv2 & Hr).
    split; [by eapply same_in_trans|].
    exists (c :: pre). rewrite <- app_assoc in *. split_and!; [by apply prefix_cons|done|].
    destruct r as [[]|e]; [|done]. destruct Hr as [-> ->]. done.
  - destruct H1 as [[] H2]. split; [done|]. exists []. rewrite app_nil_r.
    split_and!; [apply prefix_nil|by split|done|done].
Qed.

(** *** Writing *)
Lemma try_drain_out_frame s r s' :
  try_drain_out s = (r, s') ->
  same_out s s' /\ same_in s s' /\
  (r <> Pending -> (forall e, r <> Ready (Err e)) -> out_buf s' = [] /\ out_pos s' = 0%nat).
Proof. apply drain_loop_frame. Qed.

Lemma chunks_fits buf : Forall fits (chunks MAX_PLAINTEXT_RECORD buf).
Proof. apply chunks_bounds. unfold MAX_PLAINTEXT_RECORD. lia. Qed.

Lemma poll_write_inv sent0 pts s buf r s' :
  writer_inv sent0 pts s -> poll_write s buf = (r, s') ->
  same_in s s' /\
  exists pre, writer_inv sent0 (pts ++ pre) s' /\
    match r with
    | Ready (Ok n) => n = length buf /\ concat pre = buf
    | Ready (Err e) => pre = [] \/ is_Some (sticky_err s')
    | Pending => pre = []
    end.
Proof.
  intros Hinv. unfold poll_write.
  assert (exists pre, writer_inv sent0 (pts ++ pre) s /\ pre = []) as Hnil
    by (exists []; by rewrite app_nil_r).
  destruct (sticky_err s) as [e|].
  { intros [= <- <-]. split; [done|]. destruct Hnil as (pre & ? & ?). eauto. }
  destruct (try_drain_out s) as [r1 s1] eqn:E1.
  destruct (try_drain_out_frame _ _ _ E1) as (Ho & Hin & Hok).
  apply (writer_inv_same_out _ _ _ _ Ho) in Hinv as Hinv1.
  destruct r1 as [[[]|e]|]; [|intros [= <- <-]; split; [done|]; exists [];
    rewrite app_nil_r; eauto..].
  destruct Hok as [Hb Hp0]; [done|done|].
  destruct (seal_chunks s1 _) as [r2 s2] eqn:E2.
  destruct (seal_chunks_inv _ _ _ _ _ _ Hinv1 ltac:(rewrite Hp0; lia) (chunks_fits buf) E2)
    as (Hin2 & pre & Hpre & Hinv2 & Hr2).
  pose proof (same_in_trans _ _ _ Hin Hin2) as Hin12.
  destruct r2 as [[]|e].
  - destruct Hr2 as [-> _]. destruct (try_drain_out s2) as [r3 s3] eqn:E3.
    destruct (try_drain_out_frame _ _ _ E3) as (Ho3 & Hin3 & _).
    intros [= <- <-]. split; [by eapply same_in_trans|].
    exists (chunks MAX_PLAINTEXT_RECORD buf).
    split; [by eapply writer_inv_same_out|]. split; [done|].
    apply chunks_concat. unfold MAX_PLAINTEXT_RECORD. lia.
  - intros [= <- <-]. split; [done|]. exists pre. split; [done|].
    right. destruct Hr2 as [-> _]. eauto.
Qed.

(** *** Reading never disturbs the write direction *)
Lemma try_decrypt_frame_frame s r s' :
  try_decrypt_frame s = (r, s') -> same_out s s' /\ inner s' = inner s /\
  sticky_err s' = sticky_err s /\ read_key s' = read_key s.
Proof.
  unfold try_decrypt_frame. intros E.
  repeat case_decide; simplify_eq; try done.
  destruct (aead_open _ _ _); by simplify_eq.
Qed.

Lemma read_loop_same_out fuel s cap r s' : read_loop fuel s cap = (r, s') -> same_out s s'.
Proof.
  revert s; induction fuel as [|f IH]; intros s E; simpl in E; [by simplify_eq|].
  destruct (try_decrypt_frame s) as [r1 s1] eqn:E1.
  destruct (try_decrypt_frame_frame _ _ _ E1) as (Ho & Hi & _ & _).
  destruct r1 as [[]|e]; [by case_decide; simplify_eq| |by simplify_eq].
  eapply same_out_trans; [exact Ho|].
  assert (forall r t, t_read (inner s1) 4096 = (r, t) -> t_sent t = t_sent (inner s1)) as Hs.
  { intros r1 t Er. destruct r1 as [[bs|e]|].
    - by destruct (t_read_ok _ _ _ _ Er) as (_ & ? & _).
    - by destruct (t_read_other _ _ _ _ Er).
    - by destruct (t_read_other _ _ _ _ Er). }
  destruct (t_read (inner s1) 4096) as [r2 t] eqn:E2. specialize (Hs _ _ eq_refl).
  assert (same_out s1 (with_inner s1 t)) as Ht by (unfold same_out; simpl; by rewrite Hs).
  destruct r2 as [[[|b bs]|e]|]; [case_decide; by simplify_eq| |by simplify_eq..].
  eapply same_out_trans; [exact Ht|]. eapply same_out_trans; [|by eapply IH]. done.
Qed.

Lemma poll_read_same_out s cap r s' : poll_read s cap = (r, s') -> same_out s s'.
Proof.
  unfold poll_read. intros E. destruct (sticky_err s); [by simplify_eq|].
  case_decide; [|by eapply read_loop_same_out]. case_decide; by simplify_eq.
Qed.

(** *** Schedules *)
Lemma run_op_sticky s o e : sticky_err s = Some e -> run_op s o = ([], s).
Proof.
  intros E. destruct o; simpl; unfold poll_write, poll_flush, poll_read; by rewrite E.
Qed.

Lemma run_ops_sticky s os e : sticky_err s = Some e -> run_ops s os = ([], s).
Proof.
  intros E. induction os as [|o os IH]; [done|]. simpl.
  by rewrite (run_op_sticky _ _ _ E), IH.
Qed.

Lemma run_op_inv sent0 pts s o acc s' :
  writer_inv sent0 pts s -> run_op s o = (acc, s') ->
  exists new, writer_inv sent0 (pts ++ new) s' /\ acc `prefix_of` concat new /\
    (acc = concat new \/ is_Some (sticky_err s')).
Proof.
  intros Hinv E.
  assert (same_out s s' -> acc = [] ->
    exists new, writer_inv sent0 (pts ++ new) s' /\ acc `prefix_of` concat new /\
    (acc = concat new \/ is_Some (sticky_err s'))) as Hsame.
  { intros Ho ->. exists []. rewrite app_nil_r. split_and!; [|apply prefix_nil|by left].
    by eapply writer_inv_same_out. }
  destruct o as [buf| |cap]; simpl in E.
  - destruct (poll_write s buf) as [r1 s1] eqn:E1.
    destruct (poll_write_inv _ _ _ _ _ _ Hinv E1) as (_ & pre & Hinv1 & Hr).
    destruct r1 as [[n|e]|]; simplify_eq.
    + destruct Hr as [-> <-]. exists pre. rewrite firstn_all. split_and!; [done|done|by left].
    + exists pre. split_and!; [done|apply prefix_nil|]. destruct Hr as [->|]; [by left|by right].
    + exists []. split_and!; [done|done|by left].
  - destruct (poll_flush s) as [r1 s1] eqn:E1. simplify_eq. apply Hsame; [|done].
    unfold poll_flush in E1. destruct (sticky_err s); [by simplify_eq|].
    by eapply try_drain_out_frame.
  - destruct (poll_read s cap) as [r1 s1] eqn:E1. simplify_eq. apply Hsame; [|done].
    by eapply poll_read_same_out.
Qed.

Lemma run_ops_inv sent0 pts s os acc s' :
  writer_inv sent0 pts s -> run_ops s os = (acc, s') ->
  exists new, writer_inv sent0 (pts ++ new) s' /\ acc `prefix_of` concat new /\
    (acc = concat new \/ is_Some (sticky_err s')).
Proof.
  revert pts s acc; induction os as [|o os IH]; intros pts s acc Hinv E; simpl in E.
  { simplify_eq. exists []. rewrite app_nil_r. eauto using prefix_nil. }
  destruct (run_op s o) as [a1 s1] eqn:E1.
  destruct (run_ops s1 os) as [a2 s2] eqn:E2. simplify_eq.
  destruct (run_op_inv _ _ _ _ _ _ Hinv E1) as (n1 & Hinv1 & Hp1 & Hor).
  destruct Hor as [->|[e He]].
  - destruct (IH _ _ _ Hinv1 E2) as (n2 & Hinv2 & Hp2 & Hor2).
    exists (n1 ++ n2). rewrite app_assoc, concat_app. split_and!; [done|by apply prefix_app|].
    destruct Hor2 as [->|]; eauto.
  - rewrite (run_ops_sticky _ _ _ He) in E2. simplify_eq.
    exists n1. rewrite app_nil_r. eauto.
Qed.

(** No operation changes the keys or the nonce prefix. *)
Lemma seal_chunks_keys s cs r s' : seal_chunks s cs = (r, s') ->
  write_key s' = write_key s /\ nonce_prefix s' = nonce_prefix s.
Proof.
  revert s; induction cs as [|c cs IH]; intros s E; simpl in E; [by simplify_eq|].
  destruct (seal_into_out_buf s c) as [r1 s1] eqn:E1.
  assert (write_key s1 = write_key s /\ nonce_prefix s1 = nonce_prefix s) as [Hk Hn].
  { unfold seal_into_out_buf, next_nonce in E1. case_decide; [by simplify_eq|].
    case_decide; [by simplify_eq|]. destruct (aead_seal _ _ _); by simplify_eq. }
  destruct r1; [|by simplify_eq]. rewrite <- Hk, <- Hn. by eapply IH.
Qed.

Lemma run_ops_keys s os acc s' : run_ops s os = (acc, s') ->
  write_key s' = write_key s /\ nonce_prefix s' = nonce_prefix s.
Proof.
  revert s acc; induction os as [|o os IH]; intros s acc E; simpl in E; [by simplify_eq|].
  destruct (run_op s o) as [a1 s1] eqn:E1.
  destruct (run_ops s1 os) as [a2 s2] eqn:E2. simplify_eq.
  destruct (IH _ _ E2) as [-> ->].
  assert (forall s1 : enc_stream T, same_out s s1 ->
    write_key s1 = write_key s /\ nonce_prefix s1 = nonce_prefix s) as Ho
    by (by intros ? (? & ? & ? & ?)).
  destruct o as [buf| |cap]; simpl in E1.
  - unfold poll_write in E1. destruct (sticky_err s); [by simplify_eq|].
    destruct (try_drain_out s) as [[[[]|e]|] s2] eqn:Ed;
      destruct (try_drain_out_frame _ _ _ Ed) as (Hs2 & _); simplify_eq; [|by apply Ho..].
    destruct (seal_chunks s2 _) as [[[]|e] s3] eqn:Es;
      destruct (seal_chunks_keys _ _ _ _ Es) as [Hk Hn]; simplify_eq.
    + destruct (try_drain_out s3) as [r4 s4] eqn:E4.
      destruct (try_drain_out_frame _ _ _ E4) as ((_ & Hk4 & Hn4 & _) & _).
      simpl. rewrite Hk4, Hn4, Hk, Hn. by apply Ho.
    + rewrite Hk, Hn. by apply Ho.
  - destruct (poll_flush s) as [r1 s2] eqn:Ef. simplify_eq. unfold poll_flush in Ef.
    destruct (sticky_err s); [by simplify_eq|]. apply Ho. by eapply try_drain_out_frame.
  - destruct (poll_read s cap) as [r1 s2] eqn:Er. simplify_eq. apply Ho.
    by eapply poll_read_same_out.
Qed.

(** *** Reading *)

(** Not having a frame bounds the buffer. *)
Lemma try_decrypt_frame_more s s' :
  try_decrypt_frame s = (Ok false, s') ->
  s' = s /\ (length (rx_buf s) < HEADER_LEN + Z.to_nat MAX_PAYLOAD)%nat.
Proof.
  unfold try_decrypt_frame. intros E.
  repeat case_decide; simplify_eq.
  - split; [done|]. unfold HEADER_LEN in *. lia.
  - split; [done|]. unfold HEADER_LEN in *. lia.
  - destruct (aead_open _ _ _); by simplify_eq.
Qed.

(** The fuel of [poll_read]'s loop is enough. *)
Lemma read_loop_enough fuel s cap :
  (read_fuel s <= fuel)%nat -> read_loop fuel s cap = read_loop (read_fuel s) s cap.
Proof.
  unfold read_fuel. set (B := (HEADER_LEN + Z.to_nat MAX_PAYLOAD)%nat).
  remember (S B - length (rx_buf s))%nat as k eqn:Hk.
  revert fuel s Hk; induction k as [k IH] using lt_wf_ind; intros [|f] s Hk Hf; [lia|].
  simpl. destruct (try_decrypt_frame s) as [[[]|e] s1] eqn:E1; try done.
  destruct (try_decrypt_frame_more _ _ E1) as [-> Hb]. fold B in Hb.
  destruct (t_read (inner s) 4096) as [[[[|b bs]|e]|] t]; try done.
  set (s1 := with_rx _ _).
  assert (S B - length (rx_buf s1) < k)%nat
    by (subst s1; simpl; rewrite length_app; simpl; lia).
  transitivity (read_loop (S (S B - length (rx_buf s1))) s1 cap).
  - apply IH; (done || lia).
  - destruct k as [|k]; [lia|]. symmetry. apply IH; (done || lia).
Qed.

Lemma record_bytes_split key prefix i p :
  length key = 32%nat -> length prefix = NONCE_PREFIX_LEN -> fits p ->
  exists ct, aead_open key (nonce_at prefix i) ct = Some p /\
    length ct = (length p + TAG_LEN)%nat /\
    record_bytes key (nonce_at prefix i) p
    = be_bytes 4 (Z.of_nat NONCE_LEN + zlen ct) ++ nonce_at prefix i ++ ct.
Proof.
  intros Hk Hp Hf.
  destruct (aead_seal_total key (nonce_at prefix i) p) as [ct Hct];
    [done|by apply length_nonce_at|by apply fits_len|].
  pose proof (aead_seal_length _ _ _ _ Hct) as Hl.
  exists ct. split_and!; [by apply aead_open_seal|done|].
  unfold record_bytes. rewrite Hct. f_equal. f_equal. apply wrap_u32_small.
  apply fits_len in Hf. unfold zlen, NONCE_LEN, TAG_LEN in *. lia.
Qed.

(** Decrypting the front of a well-formed wire: more bytes are needed, or the
    next plaintext comes out. *)
Lemma try_decrypt_frame_wire s prefix i pts r s' :
  length (read_key s) = 32%nat -> length prefix = NONCE_PREFIX_LEN -> Forall fits pts ->
  rx_buf s ++ t_incoming (inner s) = wire_of (read_key s) prefix i pts ->
  try_decrypt_frame s = (r, s') ->
  (r = Ok false /\ s' = s /\ (t_incoming (inner s) = [] -> pts = [])) \/
  exists p ps rest, r = Ok true /\ pts = p :: ps /\
    s' = with_rx (with_in s (in_plain s ++ p) (in_pos s)) rest /\
    rest ++ t_incoming (inner s) = wire_of (read_key s) prefix (i + 1) ps.
Proof.
  intros Hk Hp Hf Hw. unfold try_decrypt_frame.
  destruct (decide (pts = [])) as [->|Hne].
  { simpl in Hw. apply app_eq_nil in Hw as [Hrx _]. rewrite Hrx. simpl.
    intros [= <- <-]. by left. }
  destruct pts as [|p ps]; [done|].
  apply Forall_cons_1 in Hf as [Hfp Hf]. simpl in Hw.
  destruct (record_bytes_split (read_key s) prefix i p Hk Hp Hfp) as (ct & Hopen & Hct & Hrec).
  rewrite Hrec, <- !app_assoc in Hw.
  set (n := Z.of_nat NONCE_LEN + zlen ct) in *.
  assert (28 <= n <= 12 + 16 * 1024 + 16) as Hn
    by (unfold n, fits, zlen, NONCE_LEN, TAG_LEN, MAX_PLAINTEXT_RECORD in *; lia).
  case_decide as Hshort.
  { intros [= <- <-]. left. split_and!; [done|done|]. intros Hi.
    rewrite Hi, app_nil_r in Hw. rewrite Hw, length_app, length_be_bytes in Hshort.
    unfold HEADER_LEN in *. lia. }
  assert (take 4 (rx_buf s) = be_bytes 4 n) as Htake.
  { apply (f_equal (take 4)) in Hw.
    rewrite take_app_le in Hw by (unfold HEADER_LEN in *; lia).
    rewrite Hw. by apply take_app_length'. }
  rewrite Htake, be_value_be_bytes, Z.mod_small by (change (256 ^ Z.of_nat 4) with 4294967296; lia).
  rewrite decide_False
    by (unfold MIN_PAYLOAD, MAX_PAYLOAD, NONCE_LEN, TAG_LEN; lia).
  assert (Z.to_nat n = length (nonce_at prefix i ++ ct)) as Hnl.
  { rewrite length_app, length_nonce_at by done. unfold n, zlen, NONCE_LEN. lia. }
  case_decide as Hshort2.
  { intros [= <- <-]. left. split_and!; [done|done|]. intros Hi.
    rewrite Hi, app_nil_r in Hw. rewrite app_assoc in Hw.
    rewrite Hw, !length_app, length_be_bytes in Hshort2.
    rewrite length_app in Hnl. unfold HEADER_LEN in *. lia. }
  assert (exists rest, rx_buf s = be_bytes 4 n ++ nonce_at prefix i ++ ct ++ rest) as [rest Hrx].
  { exists (drop (HEADER_LEN + Z.to_nat n) (rx_buf s)).
    set (rec := be_bytes 4 n ++ nonce_at prefix i ++ ct).
    assert (length rec = HEADER_LEN + Z.to_nat n)%nat as Hlrec.
    { unfold rec. rewrite !length_app, length_be_bytes, length_nonce_at by done.
      unfold n, zlen, HEADER_LEN, NONCE_LEN. lia. }
    assert (take (HEADER_LEN + Z.to_nat n) (rx_buf s) = rec) as Ht.
    { apply (f_equal (take (HEADER_LEN + Z.to_nat n))) in Hw.
      rewrite take_app_le in Hw by lia. rewrite Hw. unfold rec.
      rewrite !app_assoc, <- (app_assoc (be_bytes 4 n)). by apply take_app_length'. }
    rewrite <- (take_drop (HEADER_LEN + Z.to_nat n) (rx_buf s)) at 1.
    rewrite Ht. unfold rec. by rewrite <- !app_assoc. }
  rewrite Hrx in Hw |- *.
  rewrite (drop_app_length' (be_bytes 4 n)) by (by rewrite length_be_bytes).
  rewrite (app_assoc (nonce_at prefix i)), Hnl, take_app_length.
  rewrite take_app_length' by (symmetry; by apply length_nonce_at).
  rewrite drop_app_length' by (symmetry; by apply length_nonce_at).
  rewrite Hopen. intros [= <- <-]. right. exists p, ps, rest. split_and!; [done|done| |].
  - f_equal. by rewrite drop_app_length.
  - rewrite <- !app_assoc in Hw. by apply app_inv_head, app_inv_head, app_inv_head in Hw.
Qed.

(** What one read of a well-formed wire does. *)
Definition read_outcome (pend : list byte) (cap : nat)
    (r : poll (result io_error (list byte))) (s' : enc_stream T) : Prop :=
  match r with
  | Ready (Ok bs) => exists pend', pend = bs ++ pend' /\ reader_inv pend' s' /\
      (bs = [] -> (0 < cap)%nat -> pend = [])
  | Pending => reader_inv pend s'
  | Ready (Err e) => sticky_err s' = Some e /\
      exists (t t' : T), t_read t 4096 = (Ready (Err e), t')
  end.

Lemma read_loop_wire fuel s cap r s' prefix i pts :
  sticky_err s = None -> in_plain s = [] -> in_pos s = 0%nat ->
  length (read_key s) = 32%nat -> length prefix = NONCE_PREFIX_LEN -> Forall fits pts ->
  rx_buf s ++ t_incoming (inner s) = wire_of (read_key s) prefix i pts ->
  read_loop fuel s cap = (r, s') -> read_outcome (concat pts) cap r s'.
Proof.
  revert s; induction fuel as [|f IH]; intros s He Hin Hpos Hk Hp Hf Hw E; simpl in E.
  { simplify_eq. simpl. exists prefix, i, pts. by rewrite Hin, Hpos. }
  destruct (try_decrypt_frame s) as [r1 s1] eqn:E1.
  destruct (try_decrypt_frame_wire _ _ _ _ _ _ Hk Hp Hf Hw E1)
    as [(-> & -> & Hend)|(p & ps & rest & -> & -> & -> & Hw1)].
  - destruct (t_read (inner s) 4096) as [[[bs|e]|] t] eqn:Er.
    + destruct (t_read_ok _ _ _ _ Er) as (_ & _ & Hinc & Heof).
      destruct bs as [|b bs].
      * specialize (Heof eq_refl ltac:(lia)). rewrite (Hend Heof) in *. simpl in Hw.
        apply app_eq_nil in Hw as [Hrx _]. simpl in Hinc.
        rewrite decide_True in E by done. simplify_eq. simpl.
        exists []. split_and!; [done| |done]. exists prefix, i, []. simpl.
        by rewrite Hin, Hpos, Hrx, <- Hinc, Heof.
      * apply IH in E; simpl; try done. by rewrite <- app_assoc, <- Hinc.
    + simplify_eq. simpl. eauto.
    + destruct (t_read_other _ _ _ _ Er) as [_ Hi]; [done|]. simplify_eq. simpl.
      exists prefix, i, pts. simpl. by rewrite Hin, Hpos, Hi.
  - apply Forall_cons_1 in Hf as [Hfp Hf]. simpl in E. rewrite Hin in E. simpl in E.
    assert (0 < length p)%nat as Hlp by apply Hfp.
    simplify_eq. simpl. exists (drop (Nat.min cap (length p)) p ++ concat ps).
    split_and!.
    + by rewrite app_assoc, take_drop.
    + exists prefix, (i + 1), ps. case_decide as Hall; simpl.
      * split_and!; try done. by rewrite Hall, drop_all.
      * split_and!; try done; lia.
    + intros Ht Hcap. apply (f_equal length) in Ht. rewrite length_take in Ht. simpl in Ht. lia.
Qed.

Lemma poll_read_wire pend s cap r s' :
  reader_inv pend s -> poll_read s cap = (r, s') -> read_outcome pend cap r s'.
Proof.
  intros (prefix & i & pts & He & Hk & Hp & Hf & Hle & Hz & Hw & <-). unfold poll_read.
  rewrite He. case_decide as Hpos.
  - intros [= <- <-]. set (n := Nat.min cap (length (in_plain s) - in_pos s)).
    simpl. exists (drop (in_pos s + n) (in_plain s) ++ concat pts). split_and!.
    + by rewrite app_assoc, <- drop_drop, take_drop.
    + exists prefix, i, pts. case_decide as Hall; simpl.
      * split_and!; try done. by rewrite Hall, drop_all.
      * split_and!; try done; lia.
    + intros Ht Hcap. apply (f_equal length) in Ht.
      rewrite length_take, length_drop in Ht. simpl in Ht. lia.
  - destruct Hz as [Hin Hp0]; [lia|]. rewrite Hin, Hp0, drop_nil, app_nil_l.
    intros E. by eapply read_loop_wire.
Qed.

(** Reads in a row deliver a prefix of what the wire carries. *)
Lemma run_reads_wire pend s caps bs es s' :
  reader_inv pend s -> run_reads s caps = (bs, es, s') ->
  exists pend', pend = bs ++ pend' /\
    (es = [] -> reader_inv pend' s') /\
    Forall (fun e => exists (t t' : T), t_read t 4096 = (Ready (Err e), t')) es.
Proof.
  assert (forall e s caps, sticky_err s = Some e ->
    exists k, run_reads s caps = ([], replicate k e, s)) as Hsticky.
  { intros e s0 caps0 Es. induction caps0 as [|c caps0 [k IH]]; simpl; [by exists 0%nat|].
    unfold poll_read. rewrite Es, IH. by exists (S k). }
  revert pend s bs es; induction caps as [|c caps IH]; intros pend s bs es Hinv E; simpl in E.
  { simplify_eq. exists pend. by split_and!. }
  destruct (poll_read s c) as [r1 s1] eqn:E1.
  apply (poll_read_wire _ _ _ _ _ Hinv) in E1.
  destruct (run_reads s1 caps) as [[bs2 es2] s2] eqn:E2.
  destruct r1 as [[b|e]|]; simplify_eq; simpl in E1.
  - destruct E1 as (pend1 & -> & Hinv1 & _).
    destruct (IH _ _ _ _ Hinv1 E2) as (pend' & -> & H1 & H2).
    exists pend'. by rewrite <- app_assoc.
  - destruct E1 as [Es He]. destruct (Hsticky e s1 caps Es) as [k Hk].
    rewrite Hk in E2. simplify_eq. exists pend. split_and!; [done|done|].
    constructor; [done|]. by apply Forall_replicate.
  - by eapply IH.
Qed.

Lemma read_loop_err fuel s cap e s' :
  read_loop fuel s cap = (Ready (Err e), s') -> sticky_err s' = Some e.
Proof.
  revert s; induction fuel as [|f IH]; intros s E; simpl in E; [done|].
  destruct (try_decrypt_frame s) as [[[]|e1] s1]; [done| |by simplify_eq].
  destruct (t_read (inner s1) 4096) as [[[[|b bs]|e1]|] t]; simplify_eq; try done.
  - case_decide; by simplify_eq.
  - by apply IH in E.
Qed.

Lemma run_ops_inv_keys sent0 pts s os acc s' :
  writer_inv sent0 pts s -> run_ops s os = (acc, s') ->
  exists new, writer_inv sent0 (pts ++ new) s' /\ acc `prefix_of` concat new /\
    (acc = concat new \/ is_Some (sticky_err s')) /\
    write_key s' = write_key s /\ nonce_prefix s' = nonce_prefix s.
Proof.
  intros Hinv E. destruct (run_ops_inv _ _ _ _ _ _ Hinv E) as (new & ? & ? & ?).
  exists new. split_and!; try done; by apply (run_ops_keys s os acc s').
Qed.

Lemma new_directional_inv t rk wk prefix s :
  new_directional t rk wk (Some prefix) = Ok s -> length prefix = NONCE_PREFIX_LEN ->
  writer_inv (t_sent t) [] s /\ write_key s = wk /\ read_key s = rk /\
  nonce_prefix s = prefix /\ inner s = t /\ rx_buf s = [] /\ in_plain s = [] /\
  in_pos s = 0%nat /\ sticky_err s = None /\ length rk = 32%nat.
Proof.
  unfold new_directional. intros E Hp. repeat case_decide; simplify_eq.
  assert (length rk = 32%nat) by (destruct (decide (length rk = 32%nat)); tauto).
  assert (length wk = 32%nat) by (destruct (decide (length wk = 32%nat)); tauto).
  simpl. by split_and!.
Qed.

Lemma nonce_at_inj prefix i j : 0 <= i < 2 ^ 32 -> 0 <= j < 2 ^ 32 ->
  nonce_at prefix i = nonce_at prefix j -> i = j.
Proof.
  unfold nonce_at. intros Hi Hj E. apply app_inv_head in E.
  rewrite !wrap_u32_small in E by lia. by eapply (be_bytes_inj 4).
Qed.

(** Sealed records reach the wire exactly once and in order.  Whatever the
    schedule of writes, flushes and reads, and however the transport answers
    (partial writes, not ready, errors), the bytes accepted by the transport
    followed by the bytes still buffered are the records of some plaintexts of
    1 to 16384 bytes, numbered from zero, whose concatenation is the data that
    [poll_write] reported as accepted; only after a sticky error can more
    have been sealed than was reported. *)
Theorem enc_schedule_wire t rk wk prefix s os acc s' :
  new_directional t rk wk (Some prefix) = Ok s -> length prefix = NONCE_PREFIX_LEN ->
  run_ops s os = (acc, s') ->
  exists pts, Forall fits pts /\ acc `prefix_of` concat pts /\
    (sticky_err s' = None -> acc = concat pts) /\
    t_sent (inner s') ++ drop (out_pos s') (out_buf s')
    = t_sent t ++ wire_of wk prefix 0 pts.
Proof.
  intros Hnew Hp Hrun.
  destruct (new_directional_inv _ _ _ _ _ Hnew Hp) as (Hinv & Hwk & _ & Hpre & _).
  destruct (run_ops_inv_keys _ _ _ _ _ _ Hinv Hrun) as (pts & [_ _ _ _ Hf Hw] & Hacc & Hor & Hk & Hn).
  rewrite Hk, Hn, Hwk, Hpre in Hw.
  exists pts. split_and!; [done|done| |done].
  intros Hs. destruct Hor as [?|[e He]]; congruence.
Qed.

(** [frame] is the record of plaintext [r.2] sealed under nonce [r.1]. *)
Definition sealed_as (key : list byte) (r : list byte * list byte) (frame : list byte) : Prop :=
  exists ct, aead_seal key r.1 r.2 = Some ct /\
    frame = be_bytes 4 (Z.of_nat NONCE_LEN + zlen ct) ++ r.1 ++ ct.

(** The wire, read as frames, each with its nonce and its plaintext. *)
Lemma wire_frames key prefix pts : forall i, length key = 32%nat -> length prefix = NONCE_PREFIX_LEN ->
  0 <= i -> i + zlen pts <= 2 ^ 32 -> Forall fits pts ->
  exists records frames, Forall2 (sealed_as key) records frames /\
    wire_of key prefix i pts = concat frames /\ records.*2 = pts /\
    forall j r, records !! j = Some r -> r.1 = prefix ++ be_bytes 4 (i + Z.of_nat j).
Proof.
  induction pts as [|p pts IH]; intros i Hk Hp Hi Hl Hf.
  { exists [], []. by split_and!. }
  apply Forall_cons_1 in Hf as [Hfp Hf]. unfold zlen in Hl. cbn [length] in Hl.
  destruct (IH (i + 1) Hk Hp) as (rs & fs & H1 & H2 & H3 & H4); [lia|unfold zlen; lia|done|].
  destruct (aead_seal_total key (nonce_at prefix i) p) as [ct Hct];
    [done|by apply length_nonce_at|by apply fits_len|].
  exists ((nonce_at prefix i, p) :: rs), (record_bytes key (nonce_at prefix i) p :: fs).
  split_and!.
  - constructor; [|done]. exists ct. split; [done|]. unfold record_bytes. rewrite Hct.
    do 2 f_equal. apply wrap_u32_small. apply aead_seal_length in Hct. apply fits_len in Hfp.
    unfold zlen, NONCE_LEN, TAG_LEN in *. lia.
  - cbn. by rewrite H2.
  - cbn. by rewrite H3.
  - intros [|j] r Hr; [injection Hr as <-|apply (H4 j) in Hr as ->].
    + cbn [fst]. unfold nonce_at. change (Z.of_nat 0) with 0. by rewrite Z.add_0_r, wrap_u32_small by lia.
    + do 2 f_equal. lia.
Qed.

(** C5: No nonce is ever used twice with a key.  Over any schedule of writes,
    flushes and reads, and however the transport answers, what a stream has put
    on the wire or still holds in its buffer is a sequence of records, each the
    length, the nonce and the sealed text; record number [i] is sealed under the
    nonce "prefix, counter [i]" in big endian, so the nonces are pairwise
    distinct; their plaintexts hold everything [poll_write] accepted, in order;
    there are at most 2^32 of them; and the nonce of the next record, if
    there may be one, is none of those used before. *)
Theorem enc_nonces_unique t rk wk prefix s os acc s' :
  new_directional t rk wk (Some prefix) = Ok s -> length prefix = NONCE_PREFIX_LEN ->
  run_ops s os = (acc, s') ->
  exists records frames, Forall2 (sealed_as wk) records frames /\
    t_sent (inner s') ++ drop (out_pos s') (out_buf s') = t_sent t ++ concat frames /\
    (forall i r, records !! i = Some r -> r.1 = prefix ++ be_bytes 4 (Z.of_nat i)) /\
    NoDup records.*1 /\ zlen records <= 2 ^ 32 /\ acc `prefix_of` concat records.*2 /\
    (forall n s'', next_nonce s' = Ok (n, s'') ->
       n = prefix ++ be_bytes 4 (zlen records) /\ n ∉ records.*1).
Proof.
  intros Hnew Hp Hrun.
  destruct (new_directional_inv _ _ _ _ _ Hnew Hp) as (Hinv & Hwk & _ & Hpre & _).
  destruct (run_ops_inv_keys _ _ _ _ _ _ Hinv Hrun) as (pts & [Hc Hl _ Hlk Hf Hw] & Hacc & _ & Hk & Hn).
  rewrite Hk, Hwk in Hlk. rewrite Hk, Hn, Hwk, Hpre in Hw. cbn [app] in Hc, Hl, Hf, Hw.
  destruct (wire_frames wk prefix pts 0) as (rs & fs & H1 & H2 & H3 & H4); try done.
  assert (Hlen : zlen rs = zlen pts) by (unfold zlen; by rewrite <- H3, length_fmap).
  assert (Hat : forall i n, rs.*1 !! i = Some n -> n = prefix ++ be_bytes 4 (Z.of_nat i) /\ Z.of_nat i < zlen pts).
  { intros i n Hi. apply list_lookup_fmap_Some in Hi as (r & -> & Hr). split; [exact (H4 i r Hr)|].
    apply lookup_lt_Some in Hr. rewrite <- Hlen. unfold zlen. lia. }
  assert (Hinj : forall i j, 0 <= i < 2 ^ 32 -> 0 <= j < 2 ^ 32 ->
    prefix ++ be_bytes 4 i = prefix ++ be_bytes 4 j -> i = j).
  { intros i j ?? E%app_inv_head. by eapply (be_bytes_inj 4). }
  exists rs, fs. rewrite H3, Hlen. split_and!; try done.
  - by rewrite Hw, H2.
  - apply NoDup_alt. intros i j n [-> Hi]%Hat [E Hj]%Hat. apply Hinj in E; lia.
  - unfold next_nonce, u32_max. intros n s''. case_decide; [done|]. intros [= <- <-].
    rewrite Hn, Hpre, Hc, wrap_u32_small by (unfold zlen in *; lia). split; [done|].
    intros [i Hi]%list_elem_of_lookup. apply Hat in Hi as [E Hi]. apply Hinj in E; unfold zlen in *; lia.
Qed.

(** C6: A peer's records are delivered intact and in order.  When the wire
    carries the records of [pts] under the reader's key, any sequence of reads
    delivers a prefix of [concat pts] (never a byte that was not sent, none
    lost, none twice), an empty answer to a non-empty request means that
    everything was delivered, and the only errors are the transport's own. *)
Theorem enc_reads_deliver t rk wk prefix s peer pts caps bs es s' :
  new_directional t rk wk (Some prefix) = Ok s -> length prefix = NONCE_PREFIX_LEN ->
  length peer = NONCE_PREFIX_LEN -> Forall fits pts ->
  t_incoming t = wire_of rk peer 0 pts ->
  run_reads s caps = (bs, es, s') ->
  bs `prefix_of` concat pts /\
  Forall (fun e => exists (u u' : T), t_read u 4096 = (Ready (Err e), u')) es /\
  (forall cap s'', es = [] -> (0 < cap)%nat -> poll_read s' cap = (Ready (Ok []), s'') ->
     bs = concat pts).
Proof.
  intros Hnew Hp Hpeer Hf Hinc Hrun.
  destruct (new_directional_inv _ _ _ _ _ Hnew Hp)
    as (_ & _ & Hrk & _ & Hin & Hrx & Hpl & Hpos & Hst & Hlk).
  assert (reader_inv (concat pts) s) as Hinv.
  { exists peer, 0, pts. rewrite Hst, Hrk, Hpl, Hpos, Hrx, Hin. by split_and!. }
  destruct (run_reads_wire _ _ _ _ _ _ Hinv Hrun) as (pend' & Hpend & Hinv' & Herr).
  split_and!; [by exists pend'|done|]. intros cap s'' Hes Hcap Hread.
  apply (poll_read_wire _ _ _ _ _ (Hinv' Hes)) in Hread as (pend2 & _ & _ & Hempty).
  rewrite (Hempty eq_refl Hcap) in Hpend. by rewrite Hpend, app_nil_r.
Qed.

(** Errors are sticky: after a corrupt frame, a truncated stream or a
    transport error, every later read, write and flush reports the same error
    and changes nothing (fail-closed). *)
Theorem enc_error_sticky s cap e s' :
  poll_read s cap = (Ready (Err e), s') ->
  sticky_err s' = Some e /\
  forall os acc s'', run_ops s' os = (acc, s'') -> acc = [] /\ s'' = s'.
Proof.
  intros E. assert (sticky_err s' = Some e) as Hs.
  { unfold poll_read in E. destruct (sticky_err s) eqn:Es; [by simplify_eq|].
    case_decide; [by case_decide|]. by eapply read_loop_err. }
  split; [done|]. intros os acc s'' Hrun. by rewrite (run_ops_sticky _ _ _ Hs) in Hrun; simplify_eq.
Qed.
End laws.

(** ** A concrete cipher for the witnesses: the tag is the head of the key *)
#[global] Instance toy_aead : Aead := {|
  aead_seal k n pt := if decide (length k = 32%nat) then Some (pt ++ take TAG_LEN k) else None;
  aead_open k n ct :=
    if decide (drop (length ct - TAG_LEN) ct = take TAG_LEN k)
    then Some (take (length ct - TAG_LEN) ct) else None |}.

#[global] Instance toy_aead_laws : AeadLaws.
Proof.
  split; simpl.
  - intros. rewrite decide_True by done. eauto.
  - intros k n pt ct E. case_decide; simplify_eq. rewrite length_app, length_take. unfold TAG_LEN. lia.
  - intros k n pt ct E. case_decide as Hk; simplify_eq.
    assert (length (pt ++ take TAG_LEN k) - TAG_LEN = length pt)%nat as ->.
    { rewrite length_app, length_take. unfold TAG_LEN. lia. }
    rewrite drop_app_length, decide_True by done. by rewrite take_app_length.
Qed.

Definition demo_key : list byte := replicate 32 (z2b 7).
Definition demo_prefix : list byte := replicate 8 (z2b 9).
Definition demo_text : list byte := as_bytes "hello".

Definition demo_stream (answers : list answer) (incoming : list byte) : enc_stream script :=
  EncryptedStream (Script answers [] incoming) demo_key demo_key demo_prefix 0 [] 0 [] [] 0 None.

Definition demo_ops : list op := [OpWrite demo_text; OpWrite demo_text; OpWrite demo_text; OpFlush].

Lemma enc_schedule_wire_witness : exists pts, Forall fits pts /\
  (run_ops (demo_stream [Move 0; NotReady; Move 2] []) demo_ops).1 `prefix_of` concat pts /\
  (run_ops (demo_stream [Move 0; NotReady; Move 2] []) demo_ops).1 = demo_text ++ demo_text ++ demo_text.
Proof.
  destruct (enc_schedule_wire (T := script) (Script [Move 0; NotReady; Move 2] [] [])
    demo_key demo_key demo_prefix (demo_stream [Move 0; NotReady; Move 2] [])
    demo_ops _ _ eq_refl eq_refl (surjective_pairing _)) as (pts & Hf & Hacc & _).
  exists pts. split; [exact Hf|]. split; [exact Hacc|]. vm_compute. reflexivity.
Defined.

Lemma enc_nonces_unique_witness :
  let s' := (run_ops (demo_stream [] []) demo_ops).2 in
  exists records frames, Forall2 (sealed_as demo_key) records frames /\
    t_sent (inner s') ++ drop (out_pos s') (out_buf s') = concat frames /\ NoDup records.*1.
Proof.
  intros s'. destruct (enc_nonces_unique (T := script) (Script [] [] [])
    demo_key demo_key demo_prefix (demo_stream [] []) demo_ops _ s'
    eq_refl eq_refl (surjective_pairing _)) as (rs & fs & H1 & H2 & _ & H3 & _).
  exists rs, fs. exact (conj H1 (conj H2 H3)).
Defined.

Lemma enc_reads_deliver_witness :
  let wire := wire_of demo_key demo_prefix 0 [demo_text] in
  let out := run_reads (demo_stream [Move 2; NotReady; Move 50] wire) [3; 3; 3; 3]%nat in
  out.1.1 `prefix_of` concat [demo_text] /\ out.1.1 = demo_text.
Proof.
  intros wire out. split; [|vm_compute; reflexivity].
  destruct (enc_reads_deliver (T := script) (Script [Move 2; NotReady; Move 50] [] wire)
    demo_key demo_key demo_prefix (demo_stream [Move 2; NotReady; Move 50] wire)
    demo_prefix [demo_text] [3; 3; 3; 3]%nat out.1.1 out.1.2 out.2) as (Hbs & _);
    [reflexivity..| |reflexivity|vm_compute; reflexivity|exact Hbs].
  constructor; [|constructor]. split; apply Nat.leb_le; vm_compute; reflexivity.
Defined.

Lemma enc_error_sticky_witness :
  let s := demo_stream [] (replicate 4 (z2b 255)) in
  sticky_err (poll_read s 10).2
  = Some (IoError InvalidData "encrypted frame length 4294967295 out of range").
Proof.
  intros s. eapply (enc_error_sticky (T := script) s 10). vm_compute. reflexivity.
Defined.
