(* ===== verification/CompStream.v ===== *)
(** * The snappy record stream (src/rust_frp_net/src/compress.rs)

    [CompressedStream] has the shape of the encrypted stream: blocks of at most
    32 KiB, each compressed into one length-prefixed frame.  The raw snappy
    codec is the interface [Snappy] with its documented laws. *)
From S2P Require Import Prelude RustStd Transport.

Definition MAX_BLOCK : nat := Z.to_nat (32 * 1024).
Definition C_HEADER_LEN : nat := 4.

(** The codec of the [snap] crate: [compress_vec], [decompress_vec] and
    [max_compress_len]. *)
Class Snappy := {
  snap_compress : list byte -> result string (list byte);
  snap_decompress : list byte -> result string (list byte);
  snap_max_len : Z -> Z;
}.

Class SnappyLaws `{Snappy} := {
  snap_roundtrip : forall b c, snap_compress b = Ok c -> snap_decompress c = Ok b;
  snap_bound : forall b c, snap_compress b = Ok c -> 0 < zlen c <= snap_max_len (zlen b);
  snap_max_mono : forall m n, 0 <= m <= n -> snap_max_len m <= snap_max_len n;
  snap_max_u32 : snap_max_len (32 * 1024) < 2 ^ 32;
  snap_total : forall b, zlen b <= 32 * 1024 -> is_Some (match snap_compress b with Ok c => Some c | Err _ => None end);
}.

Section stream.
Context `{Snappy} {T : Type} `{Transport T}.

Definition max_frame_payload : Z := snap_max_len (32 * 1024).

Record comp_stream := CompressedStream {
  c_inner : T;
  c_out_buf : list byte;
  c_out_pos : nat;
  c_rx_buf : list byte;
  c_in_plain : list byte;
  c_in_pos : nat;
  c_sticky_err : option io_error;
}.

Definition c_with_inner (s : comp_stream) (t : T) : comp_stream :=
  CompressedStream t (c_out_buf s) (c_out_pos s) (c_rx_buf s) (c_in_plain s) (c_in_pos s)
    (c_sticky_err s).
Definition c_with_out (s : comp_stream) (buf : list byte) (pos : nat) : comp_stream :=
  CompressedStream (c_inner s) buf pos (c_rx_buf s) (c_in_plain s) (c_in_pos s) (c_sticky_err s).
Definition c_with_rx (s : comp_stream) (rx : list byte) : comp_stream :=
  CompressedStream (c_inner s) (c_out_buf s) (c_out_pos s) rx (c_in_plain s) (c_in_pos s)
    (c_sticky_err s).
Definition c_with_in (s : comp_stream) (plain : list byte) (pos : nat) : comp_stream :=
  CompressedStream (c_inner s) (c_out_buf s) (c_out_pos s) (c_rx_buf s) plain pos (c_sticky_err s).
Definition c_with_err (s : comp_stream) (e : io_error) : comp_stream :=
  CompressedStream (c_inner s) (c_out_buf s) (c_out_pos s) (c_rx_buf s) (c_in_plain s) (c_in_pos s)
    (Some e).

Definition c_new (t : T) : comp_stream := CompressedStream t [] 0 [] [] 0 None.

Definition compress_into_out_buf (s : comp_stream) (chunk : list byte)
  : result io_error unit * comp_stream :=
  match snap_compress chunk with
  | Err e => (Err (IoError InvalidData e), s)
  | Ok compressed =>
      (Ok tt, c_with_out s (c_out_buf s ++ be_bytes 4 (wrap_u32 (zlen compressed)) ++ compressed)
                (c_out_pos s))
  end.

(** A write of zero bytes fails without becoming sticky. *)
Fixpoint c_drain_loop (fuel : nat) (s : comp_stream) : poll (result io_error unit) * comp_stream :=
  match fuel with
  | O => (Pending, s)
  | S f =>
      if decide (c_out_pos s < length (c_out_buf s))%nat then
        match t_write (c_inner s) (drop (c_out_pos s) (c_out_buf s)) with
        | (Ready (Ok O), t) =>
            (Ready (Err (IoError WriteZero "compressed stream: underlying wrote 0 bytes")),
             c_with_inner s t)
        | (Ready (Ok n), t) =>
            c_drain_loop f (c_with_out (c_with_inner s t) (c_out_buf s) (c_out_pos s + n))
        | (Ready (Err e), t) => (Ready (Err e), c_with_err (c_with_inner s t) e)
        | (Pending, t) => (Pending, c_with_inner s t)
        end
      else
        let s := c_with_out s [] 0 in
        let '(r, t) := t_flush (c_inner s) in (r, c_with_inner s t)
  end.

Definition c_try_drain_out (s : comp_stream) : poll (result io_error unit) * comp_stream :=
  c_drain_loop (S (length (c_out_buf s) - c_out_pos s)) s.

Definition try_decompress_frame (s : comp_stream) : result io_error bool * comp_stream :=
  if decide (length (c_rx_buf s) < C_HEADER_LEN)%nat then (Ok false, s) else
  let payload_len := be_value (take C_HEADER_LEN (c_rx_buf s)) in
  if decide (payload_len = 0 \/ max_frame_payload < payload_len)
  then (Err (IoError InvalidData
         ("compressed frame length " +:+ dec payload_len +:+ " out of range")), s) else
  let frame_len := (C_HEADER_LEN + Z.to_nat payload_len)%nat in
  if decide (length (c_rx_buf s) < frame_len)%nat then (Ok false, s) else
  let payload := take (Z.to_nat payload_len) (drop C_HEADER_LEN (c_rx_buf s)) in
  match snap_decompress payload with
  | Err e => (Err (IoError InvalidData ("snappy decompress failed: " +:+ e)), s)
  | Ok plain =>
      if decide (MAX_BLOCK < length plain)%nat
      then (Err (IoError InvalidData
             ("decompressed block of " +:+ dec (zlen plain) +:+ " bytes exceeds limit")), s)
      else (Ok true, c_with_rx (c_with_in s (c_in_plain s ++ plain) (c_in_pos s))
                       (drop frame_len (c_rx_buf s)))
  end.

Fixpoint c_read_loop (fuel : nat) (s : comp_stream) (cap : nat)
  : poll (result io_error (list byte)) * comp_stream :=
  match fuel with
  | O => (Pending, s)
  | S f =>
      match try_decompress_frame s with
      | (Ok true, s) =>
          let n := Nat.min cap (length (c_in_plain s)) in
          (Ready (Ok (take n (c_in_plain s))),
           if decide (n = length (c_in_plain s)) then c_with_in s [] 0
           else c_with_in s (c_in_plain s) n)
      | (Err e, s) => (Ready (Err e), c_with_err s e)
      | (Ok false, s) =>
          match t_read (c_inner s) 4096 with
          | (Ready (Ok []), t) =>
              let s := c_with_inner s t in
              if decide (c_rx_buf s = []) then (Ready (Ok []), s) else
              let e := IoError UnexpectedEof "compressed stream: EOF mid-frame" in
              (Ready (Err e), c_with_err s e)
          | (Ready (Ok bs), t) => c_read_loop f (c_with_rx (c_with_inner s t) (c_rx_buf s ++ bs)) cap
          | (Ready (Err e), t) => (Ready (Err e), c_with_err (c_with_inner s t) e)
          | (Pending, t) => (Pending, c_with_inner s t)
          end
      end
  end.

Definition c_read_fuel (s : comp_stream) : nat :=
  S (S (C_HEADER_LEN + Z.to_nat max_frame_payload) - length (c_rx_buf s)).

Definition c_poll_read (s : comp_stream) (cap : nat)
  : poll (result io_error (list byte)) * comp_stream :=
  match c_sticky_err s with
  | Some e => (Ready (Err e), s)
  | None =>
      if decide (c_in_pos s < length (c_in_plain s))%nat then
        let n := Nat.min cap (length (c_in_plain s) - c_in_pos s) in
        (Ready (Ok (take n (drop (c_in_pos s) (c_in_plain s)))),
         if decide (c_in_pos s + n = length (c_in_plain s))%nat then c_with_in s [] 0
         else c_with_in s (c_in_plain s) (c_in_pos s + n))
      else c_read_loop (c_read_fuel s) s cap
  end.

Fixpoint compress_chunks (s : comp_stream) (cs : list (list byte))
  : result io_error unit * comp_stream :=
  match cs with
  | [] => (Ok tt, s)
  | c :: cs =>
      match compress_into_out_buf s c with
      | (Ok _, s) => compress_chunks s cs
      | (Err e, s) => (Err e, c_with_err s e)
      end
  end.

Definition c_poll_write (s : comp_stream) (buf : list byte)
  : poll (result io_error nat) * comp_stream :=
  match c_sticky_err s with
  | Some e => (Ready (Err e), s)
  | None =>
      match c_try_drain_out s with
      | (Pending, s) => (Pending, s)
      | (Ready (Err e), s) => (Ready (Err e), s)
      | (Ready (Ok _), s) =>
          match compress_chunks s (chunks MAX_BLOCK buf) with
          | (Err e, s) => (Ready (Err e), s)
          | (Ok _, s) => (Ready (Ok (length buf)), (c_try_drain_out s).2)
          end
      end
  end.

Definition c_poll_flush (s : comp_stream) : poll (result io_error unit) * comp_stream :=
  match c_sticky_err s with
  | Some e => (Ready (Err e), s)
  | None => c_try_drain_out s
  end.

Definition c_poll_shutdown (s : comp_stream) : poll (result io_error unit) * comp_stream :=
  match c_poll_flush s with
  | (Ready (Ok _), s) => let '(r, t) := t_shutdown (c_inner s) in (r, c_with_inner s t)
  | (r, s) => (r, s)
  end.

(** The frames a sequence of blocks becomes. *)
Definition frame_bytes (b : list byte) : list byte :=
  match snap_compress b with
  | Ok c => be_bytes 4 (wrap_u32 (zlen c)) ++ c
  | Err _ => []
  end.

(** Reads everything buffered, frame by frame. *)
Fixpoint decompress_all (fuel : nat) (s : comp_stream) : result io_error (list byte) :=
  match fuel with
  | O => Ok (c_in_plain s)
  | S f => match try_decompress_frame s with
           | (Err e, _) => Err e
           | (Ok false, s) => Ok (c_in_plain s)
           | (Ok true, s) => decompress_all f s
           end
  end.
End stream.
Arguments comp_stream T : clear implicits.

Section laws.
Context `{!Snappy, !SnappyLaws} {T : Type} `{!Transport T}.
Implicit Types s : comp_stream T.

Lemma frame_bytes_spec b : zlen b <= 32 * 1024 ->
  exists c, snap_compress b = Ok c /\ snap_decompress c = Ok b /\
    0 < zlen c <= max_frame_payload /\ frame_bytes b = be_bytes 4 (zlen c) ++ c.
Proof.
  intros Hb. destruct (snap_total b Hb) as [c Hc].
  destruct (snap_compress b) as [c'|] eqn:E; simplify_eq.
  destruct (snap_bound b c E) as [Hpos Hle].
  pose proof (snap_max_mono (zlen b) (32 * 1024) ltac:(unfold zlen in *; lia)).
  pose proof snap_max_u32.
  exists c. split_and!; [done|by apply snap_roundtrip|done|unfold max_frame_payload; lia|].
  unfold frame_bytes. rewrite E, wrap_u32_small by lia. done.
Qed.

Lemma compress_chunks_out s cs : Forall (fun c : list byte => zlen c <= 32 * 1024) cs ->
  compress_chunks s cs =
    (Ok tt, c_with_out s (c_out_buf s ++ concat (frame_bytes <$> cs)) (c_out_pos s)).
Proof.
  revert s; induction cs as [|c cs IH]; intros s Hcs; simpl.
  { rewrite app_nil_r. by destruct s. }
  apply Forall_cons_1 in Hcs as [Hc Hcs].
  destruct (frame_bytes_spec c Hc) as (z & E & _ & _ & Hf).
  unfold compress_into_out_buf. rewrite E, IH by done. simpl.
  unfold frame_bytes at 2. by rewrite E, <- app_assoc.
Qed.

(** One frame at the front of the buffer comes out whole. *)
Lemma try_decompress_frame_app s b rest : zlen b <= 32 * 1024 ->
  c_rx_buf s = frame_bytes b ++ rest ->
  try_decompress_frame s
  = (Ok true, c_with_rx (c_with_in s (c_in_plain s ++ b) (c_in_pos s)) rest).
Proof.
  intros Hb Hrx. destruct (frame_bytes_spec b Hb) as (c & _ & Hd & Hlen & Hf).
  pose proof snap_max_u32. rewrite Hf, <- app_assoc in Hrx.
  unfold try_decompress_frame. rewrite Hrx.
  rewrite decide_False by (rewrite length_app, length_be_bytes; unfold C_HEADER_LEN; lia).
  rewrite take_app_length' by (by rewrite length_be_bytes).
  rewrite be_value_be_bytes, Z.mod_small
    by (change (256 ^ Z.of_nat 4) with (2 ^ 32); unfold max_frame_payload in *; lia).
  rewrite decide_False by lia.
  assert (Z.to_nat (zlen c) = length c) as -> by (unfold zlen; lia).
  rewrite decide_False by (rewrite !length_app, length_be_bytes; unfold C_HEADER_LEN; lia).
  rewrite drop_app_length' by (by rewrite length_be_bytes).
  rewrite take_app_length, Hd, decide_False by (unfold zlen, MAX_BLOCK in *; lia).
  do 2 f_equal. rewrite app_assoc, drop_app_length'; [done|].
  by rewrite length_app, length_be_bytes.
Qed.

Lemma decompress_all_frames s cs fuel :
  Forall (fun c : list byte => zlen c <= 32 * 1024) cs -> (length cs < fuel)%nat ->
  c_rx_buf s = concat (frame_bytes <$> cs) ->
  decompress_all fuel s = Ok (c_in_plain s ++ concat cs).
Proof.
  revert s fuel; induction cs as [|c cs IH]; intros s [|f] Hcs Hf Hrx; simpl in *; try lia.
  - unfold try_decompress_frame. rewrite Hrx, decide_True by (unfold C_HEADER_LEN; simpl; lia).
    by rewrite app_nil_r.
  - apply Forall_cons_1 in Hcs as [Hc Hcs].
    rewrite (try_decompress_frame_app s c _ Hc Hrx), IH by (done || lia).
    simpl. by rewrite <- app_assoc.
Qed.

Lemma chunks_block buf : Forall (fun c : list byte => zlen c <= 32 * 1024) (chunks MAX_BLOCK buf).
Proof.
  eapply Forall_impl; [apply chunks_bounds; unfold MAX_BLOCK; lia|].
  intros c Hc. unfold MAX_BLOCK, zlen in *. lia.
Qed.

(** Compression round trip: whatever the data, [poll_write]'s block loop
    turns it, without failing, into frames that the frame decoder of the reader
    turns back into exactly that data; and no frame, not even a hostile one,
    makes the reader buffer more than 32 KiB of plaintext at once, while each
    decoded frame shortens the receive buffer. *)
Theorem comp_roundtrip (t : T) buf :
  (exists rx,
    compress_chunks (c_new t) (chunks MAX_BLOCK buf) = (Ok tt, c_with_out (c_new t) rx 0) /\
    decompress_all (S (length (chunks MAX_BLOCK buf))) (c_with_rx (c_new t) rx) = Ok buf) /\
  forall s s', try_decompress_frame s = (Ok true, s') ->
    exists b, c_in_plain s' = c_in_plain s ++ b /\ zlen b <= 32 * 1024 /\
      (length (c_rx_buf s') < length (c_rx_buf s))%nat.
Proof.
  split.
  - eexists. split; [by rewrite compress_chunks_out by apply chunks_block|].
    rewrite (decompress_all_frames _ (chunks MAX_BLOCK buf)) by (apply chunks_block || lia || done).
    simpl. rewrite chunks_concat; [done|]. unfold MAX_BLOCK. lia.
  - intros s s' E. unfold try_decompress_frame in E.
    repeat case_decide; simplify_eq.
    destruct (snap_decompress _) as [b|]; [|done]. case_decide; simplify_eq. exists b.
    simpl. split_and!; [done|unfold MAX_BLOCK, zlen in *; lia|].
    rewrite length_drop. unfold C_HEADER_LEN in *. lia.
Qed.
End laws.

(** ** A concrete codec for the witness: one leading byte *)
#[global] Instance toy_snappy : Snappy := {|
  snap_compress b := Ok (Byte.x00 :: b);
  snap_decompress c := match c with _ :: b => Ok b | [] => Err "empty"%string end;
  snap_max_len n := n + 1 |}.

#[global] Instance toy_snappy_laws : SnappyLaws.
Proof.
  split; simpl.
  - by intros b c [= <-].
  - intros b c [= <-]. unfold zlen. simpl. lia.
  - lia.
  - lia.
  - eauto.
Qed.

Lemma comp_roundtrip_witness : exists rx,
  decompress_all 2 (c_with_rx (c_new (Script [] [] [])) rx) = Ok (as_bytes "hello").
Proof.
  destruct (comp_roundtrip (T := script) (Script [] [] []) (as_bytes "hello"))
    as [(rx & _ & Hr) _].
  exists rx. exact Hr.
Defined.
