(* ===== verification/IoConn.v ===== *)
(** * Connections used through [read_exact] and [write_all]

    The framing code reads and writes a connection sequentially.  [conn] is its
    state: the bytes the peer will still deliver, the bytes written so far, and
    how many more bytes the transport accepts before it fails.  [io E] is the
    monad of code that uses it and may fail with [E]; [x ← m; k] is [m.await?]. *)
From S2P Require Import Prelude Transport.

Record conn := Conn { rx : list byte; tx : list byte; room : Z }.

Definition io (E A : Type) : Type := conn -> result E A * conn.

#[global] Instance io_ret E : MRet (io E) := fun A a c => (Ok a, c).
#[global] Instance io_bind E : MBind (io E) := fun A B f m c =>
  match m c with
  | (Ok a, c) => f a c
  | (Err e, c) => (Err e, c)
  end.

(** [lift r]: a computation that does no I/O; [fail e]: [return Err(e)]. *)
Definition lift {E A} (r : result E A) : io E A := fun c => (r, c).
Definition fail {E A} (e : E) : io E A := fun c => (Err e, c).

(** [map_err] on the error of an I/O action ([From] conversions of [?]). *)
Definition io_map_err {E F A} (f : E -> F) (m : io E A) : io F A :=
  fun c => let '(r, c) := m c in (map_err f r, c).

(** [let r = m.await;] without [?]: the outcome itself. *)
Definition io_try {E F A} (m : io E A) : io F (result E A) :=
  fun c => let '(r, c) := m c in (Ok r, c).

Definition read_n (n : nat) : io io_error (list byte) := fun c =>
  match read_exact n (rx c) with
  | Ok (bs, rest) => (Ok bs, Conn rest (tx c) (room c))
  | Err e => (Err e, Conn [] (tx c) (room c))
  end.

Definition write_all (bs : list byte) : io io_error unit := fun c =>
  if decide (zlen bs <= room c)
  then (Ok tt, Conn (rx c) (tx c ++ bs) (room c - zlen bs))
  else (Err broken_pipe, Conn (rx c) (tx c ++ take (Z.to_nat (room c)) bs) 0).

(** ** Lemmas *)
Lemma io_bind_Ok {E A B} (m : io E A) (f : A -> io E B) c b c' :
  (m ≫= f) c = (Ok b, c') -> exists a c1, m c = (Ok a, c1) /\ f a c1 = (Ok b, c').
Proof.
  unfold mbind, io_bind. destruct (m c) as [[a|e] c1]; [eauto|done].
Qed.

Lemma io_bind_eq {E A B} (m : io E A) (f : A -> io E B) c a c1 :
  m c = (Ok a, c1) -> (m ≫= f) c = f a c1.
Proof. unfold mbind, io_bind. by intros ->. Qed.

Lemma io_map_err_Ok {E F A} (g : E -> F) (m : io E A) c a c' :
  io_map_err g m c = (Ok a, c') <-> m c = (Ok a, c').
Proof.
  unfold io_map_err. destruct (m c) as [[x|e] c1]; simpl; split; by intros [=-> ->] || intros [= ->].
Qed.

Lemma read_n_app n bs rest t r : length bs = n ->
  read_n n (Conn (bs ++ rest) t r) = (Ok bs, Conn rest t r).
Proof. intros H. unfold read_n. simpl. by rewrite (read_exact_app_n n). Qed.

Lemma read_n_Ok n c bs c' : read_n n c = (Ok bs, c') ->
  rx c = bs ++ rx c' /\ length bs = n /\ tx c' = tx c /\ room c' = room c.
Proof.
  unfold read_n. destruct (read_exact n (rx c)) as [[b rest]|e] eqn:E; [|done].
  intros [= <- <-]. apply read_exact_Ok in E as [-> <-]. done.
Qed.

Lemma write_all_fits bs c : zlen bs <= room c ->
  write_all bs c = (Ok tt, Conn (rx c) (tx c ++ bs) (room c - zlen bs)).
Proof. intros H. unfold write_all. by rewrite decide_True. Qed.

Lemma write_all_Ok bs c u c' : write_all bs c = (Ok u, c') ->
  rx c' = rx c /\ tx c' = tx c ++ bs /\ room c' = room c - zlen bs /\ zlen bs <= room c.
Proof. unfold write_all. case_decide; [|done]. by intros [= <- <-]. Qed.

#[export] Hint Rewrite read_n_app using (by rewrite ?length_be_bytes) : frp.
