(* ===== verification/Sniff.v ===== *)
(** * Sniffing a connection (src/rust_frp_net/src/lib.rs [read_prefix],
    [PrefixedStream])

    The first bytes of a connection are read to decide which protocol it
    speaks, and put back in front of it.  [prefixed T] is the stream that
    replays them; it satisfies the transport's laws with the replayed bytes in
    front of the inner stream's. *)
From S2P Require Import Prelude Transport.

Section Sniff.
Context `{Transport T}.

Record prefixed := Prefixed { ps_prefix : list byte; ps_pos : nat; ps_inner : T }.

Definition prefixed_new (prefix : list byte) (inner : T) : prefixed := Prefixed prefix 0 inner.

(** [into_inner]: an unread prefix is dropped. *)
Definition into_inner (s : prefixed) : T := ps_inner s.

Definition prefixed_read (s : prefixed) (cap : nat) : poll (result io_error (list byte)) * prefixed :=
  if decide (ps_pos s < length (ps_prefix s))%nat then
    let remaining := drop (ps_pos s) (ps_prefix s) in
    let len := Nat.min (length remaining) cap in
    (Ready (Ok (take len remaining)), Prefixed (ps_prefix s) (ps_pos s + len) (ps_inner s))
  else
    let '(r, t) := t_read (ps_inner s) cap in (r, Prefixed (ps_prefix s) (ps_pos s) t).

Definition on_inner {A} (f : T -> A * T) (s : prefixed) : A * prefixed :=
  let '(a, t) := f (ps_inner s) in (a, Prefixed (ps_prefix s) (ps_pos s) t).

#[global] Instance prefixed_transport : Transport prefixed := {|
  t_write := fun s bs => on_inner (fun t => t_write t bs) s;
  t_flush := on_inner t_flush;
  t_shutdown := on_inner t_shutdown;
  t_read := prefixed_read;
  t_sent := fun s => t_sent (ps_inner s);
  t_incoming := fun s => drop (ps_pos s) (ps_prefix s) ++ t_incoming (ps_inner s) |}.

(** [read_prefix]: at most [n] bytes; [polls] is how often the stream is polled
    before the time-out, which is no error. *)
Fixpoint read_prefix (polls n : nat) (t : T) (buf : list byte) : result io_error (list byte) * T :=
  match polls with
  | O => (Ok buf, t)
  | S polls =>
      if decide (length buf < n)%nat then
        match t_read t (n - length buf) with
        | (Ready (Ok []), t) => (Ok buf, t)
        | (Ready (Ok bs), t) => read_prefix polls n t (buf ++ bs)
        | (Ready (Err e), t) => (Err e, t)
        | (Pending, t) => read_prefix polls n t buf
        end
      else (Ok buf, t)
  end.

Context `{!TransportLaws T}.

Lemma prefixed_laws : TransportLaws prefixed.
Proof.
  split; simpl; unfold on_inner.
  - intros s bs n s' E. destruct (t_write (ps_inner s) bs) as [r t] eqn:Ew. simplify_eq/=.
    apply t_write_ok in Ew as (Hn & Hs & Hi). by rewrite Hi.
  - intros s bs r s' E Hr. destruct (t_write (ps_inner s) bs) as [r' t] eqn:Ew. simplify_eq/=.
    apply t_write_other in Ew as [Hs Hi]; [|done]. by rewrite Hi.
  - intros s r s' E. destruct (t_flush (ps_inner s)) as [r' t] eqn:Ef. simplify_eq/=.
    apply t_flush_frame in Ef as [Hs Hi]. by rewrite Hi.
  - intros s cap bs s' E. unfold prefixed_read in E. destruct (decide _) as [Hp|Hp].
    + injection E as <- <-. simpl. set (rem := drop (ps_pos s) (ps_prefix s)).
      assert (Hrem : (0 < length rem)%nat) by (unfold rem; rewrite length_drop; lia).
      split_and!; [rewrite length_take; lia|done| |].
      * rewrite <- drop_drop. fold rem. by rewrite app_assoc, take_drop.
      * intros Hnil Hcap. apply (f_equal length) in Hnil. rewrite length_take in Hnil. simpl in Hnil. lia.
    + destruct (t_read (ps_inner s) cap) as [r t] eqn:Er. simplify_eq/=.
      apply t_read_ok in Er as (Hl & Hs & Hi & He). rewrite drop_ge by lia. done.
  - intros s cap r s' E Hr. unfold prefixed_read in E. destruct (decide _) as [Hp|Hp].
    + injection E as <- <-. by destruct (Hr (take (Nat.min (length (drop (ps_pos s) (ps_prefix s))) cap)
        (drop (ps_pos s) (ps_prefix s)))).
    + destruct (t_read (ps_inner s) cap) as [r' t] eqn:Er. simplify_eq/=.
      apply t_read_other in Er as [Hs Hi]; [|done]. by rewrite Hi.
Qed.

Lemma read_prefix_keeps polls n : forall t buf buf' t', (length buf <= n)%nat ->
  read_prefix polls n t buf = (Ok buf', t') ->
  buf ++ t_incoming t = buf' ++ t_incoming t' /\ t_sent t' = t_sent t /\ (length buf' <= n)%nat.
Proof.
  induction polls as [|polls IH]; intros t buf buf' t' Hn E; simpl in E.
  { injection E as <- <-. split_and!; eauto. }
  case_decide as Hlt; [|injection E as <- <-; split_and!; eauto].
  destruct (t_read t (n - length buf)) as [[[[|b bs]|e]|] t1] eqn:Er; [|..|done|].
  - injection E as <- <-. apply t_read_ok in Er as (_ & Hs & Hi & _). split_and!; eauto. by rewrite Hi.
  - pose proof Er as (Hl & Hs & Hi & _)%t_read_ok.
    apply IH in E as (E1 & E2 & E3); [|rewrite length_app; lia].
    split_and!; [|congruence|done]. rewrite Hi, app_assoc. exact E1.
  - apply t_read_other in Er as [Hs Hi]; [|done].
    apply IH in E as (E1 & E2 & E3); [|done]. rewrite Hi in E1. split_and!; [done|congruence|done].
Qed.

(** C27: sniffing loses nothing: whatever [read_prefix] could read before its
    limit, the end of the stream or the time-out, the stream that replays it
    satisfies the transport's laws, delivers exactly the bytes the original
    would have delivered, in order, and has written nothing. *)
Theorem sniffing_transparent polls n t prefix t' : read_prefix polls n t [] = (Ok prefix, t') ->
  TransportLaws prefixed /\ (length prefix <= n)%nat /\
  t_incoming (prefixed_new prefix t') = t_incoming t /\ t_sent (prefixed_new prefix t') = t_sent t.
Proof.
  intros E. split; [apply prefixed_laws|].
  apply read_prefix_keeps in E as (E1 & E2 & E3); [|simpl; lia]. simpl in *. by rewrite E1.
Qed.

(** Reads of the replaying stream drain the prefix first. *)
Lemma prefixed_reads_prefix prefix inner cap : (0 < cap)%nat -> prefix <> [] ->
  exists s, prefixed_read (prefixed_new prefix inner) cap = (Ready (Ok (take cap prefix)), s) /\
    ps_inner s = inner.
Proof.
  intros Hcap Hne. unfold prefixed_read. cbn [prefixed_new ps_pos ps_prefix ps_inner].
  rewrite decide_True by (destruct prefix; [done|simpl; lia]). exists (Prefixed prefix (0 + Nat.min (length (drop 0 prefix)) cap) inner). split; [|done].
  rewrite drop_0. f_equal. f_equal. f_equal. destruct (Nat.le_ge_cases (length prefix) cap).
  - by rewrite Nat.min_l, !take_ge by done.
  - by rewrite Nat.min_r by done.
Qed.
End Sniff.
Arguments prefixed T : clear implicits.

Lemma sniffing_transparent_witness :
  let t := Script [Move 0; NotReady; Move 9] [] (as_bytes "GET / HTTP/1.1") in
  let '(r, t') := read_prefix 5 4 t [] in
  r = Ok (as_bytes "GET ") /\ t_incoming (prefixed_new (as_bytes "GET ") t') = as_bytes "GET / HTTP/1.1".
Proof.
  intros t. destruct (read_prefix 5 4 t []) as [r t'] eqn:E. vm_compute in E. injection E as <- <-.
  split; [reflexivity|].
  destruct (sniffing_transparent 5 4 t (as_bytes "GET ") (Script [] [] (as_bytes "/ HTTP/1.1")))
    as (_ & _ & Hi & _); [vm_compute; reflexivity|exact Hi].
Defined.
