(* ===== verification/WireV2.v ===== *)
(** * Wire protocol v2 (src/rust_frp_net/src/wire_v2.rs)

    Frames, the magic prefix, the two Hello payloads and their validation, the
    transcript hash and key schedule, and the two sides of the handshake.  The
    JSON codec ([serde_json]), SHA-256 and HMAC ([ring]) are interfaces; random
    bytes are arguments (the outcome of filling a buffer). *)
From S2P Require Import Prelude RustStd Transport EncStream IoConn.

Definition MAGIC_V2 : list byte :=
  [Byte.x46; Byte.x52; Byte.x50; Byte.x00; Byte.x02; Byte.x0d; Byte.x0a].

Definition FRAME_TYPE_CLIENT_HELLO : Z := 1.
Definition FRAME_TYPE_SERVER_HELLO : Z := 2.
Definition FRAME_TYPE_MESSAGE : Z := 16.
Definition MESSAGE_CODEC_JSON : string := "json".
Definition UDP_PACKET_CODEC_BINARY : string := "binary-v1".
Definition DEFAULT_MAX_FRAME_PAYLOAD_SIZE : Z := 64 * 1024.
Definition AEAD_ALGORITHM_AES_256_GCM : string := "aes-256-gcm".
Definition AEAD_ALGORITHM_XCHACHA20_POLY1305 : string := "xchacha20-poly1305".
Definition SUPPORTED_AEAD_ALGORITHMS : list string := [AEAD_ALGORITHM_AES_256_GCM].
Definition CRYPTO_RANDOM_SIZE : nat := 32.
Definition AEAD_KEY_SIZE : nat := 32.
Definition CRYPTO_TRANSCRIPT_LABEL : string := "frp wire v2 crypto transcript".
Definition AEAD_CONTROL_HKDF_INFO_PREFIX : string := "frp wire v2 control aead".
Definition AEAD_DIRECTION_CLIENT_TO_SERVER : string := "client-to-server".
Definition AEAD_DIRECTION_SERVER_TO_CLIENT : string := "server-to-client".

Inductive wire_error :=
| WireIo (e : io_error)
| WireJson (msg : string)
| WireProtocol (msg : string).

(** [WireError]'s [Display]. *)
Definition wire_error_text (e : wire_error) : string :=
  match e with
  | WireIo e => "I/O error: " +:+ err_msg e
  | WireJson m => "JSON error: " +:+ m
  | WireProtocol m => "wire v2 protocol error: " +:+ m
  end.

(** ** Frames *)
Record frame := Frame { type_id : Z; flags : Z; payload : list byte }.

Definition header_of (f : frame) : list byte :=
  be_bytes 2 (type_id f) ++ be_bytes 2 (flags f) ++ be_bytes 4 (wrap_u32 (zlen (payload f))).

Definition read_frame : io wire_error frame :=
  header ← io_map_err WireIo (read_n 8);
  let type_id := be_value (take 2 header) in
  let flags := be_value (take 2 (drop 2 header)) in
  let length := be_value (drop 4 header) in
  if decide (flags <> 0)
  then fail (WireProtocol ("unsupported frame flags: " +:+ dec flags)) else
  if decide (DEFAULT_MAX_FRAME_PAYLOAD_SIZE < length)
  then fail (WireProtocol ("frame payload length " +:+ dec length +:+ " exceeds limit "
         +:+ dec DEFAULT_MAX_FRAME_PAYLOAD_SIZE)) else
  payload ← io_map_err WireIo (read_n (Z.to_nat length));
  mret (Frame type_id flags payload).

Definition write_frame (f : frame) : io wire_error unit :=
  if decide (flags f <> 0)
  then fail (WireProtocol ("unsupported frame flags: " +:+ dec (flags f))) else
  if decide (DEFAULT_MAX_FRAME_PAYLOAD_SIZE < zlen (payload f))
  then fail (WireProtocol ("frame payload length " +:+ dec (zlen (payload f))
         +:+ " exceeds limit " +:+ dec DEFAULT_MAX_FRAME_PAYLOAD_SIZE)) else
  _ ← io_map_err WireIo (write_all (header_of f));
  _ ← io_map_err WireIo (write_all (payload f));
  mret tt.

Definition write_magic : io io_error unit := write_all MAGIC_V2.

Definition check_magic : io io_error (list byte * bool) :=
  buf ← read_n (length MAGIC_V2);
  mret (buf, bool_decide (buf = MAGIC_V2)).

(** ** Hello payloads *)
Record BootstrapInfo := {
  transport : string;
  tls : bool;
  tcp_mux : bool;
}.

Record MessageCapabilities := {
  codecs : list string;
  udp_packet_codecs : list string;
}.

Record CryptoCapabilities := {
  algorithms : list string;
  client_random : list byte;
}.

Record ClientCapabilities := {
  message : MessageCapabilities;
  crypto : CryptoCapabilities;
}.

Record ClientHello := {
  bootstrap : BootstrapInfo;
  capabilities : ClientCapabilities;
}.

Record MessageSelection := {
  codec : string;
  udp_packet_codec : string;
}.

Record CryptoSelection := {
  algorithm : string;
  server_random : list byte;
}.

Record ServerSelection := {
  sel_message : MessageSelection;
  sel_crypto : CryptoSelection;
}.

Record ServerHello := {
  selected : ServerSelection;
  error : string;
}.

Definition default_selection : ServerSelection :=
  {| sel_message := {| codec := EmptyString; udp_packet_codec := EmptyString |};
     sel_crypto := {| algorithm := EmptyString; server_random := [] |} |}.

(** [serde_json::to_vec] and [from_slice] of one type. *)
Class Json (A : Type) := {
  to_json : A -> result string (list byte);
  of_json : list byte -> result string A;
}.

(** A serialized value parses back. *)
Class JsonLaws (A : Type) `{Json A} := {
  json_roundtrip : forall (a : A) b, to_json a = Ok b -> of_json b = Ok a;
}.

(** [Frame::json] and [Frame::decode]. *)
Definition frame_json `{Json A} (ty : Z) (value : A) : result wire_error frame :=
  payload ← map_err WireJson (to_json value);
  Ok (Frame ty 0 payload).

Definition frame_decode `{Json A} (f : frame) : result wire_error A :=
  map_err WireJson (of_json (payload f)).

(** [random]: the 32 bytes the system generator gives, [None] when it fails. *)
Definition crypto_random (random : option (list byte)) : result wire_error (list byte) :=
  ok_or (WireProtocol "failed to generate crypto random") random.

Definition is_supported_aead_algorithm (algorithm : string) : bool :=
  bool_decide (algorithm ∈ SUPPORTED_AEAD_ALGORITHMS).

(** [find_map] over the client's list, in its order of preference. *)
Fixpoint select_aead_algorithm (client_algorithms : list string) : option string :=
  match client_algorithms with
  | [] => None
  | a :: rest =>
      match List.find (fun s => bool_decide (s = a)) SUPPORTED_AEAD_ALGORITHMS with
      | Some s => Some s
      | None => select_aead_algorithm rest
      end
  end.

Definition select_udp_packet_codec (codecs : list string) : string :=
  if bool_decide (UDP_PACKET_CODEC_BINARY ∈ codecs) then UDP_PACKET_CODEC_BINARY else EmptyString.

Definition new_client_hello (random : option (list byte)) (b : BootstrapInfo)
  : result wire_error ClientHello :=
  client_random ← crypto_random random;
  Ok {| bootstrap := b;
        capabilities := {|
          message := {| codecs := [MESSAGE_CODEC_JSON];
                        udp_packet_codecs := [UDP_PACKET_CODEC_BINARY] |};
          crypto := {| algorithms := SUPPORTED_AEAD_ALGORITHMS;
                       client_random := client_random |} |} |}.

Definition validate_crypto_capabilities (cap : CryptoCapabilities) : result wire_error unit :=
  if decide (length (client_random cap) <> CRYPTO_RANDOM_SIZE)
  then Err (WireProtocol ("invalid crypto client random length "
         +:+ dec (zlen (client_random cap)) +:+ ", want 32")) else
  match select_aead_algorithm (algorithms cap) with
  | None => Err (WireProtocol "no supported crypto algorithm")
  | Some _ => Ok tt
  end.

Definition validate_client_hello (hello : ClientHello) : result wire_error unit :=
  if bool_decide (MESSAGE_CODEC_JSON ∈ codecs (message (capabilities hello)))
  then validate_crypto_capabilities (crypto (capabilities hello))
  else Err (WireProtocol "unsupported message codec").

Definition new_server_hello (random : option (list byte)) (hello : ClientHello)
  : result wire_error ServerHello :=
  _ ← validate_client_hello hello;
  algorithm ← ok_or (WireProtocol "no supported crypto algorithm")
                (select_aead_algorithm (algorithms (crypto (capabilities hello))));
  server_random ← crypto_random random;
  Ok {| selected := {|
          sel_message := {| codec := MESSAGE_CODEC_JSON;
            udp_packet_codec :=
              select_udp_packet_codec (udp_packet_codecs (message (capabilities hello))) |};
          sel_crypto := {| algorithm := algorithm; server_random := server_random |} |};
        error := EmptyString |}.

Definition validate_server_hello_for_client (client : ClientHello) (server : ServerHello)
  : result wire_error unit :=
  let sel := selected server in
  if decide (codec (sel_message sel) <> MESSAGE_CODEC_JSON)
  then Err (WireProtocol ("unsupported selected message codec: " +:+ codec (sel_message sel))) else
  let udp_codec := udp_packet_codec (sel_message sel) in
  _ ← (if is_empty udp_codec then Ok tt else
       if decide (udp_codec <> UDP_PACKET_CODEC_BINARY)
       then Err (WireProtocol ("unsupported selected UDP packet codec: " +:+ udp_codec)) else
       if bool_decide (udp_codec ∈ udp_packet_codecs (message (capabilities client)))
       then Ok tt
       else Err (WireProtocol
         ("selected UDP packet codec was not advertised by client: " +:+ udp_codec)));
  let algo := algorithm (sel_crypto sel) in
  if negb (is_supported_aead_algorithm algo)
  then Err (WireProtocol ("unknown selected crypto algorithm: " +:+ algo)) else
  if negb (bool_decide (algo ∈ algorithms (crypto (capabilities client))))
  then Err (WireProtocol ("selected crypto algorithm was not advertised by client: " +:+ algo)) else
  if decide (length (server_random (sel_crypto sel)) <> CRYPTO_RANDOM_SIZE)
  then Err (WireProtocol ("invalid crypto server random length "
         +:+ dec (zlen (server_random (sel_crypto sel))) +:+ ", want 32"))
  else Ok tt.

(** ** Transcript hash and key schedule *)

(** SHA-256 and HMAC-SHA-256 of the [ring] crate. *)
Class RingHash := {
  sha256 : list byte -> list byte;
  hmac_sha256 : list byte -> list byte -> list byte;
}.

Class RingHashLaws `{RingHash} := {
  sha256_length : forall m, length (sha256 m) = 32%nat;
  hmac_length : forall k m, length (hmac_sha256 k m) = 32%nat;
}.

Record CryptoContext := {
  ctx_algorithm : string;
  ctx_transcript_hash : list byte;
}.

Inductive AeadRole := Client | Server.

(** A digest context is the input so far; [update] appends to it. *)
Definition write_transcript_part (ctx : list byte) (label : string) (payload : list byte)
  : list byte :=
  ctx ++ [Byte.x00] ++ as_bytes label ++ [Byte.x00] ++ be_bytes 8 (wrap_u64 (zlen payload)) ++ payload.

Definition transcript_input (client_hello_payload server_hello_payload : list byte) : list byte :=
  let ctx := as_bytes CRYPTO_TRANSCRIPT_LABEL in
  let ctx := write_transcript_part ctx "client hello" client_hello_payload in
  write_transcript_part ctx "server hello" server_hello_payload.

Section crypto.
Context `{RingHash}.

Definition hash_crypto_transcript (client_hello_payload server_hello_payload : list byte)
  : list byte := sha256 (transcript_input client_hello_payload server_hello_payload).

Definition new_crypto_context (algorithm : string)
    (client_hello_payload server_hello_payload : list byte) : CryptoContext :=
  {| ctx_algorithm := algorithm;
     ctx_transcript_hash := hash_crypto_transcript client_hello_payload server_hello_payload |}.

Definition new_client_crypto_context `{Json ClientHello, Json ServerHello}
    (client_hello_payload server_hello_payload : list byte) : result wire_error CryptoContext :=
  client ← map_err WireJson (of_json client_hello_payload);
  server ← map_err WireJson (of_json server_hello_payload);
  _ ← validate_server_hello_for_client client server;
  Ok (new_crypto_context (algorithm (sel_crypto (selected server)))
        client_hello_payload server_hello_payload).

(** The expansion loop of HKDF: one HMAC block per turn, the block counter is
    a [u8] that wraps around. *)
Fixpoint hkdf_expand (fuel : nat) (prk info okm prev : list byte) (counter : Z) (out_len : nat)
  : list byte :=
  match fuel with
  | O => okm
  | S f =>
      if decide (length okm < out_len)%nat then
        let prev := hmac_sha256 prk (prev ++ info ++ [z2b counter]) in
        hkdf_expand f prk info (okm ++ prev) prev (wrap_u8 (counter + 1)) out_len
      else okm
  end.

Definition hkdf_sha256 (ikm salt info : list byte) (out_len : nat) : list byte :=
  let prk := hmac_sha256 salt ikm in
  take out_len (hkdf_expand (S out_len) prk info [] [] 1 out_len).

Definition derive_control_key (base_key : list byte) (algorithm : string)
    (transcript_hash : list byte) (direction : string) : list byte :=
  let info := AEAD_CONTROL_HKDF_INFO_PREFIX +:+ " " +:+ algorithm +:+ " " +:+ direction in
  hkdf_sha256 base_key transcript_hash (as_bytes info) AEAD_KEY_SIZE.

Definition derive_control_keys (base_key : list byte) (algorithm : string)
    (transcript_hash : list byte) : list byte * list byte :=
  let c2s := derive_control_key base_key algorithm transcript_hash
               AEAD_DIRECTION_CLIENT_TO_SERVER in
  let s2c := derive_control_key base_key algorithm transcript_hash
               AEAD_DIRECTION_SERVER_TO_CLIENT in
  (c2s, s2c).

(** [(read_key, write_key)] of a role. *)
Definition control_keys_for_role (base_key : list byte) (algorithm : string)
    (transcript_hash : list byte) (role : AeadRole) : list byte * list byte :=
  let '(c2s, s2c) := derive_control_keys base_key algorithm transcript_hash in
  match role with
  | Client => (s2c, c2s)
  | Server => (c2s, s2c)
  end.

(** ** The handshake *)

(** Wraps the connection as it is after the handshake. *)
Definition wrap_stream (keys : list byte * list byte) (prefix : option (list byte))
  : io wire_error (enc_stream conn) := fun c =>
  (map_err WireIo (new_directional c keys.1 keys.2 prefix), c).

Definition client_handshake `{Json ClientHello, Json ServerHello}
    (random prefix : option (list byte)) (base_key : list byte) (b : BootstrapInfo)
  : io wire_error (enc_stream conn) :=
  _ ← io_map_err WireIo write_magic;
  hello ← lift (new_client_hello random b);
  hello_frame ← lift (frame_json FRAME_TYPE_CLIENT_HELLO hello);
  _ ← write_frame hello_frame;
  reply ← read_frame;
  if decide (type_id reply <> FRAME_TYPE_SERVER_HELLO)
  then fail (WireProtocol ("unexpected frame type " +:+ dec (type_id reply) +:+ ", want 2")) else
  server_hello ← lift (frame_decode (A := ServerHello) reply);
  if negb (is_empty (error server_hello))
  then fail (WireProtocol ("server rejected wire v2 handshake: " +:+ error server_hello)) else
  context ← lift (new_client_crypto_context (payload hello_frame) (payload reply));
  wrap_stream (control_keys_for_role base_key (ctx_algorithm context)
                 (ctx_transcript_hash context) Client) prefix.

(** The refusal is written on a best-effort basis before the error returns. *)
Definition reject_hello `{Json ServerHello} (e : wire_error) : io wire_error (enc_stream conn) :=
  let rejected := {| selected := default_selection; error := wire_error_text e |} in
  match frame_json FRAME_TYPE_SERVER_HELLO rejected with
  | Ok frame => _ ← io_try (write_frame frame); fail e
  | Err _ => fail e
  end.

Definition server_handshake `{Json ClientHello, Json ServerHello}
    (random prefix : option (list byte)) (base_key : list byte)
  : io wire_error (enc_stream conn) :=
  hello_frame ← read_frame;
  if decide (type_id hello_frame <> FRAME_TYPE_CLIENT_HELLO)
  then fail (WireProtocol ("unexpected frame type " +:+ dec (type_id hello_frame) +:+ ", want 1")) else
  client_hello ← lift (frame_decode (A := ClientHello) hello_frame);
  match new_server_hello random client_hello with
  | Err e => reject_hello e
  | Ok server_hello =>
      reply_frame ← lift (frame_json FRAME_TYPE_SERVER_HELLO server_hello);
      _ ← write_frame reply_frame;
      let context := new_crypto_context (algorithm (sel_crypto (selected server_hello)))
                       (payload hello_frame) (payload reply_frame) in
      wrap_stream (control_keys_for_role base_key (ctx_algorithm context)
                     (ctx_transcript_hash context) Server) prefix
  end.
End crypto.

(** ** Specification of frames *)
Definition wf_frame (f : frame) : Prop :=
  0 <= type_id f < 65536 /\ flags f = 0 /\ zlen (payload f) <= DEFAULT_MAX_FRAME_PAYLOAD_SIZE.

Definition frame_bytes (f : frame) : list byte := header_of f ++ payload f.

(** ** Specification of the control keys *)

(** What both sides hash: the two hello payloads, each behind its label and its
    length in eight bytes. *)
Definition both_hellos (client_payload server_payload : list byte) : list byte :=
  as_bytes "frp wire v2 crypto transcript" ++
  [Byte.x00] ++ as_bytes "client hello" ++ [Byte.x00] ++
    be_bytes 8 (zlen client_payload) ++ client_payload ++
  [Byte.x00] ++ as_bytes "server hello" ++ [Byte.x00] ++
    be_bytes 8 (zlen server_payload) ++ server_payload.

(** HKDF-SHA256 for one 32-byte key: the base key under the hash of the two
    hellos as salt, expanded with the algorithm and the direction. *)
Definition direction_key `{RingHash} (base client_payload server_payload : list byte)
    (direction : string) : list byte :=
  hmac_sha256 (hmac_sha256 (sha256 (both_hellos client_payload server_payload)) base)
    (as_bytes ("frp wire v2 control aead aes-256-gcm " +:+ direction) ++ [Byte.x01]).

(** ** Theorems on frames *)
Lemma length_header_of f : length (header_of f) = 8%nat.
Proof. unfold header_of. by rewrite !length_app, !length_be_bytes. Qed.

Lemma header_fields f : wf_frame f ->
  be_value (take 2 (header_of f)) = type_id f /\
  be_value (take 2 (drop 2 (header_of f))) = 0 /\
  be_value (drop 4 (header_of f)) = zlen (payload f).
Proof.
  intros (Ht & Hf & Hp). unfold header_of, DEFAULT_MAX_FRAME_PAYLOAD_SIZE in *.
  rewrite take_app_length' by (by rewrite length_be_bytes).
  rewrite drop_app_length' by (by rewrite length_be_bytes).
  rewrite take_app_length' by (by rewrite length_be_bytes).
  rewrite app_assoc, drop_app_length' by (by rewrite length_app, !length_be_bytes).
  rewrite !be_value_be_bytes, Hf. change (256 ^ Z.of_nat 2) with 65536.
  change (256 ^ Z.of_nat 4) with 4294967296.
  assert (0 <= zlen (payload f)) by (unfold zlen; lia).
  rewrite wrap_u32_small, !Z.mod_small by lia. done.
Qed.

Lemma read_frame_app f rest t r : wf_frame f ->
  read_frame (Conn (frame_bytes f ++ rest) t r) = (Ok f, Conn rest t r).
Proof.
  intros Hf. destruct (header_fields f Hf) as (H1 & H2 & H3).
  destruct Hf as (Ht & Hfl & Hp). unfold read_frame, frame_bytes. rewrite <- app_assoc.
  erewrite io_bind_eq by (apply io_map_err_Ok, read_n_app, length_header_of).
  rewrite H1, H2, H3, decide_False by tauto.
  rewrite decide_False by lia.
  erewrite io_bind_eq by (apply io_map_err_Ok, read_n_app; unfold zlen; lia).
  destruct f; simpl in *. by subst.
Qed.

(** [read_frame] accepts exactly the well-formed frames: it succeeds with
    [f] iff the connection starts with the encoding of [f], the flags are
    zero and the payload is at most 64 KiB; it then consumes exactly those
    bytes and writes nothing.  So frames are self-delimiting and have one
    encoding, and what [write_frame] emits is read back. *)
Theorem read_frame_iff c f c' :
  read_frame c = (Ok f, c') <->
  wf_frame f /\ rx c = frame_bytes f ++ rx c' /\ tx c' = tx c /\ room c' = room c.
Proof.
  split.
  - intros H. unfold read_frame in H.
    apply io_bind_Ok in H as (header & c1 & Hh & H). apply io_map_err_Ok, read_n_Ok in Hh.
    destruct Hh as (Hrx & Hlen & Htx & Hroom).
    case_decide as Hfl; [done|]. case_decide as Hsz; [done|].
    apply io_bind_Ok in H as (pl & c2 & Hp & H). apply io_map_err_Ok, read_n_Ok in Hp.
    destruct Hp as (Hrx2 & Hlen2 & Htx2 & Hroom2).
    injection H as <- <-.
    pose proof (be_value_range (take 2 header)) as R1.
    pose proof (be_value_range (drop 4 header)) as R3. unfold zlen in R1, R3.
    rewrite length_take, Hlen in R1. rewrite length_drop, Hlen in R3.
    change (256 ^ Z.of_nat (Nat.min 2 8)) with 65536 in R1.
    assert (zlen pl = be_value (drop 4 header)) as Hzl by (unfold zlen; lia).
    assert (header_of (Frame (be_value (take 2 header)) (be_value (take 2 (drop 2 header))) pl)
            = header) as Hhd.
    { unfold header_of; cbn [type_id flags payload]. rewrite Hzl, wrap_u32_small
        by (change (256 ^ Z.of_nat (8 - 4)) with 4294967296 in R3; lia).
      pose proof (be_bytes_be_value (take 2 header)) as E1.
      pose proof (be_bytes_be_value (take 2 (drop 2 header))) as E2.
      pose proof (be_bytes_be_value (drop 4 header)) as E3.
      rewrite length_take, Hlen in E1. rewrite length_take, length_drop, Hlen in E2.
      rewrite length_drop, Hlen in E3.
      change (Nat.min 2 8) with 2%nat in E1. change (Nat.min 2 (8 - 2)) with 2%nat in E2.
      change (8 - 4)%nat with 4%nat in E3. rewrite E1, E2, E3.
      rewrite <- (take_drop 2 header) at 4. f_equal.
      rewrite <- (take_drop 2 (drop 2 header)) at 2. by rewrite drop_drop. }
    split_and!; [split_and!; simpl|..].
    + lia.
    + lia.
    + by destruct (decide (be_value (take 2 (drop 2 header)) = 0)).
    + unfold DEFAULT_MAX_FRAME_PAYLOAD_SIZE in *. lia.
    + unfold frame_bytes. rewrite Hhd. simpl. by rewrite Hrx, Hrx2, <- app_assoc.
    + congruence.
    + congruence.
  - intros (Hf & Hrx & Htx & Hroom). destruct c as [r t m], c' as [r' t' m']. simpl in *. subst.
    by apply read_frame_app.
Qed.

Lemma write_frame_fits f c : wf_frame f -> zlen (frame_bytes f) <= room c ->
  write_frame f c
  = (Ok tt, Conn (rx c) (tx c ++ frame_bytes f) (room c - zlen (frame_bytes f))).
Proof.
  unfold frame_bytes. rewrite zlen_app. intros (Ht & Hf & Hp) Hr. unfold write_frame.
  rewrite decide_False, decide_False by (done || lia).
  assert (zlen (payload f) >= 0) by (unfold zlen; lia).
  erewrite io_bind_eq by (apply io_map_err_Ok, write_all_fits; lia).
  erewrite io_bind_eq by (apply io_map_err_Ok, write_all_fits; simpl; lia).
  unfold mret, io_ret. simpl. by rewrite <- app_assoc, Z.sub_add_distr.
Qed.

(** [write_frame] refuses non-zero flags and payloads above 64 KiB before
    writing a byte, and a successful call has written exactly the frame's
    encoding, which a reader with any following bytes gets back as the frame. *)
Theorem write_frame_spec f c : 0 <= type_id f < 65536 ->
  (flags f <> 0 \/ DEFAULT_MAX_FRAME_PAYLOAD_SIZE < zlen (payload f) ->
     exists m, write_frame f c = (Err (WireProtocol m), c)) /\
  forall u c', write_frame f c = (Ok u, c') ->
    tx c' = tx c ++ frame_bytes f /\ rx c' = rx c /\
    forall rest t r, read_frame (Conn (frame_bytes f ++ rest) t r) = (Ok f, Conn rest t r).
Proof.
  intros Ht. split.
  - intros H. unfold write_frame. case_decide as Hf; [by eexists|].
    destruct H as [|H]; [done|]. rewrite decide_True by done. by eexists.
  - intros u c' H. unfold write_frame in H.
    case_decide as Hf; [done|]. case_decide as Hs; [done|].
    apply io_bind_Ok in H as ([] & c1 & H1 & H). apply io_map_err_Ok, write_all_Ok in H1.
    apply io_bind_Ok in H as ([] & c2 & H2 & H). apply io_map_err_Ok, write_all_Ok in H2.
    injection H as <- <-. unfold frame_bytes.
    destruct H1 as (E0 & E1 & _), H2 as (E2 & E3 & _).
    rewrite E3, E1, E2, E0, <- app_assoc.
    split_and!; [done|done|]. intros. apply read_frame_app.
    split_and!; [lia|lia| |lia]. by destruct (decide (flags f = 0)).
Qed.

Lemma read_frame_iff_witness :
  let f := Frame FRAME_TYPE_MESSAGE 0 (as_bytes "hi") in
  read_frame (Conn (frame_bytes f ++ as_bytes "rest") [] 0) = (Ok f, Conn (as_bytes "rest") [] 0).
Proof.
  intros f. apply read_frame_iff.
  repeat split; vm_compute; intuition congruence.
Defined.

Lemma write_frame_spec_witness :
  let f := Frame FRAME_TYPE_MESSAGE 0 (as_bytes "hi") in
  (write_frame f (Conn [] [] 100)).2.(tx) = frame_bytes f.
Proof.
  intros f. refine (proj1 (proj2 (write_frame_spec f (Conn [] [] 100) _) tt _ _)).
  - vm_compute. intuition congruence.
  - vm_compute. reflexivity.
Defined.

(** ** Theorems on the key schedule *)

(** The part of the transcript after its first label determines the payload. *)
Lemma transcript_part_inj pre l p1 p2 rest1 rest2 :
  zlen p1 < 2 ^ 64 -> zlen p2 < 2 ^ 64 ->
  write_transcript_part pre l p1 ++ rest1 = write_transcript_part pre l p2 ++ rest2 ->
  p1 = p2 /\ rest1 = rest2.
Proof.
  intros H1 H2 E. unfold write_transcript_part in E. rewrite <- !app_assoc in E.
  do 4 apply app_inv_head in E.
  pose proof (Zle_0_nat (length p1)). pose proof (Zle_0_nat (length p2)). unfold zlen in *.
  apply app_inj_1 in E as [E1 E2]; [|by rewrite !length_be_bytes].
  apply be_bytes_inj in E1; [|change (256 ^ Z.of_nat 8) with (2 ^ 64); apply wrap_u_range; lia..].
  rewrite !wrap_u64_small in E1 by lia.
  apply app_inj_1 in E2; [done|lia].
Qed.

(** The transcript binds both Hello payloads: distinct pairs of payloads
    give distinct hash inputs (the length prefixes leave no ambiguity about
    where the client's payload ends), so equal transcript hashes of different
    handshakes would be a SHA-256 collision. *)
Theorem transcript_input_injective ch1 sh1 ch2 sh2 :
  zlen ch1 < 2 ^ 64 -> zlen sh1 < 2 ^ 64 -> zlen ch2 < 2 ^ 64 -> zlen sh2 < 2 ^ 64 ->
  transcript_input ch1 sh1 = transcript_input ch2 sh2 -> ch1 = ch2 /\ sh1 = sh2.
Proof.
  intros B1 B2 B3 B4 E. unfold transcript_input in E.
  assert (forall ctx l p, write_transcript_part ctx l p = ctx ++ write_transcript_part [] l p) as Hw
    by done.
  rewrite (Hw (write_transcript_part _ _ ch1)), (Hw (write_transcript_part _ _ ch2)) in E.
  apply transcript_part_inj in E as [-> E]; [|done..].
  split; [done|]. rewrite <- (app_nil_r (write_transcript_part _ _ sh1)),
    <- (app_nil_r (write_transcript_part _ _ sh2)) in E.
  by apply transcript_part_inj in E as [-> _].
Qed.

Lemma transcript_input_injective_witness :
  transcript_input (as_bytes "ab") (as_bytes "c") <> transcript_input (as_bytes "a") (as_bytes "bc").
Proof.
  intros E. apply transcript_input_injective in E as [E _]; [discriminate E|..];
    vm_compute; reflexivity.
Defined.

Section crypto_laws.
Context `{!RingHash, !RingHashLaws}.

Lemma hkdf_expand_length fuel prk info okm prev counter out_len :
  (out_len < length okm + fuel)%nat ->
  (out_len <= length (hkdf_expand fuel prk info okm prev counter out_len))%nat.
Proof.
  revert okm prev counter; induction fuel as [|f IH]; intros okm prev counter Hlt; simpl; [lia|].
  case_decide; [|lia]. apply IH. rewrite length_app, hmac_length. lia.
Qed.

Lemma hkdf_length ikm salt info n : length (hkdf_sha256 ikm salt info n) = n.
Proof.
  unfold hkdf_sha256. rewrite length_take.
  pose proof (hkdf_expand_length (S n) (hmac_sha256 salt ikm) info [] [] 1 n ltac:(simpl; lia)).
  lia.
Qed.

Lemma hkdf_one_block prk info n : (0 < n <= 32)%nat ->
  take n (hkdf_expand (S n) prk info [] [] 1 n) = take n (hmac_sha256 prk (info ++ [Byte.x01])).
Proof.
  intros Hn. destruct n as [|n]; [lia|]. cbn [hkdf_expand].
  rewrite decide_True by (simpl; lia). rewrite !app_nil_l.
  by rewrite decide_False by (rewrite hmac_length; lia).
Qed.

Lemma derive_control_key_block base alg th dir :
  derive_control_key base alg th dir =
    hmac_sha256 (hmac_sha256 th base)
      (as_bytes (AEAD_CONTROL_HKDF_INFO_PREFIX +:+ " " +:+ alg +:+ " " +:+ dir) ++ [Byte.x01]).
Proof.
  unfold derive_control_key, hkdf_sha256, AEAD_KEY_SIZE.
  rewrite hkdf_one_block by lia. by rewrite firstn_all2 by (rewrite hmac_length; lia).
Qed.

(** A payload that fits a frame is hashed with its own length. *)
Lemma transcript_both_hellos cf sf : wf_frame cf -> wf_frame sf ->
  transcript_input (payload cf) (payload sf) = both_hellos (payload cf) (payload sf).
Proof.
  assert (forall f, wf_frame f -> wrap_u64 (zlen (payload f)) = zlen (payload f)) as Hw.
  { intros f (_ & _ & Hp). unfold DEFAULT_MAX_FRAME_PAYLOAD_SIZE in Hp.
    apply wrap_u64_small. unfold zlen in *. lia. }
  intros Hc Hs. unfold transcript_input, write_transcript_part, both_hellos.
  rewrite !Hw by done. by rewrite <- !app_assoc.
Qed.

(** The keys a role gets from a handshake. *)
Lemma control_keys_of_hellos base cf sf role : wf_frame cf -> wf_frame sf ->
  let key := direction_key base (payload cf) (payload sf) in
  control_keys_for_role base AEAD_ALGORITHM_AES_256_GCM
    (hash_crypto_transcript (payload cf) (payload sf)) role =
  match role with
  | Client => (key "server-to-client"%string, key "client-to-server"%string)
  | Server => (key "client-to-server"%string, key "server-to-client"%string)
  end.
Proof.
  intros Hc Hs key. unfold control_keys_for_role, derive_control_keys, hash_crypto_transcript.
  rewrite !derive_control_key_block, transcript_both_hellos by done. by destruct role.
Qed.

(** The key derivation is HKDF-SHA256 (RFC 5869) for the 32-byte keys the
    protocol uses: Extract is [HMAC(salt, ikm)], Expand is the single block
    [HMAC(prk, info || 0x01)]; each control key is 32 bytes long, and the two
    roles read with the key the other one writes with. *)
Theorem control_keys_hkdf base alg th :
  let prk := hmac_sha256 th base in
  let key dir := hmac_sha256 prk
    (as_bytes (AEAD_CONTROL_HKDF_INFO_PREFIX +:+ " " +:+ alg +:+ " " +:+ dir) ++ [Byte.x01]) in
  derive_control_keys base alg th = (key AEAD_DIRECTION_CLIENT_TO_SERVER, key AEAD_DIRECTION_SERVER_TO_CLIENT) /\
  control_keys_for_role base alg th Client
  = ((control_keys_for_role base alg th Server).2, (control_keys_for_role base alg th Server).1) /\
  (forall n ikm salt info, length (hkdf_sha256 ikm salt info n) = n).
Proof.
  intros prk key. split_and!; [|reflexivity|intros; apply hkdf_length].
  unfold derive_control_keys. by rewrite !derive_control_key_block.
Qed.

(** A hello of this implementation is accepted by this implementation. *)
Lemma new_server_hello_own cr sr b ch :
  length cr = CRYPTO_RANDOM_SIZE -> new_client_hello (Some cr) b = Ok ch ->
  exists sh, new_server_hello (Some sr) ch = Ok sh /\ error sh = EmptyString /\
    algorithm (sel_crypto (selected sh)) = AEAD_ALGORITHM_AES_256_GCM /\
    (length sr = CRYPTO_RANDOM_SIZE -> validate_server_hello_for_client ch sh = Ok tt).
Proof.
  intros Hc [= <-]. unfold new_server_hello, validate_client_hello, validate_crypto_capabilities.
  simpl. rewrite decide_False by tauto. simpl.
  eexists. split_and!; [reflexivity|done|done|]. intros Hs.
  unfold validate_server_hello_for_client, is_supported_aead_algorithm. simpl.
  by rewrite decide_False by tauto.
Qed.

(** C38: The two sides of a handshake agree.  When a client with base key [k]
    talks to a server with the same base key (any prefixes and random bytes of
    the right length, a JSON codec that reads back what it writes, payloads within
    a frame, transports that accept the bytes), both sides succeed; the client
    wrote the magic and its hello, the server wrote one reply, and neither consumed
    a byte after its peer's hello.  The key the client writes with and the server
    reads with, and the key of the other direction, are each HKDF-SHA256 of [k]
    with the hash of exactly the two hello payloads on the wire as salt and the
    direction in the expansion ([direction_key]); each has 32 bytes. *)
Theorem handshake_agrees `{!Json ClientHello, !Json ServerHello, !JsonLaws ClientHello, !JsonLaws ServerHello}
    k b cr sr pc ps ch sh cf sf rest_c rest_s mc ms :
  length cr = CRYPTO_RANDOM_SIZE -> length sr = CRYPTO_RANDOM_SIZE ->
  new_client_hello (Some cr) b = Ok ch -> new_server_hello (Some sr) ch = Ok sh ->
  frame_json FRAME_TYPE_CLIENT_HELLO ch = Ok cf -> frame_json FRAME_TYPE_SERVER_HELLO sh = Ok sf ->
  wf_frame cf -> wf_frame sf ->
  zlen (MAGIC_V2 ++ frame_bytes cf) <= mc -> zlen (frame_bytes sf) <= ms ->
  exists sc ss mc' ms',
    client_handshake (Some cr) (Some pc) k b (Conn (frame_bytes sf ++ rest_s) [] mc)
      = (Ok sc, Conn rest_s (MAGIC_V2 ++ frame_bytes cf) mc') /\
    server_handshake (Some sr) (Some ps) k (Conn (frame_bytes cf ++ rest_c) [] ms)
      = (Ok ss, Conn rest_c (frame_bytes sf) ms') /\
    let key := direction_key k (payload cf) (payload sf) in
    write_key sc = key "client-to-server"%string /\ read_key ss = key "client-to-server"%string /\
    write_key ss = key "server-to-client"%string /\ read_key sc = key "server-to-client"%string /\
    length (write_key sc) = 32%nat /\ length (write_key ss) = 32%nat.
Proof.
  intros Hcr Hsr Hch Hsh Hcf Hsf Wcf Wsf Hmc Hms.
  destruct (new_server_hello_own cr sr b ch Hcr Hch) as (sh' & Hsh' & Herr & Halg & Hval).
  rewrite Hsh in Hsh'. injection Hsh' as <-. specialize (Hval Hsr).
  assert (of_json (payload cf) = Ok ch /\ type_id cf = FRAME_TYPE_CLIENT_HELLO) as [Dc Tc].
  { unfold frame_json in Hcf. destruct (to_json ch) eqn:E; simpl in Hcf; simplify_eq.
    split; [by apply json_roundtrip|done]. }
  assert (of_json (payload sf) = Ok sh /\ type_id sf = FRAME_TYPE_SERVER_HELLO) as [Ds Ts].
  { unfold frame_json in Hsf. destruct (to_json sh) eqn:E; simpl in Hsf; simplify_eq.
    split; [by apply json_roundtrip|done]. }
  rewrite zlen_app in Hmc.
  set (th := hash_crypto_transcript (payload cf) (payload sf)).
  set (keys := control_keys_for_role k AEAD_ALGORITHM_AES_256_GCM th).
  assert (forall d, length (direction_key k (payload cf) (payload sf) d) = 32%nat) as Hlen
    by (intros; apply hmac_length).
  assert (forall r, keys r = match r with
    | Client => (direction_key k (payload cf) (payload sf) "server-to-client",
                 direction_key k (payload cf) (payload sf) "client-to-server")
    | Server => (direction_key k (payload cf) (payload sf) "client-to-server",
                 direction_key k (payload cf) (payload sf) "server-to-client")
    end) as Hk by (intros; by apply control_keys_of_hellos).
  assert (forall r, length (keys r).1 = 32%nat /\ length (keys r).2 = 32%nat) as L
    by (intros []; rewrite Hk; split; apply Hlen).
  assert (forall r p (c : conn), length (keys r).1 = 32%nat -> length (keys r).2 = 32%nat ->
    wrap_stream (keys r) (Some p) c
    = (Ok (EncryptedStream c (keys r).1 (keys r).2 p 0 [] 0 [] [] 0 None), c)) as Hwrap.
  { intros r p c E1 E2. unfold wrap_stream, new_directional.
    by rewrite !decide_False by tauto. }
  eexists _, _, _, _. split_and!.
  - unfold client_handshake.
    erewrite io_bind_eq by (apply io_map_err_Ok, write_all_fits; simpl;
      pose proof (Zle_0_nat (length (frame_bytes cf))); unfold zlen in *; lia).
    unfold lift. rewrite Hch. erewrite io_bind_eq by reflexivity.
    rewrite Hcf. erewrite io_bind_eq by reflexivity.
    erewrite io_bind_eq by (apply write_frame_fits; [done|simpl; lia]). simpl rx.
    erewrite io_bind_eq by (by apply read_frame_app).
    rewrite decide_False by (rewrite Ts; tauto).
    unfold frame_decode. rewrite Ds. erewrite io_bind_eq by reflexivity.
    rewrite Herr. simpl negb. cbv iota.
    unfold new_client_crypto_context. rewrite Dc, Ds. simpl.
    rewrite Hval. simpl. erewrite io_bind_eq by reflexivity. simpl.
    rewrite Halg. fold th. fold (keys Client). apply Hwrap; apply L.
  - unfold server_handshake.
    erewrite io_bind_eq by (by apply read_frame_app).
    rewrite decide_False by (rewrite Tc; tauto).
    unfold lift, frame_decode. rewrite Dc. erewrite io_bind_eq by reflexivity.
    rewrite Hsh, Hsf. erewrite io_bind_eq by reflexivity.
    erewrite io_bind_eq by (apply write_frame_fits; [done|simpl; lia]). simpl.
    rewrite Halg. fold th. fold (keys Server). apply Hwrap; apply L.
  - intros key. cbn [read_key write_key]. rewrite !Hk. split_and!; first [done|apply Hlen].
Qed.

Lemma io_bind_Err {E A B} (m : io E A) (f : A -> io E B) c e c1 :
  m c = (Err e, c1) -> (m ≫= f) c = (Err e, c1).
Proof. unfold mbind, io_bind. by intros ->. Qed.

Lemma validate_server_hello_Ok ch sh :
  validate_server_hello_for_client ch sh = Ok tt ->
  codec (sel_message (selected sh)) = MESSAGE_CODEC_JSON /\
  algorithm (sel_crypto (selected sh)) ∈ SUPPORTED_AEAD_ALGORITHMS /\
  algorithm (sel_crypto (selected sh)) ∈ algorithms (crypto (capabilities ch)) /\
  length (server_random (sel_crypto (selected sh))) = CRYPTO_RANDOM_SIZE /\
  (udp_packet_codec (sel_message (selected sh)) = EmptyString \/
   udp_packet_codec (sel_message (selected sh)) ∈ udp_packet_codecs (message (capabilities ch))).
Proof.
  unfold validate_server_hello_for_client, is_supported_aead_algorithm. intros E.
  destruct (decide (codec _ <> _)) as [|Hcodec]; [done|].
  match type of E with (?m ≫= _) = _ => destruct m as [[]|] eqn:Eu; simpl in E; [|done] end.
  destruct (bool_decide (_ ∈ SUPPORTED_AEAD_ALGORITHMS)) eqn:Es; simpl in E; [|done].
  destruct (bool_decide (_ ∈ algorithms _)) eqn:Ea; simpl in E; [|done].
  destruct (decide (length _ <> _)) as [|Hlen]; [done|].
  apply bool_decide_eq_true in Es, Ea.
  split_and!; try done.
  - by destruct (decide (codec (sel_message (selected sh)) = MESSAGE_CODEC_JSON)).
  - by destruct (decide (length (server_random (sel_crypto (selected sh))) = CRYPTO_RANDOM_SIZE)).
  - destruct (is_empty _) eqn:Ee; [left; by apply is_empty_true|right].
    case_decide; [done|]. case_bool_decide; done.
Qed.

Lemma wrap_stream_Ok keys prefix c s c' : wrap_stream keys prefix c = (Ok s, c') ->
  c' = c /\ (read_key s, write_key s) = keys.
Proof.
  unfold wrap_stream, new_directional. intros E. repeat case_decide; simplify_eq/=.
  destruct prefix; simplify_eq/=. by destruct keys.
Qed.

(** A client completes the handshake only on an acceptable answer: the
    reply it read is one well-formed ServerHello frame without an error, with
    the JSON codec, an algorithm that is both implemented and advertised in the
    client's own hello, and 32 bytes of server randomness; the stream's keys
    are those of the transcript it sent and received. *)
Theorem client_handshake_sound `{!Json ClientHello, !Json ServerHello, !JsonLaws ClientHello}
    cr prefix k b c s c' ch cf :
  new_client_hello cr b = Ok ch -> frame_json FRAME_TYPE_CLIENT_HELLO ch = Ok cf ->
  client_handshake cr prefix k b c = (Ok s, c') ->
  exists reply sh, rx c = frame_bytes reply ++ rx c' /\ wf_frame reply /\
    tx c' = tx c ++ MAGIC_V2 ++ frame_bytes cf /\
    of_json (payload reply) = Ok sh /\ error sh = EmptyString /\
    algorithm (sel_crypto (selected sh)) = AEAD_ALGORITHM_AES_256_GCM /\
    algorithm (sel_crypto (selected sh)) ∈ algorithms (crypto (capabilities ch)) /\
    length (server_random (sel_crypto (selected sh))) = CRYPTO_RANDOM_SIZE /\
    (read_key s, write_key s) = control_keys_for_role k AEAD_ALGORITHM_AES_256_GCM
      (hash_crypto_transcript (payload cf) (payload reply)) Client.
Proof.
  intros Hch Hcf E. unfold client_handshake in E.
  apply io_bind_Ok in E as ([] & c1 & E1 & E). apply io_map_err_Ok, write_all_Ok in E1.
  unfold lift in E. rewrite Hch in E. apply io_bind_Ok in E as (? & ? & [= <- <-] & E).
  rewrite Hcf in E. apply io_bind_Ok in E as (? & ? & [= <- <-] & E).
  assert (type_id cf = FRAME_TYPE_CLIENT_HELLO /\ of_json (payload cf) = Ok ch) as [Tc Dc].
  { unfold frame_json in Hcf. destruct (to_json ch) eqn:Ej; simpl in Hcf; simplify_eq.
    split; [done|by apply json_roundtrip]. }
  apply io_bind_Ok in E as ([] & c2 & E2 & E).
  destruct (write_frame_spec cf c1 ltac:(rewrite Tc; unfold FRAME_TYPE_CLIENT_HELLO; lia))
    as [_ Hw]. destruct (Hw _ _ E2) as (Htx & Hrx & _).
  apply io_bind_Ok in E as (reply & c3 & E3 & E). apply read_frame_iff in E3 as (Wr & Hr & Ht & _).
  case_decide; [done|]. apply io_bind_Ok in E as (sh & c4 & E4 & E).
  destruct (frame_decode reply) as [sh'|] eqn:Ed; [|done]. injection E4 as -> <-.
  unfold frame_decode in Ed. destruct (of_json (payload reply)) as [sh'|] eqn:Ds; [|done].
  injection Ed as ->. destruct (is_empty (error sh)) eqn:Ee; [simpl in E|done].
  apply is_empty_true in Ee.
  apply io_bind_Ok in E as (ctx & c5 & E5 & E). injection E5 as E5 <-.
  unfold new_client_crypto_context in E5. rewrite Dc, Ds in E5. simpl in E5.
  destruct (validate_server_hello_for_client ch sh) as [[]|] eqn:Ev; [|done].
  apply validate_server_hello_Ok in Ev as (_ & Hs & Ha & Hl & _). injection E5 as <-.
  apply list_elem_of_singleton in Hs.
  assert (c' = c3 /\ (read_key s, write_key s) = control_keys_for_role k AEAD_ALGORITHM_AES_256_GCM
      (hash_crypto_transcript (payload cf) (payload reply)) Client) as [-> Hk].
  { apply wrap_stream_Ok in E as [-> E]. split; [done|]. rewrite E. by rewrite <- Hs. }
  destruct E1 as (Er1 & Et1 & _).
  exists reply, sh. split_and!; try done.
  - by rewrite <- Er1, <- Hrx.
  - by rewrite Ht, Htx, Et1, app_assoc.
Qed.
End crypto_laws.

(** ** Concrete codec and hash for the witnesses

    A value is serialized as the bits of stdpp's [encode], one byte per bit. *)
Fixpoint pos_bytes (p : positive) : list byte :=
  match p with
  | xH => []
  | xO p => Byte.x00 :: pos_bytes p
  | xI p => Byte.x01 :: pos_bytes p
  end.

Fixpoint bytes_pos (l : list byte) : positive :=
  match l with
  | [] => xH
  | b :: l => if decide (b = Byte.x00) then xO (bytes_pos l) else xI (bytes_pos l)
  end.

#[global] Instance byte_countable : Countable byte.
Proof. apply (inj_countable Byte.to_N Byte.of_N). intros b. apply Byte.of_to_N. Defined.

Definition ch_tuple (h : ClientHello) :=
  (transport (bootstrap h), tls (bootstrap h), tcp_mux (bootstrap h),
   codecs (message (capabilities h)), udp_packet_codecs (message (capabilities h)),
   algorithms (crypto (capabilities h)), client_random (crypto (capabilities h))).

Definition tuple_ch (t : string * bool * bool * list string * list string * list string * list byte)
  : ClientHello :=
  let '(tr, tl, mx, cs, us, al, r) := t in
  {| bootstrap := {| transport := tr; tls := tl; tcp_mux := mx |};
     capabilities := {| message := {| codecs := cs; udp_packet_codecs := us |};
                        crypto := {| algorithms := al; client_random := r |} |} |}.

Definition sh_tuple (h : ServerHello) :=
  (codec (sel_message (selected h)), udp_packet_codec (sel_message (selected h)),
   algorithm (sel_crypto (selected h)), server_random (sel_crypto (selected h)), error h).

Definition tuple_sh (t : string * string * string * list byte * string) : ServerHello :=
  let '(c, u, a, r, e) := t in
  {| selected := {| sel_message := {| codec := c; udp_packet_codec := u |};
                    sel_crypto := {| algorithm := a; server_random := r |} |};
     error := e |}.

Definition toy_to_json {A B} `{Countable B} (f : A -> B) (a : A) : result string (list byte) :=
  Ok (pos_bytes (encode (f a))).
Definition toy_of_json {A B} `{Countable B} (g : B -> A) (l : list byte) : result string A :=
  ok_or "parse error"%string (g <$> decode (bytes_pos l)).

Lemma toy_json_roundtrip {A B} `{Countable B} (f : A -> B) (g : B -> A) a b :
  g (f a) = a -> toy_to_json f a = Ok b -> toy_of_json g b = Ok a.
Proof.
  intros Hg [= <-]. unfold toy_of_json.
  assert (forall p, bytes_pos (pos_bytes p) = p) as Hp
    by (intros p; induction p; simpl; congruence).
  by rewrite Hp, decode_encode; simpl; rewrite Hg.
Qed.

#[global] Instance toy_json_ch : Json ClientHello :=
  {| to_json := toy_to_json ch_tuple; of_json := toy_of_json tuple_ch |}.
#[global] Instance toy_json_sh : Json ServerHello :=
  {| to_json := toy_to_json sh_tuple; of_json := toy_of_json tuple_sh |}.
#[global] Instance toy_json_ch_laws : JsonLaws ClientHello.
Proof. split. intros [[] [[] []]] b. by apply toy_json_roundtrip. Qed.
#[global] Instance toy_json_sh_laws : JsonLaws ServerHello.
Proof. split. intros [[[] []] ] b. by apply toy_json_roundtrip. Qed.

(** A 32-byte checksum-like function in place of SHA-256 and HMAC. *)
Definition toy_hash (m : list byte) : list byte :=
  be_bytes 32 (foldl (fun a b => (a * 257 + b2z b + 1) mod 65536) 0 m).
#[global] Instance toy_ring : RingHash :=
  {| sha256 := toy_hash; hmac_sha256 k m := toy_hash (k ++ m) |}.
#[global] Instance toy_ring_laws : RingHashLaws.
Proof. split; intros; apply length_be_bytes. Qed.

Definition demo_bootstrap : BootstrapInfo :=
  {| transport := "tcp"; tls := true; tcp_mux := true |}.
Definition demo_random : list byte := replicate 32 (z2b 5).
Definition demo_ch : ClientHello :=
  match new_client_hello (Some demo_random) demo_bootstrap with
  | Ok h => h | Err _ => tuple_ch (EmptyString, false, false, [], [], [], []) end.
Definition demo_sh : ServerHello :=
  match new_server_hello (Some demo_random) demo_ch with
  | Ok h => h | Err _ => tuple_sh (EmptyString, EmptyString, EmptyString, [], EmptyString) end.
Definition demo_cf : frame := Frame FRAME_TYPE_CLIENT_HELLO 0 (pos_bytes (encode (ch_tuple demo_ch))).
Definition demo_sf : frame := Frame FRAME_TYPE_SERVER_HELLO 0 (pos_bytes (encode (sh_tuple demo_sh))).

Lemma demo_frames : wf_frame demo_cf /\ wf_frame demo_sf.
Proof. split; repeat split; vm_compute; intuition congruence. Qed.

Lemma handshake_agrees_witness : exists sc ss mc' ms',
  client_handshake (Some demo_random) (Some demo_prefix) demo_key demo_bootstrap
    (Conn (frame_bytes demo_sf ++ []) [] 100000)
  = (Ok sc, Conn [] (MAGIC_V2 ++ frame_bytes demo_cf) mc') /\
  server_handshake (Some demo_random) (Some demo_prefix) demo_key
    (Conn (frame_bytes demo_cf ++ []) [] 100000)
  = (Ok ss, Conn [] (frame_bytes demo_sf) ms') /\
  write_key sc = direction_key demo_key (payload demo_cf) (payload demo_sf) "client-to-server" /\
  read_key ss = direction_key demo_key (payload demo_cf) (payload demo_sf) "client-to-server".
Proof.
  destruct (handshake_agrees demo_key demo_bootstrap demo_random demo_random demo_prefix demo_prefix
    demo_ch demo_sh demo_cf demo_sf [] [] 100000 100000)
    as (sc & ss & mc' & ms' & Hc & Hs & H1 & H2 & _);
    [reflexivity|reflexivity|reflexivity|reflexivity|reflexivity|reflexivity|
     apply demo_frames|apply demo_frames|vm_compute; discriminate|vm_compute; discriminate|].
  exists sc, ss, mc', ms'. repeat split; assumption.
Defined.

Lemma client_handshake_sound_witness : exists reply,
  frame_bytes demo_sf = frame_bytes reply ++ [] /\ wf_frame reply.
Proof.
  pose (out := client_handshake (Some demo_random) (Some demo_prefix) demo_key demo_bootstrap
    (Conn (frame_bytes demo_sf) [] 100000)).
  assert (is_ok out.1 = true /\ rx out.2 = []) as [Hok Hrx0] by (vm_compute; split; reflexivity).
  assert (frame_json FRAME_TYPE_CLIENT_HELLO demo_ch = Ok demo_cf) as Hcf
    by (vm_compute; reflexivity).
  destruct out as [[s|e] c'] eqn:E; [|discriminate Hok].
  destruct (client_handshake_sound (Some demo_random) (Some demo_prefix) demo_key demo_bootstrap
    _ s c' demo_ch demo_cf eq_refl Hcf E) as (reply & sh & Hrx & Hw & _).
  exists reply. split; [|exact Hw]. simpl in Hrx0. rewrite Hrx0 in Hrx. exact Hrx.
Defined.

Lemma control_keys_hkdf_witness :
  length (derive_control_keys demo_key AEAD_ALGORITHM_AES_256_GCM demo_key).1 = 32%nat.
Proof.
  destruct (control_keys_hkdf demo_key AEAD_ALGORITHM_AES_256_GCM demo_key) as (-> & _ & _).
  reflexivity.
Defined.

(** The magic prefix is seven bytes, so it differs from a v1 length header. *)
Lemma magic_length : length MAGIC_V2 = 7%nat.
Proof. reflexivity. Qed.
