(* ===== verification/Secrets.v ===== *)
(** * Shared secrets and signatures

    Constant-time comparison (src/rust_frp_util/src/lib.rs), the HMAC signatures
    of src/rust_frp_auth/src/lib.rs, and the secret registry and visitor checks of
    src/rust_frp_server/src/secrets.rs.  HMAC-SHA256 is the interface [RingHash];
    base64 encoding is an argument; the clock reading is an argument. *)
From S2P Require Import Prelude RustStd Transport EncStream IoConn WireV2.

(** ** Comparison *)
Definition xor_or (diff : Z) (xy : byte * byte) : Z :=
  Z.lor diff (Z.lxor (b2z xy.1) (b2z xy.2)).

Definition constant_time_eq (a b : list byte) : bool :=
  if decide (length a <> length b) then false
  else bool_decide (foldl xor_or 0 (zip a b) = 0).

Definition str_eq_ct (a b : string) : bool := constant_time_eq (as_bytes a) (as_bytes b).

(** ** Signatures *)
Definition stcp_sign_message (proxy_name : string) (timestamp : Z) : string :=
  ("stcp:" +:+ proxy_name +:+ ":" +:+ dec timestamp)%string.

Definition stcp_visitor_message (proxy_name bridge_id run_id : string) (timestamp : Z) : string :=
  ("stcp:" +:+ proxy_name +:+ ":" +:+ bridge_id +:+ ":" +:+ run_id +:+ ":" +:+ dec timestamp)%string.

Definition stcp_work_message (bridge_id role run_id : string) : string :=
  ("stcp-work:" +:+ bridge_id +:+ ":" +:+ role +:+ ":" +:+ run_id)%string.

Section Signing.
Context `{RingHash} (b64 : list byte -> string).

Definition hmac_text (key msg : string) : string := b64 (hmac_sha256 (as_bytes key) (as_bytes msg)).

(** [TokenAuthVerifier::generate_sign] and [verify_login]. *)
Definition generate_sign (token : string) (timestamp : Z) : string :=
  hmac_text token (token +:+ dec timestamp)%string.

Definition verify_login (server_token token : string) : result string unit :=
  if str_eq_ct token server_token then Ok tt else Err "invalid token"%string.

Definition generate_stcp_sign_key (secret_key proxy_name : string) (timestamp : Z) : string :=
  hmac_text secret_key (stcp_sign_message proxy_name timestamp).

Definition generate_stcp_visitor_sign_key (secret_key proxy_name bridge_id run_id : string)
    (timestamp : Z) : string :=
  hmac_text secret_key (stcp_visitor_message proxy_name bridge_id run_id timestamp).

Definition generate_stcp_work_conn_sign_key (secret_key bridge_id role run_id : string) : string :=
  hmac_text secret_key (stcp_work_message bridge_id role run_id).

Definition STCP_SIGN_MAX_AGE_SECS : Z := 120.

(** [(now - timestamp).abs()] on [i64]. *)
Definition drift (now timestamp : Z) : Z := wrap_i64 (Z.abs (wrap_i64 (now - timestamp))).

Definition verify_stcp_visitor_sign (now : Z) (secret_key proxy_name : string) (timestamp : Z)
    (provided_sign : string) : bool :=
  if decide (STCP_SIGN_MAX_AGE_SECS < drift now timestamp) then false
  else str_eq_ct provided_sign (generate_stcp_sign_key secret_key proxy_name timestamp).

Definition verify_stcp_visitor_sign_with_bridge (now : Z)
    (secret_key proxy_name bridge_id run_id : string) (timestamp : Z) (provided_sign : string) : bool :=
  if decide (is_empty bridge_id = true \/ STCP_SIGN_MAX_AGE_SECS < drift now timestamp) then false
  else str_eq_ct provided_sign
         (generate_stcp_visitor_sign_key secret_key proxy_name bridge_id run_id timestamp).
End Signing.

(** ** ProxySecretRegistry *)
Definition ProxySecretRegistry := gmap string string.

Definition secret_register (r : ProxySecretRegistry) (proxy_name secret_key : string)
  : ProxySecretRegistry := <[proxy_name := secret_key]> r.
Definition secret_get (r : ProxySecretRegistry) (proxy_name : string) : option string :=
  r !! proxy_name.
Definition secret_remove (r : ProxySecretRegistry) (proxy_name : string) : ProxySecretRegistry :=
  delete proxy_name r.

(** ** Lemmas *)
Lemma lxor_zero x y : Z.lxor x y = 0 <-> x = y.
Proof. split; [apply Z.lxor_eq|intros ->; apply Z.lxor_nilpotent]. Qed.

Lemma foldl_xor_or acc l : foldl xor_or acc l = 0 <-> acc = 0 /\ Forall (fun xy => xy.1 = xy.2) l.
Proof.
  revert acc; induction l as [|[x y] l IH]; intros acc; simpl.
  { rewrite Forall_nil. tauto. }
  rewrite IH, Forall_cons. unfold xor_or at 1. simpl. rewrite Z.lor_eq_0_iff, lxor_zero.
  assert (b2z x = b2z y <-> x = y) as -> by (split; [apply b2z_inj|by intros ->]). tauto.
Qed.

Lemma zip_same {A} (a b : list A) : length a = length b ->
  Forall (fun xy => xy.1 = xy.2) (zip a b) <-> a = b.
Proof.
  revert b; induction a as [|x a IH]; intros [|y b] Hl; simpl in *; try done.
  rewrite Forall_cons, IH by lia. simpl. naive_solver.
Qed.

Lemma constant_time_eq_true a b : constant_time_eq a b = true <-> a = b.
Proof.
  unfold constant_time_eq. destruct (decide (length a <> length b)) as [Hl|Hl].
  { split; [done|]. intros ->. done. }
  assert (length a = length b) by lia.
  rewrite bool_decide_eq_true, foldl_xor_or, zip_same by done. tauto.
Qed.

Lemma as_bytes_inj a b : as_bytes a = as_bytes b -> a = b.
Proof.
  intros E. unfold as_bytes in E. apply (f_equal String.string_of_list_byte) in E.
  by rewrite !String.string_of_list_byte_of_string in E.
Qed.

Lemma str_eq_ct_true a b : str_eq_ct a b = true <-> a = b.
Proof.
  unfold str_eq_ct. rewrite constant_time_eq_true. split; [apply as_bytes_inj|by intros ->].
Qed.

Lemma drift_in_range now timestamp :
  0 <= now < 2 ^ 62 -> - 2 ^ 62 <= timestamp < 2 ^ 62 -> drift now timestamp = Z.abs (now - timestamp).
Proof.
  intros Hn Ht. unfold drift.
  assert (2 ^ 62 = 4611686018427387904) as E by reflexivity. rewrite E in *.
  rewrite (wrap_i64_small (now - timestamp)) by lia. rewrite wrap_i64_small; lia.
Qed.

Lemma colon_split a b c d : contains_char ":"%char a = false -> contains_char ":"%char c = false ->
  (a +:+ String ":" b = c +:+ String ":" d)%string -> a = c /\ b = d.
Proof.
  revert c; induction a as [|x a IH]; intros [|y c] Ha Hc; simpl in *.
  - by intros [= ->].
  - intros [= <- _]. by case_decide.
  - intros [= -> _]. by case_decide.
  - destruct (decide (x = ":"%char)), (decide (y = ":"%char)); try done.
    intros [= -> E]. destruct (IH c Ha Hc E) as [-> ->]. done.
Qed.

(** ** Theorems *)

(** A visitor is admitted exactly when its request names a bridge, its time
    stamp is at most 120 seconds from the server's clock, and its signature is the
    HMAC under the registered secret of that proxy, bridge, visitor and time. *)
Theorem visitor_sign_iff `{RingHash} b64 now secret proxy bridge run ts sign :
  0 <= now < 2 ^ 62 -> - 2 ^ 62 <= ts < 2 ^ 62 ->
  verify_stcp_visitor_sign_with_bridge b64 now secret proxy bridge run ts sign = true <->
  bridge <> EmptyString /\ now - 120 <= ts <= now + 120 /\
  sign = b64 (hmac_sha256 (as_bytes secret) (as_bytes (stcp_visitor_message proxy bridge run ts))).
Proof.
  intros Hn Ht. unfold verify_stcp_visitor_sign_with_bridge, STCP_SIGN_MAX_AGE_SECS.
  destruct (decide _) as [Hd|Hd]; rewrite is_empty_true, drift_in_range in Hd by done.
  - split; [done|]. intros (? & ? & _). destruct Hd; [done|lia].
  - rewrite str_eq_ct_true. split; [|tauto].
    intros ->. split_and!; [tauto|lia|lia|done].
Qed.

(** The signed text binds every component when none contains a colon: two
    requests with the same text agree on proxy, bridge and visitor.  With colons it
    does not: the text for a proxy named by the joined components is the same, so
    one signature serves requests for different proxies. *)
Theorem visitor_message_binding p b r ts p' b' r' ts' :
  Forall (fun s => contains_char ":"%char s = false) [p; b; r; p'; b'; r'] ->
  (stcp_visitor_message p b r ts = stcp_visitor_message p' b' r' ts' ->
     p = p' /\ b = b' /\ r = r' /\ dec ts = dec ts') /\
  stcp_sign_message (p +:+ ":" +:+ b +:+ ":" +:+ r) ts = stcp_visitor_message p b r ts /\
  stcp_visitor_message (p +:+ ":" +:+ b) b' r ts = stcp_visitor_message p (b +:+ ":" +:+ b') r ts.
Proof.
  intros Hc. rewrite !Forall_cons in Hc. destruct Hc as (Hp & Hb & Hr & Hp' & Hb' & Hr' & _).
  unfold stcp_visitor_message, stcp_sign_message. split_and!; [|by rewrite <- !str_app_assoc..].
  intros E. simpl in E. injection E as E.
  apply colon_split in E as [-> E]; [|done..]. apply colon_split in E as [-> E]; [|done..].
  by apply colon_split in E as [-> E].
Qed.

(** ** Witnesses *)
Definition toy_b64 (b : list byte) : string := of_bytes b.

Lemma visitor_sign_iff_witness :
  let sign := generate_stcp_visitor_sign_key toy_b64 "k" "ssh" "b1" "run" 1000 in
  verify_stcp_visitor_sign_with_bridge toy_b64 1100 "k" "ssh" "b1" "run" 1000 sign = true <->
  "b1"%string <> EmptyString /\ 1100 - 120 <= 1000 <= 1100 + 120 /\
  sign = toy_b64 (hmac_sha256 (as_bytes "k") (as_bytes (stcp_visitor_message "ssh" "b1" "run" 1000))).
Proof. intros sign. apply (visitor_sign_iff toy_b64); lia. Defined.

Lemma visitor_message_binding_witness :
  (stcp_visitor_message "ssh" "b1" "r" 7 = stcp_visitor_message "ssh" "b2" "r" 7 ->
     "ssh" = "ssh" /\ "b1" = "b2" /\ "r" = "r" /\ dec 7 = dec 7)%string /\
  stcp_sign_message ("ssh" +:+ ":" +:+ "b1" +:+ ":" +:+ "r")%string 7 = stcp_visitor_message "ssh" "b1" "r" 7 /\
  stcp_visitor_message ("ssh" +:+ ":" +:+ "b1")%string "b2" "r" 7 =
    stcp_visitor_message "ssh" ("b1" +:+ ":" +:+ "b2")%string "r" 7.
Proof. apply (visitor_message_binding "ssh" "b1" "r" 7 "ssh" "b2" "r" 7). by repeat constructor. Defined.
