(* ===== verification/Routers.v ===== *)
(** * Host routing (src/rust_frp_server/src/vhost.rs and tcpmux.rs)

    The virtual-host router of HTTP(S) proxies and the tcpmux router with its
    CONNECT request parser.  Both walk a hash map whose order is unspecified, so
    they take it from [HashIter]; base64 is an argument. *)
From S2P Require Import Prelude RustStd ConfigTypes Secrets.

(** ** HttpVhostRouter *)
Record vhost_router := {
  domain_map : gmap string string;
  vhost_configs : gmap string ProxyConfig;
}.

Definition vhost_new : vhost_router := {| domain_map := ∅; vhost_configs := ∅ |}.

Definition register_proxy (r : vhost_router) (proxy_name : string) (domains : list string)
    (config : ProxyConfig) : vhost_router :=
  {| domain_map := foldl (fun m d => <[d := proxy_name]> m) (domain_map r) domains;
     vhost_configs := <[proxy_name := config]> (vhost_configs r) |}.

Definition unregister_proxy (r : vhost_router) (proxy_name : string) : vhost_router :=
  {| domain_map := filter (fun kv => kv.2 <> proxy_name) (domain_map r);
     vhost_configs := delete proxy_name (vhost_configs r) |}.

Definition find_proxy_by_host `{HashIter} (r : vhost_router) (host : string) : option string :=
  match domain_map r !! host with
  | Some proxy_name => Some proxy_name
  | None => snd <$> List.find (fun kv => ends_with kv.1 host) (hash_iter (domain_map r))
  end.

Definition vhost_proxy_config (r : vhost_router) (proxy_name : string) : option ProxyConfig :=
  vhost_configs r !! proxy_name.

(** ** TcpMuxRouter *)
Record TcpMuxRoute := {
  rt_proxy_name : string;
  rt_http_user : option string;
  rt_http_password : option string;
  rt_route_by_http_user : option string;
}.

Inductive RouteOutcome :=
| NotFound
| Unauthorized
| Matched (route : TcpMuxRoute).

Record tcpmux_router := {
  routes : gmap string (list TcpMuxRoute);
  proxy_domains : gmap string (list string);
}.

Definition tcpmux_new : tcpmux_router := {| routes := ∅; proxy_domains := ∅ |}.

(** The entry of one domain: earlier routes of the proxy go, the new one is last. *)
Definition add_route (route : TcpMuxRoute) (m : gmap string (list TcpMuxRoute)) (domain : string)
  : gmap string (list TcpMuxRoute) :=
  let list := default [] (m !! domain) in
  <[domain := filter (fun r => rt_proxy_name r <> rt_proxy_name route) list ++ [route]]> m.

Definition tcpmux_register (t : tcpmux_router) (domains : list string) (route : TcpMuxRoute)
  : tcpmux_router :=
  {| routes := foldl (add_route route) (routes t) domains;
     proxy_domains := <[rt_proxy_name route := domains]> (proxy_domains t) |}.

Definition drop_route (proxy_name : string) (m : gmap string (list TcpMuxRoute)) (domain : string)
  : gmap string (list TcpMuxRoute) :=
  match m !! domain with
  | None => m
  | Some list =>
      match filter (fun r => rt_proxy_name r <> proxy_name) list with
      | [] => delete domain m
      | list => <[domain := list]> m
      end
  end.

Definition tcpmux_unregister (t : tcpmux_router) (proxy_name : string) : tcpmux_router :=
  match proxy_domains t !! proxy_name with
  | None => t
  | Some domains =>
      {| routes := foldl (drop_route proxy_name) (routes t) domains;
         proxy_domains := delete proxy_name (proxy_domains t) |}
  end.

Definition credential_match (route : TcpMuxRoute) (user password : option string) : bool :=
  let expect_user := default EmptyString (rt_http_user route) in
  let expect_password := default EmptyString (rt_http_password route) in
  if is_empty expect_user && is_empty expect_password then true else
  str_eq_ct (default EmptyString user) expect_user &&
  str_eq_ct (default EmptyString password) expect_password.

Definition candidates `{HashIter} (t : tcpmux_router) (domain : string) : list TcpMuxRoute :=
  match default [] (routes t !! domain) with
  | [] => concat (map snd (filter (fun kv => ends_with kv.1 domain = true) (hash_iter (routes t))))
  | exact => exact
  end.

Definition admits_user (user : option string) (r : TcpMuxRoute) : bool :=
  match rt_route_by_http_user r with
  | Some expected => bool_decide (user = Some expected)
  | None => true
  end.

Definition resolve `{HashIter} (t : tcpmux_router) (domain : string) (user password : option string)
  : RouteOutcome :=
  let cs := candidates t domain in
  if decide (cs = []) then NotFound else
  let cs := filter (fun r => admits_user user r = true) cs in
  if decide (cs = []) then NotFound else
  match List.find (fun r => credential_match r user password) cs with
  | Some route => Matched route
  | None => Unauthorized
  end.

(** ** CONNECT requests *)
Record ConnectRequest := {
  cr_host : string;
  cr_user : option string;
  cr_password : option string;
}.

(** [s.split(pat)] for a non-empty pattern; each piece consumes input, so the
    length is enough fuel. *)
Fixpoint split_str_fuel (fuel : nat) (pat s : string) : list string :=
  match fuel, split_once pat s with
  | S fuel, Some (piece, rest) => piece :: split_str_fuel fuel pat rest
  | _, _ => [s]
  end.
Definition split_str (pat s : string) : list string := split_str_fuel (String.length s) pat s.

Definition strip_port (value : string) : string :=
  trim (default value (head (split_char ":"%char value))).

Section Connect.
(** [STANDARD.decode] followed by [String::from_utf8]. *)
Context (b64_text : string -> option string).

Definition parse_basic_credentials (value : string) : option (string * string) :=
  '(scheme, encoded) ← split_once " " value;
  if negb (eq_ignore_ascii_case scheme "basic") then None else
  text ← b64_text (trim encoded);
  split_once ":" text.

Record connect_headers := {
  ch_host : string;
  ch_user : option string;
  ch_password : option string;
}.

(** One header line. *)
Definition connect_header (h : connect_headers) (line : string) : connect_headers :=
  match split_once ":" line with
  | None => h
  | Some (key, value) =>
      let value := trim value in
      let key := to_ascii_lowercase (trim key) in
      if decide (key = "host"%string) then
        {| ch_host := strip_port value; ch_user := ch_user h; ch_password := ch_password h |}
      else if decide (key = "proxy-authorization"%string) then
        match parse_basic_credentials value with
        | Some (u, p) => {| ch_host := ch_host h; ch_user := Some u; ch_password := Some p |}
        | None => h
        end
      else h
  end.

(** The lines up to the first empty one. *)
Fixpoint connect_header_lines (h : connect_headers) (lines : list string) : connect_headers :=
  match lines with
  | [] => h
  | line :: lines =>
      if is_empty line then h else connect_header_lines (connect_header h line) lines
  end.

(** The head is the text [from_utf8_lossy] gives. *)
Definition parse_connect_request (text : string) : option ConnectRequest :=
  match split_str crlf text with
  | [] => None
  | request_line :: lines =>
      match split_whitespace request_line with
      | method :: target :: version :: _ =>
          if negb (eq_ignore_ascii_case method "CONNECT") || negb (starts_with "HTTP/" version)
          then None else
          let h := connect_header_lines
                     {| ch_host := EmptyString; ch_user := None; ch_password := None |} lines in
          let host := if is_empty target then ch_host h else strip_port target in
          if is_empty host then None else
          Some {| cr_host := host; cr_user := ch_user h; cr_password := ch_password h |}
      | _ => None
      end
  end.
End Connect.

(** [find_head_end]: the index after the first blank line. *)
Definition is_blank (w : list byte) : bool :=
  bool_decide (w = [Byte.x0d; Byte.x0a; Byte.x0d; Byte.x0a]).

Fixpoint find_head_end (buf : list byte) : option nat :=
  match buf with
  | [] => None
  | _ :: buf' => if is_blank (take 4 buf) then Some 4%nat else S <$> find_head_end buf'
  end.

(** ** Invariants and specifications *)

(** Every route is known to the domain list of its proxy, so that unregistering
    the proxy finds it. *)
Definition tcpmux_inv (t : tcpmux_router) : Prop :=
  forall d l r, routes t !! d = Some l -> r ∈ l ->
    exists ds, proxy_domains t !! rt_proxy_name r = Some ds /\ d ∈ ds.

(** A route a CONNECT request may use. *)
Definition route_admits (r : TcpMuxRoute) (user password : option string) : Prop :=
  (forall u, rt_route_by_http_user r = Some u -> user = Some u) /\
  (default EmptyString (rt_http_user r) = EmptyString /\
   default EmptyString (rt_http_password r) = EmptyString \/
   default EmptyString user = default EmptyString (rt_http_user r) /\
   default EmptyString password = default EmptyString (rt_http_password r)).

(** The routes of a domain: those registered for exactly it, or for a suffix. *)
Definition serves (t : tcpmux_router) (domain : string) (r : TcpMuxRoute) : Prop :=
  exists d l, routes t !! d = Some l /\ r ∈ l /\ (d = domain \/ exists p, domain = (p +:+ d)%string).

(** ** Lemmas *)
Lemma foldl_insert_lookup (m : gmap string string) name ds d :
  foldl (fun m d => <[d := name]> m) m ds !! d = if decide (d ∈ ds) then Some name else m !! d.
Proof.
  revert m; induction ds as [|x ds IH]; intros m; cbn [foldl].
  { rewrite decide_False; [done|]. apply not_elem_of_nil. }
  rewrite IH. destruct (decide (d ∈ ds)) as [Hd|Hd].
  - rewrite decide_True; [done|]. by right.
  - destruct (decide (d = x)) as [->|Hne].
    + rewrite lookup_insert_eq, decide_True; [done|]. by left.
    + rewrite lookup_insert_ne by done. rewrite decide_False; [done|].
      rewrite elem_of_cons. tauto.
Qed.

Section Routing.
Context `{HashIterLaws}.

Lemma find_hash_iter (m : gmap string string) f kv :
  List.find f (hash_iter m) = Some kv -> m !! kv.1 = Some kv.2 /\ f kv = true.
Proof.
  intros E. apply List.find_some in E as [Hin Hf]. apply list_elem_of_In in Hin.
  destruct kv as [k v]. by apply hash_iter_elem in Hin.
Qed.

Lemma find_proxy_by_host_Some r host name : find_proxy_by_host r host = Some name ->
  exists d, domain_map r !! d = Some name /\ (d = host \/ exists p, host = (p +:+ d)%string).
Proof.
  unfold find_proxy_by_host. destruct (domain_map r !! host) as [n|] eqn:E; [naive_solver|].
  rewrite fmap_Some. intros ([d n] & Hf & ->). apply find_hash_iter in Hf as [Hd He].
  apply ends_with_true in He. eauto.
Qed.

Lemma candidates_serve t domain r : r ∈ candidates t domain -> serves t domain r.
Proof.
  unfold candidates. destruct (routes t !! domain) as [[|r0 l]|] eqn:E; simpl.
  2:{ intros Hr. exists domain, (r0 :: l). eauto. }
  all: intros Hr; apply list_elem_of_In, in_concat in Hr as (l' & Hl & Hr);
    apply list_elem_of_In in Hl, Hr; apply list_elem_of_fmap in Hl as ([d l] & -> & Hd);
    apply list_elem_of_filter in Hd as [He Hd]; apply hash_iter_elem in Hd;
    apply ends_with_true in He; exists d, l; eauto.
Qed.
End Routing.

Lemma admits_user_true user r : admits_user user r = true <->
  (forall u, rt_route_by_http_user r = Some u -> user = Some u).
Proof.
  unfold admits_user. destruct (rt_route_by_http_user r) as [u|]; [|naive_solver].
  rewrite bool_decide_eq_true. naive_solver.
Qed.

Lemma credential_match_true r user password : credential_match r user password = true <->
  default EmptyString (rt_http_user r) = EmptyString /\
  default EmptyString (rt_http_password r) = EmptyString \/
  default EmptyString user = default EmptyString (rt_http_user r) /\
  default EmptyString password = default EmptyString (rt_http_password r).
Proof.
  unfold credential_match. destruct (is_empty (default EmptyString (rt_http_user r))) eqn:E1,
    (is_empty (default EmptyString (rt_http_password r))) eqn:E2; simpl;
    rewrite ?andb_true_iff, ?str_eq_ct_true;
    rewrite is_empty_true in * || rewrite is_empty_false in *;
    rewrite ?is_empty_true, ?is_empty_false in *; tauto.
Qed.

(** *** The tcpmux table *)
Lemma add_routes_lookup route ds m d r l :
  foldl (add_route route) m ds !! d = Some l -> r ∈ l ->
  r = route /\ d ∈ ds \/
  (exists l', m !! d = Some l' /\ r ∈ l') /\ (d ∈ ds -> rt_proxy_name r <> rt_proxy_name route).
Proof.
  revert m l; induction ds as [|x ds IH]; intros m l; simpl.
  { intros Hl Hr. right. split; [eauto|]. by rewrite elem_of_nil. }
  intros Hl Hr. destruct (IH _ _ Hl Hr) as [[-> Hd]|[(l' & Hl' & Hr') Hd]].
  { left. split; [done|by right]. }
  unfold add_route in Hl'. destruct (decide (x = d)) as [->|Hne].
  - rewrite lookup_insert_eq in Hl'. injection Hl' as <-.
    apply elem_of_app in Hr' as [Hr'|Hr'].
    + apply list_elem_of_filter in Hr' as [Hn Hr']. right.
      split; [|done]. destruct (m !! d) as [l'|]; simpl in Hr'; [eauto|by apply elem_of_nil in Hr'].
    + apply list_elem_of_singleton in Hr' as ->. left. split; [done|by left].
  - rewrite lookup_insert_ne in Hl' by done. right. split; [eauto|].
    rewrite elem_of_cons. intros [->|?]; [done|auto].
Qed.

Lemma drop_route_lookup name m x d l r :
  drop_route name m x !! d = Some l -> r ∈ l ->
  (exists l', m !! d = Some l' /\ r ∈ l') /\ (d = x -> rt_proxy_name r <> name).
Proof.
  unfold drop_route. destruct (m !! x) as [lx|] eqn:Ex.
  - destruct (filter _ lx) as [|y ly] eqn:Ef; (destruct (decide (x = d)) as [->|Hne];
      [rewrite ?lookup_delete_eq, ?lookup_insert_eq|rewrite ?lookup_delete_ne, ?lookup_insert_ne by done]);
      try (by eauto); try (intros ? ?; split; [by eauto|congruence]).
    intros [= <-] Hr. rewrite <- Ef in Hr. apply list_elem_of_filter in Hr as [Hn Hr]. eauto.
  - intros Hl Hr. split; [eauto|]. intros ->. congruence.
Qed.

Lemma drop_routes_lookup name ds m d l r :
  foldl (drop_route name) m ds !! d = Some l -> r ∈ l ->
  (exists l', m !! d = Some l' /\ r ∈ l') /\ (d ∈ ds -> rt_proxy_name r <> name).
Proof.
  revert m l; induction ds as [|x ds IH]; intros m l; simpl.
  { intros Hl Hr. split; [eauto|]. by rewrite elem_of_nil. }
  intros Hl Hr. destruct (IH _ _ Hl Hr) as [(l' & Hl' & Hr') Hd].
  destruct (drop_route_lookup _ _ _ _ _ _ Hl' Hr') as [Hm Hx]. split; [done|].
  rewrite elem_of_cons. intros [->|?]; auto.
Qed.

Lemma tcpmux_unregister_routes t name d l r : tcpmux_inv t ->
  routes (tcpmux_unregister t name) !! d = Some l -> r ∈ l ->
  rt_proxy_name r <> name /\ exists l', routes t !! d = Some l' /\ r ∈ l'.
Proof.
  intros Hinv. unfold tcpmux_unregister. destruct (proxy_domains t !! name) as [ds|] eqn:Ed; simpl.
  - intros Hl Hr. destruct (drop_routes_lookup _ _ _ _ _ _ Hl Hr) as [(l' & Hl' & Hr') Hd].
    split; [|eauto]. intros Hn. destruct (Hinv _ _ _ Hl' Hr') as (ds' & Hds & Hin).
    rewrite Hn, Ed in Hds. injection Hds as <-. by apply Hd.
  - intros Hl Hr. split; [|eauto]. intros Hn. destruct (Hinv _ _ _ Hl Hr) as (ds' & Hds & _).
    by rewrite Hn, Ed in Hds.
Qed.

Lemma tcpmux_inv_register t ds route : tcpmux_inv t ->
  proxy_domains t !! rt_proxy_name route = None -> tcpmux_inv (tcpmux_register t ds route).
Proof.
  intros Hinv Hfresh d l r Hl Hr. simpl in *.
  destruct (add_routes_lookup _ _ _ _ _ _ Hl Hr) as [[-> Hd]|[(l' & Hl' & Hr') _]].
  - exists ds. by rewrite lookup_insert_eq.
  - destruct (Hinv _ _ _ Hl' Hr') as (ds' & Hds & Hin). exists ds'.
    rewrite lookup_insert_ne; [done|]. intros E. rewrite E in Hfresh. congruence.
Qed.

Lemma tcpmux_inv_unregister t name : tcpmux_inv t -> tcpmux_inv (tcpmux_unregister t name).
Proof.
  intros Hinv d l r Hl Hr. destruct (tcpmux_unregister_routes _ _ _ _ _ Hinv Hl Hr) as (Hn & l' & Hl' & Hr').
  destruct (Hinv _ _ _ Hl' Hr') as (ds & Hds & Hin). exists ds. split; [|done].
  unfold tcpmux_unregister. destruct (proxy_domains t !! name); [|done]. simpl.
  by rewrite lookup_delete_ne.
Qed.

(** ** Theorems *)

(** Every registered domain routes to the proxy that registered it last; an
    unregistered proxy is never chosen again, whatever the host, and the exact
    domains of the others still route to them. *)
Theorem vhost_register_unregister `{HashIterLaws} r name domains config host :
  (host ∈ domains -> find_proxy_by_host (register_proxy r name domains config) host = Some name) /\
  find_proxy_by_host (unregister_proxy r name) host <> Some name /\
  (forall other, domain_map r !! host = Some other -> other <> name ->
     find_proxy_by_host (unregister_proxy r name) host = Some other).
Proof.
  split_and!.
  - intros Hd. unfold find_proxy_by_host. simpl. by rewrite foldl_insert_lookup, decide_True.
  - intros Hf. apply find_proxy_by_host_Some in Hf as (d & Hd & _).
    by apply map_lookup_filter_Some in Hd as [_ ?].
  - intros other Ho Hne. unfold find_proxy_by_host. simpl.
    by rewrite (proj2 (map_lookup_filter_Some _ _ _ _) (conj Ho Hne)).
Qed.

(** A registered wildcard domain is compared literally: when every domain in
    the table starts with a wildcard label, no host a browser can send is routed. *)
Theorem wildcard_never_routes `{HashIterLaws} r host :
  (forall d n, domain_map r !! d = Some n -> starts_with "*." d = true) ->
  contains_char "*"%char host = false -> find_proxy_by_host r host = None.
Proof.
  intros Hw Hh. destruct (find_proxy_by_host r host) as [name|] eqn:E; [|done].
  apply find_proxy_by_host_Some in E as (d & Hd & Hs). specialize (Hw _ _ Hd).
  apply starts_with_true in Hw as [b ->]. exfalso.
  destruct Hs as [<-|[p ->]]; rewrite ?contains_char_app in Hh; simpl in Hh;
    by rewrite ?orb_true_r in Hh.
Qed.

(** The suffix match has no label boundary. *)
Theorem suffix_match_crosses_labels :
  let r := register_proxy vhost_new "shop" ["example.com"%string] default_proxy in
  @find_proxy_by_host map_order r "notexample.com" = Some "shop"%string.
Proof. vm_compute. reflexivity. Qed.

(** tcpmux hands a connection only to a route registered for the domain or a
    suffix of it, whose user restriction admits the user and whose credentials,
    when it has any, are the ones given; and it answers 404 only when no candidate
    admits the user, 407 only when some candidate does but none with these
    credentials. *)
Theorem tcpmux_resolve_spec `{HashIterLaws} t domain user password :
  match resolve t domain user password with
  | Matched r => serves t domain r /\ route_admits r user password
  | Unauthorized =>
      (exists r, r ∈ candidates t domain /\ admits_user user r = true) /\
      forall r, r ∈ candidates t domain -> ~ route_admits r user password
  | NotFound => forall r, r ∈ candidates t domain -> ~ route_admits r user password
  end.
Proof.
  unfold resolve. set (cs := candidates t domain).
  destruct (decide (cs = [])) as [->|_]; [intros r; by rewrite elem_of_nil|].
  destruct (decide (filter _ cs = [])) as [Ef|Ef].
  { intros r Hr [Hu _]. apply admits_user_true in Hu.
    assert (r ∈ filter (fun r => admits_user user r = true) cs) as Hin by (by apply list_elem_of_filter).
    rewrite Ef in Hin. by apply elem_of_nil in Hin. }
  destruct (List.find _ _) as [r|] eqn:E.
  - apply List.find_some in E as [Hin Hc]. apply list_elem_of_In, list_elem_of_filter in Hin as [Hu Hin].
    split; [by apply candidates_serve|]. split; [by apply admits_user_true|by apply credential_match_true].
  - split.
    + destruct (filter _ cs) as [|r l] eqn:Ec; [done|]. exists r.
      assert (r ∈ r :: l) as Hin by by left. rewrite <- Ec in Hin.
      apply list_elem_of_filter in Hin. tauto.
    + intros r Hr [Hu Hc]. apply admits_user_true in Hu. apply credential_match_true in Hc.
      eapply List.find_none in E; [rewrite Hc in E; done|].
      by apply list_elem_of_In, list_elem_of_filter.
Qed.

(** ** Witnesses *)
Definition wild_router : vhost_router :=
  register_proxy vhost_new "wild" ["*.example.com"%string] default_proxy.

Lemma vhost_register_unregister_witness :
  ("a.com" ∈ ["a.com"; "b.com"] ->
     @find_proxy_by_host map_order (register_proxy wild_router "web" ["a.com"; "b.com"] default_proxy)
       "a.com" = Some "web")%string /\
  @find_proxy_by_host map_order (unregister_proxy wild_router "web") "a.com" <> Some "web"%string /\
  (forall other, domain_map wild_router !! "a.com"%string = Some other -> other <> "web"%string ->
     @find_proxy_by_host map_order (unregister_proxy wild_router "web") "a.com" = Some other).
Proof. apply (@vhost_register_unregister map_order map_order_laws). Defined.

Lemma wildcard_never_routes_witness :
  domain_map wild_router !! "*.example.com"%string = Some "wild"%string /\
  @find_proxy_by_host map_order wild_router "www.example.com" = None.
Proof.
  split; [vm_compute; reflexivity|].
  apply (@wildcard_never_routes map_order map_order_laws); [|reflexivity].
  intros d n. unfold wild_router. cbn [register_proxy domain_map foldl vhost_new].
  rewrite lookup_insert_Some, lookup_empty. intros [[<- _]|[_ ?]]; [reflexivity|done].
Defined.

Lemma tcpmux_resolve_spec_witness :
  let r := {| rt_proxy_name := "db"; rt_http_user := Some "bob"; rt_http_password := Some "pw";
              rt_route_by_http_user := None |}%string in
  let t := tcpmux_register tcpmux_new ["db.example.com"%string] r in
  @resolve map_order t "db.example.com" (Some "bob"%string) (Some "pw"%string) = Matched r /\
  @resolve map_order t "db.example.com" (Some "bob"%string) (Some "no"%string) = Unauthorized /\
  match @resolve map_order t "db.example.com" (Some "bob"%string) (Some "pw"%string) with
  | Matched r => serves t "db.example.com" r /\ route_admits r (Some "bob"%string) (Some "pw"%string)
  | Unauthorized =>
      (exists r, r ∈ @candidates map_order t "db.example.com" /\ admits_user (Some "bob"%string) r = true) /\
      forall r, r ∈ @candidates map_order t "db.example.com" -> ~ route_admits r (Some "bob"%string) (Some "pw"%string)
  | NotFound => forall r, r ∈ @candidates map_order t "db.example.com" ->
      ~ route_admits r (Some "bob"%string) (Some "pw"%string)
  end.
Proof.
  intros r t. split_and!; [vm_compute; reflexivity..|].
  apply (@tcpmux_resolve_spec map_order map_order_laws).
Defined.
