(* ===== verification/Groups.v ===== *)
(** * Load-balancing groups (src/rust_frp_server/src/proxy_manager.rs, GroupRegistry)

    The two tables of the registry.  [join] takes the read lock of [group_ports]
    for its name check and releases it before it takes the write lock of
    [groups]: the two critical sections are two definitions, and [join] is their
    composition when nobody else runs in between. *)
From S2P Require Import Prelude RustStd.

Record GroupState := {
  group : string;
  group_key : string;
  members : list string;
  rr_index : Z;
}.

Record GroupRegistry := {
  groups : gmap Z GroupState;
  group_ports : gmap string Z;
}.

Definition registry_new : GroupRegistry := {| groups := ∅; group_ports := ∅ |}.

Definition group_listener_key (port : Z) : string :=
  ("__group_port_" +:+ dec port +:+ "__")%string.

(** The first critical section of [join]: one name, one port. *)
Definition join_check (g : GroupRegistry) (name : string) (port : Z) : result string unit :=
  match group_ports g !! name with
  | Some bound =>
      if decide (bound <> port) then
        Err ("group [" +:+ name +:+ "] is bound to port " +:+ dec bound +:+ ", cannot join port "
               +:+ dec port)%string
      else Ok tt
  | None => Ok tt
  end.

Definition with_members (s : GroupState) (m : list string) : GroupState :=
  {| group := group s; group_key := group_key s; members := m; rr_index := rr_index s |}.

(** The second one; [true] means first member. *)
Definition join_commit (g : GroupRegistry) (name key : string) (port : Z) (proxy_name : string)
  : result string bool * GroupRegistry :=
  match groups g !! port with
  | Some state =>
      if decide (group state <> name) then
        (Err ("port " +:+ dec port +:+ " is already bound by group [" +:+ group state +:+ "]")%string, g)
      else if decide (group_key state <> key) then
        (Err ("group [" +:+ name +:+ "] auth failed: group_key mismatch")%string, g)
      else
        (Ok false,
         {| groups := <[port := with_members state (members state ++ [proxy_name])]> (groups g);
            group_ports := group_ports g |})
  | None =>
      (Ok true,
       {| groups := <[port := {| group := name; group_key := key; members := [proxy_name];
                                 rr_index := 0 |}]> (groups g);
          group_ports := <[name := port]> (group_ports g) |})
  end.

Definition join (g : GroupRegistry) (name key : string) (port : Z) (proxy_name : string)
  : result string bool * GroupRegistry :=
  match join_check g name port with
  | Err e => (Err e, g)
  | Ok _ => join_commit g name key port proxy_name
  end.

(** [true] means the group is empty now. *)
Definition leave (g : GroupRegistry) (port : Z) (proxy_name : string) : bool * GroupRegistry :=
  match groups g !! port with
  | None => (false, g)
  | Some state =>
      match filter (fun m => m <> proxy_name) (members state) with
      | [] => (true, {| groups := delete port (groups g);
                        group_ports := delete (group state) (group_ports g) |})
      | ms => (false, {| groups := <[port := with_members state ms]> (groups g);
                         group_ports := group_ports g |})
      end
  end.

(** Round robin; the index is a wrapping [usize]. *)
Definition pick (g : GroupRegistry) (port : Z) : option string * GroupRegistry :=
  match groups g !! port with
  | None => (None, g)
  | Some state =>
      if decide (members state = []) then (None, g) else
      let name := members state !! Z.to_nat (rr_index state mod zlen (members state)) in
      (name,
       {| groups := <[port := {| group := group state; group_key := group_key state;
                                 members := members state;
                                 rr_index := wrap_u64 (rr_index state + 1) |}]> (groups g);
          group_ports := group_ports g |})
  end.

Definition member_count (g : GroupRegistry) (port : Z) : Z :=
  match groups g !! port with Some s => zlen (members s) | None => 0 end.

(** ** Specification *)

(** A group name has one port, a port one group, and no group is empty. *)
Record registry_inv (g : GroupRegistry) : Prop := {
  gi_index : forall name port, group_ports g !! name = Some port <->
    exists s, groups g !! port = Some s /\ group s = name;
  gi_members : forall port s, groups g !! port = Some s -> members s <> [];
  gi_rr : forall port s, groups g !! port = Some s -> 0 <= rr_index s;
}.

(** The members the next [n] connections go to. *)
Fixpoint picks (g : GroupRegistry) (port : Z) (n : nat) : list (option string) :=
  match n with
  | O => []
  | S n => let '(m, g) := pick g port in m :: picks g port n
  end.

(** ** Lemmas *)
Lemma registry_inv_new : registry_inv registry_new.
Proof.
  constructor; intros *; simpl; rewrite ?lookup_empty; [|done..].
  split; [done|]. by intros (s & ? & _).
Qed.

(** Replacing a group by one of the same name keeps the index. *)
Lemma registry_inv_update g port s s' : registry_inv g -> groups g !! port = Some s ->
  group s' = group s -> members s' <> [] -> 0 <= rr_index s' ->
  registry_inv {| groups := <[port := s']> (groups g); group_ports := group_ports g |}.
Proof.
  intros [Hi Hm Hr] Hs Hg Hne Hrr. constructor; simpl.
  - intros name p. rewrite Hi. destruct (decide (port = p)) as [->|Hp].
    + rewrite lookup_insert_eq, Hs. naive_solver congruence.
    + by rewrite lookup_insert_ne.
  - intros p x. rewrite lookup_insert_Some. naive_solver.
  - intros p x. rewrite lookup_insert_Some. naive_solver.
Qed.

Lemma join_inv g name key port proxy : registry_inv g -> registry_inv (join g name key port proxy).2.
Proof.
  intros Hinv. unfold join. destruct (join_check g name port) as [[]|] eqn:Ec; [|done].
  unfold join_commit. destruct (groups g !! port) as [s|] eqn:Es.
  - destruct (decide (group s <> name)); [done|]. destruct (decide (group_key s <> key)); [done|].
    simpl. eapply registry_inv_update; [done|done|done| |exact (gi_rr g Hinv port s Es)]. simpl.
    intros E. by apply app_nil in E as [_ ?].
  - assert (group_ports g !! name = None) as Hn.
    { unfold join_check in Ec. destruct (group_ports g !! name) as [b|] eqn:Eb; [|done].
      case_decide; [done|]. assert (b = port) as -> by lia.
      apply (gi_index g Hinv) in Eb as (s & Hs & _). congruence. }
    destruct Hinv as [Hi Hm Hr]. constructor; simpl.
    + intros n p. destruct (decide (name = n)) as [<-|Hne].
      * rewrite lookup_insert_eq. split.
        -- intros [= <-]. eexists. by rewrite lookup_insert_eq.
        -- intros (s & Hs & Hg). rewrite lookup_insert_Some in Hs.
           destruct Hs as [[-> _]|[_ Hs]]; [done|]. exfalso.
           assert (group_ports g !! name = Some p) by (apply Hi; eauto). congruence.
      * rewrite lookup_insert_ne, Hi by done. split; intros (s & Hs & Hg); exists s.
        -- rewrite lookup_insert_ne; [done|]. intros ->. congruence.
        -- rewrite lookup_insert_Some in Hs. destruct Hs as [[_ <-]|[_ Hs]]; [|done].
           simpl in Hg. congruence.
    + intros p x. rewrite lookup_insert_Some. intros [[_ <-]|[_ ?]]; [done|eauto].
    + intros p x. rewrite lookup_insert_Some. intros [[_ <-]|[_ ?]]; [done|eauto].
Qed.

Lemma leave_inv g port proxy : registry_inv g -> registry_inv (leave g port proxy).2.
Proof.
  intros Hinv. unfold leave. destruct (groups g !! port) as [s|] eqn:Es; [|done].
  destruct (filter _ (members s)) as [|m ms] eqn:Ef.
  - destruct Hinv as [Hi Hm Hr]. constructor; simpl.
    + intros n p. destruct (decide (group s = n)) as [<-|Hne].
      * rewrite lookup_delete_eq. split; [done|]. intros (x & Hx & Hg).
        rewrite lookup_delete_Some in Hx. destruct Hx as [Hp Hx].
        assert (group_ports g !! group s = Some p) as E1 by (apply Hi; eauto).
        assert (group_ports g !! group s = Some port) as E2 by (apply Hi; eauto). congruence.
      * rewrite lookup_delete_ne, Hi by done. split; intros (x & Hx & Hg); exists x.
        -- rewrite lookup_delete_ne; [done|]. intros ->. congruence.
        -- rewrite lookup_delete_Some in Hx. naive_solver.
    + intros p x. rewrite lookup_delete_Some. naive_solver.
    + intros p x. rewrite lookup_delete_Some. naive_solver.
  - eapply registry_inv_update; [done|done|done|done|exact (gi_rr g Hinv port s Es)].
Qed.

Lemma pick_inv g port : registry_inv g -> registry_inv (pick g port).2.
Proof.
  intros Hinv. unfold pick. destruct (groups g !! port) as [s|] eqn:Es; [|done].
  destruct (decide (members s = [])); [done|].
  eapply registry_inv_update; [done|done|done|done|]. apply wrap_u_range. lia.
Qed.

Lemma pick_Some g port s : groups g !! port = Some s -> members s <> [] ->
  pick g port =
    (members s !! Z.to_nat (rr_index s mod zlen (members s)),
     {| groups := <[port := {| group := group s; group_key := group_key s; members := members s;
                               rr_index := wrap_u64 (rr_index s + 1) |}]> (groups g);
        group_ports := group_ports g |}).
Proof. intros Hs Hm. unfold pick. by rewrite Hs, decide_False. Qed.

Lemma picks_spec n g port s : groups g !! port = Some s -> members s <> [] ->
  0 <= rr_index s -> rr_index s + Z.of_nat n < 18446744073709551616 ->
  picks g port n =
    map (fun i => members s !! Z.to_nat ((rr_index s + Z.of_nat i) mod zlen (members s))) (seq 0 n).
Proof.
  revert g s; induction n as [|n IH]; intros g s Hs Hm H0 Hn; [done|].
  cbn [picks seq map]. rewrite (pick_Some _ _ _ Hs Hm). f_equal; [by rewrite Z.add_0_r|].
  rewrite wrap_u64_small by lia. erewrite IH by (simpl; try apply lookup_insert_eq; (done || lia)).
  rewrite <- seq_shift, map_map. apply map_ext. intros i. cbn [rr_index members].
  do 3 f_equal. lia.
Qed.

Lemma rotate_Permutation {A} n (l : list A) : rotate n l ≡ₚ l.
Proof. unfold rotate. by rewrite (comm app), take_drop. Qed.

Lemma picks_rotate g port s : groups g !! port = Some s -> members s <> [] ->
  0 <= rr_index s -> rr_index s + zlen (members s) < 18446744073709551616 ->
  picks g port (length (members s)) = Some <$> rotate (Z.to_nat (rr_index s)) (members s).
Proof.
  intros Hs Hm H0 Hn. rewrite (picks_spec _ g port s) by done. apply list_eq. intros i.
  destruct (decide (i < length (members s))%nat) as [Hi|Hi].
  - rewrite (list_lookup_fmap Some), lookup_rotate_r by done. change (map ?f ?l) with (f <$> l).
    rewrite list_lookup_fmap, lookup_seq_lt by done. cbn. unfold rotate_nat_add, zlen.
    rewrite Z2Nat.id by done.
    destruct (members s !! _) as [x|] eqn:E; [done|]. apply lookup_ge_None in E.
    pose proof (Z.mod_pos_bound (rr_index s + Z.of_nat i) (Z.of_nat (length (members s)))). lia.
  - rewrite !lookup_ge_None_2; [done|..]; rewrite ?length_fmap, ?length_map, ?length_seq, ?length_rotate; lia.
Qed.

(** Whole operations, one after the other. *)
Inductive registry_op :=
| OpJoin (name key : string) (port : Z) (proxy : string)
| OpLeave (port : Z) (proxy : string)
| OpPick (port : Z).

Definition registry_step (g : GroupRegistry) (o : registry_op) : GroupRegistry :=
  match o with
  | OpJoin name key port proxy => (join g name key port proxy).2
  | OpLeave port proxy => (leave g port proxy).2
  | OpPick port => (pick g port).2
  end.

Lemma registry_step_inv g o : registry_inv g -> registry_inv (registry_step g o).
Proof. destruct o; [apply join_inv|apply leave_inv|apply pick_inv]. Qed.

(** ** Theorems *)

(** After any sequence of whole joins, leaves and picks a group name has one
    port, a port one group, and no group is empty. *)
Theorem registry_inv_ops ops : registry_inv (foldl registry_step registry_new ops).
Proof.
  induction ops as [|o ops IH] using rev_ind; [apply registry_inv_new|].
  rewrite foldl_app. by apply registry_step_inv.
Qed.

(** [join] checks the name and commits in two critical sections: when two
    clients' joins interleave, both checks pass and one group name ends up on two
    ports. *)
Theorem join_race :
  let g := registry_new in
  let out1 := join_commit g "web" "key" 8001 "a" in
  let out2 := join_commit out1.2 "web" "key" 8002 "b" in
  join_check g "web" 8001 = Ok tt /\ join_check g "web" 8002 = Ok tt /\
  out1.1 = Ok true /\ out2.1 = Ok true /\
  group <$> groups out2.2 !! 8001 = Some "web"%string /\
  group <$> groups out2.2 !! 8002 = Some "web"%string /\ ~ registry_inv out2.2.
Proof.
  intros g out1 out2. split_and!; [vm_compute; reflexivity..|]. intros [Hi _ _].
  assert (group_ports out2.2 !! "web"%string = Some 8001) as H1.
  { apply Hi. eexists. split; vm_compute; reflexivity. }
  assert (group_ports out2.2 !! "web"%string = Some 8002) as H2 by (vm_compute; reflexivity).
  congruence.
Qed.

(** Round robin is fair: as many consecutive connections as the group has
    members go to every member exactly once, in registration order from the
    current index. *)
Theorem round_robin_fair g port s :
  groups g !! port = Some s -> members s <> [] ->
  0 <= rr_index s -> rr_index s + zlen (members s) < 18446744073709551616 ->
  picks g port (length (members s)) = Some <$> rotate (Z.to_nat (rr_index s)) (members s) /\
  picks g port (length (members s)) ≡ₚ Some <$> members s.
Proof.
  intros Hs Hm H0 Hn. rewrite (picks_rotate g port s) by done. split; [done|].
  by rewrite rotate_Permutation.
Qed.

(** ** Witnesses *)
Definition three_group : GroupRegistry :=
  foldl registry_step registry_new
    [OpJoin "web" "k" 8080 "a"; OpJoin "web" "k" 8080 "b"; OpJoin "web" "k" 8080 "c"; OpPick 8080]%string.

Lemma round_robin_fair_witness :
  picks three_group 8080 3 = [Some "b"; Some "c"; Some "a"]%string /\
  exists s, groups three_group !! 8080 = Some s /\
  picks three_group 8080 (length (members s)) = Some <$> rotate (Z.to_nat (rr_index s)) (members s) /\
  picks three_group 8080 (length (members s)) ≡ₚ Some <$> members s.
Proof.
  split; [vm_compute; reflexivity|]. eexists. split; [vm_compute; reflexivity|].
  apply (round_robin_fair three_group 8080); [vm_compute; reflexivity|done|done|done].
Defined.
