(* ===== verification/ProxyManager.v ===== *)
(** * Proxy registration (src/rust_frp_server/src/proxy_manager.rs)

    [ServerProxyManager]: port and domain checks, starting and stopping every
    type of proxy, quotas, and the roll-back of a failed registration.

    Sockets are modelled by their ports.  A TCP listener is shared by its accept
    task and by the table of listeners, and its port is bound while either holds
    it; aborting a task or removing an entry drops one reference.  The operating
    system's answer to [bind] is the interface [Os].  One operation runs at a
    time here; the interleavings of group joins are in Groups.v. *)
From S2P Require Import Prelude RustStd RustFmt ConfigTypes Secrets Routers Groups.

Class Os := {
  (** [bind port bound]: the port obtained when [bound] are the ports this
      process holds; port 0 asks for any. *)
  tcp_bind : Z -> gset Z -> result string Z;
  udp_bind : Z -> gset Z -> result string Z;
}.

Class OsLaws `{Os} := {
  tcp_bind_free : forall port bound p, tcp_bind port bound = Ok p ->
    p ∉ bound /\ (port <> 0 -> p = port);
  udp_bind_free : forall port bound p, udp_bind port bound = Ok p ->
    p ∉ bound /\ (port <> 0 -> p = port);
}.

(** ** State *)
Record Ingress := {
  listeners : gmap string Z;          (* key -> port of the shared listener *)
  accept_handles : gmap string Z;     (* key -> port of the task it aborts *)
  accept_tasks : gset Z;              (* ports of the running accept tasks *)
  udp_sessions : gmap string Z;
  udp_accept_handles : gmap string Z;
  udp_tasks : gset Z;
}.

Definition ingress_new : Ingress :=
  {| listeners := ∅; accept_handles := ∅; accept_tasks := ∅;
     udp_sessions := ∅; udp_accept_handles := ∅; udp_tasks := ∅ |}.

Record Quotas := {
  user_port_counts : gmap string Z;
  proxy_user_ports : gmap string (string * Z);
}.

Record Options := {
  allow_ports : list PortRange;
  max_ports_per_user : option Z;
  custom_domains_allowlist : list string;
  tcpmux_port : option Z;
}.

Record Manager := {
  proxies : gmap string ProxyConfig;
  net : Ingress;
  vhost : vhost_router;
  tcpmux : tcpmux_router;
  group_registry : GroupRegistry;
  quotas : Quotas;
  options : Options;
}.

Definition manager_new (o : Options) : Manager :=
  {| proxies := ∅; net := ingress_new; vhost := vhost_new; tcpmux := tcpmux_new;
     group_registry := registry_new;
     quotas := {| user_port_counts := ∅; proxy_user_ports := ∅ |}; options := o |}.

Definition with_proxies (s : Manager) (p : gmap string ProxyConfig) : Manager :=
  {| proxies := p; net := net s; vhost := vhost s; tcpmux := tcpmux s;
     group_registry := group_registry s; quotas := quotas s; options := options s |}.
Definition with_net (s : Manager) (n : Ingress) : Manager :=
  {| proxies := proxies s; net := n; vhost := vhost s; tcpmux := tcpmux s;
     group_registry := group_registry s; quotas := quotas s; options := options s |}.
Definition with_vhost (s : Manager) (v : vhost_router) : Manager :=
  {| proxies := proxies s; net := net s; vhost := v; tcpmux := tcpmux s;
     group_registry := group_registry s; quotas := quotas s; options := options s |}.
Definition with_tcpmux (s : Manager) (t : tcpmux_router) : Manager :=
  {| proxies := proxies s; net := net s; vhost := vhost s; tcpmux := t;
     group_registry := group_registry s; quotas := quotas s; options := options s |}.
Definition with_groups (s : Manager) (g : GroupRegistry) : Manager :=
  {| proxies := proxies s; net := net s; vhost := vhost s; tcpmux := tcpmux s;
     group_registry := g; quotas := quotas s; options := options s |}.
Definition with_quotas (s : Manager) (q : Quotas) : Manager :=
  {| proxies := proxies s; net := net s; vhost := vhost s; tcpmux := tcpmux s;
     group_registry := group_registry s; quotas := q; options := options s |}.

(** [set_allow_ports]: hot reload. *)
Definition set_allow_ports (s : Manager) (ranges : list PortRange) : Manager :=
  {| proxies := proxies s; net := net s; vhost := vhost s; tcpmux := tcpmux s;
     group_registry := group_registry s; quotas := quotas s;
     options := {| allow_ports := ranges;
                   max_ports_per_user := max_ports_per_user (options s);
                   custom_domains_allowlist := custom_domains_allowlist (options s);
                   tcpmux_port := tcpmux_port (options s) |} |}.

(** ** Checks *)
Definition range_allows (port : Z) (r : PortRange) : bool :=
  match pr_single r with Some single => bool_decide (port = single) | None => false end ||
  match pr_start r, pr_end r with
  | Some start, Some stop => bool_decide (start <= port <= stop)
  | _, _ => false
  end.

Definition port_allowed (port : Z) (ranges : list PortRange) : bool :=
  existsb (range_allows port) ranges.

(** One entry of the allow-list against the request. *)
Definition entry_allows (req entry : string) : bool :=
  let req_is_wildcard := starts_with "*." req in
  let req_body := default req (strip_prefix "*." req) in
  let e := to_ascii_lowercase (trim entry) in
  bool_decide (e = req) ||
  match strip_prefix "*." e with
  | None => false
  | Some base =>
      ends_with ("." +:+ base) req_body || (req_is_wildcard && bool_decide (req_body = base))
  end.

Definition domain_allowed (domain : string) (allowlist : list string) : bool :=
  match allowlist with
  | [] => true
  | _ => existsb (entry_allows (to_ascii_lowercase (trim domain))) allowlist
  end.

(** One domain of [check_domains]. *)
Definition check_domain (proxy_name : string) (allowlist : list string) (domain : string)
  : result string unit :=
  match validate_custom_domain domain with
  | Err reason =>
      Err ("proxy [" +:+ proxy_name +:+ "] rejected: custom domain " +:+ debug_str domain
             +:+ " is invalid (" +:+ reason +:+ ")")%string
  | Ok _ =>
      if domain_allowed domain allowlist then Ok tt else
      Err ("proxy [" +:+ proxy_name +:+ "] rejected: custom domain " +:+ debug_str domain
             +:+ " is not covered by the server custom_domains_allowlist")%string
  end.

Definition check_domains (proxy_name : string) (domains allowlist : list string)
  : result string unit :=
  for_each (check_domain proxy_name allowlist) domains.

Definition build_tcpmux_domains (c : ProxyConfig) : list string :=
  filter (fun d => is_empty d = false)
    (default [] (px_custom_domains c) ++ option_list (px_subdomain c)).

Definition vhost_domains (c : ProxyConfig) : list string :=
  default [] (px_custom_domains c) ++ option_list (px_subdomain c).

Definition not_allowed (port : Z) : string :=
  ("Port " +:+ dec port +:+ " is not in the allowed ports list")%string.

Definition rejected (name why : string) : string :=
  ("proxy [" +:+ name +:+ "] rejected: " +:+ why)%string.

(** ** Sockets *)
Definition map_ports (m : gmap string Z) : gset Z := list_to_set (map snd (map_to_list m)).

(** The ports this process holds. *)
Definition tcp_bound (n : Ingress) : gset Z := accept_tasks n ∪ map_ports (listeners n).
Definition udp_bound (n : Ingress) : gset Z := udp_tasks n ∪ map_ports (udp_sessions n).

(** The listener and its task, stored under [key]. *)
Definition open_listener (n : Ingress) (key : string) (port : Z) : Ingress :=
  {| listeners := <[key := port]> (listeners n);
     accept_handles := <[key := port]> (accept_handles n);
     accept_tasks := {[port]} ∪ accept_tasks n;
     udp_sessions := udp_sessions n; udp_accept_handles := udp_accept_handles n;
     udp_tasks := udp_tasks n |}.

(** Abort the task of [key] and drop its listener entry. *)
Definition close_listener (n : Ingress) (key : string) : Ingress :=
  {| listeners := delete key (listeners n);
     accept_handles := delete key (accept_handles n);
     accept_tasks := match accept_handles n !! key with
                     | Some port => accept_tasks n ∖ {[port]}
                     | None => accept_tasks n
                     end;
     udp_sessions := udp_sessions n; udp_accept_handles := udp_accept_handles n;
     udp_tasks := udp_tasks n |}.

Definition open_udp (n : Ingress) (name : string) (port : Z) : Ingress :=
  {| listeners := listeners n; accept_handles := accept_handles n;
     accept_tasks := accept_tasks n;
     udp_sessions := <[name := port]> (udp_sessions n);
     udp_accept_handles := <[name := port]> (udp_accept_handles n);
     udp_tasks := {[port]} ∪ udp_tasks n |}.

Definition close_udp (n : Ingress) (name : string) : Ingress :=
  {| listeners := listeners n; accept_handles := accept_handles n;
     accept_tasks := accept_tasks n;
     udp_sessions := delete name (udp_sessions n);
     udp_accept_handles := delete name (udp_accept_handles n);
     udp_tasks := match udp_accept_handles n !! name with
                  | Some port => udp_tasks n ∖ {[port]}
                  | None => udp_tasks n
                  end |}.

(** ** Starting a proxy *)
Section Manager.
Context `{Os}.

(** Every operation returns its result and the new state. *)
Definition outcome : Type := result string unit * Manager.

Definition bind_listener (s : Manager) (port : Z) (key : string) : outcome :=
  match tcp_bind port (tcp_bound (net s)) with
  | Err e => (Err e, s)
  | Ok p => (Ok tt, with_net s (open_listener (net s) key p))
  end.

Definition start_tcp_proxy (s : Manager) (c : ProxyConfig) : outcome :=
  match px_remote_port c with
  | None => (Ok tt, s)
  | Some port =>
      if negb (port_allowed port (allow_ports (options s))) then (Err (not_allowed port), s) else
      match px_group c with
      | None => bind_listener s port (px_name c)
      | Some group =>
          let '(first, g) := join (group_registry s) group (default EmptyString (px_group_key c))
                               port (px_name c) in
          let s := with_groups s g in
          match first with
          | Err e => (Err e, s)
          | Ok false => (Ok tt, s)
          | Ok true => bind_listener s port (group_listener_key port)
          end
      end
  end.

Definition start_websocket_proxy (s : Manager) (c : ProxyConfig) : outcome :=
  match px_remote_port c with
  | None => (Ok tt, s)
  | Some port =>
      if negb (port_allowed port (allow_ports (options s))) then (Err (not_allowed port), s)
      else bind_listener s port (px_name c)
  end.

Definition start_udp_proxy (s : Manager) (c : ProxyConfig) : outcome :=
  match px_remote_port c with
  | None => (Err "UDP proxy requires remote_port"%string, s)
  | Some port =>
      if negb (port_allowed port (allow_ports (options s))) then (Err (not_allowed port), s) else
      match udp_bind port (udp_bound (net s)) with
      | Err e => (Err e, s)
      | Ok p => (Ok tt, with_net s (open_udp (net s) (px_name c) p))
      end
  end.

Definition register_vhost_proxy (s : Manager) (c : ProxyConfig) : outcome :=
  let domains := vhost_domains c in
  match check_domains (px_name c) domains (custom_domains_allowlist (options s)) with
  | Err e => (Err e, s)
  | Ok _ =>
      if decide (domains = []) then (Ok tt, s)
      else (Ok tt, with_vhost s (register_proxy (vhost s) (px_name c) domains c))
  end.

Definition register_tcpmux_proxy (s : Manager) (c : ProxyConfig) : outcome :=
  let m := default EmptyString (px_multiplexer c) in
  if negb (is_empty m) && negb (bool_decide (m = "httpconnect"%string)) then
    (Err (rejected (px_name c) ("unknown multiplexer [" +:+ m +:+ "] (only " +:+ dquote +:+ "httpconnect"
            +:+ dquote +:+ " is supported)")%string), s)
  else match tcpmux_port (options s) with
  | None => (Err (rejected (px_name c) "tcpmux requires server-side tcpmux_http_connect_port"), s)
  | Some _ =>
      let domains := build_tcpmux_domains c in
      match check_domains (px_name c) domains (custom_domains_allowlist (options s)) with
      | Err e => (Err e, s)
      | Ok _ =>
          if decide (domains = []) then
            (Err (rejected (px_name c) "tcpmux requires custom_domains or subdomain"), s)
          else
            (Ok tt, with_tcpmux s (tcpmux_register (tcpmux s) domains
              {| rt_proxy_name := px_name c; rt_http_user := px_http_user c;
                 rt_http_password := px_http_password c;
                 rt_route_by_http_user := px_route_by_http_user c |}))
      end
  end.

(** The visitor types bind nothing; unknown types are only logged. *)
Definition start_proxy (s : Manager) (c : ProxyConfig) : outcome :=
  let ty := px_type c in
  if decide (ty = "tcp"%string) then start_tcp_proxy s c
  else if decide (ty = "http"%string \/ ty = "https"%string) then register_vhost_proxy s c
  else if decide (ty = "udp"%string) then start_udp_proxy s c
  else if decide (ty = "websocket"%string) then start_websocket_proxy s c
  else if decide (ty = "tcpmux"%string) then register_tcpmux_proxy s c
  else (Ok tt, s).

(** ** Stopping *)
Definition group_port_of (s : Manager) (name : string) : option Z :=
  c ← proxies s !! name; _ ← px_group c; px_remote_port c.

Definition stop_proxy (s : Manager) (name : string) : Manager :=
  let s := with_vhost s (unregister_proxy (vhost s) name) in
  let s := with_tcpmux s (tcpmux_unregister (tcpmux s) name) in
  match group_port_of s name with
  | Some port =>
      let '(empty, g) := leave (group_registry s) port name in
      let s := with_groups s g in
      if empty then with_net s (close_listener (net s) (group_listener_key port)) else s
  | None => with_net s (close_udp (close_listener (net s) name) name)
  end.

Definition stop_all_ingress (s : Manager) : Manager :=
  let n := net s in
  with_net s
    {| listeners := ∅; accept_handles := ∅;
       accept_tasks := accept_tasks n ∖ map_ports (accept_handles n);
       udp_sessions := ∅; udp_accept_handles := ∅;
       udp_tasks := udp_tasks n ∖ map_ports (udp_accept_handles n) |}.

Definition release_user_quota (q : Quotas) (proxy_name : string) : Quotas :=
  match proxy_user_ports q !! proxy_name with
  | None => q
  | Some (user, ports_used) =>
      let counts := match user_port_counts q !! user with
                    | None => user_port_counts q
                    | Some current =>
                        let current := Z.max 0 (current - ports_used) in
                        if decide (current = 0) then delete user (user_port_counts q)
                        else <[user := current]> (user_port_counts q)
                    end in
      {| user_port_counts := counts; proxy_user_ports := delete proxy_name (proxy_user_ports q) |}
  end.

(** ** The entry points *)
Definition ports_used (c : ProxyConfig) : Z :=
  if decide (px_type c = "tcp"%string \/ px_type c = "udp"%string) then 1 else 0.

(** A grouped proxy is a tcp proxy with a port and no plugin. *)
Definition check_group (c : ProxyConfig) : result string unit :=
  match px_group c with
  | None => Ok tt
  | Some group =>
      if decide (px_type c <> "tcp"%string) then
        Err (rejected (px_name c) "group is only supported for tcp proxies")
      else match px_plugin c, px_remote_port c with
      | Some _, _ => Err (rejected (px_name c) "group and plugin cannot be used together")
      | None, None => Err (rejected (px_name c) ("group [" +:+ group +:+ "] requires remote_port")%string)
      | None, Some _ => Ok tt
      end
  end.

(** Step 2 of [add_proxy_inner]: the quota is taken before the proxy starts. *)
Definition reserve_quota (s : Manager) (c : ProxyConfig) (user : option string)
  : result string unit * Quotas :=
  match user, max_ports_per_user (options s) with
  | Some user, Some limit =>
      if decide (0 < ports_used c) then
        let current := default 0 (user_port_counts (quotas s) !! user) in
        if decide (limit < current + ports_used c) then
          (Err (rejected (px_name c) ("user [" +:+ user +:+ "] exceeds max_ports_per_user limit "
                  +:+ dec limit)%string), quotas s)
        else (Ok tt, {| user_port_counts := <[user := current + ports_used c]> (user_port_counts (quotas s));
                        proxy_user_ports := <[px_name c := (user, ports_used c)]> (proxy_user_ports (quotas s)) |})
      else (Ok tt, quotas s)
  | _, _ => (Ok tt, quotas s)
  end.

Definition add_proxy_inner (s : Manager) (c : ProxyConfig) (user : option string) : outcome :=
  match proxies s !! px_name c with
  | Some _ => (Err ("proxy [" +:+ px_name c +:+ "] already exists")%string, s)
  | None =>
  match check_group c with
  | Err e => (Err e, s)
  | Ok _ =>
  match reserve_quota s c user with
  | (Err e, _) => (Err e, s)
  | (Ok _, q) =>
      let s := with_quotas s q in
      let s := with_proxies s (<[px_name c := c]> (proxies s)) in
      match start_proxy s c with
      | (Ok _, s) => (Ok tt, s)
      | (Err e, s) =>
          let s := with_proxies s (delete (px_name c) (proxies s)) in
          let s := match max_ports_per_user (options s) with
                   | Some _ => if decide (0 < ports_used c)
                               then with_quotas s (release_user_quota (quotas s) (px_name c)) else s
                   | None => s
                   end in
          (Err e, s)
      end
  end end end.

Definition add_proxy (s : Manager) (c : ProxyConfig) : outcome := add_proxy_inner s c None.
Definition add_proxy_for_user (s : Manager) (c : ProxyConfig) (user : string) : outcome :=
  add_proxy_inner s c (Some user).

Definition remove_proxy (s : Manager) (name : string) : Manager :=
  let s := stop_proxy s name in
  let s := with_proxies s (delete name (proxies s)) in
  with_quotas s (release_user_quota (quotas s) name).

Definition get_proxy_config (s : Manager) (name : string) : option ProxyConfig := proxies s !! name.

Definition get_proxy_status (s : Manager) (name : string) : option string :=
  match proxies s !! name with Some _ => Some "running"%string | None => None end.

Definition clear (s : Manager) : Manager :=
  with_quotas (with_proxies s ∅) {| user_port_counts := ∅; proxy_user_ports := ∅ |}.

Inductive manager_op :=
| OpAdd (c : ProxyConfig)
| OpAddForUser (c : ProxyConfig) (user : string)
| OpRemove (name : string)
| OpStopIngress
| OpSetAllowPorts (ranges : list PortRange)
| OpClear.

Definition manager_step (s : Manager) (o : manager_op) : Manager :=
  match o with
  | OpAdd c => (add_proxy s c).2
  | OpAddForUser c user => (add_proxy_for_user s c user).2
  | OpRemove name => remove_proxy s name
  | OpStopIngress => stop_all_ingress s
  | OpSetAllowPorts ranges => set_allow_ports s ranges
  | OpClear => clear s
  end.
End Manager.

(** ** Invariants *)

(** How many ports a user holds. *)
Definition user_total (m : gmap string (string * Z)) (user : string) : Z :=
  Z.of_nat (size (filter (fun kv => kv.2.1 = user) m)).

Record quota_inv (s : Manager) : Prop := {
  qi_entry : forall name user n, proxy_user_ports (quotas s) !! name = Some (user, n) ->
    n = 1 /\ proxies s !! name <> None;
  qi_count : forall user,
    default 0 (user_port_counts (quotas s) !! user) = user_total (proxy_user_ports (quotas s)) user;
  qi_positive : forall user, user_port_counts (quotas s) !! user <> Some 0;
  qi_limit : forall limit user, max_ports_per_user (options s) = Some limit ->
    user_total (proxy_user_ports (quotas s)) user <= Z.max 0 limit;
}.

(** *** The quota, from the registrations alone *)

(** The types that take a port of the quota. *)
Definition takes_port (c : ProxyConfig) : Prop := px_type c = "tcp"%string \/ px_type c = "udp"%string.

#[global] Instance takes_port_dec c : Decision (takes_port c).
Proof. unfold takes_port. apply _. Defined.

(** Which user holds which proxy: an entry appears when a registration of a user's
    tcp or udp proxy succeeds and goes with the removal of that name. *)
Definition holders_step `{Os} (s : Manager) (h : gmap string string) (o : manager_op)
  : gmap string string :=
  match o with
  | OpAddForUser c user =>
      if decide (takes_port c /\ is_ok (add_proxy_for_user s c user).1 = true)
      then <[px_name c := user]> h else h
  | OpRemove name => delete name h
  | OpClear => ∅
  | OpAdd _ | OpStopIngress | OpSetAllowPorts _ => h
  end.

Fixpoint holders `{Os} (s : Manager) (h : gmap string string) (ops : list manager_op)
  : gmap string string :=
  match ops with
  | [] => h
  | o :: ops => holders (manager_step s o) (holders_step s h o) ops
  end.

(** The number of proxies with a port that [user] holds. *)
Definition ports_held (h : gmap string string) (user : string) : Z :=
  Z.of_nat (size (filter (fun kv => kv.2 = user) h)).

(** The name occurs nowhere in the manager. *)
Record unknown (s : Manager) (name : string) : Prop := {
  un_listener : listeners (net s) !! name = None;
  un_handle : accept_handles (net s) !! name = None;
  un_session : udp_sessions (net s) !! name = None;
  un_udp_handle : udp_accept_handles (net s) !! name = None;
  un_domains : map_Forall (fun _ p => p <> name) (domain_map (vhost s));
  un_vhost : vhost_configs (vhost s) !! name = None;
  un_tcpmux : proxy_domains (tcpmux s) !! name = None;
}.

(** The normal form the allow-list compares. *)
Definition norm (d : string) : string := to_ascii_lowercase (trim d).

(** What the allow-list documents: the same domain, or, below a wildcard entry,
    a strict subdomain or the wildcard itself. *)
Definition covers (entry domain : string) : Prop :=
  norm entry = norm domain \/
  exists base, norm entry = ("*." +:+ base)%string /\
    (norm domain = ("*." +:+ base)%string \/
     exists pre, default (norm domain) (strip_prefix "*." (norm domain)) = (pre +:+ "." +:+ base)%string).

(** ** Lemmas *)
Lemma entry_allows_true domain entry :
  entry_allows (to_ascii_lowercase (trim domain)) entry = true <-> covers entry domain.
Proof.
  unfold entry_allows, covers, norm. set (req := to_ascii_lowercase (trim domain)).
  set (e := to_ascii_lowercase (trim entry)).
  rewrite orb_true_iff, bool_decide_eq_true. apply or_iff_compat_l.
  destruct (strip_prefix "*." e) as [base|] eqn:Ee.
  - apply strip_prefix_Some in Ee. rewrite orb_true_iff, andb_true_iff, bool_decide_eq_true,
      ends_with_true, starts_with_true.
    assert (forall b, e = ("*." +:+ b)%string -> b = base) as Hb.
    { intros b E. rewrite Ee in E. by injection E. }
    split.
    + intros [[pre Hp]|[[r Hr] Hq]]; exists base; (split; [done|]); [right; eauto|left].
      rewrite Hr in *. change (strip_prefix "*." ("*." +:+ r)%string) with (Some r) in Hq.
      simpl in Hq. by subst r.
    + intros (b & E & Hd). rewrite (Hb b E) in *. destruct Hd as [->|[pre Hp]]; [right|left; eauto].
      split; [by eexists|done].
  - split; [done|]. intros (b & E & _). apply strip_prefix_Some in E. congruence.
Qed.

Lemma bool_existsb {A} (f : A -> bool) l : existsb f l = true <-> exists x, x ∈ l /\ f x = true.
Proof. rewrite existsb_exists. by setoid_rewrite list_elem_of_In. Qed.

Lemma user_total_insert m name user n user' : m !! name = None ->
  user_total (<[name := (user, n)]> m) user' =
    user_total m user' + (if decide (user = user') then 1 else 0).
Proof.
  intros Hm. unfold user_total. destruct (decide (user = user')) as [->|Hne].
  - rewrite map_filter_insert_True by done. rewrite map_size_insert_None; [lia|].
    apply map_lookup_filter_None. by left.
  - rewrite map_filter_insert_False by done. by rewrite delete_id, Z.add_0_r.
Qed.

Lemma user_total_delete m name user n user' : m !! name = Some (user, n) ->
  user_total (delete name m) user' =
    user_total m user' - (if decide (user = user') then 1 else 0).
Proof.
  intros Hm. rewrite <- (insert_delete_id m name (user, n) Hm) at 2.
  rewrite user_total_insert by apply lookup_delete_eq. lia.
Qed.

Lemma user_total_delete_None m name user' : m !! name = None ->
  user_total (delete name m) user' = user_total m user'.
Proof. intros Hm. by rewrite delete_id. Qed.

Lemma user_total_nonneg m user : 0 <= user_total m user.
Proof. unfold user_total. lia. Qed.

Section ManagerLemmas.
Context `{Os}.

(** Starting a proxy touches neither the names, the quotas nor the options. *)
Definition same_books (s s' : Manager) : Prop :=
  proxies s' = proxies s /\ quotas s' = quotas s /\ options s' = options s.

Lemma bind_listener_books s port key : same_books s (bind_listener s port key).2.
Proof. unfold bind_listener. by destruct (tcp_bind _ _). Qed.

Lemma start_proxy_books s c : same_books s (start_proxy s c).2.
Proof.
  unfold start_proxy. repeat case_decide; [| | | | |done].
  - unfold start_tcp_proxy. destruct (px_remote_port c) as [port|]; [|done].
    destruct (negb _); [done|]. destruct (px_group c); [|apply bind_listener_books].
    destruct (join _ _ _ _ _) as [[[]|] g]; [apply (bind_listener_books (with_groups s g))|done..].
  - unfold register_vhost_proxy. destruct (check_domains _ _ _); [|done]. by case_decide.
  - unfold start_udp_proxy. destruct (px_remote_port c) as [port|]; [|done].
    destruct (negb _); [done|]. by destruct (udp_bind _ _).
  - unfold start_websocket_proxy. destruct (px_remote_port c) as [port|]; [|done].
    destruct (negb _); [done|]. apply bind_listener_books.
  - unfold register_tcpmux_proxy. destruct (_ && _); [done|].
    destruct (tcpmux_port _); [|done]. destruct (check_domains _ _ _); [|done]. by case_decide.
Qed.

(** Failing to start leaves the state as it was, groups apart. *)
Lemma start_proxy_error s c e s' : px_group c = None ->
  start_proxy s c = (Err e, s') -> s' = s.
Proof.
  intros Hg. unfold start_proxy, start_tcp_proxy, start_websocket_proxy, start_udp_proxy,
    register_vhost_proxy, register_tcpmux_proxy, bind_listener. rewrite Hg. intros Hs.
  repeat first [case_decide | case_match]; simplify_eq; done.
Qed.

Lemma reserve_quota_inv s c user q : quota_inv s -> proxies s !! px_name c = None ->
  reserve_quota s c user = (Ok tt, q) ->
  quota_inv (with_proxies (with_quotas s q) (<[px_name c := c]> (proxies s))).
Proof.
  intros [He Hc Hp Hl] Hn. unfold reserve_quota.
  assert (proxy_user_ports (quotas s) !! px_name c = None) as Hfresh.
  { destruct (proxy_user_ports (quotas s) !! px_name c) as [[u n]|] eqn:E; [|done].
    by apply He in E as [_ ?]. }
  assert (forall name, proxies s !! name <> None -> <[px_name c := c]> (proxies s) !! name <> None) as Hnames.
  { intros name Hx. rewrite lookup_insert. by case_decide. }
  assert (forall q', (q' = quotas s) -> quota_inv (with_proxies (with_quotas s q') (<[px_name c := c]> (proxies s)))) as Hsame.
  { intros q' ->. constructor; simpl; [|done..]. intros name u n E.
    destruct (He _ _ _ E) as [-> ?]. auto. }
  destruct user as [user|]; [|intros [= <-]; by apply Hsame].
  destruct (max_ports_per_user (options s)) as [limit|] eqn:Em; [|intros [= <-]; by apply Hsame].
  destruct (decide (0 < ports_used c)) as [Hu|]; [|intros [= <-]; by apply Hsame].
  assert (ports_used c = 1) as Hone by (unfold ports_used in *; by case_decide).
  rewrite Hone. destruct (decide (limit < _)) as [|Hle]; [done|]. intros [= <-].
  rewrite Hc in Hle. pose proof (user_total_nonneg (proxy_user_ports (quotas s)) user).
  constructor; simpl.
  - intros name u n. rewrite lookup_insert_Some. intros [[<- [= <- <-]]|[_ E]].
    + split; [done|]. by rewrite lookup_insert_eq.
    + destruct (He _ _ _ E) as [-> ?]. auto.
  - intros u. rewrite user_total_insert by done. destruct (decide (user = u)) as [<-|Hne].
    + by rewrite lookup_insert_eq, Hc.
    + by rewrite lookup_insert_ne, Z.add_0_r by done.
  - intros u. destruct (decide (user = u)) as [<-|Hne].
    + rewrite lookup_insert_eq, Hc. intros [= E]. lia.
    + by rewrite lookup_insert_ne.
  - intros limit' u Hlim. rewrite user_total_insert by done. rewrite Em in Hlim. injection Hlim as <-.
    specialize (Hl limit u eq_refl). destruct (decide (user = u)) as [<-|]; lia.
Qed.

Lemma release_quota_inv s name : quota_inv s ->
  quota_inv (with_quotas (with_proxies s (delete name (proxies s))) (release_user_quota (quotas s) name)).
Proof.
  intros [He Hc Hp Hl]. unfold release_user_quota.
  destruct (proxy_user_ports (quotas s) !! name) as [[user n]|] eqn:E; cycle 1.
  { constructor; simpl; [|done..]. intros name' u n En.
    destruct (He _ _ _ En) as [-> ?]. split; [done|]. rewrite lookup_delete_ne; [done|].
    intros ->. congruence. }
  destruct (He _ _ _ E) as [-> _].
  assert (1 <= user_total (proxy_user_ports (quotas s)) user) as Ht.
  { pose proof (user_total_delete _ _ _ _ user E) as Hd. rewrite decide_True in Hd by done.
    pose proof (user_total_nonneg (delete name (proxy_user_ports (quotas s))) user). lia. }
  pose proof (Hc user) as Hcu.
  destruct (user_port_counts (quotas s) !! user) as [cur|] eqn:Ecur; simpl in Hcu; [|lia].
  rewrite Z.max_r by lia. constructor; simpl.
  - intros name' u n En. rewrite lookup_delete_Some in En. destruct En as [Hne En].
    destruct (He _ _ _ En) as [-> ?]. split; [done|]. by rewrite lookup_delete_ne.
  - intros u. rewrite (user_total_delete _ _ _ _ u E). destruct (decide (user = u)) as [<-|Hne].
    + destruct (decide (cur - 1 = 0)); rewrite ?lookup_delete_eq, ?lookup_insert_eq; simpl; lia.
    + rewrite Z.sub_0_r, <- Hc.
      destruct (decide (cur - 1 = 0)); by rewrite ?lookup_delete_ne, ?lookup_insert_ne by done.
  - intros u. destruct (decide (user = u)) as [<-|Hne].
    + destruct (decide (cur - 1 = 0)); rewrite ?lookup_delete_eq, ?lookup_insert_eq; congruence.
    + destruct (decide (cur - 1 = 0)); by rewrite ?lookup_delete_ne, ?lookup_insert_ne by done.
  - intros limit u Hlim. rewrite (user_total_delete _ _ _ _ u E).
    specialize (Hl limit u Hlim). case_decide; lia.
Qed.

Lemma quota_inv_books s s' : same_books s s' -> quota_inv s -> quota_inv s'.
Proof. intros (Ep & Eq & Eo) [He Hc Hp Hl]. constructor; rewrite ?Ep, ?Eq, ?Eo; done. Qed.

Lemma quota_fresh s name : quota_inv s -> proxies s !! name = None ->
  proxy_user_ports (quotas s) !! name = None.
Proof.
  intros Hinv Hn. destruct (proxy_user_ports (quotas s) !! name) as [[u n]|] eqn:E; [|done].
  by apply (qi_entry s Hinv) in E as [_ ?].
Qed.

Lemma release_noop q name : proxy_user_ports q !! name = None -> release_user_quota q name = q.
Proof. intros E. unfold release_user_quota. by rewrite E. Qed.

(** Releasing undoes reserving. *)
Lemma release_reserve s c user q : quota_inv s -> proxies s !! px_name c = None ->
  reserve_quota s c user = (Ok tt, q) -> release_user_quota q (px_name c) = quotas s.
Proof.
  intros Hinv Hn. pose proof (quota_fresh s _ Hinv Hn) as Hf. unfold reserve_quota.
  destruct user as [user|]; [|intros [= <-]; by apply release_noop].
  destruct (max_ports_per_user (options s)) as [limit|]; [|intros [= <-]; by apply release_noop].
  destruct (decide (0 < ports_used c)) as [Hu|]; [|intros [= <-]; by apply release_noop].
  destruct (decide (limit < _)); [done|]. intros [= <-]. unfold release_user_quota. simpl.
  rewrite !lookup_insert_eq, (delete_insert_id (proxy_user_ports (quotas s))) by done.
  assert (0 <= default 0 (user_port_counts (quotas s) !! user)) as H0.
  { rewrite (qi_count s Hinv). apply user_total_nonneg. }
  rewrite Z.add_simpl_r, Z.max_r by done. pose proof (qi_positive s Hinv user) as Hpos.
  destruct (quotas s) as [counts ports]; simpl in *. f_equal.
  destruct (counts !! user) as [cur|] eqn:E; simpl.
  - rewrite decide_False by congruence. rewrite insert_insert_eq. by apply insert_id.
  - by rewrite ?decide_True, delete_insert_id.
Qed.

Lemma reserve_noop s c user q :
  max_ports_per_user (options s) = None \/ ~ 0 < ports_used c ->
  reserve_quota s c user = (Ok tt, q) -> q = quotas s.
Proof.
  unfold reserve_quota. intros Hno. destruct user as [u|]; [|by intros [= <-]].
  destruct (max_ports_per_user (options s)) as [l|]; [|by intros [= <-]].
  destruct Hno as [|Hno]; [done|]. rewrite decide_False by done. by intros [= <-].
Qed.

(** The roll-back restores names and quotas. *)
Lemma rollback_books s c user q s1 : quota_inv s -> proxies s !! px_name c = None ->
  reserve_quota s c user = (Ok tt, q) ->
  same_books (with_proxies (with_quotas s q) (<[px_name c := c]> (proxies s))) s1 ->
  let s2 := with_proxies s1 (delete (px_name c) (proxies s1)) in
  same_books s (match max_ports_per_user (options s2) with
                | Some _ => if decide (0 < ports_used c)
                            then with_quotas s2 (release_user_quota (quotas s2) (px_name c)) else s2
                | None => s2
                end).
Proof.
  intros Hinv Hn Hr (Ep & Eq & Eo). simpl in Ep, Eq, Eo. cbn [options with_proxies].
  rewrite Ep, Eo. destruct (max_ports_per_user (options s)) as [l|] eqn:El.
  - destruct (decide (0 < ports_used c)) as [Hu|Hu].
    + split_and!; simpl; [by rewrite delete_insert_id|rewrite Eq; by eapply release_reserve|done].
    + split_and!; simpl; [by rewrite delete_insert_id| |done].
      rewrite Eq. eapply reserve_noop; [by right|done].
  - split_and!; simpl; [by rewrite delete_insert_id| |done].
    rewrite Eq. eapply reserve_noop; [by left|done].
Qed.

Lemma add_proxy_inner_inv s c user : quota_inv s -> quota_inv (add_proxy_inner s c user).2.
Proof.
  intros Hinv. unfold add_proxy_inner. destruct (proxies s !! px_name c) eqn:Hn; [done|].
  destruct (check_group c); [|done].
  destruct (reserve_quota s c user) as [[[]|e] q] eqn:Er; [|done].
  set (s0 := with_proxies (with_quotas s q) (<[px_name c := c]> (proxies s))).
  change (with_proxies (with_quotas s q) (<[px_name c := c]> (proxies (with_quotas s q)))) with s0.
  pose proof (start_proxy_books s0 c) as Hb. destruct (start_proxy s0 c) as [[u|e] s1]; simpl in *.
  - eapply quota_inv_books; [exact Hb|]. by eapply reserve_quota_inv.
  - eapply quota_inv_books; [|exact Hinv]. by eapply rollback_books.
Qed.

(** What a registration leaves in the quota tables. *)
Lemma add_proxy_records s c user : quota_inv s ->
  proxy_user_ports (quotas (add_proxy_inner s c user).2) =
    if is_ok (add_proxy_inner s c user).1 then
      match user, max_ports_per_user (options s) with
      | Some u, Some _ => if decide (0 < ports_used c)
                          then <[px_name c := (u, ports_used c)]> (proxy_user_ports (quotas s))
                          else proxy_user_ports (quotas s)
      | _, _ => proxy_user_ports (quotas s)
      end
    else proxy_user_ports (quotas s).
Proof.
  intros Hinv. unfold add_proxy_inner. destruct (proxies s !! px_name c) eqn:Hn; [done|].
  destruct (check_group c); [|done].
  destruct (reserve_quota s c user) as [[[]|e] q] eqn:Er; [|done].
  set (s0 := with_proxies (with_quotas s q) (<[px_name c := c]> (proxies s))).
  change (with_proxies (with_quotas s q) (<[px_name c := c]> (proxies (with_quotas s q)))) with s0.
  pose proof (start_proxy_books s0 c) as Hb. destruct (start_proxy s0 c) as [[u|e] s1]; simpl in *.
  - destruct Hb as (_ & -> & _). simpl. revert Er. unfold reserve_quota.
    repeat case_match; intros; by simplify_eq.
  - destruct (rollback_books s c user q s1 Hinv Hn Er Hb) as (_ & E & _).
    exact (f_equal proxy_user_ports E).
Qed.

Lemma add_proxy_inner_limit s c user :
  max_ports_per_user (options (add_proxy_inner s c user).2) = max_ports_per_user (options s).
Proof.
  unfold add_proxy_inner. destruct (proxies s !! px_name c); [done|].
  destruct (check_group c); [|done]. destruct (reserve_quota s c user) as [[[]|e] q]; [|done].
  set (s0 := with_proxies _ _). pose proof (start_proxy_books s0 c) as (_ & _ & Ho).
  destruct (start_proxy s0 c) as [[u|e] s1]; simpl in *; [by rewrite Ho|].
  repeat case_match; simpl; by rewrite Ho.
Qed.

(** Starting a proxy does not look at the quotas. *)
Lemma start_proxy_any_quotas s c q :
  (start_proxy (with_quotas s q) c).1 = (start_proxy s c).1.
Proof.
  unfold start_proxy, start_tcp_proxy, start_websocket_proxy, start_udp_proxy,
    register_vhost_proxy, register_tcpmux_proxy, bind_listener.
  repeat first [done | progress cbn [options net group_registry vhost tcpmux with_quotas with_groups] | case_match].
Qed.

Lemma stop_proxy_books s name : same_books s (stop_proxy s name).
Proof.
  unfold stop_proxy. destruct (group_port_of _ _) as [port|]; [|done].
  destruct (leave _ _ _) as [empty g]. by destruct empty.
Qed.

Lemma remove_proxy_records s name :
  proxy_user_ports (quotas (remove_proxy s name)) = delete name (proxy_user_ports (quotas s)).
Proof.
  unfold remove_proxy. destruct (stop_proxy_books s name) as (_ & E & _). simpl.
  unfold release_user_quota. rewrite E.
  destruct (proxy_user_ports (quotas s) !! name) as [[u n]|] eqn:En; [done|].
  by rewrite delete_id.
Qed.

Lemma remove_proxy_inv s name : quota_inv s -> quota_inv (remove_proxy s name).
Proof.
  intros Hinv. unfold remove_proxy.
  pose proof (quota_inv_books _ _ (stop_proxy_books s name) Hinv) as Hs.
  exact (release_quota_inv (stop_proxy s name) name Hs).
Qed.

Lemma quota_inv_new o : quota_inv (manager_new o).
Proof.
  assert (forall u, user_total ∅ u = 0) as H0.
  { intros u. unfold user_total. by rewrite map_filter_empty, map_size_empty. }
  constructor; simpl.
  - by intros name user n.
  - intros user. by rewrite H0, lookup_empty.
  - intros user. by rewrite lookup_empty.
  - intros limit user _. rewrite H0. lia.
Qed.

Lemma manager_step_quota s o : quota_inv s -> quota_inv (manager_step s o).
Proof.
  intros Hinv. destruct o; simpl.
  - by apply add_proxy_inner_inv.
  - by apply add_proxy_inner_inv.
  - by apply remove_proxy_inv.
  - by apply (quota_inv_books s).
  - destruct Hinv as [He Hc Hp Hl]. by constructor.
  - apply (quota_inv_books (manager_new (options s))); [done|apply quota_inv_new].
Qed.
End ManagerLemmas.

Lemma manager_eta s : s = {| proxies := proxies s; net := net s; vhost := vhost s;
  tcpmux := tcpmux s; group_registry := group_registry s; quotas := quotas s; options := options s |}.
Proof. by destruct s. Qed.

Lemma ingress_eta n : n = {| listeners := listeners n; accept_handles := accept_handles n;
  accept_tasks := accept_tasks n; udp_sessions := udp_sessions n;
  udp_accept_handles := udp_accept_handles n; udp_tasks := udp_tasks n |}.
Proof. by destruct n. Qed.

(** Books and the rest equal: the same state. *)
Lemma same_books_eq s s' : same_books s s' -> net s' = net s -> vhost s' = vhost s ->
  tcpmux s' = tcpmux s -> group_registry s' = group_registry s -> s' = s.
Proof. intros (? & ? & ?) ? ? ? ?. rewrite (manager_eta s), (manager_eta s'). congruence. Qed.

Lemma task_remove (p : Z) (tasks : gset Z) : p ∉ tasks -> ({[p]} ∪ tasks) ∖ {[p]} = tasks.
Proof. set_solver. Qed.

Lemma close_open_listener n key port : listeners n !! key = None -> accept_handles n !! key = None ->
  port ∉ accept_tasks n -> close_listener (open_listener n key port) key = n.
Proof.
  intros Hl Hh Ht. unfold close_listener, open_listener. simpl.
  rewrite lookup_insert_eq, !delete_insert_id, task_remove by done. by destruct n.
Qed.

Lemma close_open_udp n name port : udp_sessions n !! name = None ->
  udp_accept_handles n !! name = None -> port ∉ udp_tasks n -> close_udp (open_udp n name port) name = n.
Proof.
  intros Hl Hh Ht. unfold close_udp, open_udp. simpl.
  rewrite lookup_insert_eq, !delete_insert_id, task_remove by done. by destruct n.
Qed.

Lemma close_listener_absent n key : listeners n !! key = None -> accept_handles n !! key = None ->
  close_listener n key = n.
Proof. intros Hl Hh. unfold close_listener. rewrite Hh, !delete_id by done. by destruct n. Qed.

Lemma close_udp_absent n name : udp_sessions n !! name = None -> udp_accept_handles n !! name = None ->
  close_udp n name = n.
Proof. intros Hl Hh. unfold close_udp. rewrite Hh, !delete_id by done. by destruct n. Qed.

Lemma unregister_absent v name : map_Forall (fun _ p => p <> name) (domain_map v) ->
  vhost_configs v !! name = None -> unregister_proxy v name = v.
Proof.
  intros Hd Hc. unfold unregister_proxy. rewrite delete_id by done.
  rewrite map_filter_id; [by destruct v|]. intros k p Hk. by apply (Hd k).
Qed.

Lemma tcpmux_unregister_absent t name : proxy_domains t !! name = None -> tcpmux_unregister t name = t.
Proof. intros Ht. unfold tcpmux_unregister. by rewrite Ht. Qed.

(** Removing a proxy whose sockets close to the old ones restores the state. *)
Lemma remove_restores s c q n user `{Os} :
  unknown s (px_name c) -> quota_inv s -> proxies s !! px_name c = None -> px_group c = None ->
  reserve_quota s c user = (Ok tt, q) ->
  close_udp (close_listener n (px_name c)) (px_name c) = net s ->
  remove_proxy (with_net (with_proxies (with_quotas s q) (<[px_name c := c]> (proxies s))) n)
    (px_name c) = s.
Proof.
  intros [_ _ _ _ Hd Hv Ht] Hinv Hn Hg Hr Hc.
  unfold remove_proxy, stop_proxy, group_port_of. cbn [proxies with_net with_proxies with_quotas
    with_vhost with_tcpmux vhost tcpmux net].
  rewrite lookup_insert_eq. cbn [mbind option_bind]. rewrite Hg. cbn [mbind option_bind].
  apply same_books_eq; cbn [with_proxies with_quotas with_net with_vhost with_tcpmux net vhost tcpmux
    group_registry quotas].
  - split_and!; cbn [with_proxies with_quotas with_net with_vhost with_tcpmux proxies quotas options];
      [by rewrite delete_insert_id|by eapply release_reserve|done].
  - exact Hc.
  - by apply unregister_absent.
  - by apply tcpmux_unregister_absent.
  - done.
Qed.

(** A started proxy of a type without routes has at most one socket of its own. *)
Lemma start_proxy_sockets `{OsLaws} s c s' :
  px_group c = None ->
  px_type c <> "http"%string -> px_type c <> "https"%string -> px_type c <> "tcpmux"%string ->
  start_proxy s c = (Ok tt, s') ->
  s' = s \/
  (exists p, p ∉ accept_tasks (net s) /\ s' = with_net s (open_listener (net s) (px_name c) p)) \/
  (exists p, p ∉ udp_tasks (net s) /\ s' = with_net s (open_udp (net s) (px_name c) p)).
Proof.
  intros Hg H1 H2 H3. unfold start_proxy, start_tcp_proxy, start_websocket_proxy, start_udp_proxy,
    bind_listener. rewrite Hg.
  destruct (decide (px_type c = "tcp"%string)); [|rewrite (decide_False (P := _ \/ _)) by tauto;
    destruct (decide (px_type c = "udp"%string)); [|destruct (decide (px_type c = "websocket"%string));
      [|rewrite decide_False by done; intros [= <-]; by left]]].
  all: destruct (px_remote_port c) as [port|]; [|intros [= <-]; by left || done].
  all: destruct (negb _); [done|].
  - destruct (tcp_bind _ _) as [p|] eqn:E; [|done]. intros [= <-]. right; left. exists p.
    apply tcp_bind_free in E as [E _]. unfold tcp_bound in E. split; [set_solver|done].
  - destruct (udp_bind _ _) as [p|] eqn:E; [|done]. intros [= <-]. right; right. exists p.
    apply udp_bind_free in E as [E _]. unfold udp_bound in E. split; [set_solver|done].
  - destruct (tcp_bind _ _) as [p|] eqn:E; [|done]. intros [= <-]. right; left. exists p.
    apply tcp_bind_free in E as [E _]. unfold tcp_bound in E. split; [set_solver|done].
Qed.

(** What a successful registration went through. *)
Lemma add_proxy_inner_Ok `{Os} s c user s' : add_proxy_inner s c user = (Ok tt, s') ->
  proxies s !! px_name c = None /\ check_group c = Ok tt /\
  exists q, reserve_quota s c user = (Ok tt, q) /\
    start_proxy (with_proxies (with_quotas s q) (<[px_name c := c]> (proxies s))) c = (Ok tt, s').
Proof.
  unfold add_proxy_inner. destruct (proxies s !! px_name c); [done|].
  destruct (check_group c) as [[]|]; [|done].
  destruct (reserve_quota s c user) as [[[]|] q]; [|done].
  set (s0 := with_proxies _ _). destruct (start_proxy s0 c) as [[[]|] s1] eqn:E; [|done].
  intros [= <-]. split_and!; [done..|]. by exists q.
Qed.

Lemma port_allowed_true port ranges : port_allowed port ranges = true <->
  exists r, r ∈ ranges /\ (pr_single r = Some port \/
    exists start stop, pr_start r = Some start /\ pr_end r = Some stop /\ start <= port <= stop).
Proof.
  unfold port_allowed. rewrite bool_existsb. apply exist_proper. intros r.
  apply and_iff_compat_l. unfold range_allows. rewrite orb_true_iff.
  destruct (pr_single r) as [x|], (pr_start r) as [a|], (pr_end r) as [b|];
    rewrite ?bool_decide_eq_true; naive_solver.
Qed.

Lemma check_domain_Ok name allowlist d : check_domain name allowlist d = Ok tt <->
  domain_syntax (trim d) /\ (allowlist = [] \/ exists e, e ∈ allowlist /\ covers e d).
Proof.
  unfold check_domain. rewrite <- custom_domain_Ok.
  assert (domain_allowed d allowlist = true <->
    allowlist = [] \/ exists e, e ∈ allowlist /\ covers e d) as <-.
  { unfold domain_allowed. destruct allowlist as [|e l]; [naive_solver|].
    rewrite bool_existsb. setoid_rewrite entry_allows_true. naive_solver. }
  destruct (validate_custom_domain d) as [[]|]; [|naive_solver].
  destruct (domain_allowed d allowlist); naive_solver.
Qed.

Lemma reserve_quota_one s c user limit q : max_ports_per_user (options s) = Some limit ->
  ports_used c = 1 -> reserve_quota s c (Some user) = (Ok tt, q) ->
  default 0 (user_port_counts q !! user) = default 0 (user_port_counts (quotas s) !! user) + 1 /\
  default 0 (user_port_counts q !! user) <= limit.
Proof.
  intros Hlim Hone. unfold reserve_quota. rewrite Hlim, Hone, decide_True by lia.
  destruct (decide (limit < _)); [done|]. intros [= <-]. simpl. rewrite lookup_insert_eq. simpl. lia.
Qed.

(** A tcp proxy that asks to join a group. *)
Record grouped (c : ProxyConfig) (name key : string) (port : Z) : Prop := {
  gr_type : px_type c = "tcp"%string;
  gr_group : px_group c = Some name;
  gr_key : px_group_key c = Some key;
  gr_plugin : px_plugin c = None;
  gr_port : px_remote_port c = Some port;
}.

Lemma check_group_Ok c name key port : grouped c name key port -> check_group c = Ok tt.
Proof. intros [Ht Hg _ Hp Hr]. unfold check_group. by rewrite Hg, Ht, Hp, Hr. Qed.

Lemma start_grouped `{Os} s c name key port : grouped c name key port ->
  port_allowed port (allow_ports (options s)) = true ->
  start_proxy s c =
    let '(first, g) := join (group_registry s) name key port (px_name c) in
    match first with
    | Err e => (Err e, with_groups s g)
    | Ok false => (Ok tt, with_groups s g)
    | Ok true => bind_listener (with_groups s g) port (group_listener_key port)
    end.
Proof.
  intros [Ht Hg Hk _ Hp] Ha. unfold start_proxy. rewrite decide_True by done.
  unfold start_tcp_proxy. by rewrite Hp, Ha, Hg, Hk.
Qed.

(** The registry after the first member joined. *)
Lemma join_first g name key port proxy : group_ports g !! name = None -> groups g !! port = None ->
  join g name key port proxy =
    (Ok true,
     {| groups := <[port := {| group := name; group_key := key; members := [proxy]; rr_index := 0 |}]>
                    (groups g);
        group_ports := <[name := port]> (group_ports g) |}).
Proof. intros Hn Hp. unfold join, join_check, join_commit. by rewrite Hn, Hp. Qed.

Lemma join_later g name key port proxy s : group_ports g !! name = Some port ->
  groups g !! port = Some s -> group s = name -> group_key s = key ->
  (join g name key port proxy).1 = Ok false.
Proof.
  intros Hn Hp Hg Hk. unfold join, join_check, join_commit.
  rewrite Hn, decide_False, Hp, !decide_False by tauto. done.
Qed.

(** A registration without a user that fails to start keeps only what joining the
    group changed. *)
Lemma add_proxy_start_error `{Os} s c e g : quota_inv s -> proxies s !! px_name c = None ->
  check_group c = Ok tt ->
  (let s0 := with_proxies s (<[px_name c := c]> (proxies s)) in
   start_proxy s0 c = (Err e, with_groups s0 g)) ->
  add_proxy s c = (Err e, with_groups s g).
Proof.
  intros Hinv Hn Hc Hs. unfold add_proxy, add_proxy_inner. rewrite Hn, Hc. cbn [reserve_quota].
  set (s0 := with_proxies s (<[px_name c := c]> (proxies s))) in *.
  change (with_proxies (with_quotas s (quotas s)) _) with s0. cbn in Hs. rewrite Hs. f_equal.
  apply same_books_eq; [apply (rollback_books s c None (quotas s) (with_groups s0 g) Hinv Hn eq_refl);
    by split_and!|..]; destruct (max_ports_per_user _); [case_decide| |case_decide| |case_decide| |case_decide|]; done.
Qed.

(** ** Theorems *)

Lemma manager_quota `{Os} o ops : quota_inv (foldl manager_step (manager_new o) ops).
Proof.
  induction ops as [|op ops IH] using rev_ind; [apply quota_inv_new|].
  rewrite foldl_app. by apply manager_step_quota.
Qed.

(** With a limit, the quota tables record exactly the holders. *)
Lemma holders_step_recorded `{Os} limit s h o :
  quota_inv s -> max_ports_per_user (options s) = Some limit ->
  h = fst <$> proxy_user_ports (quotas s) ->
  holders_step s h o = fst <$> proxy_user_ports (quotas (manager_step s o)).
Proof.
  intros Hinv Hl ->. destruct o as [c|c user|name| | |]; cbn [holders_step manager_step];
    unfold add_proxy, add_proxy_for_user.
  - rewrite add_proxy_records by done. by case_match.
  - rewrite add_proxy_records by done. unfold takes_port. rewrite Hl.
    destruct (is_ok _); [|by rewrite decide_False by naive_solver]. unfold ports_used.
    destruct (decide (px_type c = "tcp"%string \/ px_type c = "udp"%string)).
    + rewrite !decide_True by (done || lia). by rewrite fmap_insert.
    + by rewrite !decide_False by (lia || tauto).
  - by rewrite remove_proxy_records, fmap_delete.
  - done.
  - done.
  - simpl. by rewrite fmap_empty.
Qed.

Lemma manager_step_limit `{Os} s o :
  max_ports_per_user (options (manager_step s o)) = max_ports_per_user (options s).
Proof.
  destruct o; simpl; try done; [apply add_proxy_inner_limit..|].
  unfold remove_proxy. by destruct (stop_proxy_books s name) as (_ & _ & ->).
Qed.

Lemma holders_recorded `{Os} limit ops s h :
  quota_inv s -> max_ports_per_user (options s) = Some limit ->
  h = fst <$> proxy_user_ports (quotas s) ->
  holders s h ops = fst <$> proxy_user_ports (quotas (foldl manager_step s ops)).
Proof.
  revert s h. induction ops as [|o ops IH]; intros s h Hinv Hl Hh; simpl; [done|].
  apply IH; [by apply manager_step_quota|by rewrite manager_step_limit|].
  by eapply holders_step_recorded.
Qed.

(** The count of the tables is the number of holders. *)
Lemma ports_held_total `{Os} s user : quota_inv s ->
  ports_held (fst <$> proxy_user_ports (quotas s)) user =
    default 0 (user_port_counts (quotas s) !! user).
Proof.
  intros Hinv. rewrite (qi_count s Hinv). unfold ports_held, user_total.
  rewrite map_filter_fmap. by rewrite map_size_fmap.
Qed.

(** Below the limit, registering for a user goes as registering without one. *)
Lemma add_below_limit `{Os} s c user limit : max_ports_per_user (options s) = Some limit ->
  (takes_port c -> default 0 (user_port_counts (quotas s) !! user) < limit) ->
  (add_proxy_for_user s c user).1 = (add_proxy s c).1.
Proof.
  intros Hl Hlt. unfold add_proxy_for_user, add_proxy, add_proxy_inner.
  destruct (proxies s !! px_name c); [done|]. destruct (check_group c); [|done].
  assert (exists q, reserve_quota s c (Some user) = (Ok tt, q)) as [q ->].
  { unfold reserve_quota, ports_used. rewrite Hl. unfold takes_port in Hlt.
    destruct (decide (px_type c = "tcp"%string \/ px_type c = "udp"%string)) as [Ht|].
    - specialize (Hlt Ht). rewrite decide_True, decide_False by lia. by eexists.
    - rewrite decide_False by lia. by eexists. }
  cbn [reserve_quota]. cbv zeta.
  pose proof (start_proxy_any_quotas
    (with_proxies (with_quotas s q) (<[px_name c := c]> (proxies s))) c (quotas s)) as Hq.
  change (with_quotas (with_proxies (with_quotas s q) _) (quotas s)) with
    (with_proxies (with_quotas s (quotas s)) (<[px_name c := c]> (proxies s))) in Hq.
  change (proxies (with_quotas s q)) with (proxies s).
  change (proxies (with_quotas s (quotas s))) with (proxies s).
  destruct (start_proxy (with_proxies (with_quotas s q) _) c) as [r1 s1],
    (start_proxy (with_proxies (with_quotas s (quotas s)) _) c) as [r2 s2].
  simpl in Hq. subst r2. by destruct r1.
Qed.

(** At the limit, a proxy that takes a port is refused and nothing changes. *)
Lemma add_at_limit `{Os} s c user limit : max_ports_per_user (options s) = Some limit ->
  takes_port c -> limit <= default 0 (user_port_counts (quotas s) !! user) ->
  is_ok (add_proxy_for_user s c user).1 = false /\ (add_proxy_for_user s c user).2 = s.
Proof.
  intros Hl Ht Hle. unfold add_proxy_for_user, add_proxy_inner, reserve_quota, ports_used.
  destruct (proxies s !! px_name c); [done|]. destruct (check_group c); [|done].
  rewrite Hl, (decide_True (P := _ \/ _)) by done. by rewrite !decide_True by lia.
Qed.

(** C37: The quota of ports is enforced.  Take a server with a limit above zero
    (what zero does is [zero_limit_refuses_all]) and any sequence of registrations, removals, reloads of the allowed
    ports, shutdowns of the ingress and clears, and count for each user, from the
    results of these operations alone, the tcp and udp proxies registered for it
    and not removed since.  The count never exceeds the limit; a user at the limit
    is refused any further tcp or udp proxy, and the manager stays as it was; below
    the limit, and for every other type of proxy, the answer is the one the
    registration gets without a user, so nobody is refused for the ports of another
    user, for a registration that failed, or for a proxy removed since. *)
Theorem quota_invariant `{Os} o limit ops user c :
  max_ports_per_user o = Some limit -> 0 < limit ->
  let s := foldl manager_step (manager_new o) ops in
  let held := ports_held (holders (manager_new o) ∅ ops) user in
  held <= limit /\
  (takes_port c -> held = limit ->
     is_ok (add_proxy_for_user s c user).1 = false /\ (add_proxy_for_user s c user).2 = s) /\
  (~ takes_port c \/ held < limit -> (add_proxy_for_user s c user).1 = (add_proxy s c).1).
Proof.
  intros Hl Hpos s held. pose proof (manager_quota o ops) as Hinv. fold s in Hinv.
  assert (max_ports_per_user (options s) = Some limit) as Hls.
  { subst s. clear -Hl. induction ops as [|op ops IH] using rev_ind; [done|].
    by rewrite foldl_app; simpl; rewrite manager_step_limit. }
  assert (held = default 0 (user_port_counts (quotas s) !! user)) as Hh.
  { subst held. rewrite <- ports_held_total by done. f_equal.
    apply (holders_recorded limit); [apply quota_inv_new|done|symmetry; apply fmap_empty]. }
  split_and!.
  - rewrite Hh, (qi_count s Hinv). pose proof (qi_limit s Hinv limit user Hls). lia.
  - intros Ht Heq. apply (add_at_limit s c user limit); [done..|lia].
  - intros Hor. apply (add_below_limit s c user limit); [done|]. intros Ht.
    destruct Hor; [done|lia].
Qed.

(** A registration outside groups that fails, for whatever reason, leaves the
    manager exactly as it was: names, sockets, routes and quotas. *)
Theorem failed_add_unchanged `{Os} s c user e s' :
  quota_inv s -> px_group c = None -> add_proxy_inner s c user = (Err e, s') -> s' = s.
Proof.
  intros Hinv Hg. unfold add_proxy_inner.
  destruct (proxies s !! px_name c) eqn:Hn; [by intros [= _ <-]|].
  destruct (check_group c); [|by intros [= _ <-]].
  destruct (reserve_quota s c user) as [[[]|e'] q] eqn:Er; [|by intros [= _ <-]].
  set (s0 := with_proxies (with_quotas s q) (<[px_name c := c]> (proxies s))).
  change (with_proxies (with_quotas s q) (<[px_name c := c]> (proxies (with_quotas s q)))) with s0.
  destruct (start_proxy s0 c) as [[u|e'] s1] eqn:Es; [done|].
  apply start_proxy_error in Es as ->; [|done]. intros [= _ <-].
  apply same_books_eq; [by apply (rollback_books s c user q s0)|..];
    destruct (max_ports_per_user _); simpl; by try case_decide.
Qed.

(** Registering and then removing a proxy that owns no routes gives back the
    same state: its listener, task, session and quota are all released. *)
Theorem add_remove_roundtrip `{OsLaws} s c user s' :
  quota_inv s -> unknown s (px_name c) -> px_group c = None ->
  px_type c <> "http"%string -> px_type c <> "https"%string -> px_type c <> "tcpmux"%string ->
  add_proxy_inner s c user = (Ok tt, s') -> remove_proxy s' (px_name c) = s.
Proof.
  intros Hinv Hun Hg H1 H2 H3 Hadd. apply add_proxy_inner_Ok in Hadd as (Hn & _ & q & Hr & Hs).
  pose proof Hun as [Hl Hh Hse Hu _ _ _].
  apply start_proxy_sockets in Hs; [|done..]. cbn [net with_proxies with_quotas] in Hs.
  destruct Hs as [->|[(p & Hp & ->)|(p & Hp & ->)]].
  - apply (remove_restores s c q (net s) user); try done.
    by rewrite close_listener_absent, close_udp_absent.
  - apply (remove_restores s c q _ user); try done.
    by rewrite close_open_listener, close_udp_absent.
  - apply (remove_restores s c q _ user); try done.
    rewrite close_listener_absent by done. by apply close_open_udp.
Qed.

(** A custom domain is accepted for a proxy exactly when it is well formed and
    either there is no allow-list or some entry covers it: the same name, or below
    a wildcard entry a strict subdomain or the wildcard itself, never its apex. *)
Theorem check_domains_iff name domains allowlist :
  check_domains name domains allowlist = Ok tt <->
  Forall (fun d => domain_syntax (trim d) /\
    (allowlist = [] \/ exists e, e ∈ allowlist /\ covers e d)) domains.
Proof. unfold check_domains. rewrite for_each_Ok. apply Forall_iff, check_domain_Ok. Qed.

(** An ungrouped tcp proxy that registers has its own remote port bound, which
    the server's ranges allow and nobody in this process held before, and takes
    one port of its user's quota. *)
Theorem tcp_add_binds `{OsLaws} s c user limit port s' :
  quota_inv s -> unknown s (px_name c) -> px_group c = None -> px_type c = "tcp"%string ->
  px_remote_port c = Some port -> port <> 0 -> max_ports_per_user (options s) = Some limit ->
  add_proxy_for_user s c user = (Ok tt, s') ->
  port_allowed port (allow_ports (options s)) = true /\
  port ∉ tcp_bound (net s) /\ listeners (net s') !! px_name c = Some port /\
  port ∈ tcp_bound (net s') /\
  default 0 (user_port_counts (quotas s') !! user) =
    default 0 (user_port_counts (quotas s) !! user) + 1 /\
  default 0 (user_port_counts (quotas s') !! user) <= limit.
Proof.
  intros Hinv Hun Hg Ht Hp Hnz Hlim Hadd. apply add_proxy_inner_Ok in Hadd as (Hn & _ & q & Hr & Hs).
  unfold start_proxy in Hs. rewrite Ht in Hs. cbn in Hs. unfold start_tcp_proxy, bind_listener in Hs.
  rewrite Hp, Hg in Hs. cbn [options net with_proxies with_quotas] in Hs.
  destruct (port_allowed port (allow_ports (options s))) eqn:Ea; [|done]. cbn [negb] in Hs.
  destruct (tcp_bind _ _) as [p|] eqn:Eb; [|done]. apply tcp_bind_free in Eb as [Hf Hpp].
  specialize (Hpp Hnz) as ->. injection Hs as <-. cbn [net with_net listeners open_listener].
  split_and!; [done|done|by rewrite lookup_insert_eq|unfold tcp_bound; simpl; set_solver|..];
    destruct (reserve_quota_one s c user limit q Hlim ltac:(unfold ports_used; by rewrite Ht) Hr);
    done.
Qed.

(** When the first member of a group cannot bind the shared port, its
    registration is rolled back but it stays a member: a later member of the same
    group registers successfully and nobody listens on the port. *)
Theorem group_bind_failure_leaves_member `{Os} s c c2 name key port e :
  quota_inv s -> grouped c name key port -> grouped c2 name key port ->
  proxies s !! px_name c = None -> proxies s !! px_name c2 = None ->
  port_allowed port (allow_ports (options s)) = true ->
  group_ports (group_registry s) !! name = None -> groups (group_registry s) !! port = None ->
  tcp_bind port (tcp_bound (net s)) = Err e ->
  let '(r, s1) := add_proxy s c in
  let '(r2, s2) := add_proxy s1 c2 in
  r = Err e /\ proxies s1 = proxies s /\ net s1 = net s /\
  members <$> groups (group_registry s1) !! port = Some [px_name c] /\
  r2 = Ok tt /\ net s2 = net s.
Proof.
  intros Hinv Hc Hc2 Hn Hn2 Ha Hgp Hgr Hb.
  pose proof (join_first _ _ key _ (px_name c) Hgp Hgr) as Hj.
  set (g := {| groups := _; group_ports := _ |}) in Hj.
  rewrite (add_proxy_start_error s c e g); [|done|done|by eapply check_group_Ok|]; cycle 1.
  { cbn zeta. rewrite (start_grouped _ c name key port) by done.
    change (group_registry (with_proxies _ _)) with (group_registry s). rewrite Hj.
    unfold bind_listener. change (net (with_groups (with_proxies _ _) g)) with (net s). by rewrite Hb. }
  unfold add_proxy, add_proxy_inner. change (proxies (with_groups s g)) with (proxies s).
  rewrite Hn2, (check_group_Ok c2 name key port) by done. cbn [reserve_quota].
  rewrite (start_grouped _ c2 name key port) by done.
  change (group_registry (with_proxies _ _)) with g.
  pose proof (join_later g name key port (px_name c2) _ (lookup_insert_eq _ _ _) (lookup_insert_eq _ _ _)
    eq_refl eq_refl) as Hl.
  destruct (join g name key port (px_name c2)) as [r2 g2]. simpl in Hl. subst r2.
  split_and!; try done. change (group_registry (with_groups s g)) with g. subst g. simpl.
  by rewrite lookup_insert_eq.
Qed.

(** A limit of zero refuses every tcp and udp proxy of a user; the documentation of
    [max_ports_per_user] says that zero means no limit. *)
Theorem zero_limit_refuses_all `{Os} s c user :
  quota_inv s -> proxies s !! px_name c = None -> check_group c = Ok tt ->
  max_ports_per_user (options s) = Some 0 -> ports_used c = 1 ->
  is_ok (add_proxy_for_user s c user).1 = false.
Proof.
  intros Hinv Hn Hg Hm Hu. unfold add_proxy_for_user, add_proxy_inner, reserve_quota.
  rewrite Hn, Hg, Hm, Hu, decide_True, (qi_count s Hinv) by lia.
  pose proof (user_total_nonneg (proxy_user_ports (quotas s)) user). by rewrite decide_True by lia.
Qed.

(** ** A small machine: every free port binds, except the privileged ones *)
Definition toy_bind (port : Z) (bound : gset Z) : result string Z :=
  if decide (port < 1024) then Err "Permission denied (os error 13)"%string
  else if decide (port ∈ bound) then Err "Address already in use (os error 98)"%string
  else Ok port.

#[global] Instance toy_os : Os := {| tcp_bind := toy_bind; udp_bind := toy_bind |}.
#[global] Instance toy_os_laws : OsLaws.
Proof.
  split; intros port bound p; simpl; unfold toy_bind; repeat case_decide; try done;
    by intros [= <-].
Qed.

Definition tcp_proxy (name : string) (group : option string) (port : Z) : ProxyConfig :=
  {| px_name := name; px_type := "tcp"; px_local_ip := "127.0.0.1"; px_local_port := 22;
     px_remote_port := Some port; px_custom_domains := None; px_subdomain := None;
     px_locations := None; px_host_header_rewrite := None; px_http_user := None;
     px_http_password := None; px_health_check := None; px_bandwidth_limit := None;
     px_secret_key := None; px_transport := None; px_plugin := None; px_proxy_protocol := None;
     px_proxy_protocol_version := None; px_group := group; px_group_key := Some "k"%string;
     px_use_encryption := false; px_use_compression := false; px_multiplexer := None;
     px_route_by_http_user := None; px_allow_users := None |}.

Definition toy_manager : Manager :=
  manager_new {| allow_ports := [{| pr_start := Some 1; pr_end := Some 65535; pr_single := None |}];
                 max_ports_per_user := Some 2; custom_domains_allowlist := [];
                 tcpmux_port := None |}.

(** Group keys share their name space with proxy names: a proxy named like the key
    of a live group replaces the group's entry, and when the group empties its
    port stays bound while the other proxy's listener is closed. *)
Theorem group_key_collision :
  let s := foldl manager_step toy_manager
             [OpAdd (tcp_proxy "web-1" (Some "web"%string) 8080);
              OpAdd (tcp_proxy "__group_port_8080__" None 9000);
              OpRemove "web-1"%string] in
  proxies s !! "__group_port_8080__"%string <> None /\
  bool_decide (8080 ∈ tcp_bound (net s)) = true /\ bool_decide (9000 ∈ tcp_bound (net s)) = false.
Proof. split_and!; vm_compute; done. Qed.

(** ** Witnesses *)
Lemma quota_invariant_witness :
  let ops := [OpAddForUser (tcp_proxy "ssh" None 6000) "bob";
              OpAddForUser (tcp_proxy "db" None 6001) "bob";
              OpAddForUser (tcp_proxy "web" None 6002) "alice"] in
  let s := foldl manager_step toy_manager ops in
  ports_held (holders toy_manager ∅ ops) "bob" = 2 /\
  is_ok (add_proxy_for_user s (tcp_proxy "third" None 6003) "bob").1 = false /\
  (add_proxy_for_user s (tcp_proxy "third" None 6003) "alice").1 = Ok tt.
Proof.
  intros ops s.
  assert (max_ports_per_user (options toy_manager) = Some 2) as Hl by reflexivity.
  destruct (quota_invariant (options toy_manager) 2 ops "bob" (tcp_proxy "third" None 6003) Hl
    ltac:(lia)) as (_ & Hfull & _).
  destruct (quota_invariant (options toy_manager) 2 ops "alice" (tcp_proxy "third" None 6003) Hl
    ltac:(lia)) as (_ & _ & Hfree).
  split; [vm_compute; reflexivity|]. split.
  - apply Hfull; [by left|vm_compute; reflexivity].
  - etransitivity; [apply Hfree; right; vm_compute; reflexivity|vm_compute; reflexivity].
Defined.

Lemma failed_add_unchanged_witness :
  let s := foldl manager_step toy_manager [OpAddForUser (tcp_proxy "ssh" None 6000) "bob"] in
  exists e, add_proxy_inner s (tcp_proxy "ssh2" None 6000) (Some "bob"%string) = (Err e, s).
Proof.
  intros s. eexists.
  destruct (add_proxy_inner s (tcp_proxy "ssh2" None 6000) (Some "bob"%string)) as [r s'] eqn:E.
  destruct r as [u|e].
  - exfalso. assert (is_ok (add_proxy_inner s (tcp_proxy "ssh2" None 6000) (Some "bob"%string)).1 = false)
      as Hf by (vm_compute; reflexivity). by rewrite E in Hf.
  - rewrite (failed_add_unchanged s (tcp_proxy "ssh2" None 6000) (Some "bob"%string) e s').
    + assert ((add_proxy_inner s (tcp_proxy "ssh2" None 6000) (Some "bob"%string)).1 =
        Err "Address already in use (os error 98)"%string) as He by (vm_compute; reflexivity).
      rewrite E in He. injection He as ->. reflexivity.
    + apply (manager_quota _ [_]).
    + reflexivity.
    + exact E.
Defined.

Lemma toy_unknown name : unknown toy_manager name.
Proof. by constructor. Qed.

Lemma add_remove_roundtrip_witness :
  let c := tcp_proxy "ssh" None 6000 in
  let out := add_proxy_inner toy_manager c (Some "bob"%string) in
  is_ok out.1 = true /\ remove_proxy out.2 "ssh" = toy_manager.
Proof.
  intros c out. assert (is_ok out.1 = true) as Hok by (vm_compute; reflexivity). split; [done|].
  apply (add_remove_roundtrip toy_manager c (Some "bob"%string)); try done.
  all: first [ apply (manager_quota _ []) | apply toy_unknown
             | fold out; destruct out as [[[]|] s]; done ].
Defined.

Lemma tcp_add_binds_witness :
  let c := tcp_proxy "ssh" None 6000 in
  let out := add_proxy_for_user toy_manager c "bob" in
  port_allowed 6000 (allow_ports (options toy_manager)) = true /\
  6000 ∉ tcp_bound (net toy_manager) /\ listeners (net out.2) !! "ssh"%string = Some 6000 /\
  6000 ∈ tcp_bound (net out.2) /\
  default 0 (user_port_counts (quotas out.2) !! "bob"%string) =
    default 0 (user_port_counts (quotas toy_manager) !! "bob"%string) + 1 /\
  default 0 (user_port_counts (quotas out.2) !! "bob"%string) <= 2.
Proof.
  intros c out. assert (is_ok out.1 = true) as Hok by (vm_compute; reflexivity).
  apply (tcp_add_binds toy_manager c "bob" 2 6000); try done.
  all: first [ apply (manager_quota _ []) | apply toy_unknown
             | fold out; destruct out as [[[]|] s]; done ].
Defined.

Lemma group_bind_failure_leaves_member_witness :
  let '(r, s1) := add_proxy toy_manager (tcp_proxy "a" (Some "web"%string) 80) in
  let '(r2, s2) := add_proxy s1 (tcp_proxy "b" (Some "web"%string) 80) in
  r = Err "Permission denied (os error 13)"%string /\ proxies s1 = proxies toy_manager /\
  net s1 = net toy_manager /\ members <$> groups (group_registry s1) !! 80 = Some ["a"%string] /\
  r2 = Ok tt /\ net s2 = net toy_manager.
Proof.
  apply (group_bind_failure_leaves_member toy_manager (tcp_proxy "a" (Some "web"%string) 80)
    (tcp_proxy "b" (Some "web"%string) 80) "web" "k" 80); try done.
  apply (manager_quota _ []).
Defined.
