(* ===== verification/Throttle.v ===== *)
(** * Login throttling (src/rust_frp_server/src/login_throttle.rs)

    The table of failed logins behind its mutex: each method is one critical
    section, so one atomic step on the table.  Instants are nanoseconds and the
    clock reading is an argument. *)
From S2P Require Import Prelude RustStd.

(** [std::net::IpAddr], by its number. *)
Inductive ip_addr := V4 (bits : Z) | V6 (bits : Z).

Inductive ThrottleKey :=
| ClientKey (id : string)
| IpKey (ip : ip_addr).

#[global] Instance ip_addr_eq_dec : EqDecision ip_addr.
Proof. solve_decision. Defined.
#[global] Instance ip_addr_countable : Countable ip_addr.
Proof.
  refine (inj_countable' (fun a => match a with V4 z => inl z | V6 z => inr z end)
    (fun s => match s with inl z => V4 z | inr z => V6 z end) _).
  by intros [].
Defined.
#[global] Instance throttle_key_eq_dec : EqDecision ThrottleKey.
Proof. solve_decision. Defined.
#[global] Instance throttle_key_countable : Countable ThrottleKey.
Proof.
  refine (inj_countable' (fun a => match a with ClientKey s => inl s | IpKey i => inr i end)
    (fun s => match s with inl s => ClientKey s | inr i => IpKey i end) _).
  by intros [].
Defined.

(** [ThrottleKey::new]. *)
Definition throttle_key (client_id : string) (ip : option ip_addr) : option ThrottleKey :=
  let client_id := trim client_id in
  if negb (is_empty client_id) then Some (ClientKey client_id) else IpKey <$> ip.

Record Entry := {
  failures : Z;
  last_failure : Z;
  locked_until : option Z;
}.

Record LoginThrottle := {
  max_failures : Z;
  lockout : Z;
  window : Z;
  state : gmap ThrottleKey Entry;
}.

Definition with_state (t : LoginThrottle) (m : gmap ThrottleKey Entry) : LoginThrottle :=
  {| max_failures := max_failures t; lockout := lockout t; window := window t; state := m |}.

Definition MAX_ENTRIES : Z := 4096.

(** [LoginThrottle::new]: zero failures or zero seconds switch it off. *)
Definition new_throttle (max lockout_secs : Z) : option LoginThrottle :=
  if decide (max = 0 \/ lockout_secs = 0) then None else
  let lockout := secs lockout_secs in
  Some {| max_failures := max; window := Z.max lockout (secs 3600); lockout := lockout;
          state := ∅ |}.

Definition is_locked (now : Z) (e : Entry) : bool :=
  match locked_until e with Some u => bool_decide (now < u) | None => false end.

(** [Err remaining] refuses the attempt; an expired lock clears the entry. *)
Definition check (t : LoginThrottle) (now : Z) (key : ThrottleKey) : result Z unit * LoginThrottle :=
  match state t !! key with
  | None => (Ok tt, t)
  | Some entry =>
      match locked_until entry with
      | Some until =>
          if decide (now < until) then (Err (until - now), t)
          else (Ok tt, with_state t (delete key (state t)))
      | None => (Ok tt, t)
      end
  end.

(** The clean-up at capacity. *)
Definition prune (t : LoginThrottle) (now : Z) : gmap ThrottleKey Entry :=
  if decide (MAX_ENTRIES <= Z.of_nat (size (state t))) then
    filter (fun kv => duration_since now (last_failure kv.2) < window t /\ is_locked now kv.2 = true)
      (state t)
  else state t.

(** The count of the key after this failure, and the table. *)
Definition record_failure (t : LoginThrottle) (now : Z) (key : ThrottleKey) : Z * LoginThrottle :=
  let st := prune t now in
  let entry := default {| failures := 0; last_failure := now; locked_until := None |} (st !! key) in
  let count := if decide (window t < duration_since now (last_failure entry))
               then 0 else failures entry in
  let count := Z.min u32_max (count + 1) in
  let locked := if decide (max_failures t <= count) then Some (now + lockout t)
                else locked_until entry in
  (count, with_state t (<[key := {| failures := count; last_failure := now;
                                    locked_until := locked |}]> st)).

Definition record_success (t : LoginThrottle) (key : ThrottleKey) : LoginThrottle :=
  with_state t (delete key (state t)).

Definition locked_count (t : LoginThrottle) (now : Z) : Z :=
  Z.of_nat (size (filter (fun kv => is_locked now kv.2 = true) (state t))).

(** ** Runs of failures of one key *)
Fixpoint record_failures (t : LoginThrottle) (key : ThrottleKey) (times : list Z) : LoginThrottle :=
  match times with
  | [] => t
  | now :: times => record_failures (record_failure t now key).2 key times
  end.

(** Consecutive times, none further apart than the window. *)
Fixpoint gaps_within (w prev : Z) (times : list Z) : Prop :=
  match times with
  | [] => True
  | now :: times => prev <= now <= prev + w /\ gaps_within w now times
  end.

(** What the table knows about one key. *)
Definition knows (t : LoginThrottle) (key : ThrottleKey) (count last : Z) : Prop :=
  exists lock, state t !! key = Some {| failures := count; last_failure := last; locked_until := lock |} /\
    (max_failures t <= count -> lock = Some (last + lockout t)) /\
    (count < max_failures t -> lock = None).

#[global] Arguments record_failure : simpl never.

(** ** Lemmas *)
Lemma prune_below t now : Z.of_nat (size (state t)) < MAX_ENTRIES -> prune t now = state t.
Proof. intros H. unfold prune. by rewrite decide_False by lia. Qed.

Lemma record_failure_other t now key key' :
  Z.of_nat (size (state t)) < MAX_ENTRIES -> key <> key' ->
  state (record_failure t now key).2 !! key' = state t !! key'.
Proof.
  intros H Hne. unfold record_failure. simpl. by rewrite lookup_insert_ne, prune_below.
Qed.

Lemma record_failure_first t now key :
  Z.of_nat (size (state t)) < MAX_ENTRIES -> 0 < max_failures t -> 0 <= window t ->
  state t !! key = None ->
  (record_failure t now key).1 = 1 /\ knows (record_failure t now key).2 key 1 now.
Proof.
  intros Hs Hm Hw Hn. unfold record_failure. rewrite prune_below, Hn by done. simpl.
  unfold duration_since. rewrite Z.sub_diag, Z.max_id, decide_False by lia.
  split; [unfold u32_max; lia|]. unfold knows. simpl. rewrite lookup_insert_eq.
  eexists. split; [unfold u32_max; reflexivity|]. split; intros; by case_decide; (done || lia).
Qed.

Lemma record_failure_next t prev now key count :
  Z.of_nat (size (state t)) < MAX_ENTRIES -> 0 < max_failures t ->
  prev <= now <= prev + window t -> 0 <= count < u32_max ->
  knows t key count prev ->
  (record_failure t now key).1 = count + 1 /\ knows (record_failure t now key).2 key (count + 1) now.
Proof.
  intros Hs Hm Hw Hc (lock & Hl & H1 & H2). unfold record_failure.
  rewrite prune_below, Hl by done. simpl. unfold duration_since.
  rewrite decide_False, Z.min_r by lia. split; [done|]. unfold knows. simpl.
  rewrite lookup_insert_eq. eexists. split; [reflexivity|].
  split; intros; case_decide; (done || (try lia)). apply H2. lia.
Qed.

Lemma record_failure_size t now key e : state t !! key = Some e ->
  Z.of_nat (size (state t)) < MAX_ENTRIES ->
  size (state (record_failure t now key).2) = size (state t).
Proof.
  intros H Hs. unfold record_failure. simpl. rewrite prune_below by done.
  apply map_size_insert_Some. eauto.
Qed.

Lemma record_failures_knows t key prev times count :
  Z.of_nat (size (state t)) < MAX_ENTRIES -> 0 < max_failures t -> 0 <= count ->
  count + zlen times < u32_max -> gaps_within (window t) prev times -> knows t key count prev ->
  knows (record_failures t key times) key (count + zlen times) (default prev (last times)).
Proof.
  revert t prev count; induction times as [|now times IH];
    intros t prev count Hs Hm Hc Hl Hg Hk; simpl.
  { unfold zlen. simpl. by rewrite Z.add_0_r. }
  destruct Hg as [Hn Hg]. unfold zlen in *. simpl length in *.
  destruct (record_failure_next t prev now key count) as [_ Hk']; [done|done|lia|lia|done|].
  replace (count + Z.of_nat (S (length times))) with (count + 1 + Z.of_nat (length times)) by lia.
  replace (default prev (last (now :: times))) with (default now (last times))
    by (by rewrite last_cons; destruct (last times)).
  assert (size (state (record_failure t now key).2) = size (state t)) as Hsz.
  { destruct Hk as (lock & Hk & _). by eapply record_failure_size. }
  rewrite <- Hsz in Hs. by apply IH; [exact Hs|done|lia|lia|exact Hg|exact Hk'].
Qed.

Lemma record_failures_config t key times :
  max_failures (record_failures t key times) = max_failures t /\
  lockout (record_failures t key times) = lockout t.
Proof. revert t; induction times as [|now times IH]; intros t; [done|]. apply (IH (record_failure t now key).2). Qed.

(** ** Theorems *)

(** "N failures lock for M seconds".  From a table below capacity that does
    not know the key, a run of failures no further apart than the retention
    window leaves the key open while there are fewer than [max_failures] of
    them, and otherwise locked: every attempt before [last + lockout] is refused
    with the exact remaining time, the first attempt after it is admitted and
    clears the entry, and a success clears it at once. *)
Theorem lock_after_max_failures t key first times now :
  Z.of_nat (size (state t)) + 1 < MAX_ENTRIES -> 0 < max_failures t -> 0 <= window t ->
  1 + zlen times < u32_max -> state t !! key = None ->
  gaps_within (window t) first times ->
  let t' := record_failures t key (first :: times) in
  let last := default first (last times) in
  (1 + zlen times < max_failures t -> check t' now key = (Ok tt, t')) /\
  (max_failures t <= 1 + zlen times ->
     (now < last + lockout t -> check t' now key = (Err (last + lockout t - now), t')) /\
     (last + lockout t <= now ->
        check t' now key = (Ok tt, with_state t' (delete key (state t'))))) /\
  (check (record_success t' key) now key).1 = Ok tt.
Proof.
  intros Hs Hm Hw Hl Hn Hg t' last.
  destruct (record_failure_first t first key) as [_ Hk1]; [lia|done..|].
  assert (knows t' key (1 + zlen times) last) as Hk.
  { apply (record_failures_knows (record_failure t first key).2 key first times 1); try done.
    unfold record_failure. simpl.
    rewrite prune_below by lia. rewrite map_size_insert_None by done. lia. }
  assert (max_failures t' = max_failures t /\ lockout t' = lockout t) as [Em El].
  { exact (record_failures_config t key (first :: times)). }
  destruct Hk as (lock & Hlk & H1 & H2). rewrite Em, El in *.
  split_and!.
  - intros Hlt. unfold check. by rewrite Hlk, H2.
  - intros Hge. rewrite (H1 Hge) in Hlk. unfold check. rewrite Hlk. simpl.
    split; intros; case_decide; (done || lia).
  - unfold check, record_success. simpl. by rewrite lookup_delete_eq.
Qed.

Definition demo_throttle : LoginThrottle :=
  {| max_failures := 2; lockout := secs 60; window := secs 3600; state := ∅ |}.

Lemma lock_after_max_failures_witness :
  check (record_failures demo_throttle (ClientKey "frpc") [0; 5]) 10 (ClientKey "frpc")
  = (Err (5 + secs 60 - 10), record_failures demo_throttle (ClientKey "frpc") [0; 5]).
Proof.
  refine (proj1 (proj1 (proj2 (lock_after_max_failures demo_throttle (ClientKey "frpc")
    0 [5] 10 _ _ _ _ _ _)) _) _);
    vm_compute; repeat split; (reflexivity || discriminate).
Defined.

(** Failures of one key never lock, unlock or count against another key,
    and neither does a success, as long as the table is below capacity. *)
Theorem throttle_isolation t key key' now now' :
  key <> key' -> Z.of_nat (size (state t)) < MAX_ENTRIES ->
  (check (record_failure t now key).2 now' key').1 = (check t now' key').1 /\
  (check (record_success t key) now' key').1 = (check t now' key').1 /\
  (check (check t now key).2 now' key').1 = (check t now' key').1.
Proof.
  intros Hne Hs.
  assert (forall t', state t' !! key' = state t !! key' ->
    (check t' now' key').1 = (check t now' key').1) as Hc.
  { intros t' E. unfold check. rewrite E. by repeat case_match. }
  split_and!; apply Hc.
  - by apply record_failure_other.
  - unfold record_success. simpl. by rewrite lookup_delete_ne.
  - unfold check. repeat case_match; try done. simpl. by rewrite lookup_delete_ne.
Qed.

Lemma throttle_isolation_witness :
  (check (record_failure demo_throttle 0 (ClientKey "a")).2 1 (ClientKey "b")).1
  = (check demo_throttle 1 (ClientKey "b")).1.
Proof.
  refine (proj1 (throttle_isolation demo_throttle (ClientKey "a") (ClientKey "b") 0 1 _ _));
    [discriminate|vm_compute; reflexivity].
Defined.

(** At capacity the clean-up does not only drop stale entries: it drops
    every entry that is not locked, however recent its failures are.  A key
    with any number of fresh failures below the limit starts again at one, and
    locked entries survive so the table can also grow past its cap. *)
Theorem capacity_forgets_fresh_failures t now key e :
  MAX_ENTRIES <= Z.of_nat (size (state t)) -> 1 < max_failures t -> 0 <= window t ->
  (state t !! key = Some e -> is_locked now e = false ->
     (record_failure t now key).1 = 1 /\
     (check (record_failure t now key).2 now key).1 = Ok tt) /\
  (map_Forall (fun _ e => duration_since now (last_failure e) < window t /\
                          is_locked now e = true) (state t) ->
   state t !! key = None ->
     Z.of_nat (size (state (record_failure t now key).2)) = Z.of_nat (size (state t)) + 1).
Proof.
  intros Hs Hm Hw. unfold record_failure, prune. rewrite (decide_True (P := MAX_ENTRIES <= _)) by done. split.
  - intros He Hl.
    assert (filter (fun kv : ThrottleKey * Entry =>
      duration_since now (last_failure kv.2) < window t /\ is_locked now kv.2 = true)
      (state t) !! key = None) as ->.
    { apply map_lookup_filter_None. right. intros x Hx [_ Hk]. simpl in Hk. congruence. }
    simpl. unfold duration_since. rewrite Z.sub_diag, Z.max_id, (decide_False (P := window t < 0)) by lia.
    simpl. rewrite decide_False by (unfold u32_max; lia). split; [done|].
    unfold check. simpl. by rewrite lookup_insert_eq.
  - intros Hall Hn. simpl.
    assert (filter (fun kv : ThrottleKey * Entry =>
      duration_since now (last_failure kv.2) < window t /\ is_locked now kv.2 = true)
      (state t) = state t) as ->.
    { apply map_filter_id. intros i x Hix. by apply (Hall i x). }
    rewrite map_size_insert_None by done. lia.
Qed.

(** 4096 keys with one fresh failure each, and the first of them again. *)
Definition full_throttle : LoginThrottle :=
  {| max_failures := 2; lockout := secs 60; window := secs 3600;
     state := list_to_map ((fun i => (IpKey (V4 i),
       {| failures := 1; last_failure := 0; locked_until := None |})) <$> seqZ 0 4096) |}.

Lemma capacity_forgets_fresh_failures_witness :
  (record_failure full_throttle 1 (IpKey (V4 7))).1 = 1.
Proof.
  refine (proj1 (proj1 (capacity_forgets_fresh_failures full_throttle 1 (IpKey (V4 7))
    {| failures := 1; last_failure := 0; locked_until := None |} _ _ _) _ _));
    vm_compute; (reflexivity || discriminate).
Defined.
