(* ===== verification/ProxyProto.v ===== *)
(** * PROXY protocol headers (src/rust_frp_net/src/proxy_protocol.rs)

    The header a client writes to the local service so that it sees the
    visitor's address, with the text form of IP addresses that the standard
    library reads and prints, and a reference decoder of the binary version. *)
From S2P Require Import Prelude RustStd RustFmt Utf8 Throttle.

(** ** [IpAddr] as text (core::net) *)
Definition to_digit (radix : Z) (c : ascii) : option Z :=
  let z := code c in
  let d := if decide (48 <= z <= 57) then z - 48
           else if decide (97 <= z <= 122) then z - 87
           else if decide (65 <= z <= 90) then z - 55 else radix in
  if decide (d < radix) then Some d else None.

(** The value, the number of digits and the rest; [None] beyond [max] digits. *)
Fixpoint read_digits (radix max : Z) (s : string) (acc n : Z) : option (Z * Z * string) :=
  match s with
  | EmptyString => Some (acc, n, EmptyString)
  | String c s' =>
      match to_digit radix c with
      | Some d => if decide (max < n + 1) then None
                  else read_digits radix max s' (acc * radix + d) (n + 1)
      | None => Some (acc, n, s)
      end
  end.

Definition leading_zero (s : string) : bool :=
  match s with String c _ => Ascii.eqb c "0" | EmptyString => false end.

Definition read_number (radix max : Z) (allow_zero_prefix : bool) (bound : Z) (s : string)
  : option (Z * string) :=
  match read_digits radix max s 0 0 with
  | Some (v, n, rest) =>
      if decide (n = 0) then None
      else if negb allow_zero_prefix && leading_zero s && bool_decide (1 < n) then None
      else if decide (v < bound) then Some (v, rest) else None
  | None => None
  end.

Definition read_separator {A} (sep : ascii) (index : nat) (inner : string -> option (A * string)) (s : string)
  : option (A * string) :=
  match index, s with
  | O, _ => inner s
  | S _, String c s => if decide (c = sep) then inner s else None
  | S _, EmptyString => None
  end.

Fixpoint read_octets (slots index : nat) (acc : Z) (s : string) : option (Z * string) :=
  match slots with
  | O => Some (acc, s)
  | S slots =>
      match read_separator "." index (read_number 10 3 false 256) s with
      | Some (b, s) => read_octets slots (S index) (acc * 256 + b) s
      | None => None
      end
  end.

Definition read_ipv4 (s : string) : option (Z * string) := read_octets 4 0 0 s.

(** The groups read, whether an IPv4 tail ended them, and the rest. *)
Fixpoint read_groups (slots index : nat) (s : string) : list Z * bool * string :=
  match slots with
  | O => ([], false, s)
  | S slots =>
      match (if decide (slots = 0%nat) then None else read_separator ":" index read_ipv4 s) with
      | Some (v, s) => ([v / 65536; v mod 65536], true, s)
      | None =>
          match read_separator ":" index (read_number 16 4 true 65536) s with
          | Some (g, s) => let '(gs, v4, s) := read_groups slots (S index) s in (g :: gs, v4, s)
          | None => ([], false, s)
          end
      end
  end.

Definition of_groups (gs : list Z) : Z := foldl (fun acc g => acc * 65536 + g) 0 gs.

Definition read_ipv6 (s : string) : option (Z * string) :=
  let '(head, head_v4, s) := read_groups 8 0 s in
  if decide (length head = 8%nat) then Some (of_groups head, s)
  else if head_v4 then None
  else
    s ← strip_prefix "::" s;
    let '(tail, _, s) := read_groups (7 - length head) 0 s in
    Some (of_groups (head ++ replicate (8 - length head - length tail) 0 ++ tail), s).

Definition parse_ip_addr (s : string) : option ip_addr :=
  match read_ipv4 s with
  | Some (z, rest) => if is_empty rest then Some (V4 z) else None
  | None =>
      match read_ipv6 s with
      | Some (z, rest) => if is_empty rest then Some (V6 z) else None
      | None => None
      end
  end.

Definition ipv4_text (z : Z) : string :=
  (dec (z / 16777216) +:+ "." +:+ dec (z / 65536 mod 256) +:+ "." +:+ dec (z / 256 mod 256)
   +:+ "." +:+ dec (z mod 256))%string.

Definition hex_group (g : Z) : string :=
  if decide (g < 256) then hex g
  else (hex (g / 256) +:+ String (hex_digit (g / 16 mod 16)) (String (hex_digit (g mod 16)) EmptyString))%string.

Definition groups (z : Z) : list Z := (fun i => z / 65536 ^ (7 - Z.of_nat i) mod 65536) <$> seq 0 8.

Fixpoint zero_run (gs : list Z) : nat :=
  match gs with
  | 0 :: gs => S (zero_run gs)
  | _ => 0
  end.

(** The first longest run of zero groups: start and length. *)
Fixpoint longest_run (index : nat) (gs : list Z) : nat * nat :=
  match gs with
  | [] => (index, 0%nat)
  | g :: rest =>
      let here := zero_run gs in
      let '(start, len) := longest_run (S index) rest in
      if decide (len <= here)%nat then (index, here) else (start, len)
  end.

Definition ipv6_text (z : Z) : string :=
  if decide (z / 4294967296 = 65535) then ("::ffff:" +:+ ipv4_text (z mod 4294967296))%string
  else
    let gs := groups z in
    let '(start, len) := longest_run 0 gs in
    if decide (1 < len)%nat then
      (str_join ":" (hex_group <$> take start gs) +:+ "::" +:+ str_join ":" (hex_group <$> drop (start + len) gs))%string
    else str_join ":" (hex_group <$> gs).

Definition ip_text (ip : ip_addr) : string :=
  match ip with V4 z => ipv4_text z | V6 z => ipv6_text z end.

(** ** The header *)
Definition V2_SIGNATURE : list byte :=
  [Byte.x0d; Byte.x0a; Byte.x0d; Byte.x0a; Byte.x00; Byte.x0d; Byte.x0a; Byte.x51; Byte.x55; Byte.x49;
   Byte.x54; Byte.x0a].
Definition V2_VERSION : Z := 32.
Definition V2_CMD_PROXY : Z := 1.
Definition V2_CMD_LOCAL : Z := 0.
Definition V2_FAMILY_INET : Z := 16.
Definition V2_FAMILY_INET6 : Z := 32.
Definition V2_PROTO_STREAM : Z := 1.

Definition parse_ip (ip : string) : option ip_addr :=
  let trimmed := trim ip in
  let candidate := default trimmed (s ← strip_prefix "[" trimmed; strip_suffix "]" s) in
  parse_ip_addr candidate.

Definition build_v1 (src : ip_addr) (src_port : Z) (dst : option ip_addr) (dst_port : Z) : list byte :=
  let proto := match src with V4 _ => "TCP4" | V6 _ => "TCP6" end%string in
  let dst_text := match dst with Some ip => ip_text ip | None => "0.0.0.0"%string end in
  as_bytes ("PROXY " +:+ proto +:+ " " +:+ ip_text src +:+ " " +:+ dst_text +:+ " " +:+ dec src_port
            +:+ " " +:+ dec dst_port +:+ crlf)%string.

Definition local_v2_header : list byte :=
  V2_SIGNATURE ++ [z2b (Z.lor V2_VERSION V2_CMD_LOCAL); Byte.x00; Byte.x00; Byte.x00].

Definition proxy_v2_header (family : Z) (payload : list byte) : list byte :=
  V2_SIGNATURE ++ [z2b (Z.lor V2_VERSION V2_CMD_PROXY); z2b (Z.lor family V2_PROTO_STREAM)]
  ++ be_bytes 2 (wrap_u16 (zlen payload)) ++ payload.

Definition build_v2 (src : ip_addr) (src_port : Z) (dst : option ip_addr) (dst_port : Z) : list byte :=
  let ports := be_bytes 2 src_port ++ be_bytes 2 dst_port in
  match src, default (V4 0) dst with
  | V4 s, V4 d => proxy_v2_header V2_FAMILY_INET (be_bytes 4 s ++ be_bytes 4 d ++ ports)
  | V6 s, V6 d => proxy_v2_header V2_FAMILY_INET6 (be_bytes 16 s ++ be_bytes 16 d ++ ports)
  | _, _ => local_v2_header
  end.

Definition unknown_header (version : string) : list byte :=
  if eq_ignore_ascii_case version "v1" then as_bytes ("PROXY UNKNOWN" +:+ crlf)%string else local_v2_header.

Definition build_proxy_protocol_header (src_ip : string) (src_port : Z) (dst_ip : string) (dst_port : Z)
    (version : string) : list byte :=
  match parse_ip src_ip with
  | Some src =>
      if eq_ignore_ascii_case version "v1" then build_v1 src src_port (parse_ip dst_ip) dst_port
      else build_v2 src src_port (parse_ip dst_ip) dst_port
  | None => unknown_header version
  end.

(** ** The reference decoder: section 2.2 of the PROXY protocol specification *)
Inductive v2_info :=
| Local
| Proxied (src : ip_addr) (src_port : Z) (dst : ip_addr) (dst_port : Z).

Definition decode_addresses (family : Z) (payload : list byte) : option v2_info :=
  let size := if decide (family = V2_FAMILY_INET) then Some (4%nat, V4)
              else if decide (family = V2_FAMILY_INET6) then Some (16%nat, V6) else None in
  '(n, ip) ← size;
  if decide (length payload = (2 * n + 4)%nat) then
    Some (Proxied (ip (be_value (take n payload))) (be_value (take 2 (drop (2 * n) payload)))
            (ip (be_value (take n (drop n payload)))) (be_value (drop (2 * n + 2) payload)))
  else None.

(** What the receiver makes of the first bytes, and what is left for the
    service. *)
Definition decode_v2 (bs : list byte) : option (v2_info * list byte) :=
  if decide (take 12 bs = V2_SIGNATURE) then
    match drop 12 bs with
    | cmd :: fam :: hi :: lo :: rest =>
        let len := Z.to_nat (be_value [hi; lo]) in
        if decide (length rest < len)%nat then None else
        if decide (b2z cmd / 16 = 2) then
          if decide (b2z cmd mod 16 = 0) then Some (Local, drop len rest)
          else if decide (b2z cmd mod 16 = 1 /\ b2z fam mod 16 = 1) then
            info ← decode_addresses (b2z fam - b2z fam mod 16) (take len rest);
            Some (info, drop len rest)
          else None
        else None
    | _ => None
    end
  else None.

(** ** The numbers a parsed address can have *)
Definition ip_wf (ip : ip_addr) : Prop :=
  match ip with V4 z => 0 <= z < 2 ^ 32 | V6 z => 0 <= z < 2 ^ 128 end.

Lemma to_digit_range radix c d : 0 < radix -> to_digit radix c = Some d -> 0 <= d < radix.
Proof. unfold to_digit. intros Hr. repeat case_decide; intros [= <-]; lia. Qed.

Lemma read_digits_nonneg radix max s : 0 < radix -> forall acc n v k rest, 0 <= acc ->
  read_digits radix max s acc n = Some (v, k, rest) -> 0 <= v.
Proof.
  intros Hr. induction s as [|c s IH]; intros acc n v k rest Ha E; simpl in E; [by simplify_eq|].
  destruct (to_digit radix c) as [d|] eqn:Ed; [|by simplify_eq].
  apply to_digit_range in Ed; [|done]. case_decide; [done|]. eapply IH; [|exact E]. nia.
Qed.

Lemma read_number_range radix max z bound s v rest : 0 < radix ->
  read_number radix max z bound s = Some (v, rest) -> 0 <= v < bound.
Proof.
  unfold read_number. intros Hr. destruct (read_digits _ _ _ _ _) as [[[w n] r]|] eqn:E; [|done].
  apply read_digits_nonneg in E; [|done|done]. case_decide; [done|].
  destruct (_ && _); [done|]. case_decide; [|done]. by intros [= <- <-].
Qed.

Lemma read_separator_Some {A} sep i (inner : string -> option (A * string)) s r :
  read_separator sep i inner s = Some r -> exists s', inner s' = Some r.
Proof. unfold read_separator. destruct i; [eauto|]. destruct s; [done|]. case_decide; [eauto|done]. Qed.

Lemma read_octets_range slots : forall i acc s v rest, 0 <= acc ->
  read_octets slots i acc s = Some (v, rest) -> 0 <= v < (acc + 1) * 256 ^ Z.of_nat slots.
Proof.
  induction slots as [|slots IH]; intros i acc s v rest Ha E; simpl in E; [simplify_eq; simpl; lia|].
  destruct (read_separator _ _ _ _) as [[b s']|] eqn:Es; [|done].
  apply read_separator_Some in Es as [s0 Hb]. apply read_number_range in Hb; [|done].
  apply IH in E; [|lia]. rewrite Nat2Z.inj_succ, Z.pow_succ_r by lia. nia.
Qed.

Lemma read_groups_range slots : forall i s gs v4 rest, read_groups slots i s = (gs, v4, rest) ->
  Forall (fun g => 0 <= g < 65536) gs /\ (length gs <= slots)%nat.
Proof.
  induction slots as [|slots IH]; intros i s gs v4 rest E; simpl in E; [simplify_eq; by split|].
  destruct (if decide (slots = 0%nat) then None else _) as [[v s1]|] eqn:Ev.
  - case_decide; [done|]. simplify_eq. apply read_separator_Some in Ev as [s' Hv].
    apply read_octets_range in Hv; [|done]. change (256 ^ Z.of_nat 4) with 4294967296 in Hv.
    split; [|simpl; lia]. repeat constructor; euclid.
  - destruct (read_separator ":" i (read_number _ _ _ _) s) as [[g s1]|] eqn:Eg; [|simplify_eq; split; [done|simpl; lia]].
    destruct (read_groups slots (S i) s1) as [[gs' v4'] s2] eqn:Er. simplify_eq.
    apply IH in Er as [H1 H2]. apply read_separator_Some in Eg as [s' Hg].
    apply read_number_range in Hg; [|done]. split; [by constructor|simpl; lia].
Qed.

Lemma of_groups_range gs acc : Forall (fun g => 0 <= g < 65536) gs -> 0 <= acc ->
  0 <= foldl (fun acc g => acc * 65536 + g) acc gs < (acc + 1) * 65536 ^ Z.of_nat (length gs).
Proof.
  intros H. revert acc. induction H as [|g gs Hg _ IH]; intros acc Ha; [simpl; lia|].
  cbn [foldl length]. specialize (IH (acc * 65536 + g)).
  rewrite Nat2Z.inj_succ, Z.pow_succ_r by lia. nia.
Qed.

Lemma eight_groups gs : Forall (fun g => 0 <= g < 65536) gs -> length gs = 8%nat ->
  0 <= of_groups gs < 2 ^ 128.
Proof.
  intros H Hl. pose proof (of_groups_range gs 0 H) as Hr. rewrite Hl in Hr.
  change ((0 + 1) * 65536 ^ Z.of_nat 8) with (2 ^ 128) in Hr. by apply Hr.
Qed.

Lemma read_ipv6_range s z rest : read_ipv6 s = Some (z, rest) -> 0 <= z < 2 ^ 128.
Proof.
  unfold read_ipv6. destruct (read_groups 8 0 s) as [[head v4] s1] eqn:Eh.
  apply read_groups_range in Eh as [Hh Hl]. case_decide as H8.
  { intros [= <- <-]. by apply eight_groups. }
  destruct v4; [done|]. destruct (strip_prefix _ s1) as [s2|]; [|done]. cbn [mbind option_bind].
  destruct (read_groups _ 0 s2) as [[tail v4] s3] eqn:Et. apply read_groups_range in Et as [Ht Hl'].
  intros [= <- <-]. apply eight_groups; [|rewrite !length_app, length_replicate; lia].
  apply Forall_app_2; [done|]. apply Forall_app_2; [|done]. by apply Forall_replicate.
Qed.

Lemma parse_ip_wf s ip : parse_ip s = Some ip -> ip_wf ip.
Proof.
  unfold parse_ip. generalize (default (trim s) (s ← strip_prefix "[" (trim s); strip_suffix "]" s)).
  intros c. unfold parse_ip_addr. destruct (read_ipv4 c) as [[z r]|] eqn:E4.
  - destruct (is_empty r); [|done]. intros [= <-]. simpl. apply (read_octets_range 4) in E4; [|done]. exact E4.
  - destruct (read_ipv6 c) as [[z r]|] eqn:E6; [|done]. destruct (is_empty r); [|done]. intros [= <-].
    by apply read_ipv6_range in E6.
Qed.

(** ** Reading the header back *)
Lemma take_app_n {A} n (l k : list A) : length l = n -> take n (l ++ k) = l.
Proof. intros <-. apply take_app_length. Qed.
Lemma drop_app_n {A} n (l k : list A) : length l = n -> drop n (l ++ k) = k.
Proof. intros <-. apply drop_app_length. Qed.

Lemma decode_local rest : decode_v2 (local_v2_header ++ rest) = Some (Local, rest).
Proof. reflexivity. Qed.

Lemma decode_proxied family payload rest info : zlen payload < 65536 ->
  family = V2_FAMILY_INET \/ family = V2_FAMILY_INET6 ->
  decode_addresses family payload = Some info ->
  decode_v2 (proxy_v2_header family payload ++ rest) = Some (info, rest).
Proof.
  intros Hl Hf Hd. unfold proxy_v2_header, decode_v2. pose proof (Zle_0_nat (length payload)).
  rewrite <- !app_assoc. rewrite take_app_n, drop_app_n by done. rewrite decide_True by done. cbn [app].
  destruct (be_bytes 2 (wrap_u16 (zlen payload))) as [|hi [|lo [|]]] eqn:Eb;
    try (apply (f_equal length) in Eb; rewrite length_be_bytes in Eb; done).
  cbn [app]. rewrite <- Eb, be_value_be_bytes. unfold zlen in *. rewrite wrap_u16_small by lia.
  change (256 ^ Z.of_nat 2) with 65536. rewrite Z.mod_small by lia. rewrite Nat2Z.id.
  rewrite decide_False by (rewrite length_app; lia).
  rewrite (decide_True (P := _ / 16 = 2)) by done.
  rewrite (decide_False (P := _ mod 16 = 0)) by done.
  rewrite take_app_length, drop_app_length.
  assert (Hlow : b2z (z2b (Z.lor family V2_PROTO_STREAM)) mod 16 = 1 /\
    b2z (z2b (Z.lor family V2_PROTO_STREAM)) - 1 = family) by (destruct Hf as [->| ->]; done).
  destruct Hlow as [H1 H2]. rewrite H1, H2. rewrite decide_True by done. by rewrite Hd.
Qed.

Lemma be_value_small n z : 0 <= z < 256 ^ Z.of_nat n -> be_value (be_bytes n z) = z.
Proof. intros H. rewrite be_value_be_bytes. by apply Z.mod_small. Qed.

Lemma decode_addresses_built n family ip s d sp dp : 
  (family = V2_FAMILY_INET /\ n = 4%nat /\ ip = V4) \/ (family = V2_FAMILY_INET6 /\ n = 16%nat /\ ip = V6) ->
  0 <= s < 256 ^ Z.of_nat n -> 0 <= d < 256 ^ Z.of_nat n -> 0 <= sp < 65536 -> 0 <= dp < 65536 ->
  decode_addresses family (be_bytes n s ++ be_bytes n d ++ be_bytes 2 sp ++ be_bytes 2 dp)
  = Some (Proxied (ip s) sp (ip d) dp).
Proof.
  intros Hf Hs Hd Hsp Hdp. unfold decode_addresses.
  assert (E : (if decide (family = V2_FAMILY_INET) then Some (4%nat, V4)
    else if decide (family = V2_FAMILY_INET6) then Some (16%nat, V6) else None) = Some (n, ip)).
  { by destruct Hf as [(-> & -> & ->)|(-> & -> & ->)]. }
  rewrite E. cbn [mbind option_bind].
  rewrite decide_True by (rewrite !length_app, !length_be_bytes; lia).
  set (tail := be_bytes 2 sp ++ be_bytes 2 dp).
  assert (E1 : drop n (be_bytes n s ++ be_bytes n d ++ tail) = be_bytes n d ++ tail)
    by (apply drop_app_n, length_be_bytes).
  assert (E2 : drop (2 * n) (be_bytes n s ++ be_bytes n d ++ tail) = tail).
  { replace (2 * n)%nat with (n + n)%nat by lia. rewrite <- drop_drop, E1. apply drop_app_n, length_be_bytes. }
  rewrite <- (drop_drop _ 2 (2 * n)), E2, E1. subst tail.
  rewrite !(take_app_n n) by apply length_be_bytes.
  rewrite (take_app_n 2), (drop_app_n 2) by apply length_be_bytes.
  by rewrite !be_value_small by done.
Qed.

(** the local service learns the visitor.  A standard-conforming reader of
    the binary PROXY header that the client writes before the first byte of a
    connection gets exactly the visitor's address and port and the service's
    own, whenever both texts are addresses of one family, and "unknown"
    otherwise; and it finds every following byte of the connection in place. *)
Theorem proxy_header_decodes src_ip src_port dst_ip dst_port version rest :
  eq_ignore_ascii_case version "v1" = false -> 0 <= src_port < 65536 -> 0 <= dst_port < 65536 ->
  decode_v2 (build_proxy_protocol_header src_ip src_port dst_ip dst_port version ++ rest) =
  Some (match parse_ip src_ip, default (V4 0) (parse_ip dst_ip) with
        | Some (V4 s), V4 d => Proxied (V4 s) src_port (V4 d) dst_port
        | Some (V6 s), V6 d => Proxied (V6 s) src_port (V6 d) dst_port
        | _, _ => Local
        end, rest).
Proof.
  intros Hv Hsp Hdp. unfold build_proxy_protocol_header, unknown_header. rewrite Hv.
  destruct (parse_ip src_ip) as [src|] eqn:Es; [|apply decode_local]. apply parse_ip_wf in Es.
  assert (Hd : ip_wf (default (V4 0) (parse_ip dst_ip))).
  { destruct (parse_ip dst_ip) eqn:Ed; [by apply parse_ip_wf in Ed|done]. }
  unfold build_v2. destruct src as [s|s], (default (V4 0) (parse_ip dst_ip)) as [d|d]; try apply decode_local.
  - apply decode_proxied; [unfold zlen; rewrite !length_app, !length_be_bytes; done|by left|].
    apply decode_addresses_built; [by left|done..].
  - apply decode_proxied; [unfold zlen; rewrite !length_app, !length_be_bytes; done|by right|].
    apply decode_addresses_built; [by right|done..].
Qed.

Lemma proxy_header_decodes_witness :
  decode_v2 (build_proxy_protocol_header "2001:db8::7" 40000 "[::1]" 22 "v2" ++ as_bytes "SSH-2.0") =
  Some (Proxied (V6 42540766411282592856903984951653826567) 40000 (V6 1) 22, as_bytes "SSH-2.0").
Proof.
  rewrite (proxy_header_decodes "2001:db8::7" 40000 "[::1]" 22 "v2" (as_bytes "SSH-2.0"));
    [vm_compute; reflexivity|vm_compute; reflexivity|lia|lia].
Defined.

(** The fallback 0.0.0.0 for a service named by host name loses an IPv6
    visitor in version 2, and mixes families in version 1. *)
Lemma ipv6_visitor_lost :
  build_proxy_protocol_header "2001:db8::7" 40000 "localhost" 22 "v2" = local_v2_header /\
  build_proxy_protocol_header "2001:db8::7" 40000 "localhost" 22 "v1"
    = as_bytes ("PROXY TCP6 2001:db8::7 0.0.0.0 40000 22" +:+ crlf)%string.
Proof. split; vm_compute; reflexivity. Qed.
