(* ===== verification/Stun.v ===== *)
(** * STUN and NAT classification (src/rust_frp_net/src/stun.rs)

    The Binding Request, the parser of the reply, the check of the transaction
    id, trying several servers, and the classification of the mappings that
    were observed.  Sockets are arguments: what a probe receives, if anything
    in time.  [parse_mapped_address] runs on fuel, as many attributes as the
    datagram has bytes, which [stun_parse_total] shows to be enough. *)
From S2P Require Import Prelude RustStd RustFmt Throttle ProxyProto.

Definition MAGIC_COOKIE : Z := 554869826.                      (* 0x2112A442 *)
Definition ATTR_XOR_MAPPED_ADDRESS : Z := 32.
Definition ATTR_MAPPED_ADDRESS : Z := 1.
Definition MSG_BINDING_REQUEST : Z := 1.
Definition MSG_BINDING_RESPONSE : Z := 257.

Record socket_addr := SocketAddr { sa_ip : ip_addr; sa_port : Z }.
#[global] Instance socket_addr_eq_dec : EqDecision socket_addr.
Proof. solve_decision. Defined.

Definition build_binding_request (tx_id : list byte) : list byte :=
  be_bytes 2 MSG_BINDING_REQUEST ++ be_bytes 2 0 ++ be_bytes 4 MAGIC_COOKIE ++ tx_id.

(** [u16::from_be_bytes([resp[i], resp[i + 1]])] and the like. *)
Definition be_at (n i : nat) (l : list byte) : Z := be_value (take n (drop i l)).

Definition hex_pad (w : nat) (z : Z) : string :=
  let s := hex_group z in (zeros (w - Z.to_nat (str_len s)) +:+ s)%string.

Definition mapped (attr_type : Z) (value : list byte) : result string socket_addr :=
  let family := be_at 1 1 value in
  if decide (family <> 1) then Err ("STUN unsupported address family: 0x" +:+ hex_pad 2 family)%string
  else
    let port := be_at 2 2 value in
    let ip := be_at 4 4 value in
    if decide (attr_type = ATTR_XOR_MAPPED_ADDRESS)
    then Ok (SocketAddr (V4 (Z.lxor ip MAGIC_COOKIE)) (Z.lxor port (wrap_u16 (Z.shiftr MAGIC_COOKIE 16))))
    else Ok (SocketAddr (V4 ip) port).

(** The loop over the attributes; [None]: out of fuel. *)
Fixpoint find_mapped (fuel : nat) (resp : list byte) (offset stop : nat) : option (result string socket_addr) :=
  match fuel with
  | O => None
  | S fuel =>
      if decide (offset + 4 <= stop)%nat then
        let attr_type := be_at 2 offset resp in
        let len := Z.to_nat (be_at 2 (offset + 2) resp) in
        let value_start := (offset + 4)%nat in
        let value_end := (value_start + len)%nat in
        if decide (length resp < value_end)%nat then Some (Err "STUN attribute length overflow"%string) else
        let value := take len (drop value_start resp) in
        if decide ((attr_type = ATTR_XOR_MAPPED_ADDRESS \/ attr_type = ATTR_MAPPED_ADDRESS) /\ (8 <= len)%nat)
        then Some (mapped attr_type value)
        else find_mapped fuel resp (value_start + (len + 3) / 4 * 4) stop
      else Some (Err "STUN response has no XOR-MAPPED-ADDRESS"%string)
  end.

Definition parse_mapped_address (resp : list byte) : option (result string socket_addr) :=
  if decide (length resp < 20)%nat then Some (Err "STUN response too short"%string) else
  let msg_type := be_at 2 0 resp in
  if decide (msg_type <> MSG_BINDING_RESPONSE)
  then Some (Err ("STUN unexpected response type: 0x" +:+ hex_pad 4 msg_type)%string) else
  if decide (be_at 4 4 resp <> MAGIC_COOKIE) then Some (Err "STUN response magic cookie mismatch"%string) else
  let attr_len := Z.to_nat (be_at 2 2 resp) in
  find_mapped (S (length resp)) resp 20 (Nat.min (20 + attr_len) (length resp)).

(** ** Probing *)
Inductive received := Datagram (bytes : list byte) | NoReply | RecvFailed (e : string).

(** [probe_one], on what the socket received: at most 1024 bytes, the buffer
    beyond them zero. *)
Definition probe_reply (tx_id : list byte) (r : received) : option (result string socket_addr) :=
  match r with
  | NoReply => Some (Err "STUN response timeout"%string)
  | RecvFailed e => Some (Err ("recv: " +:+ e)%string)
  | Datagram bytes =>
      let resp := take 1024 bytes in
      let n := length resp in
      let buf := resize 1024 Byte.x00 resp in
      if (bool_decide (n < 20)%nat || (bool_decide (take 12 (drop 4 buf) <> tx_id)
                                      && bool_decide (take 12 (drop 8 buf) <> tx_id)))
         && (bool_decide (n < 20)%nat || bool_decide (take 12 (drop 8 buf) <> tx_id))
      then Some (Err "STUN transaction id mismatch"%string)
      else parse_mapped_address resp
  end.

(** [discover_public_endpoint]: each server with what probing it gave. *)
Fixpoint try_servers (probes : list (string * result string socket_addr)) (last_err : string)
  : result string socket_addr :=
  match probes with
  | [] => Err ("all STUN servers failed: " +:+ last_err)%string
  | (server, Ok addr) :: _ => Ok addr
  | (server, Err e) :: probes => try_servers probes (last_err +:+ "; " +:+ server +:+ ": " +:+ e)%string
  end.

Definition discover_public_endpoint (probes : list (string * result string socket_addr))
  : result string socket_addr :=
  match probes with
  | [] => Err "no STUN servers configured"%string
  | _ => try_servers probes EmptyString
  end.

(** ** Classification *)
Definition EASY_NAT : string := "EasyNAT".
Definition HARD_NAT : string := "HardNAT".
Definition BEHAVIOR_NO_CHANGE : string := "BehaviorNoChange".
Definition BEHAVIOR_IP_CHANGED : string := "BehaviorIPChanged".
Definition BEHAVIOR_PORT_CHANGED : string := "BehaviorPortChanged".
Definition BEHAVIOR_BOTH_CHANGED : string := "BehaviorBothChanged".

Record NatFeature := {
  nat_type : string;
  behavior : string;
  ports_difference : Z;
  regular_ports_change : bool;
  public_network : bool;
}.

(** The variables of the loop. *)
Record nat_scan := {
  ip_changed : bool;
  port_changed : bool;
  base : option (ip_addr * Z);
  port_max : Z;
  port_min : Z;
  seen_local : bool;
}.

Definition scan_address (local_ip : option ip_addr) (s : nat_scan) (a : socket_addr) : nat_scan :=
  let seen := seen_local s || bool_decide (local_ip = Some (sa_ip a)) in
  match base s with
  | None => {| ip_changed := ip_changed s; port_changed := port_changed s; base := Some (sa_ip a, sa_port a);
               port_max := sa_port a; port_min := sa_port a; seen_local := seen |}
  | Some (base_ip, base_port) =>
      {| ip_changed := ip_changed s || negb (bool_decide (base_ip = sa_ip a));
         port_changed := port_changed s || negb (bool_decide (base_port = sa_port a));
         base := base s; port_max := Z.max (port_max s) (sa_port a);
         port_min := Z.min (port_min s) (sa_port a); seen_local := seen |}
  end.

Definition classify_nat_feature (addresses : list socket_addr) (local_ip : option ip_addr)
  : result string NatFeature :=
  if decide (length addresses <= 1)%nat then Err "not enough addresses"%string else
  let s := foldl (scan_address local_ip)
             {| ip_changed := false; port_changed := false; base := None; port_max := 0; port_min := 0;
                seen_local := false |} addresses in
  let '(ty, how) := match ip_changed s, port_changed s with
                    | true, true => (HARD_NAT, BEHAVIOR_BOTH_CHANGED)
                    | true, false => (HARD_NAT, BEHAVIOR_IP_CHANGED)
                    | false, true => (HARD_NAT, BEHAVIOR_PORT_CHANGED)
                    | false, false => (EASY_NAT, BEHAVIOR_NO_CHANGE)
                    end in
  let difference := if decide (how = BEHAVIOR_PORT_CHANGED) then port_max s - port_min s else 0 in
  Ok {| nat_type := ty; behavior := how; ports_difference := difference;
        regular_ports_change := bool_decide (1 <= difference <= 5); public_network := seen_local s |}.

(** ** The parser always answers *)
Lemma find_mapped_total fuel : forall resp offset stop, (stop <= length resp)%nat ->
  (length resp < fuel + offset)%nat -> (0 < fuel)%nat -> is_Some (find_mapped fuel resp offset stop).
Proof.
  induction fuel as [|fuel IH]; intros resp offset stop Hs Hf H0; [lia|]. simpl.
  case_decide as Ho; [|done]. case_decide; [done|]. case_decide; [done|].
  apply IH; [done|lia|lia].
Qed.

(** whatever datagram arrives, the parser of STUN replies comes to an end
    with an address or an error: the loop over the attributes never needs more
    steps than the datagram has bytes. *)
Theorem stun_parse_total resp : is_Some (parse_mapped_address resp).
Proof.
  unfold parse_mapped_address. repeat (case_decide; [done|]).
  apply find_mapped_total; lia.
Qed.

(** ** A reply that follows RFC 5389 *)
Definition attr_bytes (a : Z * list byte) : list byte :=
  be_bytes 2 a.1 ++ be_bytes 2 (zlen a.2) ++ a.2
  ++ replicate ((length a.2 + 3) / 4 * 4 - length a.2) Byte.x00.

Definition xor_mapped_value (ip port : Z) : list byte :=
  [Byte.x00; Byte.x01] ++ be_bytes 2 (Z.lxor port 8466) ++ be_bytes 4 (Z.lxor ip MAGIC_COOKIE).

Definition attrs_bytes (before : list (Z * list byte)) (ip port : Z) (after : list byte) : list byte :=
  concat (attr_bytes <$> before) ++ attr_bytes (ATTR_XOR_MAPPED_ADDRESS, xor_mapped_value ip port) ++ after.

Definition stun_response (tx_id : list byte) (before : list (Z * list byte)) (ip port : Z) (after : list byte)
  : list byte :=
  be_bytes 2 MSG_BINDING_RESPONSE ++ be_bytes 2 (zlen (attrs_bytes before ip port after))
  ++ be_bytes 4 MAGIC_COOKIE ++ tx_id ++ attrs_bytes before ip port after.

(** An attribute that is not an address of the client. *)
Definition foreign (a : Z * list byte) : Prop :=
  0 <= a.1 < 65536 /\ zlen a.2 < 65536 /\
  ((a.1 <> ATTR_XOR_MAPPED_ADDRESS /\ a.1 <> ATTR_MAPPED_ADDRESS) \/ (length a.2 < 8)%nat).

Lemma be_at_app n i pre bs rest z : length pre = i -> length bs = n -> be_value bs = z ->
  be_at n i (pre ++ bs ++ rest) = z.
Proof. intros Hp Hb <-. unfold be_at. by rewrite drop_app_n, take_app_n. Qed.

Lemma length_attr_bytes a : length (attr_bytes a) = (4 + (length a.2 + 3) / 4 * 4)%nat.
Proof.
  unfold attr_bytes. rewrite !length_app, !length_be_bytes, length_replicate.
  pose proof (Nat.div_mod_eq (length a.2 + 3) 4). pose proof (Nat.mod_upper_bound (length a.2 + 3) 4).
  lia.
Qed.

(** One attribute, seen from the loop at its offset. *)
Lemma attr_fields pre a rest : 0 <= a.1 < 65536 -> zlen a.2 < 65536 ->
  let resp := pre ++ attr_bytes a ++ rest in
  be_at 2 (length pre) resp = a.1 /\
  Z.to_nat (be_at 2 (length pre + 2) resp) = length a.2 /\
  take (length a.2) (drop (length pre + 4) resp) = a.2.
Proof.
  intros Ht Hl resp. subst resp. pose proof (Zle_0_nat (length a.2)). unfold attr_bytes. split_and!.
  - rewrite <- !app_assoc. apply be_at_app; [done|done|]. by apply be_value_small.
  - rewrite <- !app_assoc. rewrite (app_assoc pre). rewrite (be_at_app 2 _ _ _ _ (zlen a.2)); [unfold zlen; lia|..].
    + rewrite length_app, length_be_bytes. lia.
    + done.
    + apply be_value_small. unfold zlen in *. simpl. lia.
  - rewrite <- !app_assoc. rewrite (app_assoc pre), (app_assoc (pre ++ _)).
    rewrite drop_app_n by (rewrite !length_app, !length_be_bytes; lia). by apply take_app_n.
Qed.

Lemma attr_end pre a rest : (length pre + 4 + length a.2 <= length (pre ++ attr_bytes a ++ rest))%nat.
Proof.
  rewrite !length_app, length_attr_bytes.
  pose proof (Nat.div_mod_eq (length a.2 + 3) 4). pose proof (Nat.mod_upper_bound (length a.2 + 3) 4). lia.
Qed.

Lemma find_mapped_skip fuel pre a rest stop : foreign a ->
  (length pre + 4 <= stop)%nat ->
  find_mapped (S fuel) (pre ++ attr_bytes a ++ rest) (length pre) stop =
  find_mapped fuel ((pre ++ attr_bytes a) ++ rest) (length (pre ++ attr_bytes a)) stop.
Proof.
  intros (Ht & Hl & Hf) Hs. destruct (attr_fields pre a rest Ht Hl) as (F1 & F2 & F3).
  pose proof (attr_end pre a rest) as He. cbn [find_mapped]. rewrite decide_True by done.
  rewrite F1, F2. rewrite decide_False by lia. rewrite decide_False by lia.
  rewrite (length_app pre), length_attr_bytes, <- app_assoc. f_equal. lia.
Qed.

Lemma lxor_range w a b : 0 <= w -> 0 <= a < 2 ^ w -> 0 <= b < 2 ^ w -> 0 <= Z.lxor a b < 2 ^ w.
Proof.
  intros Hw Ha Hb. split; [apply Z.lxor_nonneg; lia|].
  destruct (decide (Z.lxor a b = 0)) as [->|Hz]; [lia|].
  pose proof (proj2 (Z.lxor_nonneg a b) ltac:(lia)).
  apply Z.log2_lt_pow2; [lia|]. eapply Z.le_lt_trans; [apply Z.log2_lxor; lia|].
  destruct (decide (0 < w)) as [Hw0|]; [|assert (w = 0) as -> by lia; simpl in *;
    assert (a = 0) as -> by lia; assert (b = 0) as -> by lia; done].
  apply Z.max_lub_lt.
  - destruct (decide (a = 0)) as [->|]; [done|]. apply Z.log2_lt_pow2; lia.
  - destruct (decide (b = 0)) as [->|]; [done|]. apply Z.log2_lt_pow2; lia.
Qed.

Lemma lxor_twice a b : Z.lxor (Z.lxor a b) b = a.
Proof. by rewrite Z.lxor_assoc, Z.lxor_nilpotent, Z.lxor_0_r. Qed.

Lemma mapped_xor ip port : 0 <= ip < 2 ^ 32 -> 0 <= port < 2 ^ 16 ->
  mapped ATTR_XOR_MAPPED_ADDRESS (xor_mapped_value ip port) = Ok (SocketAddr (V4 ip) port).
Proof.
  intros Hi Hp. unfold mapped. set (x := Z.lxor port 8466). set (y := Z.lxor ip MAGIC_COOKIE).
  assert (E2 : be_at 2 2 (xor_mapped_value ip port) = x).
  { apply (be_at_app 2 2 [Byte.x00; Byte.x01]); [done|done|]. apply be_value_small. by apply (lxor_range 16). }
  assert (E4 : be_at 4 4 (xor_mapped_value ip port) = y).
  { unfold xor_mapped_value. rewrite app_assoc, <- (app_nil_r (be_bytes 4 _)).
    apply be_at_app; [done|done|]. apply be_value_small. by apply (lxor_range 32). }
  change (be_at 1 1 (xor_mapped_value ip port)) with 1. rewrite E2, E4. subst x y.
  rewrite decide_False by lia. rewrite decide_True by done.
  change (wrap_u16 (Z.shiftr MAGIC_COOKIE 16)) with 8466. by rewrite !lxor_twice.
Qed.

Lemma find_mapped_response before : forall fuel pre ip port after stop,
  Forall foreign before -> 0 <= ip < 2 ^ 32 -> 0 <= port < 2 ^ 16 ->
  (length before < fuel)%nat -> (length (pre ++ attrs_bytes before ip port after) = stop)%nat ->
  find_mapped fuel (pre ++ attrs_bytes before ip port after) (length pre) stop
  = Some (Ok (SocketAddr (V4 ip) port)).
Proof.
  unfold attrs_bytes. induction before as [|a before IH]; intros fuel pre ip port after stop Hf Hi Hp Hl Hs;
    (destruct fuel as [|fuel]; [simpl in Hl; lia|]).
  - set (x := (ATTR_XOR_MAPPED_ADDRESS, xor_mapped_value ip port)). cbn [fmap list_fmap concat app].
    destruct (attr_fields pre x after) as (F1 & F2 & F3); [done|done|].
    pose proof (attr_end pre x after) as He. cbn [find_mapped].
    assert (length x.2 = 8%nat) as H8 by done.
    rewrite decide_True.
    2:{ subst stop. cbn [fmap list_fmap concat app]. fold x. lia. }
    rewrite F1, F2. rewrite decide_False by lia. rewrite decide_True by (rewrite H8; split; [by left|lia]).
    rewrite F3. f_equal. by apply mapped_xor.
  - apply Forall_cons in Hf as [Ha Hf]. cbn [fmap list_fmap concat] in *. rewrite <- !app_assoc in *.
    rewrite find_mapped_skip; [|done|].
    2:{ subst stop. rewrite !length_app, length_attr_bytes. lia. }
    apply (IH fuel (pre ++ attr_bytes a)); [done..|simpl in Hl; lia|]. by rewrite <- app_assoc.
Qed.

Lemma parse_response tx before ip port after :
  length tx = 12%nat -> Forall foreign before -> 0 <= ip < 2 ^ 32 -> 0 <= port < 2 ^ 16 ->
  zlen (attrs_bytes before ip port after) < 65536 ->
  parse_mapped_address (stun_response tx before ip port after) = Some (Ok (SocketAddr (V4 ip) port)).
Proof.
  intros Htx Hf Hi Hp Hlen. unfold parse_mapped_address.
  set (attrs := attrs_bytes before ip port after) in *.
  assert (Hall : length (stun_response tx before ip port after) = (20 + length attrs)%nat).
  { unfold stun_response. rewrite !length_app, !length_be_bytes, Htx. fold attrs. lia. }
  rewrite decide_False by lia.
  assert (E0 : be_at 2 0 (stun_response tx before ip port after) = MSG_BINDING_RESPONSE)
    by (apply (be_at_app 2 0 []); done).
  assert (E2 : be_at 2 2 (stun_response tx before ip port after) = zlen attrs).
  { apply be_at_app; [done|done|]. apply be_value_small. pose proof (Zle_0_nat (length attrs)).
    unfold zlen in *. simpl. lia. }
  assert (E4 : be_at 4 4 (stun_response tx before ip port after) = MAGIC_COOKIE).
  { unfold stun_response. rewrite (app_assoc (be_bytes 2 _)). apply be_at_app; [done|done|done]. }
  rewrite E0, E2, E4. rewrite !(decide_False (P := _ <> _)) by tauto.
  unfold zlen. rewrite Nat2Z.id, Hall, Nat.min_id.
  assert (Hsplit : exists pre, stun_response tx before ip port after = pre ++ attrs /\ length pre = 20%nat).
  { unfold stun_response. fold attrs. rewrite !app_assoc. eexists. split; [done|].
    rewrite !length_app, !length_be_bytes, Htx. done. }
  destruct Hsplit as (pre & -> & <-). apply find_mapped_response; [done..| |by rewrite length_app].
  pose proof (Nat.div_mod_eq 3 4). unfold attrs, attrs_bytes. rewrite !length_app.
  assert (length before <= length (concat (attr_bytes <$> before)))%nat; [|lia].
  clear. induction before as [|a before IH]; [done|]. cbn [fmap list_fmap concat length].
  rewrite length_app, length_attr_bytes. lia.
Qed.

(** a probe finds the public endpoint: the reply of a conforming server --
    our transaction id, any other attributes (padded as the RFC says) before
    and after, the address XORed with the magic cookie -- gives exactly the
    address and port the server saw. *)
Theorem probe_finds_endpoint tx before ip port after :
  length tx = 12%nat -> Forall foreign before -> 0 <= ip < 2 ^ 32 -> 0 <= port < 2 ^ 16 ->
  (length (stun_response tx before ip port after) <= 1024)%nat ->
  probe_reply tx (Datagram (stun_response tx before ip port after)) = Some (Ok (SocketAddr (V4 ip) port)).
Proof.
  intros Htx Hf Hi Hp Hlen. unfold probe_reply. rewrite take_ge by done.
  set (resp := stun_response tx before ip port after) in *.
  assert (Hall : length resp = (20 + length (attrs_bytes before ip port after))%nat).
  { unfold resp, stun_response. rewrite !length_app, !length_be_bytes, Htx. lia. }
  assert (Hbuf : take 12 (drop 8 (resize 1024 Byte.x00 resp)) = tx).
  { rewrite resize_ge by lia. unfold resp, stun_response. rewrite !app_assoc.
    rewrite <- (app_assoc _ tx), <- (app_assoc _ (tx ++ _)), drop_app_n by done.
    rewrite <- !app_assoc. by apply take_app_n. }
  rewrite Hbuf. rewrite (bool_decide_eq_false_2 (length resp < 20)%nat) by lia.
  rewrite (bool_decide_eq_false_2 (tx <> tx)) by tauto. rewrite andb_false_r.
  apply parse_response; [done..|]. unfold zlen. lia.
Qed.

Lemma probe_finds_endpoint_witness :
  let tx := as_bytes "abcdefghijkl" in
  probe_reply tx (Datagram (stun_response tx [(32802, as_bytes "Citrix")] 3405803783 51000 []))
  = Some (Ok (SocketAddr (V4 3405803783) 51000)).
Proof.
  intros tx. apply probe_finds_endpoint; [reflexivity| |lia|lia|vm_compute; repeat constructor].
  constructor; [|constructor]. split; [simpl; lia|]. split; [reflexivity|]. left. split; discriminate.
Defined.

(** A reply to somebody else's request is refused, except when the id of this
    one happens to start with the magic cookie. *)
Lemma probe_checks_id tx bytes a : probe_reply tx (Datagram bytes) = Some (Ok a) ->
  let buf := resize 1024 Byte.x00 (take 1024 bytes) in
  take 12 (drop 8 buf) = tx \/ take 12 (drop 4 buf) = tx.
Proof.
  unfold probe_reply. intros E. cbv zeta. set (buf := resize 1024 Byte.x00 (take 1024 bytes)) in *.
  destruct (decide (take 12 (drop 8 buf) = tx)) as [|H8]; [by left|].
  destruct (decide (take 12 (drop 4 buf) = tx)) as [|H4]; [by right|].
  rewrite (bool_decide_eq_true_2 (take 12 (drop 8 buf) <> tx)) in E by done.
  rewrite (bool_decide_eq_true_2 (take 12 (drop 4 buf) <> tx)) in E by done.
  by rewrite !orb_true_r in E.
Qed.

(** ** What the classification says *)
Record scanned (local_ip : option ip_addr) (seen : list socket_addr) (s : nat_scan) : Prop := {
  sc_local : seen_local s = true <-> exists a, a ∈ seen /\ local_ip = Some (sa_ip a);
  sc_base : match seen with
            | [] => base s = None /\ ip_changed s = false /\ port_changed s = false
            | b :: _ =>
                base s = Some (sa_ip b, sa_port b) /\
                (ip_changed s = true <-> exists a, a ∈ seen /\ sa_ip a <> sa_ip b) /\
                (port_changed s = true <-> exists a, a ∈ seen /\ sa_port a <> sa_port b) /\
                (forall a, a ∈ seen -> port_min s <= sa_port a <= port_max s) /\
                (exists a, a ∈ seen /\ sa_port a = port_max s) /\
                (exists a, a ∈ seen /\ sa_port a = port_min s)
            end;
}.

Lemma scan_step local_ip seen s a : scanned local_ip seen s -> scanned local_ip (seen ++ [a]) (scan_address local_ip s a).
Proof.
  intros [Hl Hb]. split.
  { transitivity (seen_local s = true \/ local_ip = Some (sa_ip a)).
    - unfold scan_address. destruct (base s) as [[]|]; simpl; by rewrite orb_true_iff, bool_decide_eq_true.
    - rewrite Hl. setoid_rewrite elem_of_app. setoid_rewrite list_elem_of_singleton. naive_solver. }
  destruct seen as [|b seen]; simpl.
  - destruct Hb as (Hn & Hi & Hp). unfold scan_address. rewrite Hn. simpl. rewrite Hi, Hp.
    split_and!; try done.
    + split; [done|]. by intros (x & ->%list_elem_of_singleton & []).
    + split; [done|]. by intros (x & ->%list_elem_of_singleton & []).
    + intros x ->%list_elem_of_singleton. lia.
    + exists a. split; [by left|done].
    + exists a. split; [by left|done].
  - destruct Hb as (Hn & Hi & Hp & Hr & (x & Hx & Ex) & (y & Hy & Ey)). unfold scan_address. rewrite Hn. simpl.
    rewrite !orb_true_iff, !negb_true_iff, !bool_decide_eq_false.
    change (b :: seen ++ [a]) with ((b :: seen) ++ [a]).
    setoid_rewrite elem_of_app. setoid_rewrite list_elem_of_singleton. split_and!; [done|..].
    + rewrite Hi. naive_solver.
    + rewrite Hp. naive_solver.
    + intros z [Hz| ->]; [specialize (Hr z Hz)|]; lia.
    + destruct (Z.max_spec (port_max s) (sa_port a)) as [[_ ->]|[_ ->]]; eauto.
    + destruct (Z.min_spec (port_min s) (sa_port a)) as [[_ ->]|[_ ->]]; eauto.
Qed.

Lemma scan_all local_ip addrs : forall seen s, scanned local_ip seen s ->
  scanned local_ip (seen ++ addrs) (foldl (scan_address local_ip) s addrs).
Proof.
  induction addrs as [|a addrs IH]; intros seen s H; [by rewrite app_nil_r|]. cbn [foldl].
  replace (seen ++ a :: addrs) with ((seen ++ [a]) ++ addrs) by (by rewrite <- app_assoc). by apply IH, scan_step.
Qed.

(** the NAT classification says what the samples say.  From two samples on,
    the NAT is called easy exactly when all mappings are the same; the
    behaviour names what differs from the first mapping; the port difference
    is the spread of the ports when only ports differ, and zero otherwise; and
    the network is public exactly when some mapping has the local address. *)
Theorem nat_classification b addrs local_ip : addrs <> [] ->
  exists f, classify_nat_feature (b :: addrs) local_ip = Ok f /\
    (nat_type f = EASY_NAT <-> forall a, a ∈ b :: addrs -> a = b) /\
    (nat_type f = EASY_NAT \/ nat_type f = HARD_NAT) /\
    (behavior f = BEHAVIOR_PORT_CHANGED <->
       (forall a, a ∈ b :: addrs -> sa_ip a = sa_ip b) /\ exists a, a ∈ b :: addrs /\ sa_port a <> sa_port b) /\
    (public_network f = true <-> exists a, a ∈ b :: addrs /\ local_ip = Some (sa_ip a)) /\
    (behavior f <> BEHAVIOR_PORT_CHANGED -> ports_difference f = 0) /\
    (behavior f = BEHAVIOR_PORT_CHANGED ->
       exists x y, x ∈ b :: addrs /\ y ∈ b :: addrs /\ ports_difference f = sa_port x - sa_port y /\
         forall a, a ∈ b :: addrs -> sa_port y <= sa_port a <= sa_port x).
Proof.
  intros Hne. unfold classify_nat_feature. rewrite decide_False by (destruct addrs; [done|simpl; lia]).
  set (s0 := {| ip_changed := false |}).
  assert (scanned local_ip [] s0) as H0.
  { split; [|done]. split; [done|]. by intros (x & Hx%not_elem_of_nil & _). }
  apply (scan_all local_ip (b :: addrs)) in H0. rewrite app_nil_l in H0.
  set (s := foldl _ s0 _) in *. clearbody s. destruct H0 as [Hl (_ & Hi & Hp & Hr & (x & Hx & Ex) & (y & Hy & Ey))].
  assert (Heq : (forall a, a ∈ b :: addrs -> a = b) <-> ip_changed s = false /\ port_changed s = false).
  { rewrite <- !not_true_iff_false, Hi, Hp. split.
    - intros Hall. split; intros (a & Ha & E); apply E; by rewrite (Hall a Ha).
    - intros [H1 H2] a Ha. destruct a as [aip ap], b as [bip bp]. f_equal.
      + destruct (decide (aip = bip)); [done|]. destruct H1. by eexists.
      + destruct (decide (ap = bp)); [done|]. destruct H2. by eexists. }
  assert (Hpc : (forall a, a ∈ b :: addrs -> sa_ip a = sa_ip b) <-> ip_changed s = false).
  { rewrite <- not_true_iff_false, Hi. split; [naive_solver|].
    intros Hn a Ha. destruct (decide (sa_ip a = sa_ip b)); [done|]. destruct Hn. eauto. }
  destruct (match ip_changed s, port_changed s with true, true => _ | _, _ => _ end) as [ty how] eqn:Em.
  eexists. split; [reflexivity|]. cbn [nat_type behavior ports_difference public_network].
  rewrite Heq, Hpc, <- Hp.
  assert (EASY_NAT <> HARD_NAT /\ BEHAVIOR_NO_CHANGE <> BEHAVIOR_PORT_CHANGED /\
    BEHAVIOR_IP_CHANGED <> BEHAVIOR_PORT_CHANGED /\ BEHAVIOR_BOTH_CHANGED <> BEHAVIOR_PORT_CHANGED) as Hn
    by (split_and!; discriminate).
  assert (Hspread : exists x y, x ∈ b :: addrs /\ y ∈ b :: addrs /\
    port_max s - port_min s = sa_port x - sa_port y /\
    forall a, a ∈ b :: addrs -> sa_port y <= sa_port a <= sa_port x).
  { exists x, y. rewrite Ex, Ey. auto. }
  revert Em Hn Hspread Hl. clear.
  generalize EASY_NAT HARD_NAT BEHAVIOR_NO_CHANGE BEHAVIOR_IP_CHANGED BEHAVIOR_PORT_CHANGED BEHAVIOR_BOTH_CHANGED.
  intros easy hard none ipc portc both Em (N1 & N2 & N3 & N4) Hspread Hl.
  destruct (ip_changed s), (port_changed s); injection Em as <- <-; (split; [intuition congruence|]);
    (split; [auto|]); (split; [intuition congruence|]); (split; [done|]); case_decide; (split; [done|]);
    done || (intros; congruence) || (intros _; exact Hspread).
Qed.

Lemma nat_classification_witness :
  let a p := SocketAddr (V4 3405803783) p in
  classify_nat_feature [a 5000; a 5003] None
    = Ok {| nat_type := HARD_NAT; behavior := BEHAVIOR_PORT_CHANGED; ports_difference := 3;
            regular_ports_change := true; public_network := false |} /\
  exists f, classify_nat_feature [a 5000; a 5003] None = Ok f /\
    (nat_type f = EASY_NAT \/ nat_type f = HARD_NAT).
Proof.
  intros a. split; [vm_compute; reflexivity|].
  destruct (nat_classification (a 5000) [a 5003] None) as (f & E & _ & H & _); [discriminate|].
  exists f. split; [exact E|exact H].
Defined.
