(* ===== verification/StcpBridge.v ===== *)
(** * STCP bridges (src/rust_frp_server/src/control.rs, [StcpBridgeManager])

    A bridge pairs the work connection of a proxy's owner with the one of a
    visitor.  Every method is one critical section on the two maps, so one
    atomic step; clock readings are arguments. *)
From S2P Require Import Prelude RustStd.

Definition BRIDGE_EMPTY_TTL : Z := secs 15.
Definition BRIDGE_ZOMBIE_TTL : Z := secs 45.
Definition BRIDGE_ID_REPLAY_WINDOW : Z := secs 120.
Definition MAX_PENDING_BRIDGES : Z := 4096.
Definition MAX_RECENT_BRIDGE_IDS : Z := MAX_PENDING_BRIDGES * 2.

Inductive StcpBridgeRole := Owner | Visitor.

#[global] Instance role_eq_dec : EqDecision StcpBridgeRole.
Proof. solve_decision. Defined.

Section bridge.
Context {AnyConn : Type} `{HashIter}.

Record StcpBridgeState := {
  proxy_name : string;
  owner_run_id : string;
  visitor_run_id : string;
  owner_work_conn_sign_key : string;
  visitor_work_conn_sign_key : string;
  owner_conn : option AnyConn;
  visitor_conn : option AnyConn;
  owner_reserved : bool;
  visitor_reserved : bool;
  created_at : Z;
}.

(** Replaces the connection and the reservation of one role. *)
Definition set_leg (s : StcpBridgeState) (role : StcpBridgeRole) (conn : option AnyConn)
    (reserved : bool) : StcpBridgeState :=
  {| proxy_name := proxy_name s; owner_run_id := owner_run_id s;
     visitor_run_id := visitor_run_id s;
     owner_work_conn_sign_key := owner_work_conn_sign_key s;
     visitor_work_conn_sign_key := visitor_work_conn_sign_key s;
     owner_conn := match role with Owner => conn | Visitor => owner_conn s end;
     visitor_conn := match role with Visitor => conn | Owner => visitor_conn s end;
     owner_reserved := match role with Owner => reserved | Visitor => owner_reserved s end;
     visitor_reserved := match role with Visitor => reserved | Owner => visitor_reserved s end;
     created_at := created_at s |}.

Definition leg_conn (s : StcpBridgeState) (role : StcpBridgeRole) : option AnyConn :=
  match role with Owner => owner_conn s | Visitor => visitor_conn s end.
Definition leg_reserved (s : StcpBridgeState) (role : StcpBridgeRole) : bool :=
  match role with Owner => owner_reserved s | Visitor => visitor_reserved s end.

Definition is_some {A} (o : option A) : bool := match o with Some _ => true | None => false end.

Definition expired_reason (s : StcpBridgeState) (now : Z) : option string :=
  let age := duration_since now (created_at s) in
  let any_leg := is_some (owner_conn s) || is_some (visitor_conn s)
                 || owner_reserved s || visitor_reserved s in
  if any_leg
  then if decide (BRIDGE_ZOMBIE_TTL < age) then Some "half-open"%string else None
  else if decide (BRIDGE_EMPTY_TTL < age) then Some "empty"%string else None.

Record StcpBridgeManager := {
  bridges : gmap string StcpBridgeState;
  recent_bridge_ids : gmap string Z;
}.

Definition new_manager : StcpBridgeManager := {| bridges := ∅; recent_bridge_ids := ∅ |}.

Definition with_bridges (m : StcpBridgeManager) (b : gmap string StcpBridgeState)
  : StcpBridgeManager := {| bridges := b; recent_bridge_ids := recent_bridge_ids m |}.

(** The surviving bridges, and how many were reaped. *)
Definition reap_zombie_bridges (now : Z) (b : gmap string StcpBridgeState)
  : gmap string StcpBridgeState * Z :=
  let kept := filter (fun kv => expired_reason kv.2 now = None) b in
  (kept, Z.of_nat (size b) - Z.of_nat (size kept)).

(** [recent.retain(..)]. *)
Definition retain_recent (now : Z) (r : gmap string Z) : gmap string Z :=
  filter (fun kv => duration_since now kv.2 <= BRIDGE_ID_REPLAY_WINDOW) r.

(** [reap_at] and [now] are the two clock readings of the method. *)
Definition create_bridge (m : StcpBridgeManager) (reap_at now : Z)
    (proxy_name bridge_id owner_run_id visitor_run_id owner_key visitor_key : string)
  : result string unit * StcpBridgeManager :=
  let b := (reap_zombie_bridges reap_at (bridges m)).1 in
  let recent := retain_recent now (recent_bridge_ids m) in
  let m := {| bridges := b; recent_bridge_ids := recent |} in
  if is_some (b !! bridge_id) || is_some (recent !! bridge_id)
  then (Err "bridge_id already used"%string, m) else
  if decide (MAX_PENDING_BRIDGES <= Z.of_nat (size b))
  then (Err "server has too many pending STCP bridges"%string, m) else
  let recent :=
    if decide (MAX_RECENT_BRIDGE_IDS <= Z.of_nat (size recent)) then
      match min_by_key (fun kv => kv.2) (hash_iter recent) with
      | Some (oldest, _) => delete oldest recent
      | None => recent
      end
    else recent in
  (Ok tt,
   {| recent_bridge_ids := <[bridge_id := now]> recent;
      bridges := <[bridge_id :=
        {| proxy_name := proxy_name; owner_run_id := owner_run_id;
           visitor_run_id := visitor_run_id; owner_work_conn_sign_key := owner_key;
           visitor_work_conn_sign_key := visitor_key; owner_conn := None; visitor_conn := None;
           owner_reserved := false; visitor_reserved := false; created_at := now |}]> b |}).

(** [constant_time_eq] decides equality of the byte strings. *)
Definition reserve_leg (m : StcpBridgeManager) (now : Z) (bridge_id run_id sign_key : string)
  : result string StcpBridgeRole * StcpBridgeManager :=
  let b := (reap_zombie_bridges now (bridges m)).1 in
  let m := with_bridges m b in
  match b !! bridge_id with
  | None => (Err "STCP bridge not found"%string, m)
  | Some s =>
      match (if decide (run_id = owner_run_id s /\ sign_key = owner_work_conn_sign_key s)
             then Some Owner
             else if decide (run_id = visitor_run_id s /\ sign_key = visitor_work_conn_sign_key s)
             then Some Visitor else None) with
      | None => (Err "STCP bridge leg authorization failed"%string, m)
      | Some role =>
          if leg_reserved s role || is_some (leg_conn s role)
          then (Err "STCP bridge leg already claimed"%string, m)
          else (Ok role, with_bridges m (<[bridge_id := set_leg s role (leg_conn s role) true]> b))
      end
  end.

Definition release_leg (m : StcpBridgeManager) (bridge_id : string) (role : StcpBridgeRole)
  : StcpBridgeManager :=
  match bridges m !! bridge_id with
  | Some s => with_bridges m (<[bridge_id := set_leg s role (leg_conn s role) false]> (bridges m))
  | None => m
  end.

(** [Err conn] hands the connection back to the caller. *)
Definition install_leg (m : StcpBridgeManager) (bridge_id : string) (role : StcpBridgeRole)
    (conn : AnyConn) : result AnyConn (option (AnyConn * AnyConn)) * StcpBridgeManager :=
  match bridges m !! bridge_id with
  | None => (Err conn, m)
  | Some s =>
      if negb (leg_reserved s role) || is_some (leg_conn s role) then (Err conn, m) else
      let s := set_leg s role (Some conn) false in
      match owner_conn s, visitor_conn s with
      | Some o, Some v => (Ok (Some (o, v)), with_bridges m (delete bridge_id (bridges m)))
      | _, _ => (Ok None, with_bridges m (<[bridge_id := s]> (bridges m)))
      end
  end.

Definition cleanup (m : StcpBridgeManager) (name : string) : StcpBridgeManager :=
  with_bridges m (filter (fun kv => proxy_name kv.2 <> name) (bridges m)).

Definition cleanup_bridge (m : StcpBridgeManager) (bridge_id : string) : StcpBridgeManager :=
  with_bridges m (delete bridge_id (bridges m)).

(** The numbers of reaped bridges and of expired replay ids. *)
Definition sweep_stale (m : StcpBridgeManager) (reap_at now : Z) : Z * Z * StcpBridgeManager :=
  let '(b, reaped) := reap_zombie_bridges reap_at (bridges m) in
  let recent := retain_recent now (recent_bridge_ids m) in
  (reaped, Z.of_nat (size (recent_bridge_ids m)) - Z.of_nat (size recent),
   {| bridges := b; recent_bridge_ids := recent |}).

(** ** Steps: the operations with the clock at which they run *)
Inductive bridge_op :=
| OCreate (name id owner visitor owner_key visitor_key : string)
| OReserve (id run_id key : string)
| ORelease (id : string) (role : StcpBridgeRole)
| OInstall (id : string) (role : StcpBridgeRole) (conn : AnyConn)
| OCleanup (name : string)
| OCleanupBridge (id : string)
| OSweep.

Definition bridge_step (m : StcpBridgeManager) (now : Z) (o : bridge_op) : StcpBridgeManager :=
  match o with
  | OCreate n i ow vi ok vk => (create_bridge m now now n i ow vi ok vk).2
  | OReserve i r k => (reserve_leg m now i r k).2
  | ORelease i r => release_leg m i r
  | OInstall i r c => (install_leg m i r c).2
  | OCleanup n => cleanup m n
  | OCleanupBridge i => cleanup_bridge m i
  | OSweep => (sweep_stale m now now).2
  end.

(** States reachable by any interleaving of the operations. *)
Inductive reachable : StcpBridgeManager -> Prop :=
| reach_new : reachable new_manager
| reach_step m now o : reachable m -> reachable (bridge_step m now o).

(** A run of [n] steps in which the clock never goes back. *)
Inductive timed_run : nat -> Z -> StcpBridgeManager -> Z -> StcpBridgeManager -> Prop :=
| run_nil t m : timed_run 0 t m t m
| run_cons n t m now o t' m' :
    t <= now -> timed_run n now (bridge_step m now o) t' m' -> timed_run (S n) t m t' m'.

(** ** The invariant *)
Definition bridge_ok (s : StcpBridgeState) : Prop :=
  (is_some (owner_conn s) = true -> owner_reserved s = false) /\
  (is_some (visitor_conn s) = true -> visitor_reserved s = false) /\
  ~ (is_some (owner_conn s) = true /\ is_some (visitor_conn s) = true).

Record manager_inv (m : StcpBridgeManager) : Prop := {
  mi_ok : map_Forall (fun _ s => bridge_ok s) (bridges m);
  mi_size : Z.of_nat (size (bridges m)) <= MAX_PENDING_BRIDGES;
  mi_recent : Z.of_nat (size (recent_bridge_ids m)) <= MAX_RECENT_BRIDGE_IDS;
}.
End bridge.
Arguments StcpBridgeState AnyConn : clear implicits.
Arguments StcpBridgeManager AnyConn : clear implicits.

Section laws.
Context {AnyConn : Type} `{!HashIter, !HashIterLaws}.
Implicit Types (m : StcpBridgeManager AnyConn) (s : StcpBridgeState AnyConn).

Lemma map_Forall_filter {K A} `{Countable K} (P : K * A -> Prop) `{!forall x, Decision (P x)}
    (Q : K -> A -> Prop) (b : gmap K A) : map_Forall Q b -> map_Forall Q (filter P b).
Proof. intros HQ k x Hx. apply map_lookup_filter_Some in Hx as [Hx _]. by apply HQ. Qed.

Lemma inv_shrink m b r :
  manager_inv m -> map_Forall (fun _ => @bridge_ok AnyConn) b ->
  (size b <= size (bridges m))%nat -> (size r <= size (recent_bridge_ids m))%nat ->
  manager_inv {| bridges := b; recent_bridge_ids := r |}.
Proof. intros [Hok Hs Hr] Hb H1 H2. split; simpl; [done|lia|lia]. Qed.

Lemma inv_filter m P `{!forall x, Decision (P x)} Q `{!forall x, Decision (Q x)} :
  manager_inv m ->
  manager_inv {| bridges := filter P (bridges m); recent_bridge_ids := filter Q (recent_bridge_ids m) |}.
Proof.
  intros Hinv. apply (inv_shrink m); [done|apply map_Forall_filter, Hinv|apply map_size_filter_le..].
Qed.

Lemma inv_update m id s s' :
  manager_inv m -> bridges m !! id = Some s -> bridge_ok s' ->
  manager_inv (with_bridges m (<[id := s']> (bridges m))).
Proof.
  intros Hinv Hs Hok. apply (inv_shrink m); [done| | |done].
  - apply map_Forall_insert_2; [done|apply Hinv].
  - rewrite map_size_insert_Some by eauto. done.
Qed.

Lemma create_bridge_inv m t1 t2 n i ow vi ok vk :
  manager_inv m -> manager_inv (create_bridge m t1 t2 n i ow vi ok vk).2.
Proof.
  intros Hinv. unfold create_bridge, reap_zombie_bridges, retain_recent. simpl.
  pose proof (inv_filter m (fun kv => expired_reason kv.2 t1 = None)
    (fun kv => duration_since t2 kv.2 <= BRIDGE_ID_REPLAY_WINDOW) Hinv) as Hf.
  set (b := filter _ (bridges m)) in *. set (r := filter _ (recent_bridge_ids m)) in *.
  destruct (is_some (b !! i) || is_some (r !! i)) eqn:Eu; [done|].
  destruct (decide (MAX_PENDING_BRIDGES <= _)) as [|Hcap]; [done|].
  destruct Hf as [Hok Hs Hr]. simpl in *. split; simpl.
  - apply map_Forall_insert_2; [|done]. unfold bridge_ok. simpl. by intuition.
  - match goal with |- Z.of_nat (size (<[_ := ?x]> _)) <= _ =>
      pose proof (map_size_insert_le b i x) end. lia.
  - match goal with |- Z.of_nat (size (<[_ := _]> ?r')) <= _ =>
      pose proof (map_size_insert_le r' i t2) as Hi; set (rr := r') in * end.
    enough (Z.of_nat (size rr) < MAX_RECENT_BRIDGE_IDS) by lia. subst rr.
    case_decide; [|lia].
    destruct (min_by_key _ _) as [[old u]|] eqn:Em.
    + apply min_by_key_elem, hash_iter_elem in Em. rewrite map_size_delete_Some by eauto.
      unfold MAX_RECENT_BRIDGE_IDS, MAX_PENDING_BRIDGES in *. lia.
    + apply min_by_key_None in Em. pose proof (hash_iter_perm r) as Hp. rewrite Em in Hp.
      apply Permutation_nil_l in Hp. symmetry in Hp.
      apply map_to_list_empty_iff in Hp. rewrite Hp in *.
      rewrite map_size_empty in *. done.
Qed.

Lemma set_leg_ok s role : bridge_ok s -> leg_conn s role = None -> forall r,
  bridge_ok (set_leg s role (leg_conn s role) r).
Proof.
  unfold bridge_ok. intros (H1 & H2 & H3) Hn r. rewrite Hn.
  destruct role; simpl in *; rewrite Hn in *; by intuition.
Qed.

Lemma release_ok s role : bridge_ok s -> bridge_ok (set_leg s role (leg_conn s role) false).
Proof. unfold bridge_ok. destruct role; simpl; by intuition. Qed.

Lemma reserve_leg_inv m now id r k : manager_inv m -> manager_inv (reserve_leg m now id r k).2.
Proof.
  intros Hinv. unfold reserve_leg. simpl.
  pose proof (inv_filter m (fun kv => expired_reason kv.2 now = None) (fun _ => True) Hinv) as Hf.
  rewrite (map_filter_id (fun _ => True)) in Hf by done.
  set (b := filter _ (bridges m)) in *.
  destruct (b !! id) as [s|] eqn:E; [|done].
  match goal with |- context [match ?x with Some _ => _ | None => _ end] => destruct x as [role|] end;
    [|done].
  destruct (leg_reserved s role || is_some (leg_conn s role)) eqn:El; [done|].
  apply (inv_update (with_bridges m b) id s); [done|done|].
  apply orb_false_iff in El as [_ El].
  apply set_leg_ok; [by apply (mi_ok _ Hf id)|]. by destruct (leg_conn s role).
Qed.

Lemma install_leg_inv m id role c : manager_inv m -> manager_inv (install_leg m id role c).2.
Proof.
  intros Hinv. unfold install_leg. destruct (bridges m !! id) as [s|] eqn:E; [|done].
  destruct (negb (leg_reserved s role) || is_some (leg_conn s role)) eqn:El; [done|].
  pose proof (mi_ok _ Hinv id s E) as (H1 & H2 & H3).
  apply orb_false_iff in El as [Er Ec].
  assert (manager_inv (with_bridges m (delete id (bridges m)))) as Hd.
  { apply (inv_shrink m); [done|apply map_Forall_delete, Hinv|apply map_size_delete_le|done]. }
  destruct (owner_conn (set_leg s role (Some c) false)) as [o|] eqn:Eo;
    [destruct (visitor_conn (set_leg s role (Some c) false)) as [v|] eqn:Ev; [exact Hd|]|].
  - apply (inv_update _ id s); [done|done|]. unfold bridge_ok. rewrite Ev.
    destruct role; simpl in *; by intuition.
  - apply (inv_update _ id s); [done|done|]. unfold bridge_ok. rewrite Eo.
    destruct role; simpl in *; by intuition.
Qed.

Lemma bridge_step_inv m now o : manager_inv m -> manager_inv (bridge_step m now o).
Proof.
  intros Hinv. destruct o; simpl bridge_step.
  - by apply create_bridge_inv.
  - by apply reserve_leg_inv.
  - unfold release_leg. destruct (bridges m !! id) as [s|] eqn:E; [|done].
    apply (inv_update _ id s); [done|done|]. by apply release_ok, (mi_ok _ Hinv id).
  - by apply install_leg_inv.
  - unfold cleanup, with_bridges.
    pose proof (inv_filter m (fun kv => proxy_name kv.2 <> name) (fun _ => True) Hinv) as Hf.
    by rewrite (map_filter_id (fun _ => True)) in Hf.
  - apply (inv_shrink m); [done|apply map_Forall_delete, Hinv|apply map_size_delete_le|done].
  - unfold sweep_stale, reap_zombie_bridges, retain_recent. simpl. by apply inv_filter.
Qed.

Lemma reachable_inv m : reachable m -> manager_inv m.
Proof.
  induction 1; [|by apply bridge_step_inv].
  split; simpl; [apply map_Forall_empty|by rewrite map_size_empty..].
Qed.

(** C35: In every state reachable by any interleaving of the operations, no
    bridge holds both legs at rest (the pair leaves as soon as the second
    arrives), an installed leg is no longer reserved, at most 4096 bridges are
    pending and at most 8192 used ids are remembered. *)
Theorem bridge_invariant m : reachable m -> manager_inv m.
Proof. apply reachable_inv. Qed.

(** Installing the second leg hands out the right pair, once: in a
    reachable state an [install_leg] that returns a pair returns (owner,
    visitor), one of them the connection just given and the other the one
    installed before, and removes the bridge; one that returns nothing keeps
    the connection in its role's slot; a refused connection is handed back and
    nothing changes.  Other bridges are never touched. *)
Theorem install_leg_pairs m id role c r m' :
  reachable m -> install_leg m id role c = (r, m') ->
  (forall id', id' <> id -> bridges m' !! id' = bridges m !! id') /\
  match r with
  | Ok (Some (o, v)) => bridges m' !! id = None /\
      exists s, bridges m !! id = Some s /\ leg_reserved s role = true /\
        match role with
        | Owner => o = c /\ visitor_conn s = Some v
        | Visitor => v = c /\ owner_conn s = Some o
        end
  | Ok None => exists s s', bridges m !! id = Some s /\ bridges m' !! id = Some s' /\
      leg_reserved s role = true /\ leg_conn s' role = Some c /\
      leg_conn s' (match role with Owner => Visitor | Visitor => Owner end) = None
  | Err c' => c' = c /\ m' = m
  end.
Proof.
  intros Hr E. pose proof (reachable_inv m Hr) as Hinv. unfold install_leg in E.
  destruct (bridges m !! id) as [s|] eqn:Es; [|by simplify_eq].
  destruct (negb (leg_reserved s role) || is_some (leg_conn s role)) eqn:El; [by simplify_eq|].
  apply orb_false_iff in El as [Er Ec]. apply negb_false_iff in Er.
  pose proof (mi_ok _ Hinv id s Es) as (_ & _ & H3).
  destruct role; simpl in *.
  - destruct (visitor_conn s) as [v|] eqn:Ev; simplify_eq; simpl.
    + split; [intros; by rewrite lookup_delete_ne|]. rewrite lookup_delete_eq.
      split; [done|]. exists s. by split_and!.
    + split; [intros; by rewrite lookup_insert_ne|]. rewrite lookup_insert_eq.
      eexists _, _. split_and!; [done|done|done|done|done].
  - destruct (owner_conn s) as [o|] eqn:Eo; simplify_eq; simpl.
    + split; [intros; by rewrite lookup_delete_ne|]. rewrite lookup_delete_eq.
      split; [done|]. exists s. by split_and!.
    + split; [intros; by rewrite lookup_insert_ne|]. rewrite lookup_insert_eq.
      eexists _, _. split_and!; [done|done|done|done|done].
Qed.

(** *** Replay protection *)

(** The id is remembered since [t0], and no more than [k] ids are. *)
Definition remembers (id : string) (t0 : Z) (k : Z) m : Prop :=
  recent_bridge_ids m !! id = Some t0 /\ Z.of_nat (size (recent_bridge_ids m)) <= k.

Lemma retain_recent_keeps r id t0 now : r !! id = Some t0 -> now <= t0 + BRIDGE_ID_REPLAY_WINDOW ->
  retain_recent now r !! id = Some t0.
Proof.
  intros Hr Hn. apply map_lookup_filter_Some. split; [done|]. simpl.
  unfold duration_since, BRIDGE_ID_REPLAY_WINDOW, secs in *. lia.
Qed.

Lemma retain_recent_size now r : Z.of_nat (size (retain_recent now r)) <= Z.of_nat (size r).
Proof. pose proof (map_size_filter_le (fun kv => duration_since now kv.2 <= BRIDGE_ID_REPLAY_WINDOW) r).
  unfold retain_recent. lia. Qed.

Lemma step_remembers id t0 k m now o :
  remembers id t0 k m -> now <= t0 + BRIDGE_ID_REPLAY_WINDOW -> k < MAX_RECENT_BRIDGE_IDS ->
  remembers id t0 (k + 1) (bridge_step m now o).
Proof.
  intros [Hr Hs] Hn Hk.
  assert (forall b, remembers id t0 (k + 1) {| bridges := b; recent_bridge_ids := recent_bridge_ids m |})
    as Hsame by (intros b; split; simpl; [done|lia]).
  pose proof (retain_recent_keeps _ _ _ now Hr Hn) as Hk2.
  pose proof (retain_recent_size now (recent_bridge_ids m)) as Hsz.
  destruct o; simpl bridge_step.
  - unfold create_bridge. simpl.
    destruct (is_some _ || is_some _) eqn:Eu; [split; simpl; [done|lia]|].
    destruct (decide (MAX_PENDING_BRIDGES <= _)); [split; simpl; [done|lia]|].
    rewrite decide_False by lia. apply orb_false_iff in Eu as [_ Eu].
    assert (id <> id0) as Hne by (intros ->; by rewrite Hk2 in Eu).
    split; simpl; [by rewrite lookup_insert_ne|].
    pose proof (map_size_insert_le (retain_recent now (recent_bridge_ids m)) id0 now). lia.
  - unfold reserve_leg. simpl. repeat case_match; simpl; apply Hsame.
  - unfold release_leg. case_match; [apply Hsame|]. destruct m; apply Hsame.
  - unfold install_leg. repeat case_match; simpl; try apply Hsame; destruct m; apply Hsame.
  - apply Hsame.
  - apply Hsame.
  - split; simpl; [done|lia].
Qed.

Lemma run_remembers n t m t' m' id t0 k :
  timed_run n t m t' m' -> remembers id t0 k m -> t' <= t0 + BRIDGE_ID_REPLAY_WINDOW ->
  k + Z.of_nat n <= MAX_RECENT_BRIDGE_IDS ->
  remembers id t0 (k + Z.of_nat n) m'.
Proof.
  intros Hrun. revert k. induction Hrun as [t m|n t m now o t' m' Hle Hrun IH]; intros k Hm Ht Hk.
  { by rewrite Z.add_0_r. }
  assert (now <= t') as Hnow by (clear -Hrun; induction Hrun; lia).
  replace (k + Z.of_nat (S n)) with (k + 1 + Z.of_nat n) by lia.
  apply IH; [|lia|lia]. apply step_remembers; [done|lia|lia].
Qed.

(** A used bridge id cannot be replayed: after a successful
    [create_bridge] at time [t], every later [create_bridge] with the same id
    within 120 seconds is refused, whatever happened in between (pairing,
    clean-up, sweeps, other bridges), as long as fewer than 8192 operations
    could have filled the table of remembered ids. *)
Theorem bridge_id_not_replayed m m1 t n t' m' r1 r2 name id ow vi ok vk name' ow' vi' ok' vk' :
  create_bridge m t t name id ow vi ok vk = (Ok tt, m1) ->
  timed_run n t m1 t' m' -> t' <= r1 -> t' <= r2 -> r2 <= t + BRIDGE_ID_REPLAY_WINDOW ->
  Z.of_nat (size (recent_bridge_ids m1)) + Z.of_nat n <= MAX_RECENT_BRIDGE_IDS ->
  (create_bridge m' r1 r2 name' id ow' vi' ok' vk').1 = Err "bridge_id already used"%string.
Proof.
  intros Hc Hrun H1 H2 Hw Hn.
  assert (remembers id t (Z.of_nat (size (recent_bridge_ids m1))) m1) as Hm.
  { split; [|lia]. unfold create_bridge in Hc. simpl in Hc.
    repeat case_match; simplify_eq; simpl; by rewrite lookup_insert_eq. }
  destruct (run_remembers _ _ _ _ _ _ _ _ Hrun Hm) as [Hr _]; [lia|lia|].
  unfold create_bridge. simpl. rewrite (retain_recent_keeps _ _ _ r2 Hr Hw).
  by rewrite orb_true_r.
Qed.

(** *** Reservation *)
Lemma reap_lookup now (b : gmap string (StcpBridgeState AnyConn)) id s :
  (reap_zombie_bridges now b).1 !! id = Some s <-> b !! id = Some s /\ expired_reason s now = None.
Proof. unfold reap_zombie_bridges. simpl. by rewrite map_lookup_filter_Some. Qed.

(** A leg is reserved only by its authenticated party and by one caller at
    a time: when [reserve_leg] succeeds the bridge exists and has not expired,
    run id and key are those of the returned role and the role's slot was
    neither reserved nor filled; exactly that slot is now reserved, so a second
    attempt on it is refused as already claimed. *)
Theorem reserve_leg_exclusive m now id run key role m' :
  reserve_leg m now id run key = (Ok role, m') ->
  exists s, bridges m !! id = Some s /\ expired_reason s now = None /\
    leg_reserved s role = false /\ leg_conn s role = None /\
    match role with
    | Owner => run = owner_run_id s /\ key = owner_work_conn_sign_key s
    | Visitor => run = visitor_run_id s /\ key = visitor_work_conn_sign_key s
    end /\
    bridges m' !! id = Some (set_leg s role None true) /\
    forall now', now' <= created_at s + BRIDGE_ZOMBIE_TTL ->
      (reserve_leg m' now' id run key).1 = Err "STCP bridge leg already claimed"%string.
Proof.
  unfold reserve_leg at 1. simpl. intros E.
  destruct ((reap_zombie_bridges now (bridges m)).1 !! id) as [s|] eqn:Es;
    unfold reap_zombie_bridges in Es; simpl in Es; rewrite Es in E; [|done].
  pose proof Es as Es'. apply map_lookup_filter_Some in Es' as [Hs Hexp]. simpl in Hexp.
  match type of E with context [match ?x with Some _ => _ | None => _ end] =>
    destruct x as [role'|] eqn:Erole end; [|done].
  destruct (leg_reserved s role' || is_some (leg_conn s role')) eqn:El; [done|].
  injection E as -> <-. apply orb_false_iff in El as [Er Ec].
  assert (leg_conn s role = None) as Hc by (by destruct (leg_conn s role)).
  exists s. split_and!; try done.
  - repeat case_decide; simplify_eq; tauto.
  - simpl. by rewrite lookup_insert_eq, Hc.
  - intros now' Hn. unfold reserve_leg. simpl.
    assert (expired_reason (set_leg s role None true) now' = None) as Hx.
    { unfold expired_reason. assert (created_at (set_leg s role None true) = created_at s) as -> by done.
      replace (_ || _) with true by (destruct role; simpl; by rewrite ?orb_true_r).
      rewrite decide_False; [done|]. unfold duration_since, BRIDGE_ZOMBIE_TTL, secs in *. lia. }
    assert (filter (fun kv : string * StcpBridgeState AnyConn => expired_reason kv.2 now' = None)
      (<[id := set_leg s role (leg_conn s role) true]>
         (filter (fun kv : string * StcpBridgeState AnyConn => expired_reason kv.2 now = None)
            (bridges m))) !! id = Some (set_leg s role None true)) as ->.
    { apply map_lookup_filter_Some. by rewrite lookup_insert_eq, Hc. }
    assert ((if decide (run = owner_run_id s /\ key = owner_work_conn_sign_key s) then Some Owner
      else if decide (run = visitor_run_id s /\ key = visitor_work_conn_sign_key s)
      then Some Visitor else None) = Some role) as Hrole by done.
    simpl. rewrite Hrole. by destruct role; simpl.
Qed.

(** *** A whole session *)
Lemma reserve_leg_Ok m now id s run key role :
  bridges m !! id = Some s -> expired_reason s now = None ->
  (if decide (run = owner_run_id s /\ key = owner_work_conn_sign_key s) then Some Owner
   else if decide (run = visitor_run_id s /\ key = visitor_work_conn_sign_key s)
   then Some Visitor else None) = Some role ->
  leg_reserved s role = false -> leg_conn s role = None ->
  exists m', reserve_leg m now id run key = (Ok role, m') /\
    bridges m' !! id = Some (set_leg s role None true).
Proof.
  intros Hs Hx Hrole Hr Hc. unfold reserve_leg. simpl.
  assert (filter (fun kv : string * StcpBridgeState AnyConn => expired_reason kv.2 now = None)
    (bridges m) !! id = Some s) as -> by (by apply map_lookup_filter_Some).
  rewrite Hrole, Hr, Hc. simpl. eexists. split; [reflexivity|]. simpl. by rewrite lookup_insert_eq.
Qed.

Lemma fresh_not_expired s now : now <= created_at s + BRIDGE_EMPTY_TTL -> expired_reason s now = None.
Proof.
  intros Hn. unfold expired_reason, duration_since, BRIDGE_EMPTY_TTL, BRIDGE_ZOMBIE_TTL, secs in *.
  repeat case_match; done || lia.
Qed.

(** *** When a bridge may be opened, said without the code that opens it *)

(** Some side has claimed its place or brought its connection. *)
Definition begun (s : StcpBridgeState AnyConn) : Prop :=
  owner_conn s <> None \/ visitor_conn s <> None \/ owner_reserved s = true \/ visitor_reserved s = true.

(** A bridge waits 15 seconds for its first side and 45 seconds for both. *)
Definition pending_at (now : Z) (s : StcpBridgeState AnyConn) : Prop :=
  (begun s -> now - created_at s <= 45000000000) /\ (~ begun s -> now - created_at s <= 15000000000).

(** The id is not the one of a pending bridge, nor was it used in the last 120
    seconds, and fewer than 4096 bridges are pending. *)
Record id_available (m : StcpBridgeManager AnyConn) (now : Z) (id : string) : Prop := {
  ia_pending : forall s, bridges m !! id = Some s -> ~ pending_at now s;
  ia_recent : forall used, recent_bridge_ids m !! id = Some used -> used + 120000000000 < now;
  ia_room : exists pending : gmap string (StcpBridgeState AnyConn), Z.of_nat (size pending) < 4096 /\
    forall i s, bridges m !! i = Some s -> pending_at now s -> pending !! i = Some s;
}.

Lemma is_some_true {A} (o : option A) : is_some o = true <-> o <> None.
Proof. by destruct o. Qed.

Lemma pending_at_iff s now : expired_reason s now = None <-> pending_at now s.
Proof.
  unfold pending_at, expired_reason, duration_since, BRIDGE_ZOMBIE_TTL, BRIDGE_EMPTY_TTL, secs.
  set (any := is_some _ || _ || _ || _).
  assert (begun s <-> any = true) as -> by (unfold begun, any; rewrite !orb_true_iff, !is_some_true; tauto).
  destruct any; case_decide; (split; [intros; try done; split; intros; done || lia|intros [H1' H2']; try done]).
  - specialize (H1' eq_refl). lia.
  - specialize (H2' ltac:(done)). lia.
Qed.

Lemma create_bridge_Ok_iff m now name id ow vi ok vk :
  (create_bridge m now now name id ow vi ok vk).1 = Ok tt <-> id_available m now id.
Proof.
  unfold create_bridge, reap_zombie_bridges. cbn [fst].
  set (b := filter _ (bridges m)). set (r := retain_recent _ _).
  assert (Hb : forall i s, b !! i = Some s <-> bridges m !! i = Some s /\ pending_at now s).
  { intros i s. subst b. rewrite map_lookup_filter_Some. simpl. by rewrite pending_at_iff. }
  assert (Hr : forall i u, r !! i = Some u <-> recent_bridge_ids m !! i = Some u /\ now <= u + 120000000000).
  { intros i u. subst r. unfold retain_recent. rewrite map_lookup_filter_Some. simpl.
    unfold duration_since, BRIDGE_ID_REPLAY_WINDOW, secs. split; intros [? ?]; split; try done; lia. }
  destruct (b !! id) as [s0|] eqn:E1; simpl.
  { split; [done|]. intros [H1 _ _]. apply Hb in E1 as [E1 Hp]. by destruct (H1 _ E1). }
  destruct (r !! id) as [u0|] eqn:E2; simpl.
  { split; [done|]. intros [_ H2 _]. apply Hr in E2 as [E2 Hp]. specialize (H2 _ E2). lia. }
  unfold MAX_PENDING_BRIDGES. case_decide as Hc; simpl.
  - split; [done|]. intros [_ _ (p & Hp & Hsub)].
    assert (b ⊆ p) as Hs%map_subseteq_size; [|lia].
    apply map_subseteq_spec. intros i s [Hi Hs]%Hb. by apply Hsub.
  - split; [|done]. intros _. split.
    + intros s Hs Hp. by rewrite (proj2 (Hb id s) (conj Hs Hp)) in E1.
    + intros u Hu. destruct (decide (now <= u + 120000000000)) as [Hle|]; [|lia].
      by rewrite (proj2 (Hr id u) (conj Hu Hle)) in E2.
    + exists b. split; [lia|]. intros i s Hi Hp. by apply Hb.
Qed.

(** Creating a bridge adds at most the one asked for. *)
Lemma create_bridge_adds m t1 t2 name id ow vi ok vk i s :
  bridges (create_bridge m t1 t2 name id ow vi ok vk).2 !! i = Some s ->
  (i = id /\ (create_bridge m t1 t2 name id ow vi ok vk).1 = Ok tt) \/ bridges m !! i = Some s.
Proof.
  unfold create_bridge, reap_zombie_bridges. cbn [fst].
  destruct (_ || _); [intros [? _]%map_lookup_filter_Some; by right|].
  case_decide; [intros [? _]%map_lookup_filter_Some; by right|]. simpl.
  destruct (decide (i = id)) as [->|Hne]; [by left|].
  rewrite lookup_insert_ne by done. intros [? _]%map_lookup_filter_Some. by right.
Qed.

(** A session completes: with an unused id, fewer than 4096 bridges pending
    and different credentials for the two sides, creating the bridge, then
    reserving and installing both legs within 15 seconds in the order visitor
    first, owner second, succeeds at every step and ends with the pair
    (owner connection, visitor connection) and no bridge left behind. *)
Theorem bridge_session_completes m t name id ow vi ok vk tv to (cv co : AnyConn) :
  bridges m !! id = None -> recent_bridge_ids m !! id = None ->
  Z.of_nat (size (bridges m)) < MAX_PENDING_BRIDGES ->
  (ow, ok) <> (vi, vk) -> tv <= t + BRIDGE_EMPTY_TTL -> to <= t + BRIDGE_EMPTY_TTL ->
  exists m1 m2 m3 m4 m5,
    create_bridge m t t name id ow vi ok vk = (Ok tt, m1) /\
    reserve_leg m1 tv id vi vk = (Ok Visitor, m2) /\
    install_leg m2 id Visitor cv = (Ok None, m3) /\
    reserve_leg m3 to id ow ok = (Ok Owner, m4) /\
    install_leg m4 id Owner co = (Ok (Some (co, cv)), m5) /\ bridges m5 !! id = None.
Proof.
  intros Hb Hr Hs Hne Htv Hto.
  pose (s0 := {| proxy_name := name; owner_run_id := ow; visitor_run_id := vi;
    owner_work_conn_sign_key := ok; visitor_work_conn_sign_key := vk; owner_conn := @None AnyConn;
    visitor_conn := None; owner_reserved := false; visitor_reserved := false; created_at := t |}).
  assert (exists m1, create_bridge m t t name id ow vi ok vk = (Ok tt, m1) /\
    bridges m1 !! id = Some s0) as (m1 & E1 & Hm1).
  { unfold create_bridge. simpl.
    assert (filter (fun kv : string * StcpBridgeState AnyConn => expired_reason kv.2 t = None)
      (bridges m) !! id = None) as -> by (apply map_lookup_filter_None; by left).
    assert (retain_recent t (recent_bridge_ids m) !! id = None) as ->
      by (apply map_lookup_filter_None; by left).
    simpl. pose proof (map_size_filter_le (fun kv : string * StcpBridgeState AnyConn =>
      expired_reason kv.2 t = None) (bridges m)).
    rewrite decide_False by lia. eexists. split; [reflexivity|]. simpl. by rewrite lookup_insert_eq. }
  destruct (reserve_leg_Ok m1 tv id s0 vi vk Visitor) as (m2 & E2 & Hm2); simpl; try done.
  { by apply fresh_not_expired. }
  { rewrite decide_False by (intros [-> ->]; by apply Hne). by rewrite decide_True. }
  pose (s2 := set_leg (set_leg s0 Visitor None true) Visitor (Some cv) false).
  assert (exists m3, install_leg m2 id Visitor cv = (Ok None, m3) /\ bridges m3 !! id = Some s2)
    as (m3 & E3 & Hm3).
  { unfold install_leg. rewrite Hm2. simpl. eexists. split; [reflexivity|].
    simpl. by rewrite lookup_insert_eq. }
  destruct (reserve_leg_Ok m3 to id s2 ow ok Owner) as (m4 & E4 & Hm4); simpl; try done.
  { by apply fresh_not_expired. }
  { by rewrite decide_True. }
  assert (exists m5, install_leg m4 id Owner co = (Ok (Some (co, cv)), m5) /\ bridges m5 !! id = None)
    as (m5 & E5 & Hm5).
  { unfold install_leg. rewrite Hm4. simpl. eexists. split; [reflexivity|].
    simpl. by rewrite lookup_delete_eq. }
  exists m1, m2, m3, m4, m5. by split_and!.
Qed.
End laws.

(** ** Witnesses *)
#[local] Existing Instance map_order.
#[local] Existing Instance map_order_laws.

Definition demo_bridge : StcpBridgeManager nat :=
  (create_bridge new_manager 0 0 "ssh" "b1" "own" "vis" "ko" "kv").2.
Definition demo_half : StcpBridgeManager nat :=
  bridge_step (bridge_step demo_bridge 1 (OReserve "b1" "vis" "kv")) 1 (OInstall "b1" Visitor 7%nat).
Definition demo_both : StcpBridgeManager nat := bridge_step demo_half 2 (OReserve "b1" "own" "ko").

Lemma demo_reachable : reachable demo_both.
Proof.
  apply reach_step, reach_step, reach_step.
  apply (reach_step new_manager 0 (OCreate "ssh" "b1" "own" "vis" "ko" "kv")), reach_new.
Qed.

Lemma bridge_invariant_witness : manager_inv demo_both.
Proof. apply bridge_invariant, demo_reachable. Defined.

Lemma install_leg_pairs_witness :
  bridges (install_leg demo_both "b1" Owner 9%nat).2 !! "b1"%string = None.
Proof.
  refine (proj1 (proj2 (install_leg_pairs demo_both "b1" Owner 9%nat (Ok (Some (9, 7)%nat))
    _ demo_reachable _))).
  vm_compute. reflexivity.
Defined.

Lemma bridge_id_not_replayed_witness :
  (create_bridge (install_leg demo_both "b1" Owner 9%nat).2 (secs 60) (secs 60)
     "ssh" "b1" "own" "vis" "ko" "kv").1 = Err "bridge_id already used"%string.
Proof.
  apply (bridge_id_not_replayed (AnyConn := nat) new_manager demo_bridge 0 4 2 _ (secs 60) (secs 60)
    "ssh" "b1" "own" "vis" "ko" "kv"); try (vm_compute; (reflexivity || discriminate)).
  eapply (run_cons _ 0 _ 1 (OReserve "b1" "vis" "kv")); [lia|].
  eapply (run_cons _ 1 _ 1 (OInstall "b1" Visitor 7%nat)); [lia|].
  eapply (run_cons _ 1 _ 2 (OReserve "b1" "own" "ko")); [lia|].
  eapply (run_cons _ 2 _ 2 (OInstall "b1" Owner 9%nat)); [lia|]. apply run_nil.
Defined.

Lemma reserve_leg_exclusive_witness :
  (reserve_leg demo_both 3 "b1" "own" "ko").1 = Err "STCP bridge leg already claimed"%string.
Proof.
  destruct (reserve_leg_exclusive demo_half 2 "b1" "own" "ko" Owner demo_both)
    as (s & Hs & _ & _ & _ & _ & _ & Hx); [vm_compute; reflexivity|].
  apply Hx. vm_compute in Hs. injection Hs as <-. vm_compute. discriminate.
Defined.

Lemma bridge_session_completes_witness : exists m1 m2 : StcpBridgeManager nat,
  create_bridge new_manager 0 0 "ssh" "b1" "own" "vis" "ko" "kv" = (Ok tt, m1) /\
  reserve_leg m1 1 "b1" "vis" "kv" = (Ok Visitor, m2).
Proof.
  destruct (bridge_session_completes (AnyConn := nat) new_manager 0 "ssh" "b1" "own" "vis" "ko" "kv"
    1 2 7%nat 9%nat) as (m1 & m2 & _ & _ & _ & H1 & H2 & _);
    try (vm_compute; (reflexivity || discriminate)).
  exists m1, m2. split; [exact H1|exact H2].
Defined.
