(* ===== verification/WorkPool.v ===== *)
(** * The pool of work connections (src/rust_frp_server/src/work_conn.rs)

    One proxy's [WorkConnPool] together with the tasks that use it: any number
    of [get_work_conn] calls, the single refill task, and arriving work
    connections.  Every lock-protected section is one event, so an execution is
    a sequence of events in any interleaving; what the network does (a probe, a
    write, a time-out, a full channel) is part of the event.  [retired] lists
    the connections that were shut down or dropped. *)
From S2P Require Import Prelude RustStd.

(** [AnyConn]: an accepted connection, possibly wrapped. *)
Inductive any_conn :=
| Raw (id : nat)
| CompressedConn (c : any_conn)
| EncryptedConn (c : any_conn) (key : list byte).

Fixpoint base_id (c : any_conn) : nat :=
  match c with
  | Raw id => id
  | CompressedConn c => base_id c
  | EncryptedConn c _ => base_id c
  end.

Record PooledWorkConn := {
  wc_conn : any_conn;
  use_compression : bool;
  use_encryption : bool;
  encryption_key : option (list byte);
  pooled_at : Z;
}.

Definition WORK_CONN_MAX_IDLE : Z := secs 30.

Definition is_fresh_at (e : PooledWorkConn) (now : Z) : bool :=
  bool_decide (duration_since now (pooled_at e) < WORK_CONN_MAX_IDLE).

(** What the one-byte probe of an idle connection observes. *)
Inductive probe := ProbeTimeout | ProbeRead (n : nat) | ProbeError.

Definition pooled_work_conn_is_reusable (p : probe) : bool :=
  match p with
  | ProbeTimeout => true
  | ProbeRead O => false
  | ProbeRead _ => false
  | ProbeError => false
  end.

(** A running [get_work_conn]: between its critical sections it is at one of
    these points of its retry loop. *)
Record attempt := Attempt { retry : nat; last_err : string }.

Inductive getter :=
| GTry (a : attempt)
| GNoIdle (a : attempt)
| GSend (a : attempt) (id : nat)
| GWait (a : attempt) (id : nat)
| GCancel (id : nat) (err : string)
| GCheck (a : attempt) (e : PooledWorkConn)
| GDone (r : result string any_conn).

(** The refill task: not running, about to look, or waiting for the notice. *)
Inductive refill := RIdle | RLook | RWait (notified : bool).

Record pool := Pool {
  idle : list PooledWorkConn;
  waiters : list nat;
  slots : list (nat * PooledWorkConn);
  capacity : nat;
  refilling : refill;
  next_waiter_id : nat;
  getters : list getter;
  dropped_rx : list nat;
  requests : nat;
  retired : list any_conn;
}.

Definition is_refilling (p : pool) : bool :=
  match refilling p with RIdle => false | _ => true end.

(** The capacity [init_pool_with_capacity] gives: the requested size, limited
    by the server's maximum unless that is zero. *)
Definition effective_capacity (pool_size requested : nat) : nat :=
  if decide (pool_size = 0)%nat then requested else Nat.min requested pool_size.

Definition empty_pool (cap : nat) : pool := Pool [] [] [] cap RIdle 0 [] [] 0 [].

Definition init_pool_with_capacity (pool_size : nat) (pools : gmap string pool) (name : string)
    (requested : nat) : gmap string pool :=
  <[name := empty_pool (effective_capacity pool_size requested)]> pools.

Definition remove_pool (pools : gmap string pool) (name : string) : gmap string pool :=
  delete name pools.

Definition max_retries (p : pool) : nat := (Nat.max (capacity p) 1 + 1)%nat.

(** Pops waiters until one still listens. *)
Fixpoint pop_waiter (dropped : list nat) (ws : list nat) : option nat * list nat :=
  match ws with
  | [] => (None, [])
  | id :: ws => if decide (id ∈ dropped) then pop_waiter dropped ws else (Some id, ws)
  end.

(** [register_work_conn]: direct hand-over, or the idle queue, or shut down. *)
Definition register_work_conn (p : pool) (now : Z) (conn : any_conn) (comp enc : bool)
    (key : option (list byte)) : pool :=
  let entry := {| wc_conn := conn; use_compression := comp; use_encryption := enc;
                  encryption_key := key; pooled_at := now |} in
  match pop_waiter (dropped_rx p) (waiters p) with
  | (Some id, ws) =>
      Pool (idle p) ws (slots p ++ [(id, entry)]) (capacity p) (refilling p) (next_waiter_id p)
        (getters p) (dropped_rx p) (requests p) (retired p)
  | (None, ws) =>
      if decide ((length (idle p) < capacity p)%nat \/
                 (is_refilling p = true /\ length (idle p) = capacity p)) then
        Pool (idle p ++ [entry]) ws (slots p) (capacity p)
          (match refilling p with RWait _ => RWait true | r => r end)
          (next_waiter_id p) (getters p) (dropped_rx p) (requests p) (retired p)
      else
        Pool (idle p) ws (slots p) (capacity p) (refilling p) (next_waiter_id p)
          (getters p) (dropped_rx p) (requests p) (retired p ++ [conn])
  end.

(** [schedule_refill]: at most one task. *)
Definition schedule_refill (p : pool) : pool :=
  match refilling p with
  | RIdle => Pool (idle p) (waiters p) (slots p) (capacity p) RLook (next_waiter_id p)
               (getters p) (dropped_rx p) (requests p) (retired p)
  | _ => p
  end.

Definition set_getter (p : pool) (tid : nat) (g : getter) : pool :=
  Pool (idle p) (waiters p) (slots p) (capacity p) (refilling p) (next_waiter_id p)
    (<[tid := g]> (getters p)) (dropped_rx p) (requests p) (retired p).

Definition retire (p : pool) (c : any_conn) : pool :=
  Pool (idle p) (waiters p) (slots p) (capacity p) (refilling p) (next_waiter_id p)
    (getters p) (dropped_rx p) (requests p) (retired p ++ [c]).

(** The next iteration of the retry loop, or its end. *)
Definition next_try (p : pool) (name : string) (a : attempt) : getter :=
  if decide (S (retry a) < max_retries p)%nat then GTry (Attempt (S (retry a)) (last_err a))
  else GDone (Err ("All " +:+ dec (Z.of_nat (max_retries p)) +:+ " retries exhausted for "
                   +:+ name +:+ ": " +:+ last_err a)).

(** The wrapping after StartWorkConn: compression inside, encryption outside. *)
Definition wrap_conn (name : string) (e : PooledWorkConn) : result string any_conn :=
  let conn := if use_compression e then CompressedConn (wc_conn e) else wc_conn e in
  if use_encryption e then
    match encryption_key e with
    | Some key =>
        if decide (length key = 32%nat) then Ok (EncryptedConn conn key)
        else Err "wrap encryption: read key must be 32 bytes for AES-256-GCM"%string
    | None => Err ("proxy " +:+ name +:+ " requests use_encryption but server has no token")
    end
  else Ok conn.

(** ** Events *)
Inductive event :=
| ERegister (now : Z) (conn : any_conn) (comp enc : bool) (key : option (list byte))
| EStart
| EPop (tid : nat)
| EEnqueue (tid : nat)
| ESend (tid : nat) (sent : bool)
| EReceive (tid : nat)
| ETimeout (tid : nat)
| ECancel (tid : nat)
| ECheck (tid : nat) (now : Z) (pr : probe) (write_err : option string)
| ERefillLook (sent : bool)
| ERefillWake (timed_out : bool).

(** The critical sections of [get_work_conn] and of the refill task for the
    proxy [name]; [None] when the event is not enabled. *)
Definition get_step (name : string) (p : pool) (tid : nat) (o : event) : option pool :=
  match getters p !! tid, o with
  | Some (GTry a), EPop _ =>
      match idle p with
      | e :: rest =>
          Some (set_getter (Pool rest (waiters p) (slots p) (capacity p) (refilling p)
            (next_waiter_id p) (getters p) (dropped_rx p) (requests p) (retired p))
            tid (GCheck a e))
      | [] => Some (set_getter p tid (GNoIdle a))
      end
  | Some (GNoIdle a), EEnqueue _ =>
      let id := next_waiter_id p in
      Some (set_getter (Pool (idle p) (waiters p ++ [id]) (slots p) (capacity p) (refilling p)
        (S id) (getters p) (dropped_rx p) (requests p) (retired p)) tid (GSend a id))
  | Some (GSend a id), ESend _ sent =>
      if sent then
        Some (set_getter (Pool (idle p) (waiters p) (slots p) (capacity p) (refilling p)
          (next_waiter_id p) (getters p) (dropped_rx p) (S (requests p)) (retired p))
          tid (GWait a id))
      else Some (set_getter p tid (GCancel id "Failed to send ReqWorkConn: channel closed"))
  | Some (GWait a id), EReceive _ =>
      e ← list_find (fun s => s.1 = id) (slots p);
      Some (set_getter (Pool (idle p) (waiters p) (delete e.1 (slots p)) (capacity p) (refilling p)
        (next_waiter_id p) (getters p) (dropped_rx p) (requests p) (retired p))
        tid (GCheck a e.2.2))
  | Some (GWait a id), ETimeout _ =>
      (* the receiver is dropped with the timed-out future *)
      Some (set_getter (Pool (idle p) (waiters p) (slots p) (capacity p) (refilling p)
        (next_waiter_id p) (getters p) (id :: dropped_rx p) (requests p) (retired p))
        tid (GCancel id ("Timeout waiting for work conn for " +:+ name)))
  | Some (GCancel id err), ECancel _ =>
      (* the caller returns: its receiver and anything delivered to it are dropped *)
      Some (set_getter (Pool (idle p) (filter (fun w => w <> id) (waiters p))
        (filter (fun s => s.1 <> id) (slots p)) (capacity p) (refilling p) (next_waiter_id p)
        (getters p) (id :: dropped_rx p) (requests p)
        (retired p ++ ((fun s => wc_conn s.2) <$> filter (fun s => s.1 = id) (slots p))))
        tid (GDone (Err err)))
  | Some (GCheck a e), ECheck _ now pr write_err =>
      if negb (is_fresh_at e now) then
        Some (set_getter (retire p (wc_conn e)) tid (next_try p name a))
      else if negb (pooled_work_conn_is_reusable pr) then
        Some (set_getter (retire p (wc_conn e)) tid (next_try p name a))
      else
        match write_err with
        | Some w => Some (set_getter (retire p (wc_conn e)) tid
                      (next_try p name (Attempt (retry a) ("Failed to send StartWorkConn: " +:+ w))))
        | None =>
            match wrap_conn name e with
            | Err err => Some (set_getter (retire p (wc_conn e)) tid (GDone (Err err)))
            | Ok conn => Some (schedule_refill (set_getter p tid (GDone (Ok conn))))
            end
        end
  | _, _ => None
  end.

Definition set_refill (p : pool) (r : refill) (reqs : nat) : pool :=
  Pool (idle p) (waiters p) (slots p) (capacity p) r (next_waiter_id p) (getters p)
    (dropped_rx p) reqs (retired p).

(** The refill task: the look at the pool together with the request it decides on
    and, when it stops, the flag that lets another task start.  A call of
    [schedule_refill] that finds the flag still set does nothing, as one that comes
    just before the look. *)
Definition refill_step (p : pool) (o : event) : option pool :=
  match refilling p, o with
  | RLook, ERefillLook sent =>
      if bool_decide (waiters p = []) && bool_decide (length (idle p) < capacity p)%nat then
        Some (if sent then set_refill p (RWait false) (S (requests p))
              else set_refill p RIdle (requests p))
      else Some (set_refill p RIdle (requests p))
  | RWait notified, ERefillWake timed_out =>
      if timed_out then Some (set_refill p RIdle (requests p))
      else if notified then Some (set_refill p RLook (requests p)) else None
  | _, _ => None
  end.

Definition step (name : string) (p : pool) (o : event) : option pool :=
  match o with
  | ERegister now conn comp enc key => Some (register_work_conn p now conn comp enc key)
  | EStart => Some (Pool (idle p) (waiters p) (slots p) (capacity p) (refilling p)
      (next_waiter_id p) (getters p ++ [GTry (Attempt 0 EmptyString)]) (dropped_rx p) (requests p) (retired p))
  | EPop tid | EEnqueue tid | ESend tid _ | EReceive tid | ETimeout tid | ECancel tid
  | ECheck tid _ _ _ => get_step name p tid o
  | ERefillLook _ | ERefillWake _ => refill_step p o
  end.

Fixpoint run (name : string) (p : pool) (es : list event) : option pool :=
  match es with
  | [] => Some p
  | o :: es => p ← step name p o; run name p es
  end.

Inductive WorkConnClass := ClassTls | ClassPlain | ClassReject.

Definition classify_work_conn (first_byte : Z) (tls_available tls_only : bool) : WorkConnClass :=
  match bool_decide (first_byte = 22), tls_available, tls_only with
  | true, true, _ => ClassTls
  | true, false, _ => ClassReject
  | false, _, true => ClassReject
  | false, _, false => ClassPlain
  end.

(** ** Where every connection is *)
Definition getter_conns (g : getter) : list any_conn :=
  match g with
  | GCheck _ e => [wc_conn e]
  | GDone (Ok c) => [c]
  | _ => []
  end.

Definition all_conns (p : pool) : list any_conn :=
  (wc_conn <$> idle p) ++ ((fun s => wc_conn s.2) <$> slots p)
  ++ (getters p ≫= getter_conns) ++ retired p.

Definition ids (l : list any_conn) : list nat := base_id <$> l.

Definition arriving (o : event) : list any_conn :=
  match o with ERegister _ c _ _ _ => [c] | _ => [] end.

(** One stale connection after the other: the events of a lone caller. *)
Fixpoint stale_rounds (tid : nat) (now : Z) (k : nat) : list event :=
  match k with
  | O => []
  | S k => EPop tid :: ECheck tid now ProbeTimeout None :: stale_rounds tid now k
  end.

(** ** Lemmas *)
Lemma bind_insert_perm {A B} (f : A -> list B) l i x y :
  l !! i = Some y -> (<[i:=x]> l ≫= f) ++ f y ≡ₚ f x ++ (l ≫= f).
Proof.
  intros Hi. pose proof (lookup_lt_Some _ _ _ Hi) as Hlt.
  rewrite insert_take_drop by done. rewrite <- (take_drop_middle l i y Hi) at 3.
  rewrite !bind_app. simpl. solve_Permutation.
Qed.

Lemma list_delete_perm {A} (l : list A) i x : l !! i = Some x -> l ≡ₚ x :: delete i l.
Proof. apply delete_Permutation. Qed.

Lemma filter_split_perm {A} (P : A -> Prop) `{!forall x, Decision (P x)} (l : list A) :
  l ≡ₚ filter P l ++ filter (fun x => ~ P x) l.
Proof.
  induction l as [|x l IH]; [done|]. rewrite !filter_cons.
  destruct (decide (P x)); [rewrite decide_False by tauto|rewrite decide_True by done];
    rewrite IH at 1; solve_Permutation.
Qed.

Lemma wrap_conn_base name e c : wrap_conn name e = Ok c -> base_id c = base_id (wc_conn e).
Proof.
  unfold wrap_conn. destruct (use_compression e), (use_encryption e);
    repeat case_match; intros E; by simplify_eq.
Qed.

Lemma set_getter_perm p tid g0 g :
  getters p !! tid = Some g0 ->
  all_conns (set_getter p tid g) ++ getter_conns g0 ≡ₚ getter_conns g ++ all_conns p.
Proof.
  intros Hg. pose proof (bind_insert_perm getter_conns _ _ g _ Hg) as Hp.
  unfold all_conns, set_getter. simpl. rewrite <- !app_assoc.
  assert (forall a b c d e f : list any_conn, c ++ e ≡ₚ f ++ d ->
    a ++ b ++ c ++ retired p ++ e ≡ₚ f ++ a ++ b ++ d ++ retired p) as Hshuffle.
  { intros a b c d e f E. transitivity (a ++ b ++ (c ++ e) ++ retired p); [solve_Permutation|].
    rewrite E. solve_Permutation. }
  by apply Hshuffle.
Qed.

(** A getter that holds nothing before and after leaves every connection in place. *)
Lemma set_getter_none p tid g0 g :
  getters p !! tid = Some g0 -> getter_conns g0 = [] -> getter_conns g = [] ->
  all_conns (set_getter p tid g) ≡ₚ all_conns p.
Proof.
  intros Hg H0 H1. pose proof (set_getter_perm p tid g0 g Hg) as Hp.
  by rewrite H0, H1, app_nil_r in Hp.
Qed.

Lemma retire_perm p c : all_conns (retire p c) ≡ₚ c :: all_conns p.
Proof. unfold all_conns, retire. simpl. solve_Permutation. Qed.

Lemma schedule_refill_conns p : all_conns (schedule_refill p) = all_conns p.
Proof. unfold schedule_refill. by destruct (refilling p). Qed.

Lemma next_try_conns p name a : getter_conns (next_try p name a) = [].
Proof. unfold next_try. by case_decide. Qed.

Lemma get_step_conserves name p tid o p' : get_step name p tid o = Some p' ->
  ids (all_conns p') ≡ₚ ids (all_conns p).
Proof.
  unfold get_step. destruct (getters p !! tid) as [g0|] eqn:Hg; [|done].
  destruct g0 as [a|a|a id|a id|id err|a e|r]; destruct o; try done; intros E.
  - destruct (idle p) as [|e rest] eqn:Hi; simplify_eq; apply fmap_Permutation.
    + by eapply set_getter_none.
    + match goal with |- all_conns (set_getter ?p1 _ _) ≡ₚ _ =>
        pose proof (set_getter_perm p1 tid _ (GCheck a e) Hg) as Hp end.
      rewrite app_nil_r in Hp. rewrite Hp. unfold all_conns. simpl. by rewrite Hi.
  - simplify_eq. apply fmap_Permutation.
    match goal with |- all_conns (set_getter ?p1 _ _) ≡ₚ _ =>
      by apply (set_getter_none p1 tid _ _ Hg) end.
  - destruct sent; simplify_eq; apply fmap_Permutation;
      match goal with |- all_conns (set_getter ?p1 _ _) ≡ₚ _ =>
        by apply (set_getter_none p1 tid _ _ Hg) end.
  - destruct (list_find _ _) as [[i s]|] eqn:Hf; simpl in E; simplify_eq. apply fmap_Permutation.
    apply list_find_Some in Hf as (Hs & _ & _).
    match goal with |- all_conns (set_getter ?p1 _ _) ≡ₚ _ =>
      pose proof (set_getter_perm p1 tid _ (GCheck a s.2) Hg) as Hp end.
    rewrite app_nil_r in Hp. simpl in *. rewrite Hp. unfold all_conns. simpl.
    rewrite (list_delete_perm (slots p) i s Hs) at 2. simpl. solve_Permutation.
  - simplify_eq. apply fmap_Permutation.
    match goal with |- all_conns (set_getter ?p1 _ _) ≡ₚ _ =>
      by apply (set_getter_none p1 tid _ _ Hg) end.
  - simplify_eq. apply fmap_Permutation.
    match goal with |- all_conns (set_getter ?p1 _ _) ≡ₚ _ =>
      transitivity (all_conns p1); [by apply (set_getter_none p1 tid _ _ Hg)|] end.
    unfold all_conns. simpl.
    rewrite (filter_split_perm (fun s => s.1 = id) (slots p)) at 3.
    rewrite fmap_app. solve_Permutation.
  - assert (forall a', ids (all_conns (set_getter (retire p (wc_conn e)) tid (next_try p name a')))
      ≡ₚ ids (all_conns p)) as Hretire.
    { intros a'. apply fmap_Permutation. apply (Permutation_cons_inv (a := wc_conn e)).
      rewrite <- (retire_perm p). rewrite Permutation_cons_append.
      etransitivity; [exact (set_getter_perm (retire p (wc_conn e)) tid _ _ Hg)|].
      by rewrite next_try_conns. }
    destruct (negb (is_fresh_at e now)); [by simplify_eq|].
    destruct (negb (pooled_work_conn_is_reusable pr)); [by simplify_eq|].
    destruct write_err; [by simplify_eq|].
    destruct (wrap_conn name e) as [c|err] eqn:Hw; simplify_eq.
    + rewrite schedule_refill_conns.
      pose proof (set_getter_perm p tid _ (GDone (Ok c)) Hg) as Hp. simpl in Hp.
      apply (fmap_Permutation base_id) in Hp. rewrite fmap_app in Hp. simpl in Hp.
      rewrite (wrap_conn_base _ _ _ Hw) in Hp.
      apply (Permutation_cons_inv (a := base_id (wc_conn e))).
      rewrite Permutation_cons_append. exact Hp.
    + apply fmap_Permutation. apply (Permutation_cons_inv (a := wc_conn e)).
      rewrite <- (retire_perm p), Permutation_cons_append.
      etransitivity; [exact (set_getter_perm (retire p (wc_conn e)) tid _ (GDone (Err err)) Hg)|]. done.
Qed.

Lemma register_conserves p now c comp enc key :
  all_conns (register_work_conn p now c comp enc key) ≡ₚ c :: all_conns p.
Proof.
  unfold register_work_conn.
  destruct (pop_waiter (dropped_rx p) (waiters p)) as [[id|] ws]; [|case_decide];
    unfold all_conns; simpl; rewrite ?fmap_app; simpl; solve_Permutation.
Qed.

Lemma refill_conserves p o p' : refill_step p o = Some p' -> all_conns p' = all_conns p.
Proof.
  unfold refill_step. intros E. repeat case_match; by simplify_eq.
Qed.

Lemma step_conserves name p o p' : step name p o = Some p' ->
  ids (all_conns p') ≡ₚ ids (arriving o) ++ ids (all_conns p).
Proof.
  destruct o; simpl; intros E;
    try (by apply get_step_conserves in E); try (by apply refill_conserves in E as ->).
  - simplify_eq. unfold ids. by rewrite register_conserves.
  - simplify_eq. unfold all_conns. simpl. by rewrite bind_app, app_nil_r.
Qed.

Lemma run_conserves name p es p' : run name p es = Some p' ->
  ids (all_conns p') ≡ₚ ids (es ≫= arriving) ++ ids (all_conns p).
Proof.
  revert p; induction es as [|o es IH]; intros p E; simpl in E; [by simplify_eq|].
  destruct (step name p o) as [p1|] eqn:E1; [|done]. simpl in E.
  rewrite (IH _ E), (step_conserves _ _ _ _ E1). simpl. unfold ids.
  rewrite fmap_app. solve_Permutation.
Qed.

Lemma get_step_idle name p tid o p' : get_step name p tid o = Some p' ->
  (length (idle p') <= length (idle p))%nat /\ capacity p' = capacity p.
Proof.
  unfold get_step. destruct (getters p !! tid) as [[]|]; [..|done]; destruct o; try done;
    intros E; repeat case_match; simplify_eq; simpl; try (split; [lia|done]).
  - rewrite H. simpl. lia.
  - destruct (list_find _ _); by simplify_eq/=.
  - unfold schedule_refill. simpl. by destruct (refilling p).
Qed.

Lemma refill_step_idle p o p' : refill_step p o = Some p' ->
  idle p' = idle p /\ capacity p' = capacity p.
Proof.
  unfold refill_step. destruct (refilling p), o; try done; intros E;
    repeat match type of E with context [if ?b then _ else _] => destruct b end; by simplify_eq.
Qed.

Lemma step_idle name p o p' : step name p o = Some p' ->
  (length (idle p) <= S (capacity p))%nat ->
  (length (idle p') <= S (capacity p'))%nat /\ capacity p' = capacity p.
Proof.
  intros E Hl. destruct o; simpl in E;
    try (apply get_step_idle in E as [? ->]; split; [lia|done]);
    try (apply refill_step_idle in E as [-> ->]; done).
  - simplify_eq. unfold register_work_conn.
    destruct (pop_waiter _ _) as [[id|] ws]; [|case_decide as Hc]; simpl; try done.
    rewrite length_app. simpl. split; [|done]. destruct Hc as [|[_ ?]]; lia.
  - by simplify_eq.
Qed.

Lemma run_idle name p es p' : run name p es = Some p' ->
  (length (idle p) <= S (capacity p))%nat ->
  (length (idle p') <= S (capacity p'))%nat /\ capacity p' = capacity p.
Proof.
  revert p; induction es as [|o es IH]; intros p E Hl; simpl in E; [by simplify_eq|].
  destruct (step name p o) as [p1|] eqn:E1; [|done]. simpl in E.
  destruct (step_idle _ _ _ _ E1 Hl) as [Hl1 Hc1].
  destruct (IH _ E Hl1) as [? Hc2]. by rewrite Hc2, Hc1 in *.
Qed.

(** ** Theorems *)

(** C36: A work connection is a linear resource.  In any interleaving of
    arrivals, callers, time-outs and the refill task, every connection that
    arrived is in exactly one place: idle, delivered to one waiter, held by one
    caller, returned to one caller, or retired (shut down or dropped); so no
    two callers are ever given the same connection, and the idle queue never
    holds more than the capacity plus one. *)
Theorem work_conns_linear name cap es p :
  run name (empty_pool cap) es = Some p -> NoDup (ids (es ≫= arriving)) ->
  ids (all_conns p) ≡ₚ ids (es ≫= arriving) /\ NoDup (ids (all_conns p)) /\
  (length (idle p) <= S cap)%nat /\
  forall i j c d, i <> j -> getters p !! i = Some (GDone (Ok c)) ->
    getters p !! j = Some (GDone (Ok d)) -> base_id c <> base_id d.
Proof.
  intros E Hnd. pose proof (run_conserves _ _ _ _ E) as Hp. rewrite app_nil_r in Hp.
  assert (NoDup (ids (all_conns p))) as Hall by (by rewrite Hp).
  destruct (run_idle _ _ _ _ E ltac:(simpl; lia)) as [Hl Hc]. rewrite Hc in Hl.
  split_and!; [done|done|done|]. intros i j c d Hne Hi Hj Heq.
  assert (NoDup (ids (getters p ≫= getter_conns))) as Hg.
  { unfold all_conns, ids in Hall. rewrite !fmap_app in Hall.
    apply NoDup_app in Hall as (_ & _ & Hall). apply NoDup_app in Hall as (_ & _ & Hall).
    by apply NoDup_app in Hall as (Hall & _). }
  clear -Hg Hne Hi Hj Heq. unfold ids in Hg.
  pose proof (bind_insert_perm getter_conns (getters p) i (GDone (Err EmptyString)) _ Hi) as H1.
  simpl in H1. rewrite <- H1 in Hg. rewrite fmap_app in Hg.
  apply NoDup_app in Hg as (_ & Hdis & _).
  apply (Hdis (base_id d)); [|rewrite <- Heq; by apply list_elem_of_singleton].
  apply list_elem_of_fmap. exists d. split; [done|]. apply list_elem_of_bind.
  exists (GDone (Ok d)). split; [by apply list_elem_of_singleton|].
  apply list_elem_of_lookup. exists j. by rewrite list_lookup_insert_ne.
Qed.

(** What a caller is given.  The check that ends a retry returns a
    connection only if it has been pooled for less than 30 seconds, the probe
    found it silent and StartWorkConn was written; the result is that
    connection with compression inside and encryption outside, exactly as the
    entry requests, and an entry that requests encryption without a key is
    refused and closed rather than passed in the clear. *)
Theorem work_conn_handed_over name p tid now pr werr p' :
  get_step name p tid (ECheck tid now pr werr) = Some p' ->
  exists a e, getters p !! tid = Some (GCheck a e) /\
  (forall c, getters p' !! tid = Some (GDone (Ok c)) ->
     duration_since now (pooled_at e) < secs 30 /\ pr = ProbeTimeout /\ werr = None /\
     match use_compression e, use_encryption e, encryption_key e with
     | false, false, _ => c = wc_conn e
     | true, false, _ => c = CompressedConn (wc_conn e)
     | false, true, Some k => c = EncryptedConn (wc_conn e) k
     | true, true, Some k => c = EncryptedConn (CompressedConn (wc_conn e)) k
     | _, true, None => False
     end) /\
  (use_encryption e = true -> encryption_key e = None ->
     wc_conn e ∈ retired p' /\ forall c, getters p' !! tid <> Some (GDone (Ok c))).
Proof.
  unfold get_step. destruct (getters p !! tid) as [[]|] eqn:Hg; [done..| |done|done].
  intros E. exists a, e. split; [done|].
  assert (tid < length (getters p))%nat as Hlt by (by eapply lookup_lt_Some).
  assert (forall q g, getters q = getters p -> getters (set_getter q tid g) !! tid = Some g) as Hset.
  { intros q g Hq. simpl. rewrite Hq. by apply list_lookup_insert_eq. }
  assert (forall q g, getters q = getters p ->
    getters (schedule_refill (set_getter q tid g)) !! tid = Some g) as Hset2.
  { intros q g Hq. unfold schedule_refill. destruct (refilling _); by apply Hset. }
  assert (forall g q, q = set_getter (retire p (wc_conn e)) tid g ->
    getters q !! tid = Some g /\ wc_conn e ∈ retired q) as Hret.
  { intros g q ->. split; [by apply Hset|]. simpl. apply elem_of_app; right.
    by apply list_elem_of_singleton. }
  assert (forall a c, Some (next_try p name a) <> Some (GDone (Ok c))) as Hnt
    by (intros a0 c; unfold next_try; by case_decide).
  destruct (is_fresh_at e now) eqn:Hf; simpl in E.
  2:{ injection E as E. destruct (Hret _ _ (eq_sym E)) as [Hq1 Hq2]. rewrite Hq1.
      split; [intros c Hc; by destruct (Hnt _ _ Hc)|]. intros _ _. split; [done|]. intros c. apply Hnt. }
  destruct (pooled_work_conn_is_reusable pr) eqn:Hp; simpl in E.
  2:{ injection E as E. destruct (Hret _ _ (eq_sym E)) as [Hq1 Hq2]. rewrite Hq1.
      split; [intros c Hc; by destruct (Hnt _ _ Hc)|]. intros _ _. split; [done|]. intros c. apply Hnt. }
  destruct werr as [w|].
  { injection E as E. destruct (Hret _ _ (eq_sym E)) as [Hq1 Hq2]. rewrite Hq1.
    split; [intros c Hc; by destruct (Hnt _ _ Hc)|]. intros _ _. split; [done|]. intros c. apply Hnt. }
  apply bool_decide_eq_true in Hf.
  assert (pr = ProbeTimeout) as -> by (by destruct pr as [|[]|]).
  unfold wrap_conn in E.
  destruct (use_encryption e) eqn:He; [destruct (encryption_key e) as [k|] eqn:Hk|].
  - split; [|done]. intros c Hc. split_and!; try done. case_decide; simplify_eq.
    + rewrite Hset2 in Hc by done. by destruct (use_compression e); simplify_eq.
    + rewrite Hset in Hc by done. done.
  - injection E as E. destruct (Hret _ _ (eq_sym E)) as [Hq1 Hq2]. rewrite Hq1. by split.
  - split; [|done]. intros c Hc. split_and!; try done. simplify_eq.
    rewrite Hset2 in Hc by done. by destruct (use_compression e); simplify_eq.
Qed.

(** One round on a stale connection: it is retired and the caller tries again,
    or gives up after the last retry. *)
Lemma stale_round name p tid now a e rest :
  getters p !! tid = Some (GTry a) -> idle p = e :: rest -> is_fresh_at e now = false ->
  exists p', run name p [EPop tid; ECheck tid now ProbeTimeout None] = Some p' /\
    idle p' = rest /\ getters p' !! tid = Some (next_try p name a) /\
    capacity p' = capacity p /\ requests p' = requests p.
Proof.
  intros Hg Hi Hf. pose proof (lookup_lt_Some _ _ _ Hg) as Hlt.
  set (p1 := set_getter (Pool rest (waiters p) (slots p) (capacity p) (refilling p)
    (next_waiter_id p) (getters p) (dropped_rx p) (requests p) (retired p)) tid (GCheck a e)).
  assert (get_step name p tid (EPop tid) = Some p1) as E1
    by (unfold get_step; by rewrite Hg, Hi).
  assert (getters p1 !! tid = Some (GCheck a e)) as Hg1 by (by apply list_lookup_insert_eq).
  assert (get_step name p1 tid (ECheck tid now ProbeTimeout None)
    = Some (set_getter (retire p1 (wc_conn e)) tid (next_try p1 name a))) as E2
    by (unfold get_step; by rewrite Hg1, Hf).
  eexists. cbn [run step]. rewrite E1. cbn [mbind option_bind]. rewrite E2. cbn [mbind option_bind].
  split; [reflexivity|]. split_and!; try done. simpl.
  rewrite list_lookup_insert_eq by (by rewrite length_insert). done.
Qed.

Lemma run_app name p es1 es2 :
  run name p (es1 ++ es2) = (p' ← run name p es1; run name p' es2).
Proof.
  revert p; induction es1 as [|o es1 IH]; intros p; [done|]. simpl.
  destruct (step name p o); simpl; [apply IH|done].
Qed.

(** A caller meeting only stale connections: it works through them. *)
Lemma stale_rounds_run name p tid now a es rest :
  getters p !! tid = Some (GTry a) -> idle p = es ++ rest ->
  Forall (fun e => is_fresh_at e now = false) es -> es <> [] ->
  (retry a + length es <= max_retries p)%nat ->
  exists p', run name p (stale_rounds tid now (length es)) = Some p' /\ idle p' = rest /\
    requests p' = requests p /\ capacity p' = capacity p /\
    getters p' !! tid = Some (next_try p name (Attempt (retry a + length es - 1) (last_err a))).
Proof.
  revert p a; induction es as [|e es IH]; intros p a Hg Hi Hf Hne Hr; [done|].
  apply Forall_cons_1 in Hf as [He Hf]. simpl in Hi, Hr.
  destruct (stale_round name p tid now a e (es ++ rest) Hg Hi He)
    as (p1 & Hrun & Hi1 & Hg1 & Hc1 & Hq1).
  change (stale_rounds tid now (length (e :: es)))
    with ([EPop tid; ECheck tid now ProbeTimeout None] ++ stale_rounds tid now (length es)).
  rewrite run_app, Hrun. simpl.
  destruct es as [|e2 es].
  { exists p1. simpl. split_and!; try done. rewrite Hg1. f_equal.
    destruct a as [r l]. simpl. f_equal. f_equal. lia. }
  unfold next_try in Hg1. simpl length in Hr. rewrite decide_True in Hg1 by lia.
  destruct (IH p1 _ Hg1 Hi1 Hf) as (p' & Hrun' & Hi' & Hq' & Hc' & Hg'); [done| |].
  { unfold max_retries in *. rewrite Hc1. simpl in *. lia. }
  exists p'. split_and!; [done|done|congruence|congruence|]. rewrite Hg'.
  unfold next_try, max_retries. rewrite Hc1. simpl.
  by replace (S (retry a + S (length es)) - 1)%nat with (retry a + S (S (length es)) - 1)%nat by lia.
Qed.

(** Stale connections and retries.  A caller that finds only expired idle
    connections, at most [max capacity 1] of them, discards them all and still
    has a retry left, so it reaches the point where a new connection is
    requested; but when [max capacity 1 + 1] of them are idle, every retry is
    spent and the call fails without requesting a connection. *)
Theorem stale_pool_retries name p tid now es rest :
  getters p !! tid = Some (GTry (Attempt 0 EmptyString)) -> idle p = es ++ rest ->
  Forall (fun e => is_fresh_at e now = false) es ->
  ((length es <= Nat.max (capacity p) 1)%nat -> rest = [] ->
     exists p' a, run name p (stale_rounds tid now (length es) ++ [EPop tid]) = Some p' /\
       getters p' !! tid = Some (GNoIdle a) /\ (retry a < max_retries p)%nat) /\
  (length es = Nat.max (capacity p) 1 + 1 ->
     exists p' err, run name p (stale_rounds tid now (length es)) = Some p' /\
       getters p' !! tid = Some (GDone (Err err)) /\ requests p' = requests p)%nat.
Proof.
  intros Hg Hi Hf. split.
  - intros Hl ->. rewrite app_nil_r in Hi.
    assert (exists p1, run name p (stale_rounds tid now (length es)) = Some p1 /\ idle p1 = [] /\
      capacity p1 = capacity p /\
      getters p1 !! tid = Some (GTry (Attempt (length es) EmptyString)))
      as (p1 & Hr1 & Hi1 & Hc1 & Hg1).
    { destruct es as [|e es]; [by exists p|].
      destruct (stale_rounds_run name p tid now _ (e :: es) [] Hg) as (p1 & Hr & Hi1 & _ & Hc1 & Hg1);
        [by rewrite app_nil_r|done|done|unfold max_retries; cbn [retry]; lia|].
      exists p1. split_and!; [done|done|done|]. rewrite Hg1.
      unfold next_try, max_retries. cbn [retry last_err length] in *.
      rewrite decide_True by lia. do 3 f_equal. lia. }
    rewrite run_app, Hr1. simpl. unfold get_step. rewrite Hg1, Hi1. simpl.
    eexists _, (Attempt (length es) EmptyString).
    split_and!; [reflexivity|simpl|unfold max_retries; cbn [retry]; lia].
    apply list_lookup_insert_eq. by eapply lookup_lt_Some.
  - intros Hl.
    destruct (stale_rounds_run name p tid now _ es rest Hg Hi Hf)
      as (p1 & Hr & _ & Hq & _ & Hg1); 
        [intros ->; cbn [length] in Hl; lia|unfold max_retries; cbn [retry]; lia|].
    eexists p1, _. split_and!; [done| |done]. rewrite Hg1.
    unfold next_try, max_retries. cbn [retry last_err]. by rewrite decide_False by lia.
Qed.

(** ** A run of the pool: capacity one, one caller served, a refill and a late
    arrival; the two idle connections are then left to expire. *)
Definition demo_events : list event :=
  [EStart; EPop 0; EEnqueue 0; ESend 0 true; ERegister 0 (Raw 0) true false None; EReceive 0;
   ECheck 0 1 ProbeTimeout None; ERefillLook true; ERegister 2 (Raw 1) true false None;
   ERegister 3 (Raw 2) true false None; EStart].

Definition demo_pool : pool := default (empty_pool 1) (run "ssh" (empty_pool 1) demo_events).

(** The exhausted state is reachable: while the refill task still waits for
    its notice, a connection arriving at a full pool is queued as one more
    than the capacity; once both are older than 30 seconds the next caller
    fails with all retries exhausted and no connection requested. *)
Theorem stale_pool_exhaustion_reachable :
  run "ssh" (empty_pool 1) demo_events = Some demo_pool /\
  length (idle demo_pool) = 2%nat /\ requests demo_pool = 2%nat /\
  exists p', run "ssh" demo_pool (stale_rounds 1 (secs 31) 2) = Some p' /\
    getters p' !! 1%nat = Some (GDone (Err "All 2 retries exhausted for ssh: "%string)) /\
    requests p' = 2%nat.
Proof.
  split_and!; [vm_compute; reflexivity..|].
  eexists. split; [vm_compute; reflexivity|]. split; vm_compute; reflexivity.
Qed.

Lemma work_conns_linear_witness : NoDup (ids (all_conns demo_pool)).
Proof.
  refine (proj1 (proj2 (work_conns_linear "ssh" 1 demo_events demo_pool _ _))).
  - vm_compute. reflexivity.
  - change (NoDup [0; 1; 2]%nat). apply NoDup_ListNoDup.
    repeat constructor; simpl; intuition discriminate.
Defined.

Lemma work_conn_handed_over_witness : exists a e,
  getters (default (empty_pool 1) (run "ssh" (empty_pool 1) (take 6 demo_events))) !! 0%nat
  = Some (GCheck a e).
Proof.
  destruct (work_conn_handed_over "ssh"
    (default (empty_pool 1) (run "ssh" (empty_pool 1) (take 6 demo_events))) 0 1 ProbeTimeout None
    (default (empty_pool 1) (run "ssh" (empty_pool 1) (take 7 demo_events)))) as (a & e & H & _).
  - vm_compute. reflexivity.
  - exists a, e. exact H.
Defined.

Definition demo_idle : list PooledWorkConn :=
  (fun c => {| wc_conn := Raw c.1; use_compression := true; use_encryption := false;
               encryption_key := None; pooled_at := c.2 |}) <$> [(1%nat, 2); (2%nat, 3)].

Lemma stale_pool_retries_witness : exists p' err,
  run "ssh" demo_pool (stale_rounds 1 (secs 31) 2) = Some p' /\
  getters p' !! 1%nat = Some (GDone (Err err)) /\ requests p' = requests demo_pool.
Proof.
  refine (proj2 (stale_pool_retries "ssh" demo_pool 1 (secs 31) demo_idle [] _ _ _) _).
  - vm_compute. reflexivity.
  - vm_compute. reflexivity.
  - constructor; [vm_compute; reflexivity|].
    constructor; [vm_compute; reflexivity|constructor].
  - vm_compute. reflexivity.
Defined.
