(* ===== verification/CoreMsg.v ===== *)
(** * Control messages (src/rust_frp_core/src/lib.rs)

    The messages of the protocol, their framing on a connection (a 32-bit
    big-endian length and the JSON text), the same messages inside wire v2
    frames, and the control connection that dispatches on the negotiated wire.
    [serde_json] on [Message] is the interface [Json]. *)
From S2P Require Import Prelude RustStd ConfigTypes Transport EncStream IoConn WireV2.

Record ClientSpec := { cs_type : string; always_auth_pass : bool }.

Record LoginMsg := {
  lm_arch : string; lm_os : string; lm_hostname : string; lm_pool_count : Z; lm_user : string;
  lm_client_id : string; lm_version : string; lm_timestamp : Z; lm_run_id : string;
  lm_token : string; lm_metas : gmap string string; lm_client_spec : option ClientSpec;
}.

Record LoginRespMsg := {
  lr_version : string; lr_run_id : string; lr_error : string; lr_work_conn_tls : bool;
  lr_work_conn_port : Z;
}.

Record RegisterProxyMsg := { rp_proxy : ProxyConfig }.
Record RegisterProxyRespMsg := { rr_name : string; rr_error : string }.

Record ReqWorkConnMsg := {
  rw_proxy_name : string; rw_bridge_id : string; rw_work_conn_sign_key : string;
}.

Record NewWorkConnMsg := {
  nw_run_id : string; nw_proxy_name : string; nw_timestamp : Z; nw_sign_key : string;
  nw_bridge_id : string; nw_bridge_sign_key : string; nw_use_encryption : bool;
  nw_use_compression : bool;
}.

Record StartWorkConnMsg := {
  sw_error : string; sw_src_addr : string; sw_src_port : Z; sw_dst_addr : string; sw_dst_port : Z;
}.

Record NewVisitorConnMsg := {
  nv_run_id : string; nv_proxy_name : string; nv_timestamp : Z; nv_sign_key : string;
  nv_use_encryption : bool; nv_use_compression : bool;
}.

Record NewVisitorConnRespMsg := { vr_proxy_name : string; vr_error : string }.
Record PingMsg := { ping_timestamp : Z; privilege_key : string }.
Record PongMsg := { pong_timestamp : Z; pong_error : string }.
Record DisconnectMsg := { reason : string }.

Record UdpPacketMsg := {
  up_proxy_name : string; up_data : list byte; up_client_addr : option string;
}.

Record StcpVisitorMsg := {
  sv_proxy_name : string; sv_run_id : string; sv_bridge_id : string; sv_timestamp : Z;
  sv_sign_key : string;
}.

Record StcpVisitorRespMsg := {
  sr_proxy_name : string; sr_bridge_id : string; sr_error : string; sr_visitor_run_id : string;
  sr_work_conn_sign_key : string;
}.

Record StcpStartWorkConnMsg := {
  ss_proxy_name : string; ss_role : string; ss_peer_run_id : string; ss_timestamp : Z;
  ss_sign_key : string;
}.

Record XtcpNatInfoMsg := {
  xn_proxy_name : string; xn_run_id : string; xn_nat_type : string; xn_local_addr : string;
  xn_public_addr : string; xn_sign_key : string; xn_timestamp : Z;
}.

Record XtcpHolePunchMsg := {
  xh_proxy_name : string; xh_from_run_id : string; xh_to_run_id : string;
  xh_peer_local_addr : string; xh_peer_public_addr : string;
}.

Record ProxyStatusMsg := { st_name : string }.
Record ProxyStatusRespMsg := { sp_name : string; sp_status : string; sp_error : string }.

Inductive Message :=
| Login (m : LoginMsg)
| LoginResp (m : LoginRespMsg)
| RegisterProxy (m : RegisterProxyMsg)
| RegisterProxyResp (m : RegisterProxyRespMsg)
| ReqWorkConn (m : ReqWorkConnMsg)
| NewWorkConn (m : NewWorkConnMsg)
| StartWorkConn (m : StartWorkConnMsg)
| NewVisitorConn (m : NewVisitorConnMsg)
| NewVisitorConnResp (m : NewVisitorConnRespMsg)
| Ping (m : PingMsg)
| Pong (m : PongMsg)
| ProxyStatus (m : ProxyStatusMsg)
| ProxyStatusResp (m : ProxyStatusRespMsg)
| Disconnect (m : DisconnectMsg)
| UdpPacket (m : UdpPacketMsg)
| StcpVisitor (m : StcpVisitorMsg)
| StcpVisitorResp (m : StcpVisitorRespMsg)
| StcpStartWorkConn (m : StcpStartWorkConnMsg)
| XtcpNatInfo (m : XtcpNatInfoMsg)
| XtcpHolePunch (m : XtcpHolePunchMsg).

Definition MAX_MESSAGE_SIZE : Z := 10 * 1024 * 1024.
Definition MAX_PREAUTH_MESSAGE_SIZE : Z := 64 * 1024.

(** [Box<dyn Error>], by what was boxed. *)
Inductive msg_error :=
| MsgIo (e : io_error)
| MsgJson (msg : string)
| MsgWire (e : wire_error)
| MsgText (msg : string).

Definition too_large (len max_size : Z) : msg_error :=
  MsgIo (IoError InvalidData
    ("message size too large: " +:+ dec len +:+ " bytes (max: " +:+ dec max_size +:+ ")")).

Inductive WireProtocol := V1 | V2.
#[global] Instance wire_protocol_eq_dec : EqDecision WireProtocol.
Proof. solve_decision. Defined.

Definition wire_as_str (w : WireProtocol) : string := match w with V1 => "v1" | V2 => "v2" end.

Section messages.
Context `{!Json Message}.

Definition read_message_with_limit (max_size : Z) : io msg_error Message :=
  len_buf ← io_map_err MsgIo (read_n 4);
  let len := be_value len_buf in
  if decide (max_size < len) then fail (too_large len max_size) else
  msg_buf ← io_map_err MsgIo (read_n (Z.to_nat len));
  lift (map_err MsgJson (of_json msg_buf)).

Definition read_message : io msg_error Message := read_message_with_limit MAX_MESSAGE_SIZE.

Definition write_message (msg : Message) : io msg_error unit :=
  msg_buf ← lift (map_err MsgJson (to_json msg));
  _ ← io_map_err MsgIo (write_all (be_bytes 4 (wrap_u32 (zlen msg_buf))));
  io_map_err MsgIo (write_all msg_buf).

Definition read_v2_message (max_size : Z) : io msg_error Message :=
  frame ← io_map_err MsgWire read_frame;
  if decide (type_id frame <> FRAME_TYPE_MESSAGE) then
    fail (MsgIo (IoError InvalidData ("unexpected wire v2 frame type " +:+ dec (type_id frame))))
  else if decide (max_size < zlen (payload frame)) then fail (too_large (zlen (payload frame)) max_size)
  else lift (map_err MsgJson (of_json (payload frame))).

Definition write_v2_message (msg : Message) : io msg_error unit :=
  frame ← lift (map_err MsgWire (frame_json FRAME_TYPE_MESSAGE msg));
  io_map_err MsgWire (write_frame frame).

(** [ControlConn]: the wire is fixed when the connection is made. *)
Definition control_read_with_limit (w : WireProtocol) (max_size : Z) : io msg_error Message :=
  match w with
  | V1 => read_message_with_limit max_size
  | V2 => read_v2_message max_size
  end.

Definition control_read (w : WireProtocol) : io msg_error Message :=
  match w with
  | V1 => read_message
  | V2 => read_v2_message MAX_MESSAGE_SIZE
  end.

Definition control_write (w : WireProtocol) (msg : Message) : io msg_error unit :=
  match w with
  | V1 => write_message msg
  | V2 => write_v2_message msg
  end.

(** ** What is on the wire *)
Definition message_bytes (w : WireProtocol) (text : list byte) : list byte :=
  match w with
  | V1 => be_bytes 4 (zlen text) ++ text
  | V2 => frame_bytes (Frame FRAME_TYPE_MESSAGE 0 text)
  end.

(** The largest text a wire carries. *)
Definition wire_max (w : WireProtocol) : Z :=
  match w with V1 => u32_max | V2 => DEFAULT_MAX_FRAME_PAYLOAD_SIZE end.

Lemma message_frame_wf text : zlen text <= DEFAULT_MAX_FRAME_PAYLOAD_SIZE ->
  wf_frame (Frame FRAME_TYPE_MESSAGE 0 text).
Proof. done. Qed.

Lemma be4 (text : list byte) : zlen text <= u32_max -> be_value (be_bytes 4 (zlen text)) = zlen text.
Proof.
  intros H. rewrite be_value_be_bytes. apply Z.mod_small.
  unfold u32_max, zlen in *. change (256 ^ Z.of_nat 4) with 4294967296. lia.
Qed.

Lemma read_bytes w limit text rest t r :
  zlen text <= limit -> zlen text <= wire_max w ->
  control_read_with_limit w limit (Conn (message_bytes w text ++ rest) t r)
  = lift (map_err MsgJson (of_json text)) (Conn rest t r).
Proof.
  intros Hl Hw. destruct w; unfold control_read_with_limit.
  - unfold read_message_with_limit, message_bytes. rewrite <- app_assoc.
    erewrite io_bind_eq by (apply io_map_err_Ok, read_n_app; by rewrite length_be_bytes).
    cbv zeta. rewrite be4 by done. rewrite decide_False by lia.
    erewrite io_bind_eq by (apply io_map_err_Ok, read_n_app; unfold zlen; lia). done.
  - unfold read_v2_message, message_bytes.
    erewrite io_bind_eq by (apply io_map_err_Ok, read_frame_app; by apply message_frame_wf).
    cbn [type_id payload]. rewrite (decide_False (P := _ <> _)) by (intros H; by apply H).
    by rewrite decide_False by lia.
Qed.

(** What a successful write leaves on the connection. *)
Lemma control_write_Ok w msg c u c' : control_write w msg c = (Ok u, c') ->
  exists text, to_json msg = Ok text /\ rx c' = rx c /\
    (zlen text <= wire_max w -> tx c' = tx c ++ message_bytes w text).
Proof.
  intros Hw. destruct w; unfold control_write in Hw.
  - unfold write_message in Hw. apply io_bind_Ok in Hw as (text & c0 & H0 & Hw).
    unfold lift in H0. destruct (to_json msg) as [b|e] eqn:Ej; [|done]. simplify_eq/=.
    apply io_bind_Ok in Hw as (? & c1 & H1%io_map_err_Ok & H2%io_map_err_Ok).
    apply write_all_Ok in H1 as (R1 & T1 & _). apply write_all_Ok in H2 as (R2 & T2 & _).
    exists text. split_and!; [done|congruence|]. intros Hlen. rewrite T2, T1, <- app_assoc.
    unfold message_bytes. simpl in Hlen. rewrite wrap_u32_small; [done|].
    unfold u32_max, zlen in *. lia.
  - unfold write_v2_message in Hw. apply io_bind_Ok in Hw as (f & c0 & H0 & Hw%io_map_err_Ok).
    unfold lift, frame_json in H0. destruct (to_json msg) as [b|e] eqn:Ej; [|done]. simplify_eq/=.
    exists b. split; [done|]. unfold write_frame in Hw. simpl in Hw.
    case_decide; [done|]. apply io_bind_Ok in Hw as (? & c1 & H1%io_map_err_Ok & Hw).
    apply io_bind_Ok in Hw as (? & c2 & H2%io_map_err_Ok & Hw).
    apply write_all_Ok in H1 as (R1 & T1 & _). apply write_all_Ok in H2 as (R2 & T2 & _).
    injection Hw as _ <-. split; [congruence|]. intros _. rewrite T2, T1, <- app_assoc. done.
Qed.

(** C39: whichever wire was negotiated, what one side writes the other reads.
    A successful write appends exactly one framed message to the connection; a
    reader whose limit admits the text gets the same message and leaves
    whatever follows it, so messages can be sent back to back. *)
Theorem control_roundtrip `{!JsonLaws Message} w msg c u c' :
  control_write w msg c = (Ok u, c') ->
  exists text, to_json msg = Ok text /\ rx c' = rx c /\
    (zlen text <= wire_max w ->
     tx c' = tx c ++ message_bytes w text /\
     forall limit rest t r, zlen text <= limit ->
       control_read_with_limit w limit (Conn (message_bytes w text ++ rest) t r) = (Ok msg, Conn rest t r)).
Proof.
  intros Hw.
  destruct (control_write_Ok _ _ _ _ _ Hw) as (text & Et & Erx & Etx).
  exists text. split_and!; [done|done|]. intros Hlen. split; [by apply Etx|].
  intros limit rest t r Hl. rewrite read_bytes by done. unfold lift.
  by rewrite (json_roundtrip _ _ Et).
Qed.

(** an announced length above the limit is refused before a single byte of
    the body is read or buffered: the reader consumes the four bytes of the
    length and answers [InvalidData].  The limit is 64 KiB before the login and
    10 MiB after it. *)
Theorem oversized_refused limit len rest t r :
  0 <= len <= u32_max -> limit < len ->
  read_message_with_limit limit (Conn (be_bytes 4 len ++ rest) t r)
  = (Err (too_large len limit), Conn rest t r).
Proof.
  intros Hlen Hlim. unfold read_message_with_limit.
  erewrite io_bind_eq by (apply io_map_err_Ok, read_n_app; by rewrite length_be_bytes).
  cbv zeta. rewrite be_value_be_bytes, Z.mod_small.
  2:{ change (256 ^ Z.of_nat 4) with 4294967296. unfold u32_max in *. lia. }
  by rewrite decide_True.
Qed.

(** The body a reader buffers never exceeds its limit. *)
Lemma read_within_limit limit c m c' : 0 <= limit ->
  read_message_with_limit limit c = (Ok m, c') ->
  exists text, rx c = message_bytes V1 text ++ rx c' /\ zlen text <= limit /\ of_json text = Ok m.
Proof.
  intros Hlim H. unfold read_message_with_limit in H.
  apply io_bind_Ok in H as (b & c1 & H1%io_map_err_Ok%read_n_Ok & H).
  destruct H1 as (R1 & L1 & _ & _). case_decide as Hsz; [done|].
  apply io_bind_Ok in H as (text & c2 & H2%io_map_err_Ok%read_n_Ok & H).
  destruct H2 as (R2 & L2 & _ & _). unfold lift in H.
  destruct (of_json text) as [a|e] eqn:Ej; [|done]. injection H as -> ->.
  pose proof (be_value_range b) as Hr. exists text.
  assert (Hz : zlen text = be_value b) by (unfold zlen; lia).
  split_and!; [|lia|done].
  assert (E : message_bytes V1 text = b ++ text).
  { unfold message_bytes. by rewrite Hz, <- L1, be_bytes_be_value. }
  rewrite R1, R2, app_assoc. by rewrite <- E.
Qed.

(** on wire v2 the 10 MiB limit of the control connection is never what
    stops a message: a text above 64 KiB cannot be written (the frame layer
    refuses it before any byte), although wire v1 carries it and the reader's
    limit would admit it. *)
Theorem v2_refuses_large_messages msg text c :
  to_json msg = Ok text -> DEFAULT_MAX_FRAME_PAYLOAD_SIZE < zlen text <= MAX_MESSAGE_SIZE ->
  zlen text + 4 <= room c ->
  (exists e, control_write V2 msg c = (Err (MsgWire (WireV2.WireProtocol e)), c)) /\
  exists c', control_write V1 msg c = (Ok tt, c') /\ tx c' = tx c ++ message_bytes V1 text.
Proof.
  intros Ej [Hlo Hhi] Hroom. split.
  - unfold control_write, write_v2_message, lift, frame_json. rewrite Ej. simpl.
    unfold mbind, io_bind, io_map_err, write_frame. simpl. rewrite decide_True by done. simpl. eauto.
  - unfold control_write, write_message, lift. rewrite Ej. cbn [map_err].
    assert (Hz : zlen (be_bytes 4 (wrap_u32 (zlen text))) = 4) by (unfold zlen; by rewrite length_be_bytes).
    erewrite (io_bind_eq (fun c => (Ok text, c))) by done. cbv beta.
    rewrite (io_bind_eq _ _ c tt _
      (proj2 (io_map_err_Ok _ _ _ _ _) (write_all_fits (be_bytes 4 (wrap_u32 (zlen text))) c
         ltac:(rewrite Hz; unfold zlen in *; lia)))).
    eexists. split; [apply io_map_err_Ok, write_all_fits; cbn [room]; rewrite Hz; lia|].
    cbn [tx]. rewrite <- app_assoc. unfold message_bytes. rewrite wrap_u32_small; [done|].
    unfold MAX_MESSAGE_SIZE, zlen in *. lia.
Qed.
End messages.

(** ** Witnesses: a codec that only knows pings without a key *)
Definition toy_message_to_json (m : Message) : result string (list byte) :=
  match m with
  | Ping p => if is_empty (privilege_key p) then toy_to_json (fun z : Z => z) (ping_timestamp p)
              else Err "unsupported"%string
  | _ => Err "unsupported"%string
  end.

Definition toy_message_of_json (l : list byte) : result string Message :=
  match toy_of_json (fun z : Z => z) l with
  | Ok z => Ok (Ping {| ping_timestamp := z; privilege_key := EmptyString |})
  | Err e => Err e
  end.

#[global] Instance toy_json_message : Json Message :=
  {| to_json := toy_message_to_json; of_json := toy_message_of_json |}.

#[global] Instance toy_json_message_laws : JsonLaws Message.
Proof.
  split. intros m b E. destruct m; try done. simpl in *. destruct m as [ts key]. simpl in *.
  destruct key; [|done]. unfold toy_message_of_json.
  by rewrite (toy_json_roundtrip (fun z : Z => z) (fun z => z) ts b).
Qed.

Definition demo_ping : Message := Ping {| ping_timestamp := 7; privilege_key := EmptyString |}.

Lemma control_roundtrip_witness : exists c',
  control_write V2 demo_ping (Conn [] [] 100) = (Ok tt, c') /\
  exists text, to_json demo_ping = Ok text /\ rx c' = [] /\
    (zlen text <= wire_max V2 -> tx c' = message_bytes V2 text /\
     forall limit rest t r, zlen text <= limit ->
       control_read_with_limit V2 limit (Conn (message_bytes V2 text ++ rest) t r)
       = (Ok demo_ping, Conn rest t r)).
Proof.
  eexists. split; [vm_compute; reflexivity|].
  apply (control_roundtrip V2 demo_ping (Conn [] [] 100) tt). vm_compute. reflexivity.
Defined.

Lemma oversized_refused_witness :
  read_message_with_limit MAX_PREAUTH_MESSAGE_SIZE (Conn (be_bytes 4 70000 ++ as_bytes "x") [] 0)
  = (Err (too_large 70000 MAX_PREAUTH_MESSAGE_SIZE), Conn (as_bytes "x") [] 0).
Proof. apply oversized_refused; unfold u32_max, MAX_PREAUTH_MESSAGE_SIZE; lia. Defined.

(** A codec with one message, of the given length. *)
Definition blob_json (n : nat) : Json Message :=
  {| to_json := fun _ => Ok (replicate n Byte.x20); of_json := fun _ => Err "blob"%string |}.

Lemma v2_refuses_large_messages_witness :
  let J := blob_json (Z.to_nat 70000) in
  let c := Conn [] [] 100000 in
  (exists e, @control_write J V2 demo_ping c = (Err (MsgWire (WireV2.WireProtocol e)), c)) /\
  exists c', @control_write J V1 demo_ping c = (Ok tt, c') /\
    tx c' = tx c ++ message_bytes V1 (replicate (Z.to_nat 70000) Byte.x20).
Proof.
  intros J c. apply (@v2_refuses_large_messages J demo_ping (replicate (Z.to_nat 70000) Byte.x20) c).
  - reflexivity.
  - unfold zlen. rewrite length_replicate. unfold DEFAULT_MAX_FRAME_PAYLOAD_SIZE, MAX_MESSAGE_SIZE. lia.
  - unfold zlen. rewrite length_replicate. unfold c. simpl room. lia.
Defined.
