(* ===== verification/HttpClient.v ===== *)
(** * The HTTP/1.1 client (src/rust_frp_net/src/http.rs)

    URLs, request heads, form encoding, response parsing and chunked bodies.
    The exchange itself (connect, TLS, send, read to the end, the time limit) is
    an argument.  [None] as the result of a parser is a panic. *)
From S2P Require Import Prelude RustStd RustFmt Utf8.

Record HttpOptions := {
  tls_verify : bool;
  ca_file : option string;
  timeout : Z;
}.

Definition default_options : HttpOptions :=
  {| tls_verify := true; ca_file := None; timeout := secs 10 |}.

Record HttpResponse := { status : Z; body : string }.

Definition is_success (r : HttpResponse) : bool := bool_decide (200 <= status r < 300).

Inductive Method := Get | Post.
Definition method_str (m : Method) : string := match m with Get => "GET" | Post => "POST" end.

Record ParsedUrl := {
  use_tls : bool;
  host : string;
  port : Z;
  path_and_query : string;
}.

(** [s.find(chars)]: the text before and from the first of the characters. *)
Fixpoint split_at_any (cs : list ascii) (s : string) : string * string :=
  match s with
  | EmptyString => (EmptyString, EmptyString)
  | String c r =>
      if decide (c ∈ cs) then (EmptyString, s)
      else let '(a, b) := split_at_any cs r in (String c a, b)
  end.

Definition bad_port (authority : string) : string :=
  ("invalid port in authority: " +:+ authority)%string.

Definition split_host_port (authority : string) (tls : bool) : result string (string * Z) :=
  let default_port := if tls then 443 else 80 in
  match strip_prefix "[" authority with
  | Some rest =>
      match split_once "]" rest with
      | None => Err ("invalid IPv6 authority: " +:+ authority)%string
      | Some (h, after) =>
          match strip_prefix ":" after with
          | Some p => p ← ok_or (bad_port authority) (parse_unsigned 16 p); Ok (h, p)
          | None => Ok (h, default_port)
          end
      end
  | None =>
      match rsplit_once ":"%char authority with
      | Some (h, p) => p ← ok_or (bad_port authority) (parse_unsigned 16 p); Ok (h, p)
      | None => Ok (authority, default_port)
      end
  end.

Definition parse_url (raw : string) : result string ParsedUrl :=
  let '(tls, rest) :=
    match strip_prefix "https://" raw with
    | Some r => (true, r)
    | None => match strip_prefix "http://" raw with Some r => (false, r) | None => (false, raw) end
    end in
  let '(authority, path) := split_at_any ["/"%char; "?"%char] rest in
  if is_empty authority then Err ("invalid url (empty authority): " +:+ raw)%string else
  hp ← split_host_port authority tls;
  Ok {| use_tls := tls; host := hp.1; port := hp.2;
        path_and_query := if is_empty path then "/"%string
                          else if starts_with "?" path then ("/" +:+ path)%string else path |}.

(** ** Requests *)
Definition host_header (u : ParsedUrl) : string :=
  if (use_tls u && bool_decide (port u = 443)) || (negb (use_tls u) && bool_decide (port u = 80))
  then host u else (host u +:+ ":" +:+ dec (port u))%string.

Definition header_line (name value : string) : string := (name +:+ ": " +:+ value +:+ crlf)%string.

Definition request_head (m : Method) (u : ParsedUrl) (content_type : option string)
    (extra_headers : list (string * string)) (body_len : Z) : string :=
  (method_str m +:+ " " +:+ path_and_query u +:+ " HTTP/1.1" +:+ crlf
   +:+ header_line "Host" (host_header u)
   +:+ (match content_type with Some ct => header_line "Content-Type" ct | None => EmptyString end)
   +:+ foldr (fun h acc => header_line h.1 h.2 +:+ acc) EmptyString extra_headers
   +:+ header_line "Content-Length" (dec body_len) +:+ header_line "Connection" "close" +:+ crlf)%string.

Definition hex_upper (d : Z) : ascii :=
  ascii_of_N (Z.to_N (if decide (d < 10) then 48 + d else 55 + d)).

(** One byte of a form field. *)
Definition percent_byte (c : ascii) : string :=
  if is_ascii_alphanumeric c || bool_decide (c ∈ ["-"; "."; "_"; "~"]%char) then String c EmptyString
  else if decide (c = " "%char) then "+"%string
  else String "%"%char (String (hex_upper (code c / 16)) (String (hex_upper (code c mod 16)) EmptyString)).

Fixpoint percent_encode (s : string) : string :=
  match s with
  | EmptyString => EmptyString
  | String c s => (percent_byte c +:+ percent_encode s)%string
  end.

Definition encode_form (params : list (string * string)) : string :=
  str_join "&" (map (fun kv => percent_encode kv.1 +:+ "=" +:+ percent_encode kv.2)%string params).

(** ** Chunked bodies *)
Definition CRLF : list byte := [Byte.x0d; Byte.x0a].

Definition hex_value (c : ascii) : option Z :=
  if is_ascii_digit c then Some (code c - 48)
  else if bool_decide (97 <= code c <= 102) then Some (code c - 87)
  else if bool_decide (65 <= code c <= 70) then Some (code c - 55)
  else None.

Fixpoint hex_digits (s : string) (acc : Z) : option Z :=
  match s with
  | EmptyString => Some acc
  | String c s => d ← hex_value c; hex_digits s (16 * acc + d)
  end.

(** [usize::from_str_radix(s, 16)]. *)
Definition parse_hex_usize (s : string) : option Z :=
  let body := match s with String "+"%char r => r | _ => s end in
  if is_empty body then None else
  v ← hex_digits body 0;
  if decide (v <= u64_max) then Some v else None.

(** The size a chunk's line announces. *)
Definition chunk_size (line : list byte) : option Z :=
  parse_hex_usize (default EmptyString (head (split_char ";"%char (trim (from_utf8_lossy line))))).

(** [pos] grows with every chunk, so the length of [raw] is fuel enough. *)
Fixpoint decode_chunked (fuel : nat) (raw : list byte) (pos : nat) (out : list byte)
  : option (list byte) :=
  match fuel with
  | O => Some out
  | S fuel =>
      if decide (length raw <= pos)%nat then Some out else
      match position_of CRLF (drop pos raw) with
      | None => Some out
      | Some p =>
          match chunk_size (take p (drop pos raw)) with
          | None => Some out
          | Some size =>
              if decide (size = 0) then Some out else
              let data_start := (pos + p + 2)%nat in
              let data_end := Z.min (wrap_u64 (Z.of_nat data_start + size)) (zlen raw) in
              (* the slice [data_start..data_end] *)
              if decide (data_end < Z.of_nat data_start) then None else
              let data := take (Z.to_nat data_end - data_start) (drop data_start raw) in
              decode_chunked fuel raw (Z.to_nat data_end + 2) (out ++ data)
          end
      end
  end.

Definition decode_chunked_into (raw : list byte) : option (list byte) :=
  decode_chunked (length raw) raw 0 [].

(** ** Responses *)
Definition HEADER_END : list byte := CRLF ++ CRLF.

(** The two headers that matter: the length and the chunked flag. *)
Definition body_header (acc : option Z * bool) (line : string) : option Z * bool :=
  match split_once ":" line with
  | None => acc
  | Some (name, value) =>
      let name := to_ascii_lowercase (trim name) in
      let value := trim value in
      if decide (name = "content-length"%string) then (parse_unsigned 64 value, acc.2)
      else if decide (name = "transfer-encoding"%string /\ eq_ignore_ascii_case value "chunked" = true)
      then (acc.1, true) else acc
  end.

Definition parse_http_response (raw : list byte) : option (result string HttpResponse) :=
  match position_of HEADER_END raw with
  | None => Some (Err "invalid response: header terminator not found"%string)
  | Some header_end =>
      match str_lines (from_utf8_lossy (take header_end raw)) with
      | [] => Some (Err "invalid response: empty status line"%string)
      | status_line :: lines =>
          match (s ← split_whitespace status_line !! 1%nat; parse_unsigned 16 s) with
          | None => Some (Err ("invalid status line: " +:+ status_line)%string)
          | Some status =>
              let '(content_length, chunked) := foldl body_header (None, false) lines in
              let body_bytes := drop (header_end + 4) raw in
              body ← (if chunked : bool then decode_chunked_into body_bytes
                      else Some match content_length with
                                | Some len => take (Z.to_nat (Z.min len (zlen body_bytes))) body_bytes
                                | None => body_bytes
                                end);
              Some (Ok {| status := status; body := from_utf8_lossy body |})
          end
      end
  end.

(** ** The call *)
Section Request.
(** [exchange url opts bytes]: connects, sends the bytes and reads to the end;
    [None] when the time limit passes first.  [debug_duration] is [{:?}]. *)
Context (exchange : ParsedUrl -> HttpOptions -> list byte -> option (result string (list byte)))
  (debug_duration : Z -> string).

Definition request (m : Method) (url : string) (content_type : option string)
    (body : option (list byte)) (extra_headers : list (string * string)) (opts : HttpOptions)
  : option (result string HttpResponse) :=
  match parse_url url with
  | Err e => Some (Err e)
  | Ok parsed =>
      let body := default [] body in
      let head := request_head m parsed content_type extra_headers (zlen body) in
      match exchange parsed opts (as_bytes head ++ body) with
      | None => Some (Err ("request to " +:+ url +:+ " timed out after "
                             +:+ debug_duration (timeout opts))%string)
      | Some (Err e) => Some (Err e)
      | Some (Ok raw) => parse_http_response raw
      end
  end.

Definition http_get (url : string) (opts : HttpOptions) : option (result string HttpResponse) :=
  request Get url None None [] opts.

Definition post_json (url : string) (body : list byte) (extra_headers : list (string * string))
    (opts : HttpOptions) : option (result string HttpResponse) :=
  request Post url (Some "application/json"%string) (Some body) extra_headers opts.

Definition post_form (url : string) (params : list (string * string)) (opts : HttpOptions)
  : option (result string HttpResponse) :=
  request Post url (Some "application/x-www-form-urlencoded"%string)
    (Some (as_bytes (encode_form params))) [] opts.
End Request.

(** ** Lemmas: chunks *)

(** A chunk as it is sent: its size line and its data. *)
Definition encode_chunk (ch : list byte * list byte) : list byte := ch.1 ++ CRLF ++ ch.2 ++ CRLF.

Definition wf_chunk (ch : list byte * list byte) : Prop :=
  Byte.x0d ∉ ch.1 /\ chunk_size ch.1 = Some (zlen ch.2) /\ ch.2 <> [].

Lemma position_of_crlf line rest : Byte.x0d ∉ line ->
  position_of CRLF (line ++ CRLF ++ rest) = Some (length line).
Proof.
  intros H. apply position_of_first; [simpl; lia|]. intros i Hi E.
  rewrite drop_app_le in E by lia.
  destruct (drop i line) as [|b l] eqn:Ed.
  { apply (f_equal length) in Ed. rewrite length_drop in Ed. simpl in Ed. lia. }
  simpl in E. injection E as -> _. apply H. apply (elem_of_drop_l _ i). rewrite Ed. left.
Qed.

(** One turn of the loop at a size line. *)
Lemma decode_at_line fuel pre line rest out : Byte.x0d ∉ line ->
  decode_chunked (S fuel) (pre ++ line ++ CRLF ++ rest) (length pre) out =
  match chunk_size line with
  | None => Some out
  | Some size =>
      if decide (size = 0) then Some out else
      let raw := pre ++ line ++ CRLF ++ rest in
      let data_start := (length pre + length line + 2)%nat in
      let data_end := Z.min (wrap_u64 (Z.of_nat data_start + size)) (zlen raw) in
      if decide (data_end < Z.of_nat data_start) then None else
      decode_chunked fuel raw (Z.to_nat data_end + 2)
        (out ++ take (Z.to_nat data_end - data_start) rest)
  end.
Proof.
  intros H. cbn [decode_chunked].
  rewrite decide_False by (rewrite !length_app; simpl; lia).
  rewrite drop_app_length, position_of_crlf by done. rewrite take_app_length.
  destruct (chunk_size line) as [size|]; [|done]. case_decide; [done|]. cbv zeta.
  assert (Hd : drop (length pre + length line + 2) (pre ++ line ++ CRLF ++ rest) = rest).
  { rewrite <- Nat.add_assoc, <- drop_drop, drop_app_length, <- drop_drop, drop_app_length. done. }
  by rewrite Hd.
Qed.

Lemma decode_chunks chunks tail : forall fuel pre out,
  Forall wf_chunk chunks -> (length chunks < fuel)%nat ->
  zlen (pre ++ concat (encode_chunk <$> chunks) ++ as_bytes "0" ++ CRLF ++ tail) < 2 ^ 63 ->
  decode_chunked fuel (pre ++ concat (encode_chunk <$> chunks) ++ as_bytes "0" ++ CRLF ++ tail)
    (length pre) out = Some (out ++ concat (snd <$> chunks)).
Proof.
  induction chunks as [|[line data] chunks IH]; intros fuel pre out Hwf Hf Hlen.
  - destruct fuel as [|fuel]; [simpl in Hf; lia|]. cbn [fmap list_fmap concat]. rewrite app_nil_l.
    rewrite decode_at_line by (vm_compute; set_solver). by rewrite app_nil_r.
  - destruct fuel as [|fuel]; [simpl in Hf; lia|].
    apply Forall_cons in Hwf as [(Hcr & Hsize & Hne) Hwf]. simpl in Hcr, Hsize, Hne.
    cbn [fmap list_fmap concat fst snd] in *. unfold encode_chunk at 1. unfold encode_chunk at 1 in Hlen.
    cbn [fst snd] in *. rewrite <- !app_assoc in *.
    set (rest := data ++ CRLF ++ concat (encode_chunk <$> chunks) ++ as_bytes "0" ++ CRLF ++ tail) in *.
    rewrite decode_at_line by done. rewrite Hsize.
    assert (0 < zlen data) by (destruct data; [done|unfold zlen; simpl; lia]).
    rewrite decide_False by lia. cbv zeta.
    set (raw := pre ++ line ++ CRLF ++ rest) in *.
    assert (Hraw : zlen raw = zlen pre + zlen line + 2 + zlen rest).
    { unfold raw, zlen. rewrite !length_app. simpl. lia. }
    assert (Hrest : zlen data <= zlen rest).
    { unfold rest, zlen. rewrite !length_app. lia. }
    assert (He : Z.min (wrap_u64 (Z.of_nat (length pre + length line + 2) + zlen data)) (zlen raw)
      = zlen pre + zlen line + 2 + zlen data).
    { rewrite wrap_u64_small by (unfold zlen in *; lia). unfold zlen in *. lia. }
    rewrite He. rewrite decide_False by (unfold zlen in *; lia).
    replace (Z.to_nat (zlen pre + zlen line + 2 + zlen data) - (length pre + length line + 2))%nat
      with (length data) by (unfold zlen; lia).
    assert (Htake : take (length data) rest = data) by (unfold rest; by rewrite take_app_length).
    rewrite Htake.
    replace raw with ((pre ++ line ++ CRLF ++ data ++ CRLF) ++ concat (encode_chunk <$> chunks)
      ++ as_bytes "0" ++ CRLF ++ tail) by (unfold raw, rest; by rewrite <- !app_assoc).
    replace (Z.to_nat (zlen pre + zlen line + 2 + zlen data) + 2)%nat
      with (length (pre ++ line ++ CRLF ++ data ++ CRLF)) by (unfold zlen; rewrite !length_app; simpl; lia).
    rewrite IH; [by rewrite <- app_assoc|done|simpl in Hf; lia|].
    rewrite <- !app_assoc. exact Hlen.
Qed.

(** chunked decoding inverts chunked encoding.  Whatever the size lines
    look like (upper or lower case, leading zeros, extensions after a
    semicolon), as long as each announces the length of its non-empty data, the
    decoder returns exactly the concatenated data and ignores what follows the
    zero chunk. *)
Theorem chunked_roundtrip chunks tail :
  Forall wf_chunk chunks ->
  zlen (concat (encode_chunk <$> chunks) ++ as_bytes "0" ++ CRLF ++ tail) < 2 ^ 63 ->
  decode_chunked_into (concat (encode_chunk <$> chunks) ++ as_bytes "0" ++ CRLF ++ tail)
  = Some (concat (snd <$> chunks)).
Proof.
  intros Hwf Hlen. unfold decode_chunked_into. apply (decode_chunks chunks tail _ [] []); [done| |done].
  rewrite length_app. enough (length chunks <= length (concat (encode_chunk <$> chunks)))%nat by (simpl; lia).
  clear. induction chunks as [|ch chunks IH]; [done|]. rewrite fmap_cons. cbn [concat length].
  rewrite length_app. assert (1 <= length (encode_chunk ch))%nat; [|lia].
  unfold encode_chunk. rewrite !length_app. simpl. lia.
Qed.

Lemma chunked_roundtrip_witness :
  decode_chunked_into (concat (encode_chunk <$> [(as_bytes "005;x=1", as_bytes "hello"); (as_bytes "B", as_bytes "hello world")])
    ++ as_bytes "0" ++ CRLF ++ as_bytes "ignored") = Some (as_bytes "hellohello world").
Proof.
  apply (chunked_roundtrip [(as_bytes "005;x=1", as_bytes "hello"); (as_bytes "B", as_bytes "hello world")]).
  - repeat constructor; vm_compute; try done; set_solver.
  - reflexivity.
Defined.

(** a response can crash its reader.  When a chunk announces a size that
    carries the end of its data past 2^64, the sum wraps around, the slice
    starts after its end, and decoding panics. *)
Theorem chunk_overflow_panics line rest size :
  Byte.x0d ∉ line -> chunk_size line = Some size -> zlen line + 2 < 2 ^ 63 -> size <= u64_max ->
  2 ^ 64 <= zlen line + 2 + size ->
  decode_chunked_into (line ++ CRLF ++ rest) = None.
Proof.
  intros Hcr Hs Hl Hmax Hov. unfold decode_chunked_into.
  destruct (length (line ++ CRLF ++ rest)) as [|fuel] eqn:Ef.
  { rewrite !length_app in Ef. simpl in Ef. lia. }
  change (decode_chunked (S fuel) ([] ++ line ++ CRLF ++ rest) (length (A := byte) []) [] = None).
  rewrite decode_at_line by done. rewrite Hs.
  rewrite decide_False by (unfold zlen in *; lia). cbv zeta. cbn [length].
  rewrite decide_True; [done|]. unfold u64_max in *.
  assert (Hw : wrap_u64 (Z.of_nat (0 + length line + 2) + size) = zlen line + 2 + size - 2 ^ 64).
  { unfold wrap_u. replace (Z.of_nat (0 + length line + 2) + size) with (zlen line + 2 + size) by (unfold zlen; lia).
    symmetry. apply (Z.mod_unique_pos _ _ 1); lia. }
  rewrite Hw. unfold zlen in *. lia.
Qed.

Lemma chunk_overflow_panics_witness :
  decode_chunked_into (as_bytes "ffffffffffffffff" ++ CRLF ++ as_bytes "x") = None.
Proof.
  apply (chunk_overflow_panics _ _ u64_max); try reflexivity; try (vm_compute; congruence).
  vm_compute. set_solver.
Defined.

(** ** Lemmas: forms *)
Definition form_hex (h l : ascii) : ascii :=
  ascii_of_N (Z.to_N (16 * default 0 (hex_value h) + default 0 (hex_value l))).

(** Reads a form field back. *)
Fixpoint percent_decode (s : string) : string :=
  match s with
  | EmptyString => EmptyString
  | String "+"%char s => String " "%char (percent_decode s)
  | String "%"%char (String h (String l s)) => String (form_hex h l) (percent_decode s)
  | String c s => String c (percent_decode s)
  end.

Definition parse_pair (p : string) : string * string :=
  match split_once "=" p with
  | Some (k, v) => (percent_decode k, percent_decode v)
  | None => (percent_decode p, EmptyString)
  end.

Definition parse_form (s : string) : list (string * string) :=
  if is_empty s then [] else map parse_pair (split_char "&"%char s).

Lemma percent_decode_byte c s :
  percent_decode (percent_byte c +:+ s)%string = String c (percent_decode s).
Proof. destruct c as [[] [] [] [] [] [] [] []]; reflexivity. Qed.

Lemma percent_byte_plain c : contains_char "&"%char (percent_byte c) = false /\
  contains_char "="%char (percent_byte c) = false.
Proof. destruct c as [[] [] [] [] [] [] [] []]; split; reflexivity. Qed.

Lemma percent_decode_encode s : percent_decode (percent_encode s) = s.
Proof. induction s as [|c s IH]; [done|]. cbn [percent_encode]. by rewrite percent_decode_byte, IH. Qed.

Lemma percent_encode_plain s : contains_char "&"%char (percent_encode s) = false /\
  contains_char "="%char (percent_encode s) = false.
Proof.
  induction s as [|c s [H1 H2]]; [done|]. cbn [percent_encode].
  destruct (percent_byte_plain c) as [P1 P2].
  by rewrite !contains_char_app, P1, P2, H1, H2.
Qed.

Definition form_pair (kv : string * string) : string :=
  (percent_encode kv.1 +:+ "=" +:+ percent_encode kv.2)%string.

Lemma parse_form_pair kv : parse_pair (form_pair kv) = kv.
Proof.
  unfold parse_pair, form_pair.
  change ("=" +:+ percent_encode kv.2)%string with (String "="%char (percent_encode kv.2)).
  rewrite (split_once_char "="%char) by apply percent_encode_plain.
  rewrite !percent_decode_encode. by destruct kv.
Qed.

Lemma form_pair_no_amp kv : contains_char "&"%char (form_pair kv) = false.
Proof.
  unfold form_pair. rewrite !contains_char_app. destruct (percent_encode_plain kv.1) as [-> _].
  by destruct (percent_encode_plain kv.2) as [-> _].
Qed.

Lemma foldl_join_prefix sep p a l :
  foldl (fun acc x => acc +:+ sep +:+ x)%string (p +:+ a)%string l
  = (p +:+ foldl (fun acc x => acc +:+ sep +:+ x)%string a l)%string.
Proof.
  revert a; induction l as [|x l IH]; intros a; simpl; [done|].
  by rewrite <- str_app_assoc, IH.
Qed.

Lemma str_join_cons sep x y l : str_join sep (x :: y :: l) = (x +:+ sep +:+ str_join sep (y :: l))%string.
Proof. simpl. by rewrite foldl_join_prefix, foldl_join_prefix. Qed.

Lemma split_join c l : l <> [] -> Forall (fun s => contains_char c s = false) l ->
  split_char c (str_join (String c EmptyString) l) = l.
Proof.
  induction l as [|x [|y l] IH]; intros Hne Hl; [done| |].
  - apply Forall_cons in Hl as [Hx _]. simpl. by apply split_char_single.
  - apply Forall_cons in Hl as [Hx Hl]. rewrite str_join_cons.
    change (String c EmptyString +:+ ?s)%string with (String c s).
    rewrite split_char_app by done. by rewrite IH.
Qed.

(** form encoding is reversible for every list of parameters: names and
    values may hold any bytes, including ampersands, equal signs, percent signs
    and spaces, and the receiver reads back the same list in the same order. *)
Theorem form_roundtrip params : parse_form (encode_form params) = params.
Proof.
  unfold parse_form, encode_form. fold form_pair. change (map _ params) with (map form_pair params).
  destruct params as [|kv params]; [done|].
  assert (Hne : is_empty (str_join "&" (map form_pair (kv :: params))) = false).
  { apply is_empty_false. intros E.
    assert (H : contains_char "="%char (str_join "&" (map form_pair (kv :: params))) = true).
    { destruct params as [|kv' params].
      - simpl. unfold form_pair. rewrite !contains_char_app. simpl. by rewrite orb_true_r.
      - cbn [map]. rewrite str_join_cons, contains_char_app. unfold form_pair at 1.
        rewrite !contains_char_app. simpl. by rewrite !orb_true_r. }
    by rewrite E in H. }
  rewrite Hne, (split_join "&"%char).
  - rewrite map_map. rewrite <- (map_id (kv :: params)) at 2. apply map_ext. apply parse_form_pair.
  - done.
  - apply Forall_map, Forall_forall. intros x _. apply form_pair_no_amp.
Qed.
