(* ===== verification/JsonValue.v ===== *)
(** * JSON values

    [serde_json::Value] and the accessors the program uses.  Parsing text is
    [serde_json]'s and stays an argument where it is used. *)
From S2P Require Import Prelude RustStd.

(** A number is an integer or something else. *)
Inductive value :=
| JNull
| JBool (b : bool)
| JInt (z : Z)
| JFloat
| JStr (s : string)
| JArr (l : list value)
| JObj (fields : list (string * value)).

(** [Value::get] with a string index. *)
Definition get (name : string) (v : value) : option value :=
  match v with
  | JObj fields => snd <$> (snd <$> list_find (fun kv => kv.1 = name) fields)
  | _ => None
  end.

Definition as_str (v : value) : option string := match v with JStr s => Some s | _ => None end.
Definition as_array (v : value) : option (list value) := match v with JArr l => Some l | _ => None end.

Definition as_i64 (v : value) : option Z :=
  match v with
  | JInt z => if decide (- 2 ^ 63 <= z < 2 ^ 63) then Some z else None
  | _ => None
  end.

Definition as_u64 (v : value) : option Z :=
  match v with
  | JInt z => if decide (0 <= z < 2 ^ 64) then Some z else None
  | _ => None
  end.

Definition get_str (name : string) (v : value) : option string := get name v ≫= as_str.
Definition get_i64 (name : string) (v : value) : option Z := get name v ≫= as_i64.
