(* ===== verification/Auth.v ===== *)
(** * Authentication (src/rust_frp_auth/src/lib.rs)

    The token and OIDC verifiers, the JWKS cache, JWT checking, the DER encoding
    of RSA keys, and [AuthManager] with its keys and signatures.  Interfaces:
    [RingHash] (SHA-256, HMAC), [Base64], [Jwt] (the public-key verification of
    ring and the JSON parser), and the HTTP client's [get]/[post_form] as
    arguments.  Errors are their texts. *)
From S2P Require Import Prelude RustStd RustFmt ConfigTypes Transport EncStream IoConn WireV2 Secrets.
From S2P Require Import HttpClient JsonValue.

Class Base64 := {
  b64_encode : list byte -> string;
  b64_std_nopad : string -> result string (list byte);
  b64_url_nopad : string -> result string (list byte);
  b64_std : string -> result string (list byte);
  b64_url : string -> result string (list byte);
}.

(** [UnparsedPublicKey::verify] for the two algorithms, and [serde_json]. *)
Class Jwt := {
  rsa_sha256_verify : list byte -> list byte -> list byte -> bool;   (* key, message, signature *)
  p256_verify : list byte -> list byte -> list byte -> bool;
  parse_json : list byte -> result string value;
}.

(** [r.or_else(|_| r')]. *)
Definition or_else {T} (r r' : result string T) : result string T :=
  match r with Ok t => Ok t | Err _ => r' end.

Definition b64_decode `{Base64} (s : string) : result string (list byte) :=
  map_err (fun e => "Failed to decode base64: " +:+ e)%string
    (or_else (b64_std_nopad s) (or_else (b64_url_nopad s) (or_else (b64_std s) (b64_url s)))).

Definition normalize_issuer (issuer : string) : string := trim_end_slashes issuer.

(** ** DER *)

(** The length's bytes, most significant first; [fuel] is the 8 bytes of a [usize]. *)
Fixpoint len_bytes (fuel : nat) (l : Z) (acc : list byte) : list byte :=
  match fuel with
  | O => acc
  | S fuel => if decide (l <= 0) then acc
              else len_bytes fuel (Z.shiftr l 8) (z2b (Z.land l 255) :: acc)
  end.

Definition der_len (len : Z) : list byte :=
  if decide (len < 128) then [z2b len] else
  let bytes := len_bytes 8 len [] in
  z2b (Z.lor 128 (zlen bytes)) :: bytes.

Fixpoint strip_zeros (b : list byte) : list byte :=
  match b with
  | x :: ((_ :: _) as rest) => if decide (b2z x = 0) then strip_zeros rest else b
  | _ => b
  end.

Definition der_integer (bytes : list byte) : list byte :=
  let b := strip_zeros bytes in
  let need_pad := match b with x :: _ => negb (bool_decide (Z.land (b2z x) 128 = 0)) | [] => false end in
  let content_len := zlen b + (if need_pad then 1 else 0) in
  [Byte.x02] ++ der_len content_len ++ (if need_pad then [Byte.x00] else []) ++ b.

Definition rsa_pkcs1_der (n e : list byte) : list byte :=
  let body := der_integer n ++ der_integer e in
  [Byte.x30] ++ der_len (zlen body) ++ body.

(** ** Keys *)
Record Jwk := {
  kid : string;
  jwk_alg : string;
  kty : string;
  jwk_n : option string;
  jwk_e : option string;
  jwk_x : option string;
  jwk_y : option string;
}.

Record JwksCache := { jwks_uri : string; keys : list Jwk; fetched_at : Z }.

Definition JWKS_TTL : Z := secs 3600.
Definition OIDC_HTTP_TIMEOUT : Z := secs 10.

Definition oidc_http_options (c : OidcConfig) : HttpOptions :=
  let ca := trim (oidc_trusted_ca_file c) in
  {| tls_verify := negb (oidc_insecure_skip_verify c);
     ca_file := if is_empty ca then None else Some ca; timeout := OIDC_HTTP_TIMEOUT |}.

Definition select_key (ks : list Jwk) (k : option string) (alg : string) : result string Jwk :=
  match k with
  | Some k =>
      match list_find (fun key => kid key = k) ks with
      | Some (_, key) => Ok key
      | None => Err ("no JWKS key matches kid " +:+ debug_str k)%string
      end
  | None =>
      match filter (fun key => jwk_alg key = EmptyString \/ jwk_alg key = alg) ks with
      | [only] => Ok only
      | l => Err ("JWT has no kid and JWKS has " +:+ dec (zlen l) +:+ " candidate key(s)")%string
      end
  end.

Definition guard_ok (b : bool) (msg : string) : result string unit := if b then Ok tt else Err msg.

Definition verify_signature `{Base64, Jwt} (key : Jwk) (alg : string) (msg sig : list byte)
  : result string unit :=
  if decide (alg = "RS256"%string) then
    if decide (kty key <> "RSA"%string) then
      Err ("JWT alg RS256 requires an RSA key, got kty=" +:+ debug_str (kty key))%string else
    n ← b64_decode (default EmptyString (jwk_n key));
    e ← b64_decode (default EmptyString (jwk_e key));
    if decide (n = [] \/ e = []) then Err "RSA JWK is missing n or e"%string else
    guard_ok (rsa_sha256_verify (rsa_pkcs1_der n e) msg sig) "JWT RS256 signature verification failed"
  else if decide (alg = "ES256"%string) then
    if decide (kty key <> "EC"%string) then
      Err ("JWT alg ES256 requires an EC key, got kty=" +:+ debug_str (kty key))%string else
    x ← b64_decode (default EmptyString (jwk_x key));
    y ← b64_decode (default EmptyString (jwk_y key));
    if decide (length x <> 32%nat \/ length y <> 32%nat) then
      Err "ES256 JWK x/y must each be 32 bytes (P-256)"%string else
    guard_ok (p256_verify ([Byte.x04] ++ x ++ y) msg sig) "JWT ES256 signature verification failed"
  else Err ("unsupported JWT alg " +:+ debug_str alg)%string.

(** ** The OIDC verifier *)
Record OidcAuthVerifier := {
  issuer : string;
  audience : string;
  skip_expiry_check : bool;
  skip_issuer_check : bool;
  http : HttpOptions;
  cache : option JwksCache;
  subjects : gset string;
}.

Definition oidc_new (c : OidcConfig) : OidcAuthVerifier :=
  {| issuer := oidc_issuer c; audience := oidc_audience c;
     skip_expiry_check := oidc_skip_expiry_check c; skip_issuer_check := oidc_skip_issuer_check c;
     http := oidc_http_options c; cache := None; subjects := ∅ |}.

Definition with_cache (v : OidcAuthVerifier) (c : option JwksCache) : OidcAuthVerifier :=
  {| issuer := issuer v; audience := audience v; skip_expiry_check := skip_expiry_check v;
     skip_issuer_check := skip_issuer_check v; http := http v; cache := c; subjects := subjects v |}.
Definition with_subject (v : OidcAuthVerifier) (sub : string) : OidcAuthVerifier :=
  {| issuer := issuer v; audience := audience v; skip_expiry_check := skip_expiry_check v;
     skip_issuer_check := skip_issuer_check v; http := http v; cache := cache v;
     subjects := {[sub]} ∪ subjects v |}.

Section Oidc.
(** [http::get] as the verifier sees it. *)
Context `{Base64, Jwt} (fetch : string -> HttpOptions -> result string HttpResponse).

Definition discover_jwks_uri (v : OidcAuthVerifier) : result string string :=
  let url := (normalize_issuer (issuer v) +:+ "/.well-known/openid-configuration")%string in
  resp ← fetch url (http v);
  if negb (is_success resp) then
    Err ("OIDC discovery at " +:+ url +:+ " returned HTTP " +:+ dec (status resp))%string else
  doc ← map_err (fun e => "invalid OIDC discovery document: " +:+ e)%string
          (parse_json (as_bytes (body resp)));
  _ ← (if skip_issuer_check v then Ok tt else
         match get_str "issuer" doc with
         | Some iss => guard_ok (bool_decide (normalize_issuer iss = normalize_issuer (issuer v)))
             ("OIDC discovery issuer mismatch: expected '" +:+ issuer v +:+ "', got '" +:+ iss +:+ "'")
         | None => Ok tt
         end);
  ok_or "OIDC discovery document has no jwks_uri"%string (get_str "jwks_uri" doc).

Definition jwk_of (k : value) : Jwk :=
  {| kid := default EmptyString (get_str "kid" k); jwk_alg := default EmptyString (get_str "alg" k);
     kty := default EmptyString (get_str "kty" k);
     jwk_n := get_str "n" k; jwk_e := get_str "e" k; jwk_x := get_str "x" k; jwk_y := get_str "y" k |}.

Definition fetch_jwks (v : OidcAuthVerifier) (uri : string) : result string (list Jwk) :=
  resp ← fetch uri (http v);
  if negb (is_success resp) then
    Err ("JWKS at " +:+ uri +:+ " returned HTTP " +:+ dec (status resp))%string else
  doc ← map_err (fun e => "invalid JWKS document: " +:+ e)%string (parse_json (as_bytes (body resp)));
  ks ← ok_or "JWKS document has no keys array"%string (get "keys" doc ≫= as_array);
  let out := map jwk_of ks in
  if decide (out = []) then Err "JWKS contains no keys"%string else Ok out.

(** [keys], under the lock of the cache; [now] is read before the fetch and
    [done_at] after it. *)
Definition get_keys (v : OidcAuthVerifier) (now done_at : Z) (k : option string)
  : result string (list Jwk) * OidcAuthVerifier :=
  let '(stale, cached_uri, unknown_kid, cached) :=
    match cache v with
    | Some c => (bool_decide (JWKS_TTL < duration_since now (fetched_at c)), jwks_uri c,
                 match k with
                 | Some k => negb (existsb (fun key => bool_decide (kid key = k)) (keys c))
                 | None => false
                 end, keys c)
    | None => (true, EmptyString, false, [])
    end in
  if negb stale && negb unknown_kid then (Ok cached, v) else
  match (uri ← (if is_empty cached_uri then discover_jwks_uri v else Ok cached_uri);
         ks ← fetch_jwks v uri; Ok (uri, ks)) with
  | Err e => (Err e, v)
  | Ok (uri, ks) => (Ok ks, with_cache v (Some {| jwks_uri := uri; keys := ks; fetched_at := done_at |}))
  end.

(** The claims: issuer, audience, expiry, not-before. *)
Definition check_issuer (v : OidcAuthVerifier) (claims : value) : result string unit :=
  if skip_issuer_check v || is_empty (issuer v) then Ok tt else
  let iss := default EmptyString (get_str "iss" claims) in
  guard_ok (bool_decide (normalize_issuer iss = normalize_issuer (issuer v)))
    ("JWT issuer mismatch: expected '" +:+ issuer v +:+ "', got '" +:+ iss +:+ "'").

Definition audience_matches (aud : string) (claims : value) : bool :=
  match get "aud" claims with
  | Some (JStr s) => bool_decide (s = aud)
  | Some (JArr l) => existsb (fun a => bool_decide (as_str a = Some aud)) l
  | _ => false
  end.

Definition check_audience (v : OidcAuthVerifier) (claims : value) : result string unit :=
  if is_empty (audience v) then Ok tt else
  guard_ok (audience_matches (audience v) claims)
    ("JWT audience mismatch: expected '" +:+ audience v +:+ "'").

Definition check_times (v : OidcAuthVerifier) (now_secs : Z) (claims : value) : result string unit :=
  _ ← (if skip_expiry_check v then Ok tt else
         match get_i64 "exp" claims with
         | Some exp => guard_ok (bool_decide (now_secs < exp)) "JWT token has expired"
         | None => Ok tt
         end);
  match get_i64 "nbf" claims with
  | Some nbf => guard_ok (bool_decide (nbf <= now_secs + 60)) "JWT token is not yet valid"
  | None => Ok tt
  end.

(** The header, before any key is looked up. *)
Definition token_header (header_b64 : string) : result string (string * option string) :=
  bytes ← b64_decode header_b64;
  header ← map_err (fun e => "Invalid JWT header: " +:+ e)%string (parse_json bytes);
  let alg := default EmptyString (get_str "alg" header) in
  if decide (alg <> "RS256"%string /\ alg <> "ES256"%string) then
    Err ("Unsupported JWT alg " +:+ debug_str alg +:+ ": only RS256 and ES256 are accepted")%string
  else Ok (alg, get_str "kid" header).

(** After the keys are known. *)
Definition check_token (v : OidcAuthVerifier) (now_secs : Z) (ks : list Jwk) (alg : string)
    (k : option string) (header_b64 payload_b64 signature_b64 : string) : result string string :=
  key ← select_key ks k alg;
  signature ← b64_decode signature_b64;
  _ ← verify_signature key alg (as_bytes (header_b64 +:+ "." +:+ payload_b64)%string) signature;
  bytes ← b64_decode payload_b64;
  claims ← map_err (fun e => "Invalid JWT claims: " +:+ e)%string (parse_json bytes);
  _ ← check_issuer v claims;
  _ ← check_audience v claims;
  _ ← check_times v now_secs claims;
  Ok (default EmptyString (get_str "sub" claims)).

Record clock := Clock { mono : Z; fetched : Z; epoch_secs : Z }.

Definition verify_token (v : OidcAuthVerifier) (t : clock) (token : string)
  : result string string * OidcAuthVerifier :=
  match split_char "."%char token with
  | [header_b64; payload_b64; signature_b64] =>
      match token_header header_b64 with
      | Err e => (Err e, v)
      | Ok (alg, k) =>
          let '(r, v) := get_keys v (mono t) (fetched t) k in
          (ks ← r; check_token v (epoch_secs t) ks alg k header_b64 payload_b64 signature_b64, v)
      end
  | _ => (Err "Invalid JWT: expected 3 parts (header.payload.signature)"%string, v)
  end.

Definition oidc_verify_login (v : OidcAuthVerifier) (t : clock) (token : string)
  : result string unit * OidcAuthVerifier :=
  match verify_token v t token with
  | (Err e, v) => (Err e, v)
  | (Ok sub, v) => (Ok tt, if is_empty sub then v else with_subject v sub)
  end.

Definition oidc_verify_work_conn (v : OidcAuthVerifier) (t : clock) (token : string)
  : result string unit * OidcAuthVerifier :=
  match verify_token v t token with
  | (Err e, v) => (Err e, v)
  | (Ok sub, v) =>
      (guard_ok (bool_decide (sub ∈ subjects v))
         ("OIDC subject " +:+ debug_str sub +:+ " has not completed a login on this server"), v)
  end.
End Oidc.

(** ** The client side of OIDC *)
Definition token_request (c : OidcConfig) (extra : list (string * string)) : list (string * string) :=
  [("grant_type", "client_credentials"); ("client_id", oidc_client_id c);
   ("client_secret", oidc_client_secret c)]%string
  ++ (if is_empty (oidc_audience c) then [] else [("audience"%string, oidc_audience c)])
  ++ (if is_empty (oidc_scope c) then [] else [("scope"%string, oidc_scope c)])
  ++ extra.

(** [fetch_access_token]: [post] is [http::post_form], [token_of] the typed parser. *)
Definition fetch_access_token {Token} (post : string -> list (string * string) -> HttpOptions -> result string HttpResponse)
    (token_of : string -> result string Token) (c : OidcConfig) (extra : list (string * string))
  : result string Token :=
  resp ← post (oidc_token_endpoint_url c) (token_request c extra) (oidc_http_options c);
  if negb (is_success resp) then
    Err ("OIDC token endpoint returned HTTP " +:+ dec (status resp) +:+ ": " +:+ trim (body resp))%string
  else map_err (fun e => "invalid OIDC token response: " +:+ e)%string (token_of (body resp)).

(** The endpoint parameters, sorted by name. *)
Definition extra_params `{HashIter} (c : OidcConfig) : list (string * string) :=
  stable_sort (fun a b => String.leb a.1 b.1) (hash_iter (oidc_additional_endpoint_params c)).

(** ** AuthManager *)
Inductive verifier :=
| TokenVerifier (token : string)
| OidcVerifier (v : OidcAuthVerifier).

Record AuthManager := {
  auth_verifier : verifier;
  encryption_key : option (list byte);
  auth_token : option string;
  additional_scopes : list string;
}.

Section Manager.
Context `{RingHash, Base64, Jwt}.

Definition generate_encryption_key (token : string) : list byte := sha256 (as_bytes token).

Definition auth_new (c : AuthConfig) : result string AuthManager :=
  v ← (if decide (au_method c = "token"%string) then
         match au_token c with
         | Some token => Ok (TokenVerifier token)
         | None => Err "token is required for token auth"%string
         end
       else if decide (au_method c = "oidc"%string) then
         match au_oidc c with
         | Some o => Ok (OidcVerifier (oidc_new o))
         | None => Err "oidc config is required for oidc auth"%string
         end
       else Err ("unsupported auth method: " +:+ au_method c)%string);
  Ok {| auth_verifier := v; encryption_key := generate_encryption_key <$> au_token c;
        auth_token := au_token c; additional_scopes := default [] (au_additional_scopes c) |}.

Definition heartbeats_scope_enabled (a : AuthManager) : bool :=
  existsb (fun s => bool_decide (s = "heartBeats"%string)) (additional_scopes a).

Definition ping_privilege_key (a : AuthManager) (timestamp : Z) : option string :=
  if negb (heartbeats_scope_enabled a) then None else
  token ← auth_token a;
  Some (hmac_text b64_encode token ("ping:" +:+ dec timestamp)).

Definition verify_ping_privilege_key (a : AuthManager) (timestamp : Z) (privilege_key : string)
  : result string unit :=
  if negb (heartbeats_scope_enabled a) then Ok tt else
  expected ← ok_or "heartbeats scope enabled but no static token configured"%string
    (ping_privilege_key a timestamp);
  guard_ok (str_eq_ct expected privilege_key)
    "token in heartbeat doesn't match token from configuration".

Definition generate_work_conn_sign_key (a : AuthManager) (run_id : string) : result string string :=
  match encryption_key a with
  | Some key => Ok (b64_encode (hmac_sha256 key (as_bytes ("work_conn:" +:+ run_id)%string)))
  | None => Err "encryption key not set"%string
  end.

Definition with_verifier (a : AuthManager) (v : verifier) : AuthManager :=
  {| auth_verifier := v; encryption_key := encryption_key a; auth_token := auth_token a;
     additional_scopes := additional_scopes a |}.

Section Calls.
Context (fetch : string -> HttpOptions -> result string HttpResponse).

Definition auth_verify_login (a : AuthManager) (t : clock) (token : string)
  : result string unit * AuthManager :=
  match auth_verifier a with
  | TokenVerifier server_token => (verify_login server_token token, a)
  | OidcVerifier v =>
      let '(r, v) := oidc_verify_login fetch v t token in (r, with_verifier a (OidcVerifier v))
  end.

Definition auth_verify_work_conn (a : AuthManager) (t : clock) (token : string)
  : result string unit * AuthManager :=
  match auth_verifier a with
  | TokenVerifier server_token => (verify_login server_token token, a)
  | OidcVerifier v =>
      let '(r, v) := oidc_verify_work_conn fetch v t token in (r, with_verifier a (OidcVerifier v))
  end.
End Calls.
End Manager.

(** ** Lemmas: tokens *)
Lemma guard_ok_Ok b msg u : guard_ok b msg = Ok u <-> b = true.
Proof. unfold guard_ok. destruct b, u; split; done. Qed.

(** What the claims must say. *)
Definition claims_ok (v : OidcAuthVerifier) (now_secs : Z) (claims : value) : Prop :=
  (skip_issuer_check v = true \/ issuer v = EmptyString \/
   normalize_issuer (default EmptyString (get_str "iss" claims)) = normalize_issuer (issuer v)) /\
  (audience v = EmptyString \/ audience_matches (audience v) claims = true) /\
  (skip_expiry_check v = true \/ forall exp, get_i64 "exp" claims = Some exp -> now_secs < exp) /\
  (forall nbf, get_i64 "nbf" claims = Some nbf -> nbf <= now_secs + 60).

Lemma check_issuer_Ok v claims u : check_issuer v claims = Ok u <->
  (skip_issuer_check v = true \/ issuer v = EmptyString \/
   normalize_issuer (default EmptyString (get_str "iss" claims)) = normalize_issuer (issuer v)).
Proof.
  unfold check_issuer. destruct (skip_issuer_check v); simpl; [destruct u; tauto|].
  destruct (is_empty (issuer v)) eqn:E; [apply is_empty_true in E; destruct u; tauto|].
  apply is_empty_false in E. rewrite guard_ok_Ok, bool_decide_eq_true. intuition congruence.
Qed.

Lemma check_audience_Ok v claims u : check_audience v claims = Ok u <->
  (audience v = EmptyString \/ audience_matches (audience v) claims = true).
Proof.
  unfold check_audience. destruct (is_empty (audience v)) eqn:E; [apply is_empty_true in E; destruct u; tauto|].
  apply is_empty_false in E. rewrite guard_ok_Ok. intuition congruence.
Qed.

Lemma check_times_Ok v now claims u : check_times v now claims = Ok u <->
  (skip_expiry_check v = true \/ forall exp, get_i64 "exp" claims = Some exp -> now < exp) /\
  (forall nbf, get_i64 "nbf" claims = Some nbf -> nbf <= now + 60).
Proof.
  unfold check_times. rewrite result_bind_Ok.
  assert (Hn : forall w : unit, (match get_i64 "nbf" claims with
     | Some nbf => guard_ok (bool_decide (nbf <= now + 60)) "JWT token is not yet valid"
     | None => Ok tt end = Ok u <-> forall nbf, get_i64 "nbf" claims = Some nbf -> nbf <= now + 60)).
  { intros _. destruct (get_i64 "nbf" claims) as [nbf|].
    - rewrite guard_ok_Ok, bool_decide_eq_true. naive_solver.
    - destruct u. naive_solver. }
  assert (He : (exists w, (if skip_expiry_check v then Ok tt else
      match get_i64 "exp" claims with
      | Some exp => guard_ok (bool_decide (now < exp)) "JWT token has expired"
      | None => Ok tt end) = Ok w) <->
    (skip_expiry_check v = true \/ forall exp, get_i64 "exp" claims = Some exp -> now < exp)).
  { destruct (skip_expiry_check v); [naive_solver|]. destruct (get_i64 "exp" claims) as [exp|].
    - split.
      + intros [w Hw%guard_ok_Ok%bool_decide_eq_true]. naive_solver.
      + intros [|H]; [done|]. exists tt. by apply guard_ok_Ok, bool_decide_eq_true, H.
    - naive_solver. }
  rewrite <- He. split.
  - intros (w & Hw & Hr). split; [eauto|]. by apply (Hn w).
  - intros ([w Hw] & Hr). exists w. split; [done|]. by apply (Hn w).
Qed.

(** The signature check, by algorithm and key type. *)
Definition signature_valid `{Base64, Jwt} (key : Jwk) (alg : string) (msg sig : list byte) : Prop :=
  (alg = "RS256"%string /\ kty key = "RSA"%string /\ exists n e,
     b64_decode (default EmptyString (jwk_n key)) = Ok n /\ n <> [] /\
     b64_decode (default EmptyString (jwk_e key)) = Ok e /\ e <> [] /\
     rsa_sha256_verify (rsa_pkcs1_der n e) msg sig = true) \/
  (alg = "ES256"%string /\ kty key = "EC"%string /\ exists x y,
     b64_decode (default EmptyString (jwk_x key)) = Ok x /\ length x = 32%nat /\
     b64_decode (default EmptyString (jwk_y key)) = Ok y /\ length y = 32%nat /\
     p256_verify ([Byte.x04] ++ x ++ y) msg sig = true).

Lemma verify_signature_Ok `{Base64, Jwt} key alg msg sig u :
  verify_signature key alg msg sig = Ok u <-> signature_valid key alg msg sig.
Proof.
  unfold verify_signature, signature_valid.
  destruct (decide (alg = "RS256"%string)) as [->|H1].
  { destruct (decide (kty key <> "RSA"%string)) as [Hk|Hk].
    { split; [done|]. intros [(_ & E & _)|(E & _)]; congruence. }
    rewrite result_bind_Ok. split.
    - intros (n & Hn & (e & He & Hr)%result_bind_Ok). destruct (decide _) as [|Hne]; [done|].
      apply guard_ok_Ok in Hr. left. split_and!; [done|by destruct (decide (kty key = "RSA"%string))|].
      exists n, e. tauto.
    - intros [(_ & E & n & e & Hn & Hn0 & He & He0 & Hv)|(E & _)]; [|done].
      exists n. split; [done|]. apply result_bind_Ok. exists e. split; [done|].
      rewrite decide_False by tauto. by apply guard_ok_Ok. }
  destruct (decide (alg = "ES256"%string)) as [->|H2].
  { destruct (decide (kty key <> "EC"%string)) as [Hk|Hk].
    { split; [done|]. intros [(E & _)|(_ & E & _)]; congruence. }
    rewrite result_bind_Ok. split.
    - intros (n & Hn & (e & He & Hr)%result_bind_Ok). destruct (decide _) as [|Hne]; [done|].
      apply guard_ok_Ok in Hr. right. split_and!; [done|by destruct (decide (kty key = "EC"%string))|].
      exists n, e. split_and!; try done; lia.
    - intros [(E & _)|(_ & E & n & e & Hn & Hn0 & He & He0 & Hv)]; [done|].
      exists n. split; [done|]. apply result_bind_Ok. exists e. split; [done|].
      rewrite decide_False by lia. by apply guard_ok_Ok. }
  split; [done|]. intros [(E & _)|(E & _)]; congruence.
Qed.

Lemma check_token_Ok `{Base64, Jwt} v now ks alg k h p s sub :
  check_token v now ks alg k h p s = Ok sub <->
  exists key sig bytes claims,
    select_key ks k alg = Ok key /\ b64_decode s = Ok sig /\
    signature_valid key alg (as_bytes (h +:+ "." +:+ p)%string) sig /\
    b64_decode p = Ok bytes /\ parse_json bytes = Ok claims /\ claims_ok v now claims /\
    sub = default EmptyString (get_str "sub" claims).
Proof.
  unfold check_token, claims_ok. rewrite result_bind_Ok. split.
  - intros (key & Hk & (sig & Hs & ([] & Hv & (bytes & Hb & (claims & Hc & Hrest)%result_bind_Ok)
      %result_bind_Ok)%result_bind_Ok)%result_bind_Ok).
    apply result_bind_Ok in Hrest as ([] & Hi & ([] & Ha & ([] & Ht & [= <-])%result_bind_Ok)%result_bind_Ok).
    apply verify_signature_Ok in Hv. apply map_err_Ok in Hc.
    apply check_issuer_Ok in Hi. apply check_audience_Ok in Ha. apply check_times_Ok in Ht.
    exists key, sig, bytes, claims. tauto.
  - intros (key & sig & bytes & claims & Hk & Hs & Hv & Hb & Hc & (Hi & Ha & Ht) & ->).
    exists key. split; [done|]. apply result_bind_Ok. exists sig. split; [done|].
    apply result_bind_Ok. exists tt. split; [by apply verify_signature_Ok|].
    apply result_bind_Ok. exists bytes. split; [done|].
    apply result_bind_Ok. exists claims. split; [by apply map_err_Ok|].
    apply result_bind_Ok. exists tt. split; [by apply check_issuer_Ok|].
    apply result_bind_Ok. exists tt. split; [by apply check_audience_Ok|].
    apply result_bind_Ok. exists tt. split; [by apply check_times_Ok|]. done.
Qed.

Lemma token_header_Ok `{Base64, Jwt} h alg k : token_header h = Ok (alg, k) <->
  exists bytes header, b64_decode h = Ok bytes /\ parse_json bytes = Ok header /\
    alg = default EmptyString (get_str "alg" header) /\ (alg = "RS256"%string \/ alg = "ES256"%string) /\
    k = get_str "kid" header.
Proof.
  unfold token_header. rewrite result_bind_Ok. split.
  - intros (bytes & Hb & (header & Hh & Hr)%result_bind_Ok). apply map_err_Ok in Hh.
    case_decide as Ha; [done|]. injection Hr as <- <-. exists bytes, header. split_and!; try done.
    destruct (decide (default EmptyString (get_str "alg" header) = "RS256"%string)); [by left|].
    destruct (decide (default EmptyString (get_str "alg" header) = "ES256"%string)); [by right|]. tauto.
  - intros (bytes & header & Hb & Hh & Ha & Hor & ->). exists bytes. split; [done|].
    apply result_bind_Ok. exists header. split; [by apply map_err_Ok|]. rewrite <- Ha.
    by rewrite decide_False by naive_solver.
Qed.

(** a JWT is accepted with a subject exactly when it has three parts, its
    header names RS256 or ES256, a key of the issuer's key set is selected for
    it (by key id, or as the only candidate), the signature over
    [header.payload] verifies under that key with the key type the algorithm
    requires, and the signed claims satisfy issuer, audience, expiry and
    not-before as configured.  In particular [alg: none] and keys of the wrong
    type never verify. *)
Theorem verify_token_iff `{Base64, Jwt} fetch v t token sub v' :
  verify_token fetch v t token = (Ok sub, v') <->
  exists h p s hb header ks key sig pb claims,
    split_char "."%char token = [h; p; s] /\
    b64_decode h = Ok hb /\ parse_json hb = Ok header /\
    let alg := default EmptyString (get_str "alg" header) in
    (alg = "RS256"%string \/ alg = "ES256"%string) /\
    get_keys fetch v (mono t) (fetched t) (get_str "kid" header) = (Ok ks, v') /\
    select_key ks (get_str "kid" header) alg = Ok key /\
    b64_decode s = Ok sig /\ signature_valid key alg (as_bytes (h +:+ "." +:+ p)%string) sig /\
    b64_decode p = Ok pb /\ parse_json pb = Ok claims /\
    claims_ok v' (epoch_secs t) claims /\
    sub = default EmptyString (get_str "sub" claims).
Proof.
  unfold verify_token. split.
  - intros E. destruct (split_char "."%char token) as [|h [|p [|s [|x l]]]] eqn:Es; try done.
    destruct (token_header h) as [[alg k]|e] eqn:Eh; [|done].
    apply token_header_Ok in Eh as (hb & header & Hb & Hh & -> & Hor & ->).
    destruct (get_keys fetch v (mono t) (fetched t) _) as [[ks|e] v2] eqn:Ek; simpl in E; [|done].
    injection E as E <-. apply check_token_Ok in E as (key & sig & pb & claims & Hr).
    exists h, p, s, hb, header, ks, key, sig, pb, claims. cbv zeta. rewrite Ek.
    split_and!; try done; tauto.
  - intros (h & p & s & hb & header & ks & key & sig & pb & claims & Es & Hb & Hh & Hor & Ek & Hr).
    rewrite Es. destruct (token_header h) as [[alg k]|e] eqn:Eh.
    + apply token_header_Ok in Eh as (hb2 & header2 & Hb2 & Hh2 & -> & _ & ->).
      assert (hb2 = hb) as -> by congruence. assert (header2 = header) as -> by congruence.
      rewrite Ek. simpl. f_equal. apply check_token_Ok. exists key, sig, pb, claims. tauto.
    + assert (Hok : token_header h = Ok (default EmptyString (get_str "alg" header), get_str "kid" header)).
      { apply token_header_Ok. exists hb, header. tauto. }
      congruence.
Qed.

(** ** Lemmas: the key cache *)
Lemma get_keys_frame `{Base64, Jwt} fetch v now at_ k : exists c,
  (get_keys fetch v now at_ k).2 = with_cache v c.
Proof.
  unfold get_keys. destruct (cache v) as [c|] eqn:Ec.
  - destruct (negb _ && negb _); [by exists (cache v); destruct v|].
    destruct (uri ← _; _) as [[uri ks]|e]; [by eexists|by exists (cache v); destruct v].
  - cbn [negb andb]. destruct (uri ← _; _) as [[uri ks]|e]; [by eexists|by exists (cache v); destruct v].
Qed.

(** keys are never used past their lifetime.  A verification either uses a
    cached key set that is at most one hour old and knows the token's key id,
    or it downloads the key set during the call (from the cached address, or
    from the one the discovery document gives), and then that set replaces the
    cache; a failed download leaves the cache as it was and fails the call. *)
Theorem keys_fresh `{Base64, Jwt} fetch v now at_ k r v' :
  get_keys fetch v now at_ k = (r, v') ->
  (exists c, cache v = Some c /\ r = Ok (keys c) /\ v' = v /\
     duration_since now (fetched_at c) <= JWKS_TTL /\
     (forall id, k = Some id -> exists key, key ∈ keys c /\ kid key = id)) \/
  (exists uri ks, r = Ok ks /\ fetch_jwks fetch v uri = Ok ks /\
     v' = with_cache v (Some {| jwks_uri := uri; keys := ks; fetched_at := at_ |}) /\
     (discover_jwks_uri fetch v = Ok uri \/ exists c, cache v = Some c /\ jwks_uri c = uri)) \/
  (exists e, r = Err e /\ v' = v).
Proof.
  intros E. unfold get_keys in E.
  assert (Hfetch : forall cached_uri,
    (is_empty cached_uri = true \/ exists c, cache v = Some c /\ jwks_uri c = cached_uri) ->
    match (uri ← (if is_empty cached_uri then discover_jwks_uri fetch v else Ok cached_uri);
           ks ← fetch_jwks fetch v uri; Ok (uri, ks)) with
    | Err e => (Err e, v)
    | Ok (uri, ks) => (Ok ks, with_cache v (Some {| jwks_uri := uri; keys := ks; fetched_at := at_ |}))
    end = (r, v') ->
    (exists uri ks, r = Ok ks /\ fetch_jwks fetch v uri = Ok ks /\
       v' = with_cache v (Some {| jwks_uri := uri; keys := ks; fetched_at := at_ |}) /\
       (discover_jwks_uri fetch v = Ok uri \/ exists c, cache v = Some c /\ jwks_uri c = uri)) \/
    (exists e, r = Err e /\ v' = v)).
  { intros cu Hcu Er. destruct (uri ← _; _) as [[uri ks]|e] eqn:Ef.
    - left. apply result_bind_Ok in Ef as (u & Hu & (ks' & Hks & [= -> ->])%result_bind_Ok).
      injection Er as <- <-. exists uri, ks. split_and!; try done.
      destruct (is_empty cu) eqn:Ecu; [by left|]. injection Hu as <-. right.
      by destruct Hcu as [|Hcu].
    - right. injection Er as <- <-. eauto. }
  destruct (cache v) as [c|] eqn:Ec.
  - destruct (bool_decide (JWKS_TTL < duration_since now (fetched_at c))) eqn:Est; cbn [negb andb] in E.
    { right. apply (Hfetch (jwks_uri c)); [right; eauto|done]. }
    destruct (match k with Some k => _ | None => false end) eqn:Eu; cbn [negb] in E.
    { right. apply (Hfetch (jwks_uri c)); [right; eauto|done]. }
    left. injection E as <- <-. apply bool_decide_eq_false in Est.
    exists c. split_and!; try done; [lia|]. intros id ->.
    apply negb_false_iff, existsb_exists in Eu as (key & Hin & Hk%bool_decide_eq_true).
    exists key. split; [by apply list_elem_of_In|done].
  - right. apply (Hfetch EmptyString); [by left|done].
Qed.

(** ** Lemmas: subjects *)
Lemma verify_token_subjects `{Base64, Jwt} fetch v t token r v' :
  verify_token fetch v t token = (r, v') -> subjects v' = subjects v.
Proof.
  unfold verify_token. destruct (split_char _ _) as [|h [|p [|s [|x l]]]]; try (by intros [= <- <-]).
  destruct (token_header h) as [[alg k]|e]; [|by intros [= <- <-]].
  pose proof (get_keys_frame fetch v (mono t) (fetched t) k) as [c Hc].
  destruct (get_keys _ _ _ _ _) as [r2 v2]. simpl in Hc. intros [= <- <-]. by subst.
Qed.

(** A run of logins and work connections against one verifier. *)
Inductive oidc_op := OLogin (t : clock) (token : string) | OWork (t : clock) (token : string).

Definition oidc_step `{Base64, Jwt} fetch (v : OidcAuthVerifier) (o : oidc_op) : OidcAuthVerifier :=
  match o with
  | OLogin t token => (oidc_verify_login fetch v t token).2
  | OWork t token => (oidc_verify_work_conn fetch v t token).2
  end.

Fixpoint oidc_run `{Base64, Jwt} fetch (v : OidcAuthVerifier) (ops : list oidc_op) : OidcAuthVerifier :=
  match ops with [] => v | o :: ops => oidc_run fetch (oidc_step fetch v o) ops end.

(** The subjects whose login succeeded during the run. *)
Fixpoint logged_in `{Base64, Jwt} fetch (v : OidcAuthVerifier) (ops : list oidc_op) : list string :=
  match ops with
  | [] => []
  | o :: ops =>
      match o with
      | OLogin t token => match (verify_token fetch v t token).1 with
                          | Ok sub => if is_empty sub then [] else [sub]
                          | Err _ => []
                          end
      | OWork _ _ => []
      end ++ logged_in fetch (oidc_step fetch v o) ops
  end.

Lemma oidc_step_subjects `{Base64, Jwt} fetch v o : forall sub,
  sub ∈ subjects (oidc_step fetch v o) <->
  sub ∈ subjects v \/ sub ∈ (match o with
      | OLogin t token => match (verify_token fetch v t token).1 with
                          | Ok sub => if is_empty sub then [] else [sub]
                          | Err _ => []
                          end
      | OWork _ _ => [] end).
Proof.
  intros sub. destruct o as [t token|t token]; simpl;
    [unfold oidc_verify_login|unfold oidc_verify_work_conn];
    destruct (verify_token fetch v t token) as [[s|e] v2] eqn:E; simpl;
    pose proof (verify_token_subjects _ _ _ _ _ _ E) as Hs.
  - destruct (is_empty s); simpl; [rewrite Hs; set_solver|].
    rewrite elem_of_union, elem_of_singleton, list_elem_of_singleton, Hs. tauto.
  - rewrite Hs. set_solver.
  - rewrite Hs. set_solver.
  - rewrite Hs. set_solver.
Qed.

(** a work connection is admitted by OIDC only for a subject that logged
    in on this server before: after any run of logins and work connections, a
    work connection succeeds exactly when its token verifies with a subject that
    a successful login of the run presented; a token without a subject never
    opens a work connection. *)
Theorem work_conn_needs_login `{Base64, Jwt} fetch c ops t token :
  let v := oidc_run fetch (oidc_new c) ops in
  is_ok (oidc_verify_work_conn fetch v t token).1 = true <->
  exists sub, (verify_token fetch v t token).1 = Ok sub /\ sub <> EmptyString /\
    sub ∈ logged_in fetch (oidc_new c) ops.
Proof.
  intros v.
  assert (Hsub : forall ops v0 sub, sub ∈ subjects (oidc_run fetch v0 ops) <->
    sub ∈ subjects v0 \/ sub ∈ logged_in fetch v0 ops).
  { clear. induction ops as [|o ops IH]; intros v0 sub; simpl; [set_solver|].
    rewrite IH, oidc_step_subjects, elem_of_app. tauto. }
  assert (Hne : forall ops v0 sub, sub ∈ logged_in fetch v0 ops -> sub <> EmptyString).
  { clear. induction ops as [|o ops IH]; intros v0 sub; simpl; [set_solver|].
    rewrite elem_of_app. intros [Hs|Hs]; [|by apply IH in Hs].
    destruct o as [t token|]; [|by apply elem_of_nil in Hs].
    destruct (verify_token _ _ _ _).1 as [s|]; [|by apply elem_of_nil in Hs].
    destruct (is_empty s) eqn:E; [by apply elem_of_nil in Hs|].
    apply list_elem_of_singleton in Hs as ->. by apply is_empty_false. }
  unfold oidc_verify_work_conn. destruct (verify_token fetch v t token) as [[s|e] v2] eqn:E; simpl.
  2:{ naive_solver. }
  rewrite (verify_token_subjects _ _ _ _ _ _ E). unfold v. split.
  - intros Hok. case_bool_decide as Hin; [|done]. exists s. split; [done|].
    apply Hsub in Hin as [Hin|Hin]; [simpl in Hin; set_solver|]. split; [by eapply Hne|done].
  - intros (s' & [= <-] & _ & Hin). rewrite bool_decide_true; [done|]. apply Hsub. by right.
Qed.

(** ** Lemmas: DER *)
Definition parse_der_len (l : list byte) : option (Z * list byte) :=
  match l with
  | [] => None
  | b :: rest =>
      if decide (b2z b < 128) then Some (b2z b, rest) else
      let n := Z.to_nat (b2z b - 128) in
      if decide (1 <= n <= 8 /\ n <= length rest)%nat
      then Some (be_value (take n rest), drop n rest) else None
  end.

(** One tag-length-value; the content and what follows. *)
Definition parse_tlv (tag : byte) (l : list byte) : option (list byte * list byte) :=
  match l with
  | t :: l =>
      if decide (t = tag) then
        '(len, l) ← parse_der_len l;
        if decide (len <= zlen l) then Some (take (Z.to_nat len) l, drop (Z.to_nat len) l) else None
      else None
  | [] => None
  end.

(** An INTEGER is two's complement: its first bit is the sign. *)
Definition parse_integer (l : list byte) : option (Z * list byte) :=
  '(c, rest) ← parse_tlv Byte.x02 l;
  match c with
  | [] => None
  | b :: _ => Some (if decide (b2z b < 128) then be_value c else be_value c - 256 ^ zlen c, rest)
  end.

(** RSAPublicKey ::= SEQUENCE { modulus INTEGER, publicExponent INTEGER } *)
Definition parse_rsa_key (l : list byte) : option (Z * Z) :=
  '(c, rest) ← parse_tlv Byte.x30 l;
  '(n, c) ← parse_integer c;
  '(e, c) ← parse_integer c;
  if decide (rest = [] /\ c = []) then Some (n, e) else None.

Lemma be_value_cons b l : be_value (b :: l) = b2z b * 256 ^ zlen l + be_value l.
Proof.
  induction l as [|x l IH] using rev_ind; [unfold be_value, zlen; simpl; lia|].
  rewrite app_comm_cons, !be_value_app, IH. unfold zlen. rewrite length_app. simpl.
  replace (Z.of_nat (length l + 1)) with (Z.of_nat (length l) + 1) by lia.
  rewrite Z.pow_add_r by lia. lia.
Qed.

Lemma len_bytes_spec fuel l acc : 0 <= l < 256 ^ Z.of_nat fuel ->
  exists p, len_bytes fuel l acc = p ++ acc /\ be_value p = l /\
    (length p <= fuel)%nat /\ (0 < l -> (1 <= length p)%nat).
Proof.
  revert l acc; induction fuel as [|fuel IH]; intros l acc Hl.
  { exists []. simpl in *. change (256 ^ 0) with 1 in Hl. split_and!; try done; [unfold be_value; simpl; lia|lia]. }
  simpl. destruct (decide (l <= 0)) as [H0|H0].
  { exists []. unfold be_value. simpl. split_and!; try done; lia. }
  rewrite Nat2Z.inj_succ, Z.pow_succ_r in Hl by lia.
  assert (Hs : Z.shiftr l 8 = l / 256) by (rewrite Z.shiftr_div_pow2 by lia; done).
  assert (Ha : Z.land l 255 = l mod 256) by (change 255 with (Z.ones 8); by rewrite Z.land_ones by lia).
  rewrite Hs, Ha. destruct (IH (l / 256) (z2b (l mod 256) :: acc)) as (p & -> & Hp & Hlen & _).
  { split; [apply Z.div_pos; lia|]. apply Z.div_lt_upper_bound; lia. }
  exists (p ++ [z2b (l mod 256)]). rewrite <- app_assoc. split_and!; [done| | |].
  - rewrite be_value_app, b2z_z2b, Hp, Z.mod_mod by done. rewrite (Z.div_mod l 256) at 3 by done. lia.
  - rewrite length_app. simpl. lia.
  - rewrite length_app. simpl. lia.
Qed.

Lemma parse_der_len_app len rest : 0 <= len < 2 ^ 63 ->
  parse_der_len (der_len len ++ rest) = Some (len, rest).
Proof.
  intros Hlen. unfold der_len. destruct (decide (len < 128)) as [Hs|Hs].
  - simpl. rewrite b2z_z2b, Z.mod_small by lia. by rewrite decide_True by done.
  - destruct (len_bytes_spec 8 len []) as (p & -> & Hp & Hl8 & Hl1).
    { split; [lia|]. change (256 ^ Z.of_nat 8) with (2 ^ 64). lia. }
    rewrite app_nil_r. specialize (Hl1 ltac:(lia)).
    assert (Hb : b2z (z2b (Z.lor 128 (zlen p))) = 128 + zlen p).
    { unfold zlen. destruct p as [|? [|? [|? [|? [|? [|? [|? [|? [|? ?]]]]]]]]]; simpl in Hl1, Hl8; try lia; reflexivity. }
    cbn [app parse_der_len]. rewrite Hb.
    rewrite decide_False by (unfold zlen; lia).
    replace (Z.to_nat (128 + zlen p - 128)) with (length p) by (unfold zlen; lia).
    rewrite decide_True by (rewrite length_app; lia).
    by rewrite take_app_length, drop_app_length, Hp.
Qed.

Lemma parse_tlv_app tag content rest : zlen content < 2 ^ 63 ->
  parse_tlv tag ([tag] ++ der_len (zlen content) ++ content ++ rest) = Some (content, rest).
Proof.
  intros Hl. unfold parse_tlv. cbn [app]. rewrite decide_True by done.
  rewrite parse_der_len_app by (unfold zlen in *; lia). cbn [mbind option_bind].
  rewrite decide_True by (unfold zlen; rewrite length_app; lia).
  replace (Z.to_nat (zlen content)) with (length content) by (unfold zlen; lia).
  by rewrite take_app_length, drop_app_length.
Qed.

Lemma strip_zeros_spec b : b <> [] ->
  strip_zeros b <> [] /\ be_value (strip_zeros b) = be_value b /\
  (length (strip_zeros b) <= length b)%nat.
Proof.
  induction b as [|x b IH]; [done|]. intros _. destruct b as [|y b]; [done|].
  change (strip_zeros (x :: y :: b)) with (if decide (b2z x = 0) then strip_zeros (y :: b) else x :: y :: b).
  destruct (decide (b2z x = 0)) as [E|E]; [|done].
  destruct IH as (H1 & H2 & H3); [done|]. split_and!; [done| |simpl in *; lia].
  rewrite H2, (be_value_cons x). rewrite E. lia.
Qed.

Lemma top_bit (b : byte) : Z.land (b2z b) 128 = 0 <-> b2z b < 128.
Proof. destruct b; vm_compute; split; congruence. Qed.

Lemma parse_integer_app bytes rest : bytes <> [] -> zlen bytes < 2 ^ 62 ->
  parse_integer (der_integer bytes ++ rest) = Some (be_value bytes, rest).
Proof.
  intros Hne Hlen. destruct (strip_zeros_spec bytes Hne) as (H1 & H2 & H3).
  unfold der_integer. set (b := strip_zeros bytes) in *. destruct b as [|x b'] eqn:Eb; [done|].
  set (pad := negb (bool_decide (Z.land (b2z x) 128 = 0))).
  set (content := (if pad then [Byte.x00] else []) ++ x :: b').
  assert (Hc : zlen (x :: b') + (if pad then 1 else 0) = zlen content).
  { unfold content, zlen. rewrite length_app. destruct pad; simpl; lia. }
  rewrite Hc. fold content. rewrite <- !app_assoc.
  unfold parse_integer. rewrite (parse_tlv_app Byte.x02 content rest).
  2:{ rewrite <- Hc. unfold zlen in *. destruct pad; lia. }
  cbn [mbind option_bind]. unfold content, pad in *. case_bool_decide as Ht; cbn [negb app].
  - apply top_bit in Ht. rewrite decide_True by done. by rewrite H2.
  - rewrite decide_True by done. rewrite (be_value_cons Byte.x00), H2. change (b2z Byte.x00) with 0.
    done.
Qed.

(** the RSA key handed to the signature verifier is the one the JWK names:
    decoding the DER structure gives back the modulus and the exponent as
    non-negative integers, whatever leading zeros or set top bits the JWK's
    byte strings have. *)
Theorem rsa_der_roundtrip n e :
  n <> [] -> e <> [] -> zlen n + zlen e < 2 ^ 60 ->
  parse_rsa_key (rsa_pkcs1_der n e) = Some (be_value n, be_value e).
Proof.
  intros Hn He Hlen. unfold rsa_pkcs1_der, parse_rsa_key.
  assert (Hbody : zlen (der_integer n ++ der_integer e) < 2 ^ 63).
  { assert (H1 : forall b, b <> [] -> zlen b < 2 ^ 60 -> zlen (der_integer b) <= zlen b + 12).
    { intros b Hb Hz. destruct (strip_zeros_spec b Hb) as (_ & _ & H3). unfold der_integer.
      set (c := zlen (strip_zeros b) + _).
      assert (0 <= c < 2 ^ 63) by (unfold c, zlen in *; destruct (match strip_zeros b with [] => _ | _ => _ end); lia).
      assert (zlen (der_len c) <= 9).
      { unfold der_len. case_decide; [done|].
        destruct (len_bytes_spec 8 c []) as (p & -> & _ & Hp & _).
        { split; [lia|]. change (256 ^ Z.of_nat 8) with (2 ^ 64). lia. }
        rewrite app_nil_r. unfold zlen. simpl. lia. }
      unfold zlen in *. rewrite !length_app.
      destruct (match strip_zeros b with [] => _ | _ => _ end); simpl length; lia. }
    unfold zlen in *. rewrite length_app. pose proof (H1 n Hn ltac:(lia)). pose proof (H1 e He ltac:(lia)). lia. }
  pose proof (parse_tlv_app Byte.x30 (der_integer n ++ der_integer e) [] Hbody) as Ht.
  rewrite app_nil_r in Ht. rewrite Ht. cbn [mbind option_bind].
  rewrite parse_integer_app; [|done|unfold zlen in *; lia]. cbn [mbind option_bind].
  rewrite <- (app_nil_r (der_integer e)), parse_integer_app; [|done|unfold zlen in *; lia].
  cbn [mbind option_bind]. by rewrite decide_True.
Qed.

Lemma rsa_der_roundtrip_witness :
  parse_rsa_key (rsa_pkcs1_der [Byte.x00; Byte.xff; Byte.x01] [Byte.x01; Byte.x00; Byte.x01])
  = Some (65281, 65537).
Proof. apply (rsa_der_roundtrip [Byte.x00; Byte.xff; Byte.x01] [Byte.x01; Byte.x00; Byte.x01]); done. Defined.

(** ** Lemmas: the manager *)

(** with the heartbeat scope on, a ping is accepted exactly when its key is
    the base64 HMAC-SHA256 of ["ping:" ++ timestamp] under the static token; a
    server without a static token refuses every ping.  With the scope off, any
    key is accepted. *)
Theorem verify_ping_iff `{RingHash, Base64} a ts key :
  is_ok (verify_ping_privilege_key a ts key) = true <->
  (heartbeats_scope_enabled a = true ->
   exists token, auth_token a = Some token /\
     key = b64_encode (hmac_sha256 (as_bytes token) (as_bytes ("ping:" +:+ dec ts)%string))).
Proof.
  unfold verify_ping_privilege_key, ping_privilege_key.
  destruct (heartbeats_scope_enabled a); cbn [negb]; [|by split].
  destruct (auth_token a) as [token|]; cbn [mbind option_bind ok_or result_bind].
  - unfold guard_ok. destruct (str_eq_ct _ _) eqn:E; simpl.
    + split; [|done]. intros _ _. exists token. split; [done|]. symmetry.
      unfold str_eq_ct in E. by apply constant_time_eq_true, as_bytes_inj in E.
    + split; [done|]. intros Hk. destruct (Hk eq_refl) as (tok & [= <-] & ->).
      unfold str_eq_ct, hmac_text in E.
      by rewrite (proj2 (constant_time_eq_true _ _) eq_refl) in E.
  - split; [done|]. intros Hk. destruct (Hk eq_refl) as (tok & ? & _). done.
Qed.

(** A configuration is accepted exactly when its method is known and complete;
    the keys come from the static token, whatever the method. *)
Lemma auth_new_Ok `{RingHash, Base64, Jwt} c a : auth_new c = Ok a <->
  ((au_method c = "token"%string /\ exists t, au_token c = Some t /\ auth_verifier a = TokenVerifier t) \/
   (au_method c = "oidc"%string /\ exists o, au_oidc c = Some o /\ auth_verifier a = OidcVerifier (oidc_new o))) /\
  encryption_key a = generate_encryption_key <$> au_token c /\ auth_token a = au_token c /\
  additional_scopes a = default [] (au_additional_scopes c).
Proof.
  unfold auth_new. rewrite result_bind_Ok. split.
  - intros (v & Hv & [= <-]). split; [|done]. simpl.
    repeat case_decide; try done.
    + left. split; [done|]. destruct (au_token c); simplify_eq. eauto.
    + right. split; [done|]. destruct (au_oidc c); simplify_eq. eauto.
  - intros (Hm & He & Ht & Hs). exists (auth_verifier a). split.
    + destruct Hm as [(-> & t & -> & ->)|(-> & o & -> & ->)]; [by rewrite decide_True|].
      rewrite decide_False by done. by rewrite decide_True.
    + destruct a. simpl in *. by subst.
Qed.

(** ** Witness: a cached key set *)
Definition toy_base64 : Base64 :=
  {| b64_encode := of_bytes; b64_std_nopad := fun s => Ok (as_bytes s);
     b64_url_nopad := fun s => Ok (as_bytes s); b64_std := fun s => Ok (as_bytes s);
     b64_url := fun s => Ok (as_bytes s) |}.
Definition toy_jwt : Jwt :=
  {| rsa_sha256_verify := fun _ m s => bool_decide (m = s);
     p256_verify := fun _ m s => bool_decide (m = s); parse_json := fun _ => Err "syntax"%string |}.

Definition demo_oidc : OidcConfig :=
  {| oidc_issuer := "https://idp.example/"; oidc_audience := "frp"; oidc_client_id := "c";
     oidc_client_secret := "s"; oidc_token_endpoint_url := "https://idp.example/token";
     oidc_scope := EmptyString; oidc_additional_endpoint_params := ∅;
     oidc_trusted_ca_file := EmptyString; oidc_insecure_skip_verify := false;
     oidc_skip_expiry_check := false; oidc_skip_issuer_check := false |}.
Definition demo_jwks : JwksCache :=
  {| jwks_uri := "https://idp.example/keys"; fetched_at := 0;
     keys := [{| kid := "k1"; jwk_alg := "RS256"; kty := "RSA"; jwk_n := None; jwk_e := None;
                 jwk_x := None; jwk_y := None |}] |}.

Lemma keys_fresh_witness :
  let v := with_cache (oidc_new demo_oidc) (Some demo_jwks) in
  let r : result string (list Jwk) := Ok (keys demo_jwks) in
  (exists c, cache v = Some c /\ r = Ok (keys c) /\ v = v /\
     duration_since (secs 60) (fetched_at c) <= JWKS_TTL /\
     (forall id, Some "k1"%string = Some id -> exists key, key ∈ keys c /\ kid key = id)) \/
  (exists uri ks, r = Ok ks /\
     @fetch_jwks toy_jwt (fun _ _ => Err "down"%string) v uri = Ok ks /\
     v = with_cache v (Some {| jwks_uri := uri; keys := ks; fetched_at := secs 61 |}) /\
     (@discover_jwks_uri toy_jwt (fun _ _ => Err "down"%string) v = Ok uri \/
      exists c, cache v = Some c /\ jwks_uri c = uri)) \/
  (exists e, r = Err e /\ v = v).
Proof.
  intros v r. apply (@keys_fresh toy_base64 toy_jwt (fun _ _ => Err "down"%string) v (secs 60) (secs 61)
    (Some "k1"%string) r v). vm_compute. reflexivity.
Defined.
