(* ===== verification/ServerPlugin.v ===== *)
(** * Server plugins (src/rust_frp_plugin/src/server_plugin.rs)

    The callbacks the server makes to external HTTP services: which plugins
    subscribe to which operation, the request, and how an answer rejects the
    operation or replaces its content.  The HTTP call and the JSON codec of the
    request and the response are arguments; request ids are too. *)
From S2P Require Import Prelude RustStd RustFmt ConfigTypes HttpClient JsonValue.

Definition API_VERSION : string := "0.1.0".
Definition OP_LOGIN : string := "Login".
Definition OP_NEW_PROXY : string := "NewProxy".
Definition OP_CLOSE_PROXY : string := "CloseProxy".
Definition OP_PING : string := "Ping".
Definition OP_NEW_WORK_CONN : string := "NewWorkConn".
Definition OP_NEW_USER_CONN : string := "NewUserConn".
Definition CALLBACK_TIMEOUT : Z := secs 10.

Record PluginRequest := { pq_version : string; pq_op : string; pq_content : value }.

Record PluginResponse := {
  reject : bool;
  pr_reject_reason : string;
  unchange : bool;
  pr_content : option value;
}.

Record HttpPlugin := { pl_name : string; pl_url : string; pl_tls_verify : bool }.

Definition plugin_new (c : HttpPluginConfig) : HttpPlugin :=
  let addr := trim_end_slashes (trim (hp_addr c)) in
  let normalized := if starts_with "http://" addr || starts_with "https://" addr then addr
                    else ("http://" +:+ addr)%string in
  let path := trim (hp_path c) in
  let path := if is_empty path then EmptyString
              else if starts_with "/" path then path else ("/" +:+ path)%string in
  {| pl_name := hp_name c; pl_url := (normalized +:+ path)%string; pl_tls_verify := hp_tls_verify c |}.

(** The plugins of each operation. *)
Record PluginManager := {
  on_login : list HttpPlugin;
  on_new_proxy : list HttpPlugin;
  on_close_proxy : list HttpPlugin;
  on_ping : list HttpPlugin;
  on_new_work_conn : list HttpPlugin;
  on_new_user_conn : list HttpPlugin;
}.

Definition no_plugins : PluginManager := Build_PluginManager [] [] [] [] [] [].

(** One subscription; an unknown operation is only logged. *)
Definition subscribe (p : HttpPlugin) (m : PluginManager) (op : string) : PluginManager :=
  let push (name : string) (l : list HttpPlugin) := if decide (op = name) then l ++ [p] else l in
  Build_PluginManager (push OP_LOGIN (on_login m)) (push OP_NEW_PROXY (on_new_proxy m))
    (push OP_CLOSE_PROXY (on_close_proxy m)) (push OP_PING (on_ping m))
    (push OP_NEW_WORK_CONN (on_new_work_conn m)) (push OP_NEW_USER_CONN (on_new_user_conn m)).

Definition from_configs (configs : list HttpPluginConfig) : PluginManager :=
  foldl (fun m c => foldl (subscribe (plugin_new c)) m (hp_ops c)) no_plugins configs.

Definition no_plugin_at_all (m : PluginManager) : bool :=
  bool_decide (on_login m = [] /\ on_new_proxy m = [] /\ on_close_proxy m = [] /\ on_ping m = []
               /\ on_new_work_conn m = [] /\ on_new_user_conn m = []).

#[global] Instance plugin_eq_dec : EqDecision HttpPlugin.
Proof. solve_decision. Defined.

Definition reject_reason (plugin_name op : string) (r : PluginResponse) : string :=
  if is_empty (trim (pr_reject_reason r))
  then (op +:+ " rejected by plugin [" +:+ plugin_name +:+ "]")%string
  else pr_reject_reason r.

Definition plugin_url (p : HttpPlugin) (op : string) : string :=
  let sep := if contains_char "?"%char (pl_url p) then "&"%string else "?"%string in
  (pl_url p +:+ sep +:+ "version=" +:+ API_VERSION +:+ "&op=" +:+ op)%string.

Section Callbacks.
(** [post_json], and the JSON codec of the two structures. *)
Context (post : string -> list byte -> list (string * string) -> HttpOptions -> result string HttpResponse)
  (encode_request : PluginRequest -> result string (list byte))
  (decode_response : string -> result string PluginResponse).

Definition plugin_handle (p : HttpPlugin) (op : string) (content : value) (req_id : string)
  : result string PluginResponse :=
  body ← map_err (fun e => "failed to encode plugin request: " +:+ e)%string
           (encode_request {| pq_version := API_VERSION; pq_op := op; pq_content := content |});
  let opts := {| tls_verify := pl_tls_verify p; ca_file := None; timeout := CALLBACK_TIMEOUT |} in
  resp ← post (plugin_url p op) body [("X-Frp-Reqid"%string, req_id)] opts;
  if negb (is_success resp) then
    Err ("plugin [" +:+ pl_name p +:+ "] returned HTTP " +:+ dec (status resp) +:+ ": "
           +:+ trim (HttpClient.body resp) +:+ " (reqid=" +:+ req_id +:+ ")")%string
  else map_err (fun e => "invalid plugin response JSON: " +:+ e)%string
         (decode_response (HttpClient.body resp)).

(** The outcome and the content, which keeps the changes made before a refusal. *)
Fixpoint handle_mutable (plugins : list HttpPlugin) (op : string) (content : value) (req_id : string)
  : result string unit * value :=
  match plugins with
  | [] => (Ok tt, content)
  | p :: plugins =>
      match plugin_handle p op content req_id with
      | Err e => (Err ("send " +:+ op +:+ " request to plugin [" +:+ pl_name p +:+ "] error: " +:+ e
                         +:+ " (reqid=" +:+ req_id +:+ ")")%string, content)
      | Ok resp =>
          if reject resp then (Err (reject_reason (pl_name p) op resp), content) else
          let content := if negb (unchange resp) then default content (pr_content resp) else content in
          handle_mutable plugins op content req_id
      end
  end.

(** The notification: every subscriber is told, failures are only logged. *)
Definition close_proxy_notified (m : PluginManager) : list HttpPlugin := on_close_proxy m.

Fixpoint new_user_conn (plugins : list HttpPlugin) (content : value) (req_id : string)
  : result string unit :=
  match plugins with
  | [] => Ok tt
  | p :: plugins =>
      match plugin_handle p OP_NEW_USER_CONN content req_id with
      | Err e => Err ("send NewUserConn request to plugin [" +:+ pl_name p +:+ "] error: " +:+ e)%string
      | Ok resp =>
          if reject resp then Err (reject_reason (pl_name p) OP_NEW_USER_CONN resp)
          else new_user_conn plugins content req_id
      end
  end.

Definition plugin_login (m : PluginManager) := handle_mutable (on_login m) OP_LOGIN.
Definition plugin_new_proxy (m : PluginManager) := handle_mutable (on_new_proxy m) OP_NEW_PROXY.
Definition plugin_ping (m : PluginManager) := handle_mutable (on_ping m) OP_PING.
Definition plugin_new_work_conn (m : PluginManager) :=
  handle_mutable (on_new_work_conn m) OP_NEW_WORK_CONN.

(** ** What a chain of plugins does *)

(** [accepts plugins op c c']: each plugin is asked in order with the content
    its predecessors left, answers without a refusal, and the last leaves [c']. *)
Inductive accepts (op req_id : string) : list HttpPlugin -> value -> value -> Prop :=
| accepts_nil c : accepts op req_id [] c c
| accepts_cons p ps c r c' :
    plugin_handle p op c req_id = Ok r -> reject r = false ->
    accepts op req_id ps (if negb (unchange r) then default c (pr_content r) else c) c' ->
    accepts op req_id (p :: ps) c c'.

(** an operation goes ahead exactly when every subscribed plugin, asked in
    the configured order, answers and does not refuse; each sees the content as
    its predecessors left it, and the last one's content is used.  A plugin that
    cannot be reached counts as a refusal. *)
Theorem handle_mutable_iff plugins op content req_id c' :
  handle_mutable plugins op content req_id = (Ok tt, c') <-> accepts op req_id plugins content c'.
Proof.
  revert content; induction plugins as [|p plugins IH]; intros content; simpl.
  - split; [intros [= <-]; constructor|]. by inversion 1.
  - split.
    + destruct (plugin_handle p op content req_id) as [r|e] eqn:Ep; [|done].
      destruct (reject r) eqn:Er; [done|]. intros E%IH. by econstructor.
    + inversion 1 as [|? ? ? r ? Hp Hr Ha]; subst. rewrite Hp, Hr. by apply IH.
Qed.

(** After a refusal the remaining plugins are not asked: the outcome does not
    depend on them. *)
Lemma handle_mutable_stops ps1 p ps2 ps2' op req_id c c1 r :
  accepts op req_id ps1 c c1 -> plugin_handle p op c1 req_id = Ok r -> reject r = true ->
  handle_mutable (ps1 ++ p :: ps2) op c req_id = handle_mutable (ps1 ++ p :: ps2') op c req_id /\
  handle_mutable (ps1 ++ p :: ps2) op c req_id = (Err (reject_reason (pl_name p) op r), c1).
Proof.
  induction 1 as [c|p' ps c r' c' Hp' Hr' Ha IH]; intros Hp Hr; simpl.
  - by rewrite Hp, Hr.
  - rewrite Hp', Hr'. by apply IH.
Qed.
End Callbacks.

(** Each plugin is asked for exactly the operations it subscribes to. *)
Lemma subscribe_login p m op : on_login (subscribe p m op) = on_login m ++ (if decide (op = OP_LOGIN) then [p] else []).
Proof. unfold subscribe. simpl. case_decide; [done|]. by rewrite app_nil_r. Qed.

Lemma from_configs_login configs :
  on_login (from_configs configs) =
  configs ≫= (fun c => omap (fun op => if decide (op = OP_LOGIN) then Some (plugin_new c) else None) (hp_ops c)).
Proof.
  unfold from_configs.
  assert (Hops : forall p ops m, on_login (foldl (subscribe p) m ops)
    = on_login m ++ omap (fun op => if decide (op = OP_LOGIN) then Some p else None) ops).
  { intros p ops. induction ops as [|op ops IH]; intros m; simpl; [by rewrite app_nil_r|].
    rewrite IH, subscribe_login. destruct (decide (op = OP_LOGIN)); by rewrite <- app_assoc. }
  assert (Hall : forall configs m, on_login (foldl (fun m c => foldl (subscribe (plugin_new c)) m (hp_ops c)) m configs)
    = on_login m ++ (configs ≫= (fun c => omap (fun op => if decide (op = OP_LOGIN) then Some (plugin_new c) else None) (hp_ops c)))).
  { induction configs0 as [|c configs0 IH]; intros m; simpl; [by rewrite app_nil_r|].
    by rewrite IH, Hops, <- app_assoc. }
  apply Hall.
Qed.
