(* ===== verification/Metrics.v ===== *)
(** * Server metrics (src/rust_frp_server/src/metrics.rs)

    The hourly traffic series, the statistics of each proxy, the connection
    guards, the history of closed proxies, and the Prometheus text.  Counters
    are 64-bit [AtomicUsize]s, every [fetch_add]/[fetch_sub] one atomic step.
    An [Arc<ProxyStat>] is a reference into [heap], because connection guards
    keep updating a statistic after its name was removed or re-registered.
    Clock readings are arguments. *)
From S2P Require Import Prelude RustStd RustFmt.

(** ** The hourly series *)
Definition TRAFFIC_HOURS : nat := 24.

Record TrafficSeries := Series {
  base_hour : Z;
  buckets : list (Z * Z);
}.

Definition series_new (now_hour : Z) : TrafficSeries :=
  Series now_hour (replicate TRAFFIC_HOURS (0, 0)).

Definition saturating_add (a b : Z) : Z := Z.min u64_max (a + b).

Definition bucket_add (bytes : Z * Z) (b : Z * Z) : Z * Z :=
  (saturating_add b.1 bytes.1, saturating_add b.2 bytes.2).

(** [None] is a panic ([drain] or the index out of range). *)
Definition series_add (now_hour : Z) (bytes : Z * Z) (s : TrafficSeries) : option TrafficSeries :=
  let s := if decide (now_hour < base_hour s) then series_new now_hour else s in
  let idx := Z.to_nat (now_hour - base_hour s) in
  s_idx ← (if decide (TRAFFIC_HOURS <= idx)%nat then
             let advance := (idx - (TRAFFIC_HOURS - 1))%nat in
             rest ← drain_front advance (buckets s);
             Some (Series (base_hour s + Z.of_nat advance) (resize TRAFFIC_HOURS (0, 0) rest),
                   (TRAFFIC_HOURS - 1)%nat)
           else Some (s, idx));
  bucket ← buckets s_idx.1 !! s_idx.2;
  Some (Series (base_hour s_idx.1) (<[s_idx.2 := bucket_add bytes bucket]> (buckets s_idx.1))).

Definition series_snapshot (s : TrafficSeries) : list Z * list Z :=
  (fst <$> buckets s, snd <$> buckets s).

(** [current_hour] from the seconds since the epoch. *)
Definition current_hour (epoch_secs : Z) : Z := epoch_secs / 3600.

(** ** Per-proxy statistics *)
Record ProxyStat := {
  ps_name : string;
  ps_type : string;
  ps_remote_port : option Z;
  current_conns : Z;
  total_conns : Z;
  bytes_in : Z;
  bytes_out : Z;
  created_at : Z;
  series : TrafficSeries;
}.

Definition stat_new (secs : Z) (name proxy_type : string) (remote_port : option Z) : ProxyStat :=
  {| ps_name := name; ps_type := proxy_type; ps_remote_port := remote_port;
     current_conns := 0; total_conns := 0; bytes_in := 0; bytes_out := 0;
     created_at := secs; series := series_new (current_hour secs) |}.

Definition with_conns (st : ProxyStat) (current total : Z) : ProxyStat :=
  {| ps_name := ps_name st; ps_type := ps_type st; ps_remote_port := ps_remote_port st;
     current_conns := current; total_conns := total; bytes_in := bytes_in st;
     bytes_out := bytes_out st; created_at := created_at st; series := series st |}.

(** The byte counters are bumped before the series may panic; [false] is a panic. *)
Definition add_bytes (secs : Z) (i o : Z) (st : ProxyStat) : ProxyStat * bool :=
  let st' s := {| ps_name := ps_name st; ps_type := ps_type st; ps_remote_port := ps_remote_port st;
                  current_conns := current_conns st; total_conns := total_conns st;
                  bytes_in := wrap_u64 (bytes_in st + i); bytes_out := wrap_u64 (bytes_out st + o);
                  created_at := created_at st; series := s |} in
  match series_add (current_hour secs) (i, o) (series st) with
  | Some s => (st' s, true)
  | None => (st' (series st), false)
  end.

Definition stat_totals (st : ProxyStat) : Z * Z := (bytes_in st, bytes_out st).

(** [ProxyConnGuard::acquire] and its [drop]. *)
Definition guard_acquire (st : ProxyStat) : ProxyStat :=
  with_conns st (wrap_u64 (current_conns st + 1)) (wrap_u64 (total_conns st + 1)).
Definition guard_drop (st : ProxyStat) : ProxyStat :=
  with_conns st (wrap_u64 (current_conns st - 1)) (total_conns st).

(** ** The metrics *)
Record ClosedProxyInfo := {
  cp_name : string;
  cp_type : string;
  cp_user : string;
  cp_client_id : string;
  cp_remote_port : option Z;
  last_start_time : Z;
  last_close_time : Z;
  traffic_in : Z;
  traffic_out : Z;
}.

Definition MAX_CLOSED_PROXIES : nat := 500.

(** The scalar counters. *)
Record Counters := {
  total_connections : Z;
  current_connections : Z;
  total_proxies : Z;
  bytes_sent : Z;
  bytes_received : Z;
  login_failures : Z;
  login_successes : Z;
  tls_rejects : Z;
  work_conn_total : Z;
}.

Record MonitorMetrics := {
  counters : Counters;
  start_time : Z;
  proxy_stats : gmap string nat;      (* name -> reference *)
  heap : gmap nat ProxyStat;          (* reference -> statistic *)
  closed_proxies : list ClosedProxyInfo;
}.

Definition counters_new : Counters := Build_Counters 0 0 0 0 0 0 0 0 0.

Definition metrics_new (now : Z) : MonitorMetrics :=
  {| counters := counters_new; start_time := now; proxy_stats := ∅; heap := ∅;
     closed_proxies := [] |}.

Definition with_counters (m : MonitorMetrics) (c : Counters) : MonitorMetrics :=
  {| counters := c; start_time := start_time m; proxy_stats := proxy_stats m; heap := heap m;
     closed_proxies := closed_proxies m |}.
Definition with_heap (m : MonitorMetrics) (h : gmap nat ProxyStat) : MonitorMetrics :=
  {| counters := counters m; start_time := start_time m; proxy_stats := proxy_stats m; heap := h;
     closed_proxies := closed_proxies m |}.
Definition with_closed (m : MonitorMetrics) (l : list ClosedProxyInfo) : MonitorMetrics :=
  {| counters := counters m; start_time := start_time m; proxy_stats := proxy_stats m;
     heap := heap m; closed_proxies := l |}.

(** Each counter's [fetch_add]. *)
Definition bump_connections (d t : Z) (c : Counters) : Counters :=
  Build_Counters (wrap_u64 (total_connections c + t)) (wrap_u64 (current_connections c + d))
    (total_proxies c) (bytes_sent c) (bytes_received c) (login_failures c) (login_successes c)
    (tls_rejects c) (work_conn_total c).
Definition bump_proxies (c : Counters) : Counters :=
  Build_Counters (total_connections c) (current_connections c) (wrap_u64 (total_proxies c + 1))
    (bytes_sent c) (bytes_received c) (login_failures c) (login_successes c) (tls_rejects c)
    (work_conn_total c).
Definition bump_bytes (sent received : Z) (c : Counters) : Counters :=
  Build_Counters (total_connections c) (current_connections c) (total_proxies c)
    (wrap_u64 (bytes_sent c + sent)) (wrap_u64 (bytes_received c + received)) (login_failures c)
    (login_successes c) (tls_rejects c) (work_conn_total c).
Definition bump_logins (failures successes : Z) (c : Counters) : Counters :=
  Build_Counters (total_connections c) (current_connections c) (total_proxies c) (bytes_sent c)
    (bytes_received c) (wrap_u64 (login_failures c + failures))
    (wrap_u64 (login_successes c + successes)) (tls_rejects c) (work_conn_total c).
Definition bump_wire (rejects works : Z) (c : Counters) : Counters :=
  Build_Counters (total_connections c) (current_connections c) (total_proxies c) (bytes_sent c)
    (bytes_received c) (login_failures c) (login_successes c) (wrap_u64 (tls_rejects c + rejects))
    (wrap_u64 (work_conn_total c + works)).

Definition increment_connections (m : MonitorMetrics) : MonitorMetrics :=
  with_counters m (bump_connections 1 1 (counters m)).
Definition decrement_connections (m : MonitorMetrics) : MonitorMetrics :=
  with_counters m (bump_connections (-1) 0 (counters m)).
Definition incr_login_failures (m : MonitorMetrics) : MonitorMetrics :=
  with_counters m (bump_logins 1 0 (counters m)).
Definition incr_login_successes (m : MonitorMetrics) : MonitorMetrics :=
  with_counters m (bump_logins 0 1 (counters m)).
Definition incr_tls_rejects (m : MonitorMetrics) : MonitorMetrics :=
  with_counters m (bump_wire 1 0 (counters m)).
Definition incr_work_conn_total (m : MonitorMetrics) : MonitorMetrics :=
  with_counters m (bump_wire 0 1 (counters m)).

Definition current_proxies (m : MonitorMetrics) : Z := Z.of_nat (size (proxy_stats m)).

Definition get_proxy_stat (m : MonitorMetrics) (name : string) : option ProxyStat :=
  ref ← proxy_stats m !! name; heap m !! ref.

(** A new [Arc] is a reference that was never used. *)
Definition fresh_ref (m : MonitorMetrics) : nat := fresh (dom (heap m)).

Definition register_proxy_stat (m : MonitorMetrics) (secs : Z) (name proxy_type : string)
    (remote_port : option Z) : nat * MonitorMetrics :=
  let ref := fresh_ref m in
  (ref,
   {| counters := bump_proxies (counters m); start_time := start_time m;
      proxy_stats := <[name := ref]> (proxy_stats m);
      heap := <[ref := stat_new secs name proxy_type remote_port]> (heap m);
      closed_proxies := filter (fun p => cp_name p <> name) (closed_proxies m) |}).

Definition record_proxy_closed (m : MonitorMetrics) (info : ClosedProxyInfo) : MonitorMetrics :=
  with_closed m (fifo_push cp_name MAX_CLOSED_PROXIES (closed_proxies m) info).

Definition list_closed_proxies (m : MonitorMetrics) : list ClosedProxyInfo :=
  stable_sort (fun p q => bool_decide (last_close_time q <= last_close_time p)) (closed_proxies m).

Definition clear_closed_proxies (m : MonitorMetrics) : (Z * Z) * MonitorMetrics :=
  ((zlen (closed_proxies m), 0), with_closed m []).

Definition remove_proxy_stat (m : MonitorMetrics) (name : string) : MonitorMetrics :=
  {| counters := counters m; start_time := start_time m;
     proxy_stats := delete name (proxy_stats m); heap := heap m;
     closed_proxies := closed_proxies m |}.

(** [false] is a panic in [add_bytes]. *)
Definition record_traffic (m : MonitorMetrics) (secs : Z) (name : string) (i o : Z)
  : MonitorMetrics * bool :=
  let m := with_counters m (bump_bytes o i (counters m)) in
  match proxy_stats m !! name with
  | None => (m, true)
  | Some ref =>
      match heap m !! ref with
      | None => (m, true)
      | Some st => let '(st, returned) := add_bytes secs i o st in
                   (with_heap m (<[ref := st]> (heap m)), returned)
      end
  end.

(** ** The Prometheus text *)
Definition newline : string := String (ascii_of_N 10) EmptyString.

(** [s.replace(c, rep)] for a one-character pattern. *)
Fixpoint replace_char (c : ascii) (rep s : string) : string :=
  match s with
  | EmptyString => EmptyString
  | String d s => if decide (d = c) then rep +:+ replace_char c rep s else String d (replace_char c rep s)
  end.

Definition esc (s : string) : string :=
  replace_char (ascii_of_N 10) "\n"
    (replace_char (ascii_of_N 34) ("\" +:+ dquote) (replace_char (ascii_of_N 92) "\\" s)).

Definition sample (kind name help : string) (value : Z) : string :=
  ("# HELP " +:+ name +:+ " " +:+ help +:+ newline +:+ "# TYPE " +:+ name +:+ " " +:+ kind +:+ newline
     +:+ name +:+ " " +:+ dec value +:+ newline)%string.
Definition counter : string -> string -> Z -> string := sample "counter".
Definition gauge : string -> string -> Z -> string := sample "gauge".

Definition proxy_labels (st : ProxyStat) : string :=
  ("{name=" +:+ dquote +:+ esc (ps_name st) +:+ dquote +:+ ",type=" +:+ dquote +:+ esc (ps_type st)
     +:+ dquote +:+ "}")%string.

Definition proxy_sample (kind name labels : string) (value : Z) : string :=
  ("# TYPE " +:+ name +:+ " " +:+ kind +:+ newline +:+ name +:+ labels +:+ " " +:+ dec value
     +:+ newline)%string.

Definition proxy_samples (st : ProxyStat) : string :=
  let labels := proxy_labels st in
  ("# HELP frps_proxy_conns_current Current connections per proxy" +:+ newline
     +:+ proxy_sample "gauge" "frps_proxy_conns_current" labels (current_conns st)
     +:+ proxy_sample "counter" "frps_proxy_conns_total" labels (total_conns st)
     +:+ proxy_sample "counter" "frps_proxy_traffic_bytes_in_total" labels (bytes_in st)
     +:+ proxy_sample "counter" "frps_proxy_traffic_bytes_out_total" labels (bytes_out st))%string.

(** The values of [proxy_stats], in the table's iteration order. *)
Definition stat_values `{HashIter} (m : MonitorMetrics) : list ProxyStat :=
  omap (fun kv => heap m !! kv.2) (hash_iter (proxy_stats m)).

(** [uptime_secs]: whole seconds since [start_time]. *)
Definition uptime_secs (m : MonitorMetrics) (now : Z) : Z := duration_since now (start_time m) / secs 1.

Definition render_prometheus `{HashIter} (m : MonitorMetrics) (now : Z) : string :=
  let c := counters m in
  (gauge "frps_uptime_seconds" "Server uptime in seconds" (uptime_secs m now)
   +:+ counter "frps_connections_total" "Total visitor connections accepted" (total_connections c)
   +:+ gauge "frps_connections_current" "Current visitor connections" (current_connections c)
   +:+ counter "frps_proxies_total" "Total proxies registered" (total_proxies c)
   +:+ gauge "frps_proxies_current" "Current registered proxies" (current_proxies m)
   +:+ counter "frps_traffic_bytes_sent_total"
         "Bytes sent to visitors (accumulated when a bridge finishes)" (bytes_sent c)
   +:+ counter "frps_traffic_bytes_received_total"
         "Bytes received from visitors (accumulated when a bridge finishes)" (bytes_received c)
   +:+ counter "frps_login_successes_total" "Successful client logins" (login_successes c)
   +:+ counter "frps_login_failures_total" "Failed client logins" (login_failures c)
   +:+ counter "frps_tls_rejects_total" "TLS handshake rejections" (tls_rejects c)
   +:+ counter "frps_work_conn_total" "Work connections registered" (work_conn_total c)
   +:+ foldr (fun st out => proxy_samples st +:+ out)%string EmptyString (stat_values m))%string.

(** The numbers of [get_metrics], in the order of its keys. *)
Definition get_metrics (m : MonitorMetrics) (now : Z) : list (string * Z) :=
  let c := counters m in
  [("uptime", uptime_secs m now); ("total_connections", total_connections c);
   ("current_connections", current_connections c); ("total_proxies", total_proxies c);
   ("current_proxies", current_proxies m); ("bytes_sent", bytes_sent c);
   ("bytes_received", bytes_received c)]%string.

(** ** Executions: the operations and the guards that are alive *)
Record metered := {
  mm : MonitorMetrics;
  proxy_guards : list nat;     (* the reference each live guard holds *)
  conn_guards : nat;
}.

Inductive metrics_step : metered -> metered -> Prop :=
| ms_open s : metrics_step s
    {| mm := increment_connections (mm s); proxy_guards := proxy_guards s;
       conn_guards := S (conn_guards s) |}
| ms_close s n : conn_guards s = S n -> metrics_step s
    {| mm := decrement_connections (mm s); proxy_guards := proxy_guards s; conn_guards := n |}
| ms_acquire s name ref st : proxy_stats (mm s) !! name = Some ref -> heap (mm s) !! ref = Some st ->
    metrics_step s
    {| mm := with_heap (mm s) (<[ref := guard_acquire st]> (heap (mm s)));
       proxy_guards := ref :: proxy_guards s; conn_guards := conn_guards s |}
| ms_release s ref st l1 l2 : proxy_guards s = l1 ++ ref :: l2 -> heap (mm s) !! ref = Some st ->
    metrics_step s
    {| mm := with_heap (mm s) (<[ref := guard_drop st]> (heap (mm s)));
       proxy_guards := l1 ++ l2; conn_guards := conn_guards s |}
| ms_register s secs name ty port : metrics_step s
    {| mm := (register_proxy_stat (mm s) secs name ty port).2; proxy_guards := proxy_guards s;
       conn_guards := conn_guards s |}
| ms_remove s name : metrics_step s
    {| mm := remove_proxy_stat (mm s) name; proxy_guards := proxy_guards s;
       conn_guards := conn_guards s |}
| ms_traffic s secs name i o : metrics_step s
    {| mm := (record_traffic (mm s) secs name i o).1; proxy_guards := proxy_guards s;
       conn_guards := conn_guards s |}
| ms_closed s info : metrics_step s
    {| mm := record_proxy_closed (mm s) info; proxy_guards := proxy_guards s;
       conn_guards := conn_guards s |}
| ms_clear s : metrics_step s
    {| mm := (clear_closed_proxies (mm s)).2; proxy_guards := proxy_guards s;
       conn_guards := conn_guards s |}
| ms_login_failed s : metrics_step s
    {| mm := incr_login_failures (mm s); proxy_guards := proxy_guards s; conn_guards := conn_guards s |}
| ms_login_done s : metrics_step s
    {| mm := incr_login_successes (mm s); proxy_guards := proxy_guards s; conn_guards := conn_guards s |}
| ms_tls_reject s : metrics_step s
    {| mm := incr_tls_rejects (mm s); proxy_guards := proxy_guards s; conn_guards := conn_guards s |}
| ms_work_conn s : metrics_step s
    {| mm := incr_work_conn_total (mm s); proxy_guards := proxy_guards s; conn_guards := conn_guards s |}.

Definition metered_new (now : Z) : metered :=
  {| mm := metrics_new now; proxy_guards := []; conn_guards := 0 |}.

(** How many live guards hold a reference. *)
Definition guards_of (ref : nat) (l : list nat) : nat := length (filter (fun r => r = ref) l).

Record metered_inv (s : metered) : Prop := {
  mi_conns : current_connections (counters (mm s)) = wrap_u64 (Z.of_nat (conn_guards s));
  mi_stats : map_Forall (fun ref st =>
               current_conns st = wrap_u64 (Z.of_nat (guards_of ref (proxy_guards s))) /\
               length (buckets (series st)) = TRAFFIC_HOURS) (heap (mm s));
  mi_guards : Forall (fun ref => is_Some (heap (mm s) !! ref)) (proxy_guards s);
  mi_table : map_Forall (fun _ ref => is_Some (heap (mm s) !! ref)) (proxy_stats (mm s));
  mi_closed : (length (closed_proxies (mm s)) <= MAX_CLOSED_PROXIES)%nat /\
              NoDup (cp_name <$> closed_proxies (mm s));
}.

(** ** The abstract ledger: for each hour, the bytes recorded in it *)
Definition ledger (recs : list (Z * (Z * Z))) (h : Z) : Z * Z :=
  foldl (fun b r => if decide (r.1 = h) then bucket_add r.2 b else b) (0, 0) recs.

Definition series_run (s : TrafficSeries) (recs : list (Z * (Z * Z))) : option TrafficSeries :=
  foldl (fun os r => s ← os; series_add r.1 r.2 s) (Some s) recs.

(** The recorded hours do not go back, and no gap reaches two windows. *)
Fixpoint steady (start : Z) (base : Z) (recs : list (Z * (Z * Z))) : Prop :=
  match recs with
  | [] => True
  | (h, _) :: recs => start <= h /\ h - base < 2 * Z.of_nat TRAFFIC_HOURS /\
                 steady h (Z.max base (h - (Z.of_nat TRAFFIC_HOURS - 1))) recs
  end.

(** ** Lemmas: the series *)
Definition bytes_at (s : TrafficSeries) (h : Z) : Z * Z :=
  default (0, 0) (buckets s !! Z.to_nat (h - base_hour s)).

Lemma lookup_resize_default {A} n (x : A) l i : (i < n)%nat ->
  resize n x l !! i = Some (default x (l !! i)).
Proof.
  intros Hi. destruct (decide (i < length l)%nat) as [Hl|Hl].
  - rewrite lookup_resize by done. destruct (lookup_lt_is_Some_2 l i Hl) as [y ->]. done.
  - rewrite lookup_resize_new by lia. by rewrite lookup_ge_None_2 by lia.
Qed.

(** The window after an addition at [now]. *)
Definition base_after (base now : Z) : Z :=
  if decide (now < base) then now else Z.max base (now - (Z.of_nat TRAFFIC_HOURS - 1)).

Lemma bucket_write s idx bytes b : buckets s !! idx = Some b ->
  (bucket ← buckets s !! idx; Some (Series (base_hour s) (<[idx := bucket_add bytes bucket]> (buckets s))))
  = Some (Series (base_hour s) (<[idx := bucket_add bytes b]> (buckets s))).
Proof. by intros ->. Qed.

(** Within two windows of the base the addition succeeds. *)
Lemma series_add_in_window now bytes s :
  length (buckets s) = TRAFFIC_HOURS -> now - base_hour s < 2 * Z.of_nat TRAFFIC_HOURS ->
  exists s', series_add now bytes s = Some s' /\ base_hour s' = base_after (base_hour s) now /\
    length (buckets s') = TRAFFIC_HOURS /\
    forall i, (i < TRAFFIC_HOURS)%nat ->
      let h := base_hour s' + Z.of_nat i in
      let old := if decide (now < base_hour s) then (0, 0) else bytes_at s h in
      buckets s' !! i = Some (if decide (h = now) then bucket_add bytes old else old).
Proof.
  intros Hlen Hnow. unfold series_add, base_after.
  destruct (decide (now < base_hour s)) as [Hlt|Hge].
  - simpl. rewrite Z.sub_diag. simpl. eexists. split; [done|]. simpl. split_and!; [done|done|].
    intros i Hi. destruct (decide (i = 0%nat)) as [->|Hi0].
    + by rewrite decide_True by lia.
    + rewrite decide_False by lia.
      change (<[0%nat:=bucket_add bytes (0, 0)]> (replicate TRAFFIC_HOURS (0, 0)) !! i = Some (0, 0)).
      rewrite list_lookup_insert_ne by done. by apply lookup_replicate_2.
  - destruct (decide (TRAFFIC_HOURS <= Z.to_nat (now - base_hour s))%nat) as [Hadv|Hin].
    + set (a := (Z.to_nat (now - base_hour s) - (TRAFFIC_HOURS - 1))%nat).
      assert (a <= TRAFFIC_HOURS)%nat by (unfold a, TRAFFIC_HOURS in *; lia).
      unfold drain_front. rewrite decide_True by lia. cbn [mbind option_bind fst snd base_hour buckets].
      rewrite lookup_resize_default by (unfold TRAFFIC_HOURS; lia). cbn [mbind option_bind].
      eexists. split; [done|]. cbn [base_hour buckets].
      assert (Hb : base_hour s + Z.of_nat a = Z.max (base_hour s) (now - (Z.of_nat TRAFFIC_HOURS - 1)))
        by (unfold a, TRAFFIC_HOURS in *; lia).
      split_and!; [done|by rewrite length_insert, length_resize|].
      intros i Hi. unfold bytes_at.
      replace (Z.to_nat (base_hour s + Z.of_nat a + Z.of_nat i - base_hour s)) with (a + i)%nat by lia.
      rewrite <- (lookup_drop (buckets s) a i).
      destruct (decide (i = TRAFFIC_HOURS - 1)%nat) as [->|Hi1].
      * rewrite list_lookup_insert_eq by (rewrite length_resize; lia).
        by rewrite decide_True by (unfold a, TRAFFIC_HOURS in *; lia).
      * rewrite list_lookup_insert_ne, lookup_resize_default by lia.
        by rewrite decide_False by (unfold a, TRAFFIC_HOURS in *; lia).
    + destruct (lookup_lt_is_Some_2 (buckets s) (Z.to_nat (now - base_hour s))) as [b Hb]; [lia|].
      cbn [mbind option_bind fst snd]. rewrite Hb. cbn [mbind option_bind].
      eexists. split; [done|]. cbn [base_hour buckets].
      split_and!; [unfold TRAFFIC_HOURS in *; lia|by rewrite length_insert|].
      intros i Hi. unfold bytes_at.
      replace (Z.to_nat (base_hour s + Z.of_nat i - base_hour s)) with i by lia.
      destruct (decide (i = Z.to_nat (now - base_hour s))) as [->|Hi1].
      * rewrite list_lookup_insert_eq by lia. rewrite decide_True by lia. by rewrite Hb.
      * rewrite list_lookup_insert_ne by done. rewrite decide_False by lia.
        destruct (lookup_lt_is_Some_2 (buckets s) i) as [c ->]; [lia|done].
Qed.

Lemma series_add_far now bytes s :
  length (buckets s) = TRAFFIC_HOURS -> base_hour s + 2 * Z.of_nat TRAFFIC_HOURS <= now ->
  series_add now bytes s = None.
Proof.
  intros Hlen Hnow. unfold series_add, TRAFFIC_HOURS in *. rewrite (decide_False (P := now < _)) by lia.
  rewrite decide_True by lia. unfold drain_front. by rewrite decide_False by lia.
Qed.

Lemma series_add_length now bytes s s' :
  length (buckets s) = TRAFFIC_HOURS -> series_add now bytes s = Some s' ->
  length (buckets s') = TRAFFIC_HOURS.
Proof.
  intros Hlen E. destruct (decide (base_hour s + 2 * Z.of_nat TRAFFIC_HOURS <= now)) as [H|H].
  - by rewrite series_add_far in E.
  - destruct (series_add_in_window now bytes s) as (s2 & E2 & _ & Hl & _); [done|lia|].
    by simplify_eq.
Qed.

(** recording traffic in a series of 24 hours panics exactly when the
    clock is 48 hours or more past the first bucket: one idle day is absorbed
    by moving the window, two are not. *)
Theorem series_add_panics_iff now bytes s :
  length (buckets s) = TRAFFIC_HOURS ->
  series_add now bytes s = None <-> base_hour s + 48 <= now.
Proof.
  intros Hlen. split.
  - intros E. destruct (decide (base_hour s + 48 <= now)) as [|H]; [done|].
    destruct (series_add_in_window now bytes s) as (s2 & E2 & _); [done|unfold TRAFFIC_HOURS; lia|].
    congruence.
  - intros H. by apply series_add_far.
Qed.

Lemma ledger_snoc recs r h :
  ledger (recs ++ [r]) h = if decide (r.1 = h) then bucket_add r.2 (ledger recs h) else ledger recs h.
Proof. unfold ledger. by rewrite foldl_snoc. Qed.

Lemma ledger_beyond recs h : Forall (fun r => r.1 < h) recs -> ledger recs h = (0, 0).
Proof.
  unfold ledger. generalize (0, 0). induction recs as [|r recs IH]; intros b; [done|].
  rewrite Forall_cons. intros [Hr Hrs]. simpl. rewrite decide_False by lia. by apply IH.
Qed.

(** A window that agrees with the ledger of the records so far. *)
Definition window_ok (s : TrafficSeries) (recs : list (Z * (Z * Z))) (last : Z) : Prop :=
  length (buckets s) = TRAFFIC_HOURS /\ Forall (fun r => r.1 <= last) recs /\
  base_hour s <= last < base_hour s + Z.of_nat TRAFFIC_HOURS /\
  forall i, (i < TRAFFIC_HOURS)%nat -> buckets s !! i = Some (ledger recs (base_hour s + Z.of_nat i)).

Lemma window_step s recs last h bytes :
  window_ok s recs last -> last <= h -> h - base_hour s < 2 * Z.of_nat TRAFFIC_HOURS ->
  exists s', series_add h bytes s = Some s' /\ window_ok s' (recs ++ [(h, bytes)]) h /\
    base_hour s' = Z.max (base_hour s) (h - (Z.of_nat TRAFFIC_HOURS - 1)).
Proof.
  intros (Hlen & Hrecs & Hlast & Hbuckets) Hle Hfar.
  destruct (series_add_in_window h bytes s) as (s' & E & Hbase & Hlen' & Hb); [done|done|].
  unfold base_after in Hbase. rewrite decide_False in Hbase by lia.
  exists s'. split; [done|]. split; [|done].
  split_and!; [done| |unfold TRAFFIC_HOURS in *; lia|unfold TRAFFIC_HOURS in *; lia|].
  - rewrite Forall_app, Forall_singleton. split; [|simpl; lia].
    eapply Forall_impl; [exact Hrecs|]. simpl. lia.
  - intros i Hi. rewrite (Hb i Hi). cbv zeta. rewrite !(decide_False (P := h < base_hour s)) by lia. rewrite ledger_snoc. cbn [fst snd].
    assert (Hat : bytes_at s (base_hour s' + Z.of_nat i) = ledger recs (base_hour s' + Z.of_nat i)).
    { unfold bytes_at.
      destruct (decide (Z.to_nat (base_hour s' + Z.of_nat i - base_hour s) < TRAFFIC_HOURS)%nat) as [Hin|Hout].
      - rewrite Hbuckets by done. simpl. f_equal. unfold TRAFFIC_HOURS in *. lia.
      - rewrite lookup_ge_None_2 by lia. simpl. symmetry. apply ledger_beyond.
        eapply Forall_impl; [exact Hrecs|]. simpl. unfold TRAFFIC_HOURS in *. lia. }
    rewrite Hat. destruct (decide (base_hour s' + Z.of_nat i = h)) as [Eh|Eh].
    + by rewrite decide_True by done.
    + by rewrite decide_False by congruence.
Qed.

Lemma series_run_window recs : forall s past last,
  window_ok s past last -> steady last (base_hour s) recs ->
  exists s' last', series_run s recs = Some s' /\ window_ok s' (past ++ recs) last'.
Proof.
  induction recs as [|[h b] recs IH]; intros s past last Hs Hst.
  { exists s, last. by rewrite app_nil_r. }
  simpl in Hst. destruct Hst as (H1 & H2 & H3).
  destruct (window_step s past last h b Hs H1 H2) as (s1 & E & Hw & Hb).
  rewrite <- Hb in H3. destruct (IH s1 (past ++ [(h, b)]) h Hw H3) as (s' & l' & Hr & Hw').
  exists s', l'. split; [|by rewrite <- app_assoc in Hw'].
  unfold series_run in *. simpl. by rewrite E.
Qed.

(** the 24-bucket ring refines the unbounded ledger of bytes per hour.
    However many records arrive, as long as the clock does not go back and no
    record comes 48 hours past the window, no addition panics and every bucket
    of the window holds exactly what the ledger has for its hour. *)
Theorem series_refines_ledger created recs :
  steady created created recs ->
  exists s, series_run (series_new created) recs = Some s /\
    forall i, (i < TRAFFIC_HOURS)%nat ->
      buckets s !! i = Some (ledger recs (base_hour s + Z.of_nat i)).
Proof.
  intros Hst. destruct (series_run_window recs (series_new created) [] created) as (s & l & E & Hw).
  - split_and!; [done|constructor|simpl; lia|simpl; unfold TRAFFIC_HOURS; lia|].
    intros i Hi. unfold series_new. cbn [buckets]. by rewrite lookup_replicate_2.
  - done.
  - exists s. split; [done|]. apply Hw.
Qed.

Lemma series_refines_ledger_witness : exists s,
  series_run (series_new 480000) [(480000, (5, 1)); (480030, (7, 2)); (480030, (1, 1)); (480050, (9, 9))] = Some s /\
  forall i, (i < TRAFFIC_HOURS)%nat -> buckets s !! i =
    Some (ledger [(480000, (5, 1)); (480030, (7, 2)); (480030, (1, 1)); (480050, (9, 9))]
            (base_hour s + Z.of_nat i)).
Proof. apply (series_refines_ledger 480000). unfold steady, TRAFFIC_HOURS. lia. Defined.

Lemma series_add_panics_iff_witness :
  series_add 480048 (1, 1) (series_new 480000) = None <-> 480000 + 48 <= 480048.
Proof. apply (series_add_panics_iff 480048 (1, 1) (series_new 480000)). reflexivity. Defined.

(** ** Lemmas: the guards *)
Lemma wrap_u64_add a b : wrap_u64 (wrap_u64 a + b) = wrap_u64 (a + b).
Proof. unfold wrap_u. by rewrite Z.add_mod_idemp_l by done. Qed.

Lemma wrap_u64_sub a b : wrap_u64 (wrap_u64 a - b) = wrap_u64 (a - b).
Proof. apply (wrap_u64_add a (- b)). Qed.

Lemma add_bytes_frame secs i o st st' b : add_bytes secs i o st = (st', b) ->
  current_conns st' = current_conns st /\
  (length (buckets (series st)) = TRAFFIC_HOURS -> length (buckets (series st')) = TRAFFIC_HOURS).
Proof.
  unfold add_bytes. destruct (series_add _ _ _) as [s|] eqn:E; intros [= <- <-]; simpl; split; try done.
  intros Hl. by apply (series_add_length _ _ _ _ Hl E).
Qed.

Lemma guards_of_none m l ref : Forall (fun r => is_Some (heap m !! r)) l -> heap m !! ref = None ->
  guards_of ref l = 0%nat.
Proof.
  intros Hl Hr. unfold guards_of. destruct (filter _ l) as [|x f] eqn:E; [done|].
  assert (Hx : x ∈ filter (fun r => r = ref) l) by (rewrite E; left).
  apply list_elem_of_filter in Hx as [-> Hx]. rewrite Forall_forall in Hl.
  destruct (Hl _ Hx). congruence.
Qed.

Lemma guards_of_app ref l1 l2 : guards_of ref (l1 ++ l2) = (guards_of ref l1 + guards_of ref l2)%nat.
Proof. unfold guards_of. by rewrite filter_app, length_app. Qed.

Lemma guards_of_cons ref r l :
  guards_of ref (r :: l) = ((if decide (r = ref) then 1 else 0) + guards_of ref l)%nat.
Proof. unfold guards_of. rewrite filter_cons. by destruct (decide (r = ref)). Qed.

Lemma is_Some_insert {K A} `{Countable K} (m : gmap K A) k x j :
  is_Some (m !! j) -> is_Some (<[k:=x]> m !! j).
Proof. intros Hj. destruct (decide (j = k)) as [->|]; [rewrite lookup_insert_eq; eauto|by rewrite lookup_insert_ne]. Qed.

(** Replacing the statistic of one reference, with a new set of guards. *)
Lemma inv_set_stat s ref st guards :
  metered_inv s ->
  (current_conns st = wrap_u64 (Z.of_nat (guards_of ref guards)) /\
   length (buckets (series st)) = TRAFFIC_HOURS) ->
  (forall r, r <> ref -> guards_of r guards = guards_of r (proxy_guards s)) ->
  Forall (fun r => is_Some (<[ref:=st]> (heap (mm s)) !! r)) guards ->
  metered_inv {| mm := with_heap (mm s) (<[ref:=st]> (heap (mm s))); proxy_guards := guards;
                 conn_guards := conn_guards s |}.
Proof.
  intros Hs Hst Hg Hf. split; simpl; [apply Hs| |done| |apply Hs].
  - intros r x Hx. destruct (decide (r = ref)) as [->|Hr].
    + rewrite lookup_insert_eq in Hx. by simplify_eq.
    + rewrite lookup_insert_ne in Hx by done. rewrite Hg by done. by apply (mi_stats s Hs).
  - intros name r Hr. apply is_Some_insert. exact (mi_table s Hs _ _ Hr).
Qed.

Lemma fresh_ref_None m : heap m !! fresh_ref m = None.
Proof. apply not_elem_of_dom. unfold fresh_ref. apply is_fresh. Qed.

Lemma inv_counters s c : metered_inv s ->
  current_connections c = current_connections (counters (mm s)) ->
  metered_inv {| mm := with_counters (mm s) c; proxy_guards := proxy_guards s; conn_guards := conn_guards s |}.
Proof. intros [H1 H2 H3 H4 H5] E. split; simpl; try done. congruence. Qed.

Lemma current_wrapped s : metered_inv s ->
  wrap_u64 (current_connections (counters (mm s)) + 0) = current_connections (counters (mm s)).
Proof. intros [E _ _ _ _]. rewrite E, Z.add_0_r. unfold wrap_u. by rewrite Z.mod_mod. Qed.

Lemma register_inv s secs name ty port : metered_inv s ->
  metered_inv {| mm := (register_proxy_stat (mm s) secs name ty port).2; proxy_guards := proxy_guards s;
                 conn_guards := conn_guards s |}.
Proof.
  intros Hs. pose proof (fresh_ref_None (mm s)) as Hfresh. split; simpl; [apply Hs| | | |].
  - intros r x Hx. destruct (decide (r = fresh_ref (mm s))) as [->|Hr].
    + rewrite lookup_insert_eq in Hx. simplify_eq. simpl.
      by rewrite (guards_of_none (mm s)) by (done || apply Hs).
    + rewrite lookup_insert_ne in Hx by done. by apply (mi_stats s Hs).
  - eapply Forall_impl; [apply Hs|]. intros r. apply is_Some_insert.
  - intros n r Hr. destruct (decide (n = name)) as [->|Hn].
    + rewrite lookup_insert_eq in Hr. simplify_eq. rewrite lookup_insert_eq. eauto.
    + rewrite lookup_insert_ne in Hr by done. apply is_Some_insert. exact (mi_table s Hs _ _ Hr).
  - destruct (mi_closed s Hs) as [Hl Hn]. split; [|by apply NoDup_filter_key].
    etransitivity; [apply length_filter|done].
Qed.

Lemma traffic_inv s secs name i o : metered_inv s ->
  metered_inv {| mm := (record_traffic (mm s) secs name i o).1; proxy_guards := proxy_guards s;
                 conn_guards := conn_guards s |}.
Proof.
  intros Hs. pose proof (inv_counters s (bump_bytes o i (counters (mm s))) Hs eq_refl) as Hs1.
  unfold record_traffic. set (s1 := {| mm := with_counters _ _ |}) in *.
  change (with_counters (mm s) (bump_bytes o i (counters (mm s)))) with (mm s1).
  destruct (proxy_stats (mm s1) !! name) as [ref|] eqn:Er; [|done].
  destruct (heap (mm s1) !! ref) as [st|] eqn:Eh; [|done].
  destruct (add_bytes secs i o st) as [st' b] eqn:Ea. simpl.
  apply add_bytes_frame in Ea as [Ec El]. destruct (mi_stats s1 Hs1 _ _ Eh) as [Hc Hlen].
  apply (inv_set_stat s1 ref st'); [done|split; [rewrite Ec; exact Hc|auto]|done|].
  eapply Forall_impl; [apply Hs1|]. intros r. apply is_Some_insert.
Qed.

Lemma metrics_step_inv s s' : metrics_step s s' -> metered_inv s -> metered_inv s'.
Proof.
  intros Hstep Hs. destruct Hstep as
    [s|s n En|s name ref st Et Eh|s ref st l1 l2 Eg Eh| | | | | | | | |].
  - destruct Hs as [H1 H2 H3 H4 H5]. split; simpl; try done.
    rewrite H1, wrap_u64_add. f_equal. lia.
  - destruct Hs as [H1 H2 H3 H4 H5]. split; simpl; try done.
    rewrite H1, wrap_u64_add, En. f_equal. lia.
  - destruct (mi_stats s Hs _ _ Eh) as [Hc Hl].
    apply (inv_set_stat s ref (guard_acquire st) (ref :: proxy_guards s)); [done| | |].
    + unfold guard_acquire. simpl. rewrite guards_of_cons, decide_True, Hc, wrap_u64_add by done.
      split; [f_equal; lia|done].
    + intros r Hr. rewrite guards_of_cons. by rewrite decide_False by congruence.
    + constructor; [rewrite lookup_insert_eq; eauto|].
      eapply Forall_impl; [apply Hs|]. intros r. apply is_Some_insert.
  - destruct (mi_stats s Hs _ _ Eh) as [Hc Hl]. pose proof (mi_guards s Hs) as Hg. rewrite Eg in Hc, Hg.
    apply Forall_app in Hg as [Hg1 [_ Hg2]%Forall_cons].
    apply (inv_set_stat s ref (guard_drop st) (l1 ++ l2)); [done| | |].
    + unfold guard_drop. simpl. rewrite Hc, !guards_of_app, guards_of_cons, decide_True, wrap_u64_sub by done.
      split; [f_equal; lia|done].
    + intros r Hr. rewrite Eg, !guards_of_app, guards_of_cons. by rewrite decide_False by congruence.
    + apply Forall_app. split; (eapply Forall_impl; [eassumption|]); intros r; apply is_Some_insert.
  - by apply register_inv.
  - destruct Hs as [H1 H2 H3 H4 H5]. split; simpl; try done.
    intros n r Hr. apply lookup_delete_Some in Hr as [_ Hr]. exact (H4 _ _ Hr).
  - by apply traffic_inv.
  - destruct Hs as [H1 H2 H3 H4 H5]. split; simpl; try done.
    split; [apply fifo_push_length|apply fifo_push_NoDup, H5].
  - destruct Hs as [H1 H2 H3 H4 H5]. split; simpl; try done. split; [lia|constructor].
  - by apply inv_counters.
  - by apply inv_counters.
  - by apply inv_counters.
  - by apply inv_counters.
Qed.

(** in every execution, whatever the interleaving of registrations,
    removals, traffic and guards: the number of open connections equals the
    number of live guards (modulo 2^64), and so does every statistic's own
    count, also after its name was removed or registered again; the closed
    history stays within 500 entries with one entry per name; no name refers to
    a missing statistic; every series keeps its 24 buckets. *)
Theorem guards_count_connections now s : rtc metrics_step (metered_new now) s -> metered_inv s.
Proof.
  assert (metered_inv (metered_new now)) as H0.
  { split; simpl; try done. split; [lia|constructor]. }
  intros Hs. revert H0. induction Hs as [|s s1 s2 H1 _ IH]; [done|].
  intros H0. by apply IH, (metrics_step_inv _ _ H1).
Qed.

Lemma guards_count_connections_witness :
  let s := {| mm := increment_connections (metrics_new 5); proxy_guards := []; conn_guards := 1 |} in
  metered_inv s.
Proof.
  intros s. apply (guards_count_connections 5 s). eapply rtc_l; [|apply rtc_refl].
  exact (ms_open (metered_new 5)).
Defined.

(** ** Lemmas: escaping *)
Definition esc_char (c : ascii) : string :=
  if decide (c = ascii_of_N 92) then "\\"%string
  else if decide (c = ascii_of_N 34) then ("\" +:+ dquote)%string
  else if decide (c = ascii_of_N 10) then "\n"%string
  else String c EmptyString.

(** The one-pass reference of [esc]. *)
Fixpoint esc_spec (s : string) : string :=
  match s with
  | EmptyString => EmptyString
  | String c s => (esc_char c +:+ esc_spec s)%string
  end.

(** Reads a label value up to its closing quote. *)
Fixpoint parse_label (s : string) : option (string * string) :=
  match s with
  | EmptyString => None
  | String c s =>
      if decide (c = ascii_of_N 34) then Some (EmptyString, s)
      else if decide (c = ascii_of_N 92) then
        match s with
        | EmptyString => None
        | String e s =>
            '(v, rest) ← parse_label s;
            Some (String (if decide (e = "n"%char) then ascii_of_N 10 else e) v, rest)
        end
      else if decide (c = ascii_of_N 10) then None
      else '(v, rest) ← parse_label s; Some (String c v, rest)
  end.

Lemma replace_char_app c rep a b :
  replace_char c rep (a +:+ b) = (replace_char c rep a +:+ replace_char c rep b)%string.
Proof. induction a as [|d a IH]; simpl; [done|]. destruct (decide (d = c)); rewrite IH; [by rewrite str_app_assoc|done]. Qed.

Lemma esc_eq s : esc s = esc_spec s.
Proof.
  unfold esc. induction s as [|c s IH]; [done|].
  cbn [replace_char esc_spec]. unfold esc_char. rewrite <- IH.
  destruct (decide (c = ascii_of_N 92)) as [->|H1].
  { rewrite !replace_char_app. done. }
  cbn [replace_char]. destruct (decide (c = ascii_of_N 34)) as [->|H2].
  { rewrite !replace_char_app. done. }
  cbn [replace_char]. by destruct (decide (c = ascii_of_N 10)) as [->|H3].
Qed.

(** a proxy name cannot break out of its label: whatever characters the
    name has, reading the escaped text up to the first unescaped quote gives
    the name back and leaves exactly what follows. *)
Theorem label_roundtrip name rest :
  parse_label (esc name +:+ dquote +:+ rest)%string = Some (name, rest).
Proof.
  rewrite esc_eq. induction name as [|c s IH]; [done|].
  cbn [esc_spec]. unfold esc_char. rewrite <- str_app_assoc.
  destruct (decide (c = ascii_of_N 92)) as [->|H1]; [simpl in *; by rewrite IH|].
  destruct (decide (c = ascii_of_N 34)) as [->|H2]; [simpl in *; by rewrite IH|].
  destruct (decide (c = ascii_of_N 10)) as [->|H3]; [simpl in *; by rewrite IH|].
  change (String c EmptyString +:+ ?x)%string with (String c x).
  cbn [parse_label]. rewrite !decide_False by done. by rewrite IH.
Qed.

(** ** Lemmas: the closed history *)
Lemma list_closed_perm m : list_closed_proxies m ≡ₚ closed_proxies m.
Proof. apply stable_sort_perm. Qed.

Lemma register_clears_history m secs name ty port :
  name ∉ cp_name <$> closed_proxies (register_proxy_stat m secs name ty port).2.
Proof.
  simpl. rewrite list_elem_of_fmap. intros (p & E & [Hp _]%list_elem_of_filter). congruence.
Qed.

Lemma record_traffic_counts m secs name i o :
  let m' := (record_traffic m secs name i o).1 in
  bytes_received (counters m') = wrap_u64 (bytes_received (counters m) + i) /\
  bytes_sent (counters m') = wrap_u64 (bytes_sent (counters m) + o).
Proof.
  simpl. unfold record_traffic. simpl.
  destruct (proxy_stats m !! name) as [ref|]; [|done]. destruct (heap m !! ref) as [st|]; [|done].
  by destruct (add_bytes secs i o st).
Qed.
