(* ===== verification/ControlManager.v ===== *)
(** * The session registry (src/rust_frp_server/src/control.rs, [ControlManager])

    Sessions are known by the run id of their login: the channel that carries
    messages to the client, the authentication snapshot, the client information,
    and the signal that makes the session stop.  Each table has its own lock;
    every lock-protected section is one definition.  [kick_same_client] waits for
    the old session between its sections, and what the other tasks do meanwhile
    is the argument [await].  Channels, snapshots and signals are opaque
    handles; [base64] and clock readings are arguments. *)
From S2P Require Import Prelude RustStd ConfigTypes Throttle.

Definition MAX_OFFLINE_CLIENTS : nat := 200.

Record ClientInfo := {
  ci_run_id : string;
  ci_client_id : string;
  ci_user : string;
  ci_version : string;
  ci_hostname : string;
  ci_client_ip : string;
  ci_wire_protocol : string;
  ci_cert_fingerprint : option string;
  connected_at : Z;
  last_heartbeat : Z;
  first_connected_at : Z;
  disconnected_at : option Z;
  online : bool;
}.

Record ClientRegistration := {
  cr_run_id : string;
  cr_client_id : string;
  cr_user : string;
  cr_version : string;
  cr_hostname : string;
  cr_client_ip : string;
  cr_wire_protocol : string;
  cr_cert_fingerprint : option string;
}.

(** [ClientInfo::key]; [b64] is the URL-safe encoder. *)
Definition client_key (b64 : string -> string) (c : ClientInfo) : string :=
  b64 (ci_user c +:+ "|" +:+ ci_client_id c +:+ "|" +:+ ci_run_id c)%string.

Definition degraded_client_id_reason (client_id hostname run_id : string) : option string :=
  if is_empty client_id then
    Some ("client_id is EMPTY (hostname='" +:+ hostname +:+ "', run_id='" +:+ run_id +:+ "')")%string
  else if decide (client_id = hostname) then
    Some ("client_id '" +:+ client_id +:+ "' equals its hostname")%string
  else None.

(** The entry [add_client] creates; [now] and [ts] are its two clock readings. *)
Definition new_client (reg : ClientRegistration) (now ts : Z) : ClientInfo :=
  {| ci_run_id := cr_run_id reg; ci_client_id := cr_client_id reg; ci_user := cr_user reg;
     ci_version := cr_version reg; ci_hostname := cr_hostname reg;
     ci_client_ip := cr_client_ip reg; ci_wire_protocol := cr_wire_protocol reg;
     ci_cert_fingerprint := cr_cert_fingerprint reg;
     connected_at := now; last_heartbeat := now; first_connected_at := ts;
     disconnected_at := None; online := true |}.

Definition set_offline (c : ClientInfo) (ts : Z) : ClientInfo :=
  {| ci_run_id := ci_run_id c; ci_client_id := ci_client_id c; ci_user := ci_user c;
     ci_version := ci_version c; ci_hostname := ci_hostname c; ci_client_ip := ci_client_ip c;
     ci_wire_protocol := ci_wire_protocol c; ci_cert_fingerprint := ci_cert_fingerprint c;
     connected_at := connected_at c; last_heartbeat := last_heartbeat c;
     first_connected_at := first_connected_at c; disconnected_at := Some ts; online := false |}.

Definition set_heartbeat (c : ClientInfo) (now : Z) : ClientInfo :=
  {| ci_run_id := ci_run_id c; ci_client_id := ci_client_id c; ci_user := ci_user c;
     ci_version := ci_version c; ci_hostname := ci_hostname c; ci_client_ip := ci_client_ip c;
     ci_wire_protocol := ci_wire_protocol c; ci_cert_fingerprint := ci_cert_fingerprint c;
     connected_at := connected_at c; last_heartbeat := now;
     first_connected_at := first_connected_at c; disconnected_at := disconnected_at c;
     online := online c |}.

(** The certificate rule: both sides have a fingerprint and they differ. *)
Definition kick_refused (require_same_cert : bool) (old_fp requester_fp : option string) : bool :=
  require_same_cert &&
  match old_fp, requester_fp with
  | Some old_fp, Some new_fp => negb (bool_decide (old_fp = new_fp))
  | _, _ => false
  end.

Section manager.
Context {Chan Auth Signal : Type} `{HashIter}.

Record ControlManager := {
  msg_channels : gmap string Chan;
  auth_managers : gmap string Auth;
  clients : gmap string ClientInfo;
  offline_clients : list ClientInfo;
  kick_signals : gmap string Signal;
  login_throttle : option LoginThrottle;
  client_id_policy : ClientIdPolicy;
  kick_require_same_cert : bool;
}.

Definition with_security (t : option LoginThrottle) (p : ClientIdPolicy) (same_cert : bool)
  : ControlManager :=
  {| msg_channels := ∅; auth_managers := ∅; clients := ∅; offline_clients := [];
     kick_signals := ∅; login_throttle := t; client_id_policy := p;
     kick_require_same_cert := same_cert |}.

Definition cm_new : ControlManager := with_security None Warn false.

Definition with_tables (m : ControlManager) (ch : gmap string Chan) (au : gmap string Auth)
    (cl : gmap string ClientInfo) (off : list ClientInfo) (ks : gmap string Signal)
  : ControlManager :=
  {| msg_channels := ch; auth_managers := au; clients := cl; offline_clients := off;
     kick_signals := ks; login_throttle := login_throttle m;
     client_id_policy := client_id_policy m;
     kick_require_same_cert := kick_require_same_cert m |}.

Definition with_throttle (m : ControlManager) (t : option LoginThrottle) : ControlManager :=
  {| msg_channels := msg_channels m; auth_managers := auth_managers m; clients := clients m;
     offline_clients := offline_clients m; kick_signals := kick_signals m; login_throttle := t;
     client_id_policy := client_id_policy m;
     kick_require_same_cert := kick_require_same_cert m |}.

Definition add (m : ControlManager) (run_id : string) (msg_tx : Chan) : ControlManager :=
  with_tables m (<[run_id := msg_tx]> (msg_channels m)) (auth_managers m) (clients m)
    (offline_clients m) (kick_signals m).

(** The entry that leaves moves to the offline history. *)
Definition remove (m : ControlManager) (run_id : string) (ts : Z) : ControlManager :=
  let off := match clients m !! run_id with
             | Some info => fifo_push ci_run_id MAX_OFFLINE_CLIENTS (offline_clients m)
                              (set_offline info ts)
             | None => offline_clients m
             end in
  with_tables m (delete run_id (msg_channels m)) (delete run_id (auth_managers m))
    (delete run_id (clients m)) off (delete run_id (kick_signals m)).

Definition register_kick (m : ControlManager) (run_id : string) (signal : Signal) : ControlManager :=
  with_tables m (msg_channels m) (auth_managers m) (clients m) (offline_clients m)
    (<[run_id := signal]> (kick_signals m)).

Definition set_auth_manager (m : ControlManager) (run_id : string) (auth : Auth) : ControlManager :=
  with_tables m (msg_channels m) (<[run_id := auth]> (auth_managers m)) (clients m)
    (offline_clients m) (kick_signals m).

Definition add_client (m : ControlManager) (reg : ClientRegistration) (now ts : Z) : ControlManager :=
  let info := new_client reg now ts in
  with_tables m (msg_channels m) (auth_managers m) (<[cr_run_id reg := info]> (clients m))
    (filter (fun c => ci_run_id c <> ci_run_id info) (offline_clients m)) (kick_signals m).

Definition update_heartbeat (m : ControlManager) (run_id : string) (now : Z) : ControlManager :=
  with_tables m (msg_channels m) (auth_managers m)
    (alter (fun c => set_heartbeat c now) run_id (clients m)) (offline_clients m) (kick_signals m).

Definition clear_offline_clients (m : ControlManager) : Z * ControlManager :=
  (zlen (offline_clients m),
   with_tables m (msg_channels m) (auth_managers m) (clients m) [] (kick_signals m)).

Definition get_msg_tx (m : ControlManager) (run_id : string) : option Chan := msg_channels m !! run_id.
Definition get_auth_manager (m : ControlManager) (run_id : string) : option Auth :=
  auth_managers m !! run_id.
Definition get_clients (m : ControlManager) : list ClientInfo := snd <$> hash_iter (clients m).
Definition get_all_clients (m : ControlManager) : list ClientInfo :=
  get_clients m ++ offline_clients m.

Definition get_client_by_key (b64 : string -> string) (m : ControlManager) (key : string)
  : option ClientInfo :=
  match list_find (fun c => client_key b64 c = key) (get_clients m) with
  | Some (_, c) => Some c
  | None => snd <$> list_find (fun c => client_key b64 c = key) (offline_clients m)
  end.

Definition get_user_by_run_id (m : ControlManager) (run_id : string) : option string :=
  ci_user <$> clients m !! run_id.

(** ** Kicking *)
Definition kick_candidates (m : ControlManager) (client_id new_run_id : string)
  : list (string * option string) :=
  omap (fun c => if decide (ci_client_id c = client_id /\ ci_run_id c <> new_run_id)
                 then Some (ci_run_id c, ci_cert_fingerprint c) else None) (get_clients m).

Definition take_kick_signal (m : ControlManager) (run_id : string) : option Signal * ControlManager :=
  (kick_signals m !! run_id,
   with_tables m (msg_channels m) (auth_managers m) (clients m) (offline_clients m)
     (delete run_id (kick_signals m))).

Definition forget_session (m : ControlManager) (run_id : string) : ControlManager :=
  with_tables m (delete run_id (msg_channels m)) (delete run_id (auth_managers m))
    (delete run_id (clients m)) (offline_clients m) (kick_signals m).

(** The registry is part of the state [S] the other tasks work on; [await sig
    old s] is that state after the signal was sent and the wait for the old
    session ended (it finished, or five seconds passed). *)
Section kick.
Context {S : Type} (cm : S -> ControlManager) (set_cm : S -> ControlManager -> S)
  (await : Signal -> string -> S -> S).

Definition kick_session (old_run_id : string) (s : S) : S :=
  let '(signal, m) := take_kick_signal (cm s) old_run_id in
  let s := set_cm s m in
  let s := match signal with Some signal => await signal old_run_id s | None => s end in
  set_cm s (forget_session (cm s) old_run_id).

Fixpoint kick_sessions (requester_fp : option string) (old_sessions : list (string * option string))
    (s : S) : list string * S :=
  match old_sessions with
  | [] => ([], s)
  | (old_run_id, old_fp) :: old_sessions =>
      if kick_refused (kick_require_same_cert (cm s)) old_fp requester_fp
      then kick_sessions requester_fp old_sessions s
      else
        let s := kick_session old_run_id s in
        let '(kicked, s) := kick_sessions requester_fp old_sessions s in
        (old_run_id :: kicked, s)
  end.

Definition kick_same_client (client_id new_run_id : string) (requester_fp : option string) (s : S)
  : list string * S :=
  kick_sessions requester_fp (kick_candidates (cm s) client_id new_run_id) s.
End kick.

(** ** The invariant of the tables *)
Record cm_inv (m : ControlManager) : Prop := {
  ci_keyed : map_Forall (fun id c => ci_run_id c = id /\ online c = true /\ disconnected_at c = None)
               (clients m);
  ci_history : Forall (fun c => online c = false /\ is_Some (disconnected_at c)) (offline_clients m);
  ci_capacity : (length (offline_clients m) <= MAX_OFFLINE_CLIENTS)%nat;
  ci_unique : NoDup (ci_run_id <$> offline_clients m);
  ci_disjoint : forall id, is_Some (clients m !! id) -> id ∉ ci_run_id <$> offline_clients m;
}.

(** The critical sections, in any order and by any task. *)
Inductive cm_op :=
| CAdd (run_id : string) (tx : Chan)
| CRemove (run_id : string) (ts : Z)
| CRegisterKick (run_id : string) (s : Signal)
| CSetAuth (run_id : string) (a : Auth)
| CAddClient (reg : ClientRegistration) (now ts : Z)
| CHeartbeat (run_id : string) (now : Z)
| CClearOffline
| CTakeSignal (run_id : string)
| CForget (run_id : string)
| CThrottle (t : option LoginThrottle).

Definition cm_step (m : ControlManager) (o : cm_op) : ControlManager :=
  match o with
  | CAdd r tx => add m r tx
  | CRemove r ts => remove m r ts
  | CRegisterKick r s => register_kick m r s
  | CSetAuth r a => set_auth_manager m r a
  | CAddClient reg now ts => add_client m reg now ts
  | CHeartbeat r now => update_heartbeat m r now
  | CClearOffline => (clear_offline_clients m).2
  | CTakeSignal r => (take_kick_signal m r).2
  | CForget r => forget_session m r
  | CThrottle t => with_throttle m t
  end.
End manager.
Arguments ControlManager Chan Auth Signal : clear implicits.

Section laws.
Context {Chan Auth Signal : Type} `{!HashIter, !HashIterLaws}.
Implicit Types m : ControlManager Chan Auth Signal.

Lemma inv_same_clients m m' : cm_inv m ->
  clients m' = clients m -> offline_clients m' = offline_clients m -> cm_inv m'.
Proof. intros [H1 H2 H3 H4 H5] E1 E2. split; rewrite ?E1, ?E2; done. Qed.

Lemma inv_delete_client m m' id : cm_inv m ->
  clients m' = delete id (clients m) -> offline_clients m' = offline_clients m -> cm_inv m'.
Proof.
  intros [H1 H2 H3 H4 H5] E1 E2. split; rewrite ?E1, ?E2; try done.
  - by apply map_Forall_delete.
  - intros j [c Hc]. apply H5. apply lookup_delete_Some in Hc as [_ Hc]. eauto.
Qed.

Lemma remove_inv m id ts : cm_inv m -> cm_inv (remove m id ts).
Proof.
  intros Hm. unfold remove. destruct (clients m !! id) as [c|] eqn:Ec.
  2:{ by apply (inv_delete_client m _ id). }
  destruct Hm as [H1 H2 H3 H4 H5]. destruct (H1 _ _ Ec) as (Eid & _ & _). split; simpl.
  - by apply map_Forall_delete.
  - apply Forall_forall. intros x [->|[Hx _]]%fifo_push_elem; [simpl; eauto|].
    rewrite Forall_forall in H2. by apply H2.
  - apply fifo_push_length.
  - by apply fifo_push_NoDup.
  - intros j [d Hd] Hj. apply lookup_delete_Some in Hd as [Hne Hd].
    apply list_elem_of_fmap in Hj as (x & -> & [->|[Hx _]]%fifo_push_elem).
    + simpl in Hne. congruence.
    + destruct (H5 (ci_run_id x)); [eauto|]. apply list_elem_of_fmap. eauto.
Qed.

Lemma add_client_inv m reg now ts : cm_inv m -> cm_inv (add_client m reg now ts).
Proof.
  intros [H1 H2 H3 H4 H5]. split; simpl.
  - by apply map_Forall_insert_2.
  - apply Forall_forall. intros x [_ Hx]%list_elem_of_filter. rewrite Forall_forall in H2. by apply H2.
  - etransitivity; [apply length_filter|done].
  - by apply NoDup_filter_key.
  - intros j Hj Hin. apply list_elem_of_fmap in Hin as (x & -> & [Hx Hin]%list_elem_of_filter).
    destruct (decide (ci_run_id x = cr_run_id reg)) as [E|E]; [done|].
    rewrite lookup_insert_ne in Hj by congruence. destruct (H5 _ Hj). apply list_elem_of_fmap. eauto.
Qed.

Lemma heartbeat_inv m id now : cm_inv m -> cm_inv (update_heartbeat m id now).
Proof.
  intros [H1 H2 H3 H4 H5]. split; simpl; try done.
  - intros j c Hc. apply lookup_alter_Some in Hc as [(-> & d & Hd & ->)|[_ Hc]]; [|by apply H1].
    simpl. by apply H1.
  - intros j [c Hc]. apply H5.
    apply lookup_alter_Some in Hc as [(-> & d & Hd & ->)|[_ Hc]]; eauto.
Qed.

Lemma cm_step_inv m o : cm_inv m -> cm_inv (cm_step m o).
Proof.
  intros Hm. destruct o; simpl; try (by apply (inv_same_clients m)).
  - by apply remove_inv.
  - by apply add_client_inv.
  - by apply heartbeat_inv.
  - destruct Hm as [H1 H2 H3 H4 H5]. split; simpl; try done; [lia|constructor|].
    intros j _ Hj. by apply elem_of_nil in Hj.
  - by apply (inv_delete_client m _ run_id).
Qed.

Lemma with_security_inv t p same_cert :
  cm_inv (with_security t p same_cert : ControlManager Chan Auth Signal).
Proof. split; simpl; try done; [lia|constructor|]. intros id [c Hc]. done. Qed.

Lemma cm_steps_inv ops : forall m, cm_inv m -> cm_inv (foldl cm_step m ops).
Proof. induction ops as [|o ops IH]; intros m Hm; simpl; [done|]. by apply IH, cm_step_inv. Qed.

(** C40: after any sequence of the registry's critical sections, by any number
    of tasks: every online entry is stored under its own run id and marked
    online; the offline history has at most 200 entries, one per run id, all
    marked offline with a time; and no run id is both online and in the history. *)
Theorem registry_invariant t p same_cert (ops : list cm_op) :
  cm_inv (foldl cm_step (with_security t p same_cert : ControlManager Chan Auth Signal) ops).
Proof. apply cm_steps_inv, with_security_inv. Qed.

(** ** Kicking *)
Lemma kick_candidates_elem m client_id new_run_id old fp :
  (old, fp) ∈ kick_candidates m client_id new_run_id <->
  exists id c, clients m !! id = Some c /\ ci_client_id c = client_id /\ ci_run_id c = old /\
    old <> new_run_id /\ ci_cert_fingerprint c = fp.
Proof.
  unfold kick_candidates, get_clients. rewrite list_elem_of_omap. split.
  - intros (c & Hc & E). apply list_elem_of_fmap in Hc as ([id c'] & -> & Hc%hash_iter_elem).
    case_decide; simplify_eq. simpl in *. exists id, c'. naive_solver.
  - intros (id & c & Hc & E1 & E2 & E3 & E4). exists c. split.
    + apply list_elem_of_fmap. exists (id, c). split; [done|]. by apply hash_iter_elem.
    + by rewrite decide_True by (subst; done); subst.
Qed.

(** What every table says about one run id. *)
Definition session_of m (id : string) : option Chan * option Auth * option ClientInfo :=
  (msg_channels m !! id, auth_managers m !! id, clients m !! id).

Lemma session_of_forget m old id :
  session_of (forget_session m old) id = if decide (id = old) then (None, None, None) else session_of m id.
Proof.
  unfold session_of, forget_session. simpl. case_decide as E.
  - subst. by rewrite !lookup_delete_eq.
  - by rewrite !lookup_delete_ne by done.
Qed.

Section kick.
Context (await : Signal -> string -> ControlManager Chan Auth Signal -> ControlManager Chan Auth Signal).
Let put (_ m : ControlManager Chan Auth Signal) : ControlManager Chan Auth Signal := m.

(** While a session is awaited only its own entries change, and the policy stays. *)
Context (await_frame : forall sig old s id, id <> old ->
  session_of (await sig old s) id = session_of s id)
  (await_policy : forall sig old s, kick_require_same_cert (await sig old s) = kick_require_same_cert s).

Lemma kick_session_spec old s :
  kick_require_same_cert (kick_session id put await old s) = kick_require_same_cert s /\
  forall i, session_of (kick_session id put await old s) i =
    if decide (i = old) then (None, None, None) else session_of s i.
Proof.
  unfold kick_session, take_kick_signal, put. simpl.
  destruct (kick_signals s !! old) as [sig|]; simpl; (split; [by rewrite ?await_policy|]); intros i;
    unfold id; rewrite session_of_forget; case_decide; try done. by rewrite await_frame by done.
Qed.

Lemma kick_sessions_spec fp l : forall s kicked s',
  kick_sessions id put await fp l s = (kicked, s') ->
  kicked = fst <$> filter (fun o => kick_refused (kick_require_same_cert s) o.2 fp = false) l /\
  forall i, session_of s' i = if decide (i ∈ kicked) then (None, None, None) else session_of s i.
Proof.
  induction l as [|[old ofp] l IH]; intros s kicked s' E; simpl in E.
  { simplify_eq. split; [done|]. intros i. by rewrite decide_False by (apply not_elem_of_nil). }
  rewrite filter_cons. simpl. unfold id in E at 1.
  destruct (kick_refused (kick_require_same_cert s) ofp fp) eqn:Er.
  { rewrite decide_False by done. by apply IH. }
  rewrite decide_True by done.
  destruct (kick_session_spec old s) as [Hp Hs].
  destruct (kick_sessions id put await fp l (kick_session id put await old s)) as [k s2] eqn:Ek.
  simplify_eq. apply IH in Ek as [-> Hk]. rewrite Hp in *. split; [done|].
  intros i. rewrite Hk, Hs. repeat case_decide; set_solver.
Qed.
End kick.

(** What the certificate rule lets through. *)
Definition same_cert_or_free (require_same_cert : bool) (old_fp requester_fp : option string) : Prop :=
  require_same_cert = true -> forall o n, old_fp = Some o -> requester_fp = Some n -> o = n.

Lemma kick_refused_false require old_fp fp :
  kick_refused require old_fp fp = false <-> same_cert_or_free require old_fp fp.
Proof.
  unfold kick_refused, same_cert_or_free. destruct require, old_fp as [o|], fp as [n|]; simpl; try naive_solver.
  rewrite negb_false_iff, bool_decide_eq_true. naive_solver.
Qed.

Lemma kick_same_client_spec await m client_id new_run_id fp :
  cm_inv m ->
  (forall sig old s i, i <> old -> session_of (await sig old s) i = session_of s i) ->
  (forall sig old s, kick_require_same_cert (await sig old s) = kick_require_same_cert s) ->
  let '(kicked, m') := kick_same_client id (fun _ m => m) await client_id new_run_id fp m in
  (forall i, i ∈ kicked <-> exists c, clients m !! i = Some c /\ ci_client_id c = client_id /\
     i <> new_run_id /\ kick_refused (kick_require_same_cert m) (ci_cert_fingerprint c) fp = false) /\
  (forall i, session_of m' i = if decide (i ∈ kicked) then (None, None, None) else session_of m i).
Proof.
  intros Hinv Hframe Hpol. unfold kick_same_client.
  destruct (kick_sessions _ _ _ _ _ _) as [kicked m'] eqn:E.
  destruct (kick_sessions_spec await Hframe Hpol _ _ _ _ _ E) as [-> Hs]. split; [|done].
  intros i. rewrite list_elem_of_fmap. split.
  - intros ([old ofp] & -> & [Hr Hc]%list_elem_of_filter). simpl in *.
    apply kick_candidates_elem in Hc as (j & c & Hj & E1 & <- & E3 & <-).
    destruct (ci_keyed m Hinv _ _ Hj) as [Ej _]. simpl in Ej. subst j. eauto.
  - intros (c & Hc & E1 & E2 & E3). destruct (ci_keyed m Hinv _ _ Hc) as [Ej _]. simpl in Ej.
    exists (i, ci_cert_fingerprint c). split; [done|]. apply list_elem_of_filter. split; [done|].
    apply kick_candidates_elem. exists i, c. done.
Qed.

(** a login removes exactly the sessions it may remove.  If, while it waits
    for an old session, only that session's own entries change, then the kicked
    run ids are those of the other online sessions of the same client id that
    the certificate rule does not protect; afterwards they have no channel, no
    authentication snapshot and no client entry, and every other session's
    entries are untouched. *)
Theorem kick_exact await m client_id new_run_id fp :
  cm_inv m ->
  (forall sig old s i, i <> old -> session_of (await sig old s) i = session_of s i) ->
  (forall sig old s, kick_require_same_cert (await sig old s) = kick_require_same_cert s) ->
  let '(kicked, m') := kick_same_client id (fun _ m => m) await client_id new_run_id fp m in
  (forall i, i ∈ kicked <-> exists c, clients m !! i = Some c /\ ci_client_id c = client_id /\
     i <> new_run_id /\ same_cert_or_free (kick_require_same_cert m) (ci_cert_fingerprint c) fp) /\
  (forall i, session_of m' i = if decide (i ∈ kicked) then (None, None, None) else session_of m i).
Proof.
  intros Hinv Hf Hp. pose proof (kick_same_client_spec await m client_id new_run_id fp Hinv Hf Hp) as Hs.
  destruct (kick_same_client _ _ _ _ _ _ _) as [kicked m']. destruct Hs as [Hk Hs]. split; [|done].
  intros i. rewrite Hk. by setoid_rewrite kick_refused_false.
Qed.
End laws.

(** ** Two logins of one client at the same time *)
Section race.
Context {Chan Auth Signal : Type} `{!HashIter, !HashIterLaws}.
Implicit Types m : ControlManager Chan Auth Signal.

(** The first half of a login: the client entry and the snapshot. *)
Definition login_register m (reg : ClientRegistration) (a : Auth) (now ts : Z)
  : ControlManager Chan Auth Signal :=
  set_auth_manager (add_client m reg now ts) (cr_run_id reg) a.

(** A kicked session stops, and the task that ran it removes it. *)
Definition stops (ts : Z) (_ : Signal) (old : string) m : ControlManager Chan Auth Signal :=
  remove m old ts.

Lemma stops_frame ts sig old m i : i <> old -> session_of (stops ts sig old m) i = session_of m i.
Proof.
  intros Hi. unfold session_of, stops, remove. simpl. by rewrite !lookup_delete_ne by done.
Qed.

Lemma login_register_session m reg a now ts i :
  session_of (login_register m reg a now ts) i =
    if decide (i = cr_run_id reg) then (msg_channels m !! i, Some a, Some (new_client reg now ts))
    else session_of m i.
Proof.
  unfold session_of, login_register. simpl. case_decide as E.
  - subst. by rewrite !lookup_insert_eq.
  - by rewrite !lookup_insert_ne by done.
Qed.

Lemma login_register_inv m reg a now ts : cm_inv m -> cm_inv (login_register m reg a now ts).
Proof.
  intros Hm. apply (inv_same_clients (add_client m reg now ts)); [by apply add_client_inv|done|done].
Qed.

(** The second half: kick the others, register the signal, and then the task
    that waits for the login stores the channel. *)
Definition login_finish m (reg : ClientRegistration) (sig : Signal) (ch : Chan) (ts : Z)
  : ControlManager Chan Auth Signal :=
  let '(_, m) := kick_same_client id (fun _ m => m) (stops ts) (cr_client_id reg) (cr_run_id reg)
                   (cr_cert_fingerprint reg) m in
  add (register_kick m (cr_run_id reg) sig) (cr_run_id reg) ch.

Lemma login_finish_session m reg sig ch ts : cm_inv m -> kick_require_same_cert m = false ->
  forall i, session_of (login_finish m reg sig ch ts) i =
    if decide (i = cr_run_id reg) then (Some ch, auth_managers m !! i, clients m !! i)
    else match clients m !! i with
         | Some c => if decide (ci_client_id c = cr_client_id reg) then (None, None, None)
                     else session_of m i
         | None => session_of m i
         end.
Proof.
  intros Hinv Hcert i. pose proof (kick_same_client_spec (stops ts) m (cr_client_id reg) (cr_run_id reg)
    (cr_cert_fingerprint reg) Hinv (fun sig old m i => stops_frame ts sig old m i) (fun _ _ _ => eq_refl)) as Hk.
  unfold login_finish. destruct (kick_same_client _ _ _ _ _ _ _) as [kicked m'].
  destruct Hk as [Hk Hs]. rewrite Hcert in Hk. specialize (Hs i).
  assert (Hm : session_of (add (register_kick m' (cr_run_id reg) sig) (cr_run_id reg) ch) i =
    (if decide (i = cr_run_id reg) then Some ch else msg_channels m' !! i, auth_managers m' !! i, clients m' !! i)).
  { unfold session_of, add, register_kick, with_tables. cbn [msg_channels auth_managers clients].
    destruct (decide (i = cr_run_id reg)) as [->|E].
    - by rewrite lookup_insert_eq.
    - by rewrite lookup_insert_ne. }
  rewrite Hm. unfold session_of in Hs.
  destruct (decide (i = cr_run_id reg)) as [->|Hi].
  - rewrite decide_False in Hs by (intros (c & _ & _ & Hne & _)%Hk; done). congruence.
  - unfold session_of. destruct (clients m !! i) as [c|] eqn:Ec.
    + destruct (decide (ci_client_id c = cr_client_id reg)) as [E|E].
      * rewrite decide_True in Hs by (apply Hk; eauto). congruence.
      * rewrite decide_False in Hs by (intros (d & Hd & Hcd & _)%Hk; congruence). congruence.
    + rewrite decide_False in Hs by (intros (d & Hd & Hcd & _)%Hk; congruence). congruence.
Qed.

Lemma kick_sessions_inv ts fp l : forall m, cm_inv m ->
  cm_inv (kick_sessions id (fun _ m => m) (stops ts) fp l m).2 /\
  kick_require_same_cert (kick_sessions id (fun _ m => m) (stops ts) fp l m).2 = kick_require_same_cert m.
Proof.
  induction l as [|[old ofp] l IH]; intros m Hm; simpl; [done|].
  destruct (kick_refused _ _ _); [by apply IH|].
  assert (Hk : cm_inv (kick_session id (fun _ m => m) (stops ts) old m) /\
    kick_require_same_cert (kick_session id (fun _ m => m) (stops ts) old m) = kick_require_same_cert m).
  { unfold kick_session, take_kick_signal, id. destruct (kick_signals m !! old) as [sig|]; (split; [|done]).
    - eapply inv_delete_client; [|done|done]. apply remove_inv. by eapply inv_same_clients.
    - eapply inv_delete_client; [|done|done]. by eapply inv_same_clients. }
  destruct Hk as [Hk1 Hk2]. specialize (IH _ Hk1).
  destruct (kick_sessions _ _ _ _ l _) as [k m']. simpl in *. split; [apply IH|]. by rewrite (proj2 IH).
Qed.

Lemma login_finish_inv m reg sig ch ts : cm_inv m -> cm_inv (login_finish m reg sig ch ts) /\
  kick_require_same_cert (login_finish m reg sig ch ts) = kick_require_same_cert m.
Proof.
  intros Hm. unfold login_finish, kick_same_client.
  pose proof (kick_sessions_inv ts (cr_cert_fingerprint reg)
    (kick_candidates (id m) (cr_client_id reg) (cr_run_id reg)) m Hm) as [H1 H2].
  destruct (kick_sessions _ _ _ _ _ _) as [k m']. simpl in *. split; [by eapply inv_same_clients|done].
Qed.

(** two logins of the same client whose registrations interleave remove
    each other.  Both enter the client table before either kicks; the first one
    kicks the second, which has no signal yet and only loses its entries; then
    the second kicks the first.  The second session stays connected and has a
    message channel, but no authentication snapshot and no client entry: it is
    missing from the client list and its work connections cannot be accepted. *)
Theorem racing_logins_lose_snapshot regA regB aA aB sA sB chA chB t1 t2 t3 t4 :
  cr_client_id regA = cr_client_id regB -> cr_run_id regA <> cr_run_id regB ->
  let m : ControlManager Chan Auth Signal :=
    login_finish (login_finish (login_register (login_register cm_new regA aA t1 t1) regB aB t2 t2)
      regA sA chA t3) regB sB chB t4 in
  session_of m (cr_run_id regA) = (None, None, None) /\
  get_msg_tx m (cr_run_id regB) = Some chB /\
  get_auth_manager m (cr_run_id regB) = None /\ get_user_by_run_id m (cr_run_id regB) = None.
Proof.
  intros Hc Hr.
  assert (cm_inv (cm_new : ControlManager Chan Auth Signal)) as Hnew by apply with_security_inv.
  pose proof (login_register_inv _ regB aB t2 t2 (login_register_inv _ regA aA t1 t1 Hnew)) as H1.
  set (m1 := login_register _ regB aB t2 t2) in *.
  assert (Hm1 : session_of m1 (cr_run_id regA) = (None, Some aA, Some (new_client regA t1 t1)) /\
                session_of m1 (cr_run_id regB) = (None, Some aB, Some (new_client regB t2 t2))).
  { unfold m1. rewrite !login_register_session. split.
    - by rewrite decide_False, decide_True by done.
    - by rewrite decide_True by done. }
  destruct (login_finish_inv m1 regA sA chA t3 H1) as [H2 Hcert2].
  pose proof (login_finish_session m1 regA sA chA t3 H1 eq_refl) as Hs1.
  set (m2 := login_finish m1 regA sA chA t3) in *.
  destruct Hm1 as [HA HB]. unfold session_of in HA, HB. simplify_eq.
  assert (Hm2 : clients m2 !! cr_run_id regA = Some (new_client regA t1 t1) /\
                session_of m2 (cr_run_id regB) = (None, None, None)).
  { split.
    - pose proof (Hs1 (cr_run_id regA)) as E. rewrite decide_True in E by done.
      unfold session_of in E. congruence.
    - rewrite Hs1, decide_False by congruence.
      match goal with H : clients m1 !! cr_run_id regB = _ |- _ => rewrite H end.
      by rewrite decide_True by (simpl; congruence). }
  destruct Hm2 as [HA2 HB2]. unfold session_of in HB2. simplify_eq.
  pose proof (login_finish_session m2 regB sB chB t4 H2 Hcert2) as Hs2. intros m. split.
  - unfold m. rewrite Hs2, decide_False, HA2 by done. by rewrite decide_True by done.
  - pose proof (Hs2 (cr_run_id regB)) as E. rewrite decide_True in E by done.
    unfold session_of in E. unfold get_msg_tx, get_auth_manager, get_user_by_run_id. fold m in E.
    simplify_eq. split_and!; [done|congruence|].
    match goal with H : clients m !! _ = _ |- _ => rewrite H end.
    match goal with H : clients m2 !! _ = _ |- _ => by rewrite H end.
Qed.
End race.

(** ** Witnesses *)
Definition demo_reg (run_id user : string) (fp : option string) : ClientRegistration :=
  {| cr_run_id := run_id; cr_client_id := "laptop"; cr_user := user; cr_version := "1.0";
     cr_hostname := "host"; cr_client_ip := "10.0.0.1"; cr_wire_protocol := "v1";
     cr_cert_fingerprint := fp |}.

Lemma racing_logins_lose_snapshot_witness :
  let m : ControlManager nat nat nat :=
    @login_finish _ _ _ map_order (@login_finish _ _ _ map_order
      (login_register (login_register cm_new (demo_reg "r1" "u" None) 1%nat 5 5)
         (demo_reg "r2" "u" None) 2%nat 6 6)
      (demo_reg "r1" "u" None) 1%nat 11%nat 7) (demo_reg "r2" "u" None) 2%nat 12%nat 8 in
  session_of m "r1" = (None, None, None) /\ get_msg_tx m "r2" = Some 12%nat /\
  get_auth_manager m "r2" = None /\ get_user_by_run_id m "r2" = None.
Proof.
  pose proof map_order_laws as Hlaws.
  exact (@racing_logins_lose_snapshot nat nat nat map_order Hlaws (demo_reg "r1" "u" None)
    (demo_reg "r2" "u" None) 1%nat 2%nat 1%nat 2%nat 11%nat 12%nat 5 6 7 8 eq_refl ltac:(done)).
Defined.

(** A registry that protects certificates: the old session of a thief stays. *)
Definition demo_cm : ControlManager nat nat nat :=
  add_client (add_client (with_security None Warn true) (demo_reg "r1" "u" (Some "aa")) 5 5)
    (demo_reg "r2" "u" None) 6 6.

Lemma kick_exact_witness :
  let '(kicked, m') := @kick_same_client _ _ _ map_order _ id (fun _ m => m)
    (fun _ (_ : string) m => m) "laptop" "r3" (Some "bb") demo_cm in
  (forall i : string, i ∈ kicked <-> exists c, clients demo_cm !! i = Some c /\
     ci_client_id c = "laptop"%string /\ i <> "r3"%string /\
     same_cert_or_free (kick_require_same_cert demo_cm) (ci_cert_fingerprint c) (Some "bb"%string)) /\
  (forall i : string, session_of m' i = if decide (i ∈ kicked) then (None, None, None) else session_of demo_cm i).
Proof.
  pose proof map_order_laws as Hlaws.
  apply (@kick_exact nat nat nat map_order Hlaws (fun _ _ m => m) demo_cm "laptop" "r3" (Some "bb")); [|done|done].
  apply (cm_steps_inv [CAddClient (demo_reg "r1" "u" (Some "aa")) 5 5; CAddClient (demo_reg "r2" "u" None) 6 6]
    (with_security None Warn true)), with_security_inv.
Defined.
