(* ===== verification/StateErr.v ===== *)
(** * Code that changes shared state and may fail

    [st S E A] is a computation on the state [S] that returns a value or fails;
    the state it reached is kept in both cases, as in Rust, where [?] returns
    early and undoes nothing.  [after m s Q] states what holds of the outcome
    and the state once [m] ran from [s]. *)
From S2P Require Import Prelude.

Definition st (S E A : Type) : Type := S -> result E A * S.

#[global] Instance st_ret S E : MRet (st S E) := fun A a s => (Ok a, s).
#[global] Instance st_bind S E : MBind (st S E) := fun A B f m s =>
  match m s with
  | (Ok a, s) => f a s
  | (Err e, s) => (Err e, s)
  end.

Definition throw {S E A} (e : E) : st S E A := fun s => (Err e, s).
Definition gets {S E A} (f : S -> A) : st S E A := fun s => (Ok (f s), s).
Definition modify {S E} (f : S -> S) : st S E unit := fun s => (Ok tt, f s).
(** [m.await] without [?]: the outcome itself. *)
Definition attempt_st {S E F A} (m : st S E A) : st S F (result E A) :=
  fun s => let '(r, s) := m s in (Ok r, s).

Fixpoint st_iter {S E A} (f : A -> st S E unit) (l : list A) : st S E unit :=
  match l with
  | [] => mret tt
  | x :: l => f x ≫= fun _ => st_iter f l
  end.

(** ** Postconditions *)
Definition after {S E A} (m : st S E A) (s : S) (Q : result E A -> S -> Prop) : Prop :=
  let '(r, s') := m s in Q r s'.

Lemma after_iff {S E A} (m : st S E A) s Q : after m s Q <-> forall r s', m s = (r, s') -> Q r s'.
Proof. unfold after. destruct (m s) as [r s']. split; [by intros H ? ? [= <- <-]|eauto]. Qed.

Lemma after_ret {S E A} (a : A) (s : S) Q : Q (Ok a : result E A) s -> after (mret a : st S E A) s Q.
Proof. done. Qed.

Lemma after_throw {S E A} (e : E) (s : S) Q : Q (Err e) s -> after (throw e : st S E A) s Q.
Proof. done. Qed.

Lemma after_gets {S E A} (f : S -> A) s Q : Q (Ok (f s)) s -> after (gets f : st S E A) s Q.
Proof. done. Qed.

Lemma after_modify {S E} (f : S -> S) s Q : Q (Ok tt) (f s) -> after (modify f : st S E unit) s Q.
Proof. done. Qed.

Lemma after_bind {S E A B} (m : st S E A) (f : A -> st S E B) s Q :
  after m s (fun r s' => match r with Ok a => after (f a) s' Q | Err e => Q (Err e) s' end) ->
  after (m ≫= f) s Q.
Proof. unfold after, mbind, st_bind. by destruct (m s) as [[a|e] s']. Qed.

Lemma after_attempt {S E F A} (m : st S E A) s Q :
  after m s (fun r s' => Q (Ok r) s') -> after (attempt_st m : st S F (result E A)) s Q.
Proof. unfold after, attempt_st. by destruct (m s). Qed.

Lemma after_mono {S E A} (m : st S E A) s (Q Q' : result E A -> S -> Prop) :
  after m s Q -> (forall r s', Q r s' -> Q' r s') -> after m s Q'.
Proof. unfold after. destruct (m s). auto. Qed.

Lemma after_and {S E A} (m : st S E A) s (Q Q' : result E A -> S -> Prop) :
  after m s Q -> after m s Q' -> after m s (fun r s' => Q r s' /\ Q' r s').
Proof. unfold after. destruct (m s). auto. Qed.

(** A loop preserves what its body preserves. *)
Lemma after_iter {S E A} (f : A -> st S E unit) (I : S -> Prop) l : forall s,
  I s -> (forall x s, x ∈ l -> I s -> after (f x) s (fun _ s' => I s')) ->
  after (st_iter f l) s (fun _ s' => I s').
Proof.
  induction l as [|x l IH]; intros s Hs Hf; simpl; [by apply after_ret|].
  apply after_bind. eapply after_mono; [apply Hf; [left|done]|].
  intros [[]|e] s' Hs'; [|done]. apply IH; [done|]. intros y t Hy. apply Hf. by right.
Qed.

(** ** Computations that never fail *)
Definition total {S E A} (m : st S E A) : Prop := forall s, exists a s', m s = (Ok a, s').

Lemma total_ret {S E A} (a : A) : total (mret a : st S E A).
Proof. by intros s; exists a, s. Qed.
Lemma total_gets {S E A} (f : S -> A) : total (gets f : st S E A).
Proof. by intros s; exists (f s), s. Qed.
Lemma total_modify {S E} (f : S -> S) : total (modify f : st S E unit).
Proof. by intros s; exists tt, (f s). Qed.
Lemma total_attempt {S E F A} (m : st S E A) : total (attempt_st m : st S F (result E A)).
Proof. intros s. unfold attempt_st. destruct (m s) as [r s']. by exists r, s'. Qed.
Lemma total_bind {S E A B} (m : st S E A) (f : A -> st S E B) :
  total m -> (forall a, total (f a)) -> total (m ≫= f).
Proof.
  intros Hm Hf s. unfold mbind, st_bind. destruct (Hm s) as (a & s1 & ->). apply Hf.
Qed.
#[export] Hint Resolve total_ret total_gets total_modify total_attempt : total.

(** Splits a computation into its steps and cases. *)
Ltac total_steps :=
  repeat first
    [ progress (eauto with total)
    | apply total_bind; [|intros ?]
    | match goal with |- total (match ?x with _ => _ end) => destruct x eqn:? end ].

Lemma after_total {S E A} (m : st S E A) s (Q : result E A -> S -> Prop) :
  total m -> (forall a s', m s = (Ok a, s') -> Q (Ok a) s') -> after m s Q.
Proof. intros Hm HQ. unfold after. destruct (Hm s) as (a & s' & E0). rewrite E0. by apply HQ. Qed.

Lemma st_bind_Ok {S E A B} (m : st S E A) (f : A -> st S E B) s b s' :
  (m ≫= f) s = (Ok b, s') <-> exists a s1, m s = (Ok a, s1) /\ f a s1 = (Ok b, s').
Proof.
  unfold mbind, st_bind. destruct (m s) as [[a|e] s1].
  - split; [eauto|]. by intros (? & ? & [= <- <-] & ?).
  - split; [done|]. by intros (? & ? & ? & _).
Qed.

Lemma st_bind_Err {S E A B} (m : st S E A) (f : A -> st S E B) s e s' :
  (m ≫= f) s = (Err e, s') <->
  m s = (Err e, s') \/ exists a s1, m s = (Ok a, s1) /\ f a s1 = (Err e, s').
Proof.
  unfold mbind, st_bind. destruct (m s) as [[a|e'] s1].
  - split; [eauto|]. by intros [?|(? & ? & [= <- <-] & ?)].
  - split; [intros [= <- <-]; by left|]. by intros [[= <- <-]|(? & ? & ? & _)].
Qed.

Lemma st_bind_eq {S E A B} (m : st S E A) (f : A -> st S E B) s a s1 :
  m s = (Ok a, s1) -> (m ≫= f) s = f a s1.
Proof. unfold mbind, st_bind. by intros ->. Qed.

Lemma attempt_eq {S E F A} (m : st S E A) s r s1 :
  m s = (r, s1) -> (attempt_st m : st S F (result E A)) s = (Ok r, s1).
Proof. unfold attempt_st. by intros ->. Qed.

(** For running a computation on concrete states. *)
Lemma outcome_eq {S E A} (p : result E A * S) r : p.1 = r -> p = (r, p.2).
Proof. destruct p. by intros <-. Qed.
