(* ===== verification/Control.v ===== *)
(** * Control sessions (src/rust_frp_server/src/control.rs, [Control])

    One client's session: the login, the message loop with its handlers, and the
    clean-up, on top of the components they use (proxy manager, session
    registry, secrets, STCP bridges, work connection pools, metrics, plugins,
    authentication).  [World] is what all sessions share; every handler is a
    computation on the session and the world.  Between two awaits other
    sessions may run, and the handlers' calls are the atomic steps of those
    components; a handler is run here at one reading [t] of the clocks.
    Writing to the client is answered by the script [ct_answers]. *)
From S2P Require Import Prelude RustStd RustFmt ConfigTypes Transport EncStream IoConn WireV2 Secrets.
From S2P Require Import Routers Groups ProxyManager Throttle StcpBridge WorkPool CoreMsg HttpClient.
From S2P Require Import JsonValue Auth ServerPlugin Metrics ControlManager StateErr.

(** What becomes of the next write: sent, failed, or stalled past the limit. *)
Inductive write_outcome := WDone | WFailed (e : string) | WStalled.

Record times := { t_now : Z; t_ts : Z; t_auth : Auth.clock }.

Record Control := {
  ct_run_id : string;
  ct_user : string;
  ct_client_id : string;
  ct_auth : nat;                        (* the snapshot, a reference into [w_auths] *)
  ct_last_heartbeat : Z;
  ct_registered : list string;
  ct_pool_count : Z;
  ct_work_conn_tls : bool;
  ct_work_conn_port : Z;
  ct_metas : gmap string string;
  ct_fingerprint : option string;
  ct_wire : CoreMsg.WireProtocol;
  ct_remote : option ip_addr;
  ct_chan : nat;                        (* its message channel and kick signal *)
  ct_logged_in : bool;                  (* [login_tx] was used *)
  ct_sent : list Message;
  ct_answers : list write_outcome;
}.

(** Traffic with the outside: messages waiting in each open channel, CloseProxy
    notices, datagrams for visitors. *)
Record Outside := {
  chans : gmap nat (list Message);
  close_notices : list (string * value);
  datagrams : list (string * list byte * string);
}.

Record World := {
  w_pm : ProxyManager.Manager;
  w_owners : gmap string string;
  w_xtcp : gmap string string;
  w_secrets : ProxySecretRegistry;
  w_bridges : StcpBridgeManager any_conn;
  w_cm : ControlManager nat nat nat;
  w_auths : gmap nat AuthManager;
  w_pools : gmap string pool;
  w_metrics : MonitorMetrics;
  w_out : Outside;
}.

Record Session := { ctl : Control; world : World }.

Notation M := (st Session string).

(** ** Updates *)
Definition set_world (s : Session) (w : World) : Session := {| ctl := ctl s; world := w |}.

Definition upd_world (f : World -> World) : M unit := modify (fun s => set_world s (f (world s))).

Definition with_pm (m : ProxyManager.Manager) (w : World) : World :=
  {| w_pm := m; w_owners := w_owners w; w_xtcp := w_xtcp w; w_secrets := w_secrets w;
     w_bridges := w_bridges w; w_cm := w_cm w; w_auths := w_auths w; w_pools := w_pools w;
     w_metrics := w_metrics w; w_out := w_out w |}.
Definition with_owners (o : gmap string string) (w : World) : World :=
  {| w_pm := w_pm w; w_owners := o; w_xtcp := w_xtcp w; w_secrets := w_secrets w;
     w_bridges := w_bridges w; w_cm := w_cm w; w_auths := w_auths w; w_pools := w_pools w;
     w_metrics := w_metrics w; w_out := w_out w |}.
Definition with_xtcp (x : gmap string string) (w : World) : World :=
  {| w_pm := w_pm w; w_owners := w_owners w; w_xtcp := x; w_secrets := w_secrets w;
     w_bridges := w_bridges w; w_cm := w_cm w; w_auths := w_auths w; w_pools := w_pools w;
     w_metrics := w_metrics w; w_out := w_out w |}.
Definition with_secrets (r : ProxySecretRegistry) (w : World) : World :=
  {| w_pm := w_pm w; w_owners := w_owners w; w_xtcp := w_xtcp w; w_secrets := r;
     w_bridges := w_bridges w; w_cm := w_cm w; w_auths := w_auths w; w_pools := w_pools w;
     w_metrics := w_metrics w; w_out := w_out w |}.
Definition with_bridge_manager (b : StcpBridgeManager any_conn) (w : World) : World :=
  {| w_pm := w_pm w; w_owners := w_owners w; w_xtcp := w_xtcp w; w_secrets := w_secrets w;
     w_bridges := b; w_cm := w_cm w; w_auths := w_auths w; w_pools := w_pools w;
     w_metrics := w_metrics w; w_out := w_out w |}.
Definition with_cm (m : ControlManager nat nat nat) (w : World) : World :=
  {| w_pm := w_pm w; w_owners := w_owners w; w_xtcp := w_xtcp w; w_secrets := w_secrets w;
     w_bridges := w_bridges w; w_cm := m; w_auths := w_auths w; w_pools := w_pools w;
     w_metrics := w_metrics w; w_out := w_out w |}.
Definition with_auths (a : gmap nat AuthManager) (w : World) : World :=
  {| w_pm := w_pm w; w_owners := w_owners w; w_xtcp := w_xtcp w; w_secrets := w_secrets w;
     w_bridges := w_bridges w; w_cm := w_cm w; w_auths := a; w_pools := w_pools w;
     w_metrics := w_metrics w; w_out := w_out w |}.
Definition with_pools (p : gmap string pool) (w : World) : World :=
  {| w_pm := w_pm w; w_owners := w_owners w; w_xtcp := w_xtcp w; w_secrets := w_secrets w;
     w_bridges := w_bridges w; w_cm := w_cm w; w_auths := w_auths w; w_pools := p;
     w_metrics := w_metrics w; w_out := w_out w |}.
Definition with_metrics (m : MonitorMetrics) (w : World) : World :=
  {| w_pm := w_pm w; w_owners := w_owners w; w_xtcp := w_xtcp w; w_secrets := w_secrets w;
     w_bridges := w_bridges w; w_cm := w_cm w; w_auths := w_auths w; w_pools := w_pools w;
     w_metrics := m; w_out := w_out w |}.
Definition with_out (o : Outside) (w : World) : World :=
  {| w_pm := w_pm w; w_owners := w_owners w; w_xtcp := w_xtcp w; w_secrets := w_secrets w;
     w_bridges := w_bridges w; w_cm := w_cm w; w_auths := w_auths w; w_pools := w_pools w;
     w_metrics := w_metrics w; w_out := o |}.

Definition set_io (c : Control) (sent : list Message) (answers : list write_outcome) : Control :=
  {| ct_run_id := ct_run_id c; ct_user := ct_user c; ct_client_id := ct_client_id c;
     ct_auth := ct_auth c; ct_last_heartbeat := ct_last_heartbeat c;
     ct_registered := ct_registered c; ct_pool_count := ct_pool_count c;
     ct_work_conn_tls := ct_work_conn_tls c; ct_work_conn_port := ct_work_conn_port c;
     ct_metas := ct_metas c; ct_fingerprint := ct_fingerprint c; ct_wire := ct_wire c;
     ct_remote := ct_remote c; ct_chan := ct_chan c; ct_logged_in := ct_logged_in c;
     ct_sent := sent; ct_answers := answers |}.

Definition set_session (c : Control) (heartbeat : Z) (registered : list string) (logged_in : bool)
  : Control :=
  {| ct_run_id := ct_run_id c; ct_user := ct_user c; ct_client_id := ct_client_id c;
     ct_auth := ct_auth c; ct_last_heartbeat := heartbeat; ct_registered := registered;
     ct_pool_count := ct_pool_count c; ct_work_conn_tls := ct_work_conn_tls c;
     ct_work_conn_port := ct_work_conn_port c; ct_metas := ct_metas c;
     ct_fingerprint := ct_fingerprint c; ct_wire := ct_wire c; ct_remote := ct_remote c;
     ct_chan := ct_chan c; ct_logged_in := logged_in; ct_sent := ct_sent c;
     ct_answers := ct_answers c |}.

Definition set_identity (c : Control) (run_id user client_id : string) (pool_count : Z)
    (metas : gmap string string) : Control :=
  {| ct_run_id := run_id; ct_user := user; ct_client_id := client_id; ct_auth := ct_auth c;
     ct_last_heartbeat := ct_last_heartbeat c; ct_registered := ct_registered c;
     ct_pool_count := pool_count; ct_work_conn_tls := ct_work_conn_tls c;
     ct_work_conn_port := ct_work_conn_port c; ct_metas := metas;
     ct_fingerprint := ct_fingerprint c; ct_wire := ct_wire c; ct_remote := ct_remote c;
     ct_chan := ct_chan c; ct_logged_in := ct_logged_in c; ct_sent := ct_sent c;
     ct_answers := ct_answers c |}.

Definition upd_ctl (f : Control -> Control) : M unit :=
  modify (fun s => {| ctl := f (ctl s); world := world s |}).

(** [Control::new]; the channel, the signal and the connection are given. *)
Definition control_new (now : Z) (auth : nat) (tls : bool) (port : Z) (fp : option string)
    (wire : CoreMsg.WireProtocol) (remote : option ip_addr) (chan : nat)
    (answers : list write_outcome) : Control :=
  {| ct_run_id := EmptyString; ct_user := EmptyString; ct_client_id := EmptyString;
     ct_auth := auth; ct_last_heartbeat := now; ct_registered := []; ct_pool_count := 0;
     ct_work_conn_tls := tls; ct_work_conn_port := port; ct_metas := ∅; ct_fingerprint := fp;
     ct_wire := wire; ct_remote := remote; ct_chan := chan; ct_logged_in := false; ct_sent := [];
     ct_answers := answers |}.

(** ** Writing and sending *)

(** [write_msg]: to this session's client, within the write limit. *)
Definition write_msg (msg : Message) : M unit := fun s =>
  let c := ctl s in
  let '(o, rest) := match ct_answers c with [] => (WDone, []) | o :: rest => (o, rest) end in
  match o with
  | WDone => (Ok tt, {| ctl := set_io c (ct_sent c ++ [msg]) rest; world := world s |})
  | WFailed e => (Err e, {| ctl := set_io c (ct_sent c) rest; world := world s |})
  | WStalled => (Err "write timeout: peer is not consuming data (zero-window?)"%string,
                 {| ctl := set_io c (ct_sent c) rest; world := world s |})
  end.

Definition set_chans (f : gmap nat (list Message)) (w : World) : World :=
  with_out {| chans := f; close_notices := close_notices (w_out w); datagrams := datagrams (w_out w) |} w.

(** [tx.send(msg).await]: fails once the receiver is gone. *)
Definition chan_send (ch : nat) (msg : Message) : M (result string unit) := fun s =>
  match chans (w_out (world s)) !! ch with
  | Some queue =>
      (Ok (Ok tt), set_world s (set_chans (<[ch := queue ++ [msg]]> (chans (w_out (world s)))) (world s)))
  | None => (Ok (Err "channel closed"%string), s)
  end.

(** [Control::send_msg], for the visitors' handlers. *)
Definition send_msg (msg : Message) : M unit :=
  ch ← gets (fun s => ct_chan (ctl s));
  r ← chan_send ch msg;
  match r with Ok _ => mret tt | Err e => throw e end.

Definition json_metas (m : gmap string string) : value :=
  JObj (map (fun kv => (kv.1, JStr kv.2)) (map_to_list m)).

(** What a plugin is told about the user. *)
Definition plugin_user_info (c : Control) : value :=
  JObj [("user", JStr (ct_user c)); ("run_id", JStr (ct_run_id c));
        ("metas", json_metas (ct_metas c))]%string.

(** What a server's sessions run on: its plugins, the HTTP client and the JSON
    codecs (which are other code's), the settings that never change, and what
    the other sessions do while one waits. *)
Class ServerEnv := {
  env_plugins : PluginManager;
  env_post : string -> list byte -> list (string * string) -> HttpOptions -> result string HttpResponse;
  env_encode_request : PluginRequest -> result string (list byte);
  env_decode_response : string -> result string PluginResponse;
  env_req_id : string;                                    (* of a handler's callbacks *)
  env_fetch : string -> HttpOptions -> result string HttpResponse;
  env_proxy_to_json : ProxyConfig -> option (list (string * value));
  env_proxy_of_json : value -> option ProxyConfig;
  env_error_debug : string -> string;                     (* [{:?}] of a boxed error *)
  env_udp_send : Z -> list byte -> string -> result string unit;
  env_ip_text : ip_addr -> string;
  env_pool_size : nat;
  env_version : string;
  (** After the kick signal was sent: the wait for the old session. *)
  env_await_kicked : nat -> string -> World -> World;
}.

Section Control.
Context `{Os, RingHash, Base64, Jwt, HashIter, ServerEnv}.

Definition callback (which : (string -> list byte -> list (string * string) -> HttpOptions -> result string HttpResponse) ->
      (PluginRequest -> result string (list byte)) -> (string -> result string PluginResponse) ->
      PluginManager -> value -> string -> result string unit * value) (content : value)
  : result string unit * value :=
  which env_post env_encode_request env_decode_response env_plugins content env_req_id.

(** ** Clean-up *)

(** The record of a proxy that goes offline. *)
Definition closed_info (t : times) (s : Session) (name : string) (cfg : ProxyConfig) : ClosedProxyInfo :=
  let '(i, o, started) :=
    match get_proxy_stat (w_metrics (world s)) name with
    | Some stat => (bytes_in stat, bytes_out stat, created_at stat)
    | None => (0, 0, t_ts t)
    end in
  {| cp_name := name; cp_type := px_type cfg; cp_user := ct_user (ctl s);
     cp_client_id := ct_client_id (ctl s); cp_remote_port := px_remote_port cfg;
     last_start_time := started; last_close_time := t_ts t; traffic_in := i; traffic_out := o |}.

Definition notify_close (name : string) : M unit := modify (fun s =>
  let w := world s in
  let content := JObj [("user", plugin_user_info (ctl s)); ("proxy_name", JStr name)]%string in
  set_world s (with_out {| chans := chans (w_out w);
    close_notices := close_notices (w_out w) ++ map (fun p => (pl_name p, content)) (close_proxy_notified env_plugins);
    datagrams := datagrams (w_out w) |} w)).

(** One turn of [cleanup_proxies]. *)
Definition cleanup_proxy (t : times) (name : string) : M unit :=
  _ ← notify_close name;
  _ ← modify (fun s =>
        match get_proxy_config (w_pm (world s)) name with
        | Some cfg => set_world s (with_metrics
            (record_proxy_closed (w_metrics (world s)) (closed_info t s name cfg)) (world s))
        | None => s
        end);
  _ ← upd_world (fun w => with_pm (remove_proxy (w_pm w) name) w);
  _ ← upd_world (fun w => with_metrics (remove_proxy_stat (w_metrics w) name) w);
  _ ← upd_world (fun w => with_owners (delete name (w_owners w)) w);
  _ ← upd_world (fun w => with_secrets (secret_remove (w_secrets w) name) w);
  upd_world (fun w => with_bridge_manager (cleanup (w_bridges w) name) w).

Definition cleanup_proxies (t : times) : M unit :=
  names ← gets (fun s => ct_registered (ctl s));
  st_iter (cleanup_proxy t) names.

(** [if let Err(e) = self.write_msg(..) { self.cleanup_proxies(); return Err(e); }] *)
Definition write_or_cleanup (t : times) (msg : Message) : M unit :=
  r ← attempt_st (write_msg msg);
  match r with
  | Ok _ => mret tt
  | Err e => _ ← cleanup_proxies t; throw e
  end.

(** ** Handlers *)
Definition the_auth (s : Session) : option AuthManager := w_auths (world s) !! ct_auth (ctl s).

Definition lift_result {A} (r : result string A) : M A := fun s => (r, s).

Definition handle_ping (t : times) (ping : PingMsg) : M unit :=
  _ ← upd_ctl (fun c => set_session c (t_now t) (ct_registered c) (ct_logged_in c));
  auth ← gets the_auth;
  _ ← lift_result (match auth with
                   | Some a => verify_ping_privilege_key a (ping_timestamp ping) (privilege_key ping)
                   | None => Ok tt
                   end);
  content ← gets (fun s => JObj [("user", plugin_user_info (ctl s));
                                 ("timestamp", JInt (ping_timestamp ping))]%string);
  let plugin_error := match (callback plugin_ping content).1 with Ok _ => EmptyString | Err e => e end in
  write_or_cleanup t (Pong {| pong_timestamp := ping_timestamp ping; pong_error := plugin_error |}).

(** The secret of a registered proxy, by the message's own type and key. *)
Definition secret_to_register (ty : string) (secret : option string) : option string :=
  if decide (ty = "stcp"%string \/ ty = "xtcp"%string \/ ty = "sudp"%string) then
    match secret with Some sk => if is_empty sk then None else Some sk | None => None end
  else None.

Definition register_content (c : Control) (proxy : ProxyConfig) : value :=
  JObj (("user"%string, plugin_user_info c) :: default [] (env_proxy_to_json proxy)).

Definition without_user (v : value) : value :=
  match v with JObj fields => JObj (filter (fun kv => kv.1 <> "user"%string) fields) | _ => v end.

Definition handle_register_proxy (t : times) (msg : RegisterProxyMsg) : M unit :=
  let proxy := rp_proxy msg in
  let name := px_name proxy in
  content ← gets (fun s => register_content (ctl s) proxy);
  match callback plugin_new_proxy content with
  | (Err reason, _) =>
      write_or_cleanup t (RegisterProxyResp {| rr_name := name;
        rr_error := ("new proxy rejected by plugin: " +:+ reason)%string |})
  | (Ok _, content) =>
      let proxy' := match content with
                    | JObj _ => default proxy (env_proxy_of_json (without_user content))
                    | _ => proxy
                    end in
      outcome ← (fun s => let '(r, m) := add_proxy_for_user (w_pm (world s)) proxy' (ct_user (ctl s)) in
                          (Ok r, set_world s (with_pm m (world s))));
      error_msg ← match outcome with
                  | Ok _ =>
                      _ ← upd_ctl (fun c => set_session c (ct_last_heartbeat c)
                            (ct_registered c ++ [name]) (ct_logged_in c));
                      _ ← modify (fun s => set_world s
                            (with_owners (<[name := ct_run_id (ctl s)]> (w_owners (world s))) (world s)));
                      _ ← upd_world (fun w =>
                            match secret_to_register (px_type proxy) (px_secret_key proxy) with
                            | Some sk => with_secrets (secret_register (w_secrets w) name sk) w
                            | None => w
                            end);
                      _ ← upd_world (fun w => with_metrics
                            (register_proxy_stat (w_metrics w) (t_ts t) name (px_type proxy)
                               (px_remote_port proxy)).2 w);
                      mret EmptyString
                  | Err e => mret (env_error_debug e)
                  end;
      _ ← write_or_cleanup t (RegisterProxyResp {| rr_name := name; rr_error := error_msg |});
      if is_empty error_msg then
        modify (fun s => set_world s (with_pools
          (init_pool_with_capacity env_pool_size (w_pools (world s)) name (Z.to_nat (ct_pool_count (ctl s))))
          (world s)))
      else mret tt
  end.

Definition handle_proxy_status (t : times) (msg : ProxyStatusMsg) : M unit :=
  status ← gets (fun s => get_proxy_status (w_pm (world s)) (st_name msg));
  write_or_cleanup t (ProxyStatusResp {| sp_name := st_name msg;
    sp_status := default "unknown"%string status; sp_error := EmptyString |}).

(** [send_udp_packet] of the proxy manager; failures are only logged. *)
Definition handle_udp_packet (msg : UdpPacketMsg) : M unit :=
  match up_client_addr msg with
  | None => mret tt
  | Some addr => modify (fun s =>
      match udp_sessions (net (w_pm (world s))) !! up_proxy_name msg with
      | None => s
      | Some port =>
          match env_udp_send port (up_data msg) addr with
          | Err _ => s
          | Ok _ => let w := world s in set_world s (with_out
              {| chans := chans (w_out w); close_notices := close_notices (w_out w);
                 datagrams := datagrams (w_out w) ++ [(up_proxy_name msg, up_data msg, addr)] |} w)
          end
      end)
  end.

(** A response whose write failure is only logged. *)
Definition write_logged (msg : Message) : M (result string unit) := attempt_st (write_msg msg).

Definition visitor_resp (name bridge_id error visitor_run_id key : string) : Message :=
  StcpVisitorResp {| sr_proxy_name := name; sr_bridge_id := bridge_id; sr_error := error;
    sr_visitor_run_id := visitor_run_id; sr_work_conn_sign_key := key |}.

(** Why a visitor is refused before any bridge is made. *)
Definition visitor_rejection (t : times) (owner secret : option string) (visitor_run_id : string)
    (msg : StcpVisitorMsg) : option string :=
  if is_empty (sv_bridge_id msg) then Some "bridge_id is required"%string else
  match owner, secret with
  | None, _ => Some "proxy not found"%string
  | Some _, None => Some "proxy secret_key not configured"%string
  | Some _, Some secret =>
      if verify_stcp_visitor_sign_with_bridge b64_encode (t_ts t) secret (sv_proxy_name msg)
           (sv_bridge_id msg) visitor_run_id (sv_timestamp msg) (sv_sign_key msg)
      then None else Some "invalid secret key"%string
  end.

Definition upd_bridges {A} (f : StcpBridgeManager any_conn -> A * StcpBridgeManager any_conn) : M A :=
  fun s => let '(a, b) := f (w_bridges (world s)) in
           (Ok a, set_world s (with_bridge_manager b (world s))).

Definition handle_stcp_visitor (t : times) (msg : StcpVisitorMsg) : M unit :=
  let name := sv_proxy_name msg in
  let bridge_id := sv_bridge_id msg in
  visitor ← gets (fun s => ct_run_id (ctl s));
  let refuse error := _ ← write_logged (visitor_resp name bridge_id error visitor EmptyString); mret tt in
  if decide (sv_run_id msg <> visitor) then refuse "visitor run_id mismatch"%string else
  owner ← gets (fun s => w_owners (world s) !! name);
  secret ← gets (fun s => secret_get (w_secrets (world s)) name);
  match visitor_rejection t owner secret visitor msg with
  | Some error => refuse error
  | None =>
  match owner, secret with
  | Some owner, Some secret =>
      let owner_key := generate_stcp_work_conn_sign_key b64_encode secret bridge_id "owner" owner in
      let visitor_key := generate_stcp_work_conn_sign_key b64_encode secret bridge_id "visitor" visitor in
      created ← upd_bridges (fun b => create_bridge b (t_now t) (t_now t) name bridge_id owner visitor
                                        owner_key visitor_key);
      match created with
      | Err error => refuse error
      | Ok _ =>
          let undo error := _ ← upd_bridges (fun b => (tt, cleanup_bridge b bridge_id)); refuse error in
          tx ← gets (fun s => ControlManager.get_msg_tx (w_cm (world s)) owner);
          match tx with
          | None => undo "proxy owner disconnected"%string
          | Some tx =>
              sent ← chan_send tx (ReqWorkConn {| rw_proxy_name := name; rw_bridge_id := bridge_id;
                                                  rw_work_conn_sign_key := owner_key |});
              match sent with
              | Err _ => undo "proxy owner unavailable"%string
              | Ok _ =>
                  r ← write_logged (visitor_resp name bridge_id EmptyString visitor visitor_key);
                  match r with
                  | Ok _ => mret tt
                  | Err _ => upd_bridges (fun b => (tt, cleanup_bridge b bridge_id))
                  end
              end
          end
      end
  | _, _ => mret tt
  end
  end.

Definition send_logged (run_id : string) (msg : Message) : M unit :=
  tx ← gets (fun s => ControlManager.get_msg_tx (w_cm (world s)) run_id);
  match tx with
  | Some tx => _ ← chan_send tx msg; mret tt
  | None => mret tt
  end.

Definition handle_xtcp_nat_info (t : times) (msg : XtcpNatInfoMsg) : M unit :=
  let name := xn_proxy_name msg in
  from ← gets (fun s => ct_run_id (ctl s));
  owner ← gets (fun s => w_owners (world s) !! name);
  match owner with
  | None => mret tt
  | Some owner =>
      let relay key := XtcpNatInfo {| xn_proxy_name := name; xn_run_id := from;
        xn_nat_type := xn_nat_type msg; xn_local_addr := xn_local_addr msg;
        xn_public_addr := xn_public_addr msg; xn_sign_key := key; xn_timestamp := xn_timestamp msg |} in
      if decide (from <> owner) then
        secret ← gets (fun s => secret_get (w_secrets (world s)) name);
        let sign_ok := match secret with
                       | Some secret => verify_stcp_visitor_sign b64_encode (t_ts t) secret name
                                          (xn_timestamp msg) (xn_sign_key msg)
                       | None => false
                       end in
        if negb sign_ok then mret tt else
        _ ← upd_world (fun w => with_xtcp (<[name := from]> (w_xtcp w)) w);
        send_logged owner (relay EmptyString)
      else
        visitor ← gets (fun s => w_xtcp (world s) !! name);
        match visitor with
        | Some vid => send_logged vid (relay (xn_sign_key msg))
        | None => mret tt
        end
  end.

Definition handle_xtcp_hole_punch (msg : XtcpHolePunchMsg) : M unit :=
  send_logged (xh_to_run_id msg) (XtcpHolePunch msg).

(** ** The message loop *)
Inductive session_event :=
| SMsg (m : Message)
| SReadError
| SReadTimeout
| SKicked
| SOutgoing          (* the head of this session's channel *)
| SSenderDropped.

(** [Ok true]: the loop goes on; [Ok false]: [run] returns [Ok]; [Err e]: it
    returns the error. *)
Definition handle_message (t : times) (m : Message) : M bool :=
  match m with
  | Ping p => _ ← handle_ping t p; mret true
  | RegisterProxy p => _ ← handle_register_proxy t p; mret true
  | ProxyStatus p => _ ← handle_proxy_status t p; mret true
  | Disconnect _ => _ ← cleanup_proxies t; mret false
  | UdpPacket p => _ ← handle_udp_packet p; mret true
  | StcpVisitor p => _ ← handle_stcp_visitor t p; mret true
  | XtcpNatInfo p => _ ← handle_xtcp_nat_info t p; mret true
  | XtcpHolePunch p => _ ← handle_xtcp_hole_punch p; mret true
  | _ => mret true
  end.

Definition loop_step (t : times) (e : session_event) : M bool :=
  match e with
  | SMsg m => handle_message t m
  | SReadError => _ ← cleanup_proxies t; mret false
  | SReadTimeout =>
      beat ← gets (fun s => ct_last_heartbeat (ctl s));
      if decide (secs 90 < duration_since (t_now t) beat)
      then _ ← cleanup_proxies t; throw "client heartbeat timeout"%string
      else mret true
  | SKicked => _ ← cleanup_proxies t; mret false
  | SOutgoing =>
      queue ← gets (fun s => default [] (chans (w_out (world s)) !! ct_chan (ctl s)));
      match queue with
      | [] => mret true
      | m :: rest =>
          _ ← modify (fun s => set_world s
                (set_chans (<[ct_chan (ctl s) := rest]> (chans (w_out (world s)))) (world s)));
          _ ← write_logged m; mret true
      end
  | SSenderDropped => mret false
  end.

(** The loop on the events that arrive; [Ok true] while it has not ended. *)
Fixpoint session_loop (events : list (times * session_event)) : M bool :=
  match events with
  | [] => mret true
  | (t, e) :: events =>
      continue ← loop_step t e;
      if continue : bool then session_loop events else mret false
  end.

(** ** Clean-up is complete *)

(** What one turn leaves of the tables. *)
Record removed (name : string) (w w' : World) : Prop := {
  rm_pm : w_pm w' = remove_proxy (w_pm w) name;
  rm_owners : w_owners w' = delete name (w_owners w);
  rm_secrets : w_secrets w' = delete name (w_secrets w);
  rm_bridges : w_bridges w' = cleanup (w_bridges w) name;
  rm_stats : proxy_stats (w_metrics w') = delete name (proxy_stats (w_metrics w));
  rm_heap : heap (w_metrics w') = heap (w_metrics w);
  rm_rest : w_xtcp w' = w_xtcp w /\ w_cm w' = w_cm w /\ w_auths w' = w_auths w /\
            w_pools w' = w_pools w;
}.

Lemma cleanup_proxy_spec t name s : exists w',
  cleanup_proxy t name s = (Ok tt, set_world s w') /\ removed name (world s) w'.
Proof.
  unfold cleanup_proxy, notify_close, upd_world, modify, mbind, st_bind. cbn [world set_world].
  destruct (get_proxy_config _ _) as [cfg|]; eexists; (split; [reflexivity|by split]).
Qed.

(** Everything the clean-up of [names] removes, and what it keeps. *)
Definition except {A} (names : list string) (m : gmap string A) : gmap string A :=
  filter (fun kv => kv.1 ∉ names) m.

Record cleaned (names : list string) (w w' : World) : Prop := {
  cl_proxies : proxies (w_pm w') = except names (proxies (w_pm w));
  cl_owners : w_owners w' = except names (w_owners w);
  cl_secrets : w_secrets w' = except names (w_secrets w : gmap string string);
  cl_bridges : bridges (w_bridges w') =
    filter (fun kv => StcpBridge.proxy_name kv.2 ∉ names) (bridges (w_bridges w));
  cl_recent : recent_bridge_ids (w_bridges w') = recent_bridge_ids (w_bridges w);
  cl_stats : proxy_stats (w_metrics w') = except names (proxy_stats (w_metrics w));
  cl_rest : w_xtcp w' = w_xtcp w /\ w_cm w' = w_cm w /\ w_auths w' = w_auths w /\
            w_pools w' = w_pools w;
}.

Lemma except_lookup {A} names (m : gmap string A) name :
  except names m !! name = if decide (name ∈ names) then None else m !! name.
Proof.
  apply option_eq. intros x. unfold except. rewrite map_lookup_filter_Some. simpl.
  destruct (decide (name ∈ names)); naive_solver.
Qed.

Lemma except_nil {A} (m : gmap string A) : except [] m = m.
Proof. apply map_filter_id. intros k x _. apply not_elem_of_nil. Qed.

Lemma except_cons {A} (m : gmap string A) name names :
  except names (delete name m) = except (name :: names) m.
Proof.
  apply map_eq. intros k. rewrite !except_lookup, lookup_delete.
  repeat case_decide; set_solver.
Qed.

Lemma remove_proxy_proxies m name : proxies (remove_proxy m name) = delete name (proxies m).
Proof. unfold remove_proxy. simpl. by destruct (stop_proxy_books m name) as (-> & _ & _). Qed.

Lemma cleanup_names t names : forall s, exists w',
  st_iter (cleanup_proxy t) names s = (Ok tt, set_world s w') /\ cleaned names (world s) w'.
Proof.
  induction names as [|name names IH]; intros s.
  - exists (world s). split; [by destruct s|].
    split; rewrite ?except_nil; try done. symmetry. apply map_filter_id. intros k x _. apply not_elem_of_nil.
  - destruct (cleanup_proxy_spec t name s) as (w1 & E1 & R).
    destruct (IH (set_world s w1)) as (w2 & E2 & C). exists w2. split.
    + cbn [st_iter]. unfold mbind, st_bind. rewrite E1. exact E2.
    + destruct R as [R1 R2 R3 R4 R5 R6 (R7 & R8 & R9 & R10)], C as [C1 C2 C3 C4 C5 C6 (C7 & C8 & C9 & C10)].
      simpl in *. split.
      * rewrite C1, R1, remove_proxy_proxies. apply except_cons.
      * rewrite C2, R2. apply except_cons.
      * rewrite C3, R3. apply except_cons.
      * rewrite C4, R4. simpl. apply map_eq. intros k. apply option_eq. intros x.
        rewrite !map_lookup_filter_Some, not_elem_of_cons. simpl. naive_solver.
      * by rewrite C5, R4.
      * rewrite C6, R5. apply except_cons.
      * by rewrite C7, C8, C9, C10.
Qed.

Lemma cleanup_proxies_eq t s : exists w',
  cleanup_proxies t s = (Ok tt, set_world s w') /\ cleaned (ct_registered (ctl s)) (world s) w'.
Proof. unfold cleanup_proxies, gets, mbind, st_bind. apply cleanup_names. Qed.

(** ** How a session ends *)

(** Nothing of the session's proxies is left. *)
Definition clean (s : Session) : Prop := forall name, name ∈ ct_registered (ctl s) ->
  let w := world s in
  get_proxy_config (w_pm w) name = None /\ w_owners w !! name = None /\
  secret_get (w_secrets w) name = None /\ proxy_stats (w_metrics w) !! name = None /\
  map_Forall (fun _ b => StcpBridge.proxy_name b <> name) (bridges (w_bridges w)).

Lemma cleanup_clean t s : after (cleanup_proxies t) s (fun r s' => r = Ok tt /\ clean s').
Proof.
  destruct (cleanup_proxies_eq t s) as (w & E & C). unfold after. rewrite E. split; [done|].
  intros name Hn. simpl in *. destruct C as [C1 C2 C3 C4 _ C6 _].
  unfold get_proxy_config, secret_get.
  rewrite C1, C2, C3, C6, !except_lookup, !decide_True by done. split_and!; [done|done| |done|].
  { etransitivity; [apply (except_lookup _ (w_secrets (world s) : gmap string string))|]. by rewrite decide_True. }
  intros id b Hb. rewrite C4 in Hb. apply map_lookup_filter_Some in Hb as [_ Hb]. simpl in Hb.
  intros Heq. apply Hb. by rewrite Heq.
Qed.

Lemma write_or_cleanup_clean t msg s :
  after (write_or_cleanup t msg) s (fun r s' => forall e, r = Err e -> clean s').
Proof.
  unfold write_or_cleanup. apply after_bind, after_attempt.
  unfold after at 1. destruct (write_msg msg s) as [[u|e] s1]; [by apply after_ret|].
  apply after_bind. eapply after_mono; [apply cleanup_clean|]. intros r s' [-> Hc]. by intros e' _.
Qed.

Lemma total_chan_send ch msg : total (chan_send ch msg).
Proof. intros s. unfold chan_send. destruct (_ !! _); eauto. Qed.
Lemma total_upd_bridges {A} (f : _ -> A * _) : total (upd_bridges f).
Proof. intros s. unfold upd_bridges. destruct (f _). eauto. Qed.
Lemma total_send_logged run_id msg : total (send_logged run_id msg).
Proof. unfold send_logged. pose proof total_chan_send. total_steps. Qed.
#[local] Hint Resolve total_chan_send total_upd_bridges total_send_logged : total.

Lemma total_stcp t msg : total (handle_stcp_visitor t msg).
Proof. unfold handle_stcp_visitor, write_logged. total_steps. Qed.
Lemma total_xtcp t msg : total (handle_xtcp_nat_info t msg).
Proof. unfold handle_xtcp_nat_info, upd_world. total_steps. Qed.
Lemma total_udp msg : total (handle_udp_packet msg).
Proof. unfold handle_udp_packet. total_steps. Qed.

Lemma register_proxy_clean t msg s :
  after (handle_register_proxy t msg) s (fun r s' => forall e, r = Err e -> clean s').
Proof.
  unfold handle_register_proxy. apply after_bind, after_gets.
  destruct (callback _ _) as [[u|e] content]; [|apply write_or_cleanup_clean].
  apply after_bind. unfold after at 1. destruct (add_proxy_for_user _ _ _) as [o m].
  apply after_bind. apply after_total; [destruct o; unfold upd_ctl, upd_world; total_steps|].
  intros msg_text s1 _. apply after_bind. eapply after_mono; [apply write_or_cleanup_clean|].
  intros [[]|e] s2 Hs2; [|done]. destruct (is_empty msg_text); [by apply after_modify|by apply after_ret].
Qed.

Lemma ping_clean t p s : (forall a, the_auth s = Some a ->
    verify_ping_privilege_key a (ping_timestamp p) (privilege_key p) = Ok tt) ->
  after (handle_ping t p) s (fun r s' => forall e, r = Err e -> clean s').
Proof.
  intros Ha. unfold handle_ping. apply after_bind. unfold after at 1, upd_ctl, modify.
  apply after_bind, after_gets, after_bind. unfold after at 1, lift_result.
  replace (the_auth _) with (the_auth s) by done.
  assert (forall X : result string unit, X = Ok tt -> forall Q : Prop, Q ->
    match X with Ok _ => Q | Err _ => False end) by (by intros ? -> ?).
  destruct (the_auth s) as [a|]; [rewrite (Ha a) by done|];
    apply after_bind, after_gets, write_or_cleanup_clean.
Qed.

(** The one error that skips the clean-up. *)
Definition ping_refused (s : Session) (e : session_event) : Prop :=
  exists p a err, e = SMsg (Ping p) /\ the_auth s = Some a /\
    verify_ping_privilege_key a (ping_timestamp p) (privilege_key p) = Err err.

Lemma loop_end t e s : e <> SSenderDropped -> ~ ping_refused s e ->
  after (loop_step t e) s (fun r s' => r <> Ok true -> clean s').
Proof.
  intros Hd Hp.
  assert (Hcl : forall (k : M bool) s, after (_ ← cleanup_proxies t; k) s
    (fun r s' => (exists s1, k s1 = (r, s') /\ clean s1))).
  { intros k s0. apply after_bind. eapply after_mono; [apply cleanup_clean|]. intros r s1 [-> Hc].
    apply after_iff. eauto. }
  assert (Hret : forall (m : M unit) s,
    after m s (fun r s' => forall e, r = Err e -> clean s') ->
    after (_ ← m; mret true) s (fun r s' => r <> Ok true -> clean s')).
  { intros m s0 Hm. apply after_bind. eapply after_mono; [apply Hm|].
    intros [[]|err] s1 Hs1; [by apply after_ret|]. intros _. by apply (Hs1 err). }
  assert (Htot : forall (m : M unit) s, total m ->
    after (_ ← m; mret true) s (fun r s' => r <> Ok true -> clean s')).
  { intros m s0 Hm. apply Hret, after_total; [done|]. intros a s' _ err. done. }
  destruct e as [m| | | | |]; cbn [loop_step]; try done.
  - destruct m; cbn [handle_message]; try by apply after_ret.
    all: try (apply Htot; (apply total_udp || apply total_stcp || apply total_xtcp || apply total_send_logged)).
    + apply Hret, register_proxy_clean.
    + apply Hret, ping_clean. intros a Ha.
      destruct (verify_ping_privilege_key _ _ _) as [[]|err] eqn:E; [done|].
      destruct Hp. by eexists _, a, err.
    + apply Hret. unfold handle_proxy_status. apply after_bind, after_gets, write_or_cleanup_clean.
    + eapply after_mono; [apply Hcl|]. by intros r s' (s1 & [= <- <-] & Hc) _.
  - eapply after_mono; [apply Hcl|]. by intros r s' (s1 & [= <- <-] & Hc) _.
  - apply after_bind, after_gets. case_decide; [|by apply after_ret].
    eapply after_mono; [apply Hcl|]. by intros r s' (s1 & [= <- <-] & Hc) _.
  - eapply after_mono; [apply Hcl|]. by intros r s' (s1 & [= <- <-] & Hc) _.
  - apply after_total; [unfold write_logged; total_steps|]. intros a s'.
    unfold mbind, st_bind, gets. destruct (default [] _) as [|m rest]; [by intros [= <- <-]|].
    unfold modify, write_logged, attempt_st. destruct (write_msg _ _). by intros [= <- <-].
Qed.

(** *** What a session adds to the tables *)

(** The tables entries of proxies are made in, and the names to clean up. *)
Definition tables_of (s : Session) :=
  (ct_registered (ctl s), w_owners (world s), w_secrets (world s), proxy_stats (w_metrics (world s))).

Definition keeps {A} (m : M A) : Prop := forall s r s', m s = (r, s') -> tables_of s' = tables_of s.

Lemma keeps_ret {A} (a : A) : keeps (mret a).
Proof. by intros s r s' [= _ <-]. Qed.
Lemma keeps_throw {A} e : keeps (throw e : M A).
Proof. by intros s r s' [= _ <-]. Qed.
Lemma keeps_gets {A} (f : Session -> A) : keeps (gets f).
Proof. by intros s r s' [= _ <-]. Qed.
Lemma keeps_lift {A} (x : result string A) : keeps (lift_result x).
Proof. by intros s r s' [= _ <-]. Qed.
Lemma keeps_modify (f : Session -> Session) : (forall s, tables_of (f s) = tables_of s) -> keeps (modify f).
Proof. by intros Hf s r s' [= _ <-]. Qed.
Lemma keeps_attempt {A} (m : M A) : keeps m -> keeps (attempt_st m : M (result string A)).
Proof. intros Hm s r s'. unfold attempt_st. destruct (m s) as [x s1] eqn:E. intros [= _ <-]. by eapply Hm. Qed.
Lemma keeps_bind {A B} (m : M A) (f : A -> M B) : keeps m -> (forall a, keeps (f a)) -> keeps (m ≫= f).
Proof.
  intros Hm Hf s r s'. unfold mbind, st_bind. destruct (m s) as [[a|e] s1] eqn:E.
  - intros E2. rewrite (Hf _ _ _ _ E2). by eapply Hm.
  - intros [= _ <-]. by eapply Hm.
Qed.
Lemma keeps_write msg : keeps (write_msg msg).
Proof.
  intros s r s'. unfold write_msg. destruct (match ct_answers (ctl s) with [] => _ | _ => _ end) as [[] rest];
    by intros [= _ <-].
Qed.
Lemma keeps_chan_send ch msg : keeps (chan_send ch msg).
Proof. intros s r s'. unfold chan_send. destruct (_ !! _); by intros [= _ <-]. Qed.
Lemma keeps_upd_bridges {A} (f : _ -> A * _) : keeps (upd_bridges f).
Proof. intros s r s'. unfold upd_bridges. destruct (f _). by intros [= _ <-]. Qed.
#[local] Hint Resolve keeps_ret keeps_throw keeps_gets keeps_lift keeps_attempt keeps_write keeps_chan_send
  keeps_upd_bridges : keeps.

Ltac keeps_steps :=
  repeat first
    [ progress (eauto with keeps)
    | apply keeps_bind; [|intros ?]
    | apply keeps_modify; intros ?
    | match goal with
      | |- keeps (match ?x with _ => _ end) => destruct x eqn:?
      | |- tables_of (match ?x with _ => _ end) = _ => destruct x
      end
    | reflexivity ].

(** Outside the names to clean up, the tables are what they were in [s0]. *)
Definition tracks (s0 s : Session) : Prop := forall name, name ∉ ct_registered (ctl s) ->
  w_owners (world s) !! name = w_owners (world s0) !! name /\
  secret_get (w_secrets (world s)) name = secret_get (w_secrets (world s0)) name /\
  proxy_stats (w_metrics (world s)) !! name = proxy_stats (w_metrics (world s0)) !! name.

Definition tracking {A} (m : M A) : Prop := forall s0 s, tracks s0 s -> after m s (fun _ s' => tracks s0 s').

Lemma keeps_tracking {A} (m : M A) : keeps m -> tracking m.
Proof.
  intros Hk s0 s Ht. apply after_iff. intros r s' E. specialize (Hk _ _ _ E). unfold tables_of in Hk.
  injection Hk as E1 E2 E3 E4.
  intros name. rewrite E1, E2, E3, E4. exact (Ht name).
Qed.

Lemma tracking_bind {A B} (m : M A) (f : A -> M B) : tracking m -> (forall a, tracking (f a)) -> tracking (m ≫= f).
Proof.
  intros Hm Hf s0 s Ht. apply after_bind. eapply after_mono; [by apply Hm|].
  intros [a|e] s1 Ht1; [by apply Hf|done].
Qed.

Lemma cleanup_tracking t : tracking (cleanup_proxies t).
Proof.
  intros s0 s Ht. destruct (cleanup_proxies_eq t s) as (w & E & [_ C2 C3 _ _ C6 _]). unfold after. rewrite E.
  intros name Hn. specialize (Ht name Hn). unfold secret_get in *. cbn [world ctl set_world] in *.
  rewrite C2, C6, !except_lookup, !decide_False by done. destruct Ht as (Ho & Hs & Hst). split_and!; [done| |done].
  rewrite <- Hs. etransitivity; [exact (f_equal (lookup name) C3)|].
  etransitivity; [apply (except_lookup _ (w_secrets (world s) : gmap string string))|]. by rewrite decide_False.
Qed.

Lemma write_or_cleanup_tracking t msg : tracking (write_or_cleanup t msg).
Proof.
  unfold write_or_cleanup. apply tracking_bind; [apply keeps_tracking; keeps_steps|].
  intros [u|e]; [apply keeps_tracking; keeps_steps|].
  apply tracking_bind; [apply cleanup_tracking|]. intros _. apply keeps_tracking. keeps_steps.
Qed.

(** The entries of a proxy that was started. *)
Lemma enter_tracking t name ty secret port : tracking (
  _ ← upd_ctl (fun c => set_session c (ct_last_heartbeat c) (ct_registered c ++ [name]) (ct_logged_in c));
  _ ← modify (fun s => set_world s (with_owners (<[name := ct_run_id (ctl s)]> (w_owners (world s))) (world s)));
  _ ← upd_world (fun w => match secret with
                          | Some sk => with_secrets (secret_register (w_secrets w) name sk) w
                          | None => w
                          end);
  _ ← upd_world (fun w => with_metrics (register_proxy_stat (w_metrics w) (t_ts t) name ty port).2 w);
  mret EmptyString).
Proof.
  intros s0 s Ht. unfold upd_ctl, upd_world, modify, after, mbind, st_bind. intros name' Hn. cbn in Hn.
  apply not_elem_of_app in Hn as [Hn Hne]. apply not_elem_of_cons in Hne as [Hne _].
  destruct (Ht name' Hn) as (Ho & Hs & Hst). unfold secret_get, secret_register in *.
  destruct secret as [sk|]; cbn; rewrite ?lookup_insert_ne by done; split_and!; try done.
  etransitivity; [apply (lookup_insert_ne (M := gmap string) (A := string))|]; done.
Qed.

Lemma register_tracking t msg : tracking (handle_register_proxy t msg).
Proof.
  unfold handle_register_proxy. apply tracking_bind; [apply keeps_tracking; keeps_steps|]. intros content.
  destruct (callback _ _) as [[u|e] c']; [|apply write_or_cleanup_tracking].
  apply tracking_bind.
  { apply keeps_tracking. intros s r s'. destruct (add_proxy_for_user _ _ _). by intros [= _ <-]. }
  intros outcome. apply tracking_bind; [destruct outcome; [apply enter_tracking|apply keeps_tracking; keeps_steps]|].
  intros text. apply tracking_bind; [apply write_or_cleanup_tracking|]. intros _. apply keeps_tracking. keeps_steps.
Qed.

Lemma loop_tracking t e : tracking (loop_step t e).
Proof.
  assert (Hthen : forall (m : M unit) (b : bool), tracking m -> tracking (_ ← m; mret b)).
  { intros m b Hm. apply tracking_bind; [done|]. intros _. apply keeps_tracking. keeps_steps. }
  destruct e as [m| | | | |]; cbn [loop_step].
  - destruct m; cbn [handle_message]; try (by apply keeps_tracking; keeps_steps); apply Hthen;
      try apply cleanup_tracking; try apply register_tracking.
    + unfold handle_ping. apply tracking_bind; [apply keeps_tracking; unfold upd_ctl; keeps_steps|]. intros _.
      do 3 (apply tracking_bind; [apply keeps_tracking; keeps_steps|intros ?]). apply write_or_cleanup_tracking.
    + unfold handle_proxy_status. apply tracking_bind; [apply keeps_tracking; keeps_steps|].
      intros ?. apply write_or_cleanup_tracking.
    + apply keeps_tracking. unfold handle_udp_packet. keeps_steps.
    + apply keeps_tracking. unfold handle_stcp_visitor, write_logged. keeps_steps.
    + apply keeps_tracking. unfold handle_xtcp_nat_info, send_logged, upd_world. keeps_steps.
  - apply Hthen, cleanup_tracking.
  - apply tracking_bind; [apply keeps_tracking; keeps_steps|]. intros beat. case_decide.
    + apply tracking_bind; [apply cleanup_tracking|]. intros _. apply keeps_tracking. keeps_steps.
    + apply keeps_tracking. keeps_steps.
  - apply Hthen, cleanup_tracking.
  - apply keeps_tracking. unfold write_logged. keeps_steps.
  - apply keeps_tracking. keeps_steps.
Qed.

Lemma session_tracking events : tracking (session_loop events).
Proof.
  induction events as [|[t e] events IH]; cbn [session_loop]; [apply keeps_tracking; keeps_steps|].
  apply tracking_bind; [apply loop_tracking|]. intros []; [done|apply keeps_tracking; keeps_steps].
Qed.

Lemma session_ends_clean t events e s s1 r s2 :
  session_loop events s = (Ok true, s1) -> e <> SSenderDropped -> ~ ping_refused s1 e ->
  session_loop (events ++ [(t, e)]) s = (r, s2) -> r <> Ok true -> clean s2.
Proof.
  revert s; induction events as [|[t0 e0] events IH]; intros s E1 Hd Hp E2 Hr; simpl in *.
  - injection E1 as <-. unfold mbind, st_bind in E2. pose proof (loop_end t e s Hd Hp) as Ha.
    unfold after in Ha. destruct (loop_step t e s) as [[[]|err] s']; injection E2 as <- <-; auto.
  - unfold mbind, st_bind in E1, E2. destruct (loop_step t0 e0 s) as [[[]|err] s']; try done.
    by apply (IH s').
Qed.

(** C30: whatever ends a session's loop (a disconnect, a read error, 90 seconds
    without a heartbeat, being kicked, a failed answer), and whatever it did
    before, it leaves no entry of its own in the tables of owners, secrets and
    statistics: each entry there was there, with the same value, when the session
    began.  And under the names it registered proxies with, the names of its
    RegisterProxy messages, the proxy manager has no proxy and no STCP bridge is
    pending.  Exceptions: a dropped channel sender, which the session itself
    holds; a refused heartbeat, which ends the session without the clean-up
    (lemma bad_ping_leaks); and a proxy that a NewProxy plugin gave another name,
    which stays in the proxy manager under that name (theorem
    renamed_proxy_stays). *)
Theorem session_end_clean t events e s s1 r s2 : ct_registered (ctl s) = [] ->
  session_loop events s = (Ok true, s1) -> e <> SSenderDropped -> ~ ping_refused s1 e ->
  session_loop (events ++ [(t, e)]) s = (r, s2) -> r <> Ok true ->
  (forall name owner, w_owners (world s2) !! name = Some owner -> w_owners (world s) !! name = Some owner) /\
  (forall name secret, w_secrets (world s2) !! name = Some secret -> w_secrets (world s) !! name = Some secret) /\
  (forall name stat, proxy_stats (w_metrics (world s2)) !! name = Some stat ->
     proxy_stats (w_metrics (world s)) !! name = Some stat) /\
  forall name, name ∈ ct_registered (ctl s2) ->
    get_proxy_config (w_pm (world s2)) name = None /\
    map_Forall (fun _ b => StcpBridge.proxy_name b <> name) (bridges (w_bridges (world s2))).
Proof.
  intros Hr0 E1 Hd Hp E2 Hr. pose proof (session_ends_clean t events e s s1 r s2 E1 Hd Hp E2 Hr) as Hc.
  assert (tracks s s) as Ht0 by done.
  pose proof (session_tracking (events ++ [(t, e)]) s s Ht0) as Ht. unfold after in Ht. rewrite E2 in Ht.
  unfold secret_get in *.
  assert (Hcase : forall name, name ∈ ct_registered (ctl s2) \/ name ∉ ct_registered (ctl s2))
    by (intros; destruct (decide (name ∈ ct_registered (ctl s2))); auto).
  split_and!.
  - intros name o Ho. destruct (Hcase name) as [Hn|Hn].
    + destruct (Hc name Hn) as (_ & ? & _). congruence.
    + by rewrite <- (proj1 (Ht name Hn)).
  - intros name o Ho. destruct (Hcase name) as [Hn|Hn].
    + destruct (Hc name Hn) as (_ & _ & Hs & _). unfold secret_get in Hs. congruence.
    + etransitivity; [symmetry; exact (proj1 (proj2 (Ht name Hn)))|exact Ho].
  - intros name o Ho. destruct (Hcase name) as [Hn|Hn].
    + destruct (Hc name Hn) as (_ & _ & _ & Hs & _). congruence.
    + by rewrite <- (proj2 (proj2 (Ht name Hn))).
  - intros name Hn. destruct (Hc name Hn) as (? & _ & _ & _ & ?). by split.
Qed.

(** A refused heartbeat ends the session and leaves everything in place. *)
Lemma bad_ping_leaks t p s err : (exists a, the_auth s = Some a /\
    verify_ping_privilege_key a (ping_timestamp p) (privilege_key p) = Err err) ->
  exists c, loop_step t (SMsg (Ping p)) s = (Err err, {| ctl := c; world := world s |}) /\
    ct_registered c = ct_registered (ctl s).
Proof.
  intros (a & Ha & Hv). eexists. split; [|shelve]. cbn [loop_step handle_message].
  unfold handle_ping, upd_ctl, modify, gets, mbind, st_bind, lift_result. cbn [ctl world].
  replace (the_auth _) with (Some a) by (symmetry; exact Ha). rewrite Hv. reflexivity.
  Unshelve. done.
Qed.

(** ** STCP visitors *)
Definition next_write (c : Control) : write_outcome :=
  match ct_answers c with [] => WDone | o :: _ => o end.

Definition stcp_owner_key (secret owner : string) (msg : StcpVisitorMsg) : string :=
  generate_stcp_work_conn_sign_key b64_encode secret (sv_bridge_id msg) "owner" owner.
Definition stcp_visitor_key (secret : string) (msg : StcpVisitorMsg) : string :=
  generate_stcp_work_conn_sign_key b64_encode secret (sv_bridge_id msg) "visitor" (sv_run_id msg).

Definition stcp_bridge (t : times) (msg : StcpVisitorMsg) (s : Session) (owner secret : string) :=
  create_bridge (w_bridges (world s)) (t_now t) (t_now t) (sv_proxy_name msg) (sv_bridge_id msg) owner
    (sv_run_id msg) (stcp_owner_key secret owner msg) (stcp_visitor_key secret msg).

(** Both clocks are below 2^62 seconds, so that their difference does not wrap. *)
Definition clocks_in_range (t : times) (msg : StcpVisitorMsg) : Prop :=
  0 <= t_ts t < 2 ^ 62 /\ - 2 ^ 62 <= sv_timestamp msg < 2 ^ 62.

(** Everything a visitor's request needs, in terms of the tables, the clocks and
    the HMAC; [tx] is the owner's channel. *)
Record stcp_granted (t : times) (msg : StcpVisitorMsg) (s : Session) (owner secret : string) (tx : nat)
  : Prop := {
  sg_run : sv_run_id msg = ct_run_id (ctl s);
  sg_id : sv_bridge_id msg <> EmptyString;
  sg_owner : w_owners (world s) !! sv_proxy_name msg = Some owner;
  sg_secret : w_secrets (world s) !! sv_proxy_name msg = Some secret;
  sg_fresh : t_ts t - 120 <= sv_timestamp msg <= t_ts t + 120;
  sg_signed : sv_sign_key msg = b64_encode (hmac_sha256 (as_bytes secret) (as_bytes
    ("stcp:" +:+ sv_proxy_name msg +:+ ":" +:+ sv_bridge_id msg +:+ ":" +:+ sv_run_id msg +:+ ":" +:+ dec (sv_timestamp msg))%string));
  sg_available : id_available (w_bridges (world s)) (t_now t) (sv_bridge_id msg);
  sg_tx : ControlManager.get_msg_tx (w_cm (world s)) owner = Some tx;
  sg_open : is_Some (chans (w_out (world s)) !! tx);
  sg_replied : next_write (ctl s) = WDone;
}.

Lemma granted_signed t msg s owner secret tx : clocks_in_range t msg ->
  stcp_granted t msg s owner secret tx ->
  verify_stcp_visitor_sign_with_bridge b64_encode (t_ts t) secret (sv_proxy_name msg)
    (sv_bridge_id msg) (sv_run_id msg) (sv_timestamp msg) (sv_sign_key msg) = true.
Proof. intros [] []. by apply visitor_sign_iff. Qed.

(** What a granted request leaves: the bridge, the request in the owner's
    channel and the answer to the visitor, each side with its own key. *)
Lemma stcp_granted_effects t msg s owner secret tx : clocks_in_range t msg ->
  stcp_granted t msg s owner secret tx ->
  exists s' queue, handle_stcp_visitor t msg s = (Ok tt, s') /\
    w_bridges (world s') = (stcp_bridge t msg s owner secret).2 /\
    chans (w_out (world s)) !! tx = Some queue /\
    chans (w_out (world s')) = <[tx := queue ++ [ReqWorkConn {| rw_proxy_name := sv_proxy_name msg;
      rw_bridge_id := sv_bridge_id msg; rw_work_conn_sign_key := stcp_owner_key secret owner msg |}]]>
      (chans (w_out (world s))) /\
    ct_sent (ctl s') = ct_sent (ctl s) ++ [visitor_resp (sv_proxy_name msg) (sv_bridge_id msg) EmptyString
      (sv_run_id msg) (stcp_visitor_key secret msg)] /\
    w_cm (world s') = w_cm (world s) /\ w_auths (world s') = w_auths (world s).
Proof.
  intros Hck G. pose proof (granted_signed t msg s owner secret tx Hck G) as Hv.
  destruct G as [Hrun Hid Ho Hs _ _ Hc%(create_bridge_Ok_iff _ _ (sv_proxy_name msg) _ owner (sv_run_id msg)
    (stcp_owner_key secret owner msg) (stcp_visitor_key secret msg)) Htx [queue Hq] Hw].
  unfold handle_stcp_visitor, visitor_rejection, gets, mbind, st_bind. cbn [world ctl].
  rewrite Hrun in Hv |- *. rewrite decide_False by tauto. unfold secret_get. rewrite Ho, Hs.
  apply is_empty_false in Hid. rewrite Hid, Hv. unfold upd_bridges. cbn [world ctl].
  unfold stcp_bridge, stcp_owner_key, stcp_visitor_key in Hc |- *. rewrite Hrun in Hc |- *.
  destruct (create_bridge _ _ _ _ _ _ _ _ _) as [[[]|e] b]; [|done]. cbn [world ctl set_world with_bridge_manager w_cm].
  rewrite Htx.
  unfold chan_send. cbn [world set_world with_bridge_manager w_out]. rewrite Hq.
  unfold write_logged, attempt_st, write_msg. cbn [ctl set_world].
  unfold next_write in Hw.
  destruct (ct_answers (ctl s)) as [|o rest]; [|subst o]; eexists _, queue; (split; [reflexivity|by split_and!]).
Qed.

(** A request that is not granted adds no bridge. *)
Lemma stcp_not_granted t msg s s' : clocks_in_range t msg -> handle_stcp_visitor t msg s = (Ok tt, s') ->
  (forall i b, bridges (w_bridges (world s')) !! i = Some b -> bridges (w_bridges (world s)) !! i = Some b) \/
  exists owner secret tx, stcp_granted t msg s owner secret tx.
Proof.
  intros [Hc1 Hc2] E.
  unfold handle_stcp_visitor, visitor_rejection, gets, mbind, st_bind in E. cbn [world ctl] in E.
  assert (Hw : forall c resp, w_bridges (world ((write_logged resp c).2)) = w_bridges (world c)).
  { intros c resp. unfold write_logged, attempt_st, write_msg.
    by destruct (match ct_answers (ctl c) with [] => _ | _ => _ end) as [[] rest]. }
  assert (Hrefuse : forall c resp c', (let '(p, s0) := write_logged resp c in
     match p with Ok _ => (Ok (E := string) tt, s0) | Err e => (Err e, s0) end) = (Ok tt, c') ->
     w_bridges (world c') = w_bridges (world c)).
  { intros c resp c' E1. specialize (Hw c resp). destruct (write_logged resp c) as [[]]; simplify_eq/=. done. }
  case_decide as Hrun; [left; by rewrite (Hrefuse _ _ _ E)|].
  destruct (is_empty (sv_bridge_id msg)) eqn:Hid; [left; by rewrite (Hrefuse _ _ _ E)|].
  destruct (w_owners (world s) !! sv_proxy_name msg) as [owner|] eqn:Ho; [|left; by rewrite (Hrefuse _ _ _ E)].
  destruct (secret_get _ _) as [secret|] eqn:Hs; [|left; by rewrite (Hrefuse _ _ _ E)].
  rewrite <- Hrun in E.
  destruct (verify_stcp_visitor_sign_with_bridge _ _ _ _ _ _ _ _) eqn:Hv; [|left; by rewrite (Hrefuse _ _ _ E)].
  unfold upd_bridges in E.
  pose proof (create_bridge_adds (w_bridges (world s)) (t_now t) (t_now t) (sv_proxy_name msg) (sv_bridge_id msg)
    owner (sv_run_id msg) (stcp_owner_key secret owner msg) (stcp_visitor_key secret msg)) as Hadd.
  pose proof (create_bridge_Ok_iff (w_bridges (world s)) (t_now t) (sv_proxy_name msg) (sv_bridge_id msg)
    owner (sv_run_id msg) (stcp_owner_key secret owner msg) (stcp_visitor_key secret msg)) as Hok.
  unfold stcp_owner_key, stcp_visitor_key in Hadd, Hok.
  destruct (create_bridge _ _ _ _ _ _ _ _ _) as [[[]|e] b] eqn:Ecr; cbn [fst snd] in *; cbn beta iota in E.
  2:{ left. rewrite (Hrefuse _ _ _ E). simpl. intros i b0 Hi. by destruct (Hadd i b0 Hi) as [[_ ?]|]. }
  cbn [world ctl set_world with_bridge_manager w_cm] in E.
  assert (Hdel : forall i b0, bridges (cleanup_bridge b (sv_bridge_id msg)) !! i = Some b0 ->
    bridges (w_bridges (world s)) !! i = Some b0).
  { intros i b0 Hi. unfold cleanup_bridge in Hi. simpl in Hi. apply lookup_delete_Some in Hi as [Hne Hi]. by destruct (Hadd i b0 Hi) as [[? _]|]. }
  destruct (ControlManager.get_msg_tx _ _) as [tx|] eqn:Htx; [|left; rewrite (Hrefuse _ _ _ E); apply Hdel].
  unfold chan_send in E. cbn [world set_world with_bridge_manager w_out] in E.
  destruct (chans _ !! tx) as [queue|] eqn:Hq; [|left; rewrite (Hrefuse _ _ _ E); apply Hdel].
  unfold write_logged, attempt_st, write_msg in E. cbn [ctl set_world set_chans with_out world] in E.
  destruct (match ct_answers (ctl s) with [] => _ | _ => _ end) as [o rest] eqn:Ha.
  destruct o; [right|left; injection E as <-; apply Hdel|left; injection E as <-; apply Hdel].
  exists owner, secret, tx. apply is_empty_false in Hid.
  apply visitor_sign_iff in Hv as (_ & Hf & Hg); [|done..]. split; try done; [by apply Hok|].
  unfold next_write. by destruct (ct_answers (ctl s)); simplify_eq/=.
Qed.

(** The entry [create_bridge] makes. *)
Definition new_bridge (t : times) (msg : StcpVisitorMsg) (owner secret : string)
  : StcpBridgeState any_conn :=
  {| StcpBridge.proxy_name := sv_proxy_name msg; owner_run_id := owner;
     visitor_run_id := sv_run_id msg; owner_work_conn_sign_key := stcp_owner_key secret owner msg;
     visitor_work_conn_sign_key := stcp_visitor_key secret msg; owner_conn := None; visitor_conn := None;
     owner_reserved := false; visitor_reserved := false;
     StcpBridge.created_at := t_now t |}.

Lemma stcp_bridge_made t msg s owner secret :
  id_available (w_bridges (world s)) (t_now t) (sv_bridge_id msg) ->
  bridges (stcp_bridge t msg s owner secret).2 !! sv_bridge_id msg = Some (new_bridge t msg owner secret).
Proof.
  intros Hc%(create_bridge_Ok_iff _ _ (sv_proxy_name msg) _ owner (sv_run_id msg)
    (stcp_owner_key secret owner msg) (stcp_visitor_key secret msg)). revert Hc.
  unfold stcp_bridge, create_bridge. destruct (_ || _); [done|]. case_decide; [done|].
  intros _. apply lookup_insert_eq.
Qed.

End Control.

(** ** A small server: no plugins, one session owning the proxy [ssh] *)
#[local] Existing Instance map_order.
#[local] Existing Instance toy_base64.
#[local] Existing Instance toy_jwt.

Definition toy_env (plugins : PluginManager) (renamed : option ProxyConfig) : ServerEnv := {|
  env_plugins := plugins;
  env_post := fun _ _ _ _ => Ok {| status := 200; body := EmptyString |};
  env_encode_request := fun _ => Ok [];
  env_decode_response := fun _ => Ok {| reject := false; pr_reject_reason := EmptyString;
    unchange := false; pr_content := None |};
  env_req_id := "r";
  env_fetch := fun _ _ => Err "down"%string;
  env_proxy_to_json := fun _ => None;
  env_proxy_of_json := fun _ => renamed;
  env_error_debug := fun e => e;
  env_udp_send := fun _ _ _ => Ok tt;
  env_ip_text := fun _ => "10.0.0.1"%string;
  env_pool_size := 4;
  env_version := "0.2.2";
  env_await_kicked := fun _ _ w => w |}.

Definition toy_auth (scopes : list string) : AuthManager :=
  {| auth_verifier := TokenVerifier "tok"; encryption_key := Some (generate_encryption_key "tok");
     auth_token := Some "tok"%string; additional_scopes := scopes |}.

Definition toy_cm : ControlManager nat nat nat :=
  foldl cm_step cm_new [CAdd "own" 1%nat; CAdd "vis" 2%nat; CSetAuth "own" 0%nat; CSetAuth "vis" 0%nat].

Definition toy_world (scopes : list string) : World :=
  {| w_pm := (add_proxy toy_manager (tcp_proxy "ssh" None 9000)).2; w_owners := {["ssh"%string := "own"%string]};
     w_xtcp := ∅; w_secrets := {["ssh"%string := "k"%string]}; w_bridges := new_manager; w_cm := toy_cm;
     w_auths := {[0%nat := toy_auth scopes]}; w_pools := {["ssh"%string := empty_pool 2]};
     w_metrics := metrics_new 0;
     w_out := {| chans := {[1%nat := []; 2%nat := []]}; close_notices := []; datagrams := [] |} |}.

Definition toy_control (run_id : string) (chan : nat) (registered : list string)
    (answers : list write_outcome) : Control :=
  set_session (set_identity (control_new 0 0 false 0 None CoreMsg.V1 None chan answers) run_id "u" "c" 1 ∅)
    0 registered true.

Definition toy_session (scopes : list string) (run_id : string) (chan : nat) (registered : list string)
  : Session := {| ctl := toy_control run_id chan registered []; world := toy_world scopes |}.

Definition toy_times : times :=
  {| t_now := secs 1; t_ts := 1000; t_auth := {| mono := 0; fetched := 0; epoch_secs := 1000 |} |}.

Definition toy_visitor : StcpVisitorMsg :=
  {| sv_proxy_name := "ssh"; sv_run_id := "vis"; sv_bridge_id := "b1"; sv_timestamp := 990;
     sv_sign_key := generate_stcp_visitor_sign_key b64_encode "k" "ssh" "b1" "vis" 990 |}.

(** A plugin that changes the name of a proxy leaves it behind: the server
    starts it under the new name but cleans up the name of the message. *)
Theorem renamed_proxy_stays :
  let env := toy_env {| on_login := []; on_new_proxy := [{| pl_name := "p"; pl_url := "http://p";
    pl_tls_verify := true |}]; on_close_proxy := []; on_ping := []; on_new_work_conn := [];
    on_new_user_conn := [] |} (Some (tcp_proxy "u.web" None 9001)) in
  let s := (handle_register_proxy toy_times {| rp_proxy := tcp_proxy "web" None 9001 |}
              (toy_session [] "own" 1 [])).2 in
  let s' := (cleanup_proxies toy_times s).2 in
  ct_registered (ctl s) = ["web"%string] /\ ct_sent (ctl s) =
    [RegisterProxyResp {| rr_name := "web"; rr_error := EmptyString |}] /\
  is_Some (get_proxy_config (w_pm (world s')) "u.web") /\
  bool_decide (9001 ∈ tcp_bound (net (w_pm (world s')))) = true.
Proof. split_and!; vm_compute; eauto. Qed.

(** ** Witnesses *)
Lemma session_end_clean_witness : let _ := toy_env no_plugins None in
  let register := SMsg (RegisterProxy {| rp_proxy := tcp_proxy "web" None 9001 |}) in
  let s := (session_loop [(toy_times, register); (toy_times, SMsg (Disconnect {| reason := "bye" |}))]
              (toy_session [] "own" 1 [])).2 in
  ct_registered (ctl s) = ["web"%string] /\ w_owners (world s) !! "web"%string = None /\
  get_proxy_config (w_pm (world s)) "web" = None.
Proof.
  intros env register. set (e := SMsg (Disconnect {| reason := "bye" |})). intros s.
  assert ((session_loop [(toy_times, register)] (toy_session [] "own" 1 [])).1 = Ok true) as E1%outcome_eq
    by (vm_compute; reflexivity).
  assert ((session_loop ([(toy_times, register)] ++ [(toy_times, e)]) (toy_session [] "own" 1 [])).1 = Ok false)
    as E2%outcome_eq by (vm_compute; reflexivity).
  assert (ct_registered (ctl s) = ["web"%string]) as Er by (vm_compute; reflexivity).
  destruct (session_end_clean toy_times [(toy_times, register)] e (toy_session [] "own" 1 [])
    (session_loop [(toy_times, register)] (toy_session [] "own" 1 [])).2 (Ok false) s) as (Ho & _ & _ & Hn); [reflexivity|exact E1|discriminate| |exact E2|discriminate|].
  - intros (p & a & err & Hp & _). discriminate Hp.
  - split; [exact Er|]. split.
    + destruct (w_owners (world s) !! "web"%string) as [o|] eqn:E; [|reflexivity].
      specialize (Ho _ _ E). vm_compute in Ho. discriminate Ho.
    + refine (proj1 (Hn "web"%string _)). rewrite Er. left.
Defined.

Lemma toy_granted : let _ := toy_env no_plugins None in
  stcp_granted toy_times toy_visitor (toy_session [] "vis" 2 []) "own" "k" 1.
Proof.
  intros env. split; try (vm_compute; (reflexivity || discriminate)).
  - split; vm_compute; discriminate.
  - by apply (create_bridge_Ok_iff _ _ "ssh" _ "own" "vis" "" "").
  - by exists [].
Qed.

