(* ===== verification/Login.v ===== *)
(** * Login and the life of a session (src/rust_frp_server/src/control.rs
    [Control::run], src/rust_frp_server/src/server/control.rs)

    What the first message of a control connection leads to: the throttle, the
    check of the credentials, the plugins, the registration in the session
    registry with the take-over of an older session of the same client, and the
    answer.  [session] puts it together with the message loop of Control.v and
    with the task that owns the session ([spawn_control]). *)
From S2P Require Import Prelude RustStd RustFmt ConfigTypes Transport EncStream IoConn WireV2 Secrets.
From S2P Require Import Routers Groups ProxyManager Throttle StcpBridge WorkPool CoreMsg HttpClient.
From S2P Require Import JsonValue Auth ServerPlugin Metrics ControlManager StateErr Control.

(** What reading the first message gave; the reader's limit and the time-out
    are those of CoreMsg.v and [LOGIN_READ_TIMEOUT]. *)
Inductive first_read :=
| FirstMsg (m : Message)
| FirstTimeout
| FirstFailed (e : string).

Definition LOGIN_READ_TIMEOUT : Z := secs 30.

Section Login.
Context `{Os, RingHash, Base64, Jwt, HashIter, ServerEnv}.

Definition login_resp (c : Control) (run_id error : string) : Message :=
  LoginResp {| lr_version := env_version; lr_run_id := run_id; lr_error := error;
               lr_work_conn_tls := ct_work_conn_tls c; lr_work_conn_port := ct_work_conn_port c |}.

(** A failure to send it is only logged. *)
Definition send_login_error (message : string) : M unit :=
  c ← gets ctl;
  _ ← attempt_st (write_msg (login_resp c EmptyString message));
  mret tt.

(** [if let (Some(throttle), Some(key)) = ..]: one call of the throttle. *)
Definition with_login_throttle {A} (absent : A) (key : option ThrottleKey)
    (f : LoginThrottle -> ThrottleKey -> A * LoginThrottle) : M A := fun s =>
  match login_throttle (w_cm (world s)), key with
  | Some throttle, Some key =>
      let '(a, throttle) := f throttle key in
      (Ok a, set_world s (with_cm (with_throttle (w_cm (world s)) (Some throttle)) (world s)))
  | _, _ => (Ok absent, s)
  end.

Definition upd_metrics (f : MonitorMetrics -> MonitorMetrics) : M unit :=
  upd_world (fun w => with_metrics (f (w_metrics w)) w).

Definition upd_cm (f : ControlManager nat nat nat -> ControlManager nat nat nat) : M unit :=
  upd_world (fun w => with_cm (f (w_cm w)) w).

Definition login_key (c : Control) (msg : LoginMsg) : option ThrottleKey :=
  throttle_key (lm_client_id msg) (ct_remote c).

Definition check_throttle (t : times) (msg : LoginMsg) : M unit :=
  key ← gets (fun s => login_key (ctl s) msg);
  locked ← with_login_throttle (Ok tt) key (fun th k => check th (t_now t) k);
  match locked with
  | Ok _ => mret tt
  | Err remaining =>
      _ ← upd_metrics incr_login_failures;
      _ ← send_login_error ("too many failed login attempts; retry in "
                            +:+ dec (remaining / secs 1) +:+ " second(s)")%string;
      throw "login throttled"%string
  end.

(** [self.auth_manager.verify_login], on the shared snapshot. *)
Definition run_verify_login (t : times) (token : string) : M (result string unit) := fun s =>
  match the_auth s with
  | Some a =>
      let '(r, a) := auth_verify_login env_fetch a (t_auth t) token in
      (Ok r, set_world s (with_auths (<[ct_auth (ctl s) := a]> (w_auths (world s))) (world s)))
  | None => (Ok (Err "no authentication manager"%string), s)
  end.

Definition check_credentials (t : times) (msg : LoginMsg) : M unit :=
  key ← gets (fun s => login_key (ctl s) msg);
  verified ← run_verify_login t (lm_token msg);
  match verified with
  | Err e =>
      _ ← upd_metrics incr_login_failures;
      _ ← with_login_throttle 0 key (fun th k => record_failure th (t_now t) k);
      _ ← send_login_error "login verification failed: invalid credentials";
      throw (env_error_debug e)
  | Ok _ =>
      _ ← upd_metrics incr_login_successes;
      with_login_throttle tt key (fun th k => (tt, record_success th k))
  end.

Definition login_content (msg : LoginMsg) : value :=
  JObj [("user", JStr (lm_user msg)); ("run_id", JStr (lm_run_id msg));
        ("client_id", JStr (lm_client_id msg)); ("hostname", JStr (lm_hostname msg));
        ("os", JStr (lm_os msg)); ("arch", JStr (lm_arch msg)); ("version", JStr (lm_version msg));
        ("timestamp", JInt (lm_timestamp msg)); ("pool_count", JInt (lm_pool_count msg));
        ("metas", json_metas (lm_metas msg))]%string.

Definition ask_login_plugins (msg : LoginMsg) : M value :=
  match callback plugin_login (login_content msg) with
  | (Ok _, content) => mret content
  | (Err why, _) =>
      _ ← upd_metrics incr_login_failures;
      throw ("login rejected by plugin: " +:+ why)%string
  end.

Definition content_metas (content : value) : gmap string string :=
  match get "metas" content with
  | Some (JObj fields) =>
      foldl (fun m kv => match as_str kv.2 with Some s => <[kv.1 := s]> m | None => m end) ∅ fields
  | _ => ∅
  end.

Definition take_identity (content : value) : M unit :=
  upd_ctl (fun c => set_identity c
    (default EmptyString (get_str "run_id" content)) (default EmptyString (get_str "user" content))
    (default EmptyString (get_str "client_id" content))
    (wrap_u32 (default 0 (get "pool_count" content ≫= as_u64))) (content_metas content)).

Definition check_client_id (hostname : string) : M unit :=
  reason ← gets (fun s => degraded_client_id_reason (ct_client_id (ctl s)) hostname (ct_run_id (ctl s)));
  policy ← gets (fun s => client_id_policy (w_cm (world s)));
  match reason, policy with
  | Some _, Reject =>
      _ ← upd_metrics incr_login_failures;
      _ ← send_login_error "client_id is empty or equals the hostname; set an explicit unique client_id in frpc config (server enforces auth.client_id_policy = reject)";
      throw "client_id degraded and rejected by policy"%string
  | _, _ => mret tt
  end.

Definition registration (c : Control) (msg : LoginMsg) : ClientRegistration :=
  {| cr_run_id := ct_run_id c; cr_client_id := ct_client_id c; cr_user := ct_user c;
     cr_version := lm_version msg; cr_hostname := lm_hostname msg;
     cr_client_ip := default EmptyString (env_ip_text <$> ct_remote c);
     cr_wire_protocol := wire_as_str (ct_wire c); cr_cert_fingerprint := ct_fingerprint c |}.

(** The registry: the new client, its snapshot, the take-over, its signal. *)
Definition register_client (t : times) (msg : LoginMsg) : M unit :=
  c ← gets ctl;
  _ ← upd_cm (fun m => add_client m (registration c msg) (t_now t) (t_ts t));
  _ ← upd_cm (fun m => set_auth_manager m (ct_run_id c) (ct_auth c));
  _ ← upd_world (fun w => (kick_same_client w_cm (fun w m => with_cm m w) env_await_kicked
        (ct_client_id c) (ct_run_id c) (ct_fingerprint c) w).2);
  upd_cm (fun m => register_kick m (ct_run_id c) (ct_chan c)).

Definition handle_login (t : times) (msg : LoginMsg) : M unit :=
  _ ← check_throttle t msg;
  _ ← check_credentials t msg;
  content ← ask_login_plugins msg;
  _ ← take_identity content;
  _ ← check_client_id (lm_hostname msg);
  _ ← register_client t msg;
  c ← gets ctl;
  _ ← write_or_cleanup t (login_resp c (ct_run_id c) EmptyString);
  upd_ctl (fun c => set_session c (ct_last_heartbeat c) (ct_registered c) true).

(** The part of [run] before the loop. *)
Definition run_login (t : times) (pre_read : option LoginMsg) (first : first_read) : M unit :=
  match (match pre_read with Some login => FirstMsg (Login login) | None => first end) with
  | FirstTimeout => throw "login read timeout"%string
  | FirstFailed e => _ ← cleanup_proxies t; throw e
  | FirstMsg (Login msg) => handle_login t msg
  | FirstMsg _ => throw "Unexpected first message"%string
  end.

(** ** The session's tasks ([spawn_control]) *)

(** The channel and the receiver of [msg_rx] live as long as [run]. *)
Definition open_channel : M unit := modify (fun s => set_world s
  (set_chans (<[ct_chan (ctl s) := []]> (chans (w_out (world s)))) (world s))).
Definition close_channel : M unit := modify (fun s => set_world s
  (set_chans (delete (ct_chan (ctl s)) (chans (w_out (world s)))) (world s))).

(** [cm.add(run_id, msg_tx)], by the task that waits for the login. *)
Definition register_channel : M unit :=
  c ← gets ctl; upd_cm (fun m => ControlManager.add m (ct_run_id c) (ct_chan c)).

Definition unregister (ts : Z) : M unit :=
  c ← gets ctl; upd_cm (fun m => ControlManager.remove m (ct_run_id c) ts).

(** A whole session: the loop runs on [before] before the waiting task has
    registered the channel, and on [after_add] afterwards.  The outcome is that
    of [run], which the spawned task only logs. *)
Definition session (t : times) (pre_read : option LoginMsg) (first : first_read)
    (before after_add : list (times * session_event)) (end_ts : Z) : M (result string unit) :=
  _ ← open_channel;
  r ← attempt_st (run_login t pre_read first);
  match r with
  | Err e => _ ← close_channel; mret (Err e)
  | Ok _ =>
      r1 ← attempt_st (session_loop before);
      _ ← (match r1 with Ok true => mret tt | _ => close_channel end);
      _ ← register_channel;
      r2 ← (match r1 with
            | Ok true => r2 ← attempt_st (session_loop after_add); _ ← close_channel; mret r2
            | _ => mret r1
            end);
      _ ← unregister end_ts;
      mret (match r2 with Ok _ => Ok tt | Err e => Err e end)
  end.

(** ** What a login leaves *)

(** The registry's tables and settings, without the throttle. *)
Definition tables (m : ControlManager nat nat nat) :=
  (msg_channels m, auth_managers m, clients m, offline_clients m, kick_signals m,
   client_id_policy m, kick_require_same_cert m).

(** Only the throttle, the counters, the verifiers and the traffic changed. *)
Record login_frame (s s' : Session) : Prop := {
  lf_tables : tables (w_cm (world s')) = tables (w_cm (world s));
  lf_ctl : set_io (ctl s') [] [] = set_io (ctl s) [] [];
}.

#[local] Instance login_frame_refl : Reflexive login_frame.
Proof. by split. Qed.
#[local] Instance login_frame_trans : Transitive login_frame.
Proof. intros a b c [] []. split; congruence. Qed.

Lemma upd_metrics_frame f s r s' : upd_metrics f s = (r, s') -> login_frame s s'.
Proof. by intros [= <- <-]. Qed.

Lemma write_msg_frame msg s r s' : write_msg msg s = (r, s') -> login_frame s s' /\ world s' = world s.
Proof.
  unfold write_msg. destruct (match ct_answers (ctl s) with [] => _ | _ => _ end) as [[] rest];
    intros [= <- <-]; done.
Qed.

Lemma send_login_error_frame msg s r s' : send_login_error msg s = (r, s') -> login_frame s s'.
Proof.
  unfold send_login_error, gets, mbind, st_bind, attempt_st.
  destruct (write_msg _ s) as [r1 s1] eqn:E. apply write_msg_frame in E as [E _]. by intros [= <- <-].
Qed.

Lemma with_login_throttle_frame {A} (d : A) key f s r s' :
  with_login_throttle d key f s = (r, s') -> login_frame s s'.
Proof.
  unfold with_login_throttle. destruct (login_throttle _), key; try by intros [= <- <-].
  destruct (f _ _). by intros [= <- <-].
Qed.

Lemma run_verify_login_frame t token s r s' : run_verify_login t token s = (r, s') -> login_frame s s'.
Proof.
  unfold run_verify_login. destruct (the_auth s); [|by intros [= <- <-]].
  destruct (auth_verify_login _ _ _ _). by intros [= <- <-].
Qed.

#[local] Hint Resolve upd_metrics_frame send_login_error_frame with_login_throttle_frame
  run_verify_login_frame : login.

(** A frame goes through every step of a computation. *)
Lemma frame_bind {A B} (m : M A) (f : A -> M B) s r s' :
  (forall r s', m s = (r, s') -> login_frame s s') ->
  (forall a s r s', f a s = (r, s') -> login_frame s s') ->
  (m ≫= f) s = (r, s') -> login_frame s s'.
Proof.
  intros Hm Hf. unfold mbind, st_bind. destruct (m s) as [[a|e] s1] eqn:E.
  - intros E2. etransitivity; [by eapply Hm|by eapply Hf].
  - intros [= <- <-]. by eapply Hm.
Qed.

Lemma check_throttle_frame t msg s r s' : check_throttle t msg s = (r, s') -> login_frame s s'.
Proof.
  unfold check_throttle. apply frame_bind; [by intros ? ? [= <- <-]|]. intros key s1 r1 s2.
  apply frame_bind; [eauto with login|]. intros [[]|e] s3 r3 s4; [by intros [= <- <-]|].
  apply frame_bind; [eauto with login|]. intros _ s5 r5 s6.
  apply frame_bind; [eauto with login|]. by intros _ s7 r7 s8 [= <- <-].
Qed.

Lemma check_credentials_frame t msg s r s' : check_credentials t msg s = (r, s') -> login_frame s s'.
Proof.
  unfold check_credentials. apply frame_bind; [by intros ? ? [= <- <-]|]. intros key s1 r1 s2.
  apply frame_bind; [eauto with login|]. intros [[]|e] s3 r3 s4.
  - apply frame_bind; eauto with login.
  - apply frame_bind; [eauto with login|]. intros _ s5 r5 s6.
    apply frame_bind; [eauto with login|]. intros _ s7 r7 s8.
    apply frame_bind; [eauto with login|]. by intros _ s9 r9 s10 [= <- <-].
Qed.

Lemma ask_login_plugins_frame msg s r s' : ask_login_plugins msg s = (r, s') -> login_frame s s'.
Proof.
  unfold ask_login_plugins. destruct (callback _ _) as [[]]; [by intros [= <- <-]|].
  apply frame_bind; [eauto with login|]. by intros _ s1 r1 s2 [= <- <-].
Qed.

Lemma check_client_id_frame host s r s' : check_client_id host s = (r, s') -> login_frame s s'.
Proof.
  unfold check_client_id. apply frame_bind; [by intros ? ? [= <- <-]|]. intros why s1 r1 s2.
  apply frame_bind; [by intros ? ? [= <- <-]|]. intros policy s3 r3 s4.
  destruct why, policy; try by intros [= <- <-].
  apply frame_bind; [eauto with login|]. intros _ s5 r5 s6.
  apply frame_bind; [eauto with login|]. by intros _ s7 r7 s8 [= <- <-].
Qed.

(** The take-over leaves the entries of the new session alone, provided no
    other session uses its run id while one waits. *)
Definition run_id_is_own (run_id : string) : Prop := forall sig old w, old <> run_id ->
  clients (w_cm (env_await_kicked sig old w)) !! run_id = clients (w_cm w) !! run_id /\
  auth_managers (w_cm (env_await_kicked sig old w)) !! run_id = auth_managers (w_cm w) !! run_id.

Lemma kick_sessions_own run_id fp old_sessions : run_id_is_own run_id ->
  Forall (fun o => o.1 <> run_id) old_sessions -> forall w,
  let w' := (kick_sessions w_cm (fun w m => with_cm m w) env_await_kicked fp old_sessions w).2 in
  clients (w_cm w') !! run_id = clients (w_cm w) !! run_id /\
  auth_managers (w_cm w') !! run_id = auth_managers (w_cm w) !! run_id.
Proof.
  intros Hown. induction 1 as [|[old old_fp] old_sessions Hne _ IH]; intros w; [done|].
  cbn [kick_sessions]. simpl in Hne. destruct (kick_refused _ _ _); [apply IH|].
  assert (forall w, let w' := kick_session w_cm (fun w m => with_cm m w) env_await_kicked old w in
    clients (w_cm w') !! run_id = clients (w_cm w) !! run_id /\
    auth_managers (w_cm w') !! run_id = auth_managers (w_cm w) !! run_id) as Hk.
  { intros w0. unfold kick_session. destruct (take_kick_signal (w_cm w0) old) as [sig m] eqn:Et.
    injection Et as <- <-. destruct (kick_signals (w_cm w0) !! old) as [sig|]; simpl;
      rewrite !lookup_delete_ne by congruence; [|done].
    destruct (Hown sig old (with_cm (with_tables (w_cm w0) (msg_channels (w_cm w0)) (auth_managers (w_cm w0))
      (clients (w_cm w0)) (offline_clients (w_cm w0)) (delete old (kick_signals (w_cm w0)))) w0) Hne) as [-> ->].
    done. }
  specialize (Hk w). specialize (IH (kick_session w_cm (fun w m => with_cm m w) env_await_kicked old w)).
  cbn zeta in *.
  destruct (kick_sessions _ _ _ fp old_sessions _) as [kicked w1]. simpl in *.
  destruct Hk as [<- <-], IH as [<- <-]. done.
Qed.

Lemma kick_candidates_own (m : ControlManager nat nat nat) client_id run_id :
  Forall (fun o => o.1 <> run_id) (kick_candidates m client_id run_id).
Proof.
  apply Forall_forall. intros [old fp] Hin. unfold kick_candidates in Hin.
  apply list_elem_of_omap in Hin as (c & _ & Hc). case_decide as Hd; [|done].
  injection Hc as <- <-. apply Hd.
Qed.

(** The login's key is locked until [until]. *)
Definition locked_at (t : times) (msg : LoginMsg) (s : Session) (until : Z) : Prop := exists th k e,
  login_throttle (w_cm (world s)) = Some th /\ login_key (ctl s) msg = Some k /\
  state th !! k = Some e /\ locked_until e = Some until /\ t_now t < until.

Lemma check_locked th now k : (check th now k).1 <> Ok tt <->
  exists e until, state th !! k = Some e /\ locked_until e = Some until /\ now < until.
Proof.
  unfold check. destruct (state th !! k) as [e|]; [|split; [done|by intros (? & ? & ? & _)]].
  destruct (locked_until e) as [until|] eqn:El.
  - case_decide; (split; [intros|intros (e' & u & [= <-] & E & ?)]); try done; [by exists e, until|]. congruence.
  - split; [done|]. intros (e' & u & [= <-] & E & ?). congruence.
Qed.

(** What it takes to log in; [content] is what the plugins left. *)
Record login_granted (t : times) (msg : LoginMsg) (s : Session) (content : value) : Prop := {
  lg_throttle : forall until, ~ locked_at t msg s until;
  lg_credentials : exists a, the_auth s = Some a /\
    (auth_verify_login env_fetch a (t_auth t) (lm_token msg)).1 = Ok tt /\
    forall token, auth_verifier a = TokenVerifier token -> lm_token msg = token;
  lg_plugins : callback plugin_login (login_content msg) = (Ok tt, content);
  lg_policy : client_id_policy (w_cm (world s)) = Reject ->
    let id := default EmptyString (get_str "client_id" content) in id <> EmptyString /\ id <> lm_hostname msg;
}.

Lemma check_throttle_Ok t msg s s1 : check_throttle t msg s = (Ok tt, s1) ->
  (forall until, ~ locked_at t msg s until) /\ w_auths (world s1) = w_auths (world s).
Proof.
  intros E. assert ((forall th k, login_throttle (w_cm (world s)) = Some th -> login_key (ctl s) msg = Some k ->
    (check th (t_now t) k).1 = Ok tt) /\ w_auths (world s1) = w_auths (world s)) as [Ho Ha].
  - revert E. unfold check_throttle, gets, mbind, st_bind. unfold with_login_throttle at 1.
    destruct (login_throttle _) as [th|]; [destruct (login_key _ _) as [k|]|].
    + destruct (check th (t_now t) k) as [[[]|rem] th'] eqn:Ec.
      * intros [= <-]. split; [|done]. intros ? ? [= <-] [= <-]. by rewrite Ec.
      * cbn beta iota. unfold upd_metrics, upd_world, modify. cbn beta iota.
        by destruct (send_login_error _ _) as [[] ?].
    + by intros [= <-].
    + by intros [= <-].
  - split; [|done]. intros u (th & k & e & Hth & Hk & Hl).
    apply (proj2 (check_locked th (t_now t) k)); [by exists e, u|by apply Ho].
Qed.

Lemma check_credentials_Ok t msg s s1 : check_credentials t msg s = (Ok tt, s1) ->
  exists a, the_auth s = Some a /\ (auth_verify_login env_fetch a (t_auth t) (lm_token msg)).1 = Ok tt /\
    forall token, auth_verifier a = TokenVerifier token -> lm_token msg = token.
Proof.
  intros E0. assert (exists a, the_auth s = Some a /\
    (auth_verify_login env_fetch a (t_auth t) (lm_token msg)).1 = Ok tt) as (a & Ha & Hv); [revert E0|].
  2:{ exists a. split_and!; [done|done|]. intros token Ht. unfold auth_verify_login, verify_login in Hv.
      rewrite Ht in Hv. cbn [fst] in Hv. destruct (str_eq_ct _ _) eqn:Ee; [|done]. by apply str_eq_ct_true in Ee. }
  unfold check_credentials, gets, mbind, st_bind, run_verify_login.
  assert (Hbad : forall (X : result string unit * Session) e, (let '(p, s0) := X in match p with
      | Ok _ => (Err (env_error_debug e), s0) | Err e0 => (Err e0, s0) end) <> (Ok tt, s1)).
  { by intros [[] ?]. }
  destruct (the_auth s) as [a|].
  - destruct (auth_verify_login _ _ _ _) as [[[]|e] a'] eqn:Ev; [intros _; exists a; by rewrite Ev|].
    cbn beta iota. unfold upd_metrics, upd_world, modify. cbn beta iota.
    destruct (with_login_throttle _ _ _ _) as [[] ?]; [|done]. by intros ?%Hbad.
  - cbn beta iota. unfold upd_metrics, upd_world, modify. cbn beta iota.
    destruct (with_login_throttle _ _ _ _) as [[] ?]; [|done]. by intros ?%Hbad.
Qed.

Lemma tables_clients (m m' : ControlManager nat nat nat) : tables m' = tables m ->
  clients m' = clients m /\ auth_managers m' = auth_managers m /\ client_id_policy m' = client_id_policy m.
Proof. unfold tables. by intros [=]. Qed.

(** The identity a login takes. *)
Definition login_identity (content : value) (c : Control) : Control :=
  set_identity c
    (default EmptyString (get_str "run_id" content)) (default EmptyString (get_str "user" content))
    (default EmptyString (get_str "client_id" content))
    (wrap_u32 (default 0 (get "pool_count" content ≫= as_u64))) (content_metas content).

(** The part of a login before the registry. *)
Lemma login_checks_Ok t msg s s5 :
  (_ ← check_throttle t msg; _ ← check_credentials t msg; content ← ask_login_plugins msg;
   _ ← take_identity content; check_client_id (lm_hostname msg)) s = (Ok tt, s5) ->
  exists content, login_granted t msg s content /\
    tables (w_cm (world s5)) = tables (w_cm (world s)) /\
    set_io (ctl s5) [] [] = set_io (login_identity content (ctl s)) [] [].
Proof.
  intros ([] & s1 & E1 & E)%st_bind_Ok.
  pose proof (check_throttle_frame _ _ _ _ _ E1) as F1. apply check_throttle_Ok in E1 as [Ht Ha1].
  apply st_bind_Ok in E as ([] & s2 & E2 & E).
  pose proof (check_credentials_frame _ _ _ _ _ E2) as F2.
  apply check_credentials_Ok in E2 as (a & Ha & Hv & Htok).
  apply st_bind_Ok in E as (content & s3 & E3 & E).
  pose proof (ask_login_plugins_frame _ _ _ _ E3) as F3.
  apply st_bind_Ok in E as ([] & s4 & [= <-] & E5).
  pose proof (check_client_id_frame _ _ _ _ E5) as [F5 F5'].
  assert (F : login_frame s s3) by (by rewrite F1, F2). destruct F as [F F'].
  exists content. split_and!.
  - split; [done| | |].
    + exists a. split; [|by split]. rewrite <- Ha. unfold the_auth. rewrite Ha1.
      destruct F1 as [_ F1]. f_equal. by injection F1.
    + unfold ask_login_plugins in E3. destruct (callback _ _) as [[[]|why] c]; [by injection E3 as <-|].
      unfold upd_metrics, upd_world, modify, mbind, st_bind in E3. done.
    + intros Hp. unfold check_client_id, gets, mbind, st_bind in E5. cbn [world ctl] in E5.
      simpl in F5. destruct (tables_clients _ _ F) as (_ & _ & Fp).
      simpl in E5. rewrite Fp, Hp in E5. unfold degraded_client_id_reason in E5.
      assert (Hbad : forall (X : result string unit * Session) e, (let '(p, s0) := X in match p with
        | Ok _ => (Err (T := unit) e, s0) | Err e0 => (Err e0, s0) end) <> (Ok tt, s5))
        by (by intros [[] ?]).
      destruct (is_empty (default _ _)) eqn:He.
      { unfold upd_metrics, upd_world, modify in E5. cbn beta iota in E5. by apply Hbad in E5. }
      case_decide as Hh.
      { unfold upd_metrics, upd_world, modify in E5. cbn beta iota in E5. by apply Hbad in E5. }
      split; [by apply is_empty_false|done].
  - by rewrite F5.
  - rewrite F5'. change (login_identity content (set_io (ctl s3) [] []) =
      login_identity content (set_io (ctl s) [] [])). by rewrite F'.
Qed.

Lemma register_client_spec t msg s r s' : register_client t msg s = (r, s') ->
  r = Ok tt /\ ctl s' = ctl s /\
  let id := ct_run_id (ctl s) in let m := w_cm (world s') in
  kick_signals m !! id = Some (ct_chan (ctl s)) /\
  (run_id_is_own id ->
    clients m !! id = Some (new_client (registration (ctl s) msg) (t_now t) (t_ts t)) /\
    auth_managers m !! id = Some (ct_auth (ctl s))).
Proof.
  unfold register_client, upd_cm, upd_world, gets, modify, mbind, st_bind. cbn beta iota.
  intros [= <- <-]. cbn zeta. cbn [ctl world set_world w_cm with_cm].
  split_and!; [done|done|simpl; apply lookup_insert_eq|]. intros Hown.
  set (w0 := with_cm _ _). unfold kick_same_client.
  destruct (kick_sessions_own (ct_run_id (ctl s)) (ct_fingerprint (ctl s))
    (kick_candidates (w_cm w0) (ct_client_id (ctl s)) (ct_run_id (ctl s))) Hown
    (kick_candidates_own _ _ _) w0) as [E1 E2]. split.
  - cbn [register_kick with_tables clients]. rewrite E1. simpl. apply lookup_insert_eq.
  - cbn [register_kick with_tables auth_managers]. rewrite E2. simpl. apply lookup_insert_eq.
Qed.

Lemma login_split t msg s r s' : handle_login t msg s = (r, s') ->
  (exists e, r = Err e /\ tables (w_cm (world s')) = tables (w_cm (world s))) \/
  exists s5 content, login_granted t msg s content /\
    set_io (ctl s5) [] [] = set_io (login_identity content (ctl s)) [] [] /\
    (_ ← register_client t msg; c ← gets ctl;
     _ ← write_or_cleanup t (login_resp c (ct_run_id c) EmptyString);
     upd_ctl (fun c => set_session c (ct_last_heartbeat c) (ct_registered c) true)) s5 = (r, s').
Proof.
  unfold handle_login. set (rest := fun _ : unit => _ ← register_client t msg; _).
  intros E.
  assert (E' : ((_ ← check_throttle t msg; _ ← check_credentials t msg; content ← ask_login_plugins msg;
    _ ← take_identity content; check_client_id (lm_hostname msg)) ≫= rest) s = (r, s')).
  { unfold mbind, st_bind in *. repeat case_match; simplify_eq/=; done. }
  clear E. destruct r as [[]|e].
  - apply st_bind_Ok in E' as ([] & s5 & E5 & E). right.
    apply login_checks_Ok in E5 as (content & Hg & _ & Hc). by exists s5, content.
  - apply st_bind_Err in E' as [E|([] & s5 & E5 & E)].
    + left. exists e. split; [done|]. revert E. set (checks := _ ≫= _). intros E.
      assert (forall s r s', checks s = (r, s') -> tables (w_cm (world s')) = tables (w_cm (world s))) as Hf;
        [|by eapply Hf]. clear. intros s r s' E.
      assert (Hb : forall A B (m : M A) (f : A -> M B),
        (forall s r s', m s = (r, s') -> tables (w_cm (world s')) = tables (w_cm (world s))) ->
        (forall a s r s', f a s = (r, s') -> tables (w_cm (world s')) = tables (w_cm (world s))) ->
        forall s r s', (m ≫= f) s = (r, s') -> tables (w_cm (world s')) = tables (w_cm (world s))).
      { intros A B m f Hm Hf s0 r0 s1. unfold mbind, st_bind. destruct (m s0) as [[x|e0] s2] eqn:E2.
        - intros E3. etransitivity; [by eapply Hf|by eapply Hm].
        - intros [= <- <-]. by eapply Hm. }
      revert s r s' E. apply Hb; [intros ? ? ? [? _]%check_throttle_frame; done|]. intros _.
      apply Hb; [intros ? ? ? [? _]%check_credentials_frame; done|]. intros _.
      apply Hb; [intros ? ? ? [? _]%ask_login_plugins_frame; done|]. intros content.
      apply Hb; [by intros ? ? ? [= <- <-]|]. intros _ ? ? ? [? _]%check_client_id_frame. done.
    + right. apply login_checks_Ok in E5 as (content & Hg & _ & Hc). by exists s5, content.
Qed.

Lemma write_msg_Ok msg s s' : write_msg msg s = (Ok tt, s') ->
  world s' = world s /\ ct_sent (ctl s') = ct_sent (ctl s) ++ [msg].
Proof.
  unfold write_msg. destruct (match ct_answers (ctl s) with [] => _ | _ => _ end) as [[] rest];
    by intros [= <-].
Qed.

Lemma write_or_cleanup_Ok t msg s s' : write_or_cleanup t msg s = (Ok tt, s') ->
  write_msg msg s = (Ok tt, s').
Proof.
  unfold write_or_cleanup, attempt_st, mbind, st_bind. destruct (write_msg msg s) as [[[]|e] s1]; [by intros [= <-]|].
  by destruct (cleanup_proxies t s1) as [[] ?].
Qed.

Lemma set_io_run_id c c' : set_io c [] [] = set_io c' [] [] ->
  ct_run_id c = ct_run_id c' /\ ct_auth c = ct_auth c' /\ ct_chan c = ct_chan c' /\
  (forall msg, registration c msg = registration c' msg) /\
  (forall id e, login_resp c id e = login_resp c' id e).
Proof. destruct c, c'. unfold set_io, registration, login_resp. simpl. intros [=]. by subst. Qed.

(** C33: a login succeeds only when its key is not locked, the credentials verify
    (with a token: it is the configured one), every plugin accepts and, under the
    reject policy, the client id is neither empty nor the host name.  The session
    then has the identity the plugins left and its kick signal is registered
    under that run id, and the client was told that run id without an error.
    The registry has, under that run id, this client and the authentication
    snapshot its credentials were checked with, provided that nobody else
    changed these two entries while this login waited for the older sessions it
    takes over; a second login of the same client at the same time may (theorem
    racing_logins_lose_snapshot). *)
Theorem login_registers t msg s s' : handle_login t msg s = (Ok tt, s') ->
  exists content, login_granted t msg s content /\
    let id := default EmptyString (get_str "run_id" content) in let m := w_cm (world s') in
    ct_run_id (ctl s') = id /\ ct_logged_in (ctl s') = true /\
    kick_signals m !! id = Some (ct_chan (ctl s)) /\
    last (ct_sent (ctl s')) = Some (login_resp (ctl s') id EmptyString) /\
    (run_id_is_own id ->
      clients m !! id = Some (new_client (registration (login_identity content (ctl s)) msg) (t_now t) (t_ts t)) /\
      auth_managers m !! id = Some (ct_auth (ctl s))).
Proof.
  intros [(e & ? & _)|(s5 & content & Hg & Hc & E)]%login_split; [done|].
  exists content. split; [done|]. cbn zeta.
  apply set_io_run_id in Hc as (Hid & Hau & Hch & Hreg & _).
  apply st_bind_Ok in E as ([] & s6 & E6 & E).
  apply register_client_spec in E6 as (_ & Hc6 & H6). cbn zeta in H6.
  apply st_bind_Ok in E as (c & s7 & [= <- <-] & E). apply st_bind_Ok in E as ([] & s8 & E8 & [= <-]).
  apply write_or_cleanup_Ok in E8. pose proof (write_msg_frame _ _ _ _ E8) as [[_ F8] _].
  apply write_msg_Ok in E8 as [W8 S8]. cbn [ctl world set_session ct_run_id ct_logged_in ct_sent].
  apply set_io_run_id in F8 as F8'. destruct F8' as (Hid8 & _ & _ & _ & Hresp).
  rewrite W8, S8, last_snoc, Hid8, Hc6, Hid.
  rewrite Hid, Hreg, Hau, Hch in H6. destruct H6 as (H61 & H62). split_and!; try done.
  f_equal. rewrite <- Hc6. symmetry. apply (Hresp _ EmptyString).
Qed.

(** A login that fails leaves the tables of the registry alone, with one
    exception: the final answer could not be written, after the registration. *)
Lemma failed_login t msg s e s' : (forall id, run_id_is_own id) ->
  handle_login t msg s = (Err e, s') ->
  tables (w_cm (world s')) = tables (w_cm (world s)) \/
  exists content, login_granted t msg s content /\
    is_Some (clients (w_cm (world s')) !! default EmptyString (get_str "run_id" content)).
Proof.
  intros Hown [(e' & _ & Ht)|(s5 & content & Hg & Hc & E)]%login_split; [by left|]. right.
  exists content. split; [done|]. apply set_io_run_id in Hc as (Hid & _).
  apply st_bind_Err in E as [E|([] & s6 & E6 & E)].
  { by apply register_client_spec in E as (? & _). }
  apply register_client_spec in E6 as (_ & Hc6 & _ & H6). cbn zeta in H6. destruct (H6 (Hown _)) as [H6' _]. clear H6.
  apply st_bind_Err in E as [?|(c & s7 & [= <- <-] & E)]; [done|].
  apply st_bind_Err in E as [E|([] & s8 & E8 & E)]; [|done].
  unfold write_or_cleanup, attempt_st, mbind, st_bind in E.
  destruct (write_msg _ s6) as [[[]|e1] s7] eqn:Ew; [done|].
  apply write_msg_frame in Ew as [[Ft _] _]. apply tables_clients in Ft as [Fc _].
  cbn beta iota in E. destruct (cleanup_proxies_eq t s7) as (w & Ecl & Cl). rewrite Ecl in E. injection E as <- <-.
  destruct Cl as [_ _ _ _ _ _ (_ & Hcm & _)]. simpl. rewrite Hcm, Fc. simpl in Hid. rewrite <- Hid, H6'. eauto.
Qed.

(** C34: while its key is locked a login is always refused, whatever its
    credentials: the outcome is the same for every token.  One thing changes in
    the server, the count of failed logins; the throttle, the authentication
    snapshots, the registry and everything else stay as they are.  The client
    is told, in a LoginResp without a run id, for how many seconds the lock
    lasts, if that can be written. *)
Theorem locked_login_refused t msg s until : locked_at t msg s until ->
  exists s', handle_login t msg s = (Err "login throttled"%string, s') /\
    world s' = with_metrics (incr_login_failures (w_metrics (world s))) (world s) /\
    ct_sent (ctl s') = ct_sent (ctl s) ++ match next_write (ctl s) with
      | WDone => [LoginResp {| lr_version := env_version; lr_run_id := EmptyString;
          lr_error := ("too many failed login attempts; retry in " +:+ dec ((until - t_now t) / secs 1)
                       +:+ " second(s)")%string;
          lr_work_conn_tls := ct_work_conn_tls (ctl s); lr_work_conn_port := ct_work_conn_port (ctl s) |}]
      | _ => []
      end.
Proof.
  intros (th & k & e & Hth & Hk & He & Hu & Hlt). unfold handle_login, check_throttle, gets, mbind, st_bind.
  unfold with_login_throttle at 1. rewrite Hth, Hk. unfold check. rewrite He, Hu, decide_True by done. cbn beta iota.
  assert (with_cm (with_throttle (w_cm (world s)) (Some th)) (world s) = world s) as Hw.
  { destruct s as [c w]. cbn [world] in *. destruct w as [w1 w2 w3 w4 w5 cm w7 w8 w9 w10]. cbn [w_cm] in *.
    destruct cm. simpl in Hth. by subst. }
  rewrite Hw. unfold upd_metrics, upd_world, modify. cbn beta iota.
  unfold send_login_error, gets, mbind, st_bind, attempt_st, write_msg, next_write. cbn [ctl set_world world].
  destruct (ct_answers (ctl s)) as [|[] rest]; (eexists; split; [reflexivity|]); (split; [done|]); cbn; by rewrite ?app_nil_r.
Qed.

(** ** The registry after a session *)

(** Nothing of the session is left in the registry. *)
Definition unregistered (id : string) (w : World) : Prop :=
  get_msg_tx (w_cm w) id = None /\ get_auth_manager (w_cm w) id = None /\
  clients (w_cm w) !! id = None /\ kick_signals (w_cm w) !! id = None.

Lemma unregister_spec ts s s' : unregister ts s = (Ok tt, s') ->
  unregistered (ct_run_id (ctl s)) (world s') /\ ctl s' = ctl s.
Proof. intros [= <-]. split; [|done]. split_and!; apply lookup_delete_eq. Qed.

Lemma close_channel_spec s : exists s', close_channel s = (Ok tt, s') /\ ctl s' = ctl s /\
  chans (w_out (world s')) = delete (ct_chan (ctl s)) (chans (w_out (world s))).
Proof. eexists. split; [reflexivity|done]. Qed.

Lemma finish_spec ts (r : result string bool) s r' s' :
  (_ ← unregister ts; mret (match r with Ok _ => Ok tt | Err e => Err e end) : M (result string unit)) s
    = (r', s') ->
  unregistered (ct_run_id (ctl s')) (world s') /\ ctl s' = ctl s /\ w_out (world s') = w_out (world s).
Proof.
  intros E. unfold mbind, st_bind in E. destruct (unregister ts s) as [[[]|e] s1] eqn:Eu; [|done].
  pose proof (unregister_spec _ _ _ Eu) as [Hu Hc]. injection E as <- <-. rewrite Hc. split_and!; try done.
  by injection Eu as <-.
Qed.

(** however a session that logged in ends, the registry has nothing under
    its run id afterwards (no message channel, no authentication snapshot, no
    client entry, no kick signal) and its channel is closed. *)
Theorem session_leaves_nothing t pre first before after_add ts s s0 s1 r s' :
  open_channel s = (Ok tt, s0) -> run_login t pre first s0 = (Ok tt, s1) ->
  session t pre first before after_add ts s = (r, s') ->
  unregistered (ct_run_id (ctl s')) (world s') /\
  chans (w_out (world s')) !! ct_chan (ctl s') = None.
Proof.
  intros E0 E1 E. unfold session in E. rewrite (st_bind_eq _ _ _ _ _ E0) in E.
  rewrite (st_bind_eq _ _ _ _ _ (attempt_eq _ _ _ _ E1)) in E.
  destruct (session_loop before s1) as [r1 s2] eqn:E2.
  rewrite (st_bind_eq _ _ _ _ _ (attempt_eq _ _ _ _ E2)) in E. clear E0 E1 E2.
  assert (Hend : forall (r2 : result string bool) s3, chans (w_out (world s3)) !! ct_chan (ctl s3) = None ->
    (_ ← unregister ts; mret (match r2 with Ok _ => Ok tt | Err e => Err e end) : M (result string unit)) s3
      = (r, s') ->
    unregistered (ct_run_id (ctl s')) (world s') /\ chans (w_out (world s')) !! ct_chan (ctl s') = None).
  { intros r2 s3 Hch (Hu & Hc & Ho)%finish_spec. split; [done|]. by rewrite Ho, Hc. }
  assert (Hreg : forall s, exists s3, register_channel s = (Ok tt, s3) /\ ctl s3 = ctl s /\
    w_out (world s3) = w_out (world s)) by (intros s3; eexists; by split).
  assert (Hdead : forall r2 : result string bool, r1 = r2 -> r2 <> Ok true ->
    (_ ← close_channel; _ ← register_channel; r2 ← mret r1; _ ← unregister ts;
     mret (match r2 with Ok _ => Ok tt | Err e => Err e end) : M (result string unit)) s2 = (r, s') ->
    unregistered (ct_run_id (ctl s')) (world s') /\ chans (w_out (world s')) !! ct_chan (ctl s') = None).
  { intros r2 -> _ E1. destruct (close_channel_spec s2) as (s3 & E3 & Hc3 & Hch3).
    rewrite (st_bind_eq _ _ _ _ _ E3) in E1. destruct (Hreg s3) as (s4 & E4 & Hc4 & Ho4).
    rewrite (st_bind_eq _ _ _ _ _ E4) in E1. apply (Hend r2 s4); [|exact E1].
    rewrite Ho4, Hch3, Hc4, Hc3. apply lookup_delete_eq. }
  destruct r1 as [[]|e]; [|by apply (Hdead (Ok false))|by apply (Hdead (Err e))].
  rewrite (st_bind_eq _ _ s2 tt s2) in E by done. destruct (Hreg s2) as (s4 & E4 & Hc4 & Ho4).
  rewrite (st_bind_eq _ _ _ _ _ E4) in E. destruct (session_loop after_add s4) as [r2 s5] eqn:E5.
  destruct (close_channel_spec s5) as (s6 & E6 & Hc6 & Hch6).
  rewrite (st_bind_eq _ _ s4 r2 s6) in E.
  2:{ rewrite (st_bind_eq _ _ _ _ _ (attempt_eq _ _ _ _ E5)). by rewrite (st_bind_eq _ _ _ _ _ E6). }
  apply (Hend r2 s6); [|exact E]. rewrite Hch6, Hc6. apply lookup_delete_eq.
Qed.
End Login.

(** ** A login on the small server *)
#[local] Existing Instance map_order.
#[local] Existing Instance toy_base64.
#[local] Existing Instance toy_jwt.

Definition toy_login (token : string) : LoginMsg :=
  {| lm_arch := "x86"; lm_os := "linux"; lm_hostname := "host"; lm_pool_count := 1; lm_user := "u";
     lm_client_id := "c"; lm_version := "0.2.2"; lm_timestamp := 1000; lm_run_id := "r9";
     lm_token := token; lm_metas := ∅; lm_client_spec := None |}.

Definition toy_start (answers : list write_outcome) (cm : ControlManager nat nat nat) : Session :=
  {| ctl := control_new 0 0 false 0 None CoreMsg.V1 None 9 answers; world := with_cm cm (toy_world []) |}.

(** A session whose answer to a correct login cannot be written is over, but its
    client stays online in the registry, with its authentication snapshot and
    its signal. *)
Theorem ghost_client :
  let env := toy_env no_plugins None in
  let s := toy_start [WFailed "broken pipe"] toy_cm in
  let '(r, s') := session toy_times (Some (toy_login "tok")) FirstTimeout [] [] 2000 s in
  r = Ok (Err "broken pipe"%string) /\
  match clients (w_cm (world s')) !! "r9"%string with Some c => online c = true | None => False end /\
  get_auth_manager (w_cm (world s')) "r9" = Some 0%nat /\ get_msg_tx (w_cm (world s')) "r9" = None.
Proof. vm_compute. by split_and!. Qed.

Definition locked_throttle : LoginThrottle :=
  {| max_failures := 1; lockout := secs 60; window := secs 3600;
     state := {[ClientKey "c" := {| failures := 1; last_failure := 0; locked_until := Some (secs 60) |}]} |}.

(** ** Witnesses *)
Lemma login_registers_witness : let _ := toy_env no_plugins None in
  exists content, login_granted toy_times (toy_login "tok") (toy_start [] toy_cm) content.
Proof.
  intros env. destruct (login_registers toy_times (toy_login "tok") (toy_start [] toy_cm)
    (handle_login toy_times (toy_login "tok") (toy_start [] toy_cm)).2) as (content & Hg & _).
  - apply outcome_eq. vm_compute. reflexivity.
  - by exists content.
Defined.

Lemma locked_login_refused_witness : let _ := toy_env no_plugins None in
  let s := toy_start [] (with_throttle toy_cm (Some locked_throttle)) in
  exists s', handle_login toy_times (toy_login "tok") s = (Err "login throttled"%string, s') /\
    handle_login toy_times (toy_login "wrong") s = (Err "login throttled"%string, s').
Proof.
  intros env s.
  assert (forall token, locked_at toy_times (toy_login token) s (secs 60)) as Hl.
  { intros token. eexists _, (ClientKey "c"), _. split; [reflexivity|]. split; [reflexivity|].
    split; [reflexivity|]. split; [reflexivity|]. by apply Z.ltb_lt; vm_compute. }
  destruct (locked_login_refused toy_times (toy_login "tok") s (secs 60) (Hl "tok"%string)) as (s' & E & _).
  exists s'. split; [exact E|]. rewrite <- E. vm_compute. reflexivity.
Defined.

Lemma session_leaves_nothing_witness : let _ := toy_env no_plugins None in
  unregistered "r9" (world (session toy_times (Some (toy_login "tok")) FirstTimeout [] [] 2000
    (toy_start [] toy_cm)).2).
Proof.
  intros env. set (s := toy_start [] toy_cm).
  destruct (session_leaves_nothing toy_times (Some (toy_login "tok")) FirstTimeout [] [] 2000 s
    (open_channel s).2 (run_login toy_times (Some (toy_login "tok")) FirstTimeout (open_channel s).2).2
    (session toy_times (Some (toy_login "tok")) FirstTimeout [] [] 2000 s).1
    (session toy_times (Some (toy_login "tok")) FirstTimeout [] [] 2000 s).2) as [Hu _].
  - done.
  - apply outcome_eq. vm_compute. reflexivity.
  - apply surjective_pairing.
  - set (r := (session _ _ _ _ _ _ s).2) in *.
    assert (ct_run_id (ctl r) = "r9"%string) as E by (vm_compute; reflexivity). by rewrite E in Hu.
Defined.
