(* ===== verification/WorkConnHandler.v ===== *)
(** * Accepting work connections (src/rust_frp_server/src/server/work_conn.rs)

    What the first message of a work connection leads to (its classification by
    the first byte is in WorkPool.v): the session it claims, the signature, the
    plugins, then either the pool of the proxy it names or a leg of an STCP
    bridge.  The world is that of the control sessions (Control.v). *)
From S2P Require Import Prelude RustStd RustFmt ConfigTypes Transport EncStream IoConn WireV2 Secrets.
From S2P Require Import Routers Groups ProxyManager Throttle StcpBridge WorkPool CoreMsg HttpClient.
From S2P Require Import JsonValue Auth ServerPlugin Metrics ControlManager StateErr Control.

(** ** The handler *)

(** The shared world, what was written to the connection, how its writes go,
    and the pairs handed to a bridging task. *)
Record WorkState := {
  wk_world : World;
  wk_sent : list Message;
  wk_writes : list write_outcome;
  wk_bridged : list (string * any_conn * any_conn);
}.

Notation W := (st WorkState string).

Definition wk_upd (f : World -> World) : W unit := modify (fun s =>
  {| wk_world := f (wk_world s); wk_sent := wk_sent s; wk_writes := wk_writes s;
     wk_bridged := wk_bridged s |}).

(** [write_message_with_timeout]. *)
Definition wk_write (msg : Message) : W unit := fun s =>
  let '(o, rest) := match wk_writes s with [] => (WDone, []) | o :: rest => (o, rest) end in
  let out sent := {| wk_world := wk_world s; wk_sent := sent; wk_writes := rest;
                     wk_bridged := wk_bridged s |} in
  match o with
  | WDone => (Ok tt, out (wk_sent s ++ [msg]))
  | WFailed e => (Err e, out (wk_sent s))
  | WStalled => (Err "write timeout: peer is not consuming data (zero-window?)"%string, out (wk_sent s))
  end.

Definition start_work_conn (error : string) : Message :=
  StartWorkConn {| sw_error := error; sw_src_addr := EmptyString; sw_src_port := 0;
                   sw_dst_addr := EmptyString; sw_dst_port := 0 |}.

(** Tells the client why, then fails. *)
Definition refuse {A} (error why : string) : W A := _ ← wk_write (start_work_conn error); throw why.

Section Handler.
Context `{RingHash, Base64, ServerEnv}.

(** The snapshot of the session that logged in under [run_id]. *)
Definition session_auth (w : World) (run_id : string) : option AuthManager :=
  get_auth_manager (w_cm w) run_id ≫= fun ref => w_auths w !! ref.

(** The signature check; it applies only when the snapshot has a static token. *)
Definition check_sign_key (auth : AuthManager) (msg : NewWorkConnMsg) : W unit :=
  match encryption_key auth with
  | None => mret tt
  | Some _ =>
      match generate_work_conn_sign_key auth (nw_run_id msg) with
      | Err _ => refuse "Sign key verification unavailable" "Sign key verification unavailable"
      | Ok expected =>
          if str_eq_ct (nw_sign_key msg) expected then mret tt
          else refuse "Sign key verification failed" "Sign key mismatch"
      end
  end.

Definition work_conn_content (user : string) (msg : NewWorkConnMsg) : value :=
  JObj [("user", JObj [("user", JStr user); ("run_id", JStr (nw_run_id msg)); ("metas", JObj [])]);
        ("proxy_name", JStr (nw_proxy_name msg)); ("run_id", JStr (nw_run_id msg));
        ("timestamp", JInt (nw_timestamp msg))]%string.

Definition ask_work_conn_plugins (msg : NewWorkConnMsg) : W unit :=
  user ← gets (fun s => default EmptyString (get_user_by_run_id (w_cm (wk_world s)) (nw_run_id msg)));
  match (callback plugin_new_work_conn (work_conn_content user msg)).1 with
  | Ok _ => mret tt
  | Err why => refuse ("work conn rejected by plugin: " +:+ why)%string "work conn rejected by plugin"
  end.

(** The pool of the proxy the message names; without one the connection is
    closed. *)
Definition offer_to_pool (now : Z) (conn : any_conn) (auth : AuthManager) (msg : NewWorkConnMsg) : W unit :=
  _ ← wk_upd (fun w => with_metrics (incr_work_conn_total (w_metrics w)) w);
  wk_upd (fun w => with_pools
    (alter (fun p => register_work_conn p now conn (nw_use_compression msg) (nw_use_encryption msg)
                       (encryption_key auth)) (nw_proxy_name msg) (w_pools w)) w).

Definition wk_bridges {A} (f : StcpBridgeManager any_conn -> A * StcpBridgeManager any_conn) : W A :=
  fun s => let '(a, b) := f (w_bridges (wk_world s)) in
    (Ok a, {| wk_world := with_bridge_manager b (wk_world s); wk_sent := wk_sent s;
              wk_writes := wk_writes s; wk_bridged := wk_bridged s |}).

(** The record streams of the leg: compression inside, encryption outside. *)
Definition wrap_leg (conn : any_conn) (auth : AuthManager) (msg : NewWorkConnMsg) : result string any_conn :=
  let conn := if nw_use_compression msg then CompressedConn conn else conn in
  if nw_use_encryption msg then
    match encryption_key auth with
    | Some key => if decide (length key = 32%nat) then Ok (EncryptedConn conn key)
                  else Err "read key must be 32 bytes for AES-256-GCM"%string
    | None => Ok conn
    end
  else Ok conn.

Definition join_bridge (now : Z) (conn : any_conn) (auth : AuthManager) (msg : NewWorkConnMsg) : W unit :=
  let id := nw_bridge_id msg in
  reserved ← wk_bridges (fun b => reserve_leg b now id (nw_run_id msg) (nw_bridge_sign_key msg));
  match reserved with
  | Err why => refuse why why
  | Ok role =>
      sent ← attempt_st (wk_write (start_work_conn EmptyString));
      match sent with
      | Err e => _ ← wk_bridges (fun b => (tt, release_leg b id role)); throw e
      | Ok _ =>
          match wrap_leg conn auth msg with
          | Err e => throw e
          | Ok conn =>
              installed ← wk_bridges (fun b => install_leg b id role conn);
              match installed with
              | Ok (Some (owner, visitor)) => modify (fun s =>
                  {| wk_world := wk_world s; wk_sent := wk_sent s; wk_writes := wk_writes s;
                     wk_bridged := wk_bridged s ++ [(nw_proxy_name msg, owner, visitor)] |})
              | Ok None => mret tt
              | Err _ => throw ("STCP bridge " +:+ id +:+ " disappeared while installing leg")%string
              end
          end
      end
  end.

Definition accept_work_conn (now : Z) (conn : any_conn) (msg : NewWorkConnMsg) : W unit :=
  known ← gets (fun s => get_msg_tx (w_cm (wk_world s)) (nw_run_id msg));
  match known with
  | None => refuse "Unknown run_id" "Unknown run_id"
  | Some _ =>
  auth ← gets (fun s => session_auth (wk_world s) (nw_run_id msg));
  match auth with
  | None => refuse "Session authentication unavailable" "Session authentication unavailable"
  | Some auth =>
      _ ← check_sign_key auth msg;
      _ ← ask_work_conn_plugins msg;
      if decide (nw_use_encryption msg = true /\ encryption_key auth = None) then
        refuse "Server cannot derive encryption key (no token)"
               "use_encryption requested but server has no token"
      else if is_empty (nw_bridge_id msg) then offer_to_pool now conn auth msg
      else join_bridge now conn auth msg
  end end.

Definition process_work_conn_msg (now : Z) (conn : any_conn) (msg : Message) : W unit :=
  match msg with
  | NewWorkConn msg => accept_work_conn now conn msg
  | _ => throw "Unexpected message on work conn"%string
  end.

(** The end of a bridging task: the counted bytes, or a logged error. *)
Definition bridge_done (secs : Z) (name : string) (counted : option (Z * Z)) (w : World) : World :=
  match counted with
  | Some (to_owner, to_visitor) =>
      with_metrics (record_traffic (w_metrics w) secs name to_owner to_visitor).1 w
  | None => w
  end.

(** ** Who is admitted *)
Record admitted (w : World) (msg : NewWorkConnMsg) (auth : AuthManager) : Prop := {
  ad_known : is_Some (get_msg_tx (w_cm w) (nw_run_id msg));
  ad_auth : session_auth w (nw_run_id msg) = Some auth;
  ad_signed : forall key, encryption_key auth = Some key ->
    nw_sign_key msg = b64_encode (hmac_sha256 key (as_bytes ("work_conn:" +:+ nw_run_id msg)%string));
  ad_plugins : (callback plugin_new_work_conn (work_conn_content
    (default EmptyString (get_user_by_run_id (w_cm w) (nw_run_id msg))) msg)).1 = Ok tt;
  ad_encryption : nw_use_encryption msg = true -> is_Some (encryption_key auth);
}.

Lemma refuse_fails {A} error why s a s' : (refuse (A := A) error why) s <> (Ok a, s').
Proof.
  unfold refuse, mbind, st_bind. by destruct (wk_write _ _) as [[[]|e] s1].
Qed.

Lemma check_sign_key_Ok auth msg s s' : check_sign_key auth msg s = (Ok tt, s') <->
  s' = s /\ forall key, encryption_key auth = Some key ->
    nw_sign_key msg = b64_encode (hmac_sha256 key (as_bytes ("work_conn:" +:+ nw_run_id msg)%string)).
Proof.
  unfold check_sign_key, generate_work_conn_sign_key. destruct (encryption_key auth) as [key|].
  - destruct (str_eq_ct _ _) eqn:E.
    + apply str_eq_ct_true in E. split; [by intros [= <-]; split; [|intros ? [= <-]]|by intros [-> _]].
    + split; [by intros ?%refuse_fails|]. intros [_ Hk]. specialize (Hk key eq_refl).
      assert (str_eq_ct (nw_sign_key msg) (b64_encode (hmac_sha256 key
        (as_bytes ("work_conn:" +:+ nw_run_id msg)%string))) = true) by (by apply str_eq_ct_true).
      congruence.
  - split; [by intros [= <-]|by intros [-> _]].
Qed.

(** Past the checks the connection goes where its message says. *)
Lemma accept_work_conn_Ok now conn msg s s' : accept_work_conn now conn msg s = (Ok tt, s') <->
  exists auth, admitted (wk_world s) msg auth /\
    (if is_empty (nw_bridge_id msg) then offer_to_pool now conn auth msg else join_bridge now conn auth msg) s
      = (Ok tt, s').
Proof.
  unfold accept_work_conn, gets, mbind, st_bind. split.
  - intros E.
    destruct (get_msg_tx _ _) as [tx|] eqn:Htx; [|by apply refuse_fails in E].
    destruct (session_auth _ _) as [auth|] eqn:Hau; [|by apply refuse_fails in E].
    destruct (check_sign_key auth msg s) as [[[]|e] s1] eqn:Es; [|done].
    apply check_sign_key_Ok in Es as [-> Hk].
    unfold ask_work_conn_plugins, gets, mbind, st_bind in E.
    destruct (callback plugin_new_work_conn _).1 as [[]|e] eqn:Ep.
    2:{ destruct (refuse _ _ s) as [[[]|] ?] eqn:Er; [by apply refuse_fails in Er|done]. }
    cbn beta iota in E. unfold mret, st_ret in E.
    destruct (decide (nw_use_encryption msg = true /\ encryption_key auth = None)) as [Hd|Hd].
    { by apply refuse_fails in E. }
    exists auth. split.
    + split; try done. intros Hu. destruct (encryption_key auth); [eauto|]. by destruct Hd.
    + by destruct (is_empty _).
  - intros (auth & [[tx Htx] Hau Hk Hp He] & E). rewrite Htx, Hau.
    assert (check_sign_key auth msg s = (Ok tt, s)) as -> by (by apply check_sign_key_Ok).
    unfold ask_work_conn_plugins, gets, mbind, st_bind. rewrite Hp. unfold mret, st_ret.
    rewrite decide_False; [by destruct (is_empty _)|].
    intros [Hu Hn]. destruct (He Hu). congruence.
Qed.

Lemma admitted_frame w w' msg auth : w_cm w' = w_cm w -> w_auths w' = w_auths w ->
  admitted w msg auth -> admitted w' msg auth.
Proof. intros E1 E2 [H1' H2' H3 H4 H5]. split; unfold session_auth in *; rewrite ?E1, ?E2; done. Qed.

(** ** Where an admitted connection goes *)

(** a work connection without a bridge id is accepted exactly when its run
    id has a registered channel and an authentication snapshot, its signature is
    the HMAC of the run id under the snapshot's key when there is one, no plugin
    refuses it, and encryption is requested only with a key; the one effect is
    then that it is offered to the pool of the proxy it names and counted. *)
Theorem work_conn_accepted_iff now conn msg s s' : nw_bridge_id msg = EmptyString ->
  process_work_conn_msg now conn (NewWorkConn msg) s = (Ok tt, s') <->
  exists auth, admitted (wk_world s) msg auth /\
    wk_sent s' = wk_sent s /\ wk_writes s' = wk_writes s /\ wk_bridged s' = wk_bridged s /\
    wk_world s' = with_pools (alter (fun p => register_work_conn p now conn (nw_use_compression msg)
        (nw_use_encryption msg) (encryption_key auth)) (nw_proxy_name msg) (w_pools (wk_world s)))
      (with_metrics (incr_work_conn_total (w_metrics (wk_world s))) (wk_world s)).
Proof.
  intros Hid. unfold process_work_conn_msg. rewrite accept_work_conn_Ok, Hid. simpl.
  split; intros (auth & Ha & E); exists auth; (split; [done|]).
  - by injection E as <-.
  - destruct s'. simpl in E. destruct E as (-> & -> & -> & ->). reflexivity.
Qed.

(** [s'] differs from [s] by at most a refusal sent. *)
Definition only_refused (s s' : WorkState) : Prop :=
  wk_world s' = wk_world s /\ wk_bridged s' = wk_bridged s /\
  (wk_sent s' = wk_sent s \/ exists error, error <> EmptyString /\ wk_sent s' = wk_sent s ++ [start_work_conn error]).

Lemma refuse_only {A} error why s : error <> EmptyString ->
  exists e s', refuse (A := A) error why s = (Err e, s') /\ only_refused s s'.
Proof.
  intros He. unfold refuse, wk_write, mbind, st_bind, throw.
  destruct (match wk_writes s with [] => _ | _ => _ end) as [[] rest]; (eexists _, _; split; [reflexivity|]);
    (split; [done|]); (split; [done|]); cbn [wk_sent]; [right; eauto|by left..].
Qed.

(** C32: nothing gets in past the checks.  A first message on a work connection
    that is no NewWorkConn, or one whose run id has no registered session with
    an authentication snapshot, or whose signature is not the HMAC of the run id
    under the session's key (when it has one), or that a plugin refuses, or that
    asks for encryption where there is no key, is refused: processing fails, no
    connection enters a pool or a bridge and no other state of the server
    changes, and the peer is sent at most an answer that names an error. *)
Theorem work_conn_guarded now conn m s :
  (forall msg auth, m = NewWorkConn msg -> ~ admitted (wk_world s) msg auth) ->
  exists e s', process_work_conn_msg now conn m s = (Err e, s') /\ only_refused s s'.
Proof.
  intros Hn. assert (Hsame : only_refused s s) by (split_and!; auto).
  assert (Hbind : forall A B (m0 : W A) (f : A -> W B) e s', m0 s = (Err e, s') -> (m0 ≫= f) s = (Err e, s'))
    by (intros A B m0 f e s' E; unfold mbind, st_bind; by rewrite E).
  destruct m; try (by eexists _, _; split; [reflexivity|exact Hsame]).
  match goal with |- context [NewWorkConn ?x] => rename x into msg end.
  cbn [process_work_conn_msg]. unfold accept_work_conn, gets. unfold mbind at 1, st_bind at 1. cbv beta iota.
  destruct (get_msg_tx _ _) as [tx|] eqn:Htx; [|by apply refuse_only].
  unfold mbind at 1, st_bind at 1. cbv beta iota.
  destruct (session_auth _ _) as [auth|] eqn:Hau; [|by apply refuse_only].
  destruct (check_sign_key auth msg s) as [r1 s1] eqn:Es. destruct r1 as [[]|e1].
  2:{ assert (only_refused s s1) as Ho; [|eexists e1, s1; split; [by apply Hbind|exact Ho]].
      unfold check_sign_key, generate_work_conn_sign_key in Es. destruct (encryption_key auth); [|done].
      destruct (str_eq_ct _ _); [done|].
      destruct (refuse_only (A := unit) "Sign key verification failed" "Sign key mismatch" s) as (e & s' & E & Ho);
        [done|]. rewrite E in Es. by injection Es as _ <-. }
  apply check_sign_key_Ok in Es as E1. destruct E1 as [-> Hk].
  rewrite (st_bind_eq _ _ _ _ _ Es).
  destruct (callback plugin_new_work_conn (work_conn_content
    (default EmptyString (get_user_by_run_id (w_cm (wk_world s)) (nw_run_id msg))) msg)).1 as [[]|why] eqn:Ep.
  2:{ destruct (refuse_only (A := unit) ("work conn rejected by plugin: " +:+ why)%string
        "work conn rejected by plugin" s) as (e & s' & E & Ho); [done|].
      exists e, s'. split; [|done]. apply Hbind. unfold ask_work_conn_plugins, gets, mbind, st_bind. by rewrite Ep. }
  rewrite (st_bind_eq _ _ _ tt s) by (unfold ask_work_conn_plugins, gets, mbind, st_bind; by rewrite Ep).
  case_decide as Hd; [by apply refuse_only|]. exfalso. apply (Hn msg auth eq_refl). split; try done.
  intros Hu. destruct (encryption_key auth); [eauto|]. by destruct Hd.
Qed.

(** Nothing relates the session to the proxy it feeds: the owner of the proxy
    is not looked at. *)
Lemma foreign_work_conn_pooled now conn msg s owner auth : nw_bridge_id msg = EmptyString ->
  w_owners (wk_world s) !! nw_proxy_name msg = Some owner -> owner <> nw_run_id msg ->
  admitted (wk_world s) msg auth ->
  exists s', process_work_conn_msg now conn (NewWorkConn msg) s = (Ok tt, s') /\
    w_pools (wk_world s') !! nw_proxy_name msg =
      (fun p => register_work_conn p now conn (nw_use_compression msg) (nw_use_encryption msg)
                  (encryption_key auth)) <$> w_pools (wk_world s) !! nw_proxy_name msg.
Proof.
  intros Hid _ _ Ha.
  eexists. unfold process_work_conn_msg. rewrite accept_work_conn_Ok, Hid. split.
  - exists auth. split; [done|]. reflexivity.
  - simpl. by rewrite lookup_alter_eq.
Qed.

Definition wk_next_write (s : WorkState) : write_outcome :=
  match wk_writes s with [] => WDone | o :: _ => o end.

Lemma wk_write_done msg s : wk_next_write s = WDone ->
  wk_write msg s = (Ok tt, {| wk_world := wk_world s; wk_sent := wk_sent s ++ [msg];
    wk_writes := tail (wk_writes s); wk_bridged := wk_bridged s |}).
Proof. unfold wk_write, wk_next_write. destruct (wk_writes s) as [|[] rest]; by intros. Qed.

(** An authorised leg of a live bridge is installed; the second one completes
    the pair. *)
Lemma join_bridge_Ok now conn auth msg s b role conn' :
  bridges (w_bridges (wk_world s)) !! nw_bridge_id msg = Some b -> expired_reason b now = None ->
  (if decide (nw_run_id msg = owner_run_id b /\ nw_bridge_sign_key msg = owner_work_conn_sign_key b)
   then Some Owner
   else if decide (nw_run_id msg = visitor_run_id b /\ nw_bridge_sign_key msg = visitor_work_conn_sign_key b)
   then Some Visitor else None) = Some role ->
  leg_reserved b role = false -> leg_conn b role = None ->
  wk_next_write s = WDone -> wrap_leg conn auth msg = Ok conn' ->
  exists s', join_bridge now conn auth msg s = (Ok tt, s') /\
    w_cm (wk_world s') = w_cm (wk_world s) /\ w_auths (wk_world s') = w_auths (wk_world s) /\
    wk_writes s' = tail (wk_writes s) /\
    let b' := set_leg b role (Some conn') false in
    match owner_conn b', visitor_conn b' with
    | Some o, Some v => wk_bridged s' = wk_bridged s ++ [(nw_proxy_name msg, o, v)] /\
        bridges (w_bridges (wk_world s')) !! nw_bridge_id msg = None
    | _, _ => wk_bridged s' = wk_bridged s /\
        bridges (w_bridges (wk_world s')) !! nw_bridge_id msg = Some b'
    end.
Proof.
  intros Hb Hx Hrole Hr Hc Hw Hwrap.
  destruct (reserve_leg_Ok _ now _ b _ _ role Hb Hx Hrole Hr Hc) as (m & Em & Hm).
  unfold join_bridge, wk_bridges, mbind, st_bind. rewrite Em. cbn beta iota.
  unfold attempt_st. rewrite wk_write_done by done. cbn beta iota. rewrite Hwrap. cbn [wk_world].
  assert (exists r m2, install_leg m (nw_bridge_id msg) role conn' = (Ok r, m2) /\
    let b' := set_leg b role (Some conn') false in
    match owner_conn b', visitor_conn b' with
    | Some o, Some v => r = Some (o, v) /\ bridges m2 !! nw_bridge_id msg = None
    | _, _ => r = None /\ bridges m2 !! nw_bridge_id msg = Some b'
    end) as (r & m2 & E2 & H2').
  { unfold install_leg. rewrite Hm. destruct role; simpl.
    - destruct (visitor_conn b); eexists _, _; (split; [reflexivity|]); simpl;
        by rewrite ?lookup_delete_eq, ?lookup_insert_eq.
    - destruct (owner_conn b); eexists _, _; (split; [reflexivity|]); simpl;
        by rewrite ?lookup_delete_eq, ?lookup_insert_eq. }
  cbn [w_bridges with_bridge_manager]. rewrite E2. cbn zeta in H2'. cbn zeta.
  repeat case_match; destruct H2' as [Er H2']; simplify_eq;
    (eexists; split; [reflexivity|by split_and!]).
Qed.

(** The message of a leg: its session, the bridge and the key it was given. *)
Definition leg_msg (run_id name id key sign_key : string) (comp enc : bool) (ts : Z) : NewWorkConnMsg :=
  {| nw_run_id := run_id; nw_proxy_name := name; nw_timestamp := ts; nw_sign_key := sign_key;
     nw_bridge_id := id; nw_bridge_sign_key := key; nw_use_encryption := enc; nw_use_compression := comp |}.

Lemma wrap_leg_Ok conn auth msg : (nw_use_encryption msg = true -> is_Some (encryption_key auth)) ->
  (forall key, encryption_key auth = Some key -> length key = 32%nat) ->
  exists c, wrap_leg conn auth msg = Ok c /\ base_id c = base_id conn.
Proof.
  intros He Hk. unfold wrap_leg.
  destruct (nw_use_compression msg), (nw_use_encryption msg); try (by eexists).
  all: destruct (He eq_refl) as [key Ekey]; rewrite Ekey, decide_True by (by apply Hk); by eexists.
Qed.
End Handler.

(** ** From the visitor's request to the bridged pair *)
Section EndToEnd.
Context `{Os, RingHash, Base64, Jwt, HashIter, ServerEnv}.

Definition work_state (w : World) : WorkState :=
  {| wk_world := w; wk_sent := []; wk_writes := []; wk_bridged := [] |}.

(** The work connection of one side of the bridge opened for [msg]. *)
Record leg_of (msg : StcpVisitorMsg) (run_id key : string) (leg : NewWorkConnMsg) : Prop := {
  lo_run : nw_run_id leg = run_id;
  lo_id : nw_bridge_id leg = sv_bridge_id msg;
  lo_key : nw_bridge_sign_key leg = key;
}.

Definition sealing_key (auth : AuthManager) : Prop :=
  forall key, encryption_key auth = Some key -> length key = 32%nat.

Lemma accept_leg now conn auth msg s conn' s' : admitted (wk_world s) msg auth ->
  nw_bridge_id msg <> EmptyString -> wrap_leg conn auth msg = Ok conn' ->
  join_bridge now conn auth msg s = (Ok tt, s') ->
  process_work_conn_msg now conn (NewWorkConn msg) s = (Ok tt, s').
Proof.
  intros Ha Hid _ E. unfold process_work_conn_msg. apply accept_work_conn_Ok. exists auth.
  split; [done|]. by rewrite (proj2 (is_empty_false _) Hid).
Qed.

(** A leg as it arrives: when, on which connection, with which message. *)
Definition leg_arrival : Type := Z * any_conn * NewWorkConnMsg.

(** [first] and then [second] arrive, and both are accepted. *)
Definition legs_accepted (s : WorkState) (first second : leg_arrival) (s' : WorkState) : Prop :=
  exists s1,
    process_work_conn_msg first.1.1 first.1.2 (NewWorkConn first.2) s = (Ok tt, s1) /\
    process_work_conn_msg second.1.1 second.1.2 (NewWorkConn second.2) s1 = (Ok tt, s').

Definition leg_role (b : StcpBridgeState any_conn) (leg : NewWorkConnMsg) : option StcpBridgeRole :=
  if decide (nw_run_id leg = owner_run_id b /\ nw_bridge_sign_key leg = owner_work_conn_sign_key b)
  then Some Owner
  else if decide (nw_run_id leg = visitor_run_id b /\ nw_bridge_sign_key leg = visitor_work_conn_sign_key b)
  then Some Visitor else None.

Definition other_role (r : StcpBridgeRole) : StcpBridgeRole :=
  match r with Owner => Visitor | Visitor => Owner end.

(** The connections of the two legs as the bridging task gets them. *)
Definition by_role (r : StcpBridgeRole) (first second : any_conn) : any_conn * any_conn :=
  match r with Owner => (first, second) | Visitor => (second, first) end.

(** Two authorised legs of a fresh bridge, whichever of them comes first. *)
Lemma two_legs_meet s b r legf legs tf cf af cf' ts cs as_ cs' :
  bridges (w_bridges (wk_world s)) !! nw_bridge_id legf = Some b ->
  nw_bridge_id legs = nw_bridge_id legf -> nw_bridge_id legf <> EmptyString -> wk_writes s = [] ->
  (forall r' c f, expired_reason (set_leg b r' c f) ts = None) -> expired_reason b tf = None ->
  leg_role b legf = Some r -> leg_role b legs = Some (other_role r) ->
  (forall r', leg_reserved b r' = false /\ leg_conn b r' = None) ->
  admitted (wk_world s) legf af -> admitted (wk_world s) legs as_ ->
  wrap_leg cf af legf = Ok cf' -> wrap_leg cs as_ legs = Ok cs' ->
  exists s', legs_accepted s (tf, cf, legf) (ts, cs, legs) s' /\
    wk_bridged s' = wk_bridged s ++ [(nw_proxy_name legs, (by_role r cf' cs').1, (by_role r cf' cs').2)] /\
    bridges (w_bridges (wk_world s')) !! nw_bridge_id legf = None.
Proof.
  intros Hb Hid Hne Hw Hls Hlf Hrf Hrs Hfree Af As Ef Es.
  destruct (join_bridge_Ok tf cf af legf s b r cf') as (s2 & E2 & C2 & A2 & W2 & Hp2);
    [done|done|done|by apply Hfree|by apply Hfree|by unfold wk_next_write; rewrite Hw|done|].
  assert (wk_bridged s2 = wk_bridged s /\
    bridges (w_bridges (wk_world s2)) !! nw_bridge_id legf = Some (set_leg b r (Some cf') false)) as [B2 Hb2].
  { destruct (Hfree Owner) as [_ ?], (Hfree Visitor) as [_ ?]. simpl in *.
    destruct r; simpl in Hp2; by repeat case_match; simplify_eq. }
  destruct (join_bridge_Ok ts cs as_ legs s2 (set_leg b r (Some cf') false) (other_role r) cs')
    as (s3 & E3 & C3 & A3 & W3 & Hp3); [by rewrite Hid|by apply Hls| | | | |done|].
  { rewrite <- Hrs. by destruct r. }
  { destruct (Hfree (other_role r)) as [? _]. by destruct r. }
  { destruct (Hfree (other_role r)) as [_ ?]. by destruct r. }
  { unfold wk_next_write. by rewrite W2, Hw. }
  exists s3. split.
  - exists s2. cbn [fst snd]. split.
    + by eapply accept_leg.
    + eapply accept_leg; [|congruence|exact Es|exact E3].
      apply (admitted_frame (wk_world s)); [by rewrite C2|by rewrite A2|done].
  - simpl in Hp3. rewrite Hid in Hp3. destruct r; simpl in *; destruct Hp3 as [-> ->]; by rewrite B2.
Qed.

(** once a visitor's request was granted, the keys the two sides were sent
    are enough: when, within 15 seconds, the visitor and the proxy's owner open
    work connections with them (and pass the checks every work connection
    passes), in whichever order, both are accepted and the two connections, in
    the roles owner and visitor, are handed to a bridging task; the bridge is
    then gone, so a third connection finds none. *)
Theorem stcp_end_to_end t msg s owner secret tx tv to_ cv co legv lego av ao :
  clocks_in_range t msg -> stcp_granted t msg s owner secret tx ->
  (owner, stcp_owner_key secret owner msg) <> (sv_run_id msg, stcp_visitor_key secret msg) ->
  leg_of msg (sv_run_id msg) (stcp_visitor_key secret msg) legv ->
  leg_of msg owner (stcp_owner_key secret owner msg) lego ->
  nw_proxy_name legv = nw_proxy_name lego ->
  admitted (world s) legv av -> admitted (world s) lego ao -> sealing_key av -> sealing_key ao ->
  tv <= t_now t + BRIDGE_EMPTY_TTL -> to_ <= t_now t + BRIDGE_EMPTY_TTL ->
  exists s1 co' cv',
    handle_stcp_visitor t msg s = (Ok tt, s1) /\
    wrap_leg co ao lego = Ok co' /\ wrap_leg cv av legv = Ok cv' /\
    base_id co' = base_id co /\ base_id cv' = base_id cv /\
    forall first second : leg_arrival,
      (first = (tv, cv, legv) /\ second = (to_, co, lego)) \/
      (first = (to_, co, lego) /\ second = (tv, cv, legv)) ->
      exists s3, legs_accepted (work_state (world s1)) first second s3 /\
        wk_bridged s3 = [(nw_proxy_name lego, co', cv')] /\
        bridges (w_bridges (wk_world s3)) !! sv_bridge_id msg = None.
Proof.
  intros Hck G Hne [Lv1 Lv2 Lv3] [Lo1 Lo2 Lo3] Hname Av Ao Sv So Htv Hto.
  destruct (stcp_granted_effects _ _ _ _ _ _ Hck G) as (s1 & q & E1 & Hbr & _ & _ & _ & Hcm & Hau).
  pose proof (stcp_bridge_made _ _ _ owner secret (sg_available _ _ _ _ _ _ G)) as Hb.
  set (b := new_bridge t msg owner secret) in *.
  assert (Hid : sv_bridge_id msg <> EmptyString) by apply G.
  destruct (wrap_leg_Ok cv av legv (ad_encryption _ _ _ Av) Sv) as (cv' & Ecv & Bcv).
  destruct (wrap_leg_Ok co ao lego (ad_encryption _ _ _ Ao) So) as (co' & Eco & Bco).
  apply (admitted_frame (world s) (world s1)) in Av, Ao; [|done..].
  assert (Hlive : forall now r c f, now <= t_now t + BRIDGE_EMPTY_TTL ->
    expired_reason (set_leg b r c f) now = None).
  { intros now r c f Hn. apply fresh_not_expired. by destruct r. }
  assert (Hb1 : bridges (w_bridges (wk_world (work_state (world s1)))) !! sv_bridge_id msg = Some b)
    by (simpl; by rewrite Hbr).
  assert (Rv : leg_role b legv = Some Visitor).
  { unfold leg_role. rewrite Lv1, Lv3, decide_False by (simpl; intros [E4 E5]; apply Hne; congruence).
    by rewrite decide_True. }
  assert (Ro : leg_role b lego = Some Owner) by (unfold leg_role; by rewrite Lo1, Lo3, decide_True).
  exists s1, co', cv'. split_and!; try done.
  intros first second [[-> ->]|[-> ->]].
  - destruct (two_legs_meet (work_state (world s1)) b Visitor legv lego tv cv av cv' to_ co ao co')
      as (s3 & Ha & Hbd & Hgone); rewrite ?Lv2, ?Lo2; try done.
    { intros. by apply Hlive. } { by apply fresh_not_expired. } { by intros []. }
    exists s3. by rewrite Lv2 in Hgone.
  - destruct (two_legs_meet (work_state (world s1)) b Owner lego legv to_ co ao co' tv cv av cv')
      as (s3 & Ha & Hbd & Hgone); rewrite ?Lv2, ?Lo2; try done.
    { intros. by apply Hlive. } { by apply fresh_not_expired. } { by intros []. }
    exists s3. rewrite Lo2 in Hgone. by rewrite <- Hname.
Qed.
End EndToEnd.

(** ** On the small server *)
#[local] Existing Instance map_order.
#[local] Existing Instance toy_base64.
#[local] Existing Instance toy_jwt.

Definition session_key (run_id : string) : string :=
  b64_encode (hmac_sha256 (generate_encryption_key "tok") (as_bytes ("work_conn:" +:+ run_id)%string)).

Definition pool_msg (run_id : string) : NewWorkConnMsg :=
  leg_msg run_id "ssh" EmptyString EmptyString (session_key run_id) false false 0.

Definition visitor_leg : NewWorkConnMsg :=
  leg_msg "vis" "ssh" "b1" (stcp_visitor_key "k" toy_visitor) (session_key "vis") true false 0.
Definition owner_leg : NewWorkConnMsg :=
  leg_msg "own" "ssh" "b1" (stcp_owner_key "k" "own" toy_visitor) (session_key "own") true true 0.

(** The session [vis] puts a connection into the pool of the proxy of [own]. *)
Theorem pool_takes_foreign_conn :
  let env := toy_env no_plugins None in
  let '(r, s) := process_work_conn_msg (secs 1) (Raw 7) (NewWorkConn (pool_msg "vis"))
                   (work_state (toy_world [])) in
  r = Ok tt /\ w_owners (wk_world s) !! "ssh"%string = Some "own"%string /\
  match w_pools (wk_world s) !! "ssh"%string with
  | Some p => wc_conn <$> idle p = [Raw 7]
  | None => False
  end.
Proof. vm_compute. by split_and!. Qed.

(** ** Witnesses *)
Lemma toy_admitted msg : let _ := toy_env no_plugins None in
  msg ∈ [pool_msg "own"; visitor_leg; owner_leg] -> admitted (toy_world []) msg (toy_auth []).
Proof.
  intros env Hin. repeat (apply elem_of_cons in Hin as [->|Hin]); [..|by apply elem_of_nil in Hin].
  all: split; [eexists; vm_compute; reflexivity|reflexivity| |reflexivity|by eexists].
  all: intros key [= <-]; vm_compute; reflexivity.
Qed.

Lemma work_conn_accepted_iff_witness : let _ := toy_env no_plugins None in
  exists auth, admitted (toy_world []) (pool_msg "own") auth.
Proof.
  intros env. destruct (proj1 (work_conn_accepted_iff (secs 1) (Raw 7) (pool_msg "own")
    (work_state (toy_world [])) (process_work_conn_msg (secs 1) (Raw 7) (NewWorkConn (pool_msg "own"))
      (work_state (toy_world []))).2 eq_refl)) as (auth & Ha & _).
  - apply outcome_eq. vm_compute. reflexivity.
  - by exists auth.
Defined.

Lemma work_conn_guarded_witness : let _ := toy_env no_plugins None in
  exists e s', process_work_conn_msg (secs 1) (Raw 7)
      (NewWorkConn (leg_msg "own" "ssh" EmptyString EmptyString "forged" false false 0)) (work_state (toy_world []))
    = (Err e, s') /\ only_refused (work_state (toy_world [])) s'.
Proof.
  intros env. apply (work_conn_guarded (secs 1) (Raw 7)
    (NewWorkConn (leg_msg "own" "ssh" EmptyString EmptyString "forged" false false 0)) (work_state (toy_world []))).
  intros msg auth [= <-] [_ Ha Hs _ _]. vm_compute in Ha. injection Ha as <-.
  specialize (Hs _ eq_refl). vm_compute in Hs. discriminate Hs.
Defined.

Lemma stcp_end_to_end_witness : let _ := toy_env no_plugins None in
  exists s1 s3 co cv,
    handle_stcp_visitor toy_times toy_visitor (toy_session [] "vis" 2 []) = (Ok tt, s1) /\
    legs_accepted (work_state (world s1)) (secs 3, Raw 6, owner_leg) (secs 2, Raw 5, visitor_leg) s3 /\
    wk_bridged s3 = [("ssh"%string, co, cv)] /\ base_id co = 6%nat /\ base_id cv = 5%nat.
Proof.
  intros env.
  assert (sealing_key (toy_auth [])) as Hk by (intros key [= <-]; vm_compute; reflexivity).
  assert (("own"%string, stcp_owner_key "k" "own" toy_visitor) <> ("vis"%string, stcp_visitor_key "k" toy_visitor))
    as Hne by (intros E; apply (f_equal fst) in E; discriminate).
  destruct (stcp_end_to_end toy_times toy_visitor (toy_session [] "vis" 2 []) "own" "k" 1
    (secs 2) (secs 3) (Raw 5) (Raw 6) visitor_leg owner_leg (toy_auth []) (toy_auth [])
    ltac:(split; split; by apply Z.leb_le || by apply Z.ltb_lt) toy_granted Hne
    (Build_leg_of toy_visitor "vis" (stcp_visitor_key "k" toy_visitor) visitor_leg eq_refl eq_refl eq_refl)
    (Build_leg_of toy_visitor "own" (stcp_owner_key "k" "own" toy_visitor) owner_leg eq_refl eq_refl eq_refl)
    eq_refl
    (toy_admitted visitor_leg ltac:(set_solver)) (toy_admitted owner_leg ltac:(set_solver)) Hk Hk)
    as (s1 & co & cv & E1 & _ & _ & E5 & E6 & Hall); [vm_compute; discriminate..|].
  destruct (Hall _ _ (or_intror (conj eq_refl eq_refl))) as (s3 & E2 & E4 & _).
  exists s1, s3, co, cv. exact (conj E1 (conj E2 (conj E4 (conj E5 E6)))).
Defined.
