(* ===== verification/Vhost.v ===== *)
(** * HTTP virtual hosts (src/rust_frp_server/src/vhost.rs [HttpRequestInfo],
    src/rust_frp_server/src/server/vhost.rs)

    The first bytes a browser sends are parsed for their Host header; the proxy
    registered for it gets the connection, which needs the plugins' consent, an
    owner, the owner's channel and a work connection.  Every other outcome is a
    fixed response.  [get_work_conn] is WorkPool.v's, here its result. *)
From S2P Require Import Prelude RustStd RustFmt Utf8 ConfigTypes Transport EncStream IoConn WireV2.
From S2P Require Import Secrets Routers Groups ProxyManager Throttle StcpBridge WorkPool CoreMsg.
From S2P Require Import HttpClient JsonValue Auth ServerPlugin Metrics ControlManager StateErr Control.

(** [str::to_lowercase]: Unicode's table; on ASCII it is the ASCII one. *)
Class Lowercase := { to_lowercase : string -> string }.
Class LowercaseLaws `{Lowercase} := {
  lowercase_ascii : forall s, ascii_bytes (as_bytes s) -> to_lowercase s = to_ascii_lowercase s;
}.

(** ** Requests *)
Record HttpRequestInfo := {
  ri_method : string;
  ri_path : string;
  ri_version : string;
  ri_headers : gmap string string;
  ri_host : string;
}.

Section Request.
Context `{Lowercase}.

(** [value.split(':').next()]. *)
Definition host_of (value : string) : string :=
  match split_char ":"%char value with h :: _ => h | [] => value end.

(** One header line; a line without a colon is skipped. *)
Definition add_header (acc : gmap string string * string) (line : string) : gmap string string * string :=
  match split_once ":" line with
  | None => acc
  | Some (k, v) =>
      let key := to_lowercase (trim k) in
      let value := trim v in
      (<[key := value]> acc.1, if decide (key = "host"%string) then host_of value else acc.2)
  end.

(** The loop stops at the first empty line. *)
Fixpoint parse_headers (lines : list string) (acc : gmap string string * string)
  : gmap string string * string :=
  match lines with
  | [] => acc
  | line :: lines => if is_empty line then acc else parse_headers lines (add_header acc line)
  end.

Definition parse_request (data : list byte) : option HttpRequestInfo :=
  match str_lines (from_utf8_lossy data) with
  | [] => None
  | first :: lines =>
      match split_whitespace first with
      | method :: path :: version :: _ =>
          let '(headers, host) := parse_headers lines (∅, EmptyString) in
          if is_empty host then None
          else Some {| ri_method := method; ri_path := path; ri_version := version;
                       ri_headers := headers; ri_host := host |}
      | _ => None
      end
  end.

Definition is_websocket_upgrade (r : HttpRequestInfo) : bool :=
  match ri_headers r !! "connection"%string with
  | None => false
  | Some connection =>
      if negb (contains_str "upgrade" (to_lowercase connection)) then false else
      match ri_headers r !! "upgrade"%string with
      | Some upgrade => bool_decide (to_lowercase upgrade = "websocket"%string)
      | None => false
      end
  end.

Definition get_websocket_key (r : HttpRequestInfo) : option string :=
  ri_headers r !! "sec-websocket-key"%string.

(** [sha1] is ring's. *)
Definition generate_websocket_accept_key `{Base64} (sha1 : list byte -> list byte) (key : string) : string :=
  b64_encode (sha1 (as_bytes (key +:+ "258EAFA5-E914-47DA-95CA-C5AB0DC85B11")%string)).

(** ** A request as a browser writes it *)
Definition render_request (method path version : string) (headers : list (string * string)) (body : string)
  : string :=
  crlf_lines ((method +:+ String " "%char (path +:+ String " "%char version))%string ::
    map (fun kv => kv.1 +:+ ":" +:+ String " "%char kv.2)%string headers ++ [EmptyString]) body.

Record wf_header (kv : string * string) : Prop := {
  wh_name : kv.1 <> EmptyString /\ str_all visible kv.1 = true /\ contains_char ":"%char kv.1 = false;
  wh_value : tight kv.2 /\ contains_char LF kv.2 = false;
}.

(** The headers a list of lines stands for: the last of a name counts. *)
Definition headers_of (headers : list (string * string)) : gmap string string :=
  foldl (fun m kv => <[to_lowercase kv.1 := kv.2]> m) ∅ headers.

Definition last_host (headers : list (string * string)) : string :=
  foldl (fun h kv => if decide (to_lowercase kv.1 = "host"%string) then host_of kv.2 else h) EmptyString headers.

Lemma visible_no_lf s : str_all visible s = true -> contains_char LF s = false.
Proof.
  induction s as [|c s IH]; [done|]. intros [Hc Hs]%str_all_cons_iff. simpl.
  destruct (decide (c = LF)) as [->|]; [done|]. auto.
Qed.

Lemma split_colon k v : contains_char ":"%char k = false ->
  split_once ":" (k +:+ ":" +:+ v)%string = Some (k, v).
Proof.
  induction k as [|c k IH]; intros Hk.
  - destruct v; reflexivity.
  - simpl in Hk. destruct (decide (c = ":"%char)) as [|Hne]; [done|].
    change (String c k +:+ ":" +:+ v)%string with (String c (k +:+ ":" +:+ v)%string).
    cbn [split_once]. rewrite IH by done.
    destruct (strip_prefix ":" (String c _)) eqn:E; [|done].
    apply strip_prefix_Some in E. injection E as E _. by subst.
Qed.

Lemma parse_headers_rendered headers more acc : Forall wf_header headers ->
  parse_headers (map (fun kv => kv.1 +:+ ":" +:+ String " "%char kv.2)%string headers ++ EmptyString :: more) acc =
  (foldl (fun m kv => <[to_lowercase kv.1 := kv.2]> m) acc.1 headers,
   foldl (fun h kv => if decide (to_lowercase kv.1 = "host"%string) then host_of kv.2 else h) acc.2 headers).
Proof.
  intros Hwf. revert acc. induction Hwf as [|[k v] headers [(Hk & Hv & Hc) (Ht & Hl)] _ IH]; intros [m h]; [done|].
  simpl in Hk, Hv, Hc, Ht, Hl. cbn [map app parse_headers fst snd].
  assert (is_empty (k +:+ ":" +:+ String " "%char v)%string = false) as -> by (by destruct k).
  rewrite IH. unfold add_header. rewrite split_colon by done.
  rewrite (trim_tight k) by (by apply word_tight). rewrite trim_after_space, (trim_tight v) by done.
  reflexivity.
Qed.

(** a request with any well-formed headers, in any spelling of their names
    and followed by any body, is parsed into its method, path, version and
    headers (the last of a repeated name), and is routed by its last Host
    header without the port; without a host it is refused. *)
Theorem request_roundtrip method path version headers body :
  Forall (fun w => w <> EmptyString /\ str_all visible w = true) [method; path; version] ->
  Forall wf_header headers ->
  ascii_bytes (as_bytes (render_request method path version headers body)) ->
  parse_request (as_bytes (render_request method path version headers body)) =
  if is_empty (last_host headers) then None
  else Some {| ri_method := method; ri_path := path; ri_version := version;
               ri_headers := headers_of headers; ri_host := last_host headers |}.
Proof.
  intros Hw Hwf Ha. apply Forall_cons in Hw as [[Hm Vm] Hw]. apply Forall_cons in Hw as [[Hp Vp] Hw].
  apply Forall_cons in Hw as [[Hv Vv] _].
  unfold parse_request. rewrite lossy_ascii by done. unfold of_bytes, as_bytes. rewrite String.string_of_list_byte_of_string. unfold render_request.
  match goal with |- context [crlf_lines ?l body] => destruct (str_lines_crlf l body) as [more ->] end.
  { constructor.
    - rewrite contains_char_app. cbn [contains_char].
      rewrite contains_char_app. cbn [contains_char]. by rewrite !visible_no_lf.
    - apply Forall_app. split; [|by repeat constructor].
      apply Forall_fmap. eapply Forall_impl; [exact Hwf|]. intros [k v] [(Hk & Hvk & Hc) (Ht & Hl)]. simpl in *.
      rewrite contains_char_app, visible_no_lf by done. simpl. done. }
  cbn [app]. rewrite split_three by done. rewrite <- app_assoc. cbn [app].
  rewrite parse_headers_rendered by done. reflexivity.
Qed.
End Request.

(** ** Responses *)
Definition plain_response (head body : string) : string :=
  (head +:+ crlf +:+ "Content-Type: text/plain" +:+ crlf +:+ "Content-Length: "
   +:+ dec (str_len body) +:+ crlf +:+ crlf +:+ body)%string.

Definition bad_request : string :=
  ("HTTP/1.1 400 Bad Request" +:+ crlf +:+ "Content-Length: 0" +:+ crlf +:+ crlf)%string.
Definition not_found (host : string) : string :=
  plain_response "HTTP/1.1 404 Not Found" ("Proxy not found for host: " +:+ host)%string.
Definition bad_gateway : string :=
  ("HTTP/1.1 502 Bad Gateway" +:+ crlf +:+ "Content-Length: 0" +:+ crlf +:+ crlf)%string.
(** The lengths of these two are written out in the source. *)
Definition no_owner_response : string :=
  ("HTTP/1.1 503 Service Unavailable" +:+ crlf +:+ "Content-Type: text/plain" +:+ crlf
   +:+ "Content-Length: 30" +:+ crlf +:+ crlf +:+ "Proxy not registered by any client")%string.
Definition no_channel_response : string :=
  ("HTTP/1.1 503 Service Unavailable" +:+ crlf +:+ "Content-Type: text/plain" +:+ crlf
   +:+ "Content-Length: 37" +:+ crlf +:+ crlf +:+ "Message channel not found")%string.
Definition gateway_timeout : string := ("HTTP/1.1 504 Gateway Timeout" +:+ crlf +:+ crlf)%string.

(** ** The handlers *)

(** How a visitor's connection ends, or the pair that is bridged and the bytes
    sent to the work connection first. *)
Inductive vhost_end :=
| VIgnored
| VAnswered (response : string)
| VBridge (work : any_conn) (initial : list byte)
| VWorkLost.

Section Handlers.
Context `{Os, RingHash, Base64, Jwt, HashIter, ServerEnv, Lowercase}.

(** Asks the NewUserConn plugins. *)
Definition notify_new_user_conn (w : World) (proxy_name proxy_type remote_addr : string)
  : result string unit :=
  if no_plugin_at_all env_plugins then Ok tt else
  let run_id := default EmptyString (w_owners w !! proxy_name) in
  let user := if is_empty run_id then EmptyString
              else default EmptyString (get_user_by_run_id (w_cm w) run_id) in
  let content := JObj [("user", JObj [("user", JStr user); ("run_id", JStr run_id); ("metas", JObj [])]);
                       ("proxy_name", JStr proxy_name); ("proxy_type", JStr proxy_type);
                       ("remote_addr", JStr remote_addr)]%string in
  new_user_conn env_post env_encode_request env_decode_response (on_new_user_conn env_plugins) content
    env_req_id.

(** [get_proxy_stat(..).map(ProxyConnGuard::acquire)], and the guard's drop. *)
Definition acquire_guard (w : World) (proxy_name : string) : option nat * World :=
  match proxy_stats (w_metrics w) !! proxy_name with
  | Some ref => (Some ref, with_metrics (with_heap (w_metrics w)
                   (alter guard_acquire ref (heap (w_metrics w)))) w)
  | None => (None, w)
  end.

Definition drop_guard (guard : option nat) (w : World) : World :=
  match guard with
  | Some ref => with_metrics (with_heap (w_metrics w) (alter guard_drop ref (heap (w_metrics w)))) w
  | None => w
  end.

(** The handler up to the response or the bridge; [kind] is http or https,
    [work] what [get_work_conn] returned, [forwarded] whether the bytes already
    read could be written to the work connection. *)
Definition route_request (kind peer : string) (data : list byte) (work : result string any_conn)
    (forwarded : bool) (w : World) : vhost_end :=
  match data with
  | [] => VIgnored
  | _ =>
  match parse_request data with
  | None => VAnswered bad_request
  | Some info =>
  match find_proxy_by_host (vhost (w_pm w)) (ri_host info) with
  | None => VAnswered (not_found (ri_host info))
  | Some proxy_name =>
  match notify_new_user_conn w proxy_name kind peer with
  | Err _ => VAnswered bad_gateway
  | Ok _ =>
  match w_owners w !! proxy_name with
  | None => VAnswered no_owner_response
  | Some run_id =>
  match get_msg_tx (w_cm w) run_id with
  | None => VAnswered no_channel_response
  | Some _ =>
  match work with
  | Err _ => VAnswered gateway_timeout
  | Ok conn => if forwarded then VBridge conn data else VWorkLost
  end end end end end end end.

(** The statistics around it: the guard is held while the connection is
    served, and a bridge that ends well is counted. *)
Definition serve_request (kind peer : string) (data : list byte) (work : result string any_conn)
    (forwarded : bool) (secs : Z) (counted : option (Z * Z)) (w : World) : vhost_end * World :=
  let fate := route_request kind peer data work forwarded w in
  match parse_request data ≫= (fun info => find_proxy_by_host (vhost (w_pm w)) (ri_host info)) with
  | None => (fate, w)
  | Some proxy_name =>
      let '(guard, w) := acquire_guard w proxy_name in
      let w := match fate, counted with
               | VBridge _ _, Some (to_work, to_visitor) =>
                   with_metrics (record_traffic (w_metrics w) secs proxy_name to_work to_visitor).1 w
               | _, _ => w
               end in
      (fate, drop_guard guard w)
  end.

(** [conn.peer_addr()] may fail on the plain listener; the TLS one is given the
    address [accept] returned. *)
Definition handle_http_vhost_connection (peer : option string) :=
  serve_request "http" (default "0.0.0.0:0"%string peer).
Definition handle_https_vhost_connection (visitor_addr : string) := serve_request "https" visitor_addr.

(** ** What the handlers do *)

(** a visitor is bridged to a work connection exactly when its first bytes
    parse as a request, a proxy is registered for its host, the plugins accept
    it, the proxy has an owner whose channel is registered, and a work
    connection was found and took the bytes already read; the work connection
    then gets exactly those bytes first. *)
Theorem vhost_bridged_iff kind peer data work forwarded w conn initial :
  route_request kind peer data work forwarded w = VBridge conn initial <->
  data <> [] /\ initial = data /\ work = Ok conn /\ forwarded = true /\
  exists info name run_id tx, parse_request data = Some info /\
    find_proxy_by_host (vhost (w_pm w)) (ri_host info) = Some name /\
    notify_new_user_conn w name kind peer = Ok tt /\
    w_owners w !! name = Some run_id /\ get_msg_tx (w_cm w) run_id = Some tx.
Proof.
  unfold route_request. split.
  - intros E. repeat case_match; simplify_eq/=. split_and!; try done. eexists _, _, _, _. split_and!; try done.
    match goal with u : unit |- _ => by destruct u end.
  - intros (Hne & -> & -> & -> & info & name & run_id & tx & -> & E2 & E3 & E4 & E5).
    rewrite E2, E3, E4, E5. by destruct data.
Qed.

(** The guard is balanced: whatever happens to a request, the proxy's current
    connections are afterwards what they were. *)
Lemma serve_request_balanced kind peer data work forwarded secs counted w name st :
  0 <= current_conns st < u64_max -> get_proxy_stat (w_metrics w) name = Some st ->
  exists st', get_proxy_stat (w_metrics (serve_request kind peer data work forwarded secs counted w).2) name
    = Some st' /\ current_conns st' = current_conns st.
Proof.
  intros Hst Hs. unfold serve_request. destruct (parse_request data ≫= _) as [served|]; [|by exists st].
  unfold acquire_guard, get_proxy_stat in *. destruct (proxy_stats (w_metrics w) !! name) as [ref|] eqn:Hn; [|done].
  simpl in Hs. set (fate := route_request _ _ _ _ _ _). clearbody fate.
  assert (Hacq : forall sref, exists st1, (alter guard_acquire sref (heap (w_metrics w)) !! ref = Some st1) /\
    current_conns st1 = if decide (sref = ref) then current_conns st + 1 else current_conns st).
  { intros sref. destruct (decide (sref = ref)) as [->|Hne].
    - rewrite lookup_alter_eq, Hs. eexists. split; [done|]. simpl. apply wrap_u64_small. unfold u64_max in *. lia.
    - rewrite lookup_alter_ne by done. eauto. }
  assert (Hrec : forall m sref i o, proxy_stats m = proxy_stats (w_metrics w) ->
    proxy_stats (record_traffic m secs sref i o).1 = proxy_stats (w_metrics w) /\
    forall st1, heap m !! ref = Some st1 -> exists st2, heap (record_traffic m secs sref i o).1 !! ref = Some st2 /\
      current_conns st2 = current_conns st1).
  { intros m sref i o Hm. unfold record_traffic. cbn [proxy_stats heap with_counters].
    destruct (proxy_stats m !! sref) as [r|]; [|split; [done|eauto]].
    destruct (heap m !! r) as [str|] eqn:Hr; [|split; [done|eauto]].
    destruct (add_bytes secs i o str) as [str' ret] eqn:Ea. split; [done|]. simpl. intros st1 H1'.
    destruct (decide (r = ref)) as [->|Hne]; [|rewrite lookup_insert_ne by done; eauto].
    rewrite lookup_insert_eq. eexists. split; [done|]. rewrite Hr in H1'. injection H1' as ->.
    unfold add_bytes in Ea. destruct (series_add _ _ _); by injection Ea as <- _. }
  destruct (proxy_stats (w_metrics w) !! served) as [sref|] eqn:Hsv; cbn [drop_guard].
  - destruct (Hacq sref) as (st1 & H1' & C1). cbn [w_metrics with_metrics].
    assert (exists m st2, w_metrics (match fate, counted with
        | VBridge _ _, Some (to_work, to_visitor) => with_metrics (record_traffic
            (with_heap (w_metrics w) (alter guard_acquire sref (heap (w_metrics w)))) secs served to_work to_visitor).1
            (with_metrics (with_heap (w_metrics w) (alter guard_acquire sref (heap (w_metrics w)))) w)
        | _, _ => with_metrics (with_heap (w_metrics w) (alter guard_acquire sref (heap (w_metrics w)))) w
        end) = m /\ proxy_stats m = proxy_stats (w_metrics w) /\ heap m !! ref = Some st2 /\
        current_conns st2 = current_conns st1) as (m & st2 & Em & Ep & Eh & Ec).
    { destruct fate, counted as [[i o]|]; try (by eexists _, st1).
      destruct (Hrec (with_heap (w_metrics w) (alter guard_acquire sref (heap (w_metrics w)))) served i o eq_refl)
        as [P Q]. destruct (Q st1 H1') as (st2 & Q1 & Q2). by eexists _, st2. }
    cbn [snd]. rewrite Em. cbn [w_metrics with_metrics proxy_stats heap with_heap]. rewrite Ep, Hn. simpl.
    destruct (decide (sref = ref)) as [->|Hne].
    + rewrite lookup_alter_eq, Eh. eexists. split; [done|]. simpl. rewrite Ec, C1. rewrite wrap_u64_small; unfold u64_max in *; lia.
    + rewrite lookup_alter_ne by done. exists st2. split; [done|]. by rewrite Ec, C1.
  - destruct fate, counted as [[i o]|]; cbn [w_metrics with_metrics snd]; try (rewrite Hn; simpl; by exists st).
    destruct (Hrec (w_metrics w) served i o eq_refl) as [P Q]. destruct (Q st Hs) as (st2 & Q1 & Q2).
    rewrite P, Hn. simpl. eauto.
Qed.
End Handlers.

(** ** Framing of the responses *)

(** [r] announces a body of [n] bytes and carries [body]. *)
Definition announces (r : string) (n : Z) (body : string) : Prop :=
  exists head, r = (head +:+ "Content-Length: " +:+ dec n +:+ crlf +:+ crlf +:+ body)%string.

Lemma not_found_framed host : exists body,
  announces (not_found host) (str_len body) body /\ body = ("Proxy not found for host: " +:+ host)%string.
Proof.
  eexists. split; [|reflexivity].
  exists ("HTTP/1.1 404 Not Found" +:+ crlf +:+ "Content-Type: text/plain" +:+ crlf)%string. reflexivity.
Qed.

(** The two responses for a proxy without owner or channel announce the wrong
    length: four bytes too few, and twelve too many. *)
Theorem unavailable_misframed :
  announces no_owner_response 30 "Proxy not registered by any client" /\
  str_len "Proxy not registered by any client" = 34 /\
  announces no_channel_response 37 "Message channel not found" /\
  str_len "Message channel not found" = 25.
Proof.
  split_and!; [|done| |done].
  all: exists ("HTTP/1.1 503 Service Unavailable" +:+ crlf +:+ "Content-Type: text/plain" +:+ crlf)%string;
    reflexivity.
Qed.

(** ** Witnesses *)
Definition ascii_case : Lowercase := {| to_lowercase := to_ascii_lowercase |}.
Lemma ascii_case_laws : @LowercaseLaws ascii_case.
Proof. by split. Qed.

Definition demo_headers : list (string * string) := [("HOST", "shop.example.com:8080"); ("Accept", "text/html, */*")]%string.

Lemma request_roundtrip_witness : let _ := ascii_case in
  ri_host <$> parse_request (as_bytes (render_request "GET" "/" "HTTP/1.1" demo_headers "x=1"))
    = Some "shop.example.com"%string.
Proof.
  intros lc. rewrite (request_roundtrip "GET" "/" "HTTP/1.1" demo_headers "x=1").
  - vm_compute. reflexivity.
  - repeat constructor; done.
  - assert (Hh : forall k v, k <> EmptyString -> str_all visible k = true -> contains_char ":"%char k = false ->
      tight v -> contains_char LF v = false -> wf_header (k, v)) by (intros; by split).
    apply Forall_cons. split; [apply Hh; try done|apply Forall_singleton, Hh; try done]; right; split.
    + by eexists _, _.
    + by exists "shop.example.com:808"%string, "0"%char.
    + by eexists _, _.
    + by exists "text/html, */"%string, "*"%char.
  - unfold ascii_bytes. repeat constructor.
Defined.
