(* ===== verification/HttpText.v ===== *)
(** * Text of HTTP heads: white space, words and CR LF lines

    What the HTTP plugins rely on of [str::trim], [split_whitespace],
    [split("\r\n")] and [split_once(':')], for text that may hold any
    character: trimming twice is trimming once, words come back from a line
    they are printed to, and CR LF lines come back from a head. *)
From S2P Require Import Prelude RustStd RustFmt Utf8 Routers.

(** ** White space at the start of a text *)
Definition ws_head (s : string) : bool :=
  match s with
  | EmptyString => false
  | String a EmptyString => ws1 a
  | String a (String b EmptyString) => ws1 a || ws2 a b
  | String a (String b (String c _)) => ws1 a || ws2 a b || ws3 a b c
  end.

(** The same at the end of a text, read from its last character. *)
Definition ws_head_rev (s : string) : bool :=
  match s with
  | EmptyString => false
  | String a EmptyString => ws1 a
  | String a (String b EmptyString) => ws1 a || ws2 b a
  | String a (String b (String c _)) => ws1 a || ws2 b a || ws3 c b a
  end.

Lemma trim_start_head s : ws_head s = false -> trim_start s = s.
Proof.
  destruct s as [|a [|b [|c s]]]; cbn [ws_head trim_start]; [done|..].
  - by intros ->.
  - by intros [-> ->]%orb_false_iff.
  - by intros [[-> ->]%orb_false_iff ->]%orb_false_iff.
Qed.

Lemma trim_start_rev_head s : ws_head_rev s = false -> trim_start_rev s = s.
Proof.
  destruct s as [|a [|b [|c s]]]; cbn [ws_head_rev trim_start_rev]; [done|..].
  - by intros ->.
  - by intros [-> ->]%orb_false_iff.
  - by intros [[-> ->]%orb_false_iff ->]%orb_false_iff.
Qed.

(** The two scans, one step at a time. *)
Lemma trim_start_cons a s : trim_start (String a s) =
  if ws1 a then trim_start s else
  match s with
  | EmptyString => String a s
  | String b s2 =>
      if ws2 a b then trim_start s2 else
      match s2 with EmptyString => String a s | String c s3 => if ws3 a b c then trim_start s3 else String a s end
  end.
Proof. done. Qed.

Lemma trim_start_rev_cons a s : trim_start_rev (String a s) =
  if ws1 a then trim_start_rev s else
  match s with
  | EmptyString => String a s
  | String b s2 =>
      if ws2 b a then trim_start_rev s2 else
      match s2 with EmptyString => String a s | String c s3 => if ws3 c b a then trim_start_rev s3 else String a s end
  end.
Proof. done. Qed.

(** What is left after trimming does not start with white space. *)
Lemma ws_head_trim_start s : ws_head (trim_start s) = false.
Proof.
  induction s as [s IH] using (induction_ltof1 _ String.length). unfold ltof in IH.
  destruct s as [|a s]; [done|]. rewrite trim_start_cons.
  destruct (ws1 a) eqn:E1; [apply IH; simpl; lia|]. destruct s as [|b s]; [done|].
  destruct (ws2 a b) eqn:E2; [apply IH; simpl; lia|].
  destruct s as [|c s]; [cbn [ws_head]; by rewrite E1, E2|].
  destruct (ws3 a b c) eqn:E3; [apply IH; simpl; lia|]. cbn [ws_head]. by rewrite E1, E2, E3.
Qed.

Lemma ws_head_trim_start_rev s : ws_head_rev (trim_start_rev s) = false.
Proof.
  induction s as [s IH] using (induction_ltof1 _ String.length). unfold ltof in IH.
  destruct s as [|a s]; [done|]. rewrite trim_start_rev_cons.
  destruct (ws1 a) eqn:E1; [apply IH; simpl; lia|]. destruct s as [|b s]; [done|].
  destruct (ws2 b a) eqn:E2; [apply IH; simpl; lia|].
  destruct s as [|c s]; [cbn [ws_head_rev]; by rewrite E1, E2|].
  destruct (ws3 c b a) eqn:E3; [apply IH; simpl; lia|]. cbn [ws_head_rev]. by rewrite E1, E2, E3.
Qed.

Lemma trim_start_fixed s : trim_start s = s <-> ws_head s = false.
Proof. split; [intros <-; apply ws_head_trim_start|apply trim_start_head]. Qed.

(** White space at the start of a prefix is white space at the start. *)
Lemma ws_head_prefix p q : ws_head (p +:+ q) = false -> ws_head p = false.
Proof.
  destruct p as [|a [|b [|c p]]]; [done|..].
  - destruct q as [|b [|c q]]; cbn [ws_head String.app app]; [done|..];
      intros ?%orb_false_iff; destruct_and?; [done|].
    match goal with H : _ || _ = false |- _ => by apply orb_false_iff in H as [-> _] end.
  - destruct q as [|c q]; [done|]. change ((String a (String b EmptyString) +:+ String c q)%string)
      with (String a (String b (String c q))). cbn [ws_head]. by intros [? _]%orb_false_iff.
  - done.
Qed.

(** A space ends every white-space character. *)
Lemma ws_head_space p q : p <> EmptyString -> ws_head p = false -> ws_head (p +:+ String " "%char q) = false.
Proof.
  assert (forall a, ws2 a " "%char = false) as E2.
  { intros a. unfold ws2. apply bool_decide_eq_false. change (code " "%char) with 32. lia. }
  assert (forall a b, ws3 a " "%char b = false) as E3.
  { intros a b. unfold ws3. apply bool_decide_eq_false. change (code " "%char) with 32. lia. }
  assert (forall a b, ws3 a b " "%char = false) as E3'.
  { intros a b. unfold ws3. apply bool_decide_eq_false. change (code " "%char) with 32. lia. }
  destruct p as [|a [|b [|c p]]]; [done|..]; intros _ H.
  - destruct q as [|b q]; cbn [ws_head] in H |- *.
    + change ((String a EmptyString +:+ String " "%char EmptyString)%string)
        with (String a (String " "%char EmptyString)). cbn [ws_head]. by rewrite H, E2.
    + change ((String a EmptyString +:+ String " "%char (String b q))%string)
        with (String a (String " "%char (String b q))). cbn [ws_head]. by rewrite H, E2, E3.
  - change ((String a (String b EmptyString) +:+ String " "%char q)%string)
      with (String a (String b (String " "%char q))). cbn [ws_head] in *. by rewrite H, E3'.
  - done.
Qed.

(** ** Trimming *)
Lemma trim_start_rev_suffix s : exists w, s = (w +:+ trim_start_rev s)%string.
Proof.
  induction s as [s IH] using (induction_ltof1 _ String.length). unfold ltof in IH.
  assert (forall p t, (String.length t < String.length s)%nat -> (p +:+ t)%string = s ->
    exists w, s = (w +:+ trim_start_rev t)%string) as step.
  { intros p t Hl <-. destruct (IH t Hl) as [w E]. exists (p +:+ w)%string. rewrite E at 1. apply str_app_assoc. }
  destruct s as [|a s]; [by exists EmptyString|]. rewrite trim_start_rev_cons.
  destruct (ws1 a); [apply (step (String a EmptyString)); [simpl; lia|done]|].
  destruct s as [|b s]; [by exists EmptyString|].
  destruct (ws2 _ _); [apply (step (String a (String b EmptyString))); [simpl; lia|done]|].
  destruct s as [|c s]; [by exists EmptyString|].
  destruct (ws3 _ _ _); [|by exists EmptyString].
  apply (step (String a (String b (String c EmptyString)))); [simpl; lia|done].
Qed.

Lemma trim_end_prefix s : exists w, s = (trim_end s +:+ w)%string.
Proof.
  unfold trim_end. destruct (trim_start_rev_suffix (str_rev s)) as [w E]. exists (str_rev w).
  rewrite <- str_rev_app_dist, <- E. by rewrite str_rev_involutive.
Qed.

Lemma trim_start_suffix s : exists w, s = (w +:+ trim_start s)%string.
Proof.
  induction s as [s IH] using (induction_ltof1 _ String.length). unfold ltof in IH.
  assert (forall p t, (String.length t < String.length s)%nat -> (p +:+ t)%string = s ->
    exists w, s = (w +:+ trim_start t)%string) as step.
  { intros p t Hl <-. destruct (IH t Hl) as [w E]. exists (p +:+ w)%string. rewrite E at 1. apply str_app_assoc. }
  destruct s as [|a s]; [by exists EmptyString|]. rewrite trim_start_cons.
  destruct (ws1 a); [apply (step (String a EmptyString)); [simpl; lia|done]|].
  destruct s as [|b s]; [by exists EmptyString|].
  destruct (ws2 _ _); [apply (step (String a (String b EmptyString))); [simpl; lia|done]|].
  destruct s as [|c s]; [by exists EmptyString|].
  destruct (ws3 _ _ _); [|by exists EmptyString].
  apply (step (String a (String b (String c EmptyString)))); [simpl; lia|done].
Qed.

Lemma trim_middle s : exists a b, s = (a +:+ trim s +:+ b)%string.
Proof.
  unfold trim. destruct (trim_start_suffix s) as [a Ea]. destruct (trim_end_prefix (trim_start s)) as [b Eb].
  exists a, b. by rewrite Ea at 1; rewrite Eb at 1.
Qed.

Lemma trim_idem s : trim (trim s) = trim s.
Proof.
  unfold trim at 1. set (t := trim_start s). unfold trim. fold t.
  rewrite (trim_start_head (trim_end t)).
  - unfold trim_end. rewrite str_rev_involutive.
    by rewrite (trim_start_rev_head (trim_start_rev (str_rev t))) by apply ws_head_trim_start_rev.
  - destruct (trim_end_prefix t) as [w E]. apply (ws_head_prefix _ w). rewrite <- E. apply ws_head_trim_start.
Qed.

(** ** Words *)

(** No character of the text starts a white-space character. *)
Fixpoint solid (s : string) : bool :=
  match s with EmptyString => true | String _ s' => negb (ws_head s) && solid s' end.

Lemma solid_cons c s : solid (String c s) = true <-> ws_head (String c s) = false /\ solid s = true.
Proof. cbn [solid]. rewrite andb_true_iff, negb_true_iff. done. Qed.

Lemma take_word_spec fuel s : (String.length s <= fuel)%nat ->
  exists w r, take_word fuel s = (w, r) /\ s = (w +:+ r)%string /\ solid w = true /\
    (ws_head s = false -> s <> EmptyString -> w <> EmptyString).
Proof.
  revert s; induction fuel as [|fuel IH]; intros [|c s] Hf; simpl in Hf; try lia;
    [by exists EmptyString, EmptyString..|].
  cbn [take_word]. destruct (decide (trim_start (String c s) = String c s)) as [E|E].
  - destruct (IH s) as (w & r & -> & Es & Hw & _); [lia|]. exists (String c w), r.
    split_and!; [done|by rewrite Es| |done]. apply solid_cons. split; [|done].
    apply trim_start_fixed in E. apply (ws_head_prefix _ r). by rewrite Es in E.
  - exists EmptyString, (String c s). split_and!; [done..|]. intros H%trim_start_fixed. done.
Qed.

(** Every word of a text is non-empty and solid. *)
Lemma words_fuel_solid fuel s : Forall (fun w => w <> EmptyString /\ solid w = true) (words_fuel fuel s).
Proof.
  revert s; induction fuel as [|fuel IH]; intros s; cbn [words_fuel]; [done|].
  pose proof (ws_head_trim_start s) as Hs. destruct (is_empty (trim_start s)) eqn:Ee; [done|].
  apply is_empty_false in Ee. destruct (take_word_spec _ (trim_start s) (le_n _)) as (w & r & -> & _ & Hw & Hne).
  constructor; [|apply IH]. split; [by apply Hne|done].
Qed.

Lemma split_whitespace_solid s : Forall (fun w => w <> EmptyString /\ solid w = true) (split_whitespace s).
Proof. apply words_fuel_solid. Qed.

Lemma take_word_solid w rest fuel : solid w = true -> (String.length w < fuel)%nat ->
  take_word fuel (w +:+ String " "%char rest)%string = (w, String " "%char rest).
Proof.
  revert fuel; induction w as [|c w IH]; intros [|fuel] Hw Hf; simpl in Hf; try lia.
  - change (EmptyString +:+ String " "%char rest)%string with (String " "%char rest). cbn [take_word].
    rewrite decide_False; [done|]. intros E%trim_start_fixed. destruct rest as [|? [|? ?]]; done.
  - apply solid_cons in Hw as [Hc Hw].
    change (String c w +:+ String " "%char rest)%string with (String c (w +:+ String " "%char rest)).
    cbn [take_word]. rewrite decide_True.
    + rewrite IH by (done || lia). done.
    + apply trim_start_fixed. change (String c (w +:+ String " "%char rest)) with (String c w +:+ String " "%char rest)%string.
      by apply ws_head_space.
Qed.

Lemma words_fuel_cons w rest fuel : w <> EmptyString -> solid w = true ->
  words_fuel (S fuel) (w +:+ String " "%char rest)%string = w :: words_fuel fuel rest.
Proof.
  intros Hne Hw. destruct w as [|c w]; [done|]. pose proof Hw as [Hc _]%solid_cons.
  cbn [words_fuel]. rewrite (trim_start_head (String c w +:+ _)) by (by apply ws_head_space).
  change (is_empty (String c w +:+ String " "%char rest)%string) with false. cbn iota.
  rewrite take_word_solid; [by rewrite words_fuel_space|done|].
  rewrite str_length_app. simpl. lia.
Qed.

(** The first two words of a line that prints them. *)
Lemma split_two_words a b rest : a <> EmptyString -> b <> EmptyString -> solid a = true -> solid b = true ->
  exists ws, split_whitespace (a +:+ String " "%char (b +:+ String " "%char rest))%string = a :: b :: ws /\
    ws = words_fuel (String.length a + String.length b + String.length rest + 1) rest.
Proof.
  intros Ha Hb Sa Sb. unfold split_whitespace. rewrite words_fuel_cons by done. rewrite str_length_app.
  cbn [String.length]. rewrite str_length_app. cbn [String.length].
  replace (String.length a + S (String.length b + S (String.length rest)))%nat
    with (S (String.length a + String.length b + String.length rest + 1)) by lia.
  rewrite words_fuel_cons by done. eauto.
Qed.

(** ** CR LF lines *)
Definition CR : ascii := ascii_of_N 13.

Fixpoint no_crlf (s : string) : bool :=
  match s with EmptyString => true | String _ s' => negb (starts_with crlf s) && no_crlf s' end.

Lemma starts_with_app p s t : starts_with p s = true -> starts_with p (s +:+ t) = true.
Proof. rewrite !starts_with_true. intros [r ->]. exists (r +:+ t)%string. by rewrite !str_app_assoc. Qed.

Lemma no_crlf_cons c s : no_crlf (String c s) = true <-> starts_with crlf (String c s) = false /\ no_crlf s = true.
Proof. cbn [no_crlf]. rewrite andb_true_iff, negb_true_iff. done. Qed.

Lemma no_crlf_app a b : no_crlf (a +:+ b) = true -> no_crlf a = true /\ no_crlf b = true.
Proof.
  induction a as [|c a IH]; [done|].
  change (String c a +:+ b)%string with (String c (a +:+ b)). rewrite !no_crlf_cons.
  intros [Hc [Ha Hb]%IH]. split_and!; try done. apply not_true_is_false. intros H%(starts_with_app _ _ b).
  change (String c a +:+ b)%string with (String c (a +:+ b)) in H. congruence.
Qed.

Lemma starts_crlf c d s : starts_with crlf (String c (String d s)) = true <-> c = CR /\ d = LF.
Proof.
  rewrite starts_with_true. split.
  - intros [r E]. by injection E as -> -> _.
  - intros [-> ->]. by exists s.
Qed.

(** Nothing but a line feed completes a CR LF across a joint. *)
Lemma no_crlf_join a c b : no_crlf a = true -> no_crlf (String c b) = true -> c <> LF ->
  no_crlf (a +:+ String c b) = true.
Proof.
  intros Ha Hb Hc. induction a as [|x a IH]; [done|]. apply no_crlf_cons in Ha as [Hx Ha].
  change (String x a +:+ String c b)%string with (String x (a +:+ String c b)). apply no_crlf_cons.
  split; [|by apply IH]. apply not_true_is_false. destruct a as [|y a].
  - change (EmptyString +:+ String c b)%string with (String c b). by intros [_ ?]%starts_crlf.
  - change (String y a +:+ String c b)%string with (String y (a +:+ String c b)). intros H%starts_crlf.
    apply (starts_crlf x y a) in H. congruence.
Qed.

Lemma strip_prefix_starts p s : strip_prefix p s = None <-> starts_with p s = false.
Proof. unfold starts_with. by destruct (strip_prefix p s). Qed.

Lemma split_once_line l rest : no_crlf l = true -> split_once crlf (l +:+ crlf +:+ rest)%string = Some (l, rest).
Proof.
  induction l as [|c l IH]; [done|]. intros [Hc Hl]%no_crlf_cons.
  change ((String c l +:+ crlf +:+ rest)%string) with (String c (l +:+ crlf +:+ rest)). cbn [split_once].
  assert (starts_with crlf (String c (l +:+ crlf +:+ rest)) = false) as ->%strip_prefix_starts; [|by rewrite IH].
  apply not_true_is_false. destruct l as [|d l].
  - change (EmptyString +:+ crlf +:+ rest)%string with (String CR (String LF rest)). by intros [_ ?]%starts_crlf.
  - change (String d l +:+ crlf +:+ rest)%string with (String d (l +:+ crlf +:+ rest)). intros H%starts_crlf.
    apply (starts_crlf c d l) in H. congruence.
Qed.

Lemma split_once_no_line s : split_once crlf s = None -> no_crlf s = true.
Proof.
  induction s as [|c s IH]; [done|]. cbn [split_once].
  destruct (strip_prefix crlf (String c s)) eqn:E; [done|]. destruct (split_once crlf s) as [[? ?]|]; [done|].
  intros _. apply no_crlf_cons. split; [by apply strip_prefix_starts|by apply IH].
Qed.

Lemma split_once_first_line s b a : split_once crlf s = Some (b, a) -> no_crlf b = true.
Proof.
  revert b; induction s as [|c s IH]; intros b; cbn [split_once]; [done|].
  destruct (strip_prefix crlf (String c s)) eqn:E; [by intros [= <- _]|].
  destruct (split_once crlf s) as [[b' a']|] eqn:Es; [|done]. intros [= <- <-].
  apply no_crlf_cons. split; [|by eapply IH]. apply split_once_Some in Es.
  apply strip_prefix_starts in E. apply not_true_is_false. intros H%(starts_with_app _ _ (crlf +:+ a')).
  change (String c b' +:+ crlf +:+ a')%string with (String c (b' +:+ crlf +:+ a')) in H. rewrite Es in E. congruence.
Qed.

Lemma split_str_no_crlf fuel s : (String.length s <= fuel)%nat ->
  Forall (fun l => no_crlf l = true) (split_str_fuel fuel crlf s).
Proof.
  revert s; induction fuel as [|fuel IH]; intros s Hf.
  - destruct s; simpl in Hf; [by repeat constructor|lia].
  - cbn [split_str_fuel]. destruct (split_once crlf s) as [[b a]|] eqn:E.
    + constructor; [by eapply split_once_first_line|]. apply IH. apply split_once_Some in E. subst s.
      rewrite !str_length_app in Hf. simpl in Hf. lia.
    + constructor; [by apply split_once_no_line|done].
Qed.

(** The lines a head is made of come back when it is split. *)
Lemma split_str_lines ls rest fuel : Forall (fun l => no_crlf l = true) ls -> (length ls <= fuel)%nat ->
  split_str_fuel fuel crlf (crlf_lines ls rest) = ls ++ split_str_fuel (fuel - length ls) crlf rest.
Proof.
  intros H. revert fuel; induction H as [|l ls Hl _ IH]; intros fuel Hf; [by rewrite Nat.sub_0_r|].
  destruct fuel as [|fuel]; simpl in Hf; [lia|]. cbn [crlf_lines foldr split_str_fuel]. fold (crlf_lines ls rest).
  rewrite split_once_line by done. rewrite IH by lia. done.
Qed.

Lemma crlf_lines_length ls rest : (2 * length ls + String.length rest <= String.length (crlf_lines ls rest))%nat.
Proof.
  induction ls as [|l ls IH]; [done|]. cbn [crlf_lines foldr length]. fold (crlf_lines ls rest).
  rewrite !str_length_app. simpl. lia.
Qed.

(** ** Parts of a header line *)
Lemma split_once_colon s b a : split_once ":" s = Some (b, a) -> contains_char ":"%char b = false.
Proof.
  revert b; induction s as [|c s IH]; intros b; cbn [split_once strip_prefix]; [done|].
  destruct (decide (":"%char = c)) as [->|Hc]; [by intros [= <- _]|].
  destruct (split_once ":" s) as [[b' a']|]; [|done]. intros [= <- ->].
  cbn [contains_char]. rewrite decide_False by congruence. by apply (IH b').
Qed.

Lemma trim_no_crlf s : no_crlf s = true -> no_crlf (trim s) = true.
Proof. intros H. destruct (trim_middle s) as (a & b & E). rewrite E in H.
  apply no_crlf_app in H as [_ H]. by apply no_crlf_app in H as [H _]. Qed.

Lemma trim_no_char c s : contains_char c s = false -> contains_char c (trim s) = false.
Proof. intros H. destruct (trim_middle s) as (a & b & E). rewrite E, !contains_char_app in H.
  apply orb_false_iff in H as [_ H]. by apply orb_false_iff in H as [H _]. Qed.

(** ** Solid text is trimmed text on one line *)
Lemma solid_app a b : solid (a +:+ b) = true -> solid b = true.
Proof.
  induction a as [|c a IH]; [done|]. change (String c a +:+ b)%string with (String c (a +:+ b)).
  intros [_ Hs]%solid_cons. by apply IH.
Qed.

Lemma solid_prefix a b : solid (a +:+ b) = true -> solid a = true.
Proof.
  induction a as [|c a IH]; [done|]. change (String c a +:+ b)%string with (String c (a +:+ b)).
  intros [Hc Hs]%solid_cons. apply solid_cons. split; [|by apply IH]. by apply (ws_head_prefix _ b).
Qed.

Lemma solid_no_crlf s : solid s = true -> no_crlf s = true.
Proof.
  induction s as [|c s IH]; [done|]. intros [Hc Hs]%solid_cons. apply no_crlf_cons. split; [|by apply IH].
  apply not_true_is_false. destruct s as [|d s]; [by intros [r Hr]%starts_with_true|].
  intros [-> ->]%starts_crlf. by destruct s.
Qed.

Lemma solid_trim s : solid s = true -> trim s = s.
Proof.
  intros Hs. unfold trim. rewrite trim_start_head by (destruct s; [done|by apply solid_cons in Hs as [? _]]).
  unfold trim_end. rewrite trim_start_rev_head; [by rewrite str_rev_involutive|].
  pose proof (str_rev_involutive s) as E. destruct (str_rev s) as [|a [|b [|c r]]]; [done|..]; rewrite <- E in Hs.
  - apply (solid_cons a EmptyString) in Hs as [Ha _]. exact Ha.
  - apply (solid_cons b (String a EmptyString)) in Hs as [Hb [Ha _]%solid_cons]. cbn [ws_head ws_head_rev] in *.
    apply orb_false_iff in Hb as [_ ->]. by rewrite Ha.
  - rewrite !str_rev_cons, <- !str_app_assoc in Hs. apply solid_app in Hs.
    apply (solid_cons c (String b (String a EmptyString))) in Hs as [Hc [Hb [Ha _]%solid_cons]%solid_cons].
    cbn [ws_head ws_head_rev] in *. apply orb_false_iff in Hb as [_ ->], Hc as [_ ->]. by rewrite Ha.
Qed.
