(* ===== verification/HttpHead.v ===== *)
(** * Heads of HTTP messages (src/rust_frp_plugin/src/http_bridge.rs)

    [Request] and [Response] with their parsers, how the body that follows a
    head is delimited, and the heads the bridging plugins write instead: one to
    the local service, one back to the visitor.  The first group of theorems
    parses the written heads again: the next reader delimits the body as this
    one did, so the two never disagree on where a message ends. *)
From S2P Require Import Prelude RustStd RustFmt Utf8 ConfigTypes Routers HttpText.

(** Heads larger than this are refused; reads are of this size. *)
Definition MAX_HEAD_BYTES : Z := 64 * 1024.
Definition IO_CHUNK : Z := 8 * 1024.

(** How a body is delimited. *)
Inductive BodyFraming :=
| NoBody
| Length (n : Z)
| Chunked
| UntilEof.

#[global] Instance BodyFraming_eq_dec : EqDecision BodyFraming.
Proof. solve_decision. Defined.

Definition invalid_input (msg : string) : io_error := IoError InvalidInput msg.

Notation headers_t := (list (string * string)).

Record Request := { q_method : string; q_target : string; q_http10 : bool; q_headers : headers_t }.
Record Response := { p_status : Z; p_headers : headers_t }.

(** ** Header lists *)
Definition header_of (headers : headers_t) (name : string) : option string :=
  snd <$> List.find (fun kv => eq_ignore_ascii_case kv.1 name) headers.

Definition has_chunked (headers : headers_t) : bool :=
  existsb (fun kv => eq_ignore_ascii_case kv.1 "transfer-encoding" &&
                     contains_str "chunked" (to_ascii_lowercase kv.2)) headers.

Definition content_length (headers : headers_t) : option Z :=
  v ← header_of headers "content-length"; parse_unsigned 64 (trim v).

(** ** Parsing *)

(** Lines up to the first empty one; a line without a colon is skipped. *)
Fixpoint head_lines (lines : list string) : headers_t :=
  match lines with
  | [] => []
  | line :: lines =>
      if is_empty line then [] else
      match split_once ":" line with
      | Some (name, value) => (trim name, trim value) :: head_lines lines
      | None => head_lines lines
      end
  end.

(** [parse_head] of the text, and of the bytes. *)
Definition parse_head_text (text : string) : string * headers_t :=
  match split_str crlf text with
  | [] => (EmptyString, [])
  | first :: lines => (first, head_lines lines)
  end.

Definition parse_head (head : list byte) : result io_error (string * headers_t) :=
  if is_utf8 head then Ok (parse_head_text (of_bytes head))
  else Err (invalid_input "HTTP header is not valid UTF-8/ASCII").

Definition request_of (head : string * headers_t) : result io_error Request :=
  match split_whitespace head.1 with
  | method :: target :: rest =>
      Ok {| q_method := method; q_target := target;
            q_http10 := match rest with v :: _ => starts_with "HTTP/1.0" v | [] => false end;
            q_headers := head.2 |}
  | _ => Err (invalid_input "invalid HTTP request line")
  end.

Definition parse_request (head : list byte) : result io_error Request := parse_head head ≫= request_of.

Definition response_of (head : string * headers_t) : result io_error Response :=
  match split_whitespace head.1 with
  | _ :: status :: _ =>
      match parse_unsigned 16 status with
      | Some n => Ok {| p_status := n; p_headers := head.2 |}
      | None => Err (invalid_input "invalid HTTP status line")
      end
  | _ => Err (invalid_input "invalid HTTP status line")
  end.

Definition parse_response (head : list byte) : result io_error Response := parse_head head ≫= response_of.

(** [Request::header], [keep_alive], [body_framing]. *)
Definition header (r : Request) (name : string) : option string := header_of (q_headers r) name.

Definition keep_alive (r : Request) : bool :=
  match header r "connection" with
  | Some v => if eq_ignore_ascii_case v "close" then false
              else if eq_ignore_ascii_case v "keep-alive" then true
              else negb (q_http10 r)
  | None => negb (q_http10 r)
  end.

Definition headers_framing (headers : headers_t) (otherwise : BodyFraming) : BodyFraming :=
  if has_chunked headers then Chunked else
  match content_length headers with Some n => Length n | None => otherwise end.

Definition request_framing (r : Request) : BodyFraming := headers_framing (q_headers r) NoBody.

Definition bodyless (status : Z) (request_method : string) : bool :=
  eq_ignore_ascii_case request_method "HEAD" || bool_decide (100 <= status < 200) ||
  bool_decide (status = 204) || bool_decide (status = 304).

Definition response_framing (r : Response) (request_method : string) : BodyFraming :=
  if bodyless (p_status r) request_method then NoBody
  else headers_framing (p_headers r) UntilEof.

(** [host_part]. *)
Fixpoint trim_start_char (c : ascii) (s : string) : string :=
  match s with
  | String a s' => if decide (a = c) then trim_start_char c s' else s
  | EmptyString => EmptyString
  end.
Definition trim_end_char (c : ascii) (s : string) : string := str_rev (trim_start_char c (str_rev s)).

Definition host_part (addr : string) : string :=
  match rsplit_once ":"%char addr with
  | Some (host, _) =>
      if is_empty host then "localhost"%string
      else trim_end_char "]"%char (trim_start_char "["%char host)
  | None => "localhost"%string
  end.

(** ** The heads that are written *)
Definition header_text (kv : string * string) : string := (kv.1 +:+ ": " +:+ kv.2)%string.

Definition head_text (first : string) (headers : headers_t) : string :=
  crlf_lines (first :: map header_text headers) crlf.

(** The visitor's headers: connection headers dropped, [Host] rewritten. *)
Fixpoint keep_headers (host_rewrite : option string) (headers : headers_t) : headers_t :=
  match headers with
  | [] => []
  | (k, v) :: headers =>
      let lower := to_ascii_lowercase k in
      if bool_decide (lower = "connection"%string \/ lower = "proxy-connection"%string)
      then keep_headers host_rewrite headers
      else if bool_decide (lower = "host"%string)
      then ("Host"%string, default v host_rewrite) :: keep_headers host_rewrite headers
      else (k, v) :: keep_headers host_rewrite headers
  end.

Definition named (name : string) (kv : string * string) : bool := eq_ignore_ascii_case kv.1 name.

Definition without (name : string) (headers : headers_t) : headers_t :=
  filter (fun kv => named name kv = false) headers.

Definition with_host (host_rewrite : option string) (default_host : string) (headers : headers_t) : headers_t :=
  if existsb (named "host") headers then headers
  else headers ++ [("Host"%string, default default_host host_rewrite)].

(** One configured header: it replaces those of its name. *)
Definition set_header (headers : headers_t) (kv : string * string) : headers_t :=
  without kv.1 headers ++ [kv].

Definition forward_headers `{HashIter} (request : Request) (host_rewrite : option string)
  (extra : gmap string string) (default_host : string) : headers_t :=
  without "connection"
    (foldl set_header (with_host host_rewrite default_host (keep_headers host_rewrite (q_headers request)))
       (hash_iter extra)) ++ [("Connection"%string, "close"%string)].

Definition request_line (method target : string) : string := (method +:+ " " +:+ target +:+ " HTTP/1.1")%string.

Definition build_forward_request_head `{HashIter} (request : Request) (host_rewrite : option string)
  (extra : gmap string string) (default_host : string) : string :=
  head_text (request_line (q_method request) (q_target request))
    (forward_headers request host_rewrite extra default_host).

Definition status_text (status : Z) : string :=
  default EmptyString (snd <$> List.find (fun p => bool_decide (p.1 = status))
   [(200, "OK"); (201, "Created"); (202, "Accepted"); (204, "No Content"); (206, "Partial Content");
    (301, "Moved Permanently"); (302, "Found"); (303, "See Other"); (304, "Not Modified");
    (307, "Temporary Redirect"); (308, "Permanent Redirect"); (400, "Bad Request");
    (401, "Unauthorized"); (403, "Forbidden"); (404, "Not Found"); (405, "Method Not Allowed");
    (408, "Request Timeout"); (409, "Conflict"); (413, "Payload Too Large"); (414, "URI Too Long");
    (415, "Unsupported Media Type"); (429, "Too Many Requests"); (500, "Internal Server Error");
    (501, "Not Implemented"); (502, "Bad Gateway"); (503, "Service Unavailable");
    (504, "Gateway Timeout")]%string).

Definition hop_header (kv : string * string) : bool :=
  let lower := to_ascii_lowercase kv.1 in
  bool_decide (lower = "connection" \/ lower = "proxy-connection" \/ lower = "keep-alive")%string.

Definition build_forward_response_head (response : Response) (keep_alive : bool) : string :=
  head_text ("HTTP/1.1 " +:+ dec (p_status response) +:+ " " +:+ status_text (p_status response))
    (filter (fun kv => hop_header kv = false) (p_headers response) ++
     [("Connection", if keep_alive then "keep-alive" else "close")%string]).

(** ** Header lines survive printing *)

(** A header as the parser gives it: trimmed, no colon in the name, one line. *)
Definition good_header (kv : string * string) : Prop :=
  trim kv.1 = kv.1 /\ contains_char ":"%char kv.1 = false /\ no_crlf kv.1 = true /\
  trim kv.2 = kv.2 /\ no_crlf kv.2 = true.

Definition good_value (v : string) : Prop := trim v = v /\ no_crlf v = true.

Lemma header_text_colon k v : header_text (k, v) = (k +:+ String ":"%char (String " "%char v))%string.
Proof. done. Qed.

Lemma header_text_no_crlf kv : good_header kv -> no_crlf (header_text kv) = true.
Proof.
  destruct kv as [k v]. intros (_ & _ & Hk & _ & Hv). cbn [fst snd] in *. rewrite header_text_colon.
  apply no_crlf_join; [done| |done]. apply no_crlf_cons. split; [by destruct v|].
  apply no_crlf_cons. split; [|done]. apply not_true_is_false. destruct v as [|d v]; [done|].
  by intros [? _]%starts_crlf.
Qed.

Lemma head_lines_text hs rest : Forall good_header hs ->
  head_lines (map header_text hs ++ EmptyString :: rest) = hs.
Proof.
  induction 1 as [|[k v] hs (Hk & Hc & _ & Hv & _) _ IH]; [done|].
  cbn [map app head_lines]. rewrite header_text_colon.
  assert (is_empty (k +:+ String ":"%char (String " "%char v))%string = false) as -> by (by destruct k).
  rewrite split_once_char by done. rewrite trim_after_space. cbn [fst snd] in Hk, Hv. by rewrite Hk, Hv, IH.
Qed.

Lemma parse_head_text_printed first hs : no_crlf first = true -> Forall good_header hs ->
  parse_head_text (head_text first hs) = (first, hs).
Proof.
  intros Hf Hh. unfold parse_head_text, head_text, split_str.
  pose proof (crlf_lines_length (first :: map header_text hs) crlf) as Hl.
  rewrite split_str_lines.
  - cbn [app]. f_equal. cbn [length] in Hl. change (String.length crlf) with 2%nat in Hl.
    destruct (_ - _)%nat as [|n] eqn:En; [cbn [length] in En; lia|].
    assert (split_str_fuel (S n) crlf crlf = EmptyString :: [EmptyString]) as -> by (by destruct n).
    by apply head_lines_text.
  - constructor; [done|]. rewrite Forall_map. eapply Forall_impl; [exact Hh|apply header_text_no_crlf].
  - lia.
Qed.

Lemma head_lines_good lines : Forall (fun l => no_crlf l = true) lines -> Forall good_header (head_lines lines).
Proof.
  induction 1 as [|l lines Hl _ IH]; cbn [head_lines]; [done|]. destruct (is_empty l); [done|].
  destruct (split_once ":" l) as [[k v]|] eqn:E; [|done]. constructor; [|done].
  pose proof (split_once_colon _ _ _ E) as Hc. apply split_once_Some in E. rewrite E in Hl.
  apply no_crlf_app in Hl as [Hk Hv]. apply no_crlf_cons in Hv as [_ Hv].
  unfold good_header; cbn [fst snd]. split_and!; first [apply trim_idem|by apply trim_no_char|by apply trim_no_crlf].
Qed.

Lemma parse_head_text_good text first hs : parse_head_text text = (first, hs) ->
  no_crlf first = true /\ Forall good_header hs.
Proof.
  unfold parse_head_text. pose proof (split_str_no_crlf _ text (le_n _)) as H. fold (split_str crlf text) in H.
  destruct (split_str crlf text) as [|l lines]; [by intros [= <- <-]|]. inversion H; subst.
  intros [= <- <-]. split; [done|by apply head_lines_good].
Qed.

Lemma parse_head_Ok head h : parse_head head = Ok h -> h = parse_head_text (of_bytes head).
Proof. unfold parse_head. destruct (is_utf8 head); [by intros [= <-]|done]. Qed.

(** What the parser guarantees of a request. *)
Definition good_request (r : Request) : Prop :=
  q_method r <> EmptyString /\ solid (q_method r) = true /\
  q_target r <> EmptyString /\ solid (q_target r) = true /\ Forall good_header (q_headers r).

Lemma parse_request_good head r : parse_request head = Ok r -> good_request r.
Proof.
  unfold parse_request. intros ([first hs] & H%parse_head_Ok & Hr)%result_bind_Ok.
  symmetry in H. apply parse_head_text_good in H as [_ Hh]. unfold request_of in Hr.
  pose proof (split_whitespace_solid first) as Hw. cbn [fst snd] in Hr.
  destruct (split_whitespace first) as [|m [|t rest]]; [done..|]. injection Hr as <-.
  inversion Hw as [|? ? [? ?] Hw']; subst. inversion Hw' as [|? ? [? ?] ?]; subst. done.
Qed.

Lemma parse_response_good head p : parse_response head = Ok p ->
  0 <= p_status p < 65536 /\ Forall good_header (p_headers p).
Proof.
  unfold parse_response. intros ([first hs] & H%parse_head_Ok & Hr)%result_bind_Ok.
  symmetry in H. apply parse_head_text_good in H as [_ Hh]. unfold response_of in Hr. cbn [fst snd] in Hr.
  destruct (split_whitespace first) as [|? [|s ?]]; [done..|].
  destruct (parse_unsigned 16 s) as [n|] eqn:E; [|done]. injection Hr as <-. split; [|done]. cbn [p_status].
  unfold parse_unsigned in E. cbv zeta in E. destruct (is_empty _); [done|].
  apply bind_Some in E as (v & Ev & Hv). case_decide; [|done]. injection Hv as <-.
  apply parse_digits_nonneg in Ev; [lia|done].
Qed.

(** ** Header lists and the names that delimit bodies *)
Definition framing_header (kv : string * string) : bool :=
  named "content-length" kv || named "transfer-encoding" kv.

Definition framing_part (hs : headers_t) : headers_t := filter (fun kv => framing_header kv = true) hs.

Definition neutral (k : string) : Prop := framing_header (k, EmptyString) = false.

Lemma framing_part_cons kv hs :
  framing_part (kv :: hs) = if framing_header kv then kv :: framing_part hs else framing_part hs.
Proof.
  unfold framing_part. destruct (framing_header kv) eqn:E.
  - by rewrite filter_cons_True.
  - rewrite filter_cons_False by congruence. done.
Qed.

Lemma framing_part_app a b : framing_part (a ++ b) = framing_part a ++ framing_part b.
Proof. apply filter_app. Qed.

Lemma headers_framing_part hs o : headers_framing hs o = headers_framing (framing_part hs) o.
Proof.
  assert (has_chunked hs = has_chunked (framing_part hs)) as Hc.
  { induction hs as [|kv hs IH]; [done|]. rewrite framing_part_cons. unfold has_chunked in *.
    cbn [existsb]. destruct (framing_header kv) eqn:E; cbn [existsb]; rewrite IH; [done|].
    unfold framing_header, named in E. apply orb_false_iff in E as [_ ->]. done. }
  assert (header_of hs "content-length" = header_of (framing_part hs) "content-length") as Hl.
  { clear Hc. induction hs as [|kv hs IH]; [done|]. rewrite framing_part_cons. unfold header_of in *.
    cbn [List.find]. destruct (framing_header kv) eqn:E; cbn [List.find].
    - destruct (eq_ignore_ascii_case _ _); [done|exact IH].
    - unfold framing_header, named in E. apply orb_false_iff in E as [-> _]. exact IH. }
  unfold headers_framing, content_length. by rewrite Hc, Hl.
Qed.

Lemma framing_header_key k v : framing_header (k, v) = framing_header (k, EmptyString).
Proof. done. Qed.

(** Names are compared through their lower case. *)
Lemma named_lower n kv : named n kv = true <-> to_ascii_lowercase kv.1 = to_ascii_lowercase n.
Proof. apply bool_decide_eq_true. Qed.

Lemma neutral_lower k k' : to_ascii_lowercase k = to_ascii_lowercase k' -> neutral k -> neutral k'.
Proof. unfold neutral, framing_header, named, eq_ignore_ascii_case. cbn [fst]. by intros ->. Qed.

(** A filter that drops only neutral names. *)
Lemma framing_part_filter (P : string * string -> bool) hs :
  (forall kv, kv ∈ hs -> P kv = false -> neutral kv.1) ->
  framing_part (filter (fun kv => P kv = true) hs) = framing_part hs.
Proof.
  induction hs as [|[k v] hs IH]; intros H; [done|]. rewrite (framing_part_cons (k, v)).
  rewrite <- IH by (intros kv Hkv; apply H; by right).
  destruct (P (k, v)) eqn:E.
  - rewrite filter_cons_True by done. by rewrite framing_part_cons.
  - rewrite filter_cons_False by congruence. rewrite framing_header_key, (H (k, v) (list_elem_of_here _ _) E). done.
Qed.

Lemma framing_part_without n hs : neutral n -> framing_part (without n hs) = framing_part hs.
Proof.
  intros Hn. unfold without.
  rewrite <- (framing_part_filter (fun kv => negb (named n kv)) hs).
  - f_equal. apply list_filter_iff. intros kv. by destruct (named n kv).
  - intros kv _ H. apply negb_false_iff, named_lower in H. by apply (neutral_lower n).
Qed.

Lemma framing_part_keep rw hs : framing_part (keep_headers rw hs) = framing_part hs.
Proof.
  assert (forall v, framing_header ("Host"%string, v) = false) as Hhost by done.
  induction hs as [|[k v] hs IH]; [done|]. cbn [keep_headers]. rewrite (framing_part_cons (k, v)).
  case_bool_decide as H1; [|case_bool_decide as H2].
  - assert (neutral k) as Hk.
    { destruct H1 as [H1|H1]; [apply (neutral_lower "connection")|apply (neutral_lower "proxy-connection")]; done. }
    rewrite framing_header_key, Hk. exact IH.
  - assert (neutral k) as Hk by (by apply (neutral_lower "host")).
    rewrite framing_part_cons, Hhost, framing_header_key, Hk. exact IH.
  - rewrite framing_part_cons, IH. done.
Qed.

Lemma framing_part_set hs kv : neutral kv.1 -> framing_part (set_header hs kv) = framing_part hs.
Proof.
  destruct kv as [k v]. intros Hk. unfold set_header. rewrite framing_part_app, framing_part_without by done.
  rewrite framing_part_cons, framing_header_key, Hk. apply app_nil_r.
Qed.

Lemma framing_part_sets hs extra : Forall (fun kv => neutral kv.1) extra ->
  framing_part (foldl set_header hs extra) = framing_part hs.
Proof.
  revert hs; induction extra as [|kv extra IH]; intros hs H; [done|]. cbn [foldl].
  apply Forall_cons in H as [Hk He]. by rewrite IH, framing_part_set.
Qed.

Lemma without_good n hs : Forall good_header hs -> Forall good_header (without n hs).
Proof. rewrite !Forall_forall. intros H kv [_ Hkv]%list_elem_of_filter. by apply H. Qed.

Lemma host_good v : good_value v -> good_header ("Host"%string, v).
Proof. by intros [? ?]. Qed.

Lemma keep_headers_good rw hs : (forall v, rw = Some v -> good_value v) -> Forall good_header hs ->
  Forall good_header (keep_headers rw hs).
Proof.
  intros Hrw. induction 1 as [|[k v] hs Hkv _ IH]; [done|]. cbn [keep_headers].
  case_bool_decide; [done|]. case_bool_decide; (constructor; [|done]); [|done].
  apply host_good. destruct rw as [w|]; [by apply Hrw|]. by destruct Hkv as (_ & _ & _ & ? & ?).
Qed.

Lemma set_headers_good hs extra : Forall good_header hs -> Forall good_header extra ->
  Forall good_header (foldl set_header hs extra).
Proof.
  intros H He. revert hs H; induction He as [|kv extra Hkv _ IH]; intros hs H; [done|]. cbn [foldl].
  apply IH. unfold set_header. apply Forall_app. split; [by apply without_good|by constructor].
Qed.

Lemma without_none n hs : List.find (named n) (without n hs) = None.
Proof.
  apply eq_None_not_Some. intros [kv [Hin Hn]%List.find_some]. apply list_elem_of_In in Hin.
  apply list_elem_of_filter in Hin as [H _]. congruence.
Qed.

Lemma filter_without n hs : filter (fun kv => named n kv = true) (without n hs) = [].
Proof.
  induction hs as [|kv hs IH]; [done|]. unfold without in *. destruct (named n kv) eqn:E.
  - rewrite filter_cons_False by congruence. done.
  - rewrite filter_cons_True by done. rewrite filter_cons_False by congruence. done.
Qed.

Lemma header_of_app a b n : header_of (a ++ b) n =
  match header_of a n with Some v => Some v | None => header_of b n end.
Proof.
  unfold header_of. induction a as [|kv a IH]; [done|]. cbn [List.find app].
  by destruct (eq_ignore_ascii_case kv.1 n).
Qed.

Lemma header_of_without n hs : header_of (without n hs) n = None.
Proof. unfold header_of. pose proof (without_none n hs) as H. unfold named in H. by rewrite H. Qed.

Lemma header_of_without_ne n m hs : to_ascii_lowercase n <> to_ascii_lowercase m ->
  header_of (without n hs) m = header_of hs m.
Proof.
  intros Hne. induction hs as [|kv hs IH]; [done|]. unfold without, header_of in *. cbn [List.find].
  destruct (named n kv) eqn:E.
  - rewrite filter_cons_False by congruence. rewrite IH. apply named_lower in E.
    unfold eq_ignore_ascii_case. rewrite bool_decide_eq_false_2 by congruence. done.
  - rewrite filter_cons_True by done. cbn [List.find]. destruct (eq_ignore_ascii_case kv.1 m); [done|exact IH].
Qed.

Lemma header_of_set hs kv n : to_ascii_lowercase kv.1 <> to_ascii_lowercase n ->
  header_of (set_header hs kv) n = header_of hs n.
Proof.
  intros Hne. unfold set_header. rewrite header_of_app, header_of_without_ne by done.
  destruct (header_of hs n); [done|]. unfold header_of, eq_ignore_ascii_case. cbn [List.find].
  by rewrite bool_decide_eq_false_2 by done.
Qed.

Lemma header_of_sets hs extra n : Forall (fun kv => to_ascii_lowercase kv.1 <> to_ascii_lowercase n) extra ->
  header_of (foldl set_header hs extra) n = header_of hs n.
Proof.
  revert hs; induction extra as [|kv extra IH]; intros hs H; [done|]. cbn [foldl].
  apply Forall_cons in H as [Hk He]. by rewrite IH, header_of_set.
Qed.

Lemma existsb_header n hs : existsb (named n) hs = match header_of hs n with Some _ => true | None => false end.
Proof.
  unfold header_of, named. induction hs as [|kv hs IH]; [done|]. cbn [existsb List.find].
  by destruct (eq_ignore_ascii_case kv.1 n).
Qed.

(** The [Host] the visitor's headers come out with. *)
Lemma header_of_host rw dh hs :
  header_of (with_host rw dh (keep_headers rw hs)) "host" =
  Some (match rw with Some h => h | None => default dh (header_of hs "host") end).
Proof.
  assert (header_of (keep_headers rw hs) "host" = (fun v => default v rw) <$> header_of hs "host") as E.
  { induction hs as [|[k v] hs IH]; [done|]. cbn [keep_headers]. unfold header_of in *.
    cbn [List.find]. unfold eq_ignore_ascii_case at 2. cbn [fst]. case_bool_decide as H1.
    - rewrite bool_decide_eq_false_2; [exact IH|]. destruct H1 as [->| ->]; done.
    - change (to_ascii_lowercase "host") with "host"%string. case_bool_decide as H2; [done|].
      cbn [List.find fst]. unfold eq_ignore_ascii_case at 1. change (to_ascii_lowercase "host") with "host"%string.
      rewrite bool_decide_eq_false_2 by done. exact IH. }
  unfold with_host. rewrite existsb_header, E. destruct (header_of hs "host") as [v|] eqn:Eh; simpl.
  - rewrite E. by destruct rw.
  - rewrite header_of_app, E. by destruct rw.
Qed.

(** ** The request line *)
Lemma request_line_words m t : m <> EmptyString -> t <> EmptyString -> solid m = true -> solid t = true ->
  split_whitespace (request_line m t) = [m; t; "HTTP/1.1"]%string.
Proof.
  intros Hm Ht Sm St. destruct (split_two_words m t "HTTP/1.1" Hm Ht Sm St) as (ws & E & ->).
  unfold request_line. change (m +:+ " " +:+ t +:+ " HTTP/1.1")%string
    with (m +:+ String " "%char (t +:+ String " "%char "HTTP/1.1"))%string.
  rewrite E. change (String.length "HTTP/1.1") with 8%nat.
  replace (String.length m + String.length t + 8 + 1)%nat
    with (S (S (String.length m + String.length t + 7))) by lia.
  by rewrite words_fuel_last.
Qed.

Lemma request_line_no_crlf m t : solid m = true -> solid t = true -> no_crlf (request_line m t) = true.
Proof.
  intros Sm%solid_no_crlf St%solid_no_crlf. unfold request_line.
  change (m +:+ " " +:+ t +:+ " HTTP/1.1")%string
    with (m +:+ String " "%char (t +:+ String " "%char "HTTP/1.1"))%string.
  apply no_crlf_join; [done| |done]. apply no_crlf_cons. split.
  - apply not_true_is_false. destruct t as [|d t]; [by intros [_ ?]%starts_crlf|]. by intros [? _]%starts_crlf.
  - by apply no_crlf_join.
Qed.

(** Printing a request head and parsing it. *)
Lemma request_printed m t hs : m <> EmptyString -> t <> EmptyString -> solid m = true -> solid t = true ->
  Forall good_header hs ->
  request_of (parse_head_text (head_text (request_line m t) hs)) =
  Ok {| q_method := m; q_target := t; q_http10 := false; q_headers := hs |}.
Proof.
  intros Hm Ht Sm St Hh. rewrite parse_head_text_printed by (done || by apply request_line_no_crlf).
  unfold request_of. cbn [fst snd]. by rewrite request_line_words.
Qed.

Section Forward.
Context `{HashIterLaws}.

Lemma forward_headers_good r rw extra dh :
  Forall good_header (q_headers r) -> (forall v, rw = Some v -> good_value v) -> good_value dh ->
  map_Forall (fun k v => good_header (k, v)) extra ->
  Forall good_header (forward_headers r rw extra dh).
Proof.
  intros Hr Hrw Hdh He. unfold forward_headers. apply Forall_app. split; [|by repeat constructor].
  apply without_good, set_headers_good.
  - pose proof (keep_headers_good rw _ Hrw Hr) as Hk. unfold with_host. destruct (existsb _ _); [done|].
    apply Forall_app. split; [done|]. constructor; [|done]. apply host_good. destruct rw; [by apply Hrw|done].
  - apply Forall_forall. intros [k v] Hkv%hash_iter_elem. by apply (He k v).
Qed.

Lemma forward_headers_framing r rw extra dh : map_Forall (fun k _ => neutral k) extra ->
  framing_part (forward_headers r rw extra dh) = framing_part (q_headers r).
Proof.
  intros He. unfold forward_headers. rewrite framing_part_app, framing_part_without by done.
  rewrite framing_part_sets.
  - rewrite (app_nil_r (framing_part _)). rewrite <- (framing_part_keep rw (q_headers r)).
    unfold with_host. destruct (existsb _ _); [done|]. by rewrite framing_part_app, (app_nil_r (framing_part _)).
  - apply Forall_forall. intros [k v] Hkv%hash_iter_elem. by apply (He k v).
Qed.

(** Header names given by a configuration: in order, [k] wins over the headers it replaces. *)
Lemma header_of_sets_elem hs extra k v : (k, v) ∈ extra ->
  NoDup ((fun kv => to_ascii_lowercase kv.1) <$> extra) -> header_of (foldl set_header hs extra) k = Some v.
Proof.
  revert hs; induction extra as [|kv extra IH]; intros hs Hin Hnd; [by apply not_elem_of_nil in Hin|].
  cbn [foldl]. apply NoDup_cons in Hnd as [Hnew Hnd]. apply elem_of_cons in Hin as [<-|Hin]; [|by apply IH].
  rewrite header_of_sets.
  - unfold set_header. cbn [fst]. rewrite header_of_app, header_of_without. unfold header_of, eq_ignore_ascii_case.
    cbn [List.find fst]. by rewrite bool_decide_eq_true_2.
  - apply Forall_forall. intros kv Hkv E. apply Hnew. apply list_elem_of_fmap. by exists kv.
Qed.

(** C11: The head the bridging plugin sends to the local service, read by the
    rules the plugin itself reads by, is the visitor's request: the same method
    and target, a body that ends at the same byte, the [Host] that was
    configured, every configured header with its value, and a single
    [Connection: close], whatever the visitor sent and whatever configured
    headers that do not delimit bodies are set. *)
Theorem forwarded_head_agrees head r rw extra dh :
  parse_request head = Ok r ->
  (forall v, rw = Some v -> good_value v) -> good_value dh ->
  map_Forall (fun k v => good_header (k, v) /\ neutral k /\ to_ascii_lowercase k <> "connection"%string) extra ->
  exists r', request_of (parse_head_text (build_forward_request_head r rw extra dh)) = Ok r' /\
    q_method r' = q_method r /\ q_target r' = q_target r /\
    request_framing r' = request_framing r /\ keep_alive r' = false /\
    filter (fun kv => named "connection" kv = true) (q_headers r') = [("Connection", "close")%string] /\
    (map_Forall (fun k _ => to_ascii_lowercase k <> "host"%string) extra ->
       header r' "host" = Some (match rw with Some h => h | None => default dh (header r "host") end)) /\
    (NoDup ((fun kv => to_ascii_lowercase kv.1) <$> hash_iter extra) ->
       forall k v, extra !! k = Some v -> header r' k = Some v).
Proof.
  intros Hp Hrw Hdh He. destruct (parse_request_good _ _ Hp) as (Hm & Sm & Ht & St & Hh).
  eexists. split; [apply request_printed; [done..|]|].
  { apply forward_headers_good; [done..|]. intros k v Hk. by apply (He k v). }
  cbn [q_method q_target]. split; [done|]. split; [done|]. unfold request_framing, keep_alive, header; cbn [q_headers q_http10].
  split_and!.
  - rewrite headers_framing_part, forward_headers_framing; [by rewrite <- headers_framing_part|].
    intros k v Hk. by apply (He k v).
  - unfold forward_headers. by rewrite header_of_app, header_of_without.
  - unfold forward_headers. by rewrite filter_app, filter_without.
  - intros Hx. unfold forward_headers. rewrite header_of_app, header_of_without_ne by done.
    rewrite header_of_sets; [by rewrite header_of_host|].
    apply Forall_forall. intros [k v] Hkv%hash_iter_elem. by apply (Hx k v).
  - intros Hnd k v Hk. pose proof Hk as Hin. apply hash_iter_elem in Hin. unfold forward_headers.
    rewrite header_of_app, header_of_without_ne by (intros E; by apply (He k v Hk)).
    by rewrite (header_of_sets_elem _ _ k v).
Qed.
End Forward.

Definition demo_head : list byte := as_bytes
  ("POST /api?x=1 HTTP/1.1" +:+ crlf +:+ "Host: shop.example.com" +:+ crlf +:+ "Connection: keep-alive" +:+ crlf +:+
   "content-length:  5 " +:+ crlf +:+ crlf)%string.
Definition demo_request : Request :=
  {| q_method := "POST"; q_target := "/api?x=1"; q_http10 := false;
     q_headers := [("Host", "shop.example.com"); ("Connection", "keep-alive"); ("content-length", "5")] |}%string.

Lemma demo_head_parses : parse_request demo_head = Ok demo_request.
Proof. vm_compute. reflexivity. Qed.

Lemma forwarded_head_agrees_witness :
  exists r', request_of (parse_head_text (@build_forward_request_head map_order demo_request (Some "10.0.0.1"%string)
      {[ "x-from-where" := "frp" ]}%string "localhost")) = Ok r' /\
    request_framing r' = Length 5 /\ keep_alive r' = false /\
    header r' "host" = Some "10.0.0.1"%string /\ header r' "x-from-where" = Some "frp"%string.
Proof.
  destruct (@forwarded_head_agrees map_order map_order_laws demo_head demo_request (Some "10.0.0.1"%string)
    {[ "x-from-where" := "frp" ]}%string "localhost") as (r' & E & _ & _ & Hf & Hk & _ & Hh & Hx).
  - exact demo_head_parses.
  - intros v [= <-]. split; reflexivity.
  - split; reflexivity.
  - apply map_Forall_singleton. split; [repeat split; reflexivity|]. split; [reflexivity|]. discriminate.
  - exists r'. split; [exact E|]. split; [rewrite Hf; reflexivity|]. split; [exact Hk|]. split.
    + apply Hh. apply map_Forall_singleton. discriminate.
    + apply Hx; [|reflexivity]. cbv [hash_iter map_order]. rewrite map_to_list_singleton. apply NoDup_singleton.
Defined.

(** ** The response's head *)
Lemma dec_spec n : 0 <= n -> is_digits (dec n) /\ dec n <> EmptyString /\ parse_digits (dec n) 0 = Some n.
Proof.
  intros Hn. destruct n as [|p|p]; [repeat split; done| |lia].
  destruct (pretty_N_spec (N.pos p)) as (s & Hs & Hd & Hp & Hne & _).
  change (dec (Z.pos p)) with (pretty (N.pos p)). by rewrite Hs.
Qed.

Lemma digits_solid s : is_digits s -> solid s = true.
Proof.
  unfold is_digits. induction s as [|c s IH]; [done|]. rewrite str_all_cons, andb_true_iff. intros [Hc Hs].
  apply solid_cons. split; [|by apply IH].
  assert (visible c = true) as Hv.
  { unfold is_ascii_digit in Hc. apply bool_decide_eq_true in Hc. apply bool_decide_eq_true. lia. }
  apply trim_start_fixed. by apply trim_start_visible.
Qed.

Lemma status_text_no_crlf n : no_crlf (status_text n) = true.
Proof.
  unfold status_text. destruct (List.find _ _) as [[k s]|] eqn:E; [|done]. apply List.find_some in E as [H _]. cbn [fmap option_fmap option_map default snd].
  repeat destruct H as [[= _ <-]|H]; try reflexivity. destruct H.
Qed.

Lemma status_line_words n : 0 <= n -> exists ws,
  split_whitespace ("HTTP/1.1 " +:+ dec n +:+ " " +:+ status_text n)%string = ("HTTP/1.1" :: dec n :: ws)%string.
Proof.
  intros Hn. destruct (dec_spec n Hn) as (Hd & Hne & _).
  destruct (split_two_words "HTTP/1.1" (dec n) (status_text n)) as (ws & E & _); [done..|by apply digits_solid|].
  exists ws. exact E.
Qed.

Lemma response_printed n hs : 0 <= n < 65536 -> Forall good_header hs ->
  response_of (parse_head_text (head_text ("HTTP/1.1 " +:+ dec n +:+ " " +:+ status_text n)%string hs)) =
  Ok {| p_status := n; p_headers := hs |}.
Proof.
  intros Hn Hh. destruct (dec_spec n) as (Hd & Hne & Hp); [lia|]. rewrite parse_head_text_printed; [|clear Hp|done].
  - unfold response_of. cbn [fst snd]. destruct (status_line_words n) as [ws ->]; [lia|].
    rewrite (parse_unsigned_digits 16 _ n) by (done || (simpl; lia)). done.
  - change ("HTTP/1.1 " +:+ dec n +:+ " " +:+ status_text n)%string
      with ("HTTP/1.1" +:+ String " "%char (dec n +:+ String " "%char (status_text n)))%string.
    pose proof (status_text_no_crlf n) as Hs. assert (no_crlf (String " "%char (status_text n)) = true) as Hs'.
    { apply no_crlf_cons. split; [|done]. apply not_true_is_false. destruct (status_text n); [done|]. by intros [? _]%starts_crlf. }
    apply no_crlf_join; [done| |done]. apply no_crlf_cons. split.
    + apply not_true_is_false. destruct (dec n) as [|c s]; [done|]. by intros [? _]%starts_crlf.
    + apply no_crlf_join; [|done..]. by apply solid_no_crlf, digits_solid.
Qed.

Lemma hop_header_neutral kv : hop_header kv = true -> neutral kv.1.
Proof.
  unfold hop_header. intros H%bool_decide_eq_true.
  destruct H as [H|[H|H]]; [apply (neutral_lower "connection")|apply (neutral_lower "proxy-connection")|
    apply (neutral_lower "keep-alive")]; done.
Qed.

(** The head written back to the visitor, read by the same rules, has the
    upstream's status and a body that ends where the upstream's does, and a
    single [Connection] header, which says what the plugin will do with the
    visitor's connection. *)
Theorem returned_head_agrees head p alive : parse_response head = Ok p ->
  exists p', response_of (parse_head_text (build_forward_response_head p alive)) = Ok p' /\
    p_status p' = p_status p /\
    (forall m, response_framing p' m = response_framing p m) /\
    filter (fun kv => named "connection" kv = true) (p_headers p') =
      [("Connection", if alive then "keep-alive" else "close")%string].
Proof.
  intros [Hn Hh]%parse_response_good. eexists. split.
  { apply response_printed; [done|]. apply Forall_app. split.
    - rewrite !Forall_forall in *. intros kv [_ Hkv]%list_elem_of_filter. by apply Hh.
    - constructor; [|done]. destruct alive; by repeat split. }
  cbn [p_status p_headers]. split; [done|]. split.
  - intros m. unfold response_framing. cbn [p_status p_headers]. destruct (bodyless _ m); [done|].
    rewrite headers_framing_part, framing_part_app. rewrite (app_nil_r (framing_part _)).
    rewrite (headers_framing_part (p_headers p)). f_equal.
    rewrite <- (framing_part_filter (fun kv => negb (hop_header kv)) (p_headers p)).
    + f_equal. apply list_filter_iff. intros kv. by destruct (hop_header kv).
    + intros kv _ E%negb_false_iff. by apply hop_header_neutral.
  - rewrite filter_app. replace (filter _ (filter _ (p_headers p))) with (@nil (string * string)).
    + by destruct alive.
    + symmetry. induction (p_headers p) as [|kv hs IH]; [done|]. apply Forall_cons in Hh as [_ Hh].
      destruct (hop_header kv) eqn:E; [rewrite filter_cons_False by congruence; by apply IH|].
      rewrite filter_cons_True by done. rewrite filter_cons_False; [by apply IH|].
      intros H%named_lower. unfold hop_header in E. apply bool_decide_eq_false in E. apply E. by left.
Qed.

Definition demo_answer : list byte := as_bytes
  ("HTTP/1.1 404 Nope" +:+ crlf +:+ "Content-Length: 3" +:+ crlf +:+ "Connection: close" +:+ crlf +:+ crlf)%string.
Definition demo_response : Response :=
  {| p_status := 404; p_headers := [("Content-Length", "3"); ("Connection", "close")] |}%string.

Lemma demo_answer_parses : parse_response demo_answer = Ok demo_response.
Proof. vm_compute. reflexivity. Qed.

Lemma returned_head_agrees_witness :
  exists p', response_of (parse_head_text (build_forward_response_head demo_response true)) = Ok p' /\
    p_status p' = 404 /\ response_framing p' "GET" = Length 3 /\
    filter (fun kv => named "connection" kv = true) (p_headers p') = [("Connection", "keep-alive")%string].
Proof.
  destruct (returned_head_agrees demo_answer demo_response true demo_answer_parses) as (p' & E & Hs & Hf & Hc).
  exists p'. split; [exact E|]. split; [exact Hs|]. split; [rewrite Hf; reflexivity|exact Hc].
Defined.

(** A request may carry both ways to delimit its body; the plugin reads it as
    chunked and sends both headers on. *)
Definition both_lengths : Request :=
  {| q_method := "POST"; q_target := "/"; q_http10 := false;
     q_headers := [("Host", "a"); ("Content-Length", "4"); ("Transfer-Encoding", "chunked")] |}%string.

Lemma both_lengths_forwarded : request_framing both_lengths = Chunked /\
  framing_part (@forward_headers map_order both_lengths None ∅ "localhost") =
    [("Content-Length", "4"); ("Transfer-Encoding", "chunked")]%string.
Proof. split; vm_compute; reflexivity. Qed.

(** An address without a port has no host part. *)
Lemma host_part_without_port : host_part "example.com" = "localhost"%string /\
  host_part "example.com:443" = "example.com"%string /\ host_part "[::1]:8443" = "::1"%string.
Proof. split_and!; vm_compute; reflexivity. Qed.
