(* ===== verification/HttpBridge.v ===== *)
(** * The HTTP bridging plugin (src/rust_frp_plugin/src/http_bridge.rs)

    [http2http] and [http2https] read a visitor's requests one after the other,
    send each on a connection of its own to the local service and bring the
    response back.  A connection is what its reads will deliver, in the pieces
    the network delivers them in, with the bytes read ahead of need
    ([pending]); the second part proves that where the pieces fall does not
    matter, that every request reaches its own local connection whole, and that
    the loop ends with the visitor's input. *)
From S2P Require Import Prelude RustStd RustFmt Utf8 ConfigTypes Transport Routers HttpClient HttpText HttpHead.

(** ** Connections *)

(** [segs]: what the successive reads deliver; [fin]: how reading ends; [room]:
    how many more bytes the peer takes before writing fails. *)
Record side := Side {
  pending : list byte;
  segs : list (list byte);
  fin : option io_error;
  sent : list byte;
  room : Z;
  shut : bool;
}.

Definition set_pending (p : list byte) (s : side) : side := Side p (segs s) (fin s) (sent s) (room s) (shut s).
Definition set_segs (l : list (list byte)) (s : side) : side := Side (pending s) l (fin s) (sent s) (room s) (shut s).
Definition shutdown (s : side) : side := Side (pending s) (segs s) (fin s) (sent s) (room s) true.

(** [conn.read(&mut buf[..cap])]; no bytes is the end of the stream. *)
Definition read (cap : nat) (s : side) : result io_error (list byte) * side :=
  match segs s with
  | [] => (match fin s with Some e => Err e | None => Ok [] end, s)
  | c :: rest =>
      (Ok (take cap c), set_segs (if decide (drop cap c = []) then rest else drop cap c :: rest) s)
  end.

Definition write_all (bs : list byte) (s : side) : result io_error unit * side :=
  if decide (zlen bs <= room s)
  then (Ok tt, Side (pending s) (segs s) (fin s) (sent s ++ bs) (room s - zlen bs) (shut s))
  else (Err broken_pipe,
        Side (pending s) (segs s) (fin s) (sent s ++ take (Z.to_nat (room s)) bs) 0 (shut s)).

(** Code that reads one connection and writes another; [None] only when a
    loop's fuel is spent. *)
Definition xfer (A : Type) : Type := side * side -> option (result io_error A * (side * side)).

#[global] Instance xfer_ret : MRet xfer := fun A a st => Some (Ok a, st).
#[global] Instance xfer_bind : MBind xfer := fun A B f m st =>
  match m st with
  | Some (Ok a, st) => f a st
  | Some (Err e, st) => Some (Err e, st)
  | None => None
  end.

Definition lift {A} (r : result io_error A) : xfer A := fun st => Some (r, st).
Definition on_from {A} (m : side -> option (result io_error A * side)) : xfer A :=
  fun '(from, to) => '(r, from) ← m from; Some (r, (from, to)).
Definition on_to {A} (m : side -> result io_error A * side) : xfer A :=
  fun '(from, to) => let '(r, to) := m to in Some (r, (from, to)).

(** The same code with the two connections exchanged. *)
Definition swapped {A} (m : xfer A) : xfer A := fun '(a, b) =>
  '(r, (b, a)) ← m (b, a); Some (r, (a, b)).

(** A loop out of fuel, and a loop with fuel for what its source holds. *)
Definition stuck {A} : xfer A := fun _ => None.

Definition send (bs : list byte) : xfer unit := on_to (write_all bs).

(** ** Reading heads and lines *)

(** The bytes a connection still holds. *)
Definition avail (s : side) : list byte := pending s ++ concat (segs s).

(** Every read takes at least a byte. *)
Definition fuel_of (s : side) : nat := S (length (avail s)).

Definition fuelled {A} (loop : nat -> xfer A) : xfer A := fun st => loop (fuel_of st.1) st.

Definition IO_CHUNK_nat : nat := Z.to_nat IO_CHUNK.

Definition BLANK_LINE : list byte := CRLF ++ CRLF.

Definition find_head_end (buf : list byte) : option nat := position_of BLANK_LINE buf.

(** [pending.drain(..n)]. *)
Definition drain (n : nat) (s : side) : list byte * side :=
  (take n (pending s), set_pending (drop n (pending s)) s).

Fixpoint read_head_loop (fuel : nat) (s : side) : option (result io_error (option (list byte)) * side) :=
  match fuel with
  | O => None
  | S fuel =>
      match find_head_end (pending s) with
      | Some pos => let '(head, s) := drain (pos + 4) s in Some (Ok (Some head), s)
      | None =>
          if decide (MAX_HEAD_BYTES < zlen (pending s))
          then Some (Err (IoError InvalidData "HTTP header too large"), s) else
          match read IO_CHUNK_nat s with
          | (Err e, s) => Some (Err e, s)
          | (Ok [], s) =>
              if decide (pending s = []) then Some (Ok None, s)
              else Some (Err (IoError UnexpectedEof "connection closed in the middle of HTTP header"), s)
          | (Ok bs, s) => read_head_loop fuel (set_pending (pending s ++ bs) s)
          end
      end
  end.

Definition read_head : side -> option (result io_error (option (list byte)) * side) :=
  fun s => read_head_loop (fuel_of s) s.

Definition LINE_FEED : byte := Byte.x0a.

Fixpoint read_line_loop (fuel : nat) (s : side) : option (result io_error (list byte) * side) :=
  match fuel with
  | O => None
  | S fuel =>
      match position_of [LINE_FEED] (pending s) with
      | Some pos => let '(line, s) := drain (pos + 1) s in Some (Ok line, s)
      | None =>
          if decide (MAX_HEAD_BYTES < zlen (pending s))
          then Some (Err (IoError InvalidData "protocol line too long"), s) else
          match read IO_CHUNK_nat s with
          | (Err e, s) => Some (Err e, s)
          | (Ok [], s) => Some (Err (IoError UnexpectedEof "connection closed while reading line"), s)
          | (Ok bs, s) => read_line_loop fuel (set_pending (pending s ++ bs) s)
          end
      end
  end.

Definition read_line : xfer (list byte) := on_from (fun s => read_line_loop (fuel_of s) s).

(** ** Bodies *)
Fixpoint copy_exactly_loop (fuel : nat) (n : Z) (st : side * side)
  : option (result io_error unit * (side * side)) :=
  if decide (n <= 0) then Some (Ok tt, st) else
  match fuel with
  | O => None
  | S fuel =>
      let '(from, to) := st in
      if decide (pending from <> []) then
        let k := Z.to_nat (Z.min n (zlen (pending from))) in
        let '(chunk, from) := drain k from in
        match write_all chunk to with
        | (Err e, to) => Some (Err e, (from, to))
        | (Ok _, to) => copy_exactly_loop fuel (n - Z.of_nat k) (from, to)
        end
      else
        match read (Z.to_nat (Z.min n IO_CHUNK)) from with
        | (Err e, from) => Some (Err e, (from, to))
        | (Ok [], from) =>
            Some (Err (IoError UnexpectedEof "connection closed while reading fixed-length body"), (from, to))
        | (Ok bs, from) =>
            match write_all bs to with
            | (Err e, to) => Some (Err e, (from, to))
            | (Ok _, to) => copy_exactly_loop fuel (n - zlen bs) (from, to)
            end
        end
  end.

Definition copy_exactly (n : Z) : xfer unit := fuelled (fun fuel => copy_exactly_loop fuel n).

(** The size a chunk's line announces: the field before the first semicolon. *)
Definition chunk_field (line : list byte) : option Z :=
  parse_hex_usize (trim (default EmptyString (head (split_char ";"%char (trim (from_utf8_lossy line)))))).

(** Trailer lines up to the empty one. *)
Fixpoint forward_trailers (fuel : nat) : xfer unit :=
  match fuel with
  | O => stuck
  | S fuel =>
      line ← read_line;
      _ ← send line;
      if bool_decide (line = CRLF \/ line = [LINE_FEED]) then mret tt else forward_trailers fuel
  end.

Fixpoint forward_chunked_loop (fuel : nat) : xfer unit :=
  match fuel with
  | O => stuck
  | S fuel =>
      size_line ← read_line;
      _ ← send size_line;
      match chunk_field size_line with
      | None => lift (Err (IoError InvalidData "invalid chunk size"))
      | Some size =>
          if decide (size = 0) then fuelled forward_trailers else
          _ ← copy_exactly size;
          ending ← read_line;
          _ ← send ending;
          forward_chunked_loop fuel
      end
  end.

Definition forward_chunked : xfer unit := fuelled forward_chunked_loop.

Fixpoint copy_until_eof_loop (fuel : nat) (st : side * side) : option (result io_error unit * (side * side)) :=
  match fuel with
  | O => None
  | S fuel =>
      let '(from, to) := st in
      match read IO_CHUNK_nat from with
      | (Err e, from) => Some (Err e, (from, to))
      | (Ok [], from) => Some (Ok tt, (from, to))
      | (Ok bs, from) =>
          match write_all bs to with
          | (Err e, to) => Some (Err e, (from, to))
          | (Ok _, to) => copy_until_eof_loop fuel (from, to)
          end
      end
  end.

Definition copy_until_eof : xfer unit :=
  _ ← (fun '(from, to) =>
         if decide (pending from <> [])
         then send (pending from) (set_pending [] from, to)
         else Some (Ok tt, (from, to)));
  fuelled copy_until_eof_loop.

(** ** One request and its response *)
Inductive pass_end := Continue | Done.

Definition copy_request_body (framing : BodyFraming) : xfer unit :=
  match framing with
  | NoBody => mret tt
  | Length n => copy_exactly n
  | Chunked => forward_chunked
  | UntilEof => lift (Err (invalid_input "unexpected close-delimited request body"))
  end.

Definition copy_response_body (framing : BodyFraming) : xfer unit :=
  match framing with
  | NoBody => mret tt
  | Length n => copy_exactly n
  | Chunked => forward_chunked
  | UntilEof => copy_until_eof
  end.

Definition shutdown_to : xfer unit := on_to (fun s => (Ok tt, shutdown s)).
Definition shutdown_from : xfer unit := on_from (fun s => Some (Ok tt, shutdown s)).

(** From the local service to the visitor. *)
Definition answer (request : Request) : xfer pass_end :=
  head ← on_from read_head;
  match head with
  | None => _ ← shutdown_to; mret Done
  | Some bytes =>
      response ← lift (parse_response bytes);
      let framing := response_framing response (q_method request) in
      let must_close := bool_decide (framing = UntilEof) || negb (keep_alive request) in
      _ ← send (as_bytes (build_forward_response_head response (negb must_close)));
      _ ← copy_response_body framing;
      _ ← shutdown_from;
      if must_close then _ ← shutdown_to; mret Done else mret Continue
  end.

(** From the visitor to the local service and back, after the visitor's head. *)
Definition exchange (out_head : string) (request : Request) : xfer pass_end :=
  _ ← send (as_bytes out_head);
  _ ← copy_request_body (request_framing request);
  swapped (answer request).

(** ** The plugin *)
Record HttpBridgePlugin := {
  hb_local_addr : string;
  hb_host_header_rewrite : option string;
  hb_request_headers : gmap string string;
  hb_tls : bool;
}.

(** [new]; whether the insecure TLS client configuration can be built is given. *)
Definition http_bridge_new (tls_client : result io_error unit) (c : PluginConfig)
  : result io_error HttpBridgePlugin :=
  local_addr ← ok_or (invalid_input "local_addr is required for http2http/http2https plugin") (pl_local_addr c);
  let use_tls := bool_decide (pl_type c = "http2https"%string) in
  let request_headers := match pl_request_headers c with Some h => ho_set h | None => ∅ end in
  _ ← (if use_tls then tls_client else Ok tt);
  Ok {| hb_local_addr := local_addr; hb_host_header_rewrite := pl_host_header_rewrite c;
        hb_request_headers := request_headers; hb_tls := use_tls |}.

Section Handle.
Context `{HashIter}.
(** [TcpStream::connect] and [connect_stream], for the [k]-th request: the
    address, and the TLS name when TLS is used. *)
Context (connect : nat -> string -> option string -> result io_error side).

Definition connect_local (p : HttpBridgePlugin) (k : nat) : result io_error side :=
  connect k (hb_local_addr p) (if hb_tls p then Some (host_part (hb_local_addr p)) else None).

(** One turn of the loop: its outcome, the visitor's connection, the local one. *)
Definition pass (p : HttpBridgePlugin) (k : nat) (conn : side)
  : option (result io_error pass_end * side * option side) :=
  '(r, conn) ← read_head conn;
  match r with
  | Err e => Some (Err e, conn, None)
  | Ok None => Some (Ok Done, conn, None)
  | Ok (Some head) =>
      match parse_request head with
      | Err e => Some (Err e, conn, None)
      | Ok request =>
          match connect_local p k with
          | Err e => Some (Err e, conn, None)
          | Ok local =>
              let out_head := build_forward_request_head request (hb_host_header_rewrite p)
                                (hb_request_headers p) (host_part (hb_local_addr p)) in
              '(r, (conn, local)) ← exchange out_head request (conn, local);
              Some (r, conn, Some local)
          end
      end
  end.

(** [handle]: the local connections in order, each as it was left. *)
Fixpoint handle_loop (fuel : nat) (p : HttpBridgePlugin) (locals : list side) (conn : side)
  : option (result io_error unit * side * list side) :=
  match fuel with
  | O => None
  | S fuel =>
      '(r, conn, local) ← pass p (length locals) conn;
      let locals := locals ++ match local with Some l => [l] | None => [] end in
      match r with
      | Err e => Some (Err e, conn, locals)
      | Ok Done => Some (Ok tt, conn, locals)
      | Ok Continue => handle_loop fuel p locals conn
      end
  end.

Definition handle (p : HttpBridgePlugin) (conn : side) : option (result io_error unit * side * list side) :=
  handle_loop (fuel_of conn) p [] conn.
End Handle.

(** ** What reading leaves *)

(** No read delivers nothing before the end. *)
Definition live (s : side) : Prop := Forall (fun c => c <> []) (segs s).

(** [s'] is [s] with [l] left to read. *)
Record left_with (s : side) (l : list byte) (s' : side) : Prop := {
  lw_avail : avail s' = l;
  lw_live : live s';
  lw_fin : fin s' = fin s;
  lw_sent : sent s' = sent s;
  lw_room : room s' = room s;
  lw_shut : shut s' = shut s;
}.

Lemma left_with_refl s : live s -> left_with s (avail s) s.
Proof. by split. Qed.

Lemma left_with_trans s l s' l' s'' : left_with s l s' -> left_with s' l' s'' -> left_with s l' s''.
Proof. intros [] []. split; congruence. Qed.

(** The connection after [bs] were written to it. *)
Definition wrote (s : side) (bs : list byte) : side :=
  Side (pending s) (segs s) (fin s) (sent s ++ bs) (room s - zlen bs) (shut s).

Lemma wrote_nil s : wrote s [] = s.
Proof. destruct s. unfold wrote. cbn. by rewrite app_nil_r, Z.sub_0_r. Qed.

Lemma wrote_app s a b : wrote (wrote s a) b = wrote s (a ++ b).
Proof. unfold wrote. cbn. f_equal; [by rewrite app_assoc|]. unfold zlen. rewrite length_app. lia. Qed.

Lemma write_all_room bs s : zlen bs <= room s -> write_all bs s = (Ok tt, wrote s bs).
Proof. intros H. unfold write_all. by rewrite decide_True. Qed.

Lemma xfer_bind_eq {A B} (m : xfer A) (f : A -> xfer B) st a st' :
  m st = Some (Ok a, st') -> (m ≫= f) st = f a st'.
Proof. unfold mbind, xfer_bind. by intros ->. Qed.

Lemma send_eq bs from to : zlen bs <= room to -> send bs (from, to) = Some (Ok tt, (from, wrote to bs)).
Proof. intros H. unfold send, on_to. by rewrite write_all_room. Qed.

Lemma concat_drop_seg (c : list byte) cap rest :
  concat (if decide (drop cap c = []) then rest else drop cap c :: rest) = drop cap c ++ concat rest.
Proof. by destruct (decide (drop cap c = [])) as [->|]. Qed.

Lemma read_ready cap s : live s -> (0 < cap)%nat -> concat (segs s) <> [] ->
  exists bs s', read cap s = (Ok bs, s') /\ bs <> [] /\ (length bs <= cap)%nat /\
    concat (segs s) = bs ++ concat (segs s') /\ pending s' = pending s /\
    left_with s (pending s ++ concat (segs s')) s'.
Proof.
  unfold read, live. destruct s as [p [|c rest] f o r sh]; cbn [segs fin set_segs pending]; intros Hl Hc Hne; [done|].
  apply Forall_cons in Hl as [Hcn Hl]. eexists _, _. split; [done|]. cbn [segs pending concat set_segs].
  rewrite concat_drop_seg. split_and!; [|rewrite length_take; lia| |done|].
  - destruct c; [done|]. by destruct cap; [lia|].
  - by rewrite app_assoc, take_drop.
  - split; try done.
    + unfold avail. cbn [segs set_segs pending]. by rewrite concat_drop_seg.
    + unfold live. cbn [segs set_segs]. case_decide; [done|by constructor].
Qed.

(** One more read into [pending]. *)
Lemma pull s : live s -> concat (segs s) <> [] ->
  exists bs s1, read IO_CHUNK_nat s = (Ok bs, s1) /\ bs <> [] /\
    left_with s (avail s) (set_pending (pending s1 ++ bs) s1) /\
    (length (concat (segs s1)) < length (concat (segs s)))%nat.
Proof.
  intros Hl Hne. destruct (read_ready IO_CHUNK_nat s Hl) as (bs & s1 & E & Hb & _ & Hc & Hp & []);
    [vm_compute; lia|done|].
  exists bs, s1. split; [done|]. split; [done|]. split.
  - split; try done. unfold avail. cbn. by rewrite Hp, Hc, app_assoc.
  - rewrite Hc, length_app. destruct bs; [done|]. simpl. lia.
Qed.

(** ** Where a pattern is found does not depend on the pieces *)
Lemma position_of_app_l pat p q i : position_of pat p = Some i -> position_of pat (p ++ q) = Some i.
Proof.
  revert i; induction p as [|b p IH]; intros i; cbn [position_of app].
  - destruct (decide _) as [E|]; [|done]. intros [= <-]. rewrite take_nil in E. subst pat. by destruct q.
  - change (b :: p ++ q) with ((b :: p) ++ q). destruct (decide (take (length pat) (b :: p) = pat)) as [E|E].
    + intros [= <-]. rewrite decide_True; [done|]. rewrite take_app. rewrite E.
      assert (length pat <= length (b :: p))%nat as Hl by (rewrite <- E at 1; rewrite length_take; lia).
      replace (length pat - length (b :: p))%nat with 0%nat by lia. by rewrite app_nil_r.
    + intros (j & Hj & ->)%fmap_Some. destruct (decide (take (length pat) ((b :: p) ++ q) = pat)) as [E'|_].
      * exfalso. apply position_of_Some in Hj as (pre & post & -> & _).
        apply E. rewrite take_app_le in E' by (simpl; rewrite !length_app; lia). exact E'.
      * by rewrite (IH j Hj).
Qed.

Lemma position_of_app_inv pat p q i : position_of pat (p ++ q) = Some i ->
  (i + length pat <= length p)%nat -> position_of pat p = Some i.
Proof.
  revert i; induction p as [|b p IH]; intros i H Hl.
  - destruct pat as [|? ?]; simpl in Hl; [|lia]. by replace i with 0%nat by lia.
  - cbn [position_of app] in *. change (b :: p ++ q) with ((b :: p) ++ q) in H.
    destruct (decide (take (length pat) ((b :: p) ++ q) = pat)) as [E|E].
    + injection H as <-. rewrite take_app_le in E by (simpl in *; lia). by rewrite decide_True.
    + apply fmap_Some in H as (j & Hj & ->). simpl in Hl. rewrite (IH j Hj) by lia.
      rewrite decide_False; [done|]. intros E'. apply E. rewrite take_app_le by (simpl; lia). exact E'.
Qed.

Lemma found_in_pending pat s pos : position_of pat (avail s) = Some pos ->
  match position_of pat (pending s) with
  | Some i => i = pos /\ (pos + length pat <= length (pending s))%nat
  | None => (length (pending s) < pos + length pat)%nat /\ concat (segs s) <> []
  end.
Proof.
  intros H. destruct (position_of pat (pending s)) as [i|] eqn:E.
  - pose proof (position_of_app_l _ _ (concat (segs s)) _ E) as E'. unfold avail in H. rewrite H in E'.
    injection E' as <-. split; [done|]. apply position_of_Some in E as (pre & post & Ep & <-).
    rewrite Ep, !length_app. lia.
  - split.
    + destruct (decide (pos + length pat <= length (pending s))%nat) as [Hle|]; [|lia].
      by rewrite (position_of_app_inv _ _ _ _ H Hle) in E.
    + intros Hc. unfold avail in H. rewrite Hc, app_nil_r in H. congruence.
Qed.

Lemma drain_left n s : live s -> (n <= length (pending s))%nat ->
  drain n s = (take n (avail s), set_pending (drop n (pending s)) s) /\
  left_with s (drop n (avail s)) (set_pending (drop n (pending s)) s).
Proof.
  intros Hl Hn. unfold drain, avail. rewrite take_app_le, drop_app_le by done. split; [done|]. by split.
Qed.

(** A head that ends within the limit is read whole, and nothing after it. *)
Lemma read_head_ok s pos : live s -> find_head_end (avail s) = Some pos -> Z.of_nat pos + 3 <= MAX_HEAD_BYTES ->
  exists s', read_head s = Some (Ok (Some (take (pos + 4) (avail s))), s') /\
    left_with s (drop (pos + 4) (avail s)) s'.
Proof.
  intros Hl Hf Hm. unfold read_head.
  assert (length (concat (segs s)) < fuel_of s)%nat as Hfuel by (unfold fuel_of, avail; rewrite length_app; lia).
  revert Hfuel. generalize (fuel_of s) as fuel. intros fuel.
  revert s Hl Hf; induction fuel as [|fuel IH]; intros s Hl Hf Hfuel; [lia|]. cbn [read_head_loop].
  pose proof (found_in_pending _ _ _ Hf) as Hp. unfold find_head_end in *. change (length BLANK_LINE) with 4%nat in Hp.
  destruct (position_of BLANK_LINE (pending s)) as [i|].
  - destruct Hp as [-> Hp]. destruct (drain_left (pos + 4) s Hl Hp) as [-> Hleft]. eauto.
  - destruct Hp as [Hp Hne]. rewrite decide_False by (unfold zlen; lia).
    destruct (pull s Hl Hne) as (bs & s1 & -> & Hb & Hw & Hlt). destruct bs as [|b bs]; [done|].
    destruct (IH (set_pending (pending s1 ++ b :: bs) s1)) as (s' & E & Hs').
    + apply Hw.
    + by rewrite (lw_avail _ _ _ Hw).
    + cbn. lia.
    + rewrite (lw_avail _ _ _ Hw) in E, Hs'. exists s'. split; [exact E|by eapply left_with_trans].
Qed.

(** The same for a line. *)
Lemma read_line_ok from to pos : live from -> position_of [LINE_FEED] (avail from) = Some pos ->
  Z.of_nat pos <= MAX_HEAD_BYTES ->
  exists from', read_line (from, to) = Some (Ok (take (pos + 1) (avail from)), (from', to)) /\
    left_with from (drop (pos + 1) (avail from)) from'.
Proof.
  intros Hl Hf Hm. unfold read_line, on_from.
  assert (exists s', read_line_loop (fuel_of from) from = Some (Ok (take (pos + 1) (avail from)), s') /\
    left_with from (drop (pos + 1) (avail from)) s') as (s' & -> & Hs'); [|by exists s'].
  assert (length (concat (segs from)) < fuel_of from)%nat as Hfuel by (unfold fuel_of, avail; rewrite length_app; lia).
  revert Hfuel. generalize (fuel_of from) as fuel. intros fuel.
  revert from Hl Hf; induction fuel as [|fuel IH]; intros s Hl Hf Hfuel; [lia|]. cbn [read_line_loop].
  pose proof (found_in_pending _ _ _ Hf) as Hp. change (length [LINE_FEED]) with 1%nat in Hp.
  destruct (position_of [LINE_FEED] (pending s)) as [i|].
  - destruct Hp as [-> Hp]. destruct (drain_left (pos + 1) s Hl Hp) as [-> Hleft]. eauto.
  - destruct Hp as [Hp Hne]. rewrite decide_False by (unfold zlen; lia).
    destruct (pull s Hl Hne) as (bs & s1 & -> & Hb & Hw & Hlt). destruct bs as [|b bs]; [done|].
    destruct (IH (set_pending (pending s1 ++ b :: bs) s1)) as (s' & E & Hs').
    + apply Hw.
    + by rewrite (lw_avail _ _ _ Hw).
    + cbn. lia.
    + rewrite (lw_avail _ _ _ Hw) in E, Hs'. exists s'. split; [exact E|by eapply left_with_trans].
Qed.

(** ** Copying a body of known length *)
Lemma take_min_zlen {A} n (l : list A) : take (Z.to_nat (Z.min n (zlen l))) l = take (Z.to_nat n) l.
Proof.
  unfold zlen. destruct (decide (Z.of_nat (length l) <= n)).
  - rewrite Z.min_r, Nat2Z.id by lia. rewrite (take_ge l (length l)), take_ge by lia. done.
  - by rewrite Z.min_l by lia.
Qed.

(** What the copying loop does with [fuel] when the body is there. *)
Definition copies (fuel : nat) : Prop := forall body rest from to,
  live from -> avail from = body ++ rest -> zlen body <= room to -> (length body < fuel)%nat ->
  exists from', copy_exactly_loop fuel (zlen body) (from, to) = Some (Ok tt, (from', wrote to body)) /\
    left_with from rest from'.

(** A piece written, the rest to copy. *)
Lemma copies_write fuel bs body rest from from1 to : copies fuel -> bs <> [] ->
  left_with from (body ++ rest) from1 -> zlen (bs ++ body) <= room to -> (length (bs ++ body) < S fuel)%nat ->
  exists from', match write_all bs to with
    | (Err e, to) => Some (Err e, (from1, to))
    | (Ok _, to) => copy_exactly_loop fuel (zlen (bs ++ body) - zlen bs) (from1, to)
    end = Some (Ok tt, (from', wrote to (bs ++ body))) /\ left_with from rest from'.
Proof.
  intros IH Hbs Hw Hr Hf. rewrite zlen_app in Hr |- *. rewrite length_app in Hf.
  assert (0 < zlen bs) by (destruct bs; [done|unfold zlen; simpl; lia]).
  rewrite write_all_room by (unfold zlen in *; lia).
  destruct (IH body rest from1 (wrote to bs)) as (from' & E & Hw'); [apply Hw..|cbn; lia|unfold zlen in *; lia|].
  exists from'. replace (zlen bs + zlen body - zlen bs) with (zlen body) by lia.
  rewrite E, wrote_app. split; [done|by eapply left_with_trans].
Qed.

Lemma copies_all fuel : copies fuel.
Proof.
  induction fuel as [|fuel IH]; intros body rest from to Hl Ha Hr Hf; [lia|].
  cbn [copy_exactly_loop]. destruct (decide (zlen body <= 0)) as [H0|H0].
  { destruct body; [|unfold zlen in H0; simpl in H0; lia]. exists from. rewrite wrote_nil. split; [done|].
    cbn in Ha. rewrite <- Ha. by apply left_with_refl. }
  destruct (decide (pending from <> [])) as [Hp|Hp].
  - set (k := Z.to_nat (Z.min (zlen body) (zlen (pending from)))).
    assert (0 < k)%nat as Hk0 by (unfold k; destruct (pending from); [done|]; unfold zlen in *; simpl in *; lia).
    destruct (drain_left k from Hl) as [-> Hleft]; [unfold k, zlen; lia|]. rewrite Ha in Hleft |- *.
    assert (k <= length body)%nat as Hk by (unfold k, zlen; lia).
    rewrite take_app_le, drop_app_le in * by done.
    assert (Z.of_nat k = zlen (take k body)) as -> by (unfold zlen; rewrite length_take; lia).
    pose proof (copies_write fuel (take k body) (drop k body) rest from
      (set_pending (drop k (pending from)) from) to IH) as step.
    rewrite take_drop in step. apply step; try done.
    intros E%(f_equal length). rewrite length_take in E. simpl in E. lia.
  - assert (pending from = []) as Hp0 by (destruct (pending from); [done|by destruct Hp]).
    unfold avail in Ha. rewrite Hp0 in Ha. cbn in Ha.
    destruct (read_ready (Z.to_nat (Z.min (zlen body) IO_CHUNK)) from Hl) as (bs & s1 & -> & Hb & Hle & Hc & _ & Hw).
    { unfold IO_CHUNK. lia. }
    { rewrite Ha. destruct body; [|done]. unfold zlen in H0. simpl in H0. lia. }
    rewrite Hp0, Ha in *. cbn [app] in Hw. symmetry in Hc.
    assert (length bs <= length body)%nat as Hlen by (unfold zlen in *; lia).
    apply app_eq_app in Hc as (l & [[-> ->]|[-> Hc]]).
    + rewrite length_app in Hlen. destruct l; [|simpl in Hlen; lia]. rewrite app_nil_r in *.
      pose proof (copies_write fuel body [] (concat (segs s1)) from s1 to IH) as step. rewrite app_nil_r in step.
      destruct body as [|b body]; [done|]. by apply step.
    + destruct bs as [|b bs]; [done|]. rewrite Hc in Hw. by apply copies_write.
Qed.

Lemma copy_exactly_ok body rest from to : live from -> avail from = body ++ rest -> zlen body <= room to ->
  exists from', copy_exactly (zlen body) (from, to) = Some (Ok tt, (from', wrote to body)) /\ left_with from rest from'.
Proof.
  intros Hl Ha Hr. apply (copies_all (fuel_of from)); [done..|]. unfold fuel_of. rewrite Ha, length_app. lia.
Qed.

(** ** Chunked bodies *)

(** A line: nothing before its line feed is one, and it is not too long. *)
Definition is_line (l : list byte) : Prop := exists p, l = p ++ [LINE_FEED] /\ LINE_FEED ∉ p /\ zlen p <= MAX_HEAD_BYTES.

Definition ends_trailers (l : list byte) : bool := bool_decide (l = CRLF \/ l = [LINE_FEED]).

(** The bodies the chunked coding delimits: chunks with any extension and any
    line ends, a last chunk, trailers, an empty line. *)
Inductive trailer_part : list byte -> Prop :=
| trailers_end l : is_line l -> ends_trailers l = true -> trailer_part l
| trailers_more l body : is_line l -> ends_trailers l = false -> trailer_part body -> trailer_part (l ++ body).

Inductive chunked_body : list byte -> Prop :=
| chunks_end line body : is_line line -> chunk_field line = Some 0 -> trailer_part body -> chunked_body (line ++ body)
| chunks_more line data ending body : is_line line -> chunk_field line = Some (zlen data) -> data <> [] ->
    is_line ending -> chunked_body body -> chunked_body (line ++ data ++ ending ++ body).

Lemma position_of_not_in c p post : c ∉ p -> position_of [c] (p ++ [c] ++ post) = Some (length p).
Proof.
  induction p as [|b p IH]; intros H; cbn [position_of app length].
  - by rewrite decide_True.
  - apply not_elem_of_cons in H as [Hb Hp]. rewrite decide_False.
    + cbn [app] in IH. by rewrite IH.
    + cbn [take]. congruence.
Qed.

Lemma read_line_is from to line rest : live from -> is_line line -> avail from = line ++ rest ->
  exists from', read_line (from, to) = Some (Ok line, (from', to)) /\ left_with from rest from'.
Proof.
  intros Hl (p & -> & Hp & Hm) Ha. rewrite <- app_assoc in Ha.
  destruct (read_line_ok from to (length p) Hl) as (from' & E & Hw).
  - rewrite Ha. by apply position_of_not_in.
  - done.
  - assert (length p + 1 = length (p ++ [LINE_FEED]))%nat as Hlen by (rewrite length_app; done).
    rewrite Ha, app_assoc, Hlen, take_app_length, drop_app_length in *. eauto.
Qed.

(** A line read and sent on. *)
Lemma relay_line {A} (k : list byte -> xfer A) from to line rest : live from -> is_line line ->
  avail from = line ++ rest -> zlen line <= room to ->
  exists from', left_with from rest from' /\
    (line ← read_line; _ ← send line; k line) (from, to) = k line (from', wrote to line).
Proof.
  intros Hl Hi Ha Hr. destruct (read_line_is from to line rest Hl Hi Ha) as (from' & E & Hw).
  exists from'. split; [done|]. rewrite (xfer_bind_eq _ _ _ _ _ E). by rewrite (xfer_bind_eq _ _ _ _ _ (send_eq _ _ _ Hr)).
Qed.

Lemma forward_trailers_ok body : trailer_part body -> forall rest from to fuel,
  live from -> avail from = body ++ rest -> zlen body <= room to -> (length body <= fuel)%nat ->
  exists from', forward_trailers fuel (from, to) = Some (Ok tt, (from', wrote to body)) /\ left_with from rest from'.
Proof.
  induction 1 as [l Hi He|l body Hi He _ IH]; intros rest from to fuel Hl Ha Hr Hf.
  - destruct fuel as [|fuel]; [destruct Hi as (p & -> & _); rewrite length_app in Hf; simpl in Hf; lia|].
    cbn [forward_trailers].
    destruct (relay_line (fun line => if bool_decide (line = CRLF \/ line = [LINE_FEED]) then mret tt
      else forward_trailers fuel) from to l rest Hl Hi Ha Hr) as (from' & Hw & ->).
    exists from'. unfold ends_trailers in He. by rewrite He.
  - rewrite zlen_app in Hr. rewrite <- app_assoc in Ha. rewrite length_app in Hf.
    assert (0 < length l)%nat by (destruct Hi as (p & -> & _); rewrite length_app; simpl; lia).
    destruct fuel as [|fuel]; [lia|]. cbn [forward_trailers].
    destruct (relay_line (fun line => if bool_decide (line = CRLF \/ line = [LINE_FEED]) then mret tt
      else forward_trailers fuel) from to l (body ++ rest) Hl Hi Ha) as (from1 & Hw & ->); [unfold zlen in *; lia|].
    unfold ends_trailers in He. rewrite He.
    destruct (IH rest from1 (wrote to l) fuel) as (from' & E & Hw').
    + apply Hw.
    + apply Hw.
    + cbn. unfold zlen in *; lia.
    + lia.
    + exists from'. rewrite E, wrote_app. split; [done|by eapply left_with_trans].
Qed.

Definition after_size (fuel : nat) (size_line : list byte) : xfer unit :=
  match chunk_field size_line with
  | None => lift (Err (IoError InvalidData "invalid chunk size"))
  | Some size =>
      if decide (size = 0) then fuelled forward_trailers else
      _ ← copy_exactly size;
      ending ← read_line;
      _ ← send ending;
      forward_chunked_loop fuel
  end.

Lemma is_line_length l : is_line l -> (0 < length l)%nat.
Proof. intros (p & -> & _). rewrite length_app. simpl. lia. Qed.

Lemma forward_chunked_loop_ok body : chunked_body body -> forall rest from to fuel,
  live from -> avail from = body ++ rest -> zlen body <= room to -> (length body <= fuel)%nat ->
  exists from', forward_chunked_loop fuel (from, to) = Some (Ok tt, (from', wrote to body)) /\ left_with from rest from'.
Proof.
  induction 1 as [line body Hi Hs Ht|line data ending body Hi Hs Hd He _ IH]; intros rest from to fuel Hl Ha Hr Hf;
    pose proof (is_line_length _ Hi); rewrite zlen_app in Hr; rewrite !length_app in Hf; rewrite <- !app_assoc in Ha;
    (destruct fuel as [|fuel]; [lia|]); cbn [forward_chunked_loop].
  - destruct (relay_line (after_size fuel) from to line (body ++ rest)) as (from1 & Hw & E1);
      [done..|unfold zlen in *; lia|]. unfold after_size in E1. rewrite E1. clear E1. rewrite Hs, decide_True by done.
    unfold fuelled. cbn [fst]. destruct (forward_trailers_ok body Ht rest from1 (wrote to line) (fuel_of from1)) as (from' & E & Hw').
    + apply Hw.
    + apply Hw.
    + cbn. unfold zlen in *; lia.
    + unfold fuel_of. rewrite (lw_avail _ _ _ Hw), length_app. lia.
    + exists from'. rewrite E, wrote_app. split; [done|by eapply left_with_trans].
  - rewrite !zlen_app in Hr.
    destruct (relay_line (after_size fuel) from to line (data ++ ending ++ body ++ rest)) as (from1 & Hw1 & E1);
      [done..|unfold zlen in *; lia|]. unfold after_size in E1. rewrite E1. clear E1. rewrite Hs.
    rewrite decide_False by (destruct data; [done|unfold zlen; simpl; lia]).
    destruct (copy_exactly_ok data (ending ++ body ++ rest) from1 (wrote to line)) as (from2 & E2 & Hw2);
      [apply Hw1..|cbn; unfold zlen in *; lia|]. rewrite (xfer_bind_eq _ _ _ _ _ E2).
    destruct (relay_line (fun _ => forward_chunked_loop fuel) from2 (wrote (wrote to line) data) ending (body ++ rest))
      as (from3 & Hw3 & E3); [apply Hw2|done|apply Hw2|cbn; unfold zlen in *; lia|]. rewrite E3.
    destruct (IH rest from3 (wrote (wrote (wrote to line) data) ending) fuel) as (from' & E & Hw').
    + apply Hw3.
    + apply Hw3.
    + cbn. unfold zlen in *; lia.
    + lia.
    + exists from'. rewrite E, !wrote_app, <- ?app_assoc. split; [done|].
      by do 3 (eapply left_with_trans; [eassumption|]).
Qed.

Lemma forward_chunked_ok body rest from to : live from -> chunked_body body -> avail from = body ++ rest ->
  zlen body <= room to ->
  exists from', forward_chunked (from, to) = Some (Ok tt, (from', wrote to body)) /\ left_with from rest from'.
Proof.
  intros Hl Hb Ha Hr. apply forward_chunked_loop_ok; [done..|]. unfold fuel_of. cbn [fst].
  rewrite Ha, length_app. lia.
Qed.

(** ** Bodies that end with the connection *)
Lemma copy_until_eof_ok from to : live from -> fin from = None -> zlen (avail from) <= room to ->
  exists from', copy_until_eof (from, to) = Some (Ok tt, (from', wrote to (avail from))) /\ left_with from [] from'.
Proof.
  intros Hl Hfin Hr.
  assert (loop : forall fuel from to, live from -> fin from = None -> pending from = [] ->
    zlen (concat (segs from)) <= room to -> (length (concat (segs from)) < fuel)%nat ->
    exists from', copy_until_eof_loop fuel (from, to) = Some (Ok tt, (from', wrote to (concat (segs from)))) /\
      left_with from [] from').
  { clear. induction fuel as [|fuel IH]; intros from to Hl Hfin Hp Hr Hf; [lia|]. cbn [copy_until_eof_loop].
    destruct (decide (concat (segs from) = [])) as [Ec|Ec].
    - assert (segs from = []) as Es.
      { destruct (segs from) as [|c l] eqn:E; [done|]. unfold live in Hl. rewrite E in Hl.
        apply Forall_cons in Hl as [Hc _]. by destruct c. }
      unfold read. rewrite Es, Hfin. exists from. rewrite wrote_nil. split; [done|].
      split; try done. unfold avail. by rewrite Hp, Es.
    - destruct (read_ready IO_CHUNK_nat from Hl) as (bs & s1 & -> & Hb & _ & Hc & Hps & Hw); [vm_compute; lia|done|].
      rewrite Hc, zlen_app in Hr. rewrite Hc, length_app in Hf. destruct bs as [|b bs]; [done|].
      rewrite write_all_room by (unfold zlen in *; lia).
      destruct (IH s1 (wrote to (b :: bs))) as (from' & E & Hw'); [apply Hw| | |cbn; unfold zlen in *; simpl in *; lia|simpl in Hf; lia|].
      + by rewrite (lw_fin _ _ _ Hw).
      + by rewrite Hps.
      + exists from'. rewrite E, Hc, wrote_app. split; [done|by eapply left_with_trans]. }
  unfold copy_until_eof, fuelled. unfold avail in *. rewrite zlen_app in Hr.
  destruct (decide (pending from <> [])) as [Hp|Hp].
  - erewrite (xfer_bind_eq _ _ (from, to)) by (rewrite decide_True by done; apply send_eq; unfold zlen in *; lia).
    cbn [fst]. destruct (loop (fuel_of (set_pending [] from)) (set_pending [] from) (wrote to (pending from)))
      as (from' & E & Hw); [done..|cbn; unfold zlen in *; lia|unfold fuel_of, avail; cbn; lia|].
    exists from'. rewrite E, wrote_app. split; [done|]. by destruct Hw.
  - assert (pending from = []) as Hp0 by (destruct (pending from); [done|by destruct Hp]). rewrite Hp0 in *.
    erewrite (xfer_bind_eq _ _ (from, to)) by (by rewrite Hp0, decide_False).
    apply loop; [done..| |unfold fuel_of, avail; cbn; rewrite Hp0; cbn; lia]. cbn [app]. unfold zlen in *. simpl in Hr. lia.
Qed.

(** ** Messages *)

(** A head ends at its first blank line and is within the limit. *)
Definition whole_head (h : list byte) : Prop :=
  find_head_end h = Some (length h - 4)%nat /\ zlen h <= MAX_HEAD_BYTES + 1.

(** A body as its head delimits it. *)
Inductive framed : BodyFraming -> list byte -> Prop :=
| framed_none : framed NoBody []
| framed_length body : framed (Length (zlen body)) body
| framed_chunked body : chunked_body body -> framed Chunked body.

Lemma whole_head_read s h rest : live s -> whole_head h -> avail s = h ++ rest ->
  exists s', read_head s = Some (Ok (Some h), s') /\ left_with s rest s'.
Proof.
  intros Hl [Hf Hm] Ha. pose proof Hf as Hf'. unfold find_head_end in Hf'.
  apply position_of_Some in Hf' as (pre & post & Eh & Hpre). apply (f_equal length) in Eh.
  rewrite !length_app in Eh. change (length BLANK_LINE) with 4%nat in Eh.
  destruct (read_head_ok s (length h - 4) Hl) as (s' & E & Hw).
  - rewrite Ha. unfold find_head_end. by apply position_of_app_l.
  - unfold zlen in Hm. lia.
  - replace (length h - 4 + 4)%nat with (length h) in * by lia.
    rewrite Ha, take_app_length, drop_app_length in *. eauto.
Qed.

Lemma copy_request_body_ok f body rest from to : live from -> framed f body -> avail from = body ++ rest ->
  zlen body <= room to ->
  exists from', copy_request_body f (from, to) = Some (Ok tt, (from', wrote to body)) /\ left_with from rest from'.
Proof.
  intros Hl Hf Ha Hr. destruct Hf; cbn [copy_request_body].
  - exists from. rewrite wrote_nil. split; [done|]. cbn in Ha. rewrite <- Ha. by apply left_with_refl.
  - by apply copy_exactly_ok.
  - by apply forward_chunked_ok.
Qed.

(** A response body, and what may follow it on the local connection. *)
Definition framed_response (f : BodyFraming) (ending : option io_error) (body rest : list byte) : Prop :=
  framed f body \/ f = UntilEof /\ rest = [] /\ ending = None.

Lemma copy_response_body_ok f body rest from to : live from -> framed_response f (fin from) body rest ->
  avail from = body ++ rest -> zlen body <= room to ->
  exists from', copy_response_body f (from, to) = Some (Ok tt, (from', wrote to body)) /\ left_with from rest from'.
Proof.
  intros Hl [Hf|(-> & -> & Hfin)] Ha Hr.
  - destruct (copy_request_body_ok f body rest from to) as (from' & E & Hw); [done..|].
    exists from'. split; [|done]. by destruct Hf.
  - cbn [copy_response_body]. rewrite app_nil_r in Ha. destruct (copy_until_eof_ok from to) as (from' & E & Hw);
      [done|done|by rewrite Ha|]. rewrite Ha in E. eauto.
Qed.

(** ** One request, one local connection *)
Record transaction := {
  t_head : list byte;      (* the visitor's *)
  t_body : list byte;
  t_request : Request;
  t_local : side;          (* what the local service will do *)
  t_rhead : list byte;
  t_rbody : list byte;
  t_response : Response;
}.

Definition request_bytes (t : transaction) : list byte := t_head t ++ t_body t.

Definition closes (t : transaction) : bool :=
  bool_decide (response_framing (t_response t) (q_method (t_request t)) = UntilEof) ||
  negb (keep_alive (t_request t)).

Definition answer_bytes (t : transaction) : list byte :=
  as_bytes (build_forward_response_head (t_response t) (negb (closes t))) ++ t_rbody t.

Section Session.
Context `{HashIter}.
Context (connect : nat -> string -> option string -> result io_error side).

Definition out_head (p : HttpBridgePlugin) (r : Request) : string :=
  build_forward_request_head r (hb_host_header_rewrite p) (hb_request_headers p) (host_part (hb_local_addr p)).

Definition local_bytes (p : HttpBridgePlugin) (t : transaction) : list byte :=
  as_bytes (out_head p (t_request t)) ++ t_body t.

(** The [k]-th transaction is one the two ends can carry out. *)
Record valid (p : HttpBridgePlugin) (k : nat) (t : transaction) : Prop := {
  v_head : whole_head (t_head t);
  v_request : parse_request (t_head t) = Ok (t_request t);
  v_body : framed (request_framing (t_request t)) (t_body t);
  v_connect : connect_local connect p k = Ok (t_local t);
  v_live : live (t_local t);
  v_room : zlen (local_bytes p t) <= room (t_local t);
  v_rhead : whole_head (t_rhead t);
  v_response : parse_response (t_rhead t) = Ok (t_response t);
  v_rbody : exists rest, avail (t_local t) = t_rhead t ++ t_rbody t ++ rest /\
    framed_response (response_framing (t_response t) (q_method (t_request t))) (fin (t_local t)) (t_rbody t) rest;
}.

(** The visitor's connection after a transaction. *)
Record answered (conn : side) (t : transaction) (rest : list byte) (conn' : side) : Prop := {
  an_avail : avail conn' = rest;
  an_live : live conn';
  an_fin : fin conn' = fin conn;
  an_sent : sent conn' = sent conn ++ answer_bytes t;
  an_room : room conn' = room conn - zlen (answer_bytes t);
  an_shut : shut conn' = closes t || shut conn;
}.

Lemma answer_ok p k t local conn rest rest' : valid p k t -> live local ->
  fin local = fin (t_local t) -> avail local = t_rhead t ++ t_rbody t ++ rest' ->
  framed_response (response_framing (t_response t) (q_method (t_request t))) (fin local) (t_rbody t) rest' ->
  zlen (answer_bytes t) <= room conn -> live conn -> avail conn = rest ->
  exists conn' local', answer (t_request t) (local, conn) =
      Some (Ok (if closes t then Done else Continue), (local', conn')) /\
    answered conn t rest conn' /\ sent local' = sent local.
Proof.
  intros V Hl Hfin Ha Hfr Hr Hlc Hac. unfold answer. unfold answer_bytes in Hr. rewrite zlen_app in Hr.
  destruct (whole_head_read local (t_rhead t) (t_rbody t ++ rest') Hl (v_rhead _ _ _ V) Ha) as (l1 & E1 & W1).
  erewrite (xfer_bind_eq (on_from read_head)) by (unfold on_from; by rewrite E1). cbv beta iota.
  erewrite (xfer_bind_eq (lift _)) by (unfold lift; by rewrite (v_response _ _ _ V)). cbv zeta. fold (closes t).
  erewrite xfer_bind_eq by (apply send_eq; unfold zlen in *; lia).
  destruct (copy_response_body_ok (response_framing (t_response t) (q_method (t_request t))) (t_rbody t) rest' l1
    (wrote conn (as_bytes (build_forward_response_head (t_response t) (negb (closes t)))))) as (l2 & E2 & W2).
  { apply W1. }
  { by rewrite (lw_fin _ _ _ W1). }
  { apply W1. }
  { unfold wrote; cbn [room]. unfold zlen in *; lia. }
  rewrite (xfer_bind_eq _ _ _ _ _ E2), wrote_app. erewrite (xfer_bind_eq shutdown_from) by done.
  fold (answer_bytes t). set (l3 := shutdown l2).
  assert (sent l3 = sent local) as Hs by (cbn; rewrite (lw_sent _ _ _ W2); apply W1).
  destruct (closes t) eqn:Ec.
  - eexists _, l3. split; [done|]. split; [|done]. by split; rewrite ?Ec.
  - eexists _, l3. split; [done|]. split; [|done]. by split; rewrite ?Ec.
Qed.

(** A pass of the loop carries one transaction out. *)
Lemma pass_ok p k t conn rest : valid p k t -> live conn -> avail conn = request_bytes t ++ rest ->
  zlen (answer_bytes t) <= room conn ->
  exists conn' local', pass connect p k conn =
      Some (Ok (if closes t then Done else Continue), conn', Some local') /\
    answered conn t rest conn' /\ sent local' = sent (t_local t) ++ local_bytes p t.
Proof.
  intros V Hl Ha Hr. unfold pass. unfold request_bytes in Ha. rewrite <- app_assoc in Ha.
  destruct (whole_head_read conn (t_head t) (t_body t ++ rest) Hl (v_head _ _ _ V) Ha) as (c1 & E1 & W1).
  rewrite E1. cbn [mbind option_bind]. rewrite (v_request _ _ _ V), (v_connect _ _ _ V). cbv zeta. fold (out_head p (t_request t)).
  unfold exchange. pose proof (v_room _ _ _ V) as Hroom. unfold local_bytes in Hroom. rewrite zlen_app in Hroom.
  erewrite xfer_bind_eq by (apply send_eq; unfold zlen in *; lia).
  destruct (copy_request_body_ok (request_framing (t_request t)) (t_body t) rest c1 (wrote (t_local t) (as_bytes (out_head p (t_request t)))))
    as (c2 & E2 & W2); [apply W1|apply (v_body _ _ _ V)|apply W1|unfold wrote; cbn [room]; unfold zlen in *; lia|].
  rewrite (xfer_bind_eq _ _ _ _ _ E2), wrote_app. fold (local_bytes p t).
  destruct (v_rbody _ _ _ V) as (rest' & Har & Hfr). unfold swapped.
  pose proof (left_with_trans _ _ _ _ _ W1 W2) as W.
  destruct (answer_ok p k t (wrote (t_local t) (local_bytes p t)) c2 rest rest' V) as (conn' & local' & E & A & S);
    [apply V|done|done|done|by rewrite (lw_room _ _ _ W)|apply W|apply W|].
  rewrite E. cbn [mbind option_bind]. exists conn', local'. split; [done|]. split; [|by rewrite S].
  destruct A. split; try done.
  - by rewrite an_fin0, (lw_fin _ _ _ W).
  - by rewrite an_sent0, (lw_sent _ _ _ W).
  - by rewrite an_room0, (lw_room _ _ _ W).
  - by rewrite an_shut0, (lw_shut _ _ _ W).
Qed.

Lemma read_head_end s : live s -> fin s = None -> avail s = [] -> read_head s = Some (Ok None, s).
Proof.
  intros Hl Hf [Hp Hc]%app_eq_nil. unfold read_head, fuel_of, avail. rewrite Hp, Hc. cbn [app length read_head_loop].
  rewrite Hp. change (find_head_end []) with (@None nat). cbv beta iota. rewrite decide_False by (vm_compute; intros [=]; done).
  unfold read. destruct (segs s) as [|c l] eqn:E; [by rewrite Hf, Hp, decide_True|].
  unfold live in Hl. rewrite E in Hl. apply Forall_cons in Hl as [Hne _]. by destruct c.
Qed.

(** What ends the visitor's session: its input, or a transaction that closes. *)
Definition session_over (ts : list transaction) (rest : list byte) : Prop :=
  (ts = [] /\ rest = []) \/
  exists ts' t, ts = ts' ++ [t] /\ Forall (fun t => closes t = false) ts' /\ (closes t = true \/ rest = []).

Lemma session_over_cons t ts rest : session_over (t :: ts) rest ->
  (closes t = true /\ ts = []) \/ (closes t = false /\ session_over ts rest).
Proof.
  intros [[? _]|(ts' & u & E & Hc & Hl)]; [done|]. destruct ts' as [|t' ts']; injection E as <- ->.
  - destruct (closes t); [by left|]. right. split; [done|]. left. by destruct Hl.
  - apply Forall_cons in Hc as [Ht Hc]. right. split; [done|]. right. eauto.
Qed.

Lemma handle_loop_session p ts : forall l0 conn rest fuel,
  live conn -> fin conn = None -> (forall k t, ts !! k = Some t -> valid p (length l0 + k) t) ->
  session_over ts rest -> avail conn = concat (map request_bytes ts) ++ rest ->
  zlen (concat (map answer_bytes ts)) <= room conn -> (length ts < fuel)%nat ->
  exists conn' locals, handle_loop connect fuel p l0 conn = Some (Ok tt, conn', l0 ++ locals) /\
    sent conn' = sent conn ++ concat (map answer_bytes ts) /\ avail conn' = rest /\
    Forall2 (fun t l => sent l = sent (t_local t) ++ local_bytes p t) ts locals.
Proof.
  induction ts as [|t ts IH]; intros l0 conn rest fuel Hl Hfin Hv Ho Ha Hr Hf;
    (destruct fuel as [|fuel]; [simpl in Hf; lia|]); cbn [handle_loop].
  - assert (rest = []) as ->.
    { destruct Ho as [[_ ?]|(ts' & t & E & _)]; [done|]. by destruct ts'. }
    unfold pass. rewrite read_head_end by done. cbn [mbind option_bind]. exists conn, [].
    by rewrite !app_nil_r.
  - cbn [map concat] in Ha, Hr. rewrite <- app_assoc in Ha. rewrite zlen_app in Hr.
    pose proof (Hv 0%nat t eq_refl) as V. rewrite Nat.add_0_r in V.
    destruct (pass_ok p (length l0) t conn _ V Hl Ha) as (conn1 & local & -> & A & Hsl); [unfold zlen in *; lia|].
    cbn [mbind option_bind]. destruct (session_over_cons _ _ _ Ho) as [[Ec ->]|[Ec Ho']]; rewrite Ec.
    + exists conn1, [local]. cbn [map concat] in *. rewrite !app_nil_r in *.
      split_and!; [done|apply A|apply A|by repeat constructor].
    + destruct (IH (l0 ++ [local]) conn1 rest fuel) as (conn' & locals & E & Hs & Hav & Hl2).
      * apply A.
      * by rewrite (an_fin _ _ _ _ A).
      * intros k u Hu. rewrite length_app. cbn [length]. replace (length l0 + 1 + k)%nat with (length l0 + S k)%nat by lia.
        by apply Hv.
      * done.
      * apply A.
      * rewrite (an_room _ _ _ _ A). unfold zlen in *. lia.
      * simpl in Hf. lia.
      * exists conn', (local :: locals). rewrite E, Hs, (an_sent _ _ _ _ A), <- !app_assoc. cbn [map concat app].
        split_and!; [done..|]. by constructor.
Qed.

Lemma whole_head_length h : whole_head h -> (4 <= length h)%nat.
Proof.
  intros [Hf _]. unfold find_head_end in Hf. apply position_of_Some in Hf as (pre & post & -> & _).
  rewrite !length_app. change (length BLANK_LINE) with 4%nat. lia.
Qed.

(** C3: A visitor may send its requests one after the other on one connection
    (pipelined or not, cut into reads in any way): each reaches a local
    connection of its own, as the rewritten head and exactly its own body
    (absent, of the announced length, or chunked); the visitor receives the
    responses in order, each with its rewritten head and its body whole; and
    the plugin stops after the response that closes, with what the visitor sent
    beyond it unread. *)
Theorem bridge_session p ts conn rest :
  live conn -> fin conn = None -> (forall k t, ts !! k = Some t -> valid p k t) ->
  session_over ts rest -> avail conn = concat (map request_bytes ts) ++ rest ->
  zlen (concat (map answer_bytes ts)) <= room conn ->
  exists conn' locals, handle connect p conn = Some (Ok tt, conn', locals) /\
    sent conn' = sent conn ++ concat (map answer_bytes ts) /\ avail conn' = rest /\
    Forall2 (fun t l => sent l = sent (t_local t) ++ local_bytes p t) ts locals.
Proof.
  intros Hl Hfin Hv Ho Ha Hr.
  destruct (handle_loop_session p ts [] conn rest (fuel_of conn)) as (conn' & locals & E & Hres); try done.
  - unfold fuel_of. rewrite Ha, length_app. clear Ha Hr Ho. enough (length ts <= length (concat (map request_bytes ts)))%nat by lia.
    assert (Forall (fun t => whole_head (t_head t)) ts) as Hh.
    { apply Forall_lookup. intros k t Hk. apply (v_head _ _ _ (Hv k t Hk)). }
    clear Hv. induction Hh as [|t ts Ht _ IH]; [done|]. cbn [map concat length]. rewrite length_app.
    unfold request_bytes at 1. rewrite length_app. pose proof (whole_head_length _ Ht). lia.
  - exists conn', locals. done.
Qed.
End Session.

(** ** Every loop ends *)

(** An action ends whatever the connections do, reads only from its source and
    leaves no more there than it found. *)
Definition ends_at {A} (m : xfer A) (st : side * side) : Prop := exists r from to,
  m st = Some (r, (from, to)) /\ (length (avail from) <= length (avail st.1))%nat /\ avail to = avail st.2.
Definition ends {A} (m : xfer A) : Prop := forall st, ends_at m st.

Lemma ends_bind {A B} (m : xfer A) (f : A -> xfer B) st : ends_at m st ->
  (forall a st', m st = Some (Ok a, st') -> (length (avail st'.1) <= length (avail st.1))%nat -> ends_at (f a) st') ->
  ends_at (m ≫= f) st.
Proof.
  intros (r & from & to & E & Hf & Ht) Hk. unfold ends_at, mbind, xfer_bind in *. rewrite E.
  destruct r as [a|e]; [|by exists (Err e), from, to].
  destruct (Hk a (from, to) E Hf) as (r & from' & to' & E' & Hf' & Ht'). exists r, from', to'.
  cbn [fst snd] in *. split_and!; [done|lia|congruence].
Qed.

Lemma ends_ret {A} (a : A) : ends (mret a).
Proof. intros [from to]. by exists (Ok a), from, to. Qed.

Lemma ends_lift {A} (r : result io_error A) : ends (lift r).
Proof. intros [from to]. by exists r, from, to. Qed.

Lemma ends_send bs : ends (send bs).
Proof. intros [from to]. unfold ends_at, send, on_to, write_all. case_decide; eexists _, _, _; by split_and!. Qed.

Lemma ends_shutdown_to : ends shutdown_to.
Proof. intros [from to]. by eexists _, _, _. Qed.

Lemma ends_shutdown_from : ends shutdown_from.
Proof. intros [from to]. by eexists _, _, _. Qed.

(** A read is an end, or takes bytes from the source. *)
Lemma read_shrinks cap s : (0 < cap)%nat -> exists r s', read cap s = (r, s') /\ pending s' = pending s /\
  (length (concat (segs s')) <= length (concat (segs s)))%nat /\
  (forall b bs, r = Ok (b :: bs) -> concat (segs s) = (b :: bs) ++ concat (segs s')).
Proof.
  intros Hc. unfold read. destruct (segs s) as [|c rest] eqn:E.
  - exists (match fin s with Some e => Err e | None => Ok [] end), s. rewrite E. split_and!; try done. by destruct (fin s).
  - eexists _, _. split; [done|]. cbn [pending segs set_segs]. rewrite concat_drop_seg. split; [done|].
    cbn [concat]. rewrite !length_app, length_drop. split; [lia|]. intros b bs [= <-]. by rewrite app_assoc, take_drop.
Qed.

Lemma IO_CHUNK_pos : (0 < IO_CHUNK_nat)%nat.
Proof. vm_compute. lia. Qed.

(** [read_head] and [read_line]: what they return was taken from the source. *)
Lemma read_head_ends s : exists r s', read_head s = Some (r, s') /\ (length (avail s') <= length (avail s))%nat /\
  (forall h, r = Ok (Some h) -> (length (avail s') < length (avail s))%nat).
Proof.
  unfold read_head. assert (length (concat (segs s)) < fuel_of s)%nat as Hf by (unfold fuel_of, avail; rewrite length_app; lia).
  revert Hf. generalize (fuel_of s) as fuel. intros fuel. revert s; induction fuel as [|fuel IH]; intros s Hf; [lia|].
  cbn [read_head_loop]. destruct (find_head_end (pending s)) as [pos|] eqn:Ep.
  - unfold drain. eexists _, _. split; [done|]. unfold avail. cbn. rewrite !length_app, length_drop.
    unfold find_head_end in Ep. apply position_of_Some in Ep as (pre & post & -> & <-). rewrite !length_app.
    change (length BLANK_LINE) with 4%nat. split; [lia|]. intros h _. lia.
  - case_decide; [by eexists _, _|].
    destruct (read_shrinks IO_CHUNK_nat s IO_CHUNK_pos) as (r & s1 & -> & Hp & Hle & Hb).
    destruct r as [[|b bs]|e]; unfold avail; rewrite ?Hp.
    + case_decide; eexists _, _; split_and!; try done; rewrite Hp, !length_app; lia.
    + specialize (Hb b bs eq_refl). rewrite Hb in Hf |- *. rewrite length_app in Hf. simpl in Hf.
      destruct (IH (set_pending (pending s ++ b :: bs) s1)) as (r & s' & -> & Hle' & Hlt); [cbn; lia|].
      unfold avail in Hle', Hlt. cbn [pending segs set_pending] in Hle', Hlt. rewrite <- app_assoc in Hle', Hlt. eauto.
    + eexists _, _. split_and!; try done. rewrite Hp, !length_app. lia.
Qed.

Lemma read_line_ends st : exists r from, read_line st = Some (r, (from, st.2)) /\
  (length (avail from) <= length (avail st.1))%nat /\
  (forall l, r = Ok l -> (length (avail from) < length (avail st.1))%nat).
Proof.
  destruct st as [s to]. unfold read_line, on_from. cbn [fst snd].
  enough (exists r s', read_line_loop (fuel_of s) s = Some (r, s') /\ (length (avail s') <= length (avail s))%nat /\
    (forall l, r = Ok l -> (length (avail s') < length (avail s))%nat)) as (r & s' & -> & H1 & H2) by (by exists r, s').
  assert (length (concat (segs s)) < fuel_of s)%nat as Hf by (unfold fuel_of, avail; rewrite length_app; lia).
  revert Hf. generalize (fuel_of s) as fuel. intros fuel. revert s; induction fuel as [|fuel IH]; intros s Hf; [lia|].
  cbn [read_line_loop]. destruct (position_of [LINE_FEED] (pending s)) as [pos|] eqn:Ep.
  - unfold drain. eexists _, _. split; [done|]. unfold avail. cbn. rewrite !length_app, length_drop.
    apply position_of_Some in Ep as (pre & post & -> & <-). rewrite !length_app.
    change (length [LINE_FEED]) with 1%nat. split; [lia|]. intros h _. lia.
  - case_decide; [by eexists _, _|].
    destruct (read_shrinks IO_CHUNK_nat s IO_CHUNK_pos) as (r & s1 & -> & Hp & Hle & Hb).
    destruct r as [[|b bs]|e]; unfold avail; rewrite ?Hp.
    + eexists _, _; split_and!; try done; rewrite Hp, !length_app; lia.
    + specialize (Hb b bs eq_refl). rewrite Hb in Hf |- *. rewrite length_app in Hf. simpl in Hf.
      destruct (IH (set_pending (pending s ++ b :: bs) s1)) as (r & s' & -> & Hle' & Hlt); [cbn; lia|].
      unfold avail in Hle', Hlt. cbn [pending segs set_pending] in Hle', Hlt. rewrite <- app_assoc in Hle', Hlt. eauto.
    + eexists _, _. split_and!; try done. rewrite Hp, !length_app. lia.
Qed.

Lemma write_all_avail bs s : exists r s', write_all bs s = (r, s') /\ avail s' = avail s.
Proof. unfold write_all. case_decide; by eexists _, _. Qed.

Lemma fuelled_ends {A} (loop : nat -> xfer A) :
  (forall fuel st, (length (avail st.1) < fuel)%nat -> ends_at (loop fuel) st) -> ends (fuelled loop).
Proof. intros Hl st. unfold ends_at, fuelled. apply Hl. unfold fuel_of. lia. Qed.

Lemma copy_exactly_ends n : ends (copy_exactly n).
Proof.
  apply fuelled_ends. intros fuel [from to]. cbn [fst].
  revert n from to; induction fuel as [|fuel IH]; intros n from to Hf; [lia|].
  unfold ends_at in *. cbn [copy_exactly_loop]. destruct (decide (n <= 0)) as [Hn|Hn]; [eexists _, _, _; split_and!; [done|simpl; lia|done]|].
  assert (step : forall bs from1, (length (avail from1) < length (avail from))%nat ->
    exists r from' to', match write_all bs to with
      | (Err e, to) => Some (Err e, (from1, to))
      | (Ok _, to) => copy_exactly_loop fuel (n - zlen bs) (from1, to)
      end = Some (r, (from', to')) /\ (length (avail from') <= length (avail from))%nat /\ avail to' = avail to).
  { intros bs from1 Hlt. destruct (write_all_avail bs to) as (r & to1 & -> & Ht). destruct r as [[]|e].
    - destruct (IH (n - zlen bs) from1 to1) as (r & from' & to' & -> & H1 & H2); [lia|]. cbn [fst snd] in *.
      eexists _, _, _. split_and!; [done|lia|congruence].
    - eexists _, _, _. split_and!; [done|lia|done]. }
  destruct (decide (pending from <> [])) as [Hp|Hp].
  - unfold drain. set (k := Z.to_nat (Z.min n (zlen (pending from)))).
    assert (0 < k <= length (pending from))%nat as Hk.
    { unfold k. destruct (pending from); [done|]. unfold zlen in *. simpl in *. lia. }
    assert (Z.of_nat k = zlen (take k (pending from))) as -> by (unfold zlen; rewrite length_take; lia).
    apply step. unfold avail. cbn. rewrite !length_app, length_drop. lia.
  - assert (pending from = []) as Hp0 by (destruct (pending from); [done|by destruct Hp]).
    destruct (read_shrinks (Z.to_nat (Z.min n IO_CHUNK)) from) as (r & s1 & -> & Hps & Hle & Hb);
      [unfold IO_CHUNK; lia|].
    assert (length (avail s1) <= length (avail from))%nat as Hav by (unfold avail; rewrite Hps, !length_app; lia).
    destruct r as [[|b bs]|e]; [eexists _, _, _; split_and!; [done|simpl; lia|done]|apply (step (b :: bs))|eexists _, _, _; split_and!; [done|simpl; lia|done]].
    specialize (Hb b bs eq_refl). unfold avail. rewrite Hps, Hb, !length_app. simpl. lia.
Qed.

(** A line read and sent, then code that ends when less is left. *)
Lemma relay_ends {A} (k : list byte -> xfer A) st :
  (forall l st', (length (avail st'.1) < length (avail st.1))%nat -> ends_at (k l) st') ->
  ends_at (line ← read_line; _ ← send line; k line) st.
Proof.
  intros Hk. destruct (read_line_ends st) as (r & from & E & Hle & Hlt). unfold ends_at.
  destruct r as [l|e]; [|unfold mbind, xfer_bind; rewrite E; by eexists _, _, _].
  rewrite (xfer_bind_eq _ _ _ _ _ E). specialize (Hlt l eq_refl).
  destruct (ends_bind (send l) (fun _ => k l) (from, st.2)) as (r & from' & to' & E' & H1 & H2).
  - apply ends_send.
  - intros a st' _ Hs. apply Hk. cbn [fst] in Hs. lia.
  - cbn [fst snd] in *. rewrite E'. eexists _, _, _. split_and!; [done|lia|done].
Qed.

Lemma forward_trailers_ends fuel st : (length (avail st.1) < fuel)%nat -> ends_at (forward_trailers fuel) st.
Proof.
  revert st; induction fuel as [|fuel IH]; intros st Hf; [lia|]. cbn [forward_trailers].
  apply relay_ends. intros l st' Hlt. destruct (bool_decide _); [apply ends_ret|apply IH; lia].
Qed.

Lemma forward_chunked_ends : ends forward_chunked.
Proof.
  apply fuelled_ends. intros fuel. induction fuel as [|fuel IH]; intros st Hf; [lia|]. cbn [forward_chunked_loop].
  apply relay_ends. intros l st1 H1. destruct (chunk_field l) as [size|]; [|apply ends_lift].
  destruct (decide (size = 0)); [apply fuelled_ends, forward_trailers_ends|].
  apply ends_bind; [apply copy_exactly_ends|]. intros _ st2 _ H2.
  apply relay_ends. intros l' st3 H3. apply IH. lia.
Qed.

Lemma copy_until_eof_loop_ends fuel st : (length (avail st.1) < fuel)%nat -> ends_at (copy_until_eof_loop fuel) st.
Proof.
  revert st; induction fuel as [|fuel IH]; intros [from to] Hf; [lia|]. unfold ends_at in *. cbn [copy_until_eof_loop].
  destruct (read_shrinks IO_CHUNK_nat from IO_CHUNK_pos) as (r & s1 & -> & Hps & Hle & Hb).
  assert (length (avail s1) <= length (avail from))%nat as Hav by (unfold avail; rewrite Hps, !length_app; lia).
  destruct r as [[|b bs]|e]; [eexists _, _, _; split_and!; [done|simpl; lia|done]| |eexists _, _, _; split_and!; [done|simpl; lia|done]].
  specialize (Hb b bs eq_refl). destruct (write_all_avail (b :: bs) to) as (r & to1 & -> & Ht).
  assert (length (avail s1) < length (avail from))%nat as Hlt.
  { unfold avail. rewrite Hps, Hb, !length_app. simpl. lia. }
  destruct r as [[]|e].
  - destruct (IH (s1, to1)) as (r & from' & to' & -> & H1 & H2); [cbn [fst] in *; lia|]. cbn [fst snd] in *.
    eexists _, _, _. split_and!; [done|lia|congruence].
  - eexists _, _, _. split_and!; [done|cbn [fst]; lia|done].
Qed.

Lemma copy_until_eof_ends : ends copy_until_eof.
Proof.
  intros st. apply ends_bind.
  - destruct st as [from to]. unfold ends_at. case_decide; [|eexists _, _, _; split_and!; [done|simpl; lia|done]].
    destruct (ends_send (pending from) (set_pending [] from, to)) as (r & f' & t' & E & H1 & H2). rewrite E.
    eexists _, _, _. split_and!; [done| |done]. cbn [fst] in *. etransitivity; [exact H1|].
    unfold avail. cbn. rewrite length_app. lia.
  - intros _ st' _ _. apply fuelled_ends, copy_until_eof_loop_ends.
Qed.

Lemma on_from_read_head_ends : ends (on_from read_head).
Proof.
  intros [from to]. unfold ends_at, on_from. destruct (read_head_ends from) as (r & s' & -> & Hle & _).
  by exists r, s', to.
Qed.

Lemma answer_ends request : ends (answer request).
Proof.
  intros st. unfold answer. apply ends_bind; [apply on_from_read_head_ends|]. intros [h|] st1 _ _.
  - apply ends_bind; [apply ends_lift|]. intros p st2 _ _. cbv zeta.
    apply ends_bind; [apply ends_send|]. intros _ st3 _ _.
    apply ends_bind.
    { destruct (response_framing p (q_method request)); cbn [copy_response_body];
        [apply ends_ret|apply copy_exactly_ends|apply forward_chunked_ends|apply copy_until_eof_ends]. }
    intros _ st4 _ _. apply ends_bind; [apply ends_shutdown_from|]. intros _ st5 _ _.
    destruct (_ || _); [|apply ends_ret]. apply ends_bind; [apply ends_shutdown_to|]. intros. apply ends_ret.
  - apply ends_bind; [apply ends_shutdown_to|]. intros. apply ends_ret.
Qed.

(** The exchange ends and leaves no more of the visitor's bytes than it found. *)
Lemma exchange_ends out request conn local : exists r conn' local',
  exchange out request (conn, local) = Some (r, (conn', local')) /\
  (length (avail conn') <= length (avail conn))%nat.
Proof.
  unfold exchange, mbind, xfer_bind. destruct (ends_send (as_bytes out) (conn, local)) as (r1 & c1 & l1 & -> & H1 & _).
  cbn [fst] in H1. destruct r1; [|eexists _, _, _; split; [done|lia]].
  assert (ends (copy_request_body (request_framing request))) as He.
  { destruct (request_framing request); cbn [copy_request_body];
      [apply ends_ret|apply copy_exactly_ends|apply forward_chunked_ends|apply ends_lift]. }
  destruct (He (c1, l1)) as (r2 & c2 & l2 & -> & H2 & _). cbn [fst] in H2.
  destruct r2; [|eexists _, _, _; split; [done|lia]]. unfold swapped.
  destruct (answer_ends request (l2, c2)) as (r3 & l3 & c3 & -> & _ & H3). cbn [snd] in H3.
  eexists _, _, _. split; [done|]. rewrite H3. lia.
Qed.


(** ** No body is cut short silently *)
Lemma write_all_wrote bs s u s' : write_all bs s = (Ok u, s') -> s' = wrote s bs.
Proof. unfold write_all. case_decide; [|done]. by intros [= _ <-]. Qed.

Lemma copy_loop_exact fuel : forall n from to from' to',
  copy_exactly_loop fuel n (from, to) = Some (Ok tt, (from', to')) ->
  exists body, zlen body = Z.max 0 n /\ avail from = body ++ avail from' /\ to' = wrote to body.
Proof.
  induction fuel as [|fuel IH]; intros n from to from' to'; cbn [copy_exactly_loop].
  { case_decide; [|done]. intros [= <- <-]. exists []. rewrite wrote_nil. split_and!; [unfold zlen; simpl; lia|done..]. }
  destruct (decide (n <= 0)) as [Hn|Hn].
  { intros [= <- <-]. exists []. rewrite wrote_nil. split_and!; [unfold zlen; simpl; lia|done..]. }
  assert (step : forall bs from1, avail from = bs ++ avail from1 -> zlen bs <= n ->
    match write_all bs to with
    | (Err e, to) => Some (Err e, (from1, to))
    | (Ok _, to) => copy_exactly_loop fuel (n - zlen bs) (from1, to)
    end = Some (Ok tt, (from', to')) ->
    exists body, zlen body = Z.max 0 n /\ avail from = body ++ avail from' /\ to' = wrote to body).
  { intros bs from1 Ha Hb Hr. destruct (write_all bs to) as [[u|e] to1] eqn:Ew; [|done].
    apply write_all_wrote in Ew as ->. apply IH in Hr as (body & Hz & Ha1 & ->).
    exists (bs ++ body). rewrite zlen_app, wrote_app, Ha, Ha1, app_assoc. split_and!; [lia|done..]. }
  destruct (decide (pending from <> [])) as [Hp|Hp].
  - unfold drain. set (k := Z.to_nat (Z.min n (zlen (pending from)))).
    assert (Z.of_nat k = zlen (take k (pending from))) as -> by (unfold k, zlen; rewrite length_take; lia).
    apply step; [|unfold k, zlen in *; rewrite length_take; lia].
    unfold avail. cbn. by rewrite app_assoc, take_drop.
  - assert (pending from = []) as Hp0 by (destruct (pending from); [done|by destruct Hp]).
    unfold read. destruct (segs from) as [|c rest] eqn:Es; [by destruct (fin from)|].
    set (k := Z.to_nat (Z.min n IO_CHUNK)).
    destruct (take k c) as [|b bs] eqn:Et; [done|]. rewrite <- Et.
    apply step; [|unfold k, zlen in *; rewrite length_take; unfold IO_CHUNK; lia].
    unfold avail. cbn [pending segs set_segs]. rewrite Hp0, Es, concat_drop_seg. cbn [app concat].
    by rewrite app_assoc, take_drop.
Qed.

(** C26: A body of announced length is passed on whole or the transfer fails:
    when copying succeeds, exactly that many bytes were taken from the source
    (the bytes read ahead first) and they, nothing else, were written. *)
Theorem copy_exact n from to from' to' : 0 <= n ->
  copy_exactly n (from, to) = Some (Ok tt, (from', to')) ->
  exists body, zlen body = n /\ avail from = body ++ avail from' /\ to' = wrote to body.
Proof.
  intros Hn H. apply copy_loop_exact in H as (body & Hz & Ha & Ht). exists body.
  split_and!; [lia|done..].
Qed.

Definition demo_source : side := Side (as_bytes "he") [as_bytes "l"; as_bytes "lo world"] None [] 0 false.
Definition demo_sink : side := Side [] [] None [] 100 false.

Lemma copy_exact_witness : exists from' to', copy_exactly 5 (demo_source, demo_sink) = Some (Ok tt, (from', to')) /\
  exists body, zlen body = 5 /\ avail demo_source = body ++ avail from' /\ to' = wrote demo_sink body.
Proof.
  eexists _, _. split; [vm_compute; reflexivity|]. apply copy_exact; [lia|]. vm_compute. reflexivity.
Defined.

(** The body of one request is not taken for the next only if its length is
    read: a list of lengths is no number, so the body is left for the next turn. *)
Lemma unread_length :
  request_framing {| q_method := "POST"; q_target := "/"; q_http10 := false;
    q_headers := [("Content-Length", "5, 5")] |}%string = NoBody.
Proof. vm_compute. reflexivity. Qed.

(** Interim responses are answers like any other. *)
Lemma interim_is_final m : response_framing {| p_status := 100; p_headers := [] |} m = NoBody.
Proof. unfold response_framing, bodyless. by rewrite orb_true_r. Qed.

(** ** A session *)
Definition demo_plugin : HttpBridgePlugin :=
  {| hb_local_addr := "127.0.0.1:8080"; hb_host_header_rewrite := Some "app.local"%string;
     hb_request_headers := ∅; hb_tls := false |}.

Definition head_bytes (lines : list string) : list byte := as_bytes (crlf_lines lines crlf).

Definition first_transaction : transaction :=
  let head := head_bytes ["POST /a HTTP/1.1"; "Host: x"; "Content-Length: 5"]%string in
  let rhead := head_bytes ["HTTP/1.1 200 Fine"; "Content-Length: 2"; "Connection: close"]%string in
  {| t_head := head; t_body := as_bytes "hello";
     t_request := {| q_method := "POST"; q_target := "/a"; q_http10 := false;
       q_headers := [("Host", "x"); ("Content-Length", "5")] |}%string;
     t_local := Side [] [rhead; as_bytes "ok"] None [] 1000 false;
     t_rhead := rhead; t_rbody := as_bytes "ok";
     t_response := {| p_status := 200; p_headers := [("Content-Length", "2"); ("Connection", "close")] |}%string |}.

Definition second_transaction : transaction :=
  let head := head_bytes ["GET /b HTTP/1.1"; "Host: x"]%string in
  let rhead := head_bytes ["HTTP/1.1 200 OK"; "Server: s"]%string in
  {| t_head := head; t_body := [];
     t_request := {| q_method := "GET"; q_target := "/b"; q_http10 := false; q_headers := [("Host", "x")] |}%string;
     t_local := Side [] [rhead ++ as_bytes "by"; as_bytes "e"] None [] 1000 false;
     t_rhead := rhead; t_rbody := as_bytes "bye";
     t_response := {| p_status := 200; p_headers := [("Server", "s")] |}%string |}.

Definition demo_connect (k : nat) (addr : string) (tls : option string) : result io_error side :=
  match k with
  | O => Ok (t_local first_transaction)
  | 1%nat => Ok (t_local second_transaction)
  | _ => Err broken_pipe
  end.

Definition demo_visitor : side :=
  Side [] (chunks 7 (request_bytes first_transaction ++ request_bytes second_transaction)) None [] 1000 false.

Lemma bridge_session_witness : exists conn' locals,
  @handle map_order demo_connect demo_plugin demo_visitor = Some (Ok tt, conn', locals) /\
  sent conn' = answer_bytes first_transaction ++ answer_bytes second_transaction /\
  length locals = 2%nat.
Proof.
  destruct (@bridge_session map_order demo_connect demo_plugin [first_transaction; second_transaction] demo_visitor [])
    as (conn' & locals & E & Hs & _ & Hl).
  - apply Forall_lookup_2. intros i c Hi ->. revert Hi. do 12 (destruct i; [vm_compute; congruence|]). vm_compute. congruence.
  - reflexivity.
  - intros [|[|k]] t; [intros [= <-]|intros [= <-]|vm_compute; congruence].
    + split; try (vm_compute; reflexivity).
      * split; vm_compute; [reflexivity|congruence].
      * apply (framed_length (as_bytes "hello")).
      * repeat constructor; vm_compute; congruence.
      * vm_compute. congruence.
      * split; vm_compute; [reflexivity|congruence].
      * exists []. split; [vm_compute; reflexivity|]. left. apply (framed_length (as_bytes "ok")).
    + split; try (vm_compute; reflexivity).
      * split; vm_compute; [reflexivity|congruence].
      * apply framed_none.
      * repeat constructor; vm_compute; congruence.
      * vm_compute. congruence.
      * split; vm_compute; [reflexivity|congruence].
      * exists []. split; [vm_compute; reflexivity|]. right. repeat split; vm_compute; reflexivity.
  - right. exists [first_transaction], second_transaction. split; [reflexivity|]. split.
    + repeat constructor.
    + left. vm_compute. reflexivity.
  - vm_compute. reflexivity.
  - vm_compute. congruence.
  - exists conn', locals. split; [exact E|]. split; [exact Hs|]. by rewrite <- (Forall2_length _ _ _ Hl).
Defined.
