(* ===== verification/StaticFile.v ===== *)
(** * The static file plugin (src/rust_frp_plugin/src/lib.rs [StaticFilePlugin])

    One read of the visitor's connection is taken for the request; a [GET] is
    answered with a file below the configured directory.  The file system is an
    interface; what matters of it is which answers depend on which of its
    files. *)
From S2P Require Import Prelude RustStd RustFmt Utf8 ConfigTypes Transport Secrets Auth Routers HttpText HttpHead.
From S2P Require Import HttpBridge.

(** [Path::canonicalize], [exists], [is_file], [fs::metadata] (its length),
    [File::open] with the bytes copied from the file before its end or before a
    read fails. *)
Record files := {
  canonicalize : string -> option string;
  path_exists : string -> bool;
  is_file : string -> bool;
  file_len : string -> result io_error Z;
  file_bytes : string -> result io_error (list byte * option io_error);
}.

(** ** Paths *)

(** The components of a path without [.] and [..]. *)
Definition components (path : string) : list string :=
  filter (fun c => is_empty c = false) (split_char "/"%char path).

(** [Path::starts_with]: whole components, and the same root. *)
Definition rooted (path : string) : bool := starts_with "/" path.
Definition path_starts_with (path base : string) : bool :=
  bool_decide (rooted path = rooted base) && bool_decide (take (length (components base)) (components path) = components base).

(** [Path::extension]: of the last component, after its last dot, unless that
    dot is its first character. *)
Definition extension (path : string) : option string :=
  name ← last (components path);
  match rsplit_once "."%char name with
  | Some (stem, ext) => if is_empty stem then None else Some ext
  | None => None
  end.

Definition content_type_for (path : string) : string :=
  match to_ascii_lowercase <$> extension path with
  | Some "html" | Some "htm" => "text/html; charset=utf-8"
  | Some "css" => "text/css; charset=utf-8"
  | Some "js" | Some "mjs" => "application/javascript; charset=utf-8"
  | Some "json" => "application/json; charset=utf-8"
  | Some "txt" | Some "log" | Some "md" => "text/plain; charset=utf-8"
  | Some "svg" => "image/svg+xml"
  | Some "png" => "image/png"
  | Some "jpg" | Some "jpeg" => "image/jpeg"
  | Some "gif" => "image/gif"
  | Some "webp" => "image/webp"
  | Some "ico" => "image/x-icon"
  | Some "pdf" => "application/pdf"
  | Some "wasm" => "application/wasm"
  | Some "xml" => "application/xml"
  | _ => "application/octet-stream"
  end%string.

(** ** The plugin *)
Record StaticFilePlugin := {
  sf_local_path : string;
  sf_strip_prefix : option string;
  sf_http_user : option string;
  sf_http_password : option string;
}.

Definition static_file_new (c : PluginConfig) : result io_error StaticFilePlugin :=
  match pl_local_path c with
  | Some local_path =>
      Ok {| sf_local_path := local_path; sf_strip_prefix := pl_strip_prefix c;
            sf_http_user := pl_http_user c; sf_http_password := pl_http_password c |}
  | None => Err (invalid_input "local_path is required for static_file plugin")
  end.

(** [str::from_utf8] of decoded base64, split at the first colon. *)
Definition decode_basic `{Base64} (encoded : string) : option (string * string) :=
  match b64_std (trim encoded) with
  | Ok bytes => if is_utf8 bytes then split_once ":" (of_bytes bytes) else None
  | Err _ => None
  end.

(** The value of the first line whose name is [name]; names are not trimmed. *)
Fixpoint line_header (name : string) (lines : list string) : option string :=
  match lines with
  | [] => None
  | line :: lines =>
      match split_once ":" line with
      | Some (n, v) => if eq_ignore_ascii_case n name then Some (trim v) else line_header name lines
      | None => line_header name lines
      end
  end.

Definition check_basic_auth `{Base64} (p : StaticFilePlugin) (lines : list string) : bool :=
  match sf_http_user p with
  | None => true
  | Some expected_user =>
      let expected_password := default EmptyString (sf_http_password p) in
      match line_header "authorization" lines with
      | None => false
      | Some header =>
          match (match strip_prefix "Basic " header with Some e => Some e | None => strip_prefix "basic " header end) with
          | None => false
          | Some encoded =>
              match decode_basic encoded with
              | Some (user, password) => str_eq_ct user expected_user && str_eq_ct password expected_password
              | None => false
              end
          end
      end
  end.

(** [path.find('?')] and the text before it. *)
Definition before_query (path : string) : string :=
  match split_once "?" path with Some (b, _) => b | None => path end.

Definition build_file_path (p : StaticFilePlugin) (path : string) : string :=
  let request_path := before_query path in
  let request_path :=
    match sf_strip_prefix p with
    | Some prefix => default request_path (strip_prefix ("/" +:+ trim_start_char "/"%char prefix)%string request_path)
    | None => request_path
    end in
  if bool_decide (request_path = "/"%string) then sf_local_path p
  else (sf_local_path p +:+ request_path)%string.

(** Response heads; [text_response] is a status line, a type and a text. *)
Definition text_response (status_line body : string) : list byte :=
  as_bytes (status_line +:+ crlf +:+ "Content-Type: text/plain" +:+ crlf +:+ crlf +:+ body)%string.

Definition unauthorized_response : list byte :=
  as_bytes (crlf_lines ["HTTP/1.1 401 Unauthorized";
    "WWW-Authenticate: Basic realm=" +:+ dquote +:+ "frp static file" +:+ dquote;
    "Content-Type: text/plain; charset=utf-8"; "Content-Length: 12"; "Connection: close"] (crlf +:+ "Unauthorized"))%string.

Definition file_head (path : string) (len : Z) : list byte :=
  as_bytes (crlf_lines ["HTTP/1.1 200 OK"; "Content-Type: " +:+ content_type_for path;
    "Content-Length: " +:+ dec len; "Connection: close"] crlf)%string.

(** [conn.write_all(..).await?; Ok(())]. *)
Definition respond (bytes : list byte) (conn : side) : result io_error unit * side := write_all bytes conn.

Definition serve_file (fs : files) (p : StaticFilePlugin) (file_path : string) (conn : side)
  : result io_error unit * side :=
  match canonicalize fs file_path with
  | None => respond (text_response "HTTP/1.1 404 Not Found" "File not found") conn
  | Some path =>
      match canonicalize fs (sf_local_path p) with
      | None => (Err (IoError OtherKind "canonicalize"), conn)
      | Some base =>
          if negb (path_starts_with path base)
          then respond (text_response "HTTP/1.1 403 Forbidden" "Access forbidden") conn
          else if negb (path_exists fs path)
          then respond (text_response "HTTP/1.1 404 Not Found" "File not found") conn
          else if negb (is_file fs path)
          then respond (text_response "HTTP/1.1 403 Forbidden" "Forbidden") conn
          else
            match file_len fs path with
            | Err e => (Err e, conn)
            | Ok len =>
                match write_all (file_head path len) conn with
                | (Err e, conn) => (Err e, conn)
                | (Ok _, conn) =>
                    match file_bytes fs path with
                    | Err e => (Err e, conn)
                    | Ok (bytes, failed) =>
                        match write_all bytes conn with
                        | (Err e, conn) => (Err e, conn)
                        | (Ok _, conn) => (match failed with Some e => Err e | None => Ok tt end, conn)
                        end
                    end
                end
            end
      end
  end.

(** One read of at most 1024 bytes is the request. *)
Definition REQUEST_READ : nat := 1024.

Definition handle_http_request `{Base64} (fs : files) (p : StaticFilePlugin) (conn : side)
  : result io_error unit * side :=
  match read REQUEST_READ conn with
  | (Err e, conn) => (Err e, conn)
  | (Ok bytes, conn) =>
      match str_lines (from_utf8_lossy bytes) with
      | [] => (Err (IoError InvalidData "invalid HTTP request"), conn)
      | (first_line :: _) as lines =>
          match split_whitespace first_line with
          | method :: path :: _ :: _ =>
              if negb (check_basic_auth p lines) then respond unauthorized_response conn
              else if bool_decide (method = "GET"%string)
              then serve_file fs p (build_file_path p path) conn
              else respond (text_response "HTTP/1.1 405 Method Not Allowed" "Method not allowed") conn
          | _ => (Err (IoError InvalidData "invalid HTTP request line"), conn)
          end
      end
  end.

(** ** Credentials *)
Section Credentials.
Context `{Base64}.

(** The encoded text stands for [user:password]; the colon is the first one. *)
Definition encodes (encoded user password : string) : Prop :=
  exists bytes, b64_std (trim encoded) = Ok bytes /\ is_utf8 bytes = true /\
    of_bytes bytes = (user +:+ ":" +:+ password)%string /\ contains_char ":"%char user = false.

Lemma decode_basic_Some encoded user password :
  decode_basic encoded = Some (user, password) <-> encodes encoded user password.
Proof.
  unfold decode_basic, encodes. destruct (b64_std (trim encoded)) as [bytes|e]; [|by split; [|intros (? & ? & _)]].
  destruct (is_utf8 bytes) eqn:Eu; [|by split; [|intros (? & [= <-] & ? & _); congruence]]. split.
  - intros E. exists bytes. split_and!; [done..| |by eapply split_once_colon]. by apply split_once_Some in E.
  - intros (b & [= <-] & _ & E & Hc). rewrite E. by apply (split_once_char ":"%char).
Qed.

(** What a request must carry when a user name is configured. *)
Definition bears (p : StaticFilePlugin) (lines : list string) : Prop :=
  forall user, sf_http_user p = Some user -> exists header encoded,
    line_header "authorization" lines = Some header /\
    (header = ("Basic " +:+ encoded)%string \/ header = ("basic " +:+ encoded)%string) /\
    encodes encoded user (default EmptyString (sf_http_password p)).

Lemma check_basic_auth_true p lines : check_basic_auth p lines = true <-> bears p lines.
Proof.
  unfold check_basic_auth, bears. destruct (sf_http_user p) as [user|]; [|done]. split.
  - intros Hc u [= <-]. destruct (line_header _ lines) as [header|]; [|done].
    destruct (match strip_prefix "Basic " header with Some e => Some e | None => strip_prefix "basic " header end)
      as [enc|] eqn:E; [|done].
    destruct (decode_basic enc) as [[us pw]|] eqn:Ed; [|done]. apply decode_basic_Some in Ed.
    apply andb_true_iff in Hc as [->%str_eq_ct_true ->%str_eq_ct_true]. exists header, enc. split_and!; [done| |done].
    destruct (strip_prefix "Basic " header) eqn:Eb; [injection E as ->; left|right]; by apply strip_prefix_Some.
  - intros Hc. destruct (Hc user eq_refl) as (header & enc & -> & Hh & He). apply decode_basic_Some in He.
    assert (match strip_prefix "Basic " header with Some e => Some e | None => strip_prefix "basic " header end
            = Some enc) as ->.
    { destruct Hh as [-> | ->].
      - by rewrite (proj2 (strip_prefix_Some _ _ enc)).
      - rewrite (proj2 (strip_prefix_Some "basic " _ enc)) by done. done. }
    rewrite He. apply andb_true_iff. by rewrite !str_eq_ct_true.
Qed.

(** ** What an answer depends on *)

(** Two file systems that resolve names alike and have the same files below a
    directory; a path is below it when it is what some name resolves to (so it
    has no [..] and no link left) and starts with its components.  About every
    other path, [base/../secret] included, they may disagree. *)
Definition same_below (base : option string) (fs fs' : files) : Prop :=
  canonicalize fs = canonicalize fs' /\
  forall b name path, base = Some b -> canonicalize fs name = Some path -> path_starts_with path b = true ->
    path_exists fs path = path_exists fs' path /\ is_file fs path = is_file fs' path /\
    file_len fs path = file_len fs' path /\ file_bytes fs path = file_bytes fs' path.

(** C8: Whatever a visitor requests (any method, any path with any number of
    [..], any prefix configured), the answer does not depend on a file outside
    the configured directory: two file systems that resolve names alike, and
    agree on the resolved paths whose components start with those of the
    resolved directory, get the same answers, byte for byte.  Nothing is asked
    of paths that are not resolved, such as the directory's name followed by
    [..] components. *)
Theorem static_file_confined fs fs' p conn :
  same_below (canonicalize fs (sf_local_path p)) fs fs' ->
  handle_http_request fs p conn = handle_http_request fs' p conn.
Proof.
  intros [Hc Hb]. unfold handle_http_request. destruct (read REQUEST_READ conn) as [[bytes|e] conn1]; [|done].
  destruct (str_lines _) as [|first lines]; [done|]. destruct (split_whitespace first) as [|m [|path [|v ws]]]; try done.
  destruct (negb _); [done|]. destruct (bool_decide _); [|done].
  unfold serve_file. rewrite <- Hc. destruct (canonicalize fs (build_file_path p path)) as [file|] eqn:Ef; [|done].
  destruct (canonicalize fs (sf_local_path p)) as [base|]; [|done].
  destruct (path_starts_with file base) eqn:Ep; [|done]. cbn [negb].
  destruct (Hb base _ file eq_refl Ef Ep) as (-> & -> & -> & ->). done.
Qed.

(** With a user name configured, a request that does not carry exactly the
    configured credentials learns nothing of the file system: its answer, the
    401 or an error, is the same on any two. *)
Theorem static_file_private fs fs' p conn :
  (forall bytes conn', read REQUEST_READ conn = (Ok bytes, conn') -> ~ bears p (str_lines (from_utf8_lossy bytes))) ->
  handle_http_request fs p conn = handle_http_request fs' p conn /\
  (forall r conn', handle_http_request fs p conn = (r, conn') ->
     (exists e, r = Err e) \/ sent conn' = sent conn ++ unauthorized_response).
Proof.
  intros Hn. unfold handle_http_request. destruct (read REQUEST_READ conn) as [[bytes|e] conn1] eqn:Er;
    [|by split; [|intros r c [= <- _]; left; eexists]].
  specialize (Hn bytes conn1 eq_refl). rewrite <- check_basic_auth_true in Hn. apply not_true_is_false in Hn.
  destruct (str_lines _) as [|first lines] eqn:El; [by split; [|intros r c [= <- _]; left; eexists]|].
  destruct (split_whitespace first) as [|m [|path [|v ws]]]; 
    try by (split; [|intros r c [= <- _]; left; eexists]). rewrite Hn. cbn [negb]. split; [done|].
  assert (sent conn1 = sent conn) as Hs.
  { unfold read in Er. destruct (segs conn); [by destruct (fin conn); injection Er as _ <-|by injection Er as _ <-]. }
  intros r conn' Hw. unfold respond, write_all in Hw. case_decide; injection Hw as <- <-; [right|left; eauto].
  cbn. by rewrite Hs.
Qed.

(** A [GET] with the credentials asked for, on a path that resolves to a
    file below the directory, is answered with that file: a 200 whose
    [Content-Length] is the length of the bytes that follow. *)
Theorem static_file_served fs p conn bytes conn1 first lines method_path version path file base content :
  read REQUEST_READ conn = (Ok bytes, conn1) -> str_lines (from_utf8_lossy bytes) = first :: lines ->
  split_whitespace first = "GET"%string :: method_path :: version -> version <> [] ->
  bears p (first :: lines) ->
  path = build_file_path p method_path ->
  canonicalize fs path = Some file -> canonicalize fs (sf_local_path p) = Some base ->
  path_starts_with file base = true -> path_exists fs file = true -> is_file fs file = true ->
  file_bytes fs file = Ok (content, None) -> file_len fs file = Ok (zlen content) ->
  zlen (file_head file (zlen content)) + zlen content <= room conn ->
  exists conn', handle_http_request fs p conn = (Ok tt, conn') /\
    sent conn' = sent conn ++ file_head file (zlen content) ++ content.
Proof.
  intros Hr Hl Hw Hv Hb -> Hf Hbase Hin Hex Hfile Hbytes Hlen Hroom. unfold handle_http_request.
  rewrite Hr, Hl, Hw. destruct version as [|v version]; [done|].
  rewrite (proj2 (check_basic_auth_true p (first :: lines)) Hb). cbn [negb]. rewrite bool_decide_eq_true_2 by done.
  unfold serve_file. rewrite Hf, Hbase, Hin, Hex, Hfile, Hlen. cbn [negb].
  assert (sent conn1 = sent conn /\ room conn1 = room conn) as [Hs Hrm].
  { unfold read in Hr. destruct (segs conn); [by destruct (fin conn); injection Hr as _ <-|by injection Hr as _ <-]. }
  rewrite write_all_room by (unfold zlen in *; lia). rewrite Hbytes.
  rewrite write_all_room by (unfold wrote; cbn [room]; unfold zlen in *; lia). cbv beta iota. rewrite wrote_app.
  eexists. split; [done|]. unfold wrote. cbn [sent]. by rewrite Hs.
Qed.
End Credentials.

(** ** Witnesses *)
Definition demo_resolve (p : string) : option string :=
  if bool_decide (p = "/srv/www"%string) then Some "/srv/www"%string
  else if bool_decide (p = "/srv/www/a.txt"%string) then Some "/srv/www/a.txt"%string
  else if bool_decide (p ∈ ["/etc/shadow"; "/srv/www/../../etc/shadow"]%string) then Some "/etc/shadow"%string
  else None.
Definition demo_files (secret : string) : files := {|
  canonicalize := demo_resolve;
  path_exists := fun p => bool_decide (is_Some (demo_resolve p));
  is_file := fun p => negb (bool_decide (p = "/srv/www"%string));
  file_len := fun p => Ok (if bool_decide (demo_resolve p = Some "/etc/shadow"%string) then str_len secret else 5);
  file_bytes := fun p => Ok (if bool_decide (demo_resolve p = Some "/etc/shadow"%string) then as_bytes secret
                             else as_bytes "hello", None);
|}.

Definition demo_static (user : option string) : StaticFilePlugin :=
  {| sf_local_path := "/srv/www"; sf_strip_prefix := Some "/static"%string; sf_http_user := user;
     sf_http_password := Some "pw"%string |}.

Definition request_conn (lines : list string) : side :=
  Side [] [as_bytes (crlf_lines lines crlf)] None [] 1000 false.

Lemma static_file_confined_witness :
  @handle_http_request toy_base64 (demo_files "root:x") (demo_static None) (request_conn ["GET /../../etc/shadow HTTP/1.1"%string]) =
  @handle_http_request toy_base64 (demo_files "root:yy") (demo_static None) (request_conn ["GET /../../etc/shadow HTTP/1.1"%string]).
Proof.
  apply (@static_file_confined toy_base64). split; [reflexivity|]. intros b name path [= <-] Hn Hp.
  cbn [canonicalize demo_files] in Hn.
  assert (path = "/srv/www"%string \/ path = "/srv/www/a.txt"%string) as Hw.
  { unfold demo_resolve in Hn. repeat case_bool_decide; try discriminate; injection Hn as <-; auto.
    vm_compute in Hp. discriminate. }
  destruct Hw as [-> | ->]; repeat split; vm_compute; reflexivity.
Defined.

Lemma static_file_private_witness :
  @handle_http_request toy_base64 (demo_files "root:x") (demo_static (Some "u"%string))
    (request_conn ["GET /static/a.txt HTTP/1.1"; "Authorization: Basic u:wrong"]%string) =
  @handle_http_request toy_base64 (demo_files "root:yy") (demo_static (Some "u"%string))
    (request_conn ["GET /static/a.txt HTTP/1.1"; "Authorization: Basic u:wrong"]%string).
Proof.
  apply (@static_file_private toy_base64). intros bytes conn' E Hb. apply check_basic_auth_true in Hb. revert Hb.
  vm_compute in E. injection E as <- <-. vm_compute. congruence.
Defined.

Lemma static_file_served_witness : exists conn',
  @handle_http_request toy_base64 (demo_files "root:x") (demo_static (Some "u"%string))
    (request_conn ["GET /static/a.txt HTTP/1.1"; "Authorization: Basic u:pw"]%string) = (Ok tt, conn') /\
  sent conn' = [] ++ file_head "/srv/www/a.txt" 5 ++ as_bytes "hello".
Proof.
  apply (@static_file_served toy_base64 (demo_files "root:x") (demo_static (Some "u"%string))
    (request_conn ["GET /static/a.txt HTTP/1.1"; "Authorization: Basic u:pw"]%string)
    (as_bytes (crlf_lines ["GET /static/a.txt HTTP/1.1"; "Authorization: Basic u:pw"]%string crlf))
    (Side [] [] None [] 1000 false) "GET /static/a.txt HTTP/1.1" ["Authorization: Basic u:pw"; EmptyString]%string
    "/static/a.txt" ["HTTP/1.1"%string] "/srv/www/a.txt" "/srv/www/a.txt" "/srv/www" (as_bytes "hello"));
    [vm_compute; reflexivity|vm_compute; reflexivity|vm_compute; reflexivity|discriminate| |..].
  - apply check_basic_auth_true. vm_compute. reflexivity.
  - vm_compute. reflexivity.
  - vm_compute. reflexivity.
  - vm_compute. reflexivity.
  - vm_compute. reflexivity.
  - vm_compute. reflexivity.
  - vm_compute. reflexivity.
  - vm_compute. reflexivity.
  - vm_compute. reflexivity.
  - vm_compute. discriminate.
Defined.

(** A password without a user name asks for nothing. *)
Lemma password_alone_is_anonymous `{Base64} p lines : sf_http_user p = None -> check_basic_auth p lines = true.
Proof. unfold check_basic_auth. by intros ->. Qed.

(** The answer tells whether a path outside the directory exists: refused if it
    does, not found if it does not. *)
Lemma outside_names_told fs p file base conn path : canonicalize fs path = Some file ->
  canonicalize fs (sf_local_path p) = Some base -> path_starts_with file base = false ->
  serve_file fs p path conn = respond (text_response "HTTP/1.1 403 Forbidden" "Access forbidden") conn.
Proof. unfold serve_file. by intros -> -> ->. Qed.

(** A prefix that ends with a slash takes the slash of the file's path too. *)
Lemma slash_prefix_joins_names : build_file_path
  {| sf_local_path := "/srv/www"; sf_strip_prefix := Some "static/"%string; sf_http_user := None;
     sf_http_password := None |} "/static/a.txt" = "/srv/wwwa.txt"%string.
Proof. vm_compute. reflexivity. Qed.
