(* ===== verification/HttpProxy.v ===== *)
(** * The HTTP proxy plugin (src/rust_frp_plugin/src/lib.rs [HttpProxyPlugin])

    [CONNECT] tunnels and plain forwarding with absolute or origin-form
    targets.  Connecting, TLS and [copy_bidirectional] are arguments; what is
    dialled is recorded with the request it is dialled for, so that the
    theorems can say who may make the plugin dial and what the dialled server
    is told. *)
From S2P Require Import Prelude RustStd RustFmt Utf8 ConfigTypes Transport Secrets Auth Routers HttpClient HttpText.
From S2P Require Import HttpHead HttpBridge StaticFile.

Record HttpProxyPlugin := { hp_user : option string; hp_password : option string }.

Definition http_proxy_new (c : PluginConfig) : HttpProxyPlugin :=
  {| hp_user := pl_http_user c; hp_password := pl_http_password c |}.

Definition is_anonymous (p : HttpProxyPlugin) : bool :=
  match hp_user p, hp_password p with None, None => true | _, _ => false end.

Definition check_proxy_auth_value `{Base64} (p : HttpProxyPlugin) (header : option string) : bool :=
  if is_anonymous p then true else
  match header with
  | None => false
  | Some header =>
      match split_once " " header with
      | None => false
      | Some (scheme, encoded) =>
          if negb (eq_ignore_ascii_case scheme "basic") then false else
          match decode_basic encoded with
          | Some (user, password) =>
              str_eq_ct user (default EmptyString (hp_user p)) && str_eq_ct password (default EmptyString (hp_password p))
          | None => false
          end
      end
  end.

Definition check_proxy_auth `{Base64} (p : HttpProxyPlugin) (lines : list string) : bool :=
  check_proxy_auth_value p (line_header "proxy-authorization" lines).

(** ** Where a request goes *)
Record ResolvedTarget := { rt_https : bool; rt_authority : string; rt_path : string; rt_host_header : string }.

Definition default_port (t : ResolvedTarget) : Z := if rt_https t then 443 else 80.

Definition resolve_forward_target (request : Request) : option ResolvedTarget :=
  let target := q_target request in
  match split_once "://" target with
  | Some (scheme, rest) =>
      https ← (if bool_decide (to_ascii_lowercase scheme = "http"%string) then Some false
               else if bool_decide (to_ascii_lowercase scheme = "https"%string) then Some true else None);
      let '(authority, path) := match split_once "/" rest with
                                | Some (a, p) => (a, String "/"%char p)
                                | None => (rest, "/"%string)
                                end in
      if is_empty authority then None else
      Some {| rt_https := https; rt_authority := authority; rt_path := path;
              rt_host_header := default authority (header request "host") |}
  | None =>
      if starts_with "/" target then
        host ← trim <$> header request "host";
        if is_empty host then None else
        Some {| rt_https := false; rt_authority := host; rt_path := target; rt_host_header := host |}
      else None
  end.

(** The address [connect_target] dials. *)
Definition target_addr (t : ResolvedTarget) : string :=
  if contains_char ":"%char (rt_authority t) && negb (starts_with "[" (rt_authority t))
  then rt_authority t
  else (rt_authority t +:+ ":" +:+ dec (default_port t))%string.

Definition HOP_BY_HOP : list string :=
  ["connection"; "proxy-connection"; "proxy-authenticate"; "proxy-authorization"; "te"; "trailers"; "upgrade"]%string.

Fixpoint proxy_headers (host_header : string) (headers : headers_t) : headers_t :=
  match headers with
  | [] => []
  | (k, v) :: headers =>
      let lower := to_ascii_lowercase k in
      if bool_decide (lower ∈ HOP_BY_HOP) then proxy_headers host_header headers
      else if bool_decide (lower = "host"%string) then ("Host"%string, host_header) :: proxy_headers host_header headers
      else (k, v) :: proxy_headers host_header headers
  end.

Definition forwarded_headers (request : Request) (t : ResolvedTarget) : headers_t :=
  proxy_headers (rt_host_header t) (q_headers request) ++
  (if existsb (named "host") (q_headers request) then [] else [("Host"%string, rt_host_header t)]) ++
  [("Connection"%string, "close"%string)].

Definition build_proxy_request_head (request : Request) (t : ResolvedTarget) : string :=
  head_text (request_line (q_method request) (rt_path t)) (forwarded_headers request t).

(** ** Responses of its own *)
Definition reject_response (status body : string) : list byte :=
  as_bytes (crlf_lines (("HTTP/1.1 " +:+ status) ::
    (if starts_with "407" status
     then ["Proxy-Authenticate: Basic realm=" +:+ dquote +:+ "frp http proxy" +:+ dquote] else []) ++
    ["Content-Type: text/plain; charset=utf-8"; "Content-Length: " +:+ dec (str_len body); "Connection: close"])
    (crlf +:+ body))%string.

Definition reject_407 : list byte :=
  reject_response "407 Proxy Authentication Required" "proxy authentication required".

Definition bad_gateway : list byte :=
  as_bytes (crlf_lines ["HTTP/1.1 502 Bad Gateway"; "Content-Length: 0"; "Connection: close"] crlf)%string.
Definition established : list byte := as_bytes (crlf_lines ["HTTP/1.1 200 Connection Established"] crlf)%string.

(** A connection made: the address, the request it was made for ([None] for a
    tunnel), and its end. *)
Record dialled := { d_addr : string; d_request : option Request; d_side : side }.

Definition outcome : Type := result io_error unit * side * list dialled.

Section Handle.
Context `{Base64}.
(** [TcpStream::connect] for the [k]-th connection, a TLS client with the
    built-in roots for a server name, and [copy_bidirectional]. *)
Context (connect : nat -> string -> result io_error side)
        (tls : string -> side -> result io_error side)
        (copy_bidirectional : side -> side -> result io_error unit * side * side).

Definition reject (response : list byte) (conn : side) (ds : list dialled) : option outcome :=
  let '(r, conn) := write_all response conn in Some (r, conn, ds).

(** A connection counts as dialled when the target can be used; one that is made
    and whose TLS handshake then fails is an error and carries nothing. *)
Definition connect_target (k : nat) (t : ResolvedTarget) : result io_error side :=
  tcp ← connect k (target_addr t);
  if rt_https t then tls (host_part (rt_authority t)) tcp else Ok tcp.

Definition handle_connect (conn : side) (target : string) : option outcome :=
  match connect 0 target with
  | Err _ => reject bad_gateway conn []
  | Ok target_conn =>
      match write_all established conn with
      | (Err e, conn) => Some (Err e, conn, [{| d_addr := target; d_request := None; d_side := target_conn |}])
      | (Ok _, conn) =>
          (* the bytes read past the head go first *)
          match (if decide (pending conn = []) then (Ok tt, target_conn) else write_all (pending conn) target_conn) with
          | (Err e, t) => Some (Err e, conn, [{| d_addr := target; d_request := None; d_side := t |}])
          | (Ok _, t) =>
              let '(r, conn, t) := copy_bidirectional (set_pending [] conn) t in
              Some (r, conn, [{| d_addr := target; d_request := None; d_side := t |}])
          end
      end
  end.

Fixpoint handle_plain_http (fuel : nat) (p : HttpProxyPlugin) (request : Request) (conn : side)
  (ds : list dialled) : option outcome :=
  match fuel with
  | O => None
  | S fuel =>
      match resolve_forward_target request with
      | None => reject (reject_response "400 Bad Request"
                  "cannot resolve proxy target (absolute URL or Host header required)") conn ds
      | Some resolved =>
          match connect_target (length ds) resolved with
          | Err _ => reject (reject_response "502 Bad Gateway" "cannot reach proxy target") conn ds
          | Ok target =>
              '(r, (conn, target)) ← exchange (build_proxy_request_head request resolved) request (conn, target);
              let ds := ds ++ [{| d_addr := target_addr resolved; d_request := Some request; d_side := target |}] in
              match r with
              | Err e => Some (Err e, conn, ds)
              | Ok Done => Some (Ok tt, conn, ds)
              | Ok Continue =>
                  '(r, conn) ← read_head conn;
                  match r with
                  | Err e => Some (Err e, conn, ds)
                  | Ok None => Some (Ok tt, conn, ds)
                  | Ok (Some next_head) =>
                      match parse_request next_head with
                      | Err e => Some (Err e, conn, ds)
                      | Ok next =>
                          if negb (check_proxy_auth_value p (header next "proxy-authorization"))
                          then reject reject_407 conn ds
                          else handle_plain_http fuel p next conn ds
                      end
                  end
              end
          end
      end
  end.

Definition handle_http_proxy_request (p : HttpProxyPlugin) (conn : side) : option outcome :=
  '(r, conn) ← read_head conn;
  match r with
  | Err e => Some (Err e, conn, [])
  | Ok None => Some (Ok tt, conn, [])
  | Ok (Some head_bytes) =>
      match str_lines (from_utf8_lossy head_bytes) with
      | [] => reject (reject_response "400 Bad Request" "invalid HTTP request") conn []
      | (first_line :: _) as lines =>
          match split_whitespace first_line with
          | method :: target :: _ :: _ =>
              if negb (check_proxy_auth p lines) then reject reject_407 conn []
              else if eq_ignore_ascii_case method "CONNECT" then handle_connect conn target
              else
                match parse_request head_bytes with
                | Err e => Some (Err e, conn, [])
                | Ok request => handle_plain_http (fuel_of conn) p request conn []
                end
          | _ => reject (reject_response "400 Bad Request" "invalid HTTP request line") conn []
          end
      end
  end.
End Handle.

(** ** What the dialled server is told *)
Lemma hop_names n : n ∈ HOP_BY_HOP ->
  (n = "connection" \/ n = "proxy-connection" \/ n = "proxy-authenticate" \/ n = "proxy-authorization" \/
   n = "te" \/ n = "trailers" \/ n = "upgrade")%string.
Proof. intros H%list_elem_of_In. cbn in H. naive_solver. Qed.

Lemma framing_part_proxy h hs : framing_part (proxy_headers h hs) = framing_part hs.
Proof.
  assert (forall v, framing_header ("Host"%string, v) = false) as Hhost by done.
  induction hs as [|[k v] hs IH]; [done|]. cbn [proxy_headers]. rewrite (framing_part_cons (k, v)).
  case_bool_decide as H1; [|case_bool_decide as H2].
  - assert (neutral k) as Hk.
    { apply hop_names in H1. destruct_or! H1; match type of H1 with _ = ?n => by apply (neutral_lower n); [rewrite H1|] end. }
    rewrite framing_header_key, Hk. exact IH.
  - assert (neutral k) as Hk by (by apply (neutral_lower "host")).
    rewrite framing_part_cons, Hhost, framing_header_key, Hk. exact IH.
  - rewrite framing_part_cons, IH. done.
Qed.

Lemma proxy_headers_good h hs : good_value h -> Forall good_header hs -> Forall good_header (proxy_headers h hs).
Proof.
  intros Hh. induction 1 as [|[k v] hs Hkv _ IH]; [done|]. cbn [proxy_headers].
  case_bool_decide; [done|]. case_bool_decide; (constructor; [|done]); [by apply host_good|done].
Qed.

(** Nothing under a name of the list is passed on. *)
Lemma proxy_headers_hop h hs n : n ∈ HOP_BY_HOP -> header_of (proxy_headers h hs) n = None.
Proof.
  intros Hn. assert (to_ascii_lowercase n = n /\ n <> "host"%string) as [Hl Hne].
  { apply hop_names in Hn. destruct_or! Hn; by rewrite Hn. }
  induction hs as [|[k v] hs IH]; [done|]. cbn [proxy_headers]. case_bool_decide as H1; [done|].
  case_bool_decide as H2; unfold header_of in *; cbn [List.find fst].
  - assert (eq_ignore_ascii_case "Host" n = false) as ->; [|exact IH].
    apply bool_decide_eq_false. rewrite Hl. by intros <-.
  - assert (eq_ignore_ascii_case k n = false) as ->; [|exact IH].
    apply bool_decide_eq_false. rewrite Hl. intros E. by rewrite E in H1.
Qed.

Lemma proxy_headers_host h hs : header_of (proxy_headers h hs) "host" = (fun _ => h) <$> header_of hs "host".
Proof.
  assert (Hk : forall k b, eq_ignore_ascii_case k "host" = b <-> bool_decide (to_ascii_lowercase k = "host"%string) = b) by done.
  induction hs as [|[k v] hs IH]; [done|]. cbn [proxy_headers]. unfold header_of in *. cbn [List.find fst].
  case_bool_decide as H1; [|case_bool_decide as H2].
  - assert (eq_ignore_ascii_case k "host" = false) as ->; [|exact IH].
    apply Hk, bool_decide_eq_false. intros E. rewrite E in H1. apply hop_names in H1. by destruct_or! H1.
  - assert (eq_ignore_ascii_case k "host" = true) as -> by (by apply Hk, bool_decide_eq_true). done.
  - assert (eq_ignore_ascii_case k "host" = false) as E by (by apply Hk, bool_decide_eq_false).
    cbn [List.find fst]. rewrite E. exact IH.
Qed.

(** The parts of a target are one line each, without white space at the ends. *)
Lemma resolved_good r t : good_request r -> resolve_forward_target r = Some t ->
  rt_path t <> EmptyString /\ solid (rt_path t) = true /\ good_value (rt_host_header t).
Proof.
  intros (_ & _ & Hne & Hs & Hh). unfold resolve_forward_target.
  assert (good_host : forall v, header r "host" = Some v -> good_value v).
  { intros v. unfold header, header_of. destruct (List.find _ _) as [[k w]|] eqn:E; [|done]. intros [= ->].
    apply List.find_some in E as [Hin _]. apply list_elem_of_In in Hin. rewrite Forall_forall in Hh.
    by destruct (Hh _ Hin) as (_ & _ & _ & ? & ?). }
  destruct (split_once "://" (q_target r)) as [[scheme rest]|] eqn:Es.
  - intros (https & _ & E)%bind_Some. apply split_once_Some in Es. rewrite Es in Hs.
    apply solid_app in Hs. apply solid_app in Hs.
    assert (exists a p, (match split_once "/" rest with Some (a, p) => (a, String "/"%char p) | None => (rest, "/"%string) end)
      = (a, p) /\ p <> EmptyString /\ solid p = true /\ solid a = true) as (a & p & Eap & Hp & Sp & Sa).
    { destruct (split_once "/" rest) as [[a p]|] eqn:Er; [|by exists rest, "/"%string].
      apply split_once_Some in Er. rewrite Er in Hs. exists a, (String "/"%char p). split_and!; try done.
      - by apply solid_app in Hs.
      - by apply solid_prefix in Hs. }
    rewrite Eap in E. destruct (is_empty a); [done|]. injection E as <-. cbn [rt_path rt_host_header].
    split_and!; [done..|]. destruct (header r "host") as [v|] eqn:Ev; [by apply good_host|].
    split; [by apply solid_trim|by apply solid_no_crlf].
  - destruct (starts_with "/" (q_target r)); [|done]. intros (h & Eh & E)%bind_Some.
    destruct (is_empty h); [done|]. injection E as <-. cbn [rt_path rt_host_header]. split_and!; [done..|].
    apply fmap_Some in Eh as (v & Ev & ->). apply good_host in Ev as [Ht Hn]. rewrite Ht. by split.
Qed.

(** What the proxy sends to the server it dialled, read by the proxy's own
    rules, is the visitor's request with the path of the resolved target: a
    body that ends at the same byte, the resolved [Host], [Connection: close],
    and no header that is meant for the proxy: no credentials, no [TE], no
    [Upgrade]. *)
Theorem proxied_head_agrees head r t : parse_request head = Ok r -> resolve_forward_target r = Some t ->
  exists r', request_of (parse_head_text (build_proxy_request_head r t)) = Ok r' /\
    q_method r' = q_method r /\ q_target r' = rt_path t /\
    request_framing r' = request_framing r /\ keep_alive r' = false /\
    header r' "host" = Some (rt_host_header t) /\
    (forall n, n ∈ HOP_BY_HOP -> n <> "connection"%string -> header r' n = None).
Proof.
  intros Hp Ht. pose proof (parse_request_good _ _ Hp) as Hg. destruct (resolved_good _ _ Hg Ht) as (Hpn & Sp & Hh).
  destruct Hg as (Hm & Sm & _ & _ & Hhs). eexists. split; [apply request_printed; [done..|]|].
  { unfold forwarded_headers. rewrite !Forall_app. split_and!; [by apply proxy_headers_good| |by repeat constructor].
    destruct (existsb _ _); [done|]. constructor; [by apply host_good|done]. }
  cbn [q_method q_target]. split; [done|]. split; [done|]. unfold request_framing, keep_alive, header; cbn [q_headers q_http10].
  unfold forwarded_headers. split_and!.
  - rewrite headers_framing_part, !framing_part_app, framing_part_proxy, (headers_framing_part (q_headers r)).
    f_equal. destruct (existsb _ _); apply app_nil_r.
  - rewrite header_of_app, proxy_headers_hop by (by left). by destruct (existsb _ _).
  - rewrite header_of_app, proxy_headers_host, existsb_header. by destruct (header_of (q_headers r) "host").
  - intros n Hn Hc. rewrite header_of_app, proxy_headers_hop by done.
    apply hop_names in Hn. destruct_or! Hn; subst n; [done|by destruct (existsb _ _)..].
Qed.

(** ** Who may make the plugin dial *)
Section Credentials.
Context `{Base64}.
Context (connect : nat -> string -> result io_error side)
        (tls : string -> side -> result io_error side)
        (copy_bidirectional : side -> side -> result io_error unit * side * side).

(** A [Proxy-Authorization] value with the configured name and password. *)
Definition grants (p : HttpProxyPlugin) (header : option string) : Prop := exists value scheme encoded,
  header = Some value /\ value = (scheme +:+ " " +:+ encoded)%string /\ to_ascii_lowercase scheme = "basic"%string /\
  encodes encoded (default EmptyString (hp_user p)) (default EmptyString (hp_password p)).

Lemma check_value_grants p header : is_anonymous p = false -> check_proxy_auth_value p header = true -> grants p header.
Proof.
  unfold check_proxy_auth_value, grants. intros ->. destruct header as [value|]; [|done].
  destruct (split_once " " value) as [[scheme encoded]|] eqn:Es; [|done].
  destruct (eq_ignore_ascii_case scheme "basic") eqn:Eb; [|done]. cbn [negb].
  destruct (decode_basic encoded) as [[u pw]|] eqn:Ed; [|done].
  intros [->%str_eq_ct_true ->%str_eq_ct_true]%andb_true_iff. exists value, scheme, encoded.
  split_and!; [done|by apply split_once_Some in Es|by apply bool_decide_eq_true in Eb|by apply decode_basic_Some].
Qed.

(** A connection made for a request that carried the credentials itself. *)
Definition dialled_with (p : HttpProxyPlugin) (d : dialled) : Prop :=
  exists r, d_request d = Some r /\ grants p (header r "proxy-authorization").

(** The loop dials for its first request and for those that are granted. *)
Lemma plain_http_dials p : is_anonymous p = false -> forall fuel request conn ds r conn' ds',
  handle_plain_http connect tls fuel p request conn ds = Some (r, conn', ds') ->
  ds' = ds \/ exists d more, ds' = ds ++ d :: more /\ d_request d = Some request /\ Forall (dialled_with p) more.
Proof.
  intros Hp. induction fuel as [|fuel IH]; intros request conn ds r conn' ds'; cbn [handle_plain_http]; [done|].
  unfold reject. destruct (resolve_forward_target request) as [t|].
  2:{ destruct (write_all _ conn). intros [= _ _ ->]. by left. }
  destruct (connect_target connect tls (length ds) t) as [target|e].
  2:{ destruct (write_all _ conn). intros [= _ _ ->]. by left. }
  destruct (exchange _ request (conn, target)) as [[r1 [c1 t1]]|]; [|done]. cbn [mbind option_bind].
  set (d := {| d_addr := target_addr t; d_request := Some request; d_side := t1 |}).
  assert (one : forall ds', ds' = ds ++ [d] ->
    ds' = ds \/ exists d more, ds' = ds ++ d :: more /\ d_request d = Some request /\ Forall (dialled_with p) more).
  { intros l ->. right. by exists d, []. }
  destruct r1 as [[|]|e]; [|by intros [= _ _ <-]; apply one..].
  destruct (read_head c1) as [[[[h|]|e] c2]|]; [|by intros [= _ _ <-]; apply one..|done]. cbn [mbind option_bind].
  destruct (parse_request h) as [next|e]; [|by intros [= _ _ <-]; apply one].
  destruct (check_proxy_auth_value p _) eqn:Ec; cbn [negb].
  - intros E. right. apply IH in E. apply (check_value_grants p _ Hp) in Ec.
    destruct E as [->|(d' & more & -> & Hd & Hm)]; [by exists d, []|].
    exists d, (d' :: more). rewrite <- app_assoc. split_and!; [done..|]. constructor; [|done]. by exists next.
  - destruct (write_all reject_407 c2). intros [= _ _ <-]. by apply one.
Qed.

(** C9: With a user name or a password configured, the plugin dials nothing
    unless the first head it reads carries both exactly; and every further
    request on the connection that makes it dial carries them again. *)
Theorem proxy_dials_for_credentials p conn r conn' ds :
  is_anonymous p = false ->
  handle_http_proxy_request connect tls copy_bidirectional p conn = Some (r, conn', ds) ->
  ds = [] \/ exists head conn1 d more,
    read_head conn = Some (Ok (Some head), conn1) /\
    grants p (line_header "proxy-authorization" (str_lines (from_utf8_lossy head))) /\
    ds = d :: more /\ Forall (dialled_with p) more.
Proof.
  intros Hp. unfold handle_http_proxy_request, reject.
  destruct (read_head conn) as [[[[head|]|e] c1]|]; [|by intros [= _ _ <-]; left..|done]. cbn [mbind option_bind].
  destruct (str_lines _) as [|first lines] eqn:El; [destruct (write_all _ c1); intros [= _ _ <-]; by left|].
  destruct (split_whitespace first) as [|m [|target [|v ws]]];
    try (destruct (write_all _ c1); intros [= _ _ <-]; by left).
  destruct (check_proxy_auth p (first :: lines)) eqn:Ec; cbn [negb];
    [|destruct (write_all _ c1); intros [= _ _ <-]; by left].
  apply (check_value_grants p _ Hp) in Ec. intros E.
  enough (ds = [] \/ exists d more, ds = d :: more /\ Forall (dialled_with p) more) as [->|(d & more & -> & Hm)].
  { by left. }
  { right. exists head, c1, d, more. by rewrite El. }
  destruct (eq_ignore_ascii_case m "CONNECT").
  - revert E. unfold handle_connect, reject. destruct (connect 0%nat target) as [t|e].
    2:{ destruct (write_all _ c1). intros [= _ _ <-]. by left. }
    destruct (write_all established c1) as [[u|e] c2]; [|intros [= _ _ <-]; right; by eexists _, []].
    destruct (if decide (pending c2 = []) then _ else _) as [[u'|e] t2]; [|intros [= _ _ <-]; right; by eexists _, []].
    destruct (copy_bidirectional _ t2) as [[r3 c3] t3]. intros [= _ _ <-]. right. by eexists _, [].
  - destruct (parse_request head) as [request|e]; [|injection E as _ _ <-; by left].
    apply (plain_http_dials p Hp) in E as [->|(d & more & -> & _ & Hm)]; [by left|]. right. eauto.
Qed.

(** The proxy's loop returns on any input: every turn after the first has
    read another head. *)
Theorem proxy_returns p conn : is_Some (handle_http_proxy_request connect tls copy_bidirectional p conn).
Proof.
  unfold handle_http_proxy_request, reject. destruct (read_head_ends conn) as (r & c1 & -> & _ & _). cbn [mbind option_bind].
  destruct r as [[head|]|e]; [|by eexists..]. destruct (str_lines _) as [|first lines]; [destruct (write_all _ c1); by eexists|].
  destruct (split_whitespace first) as [|m [|target [|v ws]]]; try (destruct (write_all _ c1); by eexists).
  destruct (negb _); [destruct (write_all _ c1); by eexists|]. destruct (eq_ignore_ascii_case m "CONNECT").
  - unfold handle_connect, reject. destruct (connect 0%nat target) as [t|e]; [|destruct (write_all _ c1); by eexists].
    destruct (write_all established c1) as [[u|e] c2]; [|by eexists].
    destruct (if decide (pending c2 = []) then _ else _) as [[u'|e] t2]; [|by eexists].
    destruct (copy_bidirectional _ t2) as [[r3 c3] t3]. by eexists.
  - destruct (parse_request head) as [request|e]; [|by eexists].
    assert (length (avail c1) < fuel_of c1)%nat as Hf by (unfold fuel_of; lia). revert Hf.
    generalize (fuel_of c1) as fuel, (@nil dialled) as ds. intros fuel. revert request c1.
    induction fuel as [|fuel IH]; intros request c1 ds Hf; [lia|]. cbn [handle_plain_http]. unfold reject.
    destruct (resolve_forward_target request) as [t|]; [|destruct (write_all _ c1); by eexists].
    destruct (connect_target _ _ _ t) as [tc|e]; [|destruct (write_all _ c1); by eexists].
    destruct (exchange_ends (build_proxy_request_head request t) request c1 tc) as (r & c2 & t2 & -> & Hle).
    cbn [mbind option_bind]. destruct r as [[|]|e]; [|by eexists..].
    destruct (read_head_ends c2) as (r & c3 & -> & _ & Hlt). cbn [mbind option_bind].
    destruct r as [[h|]|e]; [|by eexists..]. specialize (Hlt h eq_refl).
    destruct (parse_request h) as [next|e]; [|by eexists]. destruct (negb _); [destruct (write_all _ c3); by eexists|].
    apply IH. lia.
Qed.
End Credentials.

(** ** Witnesses *)
Definition demo_proxy_head : list byte := as_bytes (crlf_lines
  ["GET http://shop.example.com/a?b HTTP/1.1"; "Host: shop.example.com"; "Proxy-Authorization: Basic u:pw";
   "TE: trailers"; "Connection: keep-alive"] crlf)%string.

Definition demo_proxy_request : Request :=
  {| q_method := "GET"; q_target := "http://shop.example.com/a?b"; q_http10 := false;
     q_headers := [("Host", "shop.example.com"); ("Proxy-Authorization", "Basic u:pw"); ("TE", "trailers");
                   ("Connection", "keep-alive")] |}%string.

Definition demo_target : ResolvedTarget :=
  {| rt_https := false; rt_authority := "shop.example.com"; rt_path := "/a?b"; rt_host_header := "shop.example.com" |}.

Lemma proxied_head_agrees_witness : exists r',
  request_of (parse_head_text (build_proxy_request_head demo_proxy_request demo_target)) = Ok r' /\
  q_target r' = "/a?b"%string /\ keep_alive r' = false /\ header r' "host" = Some "shop.example.com"%string /\
  header r' "proxy-authorization" = None.
Proof.
  destruct (proxied_head_agrees demo_proxy_head demo_proxy_request demo_target) as (r' & E & _ & Ht & _ & Hk & Hh & Hn).
  - vm_compute. reflexivity.
  - vm_compute. reflexivity.
  - exists r'. split; [exact E|]. split; [exact Ht|]. split; [exact Hk|]. split; [exact Hh|].
    apply Hn; [|discriminate]. right. right. right. left.
Defined.

Definition demo_proxy : HttpProxyPlugin := {| hp_user := Some "u"%string; hp_password := Some "pw"%string |}.
Definition demo_server (k : nat) (addr : string) : result io_error side :=
  Ok (Side [] [as_bytes (crlf_lines ["HTTP/1.1 200 OK"; "Content-Length: 2"] crlf)%string; as_bytes "ok"] None [] 1000 false).
Definition no_tls (name : string) (s : side) : result io_error side := Ok s.
Definition no_tunnel (a b : side) : result io_error unit * side * side := (Ok tt, a, b).
Definition demo_proxy_conn : side := Side [] [demo_proxy_head] None [] 1000 false.

Lemma demo_proxy_dials : exists r conn' d,
  @handle_http_proxy_request toy_base64 demo_server no_tls no_tunnel demo_proxy demo_proxy_conn = Some (r, conn', [d]).
Proof. eexists _, _, _. vm_compute. reflexivity. Qed.

Lemma proxy_dials_for_credentials_witness :
  exists head conn1, read_head demo_proxy_conn = Some (Ok (Some head), conn1) /\
    @grants toy_base64 demo_proxy (line_header "proxy-authorization" (str_lines (from_utf8_lossy head))).
Proof.
  destruct demo_proxy_dials as (r & conn' & d & E).
  destruct (@proxy_dials_for_credentials toy_base64 demo_server no_tls no_tunnel demo_proxy demo_proxy_conn r conn' [d]
    eq_refl E) as [Hn|(head & conn1 & _ & _ & Hr & Hg & _)]; [discriminate|].
  exists head, conn1. split; [exact Hr|exact Hg].
Defined.

(** ** Targets that are not resolved as meant *)

(** An origin-form target whose query holds a URL is taken for an absolute one,
    with a scheme that is none. *)
Lemma url_in_query_refused host : resolve_forward_target
  {| q_method := "GET"; q_target := "/login?next=https://example.com/"; q_http10 := false;
     q_headers := [("Host"%string, host)] |} = None.
Proof. vm_compute. reflexivity. Qed.

(** A bracketed IPv6 authority gets the default port after its own. *)
Lemma ipv6_port_twice https : target_addr
  {| rt_https := https; rt_authority := "[::1]:8080"; rt_path := "/"; rt_host_header := "h" |} =
  if https then "[::1]:8080:443"%string else "[::1]:8080:80"%string.
Proof. by destruct https. Qed.

(** Without a port the TLS name is not the server's. *)
Lemma tls_name_without_port tls (c : side) :
  connect_target (fun _ _ => Ok c) tls 0
    {| rt_https := true; rt_authority := "example.com"; rt_path := "/"; rt_host_header := "example.com" |} =
  tls "localhost"%string c.
Proof. done. Qed.
