(* ===== verification/Socks5.v ===== *)
(** * The SOCKS5 plugin (src/rust_frp_plugin/src/lib.rs [Socks5Plugin])

    Method negotiation and the request of RFC 1928, the user name and password
    of RFC 1929, then a bridge to the target.  The negotiation is a computation
    on a connection; the theorems say that a client following the RFCs reaches
    exactly the address it asked for, that nothing past its request is
    consumed, and that no target is dialled without the configured
    credentials. *)
From S2P Require Import Prelude RustStd RustFmt Utf8 ConfigTypes Transport IoConn Secrets ProxyProto HttpHead.

#[global] Instance io_fmap E : FMap (io E) := fun A B f m c => let '(r, c) := m c in (f <$> r, c).

Record Socks5Plugin := { s5_username : option string; s5_password : option string }.

Definition socks5_new (c : PluginConfig) : Socks5Plugin :=
  {| s5_username := pl_username c; s5_password := pl_password c |}.

Definition needs_auth (p : Socks5Plugin) : bool :=
  match s5_username p, s5_password p with None, None => false | _, _ => true end.

Definition NO_AUTH : byte := Byte.x00.
Definition USER_PASS : byte := Byte.x02.

Definition select_method (methods : list byte) (need_auth : bool) : option byte :=
  if need_auth then (if bool_decide (USER_PASS ∈ methods) then Some USER_PASS else None)
  else if bool_decide (NO_AUTH ∈ methods) then Some NO_AUTH else None.

Definition verify_credentials (p : Socks5Plugin) (user password : list byte) : bool :=
  constant_time_eq user (as_bytes (default EmptyString (s5_username p))) &&
  constant_time_eq password (as_bytes (default EmptyString (s5_password p))).

Definition socks5_reply (rep : byte) : list byte :=
  [Byte.x05; rep; Byte.x00; Byte.x01; Byte.x00; Byte.x00; Byte.x00; Byte.x00; Byte.x00; Byte.x00].

(** One byte of the connection; the [n] bytes a length byte announces. *)
Definition read_byte : io io_error byte := bs ← read_n 1; mret (default Byte.x00 (head bs)).
Definition read_counted : io io_error (list byte) := n ← read_byte; read_n (Z.to_nat (b2z n)).

Definition negotiate_method (p : Socks5Plugin) : io io_error byte :=
  ver ← read_byte;
  nmethods ← read_byte;
  if negb (bool_decide (ver = Byte.x05)) then fail (invalid_input "invalid SOCKS5 version") else
  if bool_decide (nmethods = Byte.x00) then
    _ ← write_all [Byte.x05; Byte.xff];
    fail (invalid_input "SOCKS5 client offered no auth methods")
  else
    methods ← read_n (Z.to_nat (b2z nmethods));
    match select_method methods (needs_auth p) with
    | None => _ ← write_all [Byte.x05; Byte.xff]; fail (invalid_input "no acceptable SOCKS5 auth method")
    | Some method => _ ← write_all [Byte.x05; method]; mret method
    end.

(** The sub-negotiation; [false] when the credentials are refused. *)
Definition authenticate (p : Socks5Plugin) : io io_error bool :=
  auth_ver ← read_byte;
  user ← read_counted;
  password ← read_counted;
  if negb (bool_decide (auth_ver = Byte.x01)) then
    _ ← write_all [Byte.x01; Byte.x01];
    fail (invalid_input "invalid SOCKS5 auth version")
  else if negb (verify_credentials p user password) then
    _ ← write_all [Byte.x01; Byte.x01]; mret false
  else _ ← write_all [Byte.x01; Byte.x00]; mret true.

Definition ipv4_octets (b : list byte) : string := str_join "." ((fun x => dec (b2z x)) <$> b).

Definition read_target : io io_error string :=
  req ← read_n 4;
  match req with
  | [ver; cmd; _; atyp] =>
      if negb (bool_decide (ver = Byte.x05)) then fail (invalid_input "invalid SOCKS5 request version") else
      if negb (bool_decide (cmd = Byte.x01)) then
        _ ← write_all (socks5_reply Byte.x07);
        fail (invalid_input "unsupported SOCKS5 command (only CONNECT)")
      else if bool_decide (atyp = Byte.x01) then
        b ← read_n 6;
        mret (ipv4_octets (take 4 b) +:+ ":" +:+ dec (be_value (drop 4 b)))%string
      else if bool_decide (atyp = Byte.x03) then
        domain ← read_counted;
        port ← read_n 2;
        mret (from_utf8_lossy domain +:+ ":" +:+ dec (be_value port))%string
      else if bool_decide (atyp = Byte.x04) then
        b ← read_n 18;
        mret ("[" +:+ ipv6_text (be_value (take 16 b)) +:+ "]:" +:+ dec (be_value (drop 16 b)))%string
      else
        _ ← write_all (socks5_reply Byte.x08);
        fail (invalid_input "invalid SOCKS5 address type")
  | _ => fail (invalid_input "unreachable")
  end.

(** The target to dial, or none after refused credentials. *)
Definition negotiate (p : Socks5Plugin) : io io_error (option string) :=
  method ← negotiate_method p;
  authenticated ← (if bool_decide (method = USER_PASS) then authenticate p else mret true);
  if (authenticated : bool) then Some <$> read_target else mret None.

Section Handle.
Context {stream : Type}.
(** [TcpStream::connect], and [copy_bidirectional] between the two ends. *)
Context (connect : string -> result io_error stream)
        (copy_bidirectional : conn -> stream -> result io_error unit * conn).

(** The outcome, the visitor's connection, and the target that was dialled. *)
Definition handle_socks5_request (p : Socks5Plugin) (c : conn) : result io_error unit * conn * option string :=
  match negotiate p c with
  | (Err e, c) => (Err e, c, None)
  | (Ok None, c) => (Ok tt, c, None)
  | (Ok (Some target), c) =>
      match connect target with
      | Err e =>
          match write_all (socks5_reply Byte.x05) c with
          | (Err e', c) => (Err e', c, Some target)
          | (Ok _, c) => (Err e, c, Some target)
          end
      | Ok s =>
          match write_all (socks5_reply Byte.x00) c with
          | (Err e, c) => (Err e, c, Some target)
          | (Ok _, c) => let '(r, c) := copy_bidirectional c s in (r, c, Some target)
          end
      end
  end.
End Handle.

(** ** A client by the RFCs *)
Inductive address := Ip4 (b : list byte) | Domain (d : list byte) | Ip6 (b : list byte).

Definition wf_address (a : address) : Prop :=
  match a with
  | Ip4 b => length b = 4%nat
  | Domain d => (length d < 256)%nat /\ is_utf8 d = true
  | Ip6 b => length b = 16%nat
  end.

Definition counted (l : list byte) : list byte := z2b (zlen l) :: l.

Definition encode_address (a : address) : list byte :=
  match a with Ip4 b => Byte.x01 :: b | Domain d => Byte.x03 :: counted d | Ip6 b => Byte.x04 :: b end.

Definition greeting (methods : list byte) : list byte := Byte.x05 :: counted methods.
Definition user_password (user password : list byte) : list byte := Byte.x01 :: counted user ++ counted password.
Definition connect_request (a : address) (port : Z) : list byte :=
  [Byte.x05; Byte.x01; Byte.x00] ++ encode_address a ++ be_bytes 2 port.

(** The text of an address and a port: an IPv4 address in dotted form, a domain
    as it is, an IPv6 address in brackets. *)
Definition target_text (a : address) (port : Z) : string :=
  match a with
  | Ip4 b => ipv4_octets b
  | Domain d => of_bytes d
  | Ip6 b => "[" +:+ ipv6_text (be_value b) +:+ "]"
  end%string +:+ (":" +:+ dec port)%string.

Definition expected_user (p : Socks5Plugin) : list byte := as_bytes (default EmptyString (s5_username p)).
Definition expected_password (p : Socks5Plugin) : list byte := as_bytes (default EmptyString (s5_password p)).

(** What the client sends, and what the plugin answers, before the bridge. *)
Definition method_of (p : Socks5Plugin) : byte := if needs_auth p then USER_PASS else NO_AUTH.
Definition auth_part (p : Socks5Plugin) : list byte :=
  if needs_auth p then user_password (expected_user p) (expected_password p) else [].
Definition answers (p : Socks5Plugin) : list byte :=
  [Byte.x05; method_of p] ++ (if needs_auth p then [Byte.x01; Byte.x00] else []).

Lemma read_byte_cons b rest t r : read_byte (Conn (b :: rest) t r) = (Ok b, Conn rest t r).
Proof.
  unfold read_byte. rewrite (io_bind_eq _ _ _ [b] (Conn rest t r)); [done|].
  by apply (read_n_app 1 [b]).
Qed.

Lemma counted_length (l : list byte) : (length l < 256)%nat -> Z.to_nat (b2z (z2b (zlen l))) = length l.
Proof. intros Hl. rewrite b2z_z2b. unfold zlen. rewrite Z.mod_small by lia. apply Nat2Z.id. Qed.

Lemma read_counted_app (l rest : list byte) t r : (length l < 256)%nat ->
  read_counted (Conn (counted l ++ rest) t r) = (Ok l, Conn rest t r).
Proof.
  intros Hl. unfold read_counted, counted. cbn [app].
  rewrite (io_bind_eq _ _ _ _ _ (read_byte_cons _ _ _ _)). rewrite counted_length by done. by apply read_n_app.
Qed.

Lemma nonempty_count (l : list byte) : l <> [] -> (length l < 256)%nat -> bool_decide (z2b (zlen l) = Byte.x00) = false.
Proof.
  intros Hne Hl. apply bool_decide_eq_false. intros E. apply (f_equal (fun b => Z.to_nat (b2z b))) in E.
  rewrite counted_length in E by done. by destruct l.
Qed.

Lemma negotiate_method_ok p (methods rest : list byte) t r :
  methods <> [] -> (length methods < 256)%nat -> method_of p ∈ methods -> 2 <= r ->
  negotiate_method p (Conn (greeting methods ++ rest) t r) =
  (Ok (method_of p), Conn rest (t ++ [Byte.x05; method_of p]) (r - 2)).
Proof.
  intros Hne Hl Hm Hr. unfold negotiate_method, greeting, counted. cbn [app].
  rewrite (io_bind_eq _ _ _ _ _ (read_byte_cons _ _ _ _)), (io_bind_eq _ _ _ _ _ (read_byte_cons _ _ _ _)).
  rewrite bool_decide_eq_true_2 by done. cbn [negb]. rewrite nonempty_count by done. rewrite counted_length by done.
  rewrite (io_bind_eq _ _ _ _ _ (read_n_app _ methods rest t r eq_refl)).
  assert (select_method methods (needs_auth p) = Some (method_of p)) as ->.
  { unfold select_method, method_of in *. destruct (needs_auth p); by rewrite bool_decide_eq_true_2. }
  rewrite (io_bind_eq _ _ _ tt (Conn rest (t ++ [Byte.x05; method_of p]) (r - 2))); [done|].
  by apply (write_all_fits [Byte.x05; method_of p] (Conn rest t r)).
Qed.

Lemma authenticate_ok p rest t r : (length (expected_user p) < 256)%nat -> (length (expected_password p) < 256)%nat ->
  2 <= r ->
  authenticate p (Conn (user_password (expected_user p) (expected_password p) ++ rest) t r) =
  (Ok true, Conn rest (t ++ [Byte.x01; Byte.x00]) (r - 2)).
Proof.
  intros Hu Hp Hr. unfold authenticate, user_password. cbn [app]. rewrite <- app_assoc.
  rewrite (io_bind_eq _ _ _ _ _ (read_byte_cons _ _ _ _)).
  rewrite (io_bind_eq _ _ _ _ _ (read_counted_app _ _ _ _ Hu)), (io_bind_eq _ _ _ _ _ (read_counted_app _ _ _ _ Hp)).
  rewrite bool_decide_eq_true_2 by done. cbn [negb].
  assert (verify_credentials p (expected_user p) (expected_password p) = true) as ->.
  { apply andb_true_iff. by rewrite !constant_time_eq_true. }
  cbn [negb]. rewrite (io_bind_eq _ _ _ tt (Conn rest (t ++ [Byte.x01; Byte.x00]) (r - 2))); [done|].
  by apply (write_all_fits [Byte.x01; Byte.x00] (Conn rest t r)).
Qed.

(** Tests on bytes that are known. *)
Ltac decide_bytes := cbv beta iota; repeat match goal with
  | |- context [bool_decide (?x = ?y :> byte)] =>
      let b := eval vm_compute in (bool_decide (x = y)) in change (bool_decide (x = y)) with b
  end; cbn [negb]; cbv iota.

Lemma read_target_ok a port rest t r : wf_address a -> 0 <= port < 65536 ->
  read_target (Conn (connect_request a port ++ rest) t r) = (Ok (target_text a port), Conn rest t r).
Proof.
  intros Ha Hport. assert (be_value (be_bytes 2 port) = port) as Hp.
  { rewrite be_value_be_bytes. apply Z.mod_small. simpl. lia. }
  unfold read_target, connect_request. rewrite <- !app_assoc.
  destruct a as [b|d|b]; cbn [encode_address app wf_address] in *.
  - erewrite io_bind_eq by (by apply (read_n_app 4 [Byte.x05; Byte.x01; Byte.x00; Byte.x01])).
    decide_bytes. rewrite app_assoc.
    erewrite io_bind_eq by (apply read_n_app; by rewrite length_app, Ha, length_be_bytes).
    unfold target_text. rewrite take_app_length', drop_app_length', Hp by done. done.
  - erewrite io_bind_eq by (by apply (read_n_app 4 [Byte.x05; Byte.x01; Byte.x00; Byte.x03])).
    decide_bytes. destruct Ha as [Ha Hu].
    erewrite io_bind_eq by (by apply (read_counted_app d (be_bytes 2 port ++ rest))). cbv beta.
    erewrite io_bind_eq by (apply read_n_app, length_be_bytes). unfold target_text, from_utf8_lossy. by rewrite Hp, utf8_lossy_id.
  - erewrite io_bind_eq by (by apply (read_n_app 4 [Byte.x05; Byte.x01; Byte.x00; Byte.x04])).
    decide_bytes. rewrite app_assoc.
    erewrite io_bind_eq by (apply read_n_app; by rewrite length_app, Ha, length_be_bytes).
    unfold target_text. rewrite take_app_length', drop_app_length', Hp by done.
    by rewrite <- !str_app_assoc.
Qed.

Lemma negotiate_ok p methods a port rest t r :
  methods <> [] -> (length methods < 256)%nat -> method_of p ∈ methods ->
  (length (expected_user p) < 256)%nat -> (length (expected_password p) < 256)%nat ->
  wf_address a -> 0 <= port < 65536 -> 4 <= r ->
  negotiate p (Conn (greeting methods ++ auth_part p ++ connect_request a port ++ rest) t r) =
  (Ok (Some (target_text a port)), Conn rest (t ++ answers p) (r - zlen (answers p))).
Proof.
  intros Hne Hl Hm Hu Hpw Ha Hport Hr. unfold negotiate, answers, auth_part.
  erewrite io_bind_eq by (apply negotiate_method_ok; [done..|lia]). cbv beta.
  unfold method_of. destruct (needs_auth p) eqn:En; decide_bytes.
  - erewrite io_bind_eq by (apply authenticate_ok; [done..|lia]). cbv beta iota.
    unfold fmap, io_fmap. rewrite read_target_ok by done. rewrite <- app_assoc.
    replace (r - 2 - 2) with (r - 4) by lia. done.
  - erewrite io_bind_eq by reflexivity. cbv beta iota. unfold fmap, io_fmap. cbn [app].
    rewrite read_target_ok by done. done.
Qed.

(** The reply of RFC 1928 to a request, without an address. *)
Definition request_reply (code : byte) : list byte := [Byte.x05; code; Byte.x00; Byte.x01] ++ replicate 6 Byte.x00.

(** C10: A client that offers the method the plugin needs, with the credentials
    where they are configured, and asks for an IPv4 or IPv6 address or a domain in
    UTF-8 reaches that address, whatever the port: the plugin answers the
    negotiation as the RFCs say and dials the address it was sent, once.  When
    the dial succeeds the plugin replies "succeeded" and hands both connections
    to the bridge, with every byte the client sent after its request still
    unread; the outcome is the bridge's.  When it fails the plugin replies
    "connection refused" and fails with the error of the dial. *)
Theorem socks5_reaches {stream} connect bridge p methods a port rest t r :
  methods <> [] -> (length methods < 256)%nat -> method_of p ∈ methods ->
  (length (expected_user p) < 256)%nat -> (length (expected_password p) < 256)%nat ->
  wf_address a -> 0 <= port < 65536 -> 14 <= r ->
  @handle_socks5_request stream connect bridge p
    (Conn (greeting methods ++ auth_part p ++ connect_request a port ++ rest) t r) =
  match connect (target_text a port) with
  | Ok s =>
      let sent := t ++ answers p ++ request_reply Byte.x00 in
      let out := bridge (Conn rest sent (r - zlen (answers p) - 10)) s in
      (out.1, out.2, Some (target_text a port))
  | Err e =>
      (Err e, Conn rest (t ++ answers p ++ request_reply Byte.x05) (r - zlen (answers p) - 10),
       Some (target_text a port))
  end.
Proof.
  intros Hne Hl Hm Hu Hpw Ha Hport Hr. unfold handle_socks5_request.
  rewrite (negotiate_ok p methods a port rest t r) by (done || lia).
  assert (zlen (answers p) <= 4) as Ha4 by (unfold answers, zlen; destruct (needs_auth p); simpl; lia).
  assert (forall code, write_all (socks5_reply code) (Conn rest (t ++ answers p) (r - zlen (answers p))) =
    (Ok tt, Conn rest (t ++ answers p ++ request_reply code) (r - zlen (answers p) - 10))) as Hw.
  { intros code. rewrite write_all_fits by (unfold zlen, socks5_reply in *; simpl in *; lia).
    cbn [rx tx room]. by rewrite <- app_assoc. }
  destruct (connect (target_text a port)) as [s|e]; rewrite Hw; [|done].
  by destruct (bridge _ s).
Qed.

Definition demo_socks : Socks5Plugin := {| s5_username := Some "u"%string; s5_password := Some "pw"%string |}.

Lemma socks5_reaches_witness :
  @handle_socks5_request unit (fun target => if decide (target = "example.com:443"%string) then Ok tt
                                           else Err (invalid_input "unknown")) (fun c _ => (Ok tt, c)) demo_socks
    (Conn (greeting [Byte.x00; Byte.x02] ++ auth_part demo_socks ++
      connect_request (Domain (as_bytes "example.com")) 443 ++ as_bytes "hello") [] 100) =
  (Ok tt, Conn (as_bytes "hello") ([Byte.x05; Byte.x02; Byte.x01; Byte.x00] ++ request_reply Byte.x00) 86,
   Some "example.com:443"%string).
Proof.
  rewrite (@socks5_reaches unit _ _ demo_socks [Byte.x00; Byte.x02] (Domain (as_bytes "example.com")) 443
    (as_bytes "hello") [] 100).
  - vm_compute. reflexivity.
  - discriminate.
  - apply Nat.ltb_lt. reflexivity.
  - right. left.
  - apply Nat.ltb_lt. reflexivity.
  - apply Nat.ltb_lt. reflexivity.
  - split; [apply Nat.ltb_lt|]; reflexivity.
  - split; [discriminate|reflexivity].
  - discriminate.
Defined.

(** ** Nothing is dialled without the credentials *)
Lemma read_byte_Ok c b c' : read_byte c = (Ok b, c') -> rx c = b :: rx c'.
Proof.
  unfold read_byte. intros (bs & c1 & E & [= <- <-])%io_bind_Ok. apply read_n_Ok in E as (-> & Hl & _).
  destruct bs as [|x [|? ?]]; done.
Qed.

Lemma read_counted_Ok c l c' : read_counted c = (Ok l, c') ->
  exists n, rx c = n :: l ++ rx c' /\ length l = Z.to_nat (b2z n).
Proof.
  unfold read_counted. intros (n & c1 & E%read_byte_Ok & E2)%io_bind_Ok.
  apply read_n_Ok in E2 as (Hc & Hl & _). exists n. by rewrite E, Hc.
Qed.

Lemma write_then {A} bs (m : io io_error A) c a c' : (_ ← write_all bs; m) c = (Ok a, c') ->
  exists c1, rx c1 = rx c /\ m c1 = (Ok a, c').
Proof. intros (u & c1 & E & Hm)%io_bind_Ok. apply write_all_Ok in E as (E & _). eauto. Qed.

Lemma negotiate_method_Ok p c m c' : negotiate_method p c = (Ok m, c') -> exists n methods,
  rx c = Byte.x05 :: n :: methods ++ rx c' /\ select_method methods (needs_auth p) = Some m.
Proof.
  unfold negotiate_method. intros (ver & c1 & E1%read_byte_Ok & H1)%io_bind_Ok.
  apply io_bind_Ok in H1 as (n & c2 & E2%read_byte_Ok & H2).
  case_bool_decide as Hver; [|done]. cbn [negb] in H2.
  case_bool_decide; [apply write_then in H2 as (? & _ & ?); done|].
  apply io_bind_Ok in H2 as (methods & c3 & E3 & H3). apply read_n_Ok in E3 as (E3 & _).
  destruct (select_method methods (needs_auth p)) as [m'|] eqn:Es; [|apply write_then in H3 as (? & _ & ?); done].
  apply write_then in H3 as (c4 & E4 & [= -> ->]). exists n, methods. split; [|done].
  by rewrite E1, E2, E3, E4, Hver.
Qed.

Lemma authenticate_Ok p c c' : authenticate p c = (Ok true, c') -> exists ulen plen,
  rx c = Byte.x01 :: ulen :: expected_user p ++ plen :: expected_password p ++ rx c'.
Proof.
  unfold authenticate. intros (ver & c1 & E1%read_byte_Ok & H1)%io_bind_Ok.
  apply io_bind_Ok in H1 as (user & c2 & E2%read_counted_Ok & H2).
  apply io_bind_Ok in H2 as (password & c3 & E3%read_counted_Ok & H3).
  case_bool_decide as Hver; [|apply write_then in H3 as (? & _ & ?); done]. cbn [negb] in H3.
  destruct (verify_credentials p user password) eqn:Ev; [|apply write_then in H3 as (? & _ & ?); done].
  apply andb_true_iff in Ev as [->%constant_time_eq_true ->%constant_time_eq_true].
  apply write_then in H3 as (c4 & E4 & [= ->]). destruct E2 as (ul & E2 & _), E3 as (pl & E3 & _).
  exists ul, pl. by rewrite E1, E2, E3, E4, Hver.
Qed.

(** With a user name or a password configured, a connection makes the
    plugin dial only if its first bytes offer the method of RFC 1929 and then
    carry exactly the configured name and password. *)
Theorem socks5_dials_for_credentials {stream} connect bridge p c r c' target :
  needs_auth p = true ->
  @handle_socks5_request stream connect bridge p c = (r, c', Some target) ->
  exists n methods ulen plen rest, USER_PASS ∈ methods /\
    rx c = Byte.x05 :: n :: methods ++ Byte.x01 :: ulen :: expected_user p ++ plen :: expected_password p ++ rest.
Proof.
  intros Hp. unfold handle_socks5_request. destruct (negotiate p c) as [[[t|]|e] c1] eqn:En; [|done..]. intros _.
  unfold negotiate in En. apply io_bind_Ok in En as (m & c2 & E1%negotiate_method_Ok & H1).
  destruct E1 as (n & methods & E1 & Es). unfold select_method in Es. rewrite Hp in Es.
  destruct (bool_decide (USER_PASS ∈ methods)) eqn:Hm; [|done]. injection Es as <-.
  apply bool_decide_eq_true in Hm. rewrite bool_decide_eq_true_2 in H1 by done.
  apply io_bind_Ok in H1 as (ok & c3 & E2 & H2). destruct ok; [|done].
  apply authenticate_Ok in E2 as (ul & pl & E2). exists n, methods, ul, pl, (rx c3). split; [done|].
  by rewrite E1, E2.
Qed.

Definition demo_socks_conn : conn :=
  Conn (greeting [Byte.x02] ++ auth_part demo_socks ++ connect_request (Ip4 [Byte.x7f; Byte.x00; Byte.x00; Byte.x01]) 22) [] 100.

Lemma socks5_dials_for_credentials_witness : exists n methods ulen plen rest, USER_PASS ∈ methods /\
  rx demo_socks_conn = Byte.x05 :: n :: methods ++ Byte.x01 :: ulen :: expected_user demo_socks ++ plen ::
    expected_password demo_socks ++ rest.
Proof.
  eapply (@socks5_dials_for_credentials unit (fun _ => Ok tt) (fun c _ => (Ok tt, c)) demo_socks demo_socks_conn
    (Ok tt) _ "127.0.0.1:22"); [reflexivity|vm_compute; reflexivity].
Defined.

(** The refusal of a wrong password is no error for the caller. *)
Lemma refused_quietly : exists c',
  @handle_socks5_request unit (fun _ => Ok tt) (fun c _ => (Ok tt, c)) demo_socks
    (Conn (greeting [Byte.x02] ++ user_password (as_bytes "u") (as_bytes "no")) [] 100) = (Ok tt, c', None) /\
  tx c' = [Byte.x05; Byte.x02; Byte.x01; Byte.x01].
Proof. eexists. split; vm_compute; reflexivity. Qed.
