(* ===== verification/Plugins.v ===== *)
(** * The plugin manager (src/rust_frp_plugin/src/lib.rs [PluginManager])

    The factories by name, what each plugin type asks of its configuration, and
    the plugins whose [handle] only ends TLS or connects and bridges.  Building
    a TLS configuration is a library call: its result is an argument. *)
From S2P Require Import Prelude RustStd RustFmt Utf8 ConfigTypes Routers HttpText HttpHead HttpBridge StaticFile HttpProxy Socks5.

(** A server certificate: files, or one made at run time. *)
Inductive server_cert := CertFiles (crt key : string) | RuntimeCert.

Inductive plugin :=
| UnixDomainSocket (unix_path : string)
| StaticFile (p : StaticFilePlugin)
| HttpProxy (p : HttpProxyPlugin)
| Socks5 (p : Socks5Plugin)
| TlsOffload (cert : server_cert) (local_addr : string)
| TlsBridge (cert : server_cert) (local_addr : string)
| HttpBridge (p : HttpBridgePlugin).

Inductive factory :=
| UnixDomainSocketPluginFactory
| StaticFilePluginFactory
| HttpProxyPluginFactory
| Socks5PluginFactory
| TlsOffloadPluginFactory
| TlsBridgePluginFactory
| HttpBridgePluginFactory.

(** The TLS configurations the constructors build. *)
Class TlsBuild := {
  new_server : server_cert -> result io_error unit;
  new_client_insecure : result io_error unit;
}.

Section Create.
Context `{TlsBuild}.

Definition unix_domain_socket_new (c : PluginConfig) : result io_error plugin :=
  match pl_unix_path c with
  | Some path => Ok (UnixDomainSocket path)
  | None => Err (invalid_input "unix_path is required for unix_domain_socket plugin")
  end.

(** Both files, or neither. *)
Definition cert_of (c : PluginConfig) : result io_error server_cert :=
  match pl_crt_path c, pl_key_path c with
  | Some crt, Some key => Ok (CertFiles crt key)
  | None, None => Ok RuntimeCert
  | _, _ => Err (invalid_input "crt_path and key_path must be configured together")
  end.

Definition tls_offload_new (c : PluginConfig) : result io_error plugin :=
  local_addr ← ok_or (invalid_input "local_addr is required for https2http/tls2raw plugin") (pl_local_addr c);
  cert ← cert_of c;
  _ ← new_server cert;
  Ok (TlsOffload cert local_addr).

Definition tls_bridge_new (c : PluginConfig) : result io_error plugin :=
  local_addr ← ok_or (invalid_input "local_addr is required for https2https plugin") (pl_local_addr c);
  cert ← cert_of c;
  _ ← new_server cert;
  _ ← new_client_insecure;
  Ok (TlsBridge cert local_addr).

Definition create (f : factory) (c : PluginConfig) : result io_error plugin :=
  match f with
  | UnixDomainSocketPluginFactory => unix_domain_socket_new c
  | StaticFilePluginFactory => StaticFile <$> static_file_new c
  | HttpProxyPluginFactory => Ok (HttpProxy (http_proxy_new c))
  | Socks5PluginFactory => Ok (Socks5 (socks5_new c))
  | TlsOffloadPluginFactory => tls_offload_new c
  | TlsBridgePluginFactory => tls_bridge_new c
  | HttpBridgePluginFactory => HttpBridge <$> http_bridge_new new_client_insecure c
  end.

(** ** The manager *)
Notation PluginManager := (gmap string factory).

Definition plugin_manager_new : PluginManager :=
  list_to_map [("unix_domain_socket", UnixDomainSocketPluginFactory); ("static_file", StaticFilePluginFactory);
    ("http_proxy", HttpProxyPluginFactory); ("socks5", Socks5PluginFactory);
    ("https2http", TlsOffloadPluginFactory); ("tls2raw", TlsOffloadPluginFactory);
    ("https2https", TlsBridgePluginFactory); ("http2http", HttpBridgePluginFactory);
    ("http2https", HttpBridgePluginFactory)]%string.

Definition create_plugin (m : PluginManager) (c : PluginConfig) : result io_error plugin :=
  match m !! pl_type c with
  | Some f => create f c
  | None => Err (invalid_input ("unsupported plugin type: " +:+ pl_type c)%string)
  end.

Definition register_plugin (m : PluginManager) (name : string) (f : factory) : PluginManager := <[name := f]> m.
Definition unregister_plugin (m : PluginManager) (name : string) : PluginManager := delete name m.

(** ** Plugins that bridge *)
Section Bridge.
Context {stream : Type}.
(** [UnixStream::connect], [TcpStream::connect], [accept_stream],
    [connect_stream], [copy_bidirectional] and [bridge_streams]. *)
Context (connect_unix connect_tcp : string -> result io_error stream)
        (accept_stream : server_cert -> stream -> result io_error stream)
        (connect_stream : string -> stream -> result io_error stream)
        (copy_bidirectional bridge_streams : stream -> stream -> result io_error unit).

Definition handle_unix (unix_path : string) (conn : stream) : result io_error unit :=
  unix_conn ← connect_unix unix_path;
  copy_bidirectional conn unix_conn.

(** The visitor's TLS ends here; the local side is plain. *)
Definition handle_tls_offload (cert : server_cert) (local_addr : string) (conn : stream) : result io_error unit :=
  tls_conn ← accept_stream cert conn;
  local ← connect_tcp local_addr;
  bridge_streams tls_conn local.

(** The visitor's TLS ends here; the local side is TLS again. *)
Definition handle_tls_bridge (cert : server_cert) (local_addr : string) (conn : stream) : result io_error unit :=
  tls_conn ← accept_stream cert conn;
  local_tcp ← connect_tcp local_addr;
  local_tls ← connect_stream "localhost" local_tcp;
  bridge_streams tls_conn local_tls.
End Bridge.
End Create.

(** ** Which configurations make a plugin *)
Definition given {A} (o : option A) : bool := match o with Some _ => true | None => false end.

(** What a plugin's type asks of its configuration. *)
Definition complete (c : PluginConfig) : bool :=
  let tls := given (pl_local_addr c) && Bool.eqb (given (pl_crt_path c)) (given (pl_key_path c)) in
  let requirements :=
    [("unix_domain_socket", given (pl_unix_path c)); ("static_file", given (pl_local_path c));
     ("http_proxy", true); ("socks5", true); ("https2http", tls); ("tls2raw", tls); ("https2https", tls);
     ("http2http", given (pl_local_addr c)); ("http2https", given (pl_local_addr c))]%string in
  existsb (fun r => bool_decide (pl_type c = r.1) && r.2) requirements.

(** The TLS library builds what it is asked for. *)
Class TlsBuildLaws `{TlsBuild} := {
  server_builds : forall cert, new_server cert = Ok tt;
  client_builds : new_client_insecure = Ok tt;
}.

Lemma cert_of_ok c : is_ok (cert_of c) = Bool.eqb (given (pl_crt_path c)) (given (pl_key_path c)).
Proof. unfold cert_of. by destruct (pl_crt_path c), (pl_key_path c). Qed.

Lemma create_ok `{TlsBuildLaws} f c : is_ok (create f c) =
  match f with
  | UnixDomainSocketPluginFactory => given (pl_unix_path c)
  | StaticFilePluginFactory => given (pl_local_path c)
  | HttpProxyPluginFactory | Socks5PluginFactory => true
  | TlsOffloadPluginFactory | TlsBridgePluginFactory =>
      given (pl_local_addr c) && Bool.eqb (given (pl_crt_path c)) (given (pl_key_path c))
  | HttpBridgePluginFactory => given (pl_local_addr c)
  end.
Proof.
  rewrite <- cert_of_ok. destruct f; cbn [create];
    unfold unix_domain_socket_new, static_file_new, tls_offload_new, tls_bridge_new, http_bridge_new, given, ok_or.
  - by destruct (pl_unix_path c).
  - by destruct (pl_local_path c).
  - done.
  - done.
  - destruct (pl_local_addr c); [|done]. cbn [mbind result_bind]. destruct (cert_of c); [|done].
    cbn [mbind result_bind]. by rewrite server_builds.
  - destruct (pl_local_addr c); [|done]. cbn [mbind result_bind]. destruct (cert_of c); [|done].
    cbn [mbind result_bind]. rewrite server_builds. cbn [mbind result_bind]. by rewrite client_builds.
  - destruct (pl_local_addr c); [|done]. cbn [mbind result_bind]. rewrite client_builds. by destruct (bool_decide _).
Qed.

(** One type name at a time. *)
Ltac by_type c n :=
  let E := fresh "E" in destruct (decide (n = pl_type c)) as [E|E];
    [rewrite <- ?E; rewrite create_ok; generalize (given (pl_unix_path c)), (given (pl_local_path c)),
      (given (pl_local_addr c)), (given (pl_crt_path c)), (given (pl_key_path c)); intros [] [] [] [] []; by vm_compute|].

(** The manager makes a plugin exactly for the nine types it knows with
    what each needs: a path or a local address, and for the plugins that end
    TLS either both files of a certificate or neither. *)
Theorem plugin_created_iff `{TlsBuildLaws} c :
  is_ok (create_plugin plugin_manager_new c) = true <-> complete c = true.
Proof.
  unfold create_plugin, complete, plugin_manager_new. cbn [list_to_map foldr existsb fst snd uncurry].
  assert (Hd : forall n, bool_decide (pl_type c = n) = if decide (n = pl_type c) then true else false).
  { intros n. destruct (decide (n = pl_type c)) as [->|]; [by apply bool_decide_eq_true|by apply bool_decide_eq_false]. }
  rewrite !lookup_insert, !Hd.
  by_type c "unix_domain_socket"%string. by_type c "static_file"%string. by_type c "http_proxy"%string.
  by_type c "socks5"%string. by_type c "https2http"%string. by_type c "tls2raw"%string.
  by_type c "https2https"%string. by_type c "http2http"%string. by_type c "http2https"%string.
  by rewrite lookup_empty.
Qed.

#[local] Instance demo_tls_build : TlsBuild := {| new_server := fun _ => Ok tt; new_client_insecure := Ok tt |}.
#[local] Instance demo_tls_laws : TlsBuildLaws.
Proof. by split. Qed.

Definition demo_plugin_config (type : string) (crt : option string) : PluginConfig :=
  {| pl_type := type; pl_unix_path := None; pl_local_path := None; pl_strip_prefix := None; pl_http_user := None;
     pl_http_password := None; pl_username := None; pl_password := None; pl_local_addr := Some "127.0.0.1:80"%string;
     pl_crt_path := crt; pl_key_path := None; pl_host_header_rewrite := None; pl_request_headers := None |}.

Lemma plugin_created_iff_witness :
  is_ok (create_plugin plugin_manager_new (demo_plugin_config "tls2raw" None)) = true /\
  is_ok (create_plugin plugin_manager_new (demo_plugin_config "tls2raw" (Some "crt.pem"%string))) = false.
Proof.
  split; [apply plugin_created_iff; reflexivity|].
  apply not_true_is_false. intros H%plugin_created_iff. vm_compute in H. discriminate.
Defined.
