(* ===== verification/UserConn.v ===== *)
(** * Visitors' connections (src/rust_frp_server/src/proxy_manager.rs
    [serve_tcp_visitor], [serve_websocket_visitor]; src/rust_frp_server/src/tcpmux.rs
    [serve_conn])

    A visitor of a TCP, WebSocket or tcpmux proxy is counted, offered to the
    plugins, and bridged to a work connection of the proxy's owner; a TCP proxy
    of a group chooses a member first, and one with a local plugin hands the
    connection to it.  [get_work_conn] is WorkPool.v's, here its result. *)
From S2P Require Import Prelude RustStd RustFmt Utf8 ConfigTypes Transport EncStream IoConn WireV2.
From S2P Require Import Secrets Routers Groups ProxyManager Throttle StcpBridge WorkPool CoreMsg.
From S2P Require Import HttpClient JsonValue Auth ServerPlugin Metrics ControlManager StateErr Control Vhost Plugins.

(** How a visitor's connection ends: dropped, answered, handed to a local
    plugin, bridged after [initial] was sent to the work connection, or lost. *)
Inductive user_end :=
| UClosed
| UAnswered (response : string)
| UPlugin (made : result io_error plugin)
| UBridge (proxy_name : string) (work : any_conn) (initial : list byte)
| UWorkLost.

Definition no_members_response : string :=
  ("HTTP/1.1 503 Service Unavailable" +:+ crlf +:+ "Content-Type: text/plain" +:+ crlf
   +:+ "Content-Length: 29" +:+ crlf +:+ crlf +:+ "No available group members")%string.

(** ** CONNECT heads *)
Definition MAX_REQUEST_HEAD : Z := 8 * 1024.

Inductive head_read := HeadRead (head leftover : list byte) | HeadNone | HeadError.

(** [reads]: what the successive reads return, at most 1024 bytes each; nothing
    more, or no bytes, is the end of the stream. *)
Fixpoint read_request_head (reads : list (result io_error (list byte))) (buf : list byte) : head_read :=
  match Routers.find_head_end buf with
  | Some e => HeadRead (take e buf) (drop e buf)
  | None =>
      if decide (MAX_REQUEST_HEAD <= zlen buf) then HeadNone else
      match reads with
      | Err _ :: _ => HeadError
      | [] | Ok [] :: _ => HeadNone
      | Ok chunk :: reads => read_request_head reads (buf ++ chunk)
      end
  end.

Definition RESP_OK : string := ("HTTP/1.1 200 Connection Established" +:+ crlf +:+ crlf)%string.
Definition resp_closing (head : string) : string :=
  (head +:+ crlf +:+ "Content-Length: 0" +:+ crlf +:+ "Connection: close" +:+ crlf +:+ crlf)%string.
Definition RESP_BAD_REQUEST : string := resp_closing "HTTP/1.1 400 Bad Request".
Definition RESP_NOT_FOUND : string := resp_closing "HTTP/1.1 404 Not Found".
Definition RESP_UNAUTHORIZED : string :=
  resp_closing ("HTTP/1.1 407 Proxy Authentication Required" +:+ crlf +:+
    "Proxy-Authenticate: Basic realm=" +:+ dquote +:+ "tcpmux" +:+ dquote)%string.
Definition RESP_BAD_GATEWAY : string := resp_closing "HTTP/1.1 502 Bad Gateway".

Section Visitors.
Context `{Os, RingHash, Base64, Jwt, HashIter, ServerEnv, TlsBuild}.

(** [STANDARD.decode] and [String::from_utf8]. *)
Definition basic_text (s : string) : option string :=
  match b64_std s with
  | Ok bytes => if is_utf8 bytes then Some (of_bytes bytes) else None
  | Err _ => None
  end.

(** The owner, its channel and a work connection; what is answered without. *)
Definition reach (w : World) (proxy_name : string) (work : result string any_conn)
    (no_owner no_channel : user_end) (no_work : user_end) (reached : any_conn -> user_end) : user_end :=
  match w_owners w !! proxy_name with
  | None => no_owner
  | Some run_id =>
      match get_msg_tx (w_cm w) run_id with
      | None => no_channel
      | Some _ => match work with Err _ => no_work | Ok conn => reached conn end
      end
  end.

(** The proxy's guard is held around [serve], and a bridge that ends well is
    counted; [secs] is the clock then. *)
Definition guarded (proxy_name : string) (secs : Z) (counted : option (Z * Z)) (serve : World -> user_end)
    (w : World) : user_end * World :=
  let '(guard, w) := acquire_guard w proxy_name in
  let fate := serve w in
  let w := match fate, counted with
           | UBridge name _ _, Some (to_work, to_visitor) =>
               with_metrics (record_traffic (w_metrics w) secs name to_work to_visitor).1 w
           | _, _ => w
           end in
  (fate, drop_guard guard w).

(** [connection_guard] around [serve]. *)
Definition drained (serve : World -> user_end * World) (w : World) : user_end * World :=
  let '(fate, w) := serve (with_metrics (increment_connections (w_metrics w)) w) in
  (fate, with_metrics (decrement_connections (w_metrics w)) w).

(** [serve_tcp_visitor] for the proxy the listener belongs to. *)
Definition tcp_member (plugin_config : option PluginConfig) (peer : string) (work : result string any_conn)
    (target_name : string) (w : World) : user_end :=
  match notify_new_user_conn w target_name "tcp" peer with
  | Err _ => UClosed
  | Ok _ =>
      match plugin_config with
      | Some pconf => UPlugin (create_plugin plugin_manager_new pconf)
      | None =>
          reach w target_name work (UAnswered no_owner_response) (UAnswered no_channel_response)
            (UAnswered gateway_timeout) (fun conn => UBridge target_name conn [])
      end
  end.

Definition serve_tcp_visitor (proxy_name : string) (group_port : option Z) (plugin_config : option PluginConfig)
    (peer : string) (work : result string any_conn) (secs : Z) (counted : option (Z * Z))
  : World -> user_end * World :=
  drained (fun w =>
    let '(target, w) := match group_port with
                        | None => (Some proxy_name, w)
                        | Some port =>
                            let '(name, g) := pick (group_registry (w_pm w)) port in
                            (name, with_pm (with_groups (w_pm w) g) w)
                        end in
    match target with
    | None => (UAnswered no_members_response, w)
    | Some target_name => guarded target_name secs counted (tcp_member plugin_config peer work target_name) w
    end).

(** [upgraded]: whether the WebSocket handshake succeeded. *)
Definition serve_websocket_visitor (proxy_name : string) (peer : string) (upgraded : bool)
    (work : result string any_conn) (secs : Z) (counted : option (Z * Z)) (w : World) : user_end * World :=
  drained (guarded proxy_name secs counted (fun w =>
    match notify_new_user_conn w proxy_name "websocket" peer with
    | Err _ => UClosed
    | Ok _ =>
        if negb upgraded then UClosed
        else reach w proxy_name work UClosed UClosed UClosed (fun conn => UBridge proxy_name conn [])
    end)) w.

(** A CONNECT request that found its route; [answered] and [forwarded]: whether
    the 200 and the bytes after the head could be written. *)
Definition mux_route (route : TcpMuxRoute) (peer : string) (leftover : list byte) (work : result string any_conn)
    (answered forwarded : bool) (w : World) : user_end :=
  match notify_new_user_conn w (rt_proxy_name route) "tcpmux" peer with
  | Err _ => UAnswered RESP_BAD_GATEWAY
  | Ok _ =>
      reach w (rt_proxy_name route) work (UAnswered RESP_BAD_GATEWAY) (UAnswered RESP_BAD_GATEWAY)
        (UAnswered RESP_BAD_GATEWAY)
        (fun conn => if negb answered then UWorkLost
                     else if bool_decide (leftover <> []) && negb forwarded then UWorkLost
                     else UBridge (rt_proxy_name route) conn leftover)
  end.

(** [serve_conn]. *)
Definition serve_mux_conn (peer : string) (reads : list (result io_error (list byte))) (work : result string any_conn)
    (answered forwarded : bool) (secs : Z) (counted : option (Z * Z)) (w : World) : user_end * World :=
  match read_request_head reads [] with
  | HeadError => (UClosed, w)
  | HeadNone => (UAnswered RESP_BAD_REQUEST, w)
  | HeadRead head leftover =>
      match parse_connect_request basic_text (from_utf8_lossy head) with
      | None => (UAnswered RESP_BAD_REQUEST, w)
      | Some req =>
          match resolve (tcpmux (w_pm w)) (Routers.cr_host req) (Routers.cr_user req) (Routers.cr_password req) with
          | NotFound => (UAnswered RESP_NOT_FOUND, w)
          | Unauthorized => (UAnswered RESP_UNAUTHORIZED, w)
          | Matched route =>
              drained (guarded (rt_proxy_name route) secs counted
                (mux_route route peer leftover work answered forwarded)) w
          end
      end
  end.
End Visitors.

(** ** Theorems *)
Section Theorems.
Context `{Os, RingHash, Base64, Jwt, HashIter, ServerEnv, TlsBuild}.

Lemma reach_bridge w name work no_owner no_channel no_work (f : any_conn -> user_end) n conn initial :
  (forall n c i, no_owner <> UBridge n c i) -> (forall n c i, no_channel <> UBridge n c i) ->
  (forall n c i, no_work <> UBridge n c i) ->
  reach w name work no_owner no_channel no_work f = UBridge n conn initial <->
  exists run_id tx c, w_owners w !! name = Some run_id /\ get_msg_tx (w_cm w) run_id = Some tx /\
    work = Ok c /\ f c = UBridge n conn initial.
Proof.
  intros N1 N2 N3. unfold reach. destruct (w_owners w !! name) as [run_id|]; [|split; [intros E; by edestruct N1|naive_solver]].
  destruct (get_msg_tx (w_cm w) run_id) as [tx|] eqn:Et; [|split; [intros E; by edestruct N2|naive_solver]].
  destruct work as [c|e]; [|split; [intros E; by edestruct N3|naive_solver]]. split.
  - intros E. by exists run_id, tx, c.
  - intros (r & t & c' & [= <-] & _ & [= <-] & E). exact E.
Qed.

(** The member of a group, or the proxy itself. *)
Definition chosen (w : World) (proxy_name : string) (group_port : option Z) : option string :=
  match group_port with
  | None => Some proxy_name
  | Some port => (pick (group_registry (w_pm w)) port).1
  end.

(** The plugins' question does not depend on the counters. *)
Lemma notify_metrics w m name kind peer :
  notify_new_user_conn (with_metrics m w) name kind peer = notify_new_user_conn w name kind peer.
Proof. done. Qed.

Lemma guarded_fate name secs counted serve w : (forall m, serve (with_metrics m w) = serve w) ->
  (guarded name secs counted serve w).1 = serve w.
Proof.
  intros Hs. unfold guarded, acquire_guard. destruct (proxy_stats (w_metrics w) !! name); cbn [fst]; [apply Hs|done].
Qed.

Lemma tcp_fate proxy_name group_port plugin_config peer work secs counted w :
  (serve_tcp_visitor proxy_name group_port plugin_config peer work secs counted w).1 =
  match chosen w proxy_name group_port with
  | None => UAnswered no_members_response
  | Some target => tcp_member plugin_config peer work target w
  end.
Proof.
  unfold serve_tcp_visitor, drained, chosen. destruct group_port as [port|].
  - cbn [w_pm with_metrics]. destruct (pick _ port) as [[target|] g]; [|done]. cbn [fst].
    destruct (guarded _ _ _ _ _) as [fate w'] eqn:E. apply (f_equal fst) in E. cbn [fst] in *.
    rewrite guarded_fate in E by done. by rewrite <- E.
  - destruct (guarded _ _ _ _ _) as [fate w'] eqn:E. apply (f_equal fst) in E. cbn [fst] in *.
    rewrite guarded_fate in E by done. by rewrite <- E.
Qed.

(** A visitor of a TCP proxy is bridged to a work connection exactly when
    its proxy (the member the group's rotation chose) runs no local plugin, the
    plugins accept it, the proxy has an owner whose channel is registered, and a
    work connection was found; nothing is sent ahead on it. *)
Theorem tcp_visitor_bridged_iff proxy_name group_port plugin_config peer work secs counted w name conn initial :
  (serve_tcp_visitor proxy_name group_port plugin_config peer work secs counted w).1 = UBridge name conn initial <->
  chosen w proxy_name group_port = Some name /\ plugin_config = None /\ initial = [] /\ work = Ok conn /\
  notify_new_user_conn w name "tcp" peer = Ok tt /\
  exists run_id tx, w_owners w !! name = Some run_id /\ get_msg_tx (w_cm w) run_id = Some tx.
Proof.
  rewrite tcp_fate. destruct (chosen w proxy_name group_port) as [target|]; [|naive_solver]. unfold tcp_member. split.
  - destruct (notify_new_user_conn w target "tcp" peer) as [[]|e] eqn:En; [|done].
    destruct plugin_config; [done|]. intros E. apply reach_bridge in E; [|done..].
    destruct E as (run_id & tx & c & Ho & Ht & -> & [= <- <- <-]). naive_solver.
  - intros ([= ->] & -> & -> & -> & -> & run_id & tx & Ho & Ht). apply reach_bridge; [done..|].
    by exists run_id, tx, conn.
Qed.

(** A proxy registered with a local plugin is served by the server itself: no
    owner, channel or work connection is looked for. *)
Lemma plugin_served_here proxy_name pconf peer work secs counted w :
  notify_new_user_conn w proxy_name "tcp" peer = Ok tt ->
  (serve_tcp_visitor proxy_name None (Some pconf) peer work secs counted w).1 =
  UPlugin (create_plugin plugin_manager_new pconf).
Proof. rewrite tcp_fate. cbn [chosen]. unfold tcp_member. by intros ->. Qed.

(** C29: A tcpmux visitor is bridged only to a proxy registered for the host of
    its CONNECT request (or a suffix of it) whose user restriction and
    credentials the request satisfies, and only after the plugins accepted it;
    the work connection then gets first exactly what the visitor sent after the
    head. *)
Theorem mux_bridge_authorised `{!HashIterLaws} peer reads work answered forwarded secs counted w name conn initial :
  (serve_mux_conn peer reads work answered forwarded secs counted w).1 = UBridge name conn initial ->
  exists head req route, read_request_head reads [] = HeadRead head initial /\
    parse_connect_request basic_text (from_utf8_lossy head) = Some req /\
    serves (tcpmux (w_pm w)) (Routers.cr_host req) route /\
    route_admits route (Routers.cr_user req) (Routers.cr_password req) /\
    name = rt_proxy_name route /\ notify_new_user_conn w name "tcpmux" peer = Ok tt /\ work = Ok conn /\
    exists run_id tx, w_owners w !! name = Some run_id /\ get_msg_tx (w_cm w) run_id = Some tx.
Proof.
  unfold serve_mux_conn. destruct (read_request_head reads []) as [head leftover| |] eqn:Er; [|done..].
  destruct (parse_connect_request _ _) as [req|] eqn:Ep; [|done].
  pose proof (tcpmux_resolve_spec (tcpmux (w_pm w)) (Routers.cr_host req) (Routers.cr_user req) (Routers.cr_password req)) as Hr.
  destruct (resolve _ _ _ _) as [| |route]; [done..|]. destruct Hr as [Hs Ha]. unfold drained.
  destruct (guarded _ _ _ _ _) as [fate w'] eqn:E. apply (f_equal fst) in E. cbn [fst] in *.
  rewrite guarded_fate in E by done. intros ->. unfold mux_route in E.
  destruct (notify_new_user_conn _ (rt_proxy_name route) "tcpmux" peer) as [[]|e] eqn:En; [|done].
  apply reach_bridge in E; [|done..]. destruct E as (run_id & tx & c & Ho & Ht & -> & Hf).
  destruct (negb answered); [done|]. destruct (_ && _); [done|]. injection Hf as <- <- <-.
  exists head, req, route. split_and!; try done. eauto.
Qed.

(** ** The counters are given back *)
Lemma record_traffic_counters m secs name i o :
  current_connections (counters (record_traffic m secs name i o).1) = current_connections (counters m) /\
  total_connections (counters (record_traffic m secs name i o).1) = total_connections (counters m).
Proof.
  unfold record_traffic. repeat first [progress cbn [fst counters with_counters with_heap bump_bytes]|case_match]; done.
Qed.

Lemma guarded_counters name secs counted serve w :
  current_connections (counters (w_metrics (guarded name secs counted serve w).2)) = current_connections (counters (w_metrics w)) /\
  total_connections (counters (w_metrics (guarded name secs counted serve w).2)) = total_connections (counters (w_metrics w)).
Proof.
  unfold guarded, acquire_guard. destruct (proxy_stats (w_metrics w) !! name) as [ref|]; cbn [drop_guard];
    destruct (serve _) as [| | |n c i|], counted as [[a b]|]; cbn [snd w_metrics with_metrics counters with_heap]; try done;
    edestruct record_traffic_counters as [-> ->]; done.
Qed.

(** However a TCP visitor's connection ends, the count of open connections
    that a graceful shutdown waits for is afterwards what it was before, and
    one more connection has been counted in total. *)
Theorem tcp_visitor_counted proxy_name group_port plugin_config peer work secs counted w :
  let c := counters (w_metrics w) in
  0 <= current_connections c < u64_max -> 0 <= total_connections c < u64_max ->
  let c' := counters (w_metrics (serve_tcp_visitor proxy_name group_port plugin_config peer work secs counted w).2) in
  current_connections c' = current_connections c /\ total_connections c' = total_connections c + 1.
Proof.
  intros c Hc Ht. unfold serve_tcp_visitor, drained. set (m := increment_connections (w_metrics w)).
  assert (Hend : forall w', current_connections (counters (w_metrics w')) = current_connections (counters m) /\
      total_connections (counters (w_metrics w')) = total_connections (counters m) ->
    let c' := counters (w_metrics (with_metrics (decrement_connections (w_metrics w')) w')) in
    current_connections c' = current_connections c /\ total_connections c' = total_connections c + 1).
  { intros w' [E1 E2]. cbn [w_metrics with_metrics]. unfold decrement_connections, increment_connections, m in *.
    cbn in *. rewrite E1, E2. unfold c, u64_max in *. rewrite (wrap_u64_small (_ + 1)) by lia.
    rewrite (wrap_u64_small (_ + 1)) by lia. rewrite !wrap_u64_small; lia. }
  destruct group_port as [port|].
  - cbn [w_pm with_metrics]. destruct (pick _ port) as [[target|] g]; [|by apply Hend].
    destruct (guarded _ _ _ _ _) as [fate w'] eqn:E. apply (f_equal snd) in E. cbn [snd] in *. apply Hend.
    rewrite <- E. destruct (guarded_counters target secs counted (tcp_member plugin_config peer work target)
      (with_pm (with_groups (w_pm w) g) (with_metrics m w))) as [-> ->]. done.
  - destruct (guarded _ _ _ _ _) as [fate w'] eqn:E. apply (f_equal snd) in E. cbn [snd] in *. apply Hend.
    rewrite <- E. destruct (guarded_counters proxy_name secs counted (tcp_member plugin_config peer work proxy_name)
      (with_metrics m w)) as [-> ->]. done.
Qed.
End Theorems.

(** The 503 for an empty group announces three bytes too many. *)
Lemma no_members_misframed : announces no_members_response 29 "No available group members" /\
  str_len "No available group members" = 26.
Proof.
  split; [|done].
  exists ("HTTP/1.1 503 Service Unavailable" +:+ crlf +:+ "Content-Type: text/plain" +:+ crlf)%string. reflexivity.
Qed.

(** ** Witnesses: a server with one tcpmux proxy behind credentials *)
#[local] Existing Instance map_order.
#[local] Existing Instance map_order_laws.
#[local] Existing Instance toy_base64.
#[local] Existing Instance toy_jwt.
#[local] Existing Instance Plugins.demo_tls_build.

Definition no_plugins : ServerPlugin.PluginManager :=
  {| on_login := []; on_new_proxy := []; on_close_proxy := []; on_ping := []; on_new_work_conn := [];
     on_new_user_conn := [] |}.

Definition mux_demo_route : TcpMuxRoute :=
  {| rt_proxy_name := "ssh"; rt_http_user := Some "u"%string; rt_http_password := Some "pw"%string;
     rt_route_by_http_user := None |}.

Definition mux_world : World :=
  with_pm (with_tcpmux (w_pm (toy_world [])) (tcpmux_register tcpmux_new ["db.example.com"%string] mux_demo_route))
    (toy_world []).

Definition mux_reads : list (result io_error (list byte)) :=
  [Ok (as_bytes ("CONNECT db.example.com:443 HTTP/1.1" +:+ crlf +:+ "Proxy-Auth")%string);
   Ok (as_bytes ("orization: Basic u:pw" +:+ crlf +:+ crlf +:+ "early")%string)].

#[local] Instance quiet_env : ServerEnv := toy_env no_plugins None.

Lemma mux_bridge_authorised_witness : exists name initial,
  (serve_mux_conn "9.9.9.9:1" mux_reads (Ok (Raw 0)) true true 0 None mux_world).1 = UBridge name (Raw 0) initial /\
  exists req route, serves (tcpmux (w_pm mux_world)) (Routers.cr_host req) route /\
    route_admits route (Routers.cr_user req) (Routers.cr_password req) /\ name = rt_proxy_name route.
Proof.
  exists "ssh"%string, (as_bytes "early").
  assert (E : (serve_mux_conn "9.9.9.9:1" mux_reads (Ok (Raw 0)) true true 0 None mux_world).1 =
    UBridge "ssh" (Raw 0) (as_bytes "early")) by (vm_compute; reflexivity).
  split; [exact E|]. apply mux_bridge_authorised in E.
  destruct E as (head & req & route & _ & _ & Hs & Ha & Hn & _). exists req, route. split; [exact Hs|]. split; [exact Ha|exact Hn].
Defined.

Lemma tcp_visitor_counted_witness :
  let c' := counters (w_metrics (serve_tcp_visitor "ssh" None None "9.9.9.9:1" (Err "none"%string) 0 None mux_world).2) in
  current_connections c' = 0 /\ total_connections c' = 1.
Proof.
  destruct (tcp_visitor_counted "ssh" None None "9.9.9.9:1" (Err "none"%string) 0 None mux_world) as [E1 E2];
    [vm_compute; split; congruence..|]. split; [exact E1|exact E2].
Defined.
