(* ===== verification/Web.v ===== *)
(** * The dashboard's sessions and gate (src/rust_frp_server/src/web.rs)

    [WebAuth] (credentials, session table, login throttle), the middleware that
    stands in front of every route, and the handlers that change state: login,
    logout and reload.  Clock readings are arguments, two where the code reads
    the clock twice; the random bytes of a token are an argument, [None] when
    the generator fails.  axum's routing, the pages and the listing handlers
    are not modelled: for the gate they are requests it lets through. *)
From S2P Require Import Prelude RustStd Utf8 ConfigTypes Transport EncStream IoConn WireV2 Secrets.
From S2P Require Import HttpClient JsonValue Auth.

Definition WEB_SESSION_TTL : Z := secs (8 * 60 * 60).
Definition WEB_SESSION_COOKIE : string := "frp_session".
Definition LOGIN_LOCK_THRESHOLD : Z := 5.
Definition LOGIN_LOCK_DURATION : Z := secs (5 * 60).

(** ** The login throttle *)
Record WebThrottle := { consecutive_failures : Z; locked_until : option Z }.

Definition web_throttle_new : WebThrottle := {| consecutive_failures := 0; locked_until := None |}.

Definition web_is_locked (t : WebThrottle) (now : Z) : bool * WebThrottle :=
  match locked_until t with
  | Some until => if decide (now < until) then (true, t) else (false, web_throttle_new)
  | None => (false, t)
  end.

Definition web_record_failure (t : WebThrottle) (now : Z) : bool * WebThrottle :=
  let n := wrap_u32 (consecutive_failures t + 1) in
  if decide (LOGIN_LOCK_THRESHOLD <= n)
  then (true, {| consecutive_failures := n; locked_until := Some (now + LOGIN_LOCK_DURATION) |})
  else (false, {| consecutive_failures := n; locked_until := locked_until t |}).

Definition web_record_success (t : WebThrottle) : WebThrottle := web_throttle_new.

(** ** Credentials and sessions *)
Record WebAuth := {
  wa_user : option string;
  wa_password : option string;
  web_sessions : gmap string Z;              (* token to expiry *)
  web_throttle : WebThrottle;
}.

Definition web_auth_new (user password : option string) : WebAuth :=
  {| wa_user := user; wa_password := password; web_sessions := ∅; web_throttle := web_throttle_new |}.

Definition with_sessions (a : WebAuth) (m : gmap string Z) : WebAuth :=
  {| wa_user := wa_user a; wa_password := wa_password a; web_sessions := m; web_throttle := web_throttle a |}.
Definition with_web_throttle (a : WebAuth) (t : WebThrottle) : WebAuth :=
  {| wa_user := wa_user a; wa_password := wa_password a; web_sessions := web_sessions a; web_throttle := t |}.

Definition requires_login (a : WebAuth) : bool :=
  bool_decide (is_Some (wa_user a)) && bool_decide (is_Some (wa_password a)).

Definition verify_credentials (a : WebAuth) (user password : string) : bool :=
  match wa_user a, wa_password a with
  | Some expected_user, Some expected_password =>
      str_eq_ct user expected_user && str_eq_ct password expected_password
  | _, _ => false
  end.

Definition purge_expired_sessions (now : Z) (m : gmap string Z) : gmap string Z :=
  filter (fun kv => now < kv.2) m.

Definition create_session (a : WebAuth) (token : option string) (t1 t2 : Z) : option string * WebAuth :=
  match token with
  | None => (None, a)
  | Some token =>
      (Some token, with_sessions a (<[token := t2 + WEB_SESSION_TTL]>
                     (purge_expired_sessions t1 (web_sessions a))))
  end.

Definition validate_session (a : WebAuth) (token : string) (t1 t2 : Z) : bool * WebAuth :=
  if is_empty token then (false, a) else
  let m := purge_expired_sessions t1 (web_sessions a) in
  (match m !! token with Some expires => bool_decide (t2 < expires) | None => false end,
   with_sessions a m).

Definition revoke_session (a : WebAuth) (token : string) : WebAuth :=
  if is_empty token then a else with_sessions a (delete token (web_sessions a)).

(** [attempt_login]; [Err true]: locked. *)
Definition attempt_login (a : WebAuth) (user password : string) (now : Z) : result bool unit * WebAuth :=
  let '(locked, t) := web_is_locked (web_throttle a) now in
  if (locked : bool) then (Err true, with_web_throttle a t)
  else if verify_credentials a user password then (Ok tt, with_web_throttle a (web_record_success t))
  else let '(locked, t) := web_record_failure t now in (Err locked, with_web_throttle a t).

(** ** Requests *)
Inductive method := GET | HEAD | OPTIONS | POST | OtherMethod (name : string).
#[global] Instance method_eq_dec : EqDecision method.
Proof. solve_decision. Defined.

(** [cookie] and [forwarded_proto]: the headers, where they are visible text. *)
Record web_request := {
  wr_method : method;
  wr_path : string;
  wr_cookie : option string;
  wr_forwarded_proto : option string;
  wr_body : string;
}.

Inductive web_response :=
| RedirectTo (path : string) (set_cookie : option string)
| Unauthorized
| Forbidden
| ServerError
| ReloadSent
| ReloadFailed
| ReloadUnavailable
| Forwarded.                                 (* any other route *)

Definition cookie_value (part : string) : option string :=
  rest ← strip_prefix WEB_SESSION_COOKIE (trim part);
  value ← strip_prefix "=" rest;
  if is_empty value then None else Some value.

Definition session_token_from_headers (cookie : option string) : option string :=
  cookie ← cookie;
  foldr (fun part later => match cookie_value part with Some v => Some v | None => later end) None
    (split_char ";"%char cookie).

Definition is_unsafe_unauthenticated (m : method) (path : string) : bool :=
  if decide (m = GET \/ m = HEAD \/ m = OPTIONS) then bool_decide (path = "/api/reload"%string) else true.

(** The middleware: [None] hands the request on. *)
Definition gate (expose_metrics : bool) (a : WebAuth) (r : web_request) (t1 t2 : Z)
  : option web_response * WebAuth :=
  if requires_login a then
    if bool_decide (wr_path r = "/login" \/ wr_path r = "/health" \/ wr_path r = "/healthz")%string
       || (expose_metrics && bool_decide (wr_path r = "/metrics"%string))
    then (None, a)
    else
      let '(valid, a) := match session_token_from_headers (wr_cookie r) with
                         | Some token => validate_session a token t1 t2
                         | None => (false, a)
                         end in
      if (valid : bool) then (None, a) else (Some (RedirectTo "/login" None), a)
  else if is_unsafe_unauthenticated (wr_method r) (wr_path r) then (Some Forbidden, a)
  else (None, a).

(** ** The handlers *)
Fixpoint plus_to_space (s : string) : string :=
  match s with
  | EmptyString => EmptyString
  | String c s => String (if Ascii.eqb c "+" then " "%char else c) (plus_to_space s)
  end.

(** What a request meets: the clock at the throttle, at a purge, and after it,
    the random bytes, and what the reload channel answers if there is one. *)
Record web_moment := {
  t_throttle : Z;
  t_purge : Z;
  t_expiry : Z;
  random_bytes : option (list byte);
  reload_channel : option bool;
}.

Section Web.
Context `{Base64} (url_decode : string -> option string) (header_value_ok : string -> bool)
  (expose_metrics : bool).

Definition new_session_token (random : option (list byte)) : option string := b64_encode <$> random.

Definition form_field (s : string) : option (string * string) :=
  match split_char "=" s with
  | key :: value :: _ =>
      Some (plus_to_space key, default EmptyString (url_decode (plus_to_space value)))
  | _ => None
  end.

Definition form_fields (body : string) : list (string * string) := omap form_field (split_char "&" body).

Definition field (name : string) (parts : list (string * string)) : string :=
  default EmptyString (snd <$> (snd <$> list_find (fun kv => kv.1 = name) parts)).

Definition session_cookie (token : string) (secure : bool) : string :=
  (WEB_SESSION_COOKIE +:+ "=" +:+ token +:+ "; HttpOnly; SameSite=Strict; Path=/; Max-Age="
   +:+ dec (WEB_SESSION_TTL / secs 1) +:+ (if secure then "; Secure" else EmptyString))%string.

Definition login_post_handler (a : WebAuth) (r : web_request) (t : web_moment) : web_response * WebAuth :=
  let parts := form_fields (wr_body r) in
  let username := field "username" parts in
  let password := field "password" parts in
  if negb (requires_login a) then (Unauthorized, a) else
  match attempt_login a username password (t_throttle t) with
  | (Err _, a) => (Unauthorized, a)
  | (Ok _, a) =>
      match create_session a (new_session_token (random_bytes t)) (t_purge t) (t_expiry t) with
      | (None, a) => (ServerError, a)
      | (Some token, a) =>
          let secure := match wr_forwarded_proto r with
                        | Some v => eq_ignore_ascii_case v "https"
                        | None => false
                        end in
          let cookie := session_cookie token secure in
          if header_value_ok cookie then (RedirectTo "/" (Some cookie), a) else (ServerError, a)
      end
  end.

Definition logout_handler (a : WebAuth) (r : web_request) : web_response * WebAuth :=
  let a := match session_token_from_headers (wr_cookie r) with
           | Some token => revoke_session a token
           | None => a
           end in
  (RedirectTo "/login" (Some "frp_session=; HttpOnly; SameSite=Strict; Path=/; Max-Age=0"%string), a).

Definition reload_handler (t : web_moment) : web_response :=
  match reload_channel t with
  | Some true => ReloadSent
  | Some false => ReloadFailed
  | None => ReloadUnavailable
  end.

(** [create_routes]: the routes whose handlers change state. *)
Definition route (a : WebAuth) (r : web_request) (t : web_moment) : web_response * WebAuth :=
  if decide (wr_path r = "/login" /\ wr_method r = POST)%string then login_post_handler a r t
  else if decide (wr_path r = "/logout" /\ (wr_method r = GET \/ wr_method r = HEAD))%string
  then logout_handler a r
  else if decide (wr_path r = "/api/reload" /\ wr_method r = POST)%string then (reload_handler t, a)
  else (Forwarded, a).

Definition serve (a : WebAuth) (rt : web_request * web_moment) : web_response * WebAuth :=
  let '(r, t) := rt in
  match gate expose_metrics a r (t_purge t) (t_expiry t) with
  | (Some response, a) => (response, a)
  | (None, a) => route a r t
  end.

(** The answers to a sequence of requests. *)
Fixpoint serve_all (a : WebAuth) (rs : list (web_request * web_moment)) : list web_response * WebAuth :=
  match rs with
  | [] => ([], a)
  | r :: rs =>
      let '(x, a) := serve a r in
      let '(xs, a) := serve_all a rs in (x :: xs, a)
  end.
End Web.

(** [WebServer::new]: the address is [addr:port]; its parsing is given. *)
Definition web_server_new (parse_addr : string -> result string string) (c : WebServerConfig)
  : result string (string * WebAuth * bool) :=
  addr ← parse_addr (ws_addr c +:+ ":" +:+ dec (ws_port c))%string;
  Ok (addr, web_auth_new (ws_user c) (ws_password c), ws_expose_metrics c).

(** ** The abstract session table: who was let in when, nothing forgotten *)
Definition live (issued : gmap string Z) (token : string) (now : Z) : Prop :=
  exists t, issued !! token = Some t /\ now < t + WEB_SESSION_TTL.

Inductive session_op :=
| OpCreate (token : option string) (t1 t2 : Z)
| OpValidate (token : string) (t1 t2 : Z)
| OpRevoke (token : string).

Definition session_step (a : WebAuth) (o : session_op) : bool * WebAuth :=
  match o with
  | OpCreate token t1 t2 => let '(r, a) := create_session a token t1 t2 in (bool_decide (is_Some r), a)
  | OpValidate token t1 t2 => validate_session a token t1 t2
  | OpRevoke token => (true, revoke_session a token)
  end.

#[global] Instance live_dec issued token now : Decision (live issued token now).
Proof.
  unfold live. destruct (issued !! token) as [t|] eqn:E.
  - destruct (decide (now < t + WEB_SESSION_TTL)); [left; eauto|right; intros (t' & E' & ?); simplify_eq; lia].
  - right. by intros (t' & E' & _).
Defined.

Definition spec_step (issued : gmap string Z) (o : session_op) : bool * gmap string Z :=
  match o with
  | OpCreate None _ _ => (false, issued)
  | OpCreate (Some token) _ t2 => (true, <[token := t2]> issued)
  | OpValidate token _ t2 => (negb (is_empty token) && bool_decide (live issued token t2), issued)
  | OpRevoke token => (true, if is_empty token then issued else delete token issued)
  end.

Fixpoint run {S O : Type} (step : S -> O -> bool * S) (s : S) (os : list O) : list bool :=
  match os with
  | [] => []
  | o :: os => let '(b, s) := step s o in b :: run step s os
  end.

(** The clock does not go back. *)
Fixpoint clocked (now : Z) (os : list session_op) : Prop :=
  match os with
  | [] => True
  | OpCreate _ t1 t2 :: os | OpValidate _ t1 t2 :: os => now <= t1 <= t2 /\ clocked t2 os
  | OpRevoke _ :: os => clocked now os
  end.

(** ** Sessions refine the abstract table *)

(** The two tables agree on every session that can still be used. *)
Definition session_rel (now : Z) (m issued : gmap string Z) : Prop :=
  forall token t, now <= t ->
    (exists e, m !! token = Some e /\ t < e) <-> live issued token t.

Lemma session_rel_later now now' m issued : now <= now' ->
  session_rel now m issued -> session_rel now' m issued.
Proof. intros Hle R token t Ht. apply R. lia. Qed.

Lemma session_rel_purge now t m issued : t <= now ->
  session_rel now m issued -> session_rel now (purge_expired_sessions t m) issued.
Proof.
  intros Ht R token t' Ht'. rewrite <- (R token t' Ht'). split.
  - intros (e & He & Hlt). apply map_lookup_filter_Some in He as [He _]. eauto.
  - intros (e & He & Hlt). exists e. split; [|done]. apply map_lookup_filter_Some. simpl. split; [done|lia].
Qed.

Lemma session_rel_insert now m issued token t2 : session_rel now m issued ->
  session_rel now (<[token := t2 + WEB_SESSION_TTL]> m) (<[token := t2]> issued).
Proof.
  intros R token' t Ht. destruct (decide (token' = token)) as [->|Hne]; unfold live.
  - setoid_rewrite lookup_insert_eq. split.
    + intros (e & [= <-] & Hlt). eauto.
    + intros (t' & [= <-] & Hlt). eauto.
  - rewrite !lookup_insert_ne by done. by apply R.
Qed.

Lemma session_rel_delete now m issued token : session_rel now m issued ->
  session_rel now (delete token m) (delete token issued).
Proof.
  intros R token' t Ht. destruct (decide (token' = token)) as [->|Hne]; unfold live.
  - setoid_rewrite lookup_delete_eq. by split; intros (? & ? & _).
  - rewrite !lookup_delete_ne by done. by apply R.
Qed.

(** One operation: the same answer, and the tables still agree. *)
Lemma session_step_sim now a issued o : clocked now [o] -> session_rel now (web_sessions a) issued ->
  let '(b, a') := session_step a o in
  let '(b', issued') := spec_step issued o in
  b = b' /\ exists now', now <= now' /\ (forall os, clocked now (o :: os) -> clocked now' os) /\
    session_rel now' (web_sessions a') issued'.
Proof.
  intros Hc R. destruct o as [[token|] t1 t2|token t1 t2|token]; simpl in *.
  - split; [done|]. exists t2. split_and!; [lia|tauto|].
    apply session_rel_insert, session_rel_purge; [lia|]. by apply (session_rel_later now); [lia|].
  - split; [done|]. exists t2. split_and!; [lia|tauto|]. by apply (session_rel_later now); [lia|].
  - unfold validate_session. destruct (is_empty token).
    { split; [done|]. exists t2. split_and!; [lia|tauto|]. by apply (session_rel_later now); [lia|]. }
    assert (R' : session_rel t2 (purge_expired_sessions t1 (web_sessions a)) issued)
      by (apply session_rel_purge; [lia|]; by apply (session_rel_later now); [lia|]).
    split; [|exists t2; split_and!; [lia|tauto|done]]. simpl.
    specialize (R' token t2 (Z.le_refl t2)).
    destruct (_ !! token) as [e|] eqn:E.
    + apply bool_decide_ext. rewrite <- R'. split; [eauto|]. intros (? & [= <-] & ?). done.
    + symmetry. apply bool_decide_eq_false_2. rewrite <- R'. by intros (? & ? & _).
  - unfold revoke_session. split; [done|]. exists now. split_and!; [lia|done|].
    destruct (is_empty token); [done|]. by apply session_rel_delete.
Qed.

Lemma sessions_sim os : forall now a issued, clocked now os -> session_rel now (web_sessions a) issued ->
  run session_step a os = run spec_step issued os.
Proof.
  induction os as [|o os IH]; intros now a issued Hc R; [done|]. cbn [run].
  assert (Hc1 : clocked now [o]) by (destruct o; simpl in *; tauto).
  pose proof (session_step_sim now a issued o Hc1 R) as Hsim.
  destruct (session_step a o) as [b a'], (spec_step issued o) as [b' issued'].
  destruct Hsim as (-> & now' & _ & Hc' & R'). f_equal. eauto.
Qed.

(** C22: the session table, which forgets expired entries whenever it is used,
    answers exactly like the abstract one that remembers every token ever
    issued: over any sequence of logins, checks and logouts whose clock does
    not go back, a token is accepted iff it was issued, not revoked since, and
    less than eight hours ago. *)
Theorem sessions_refine user password now os : clocked now os ->
  run session_step (web_auth_new user password) os = run spec_step ∅ os.
Proof.
  intros Hc. apply (sessions_sim os now); [done|]. intros token t _. unfold live. simpl.
  setoid_rewrite lookup_empty. by split; intros (? & ? & _).
Qed.

Lemma sessions_refine_witness :
  let day := secs 86400 in
  let os := [OpCreate (Some "tok"%string) 0 1; OpValidate "tok" 2 3; OpRevoke "tok"; OpValidate "tok" 4 4;
             OpCreate (Some "two"%string) 5 5; OpValidate "two" day day] in
  run session_step (web_auth_new (Some "admin"%string) (Some "pw"%string)) os
    = [true; true; true; false; true; false] /\
  run session_step (web_auth_new (Some "admin"%string) (Some "pw"%string)) os = run spec_step ∅ os.
Proof.
  intros day os. split; [vm_compute; reflexivity|].
  apply (sessions_refine (Some "admin"%string) (Some "pw"%string) 0 os).
  unfold os, day, clocked, secs. repeat split; lia.
Defined.

(** ** Guessing the password *)

(** How many of the attempts get their credentials compared. *)
Fixpoint compared (a : WebAuth) (attempts : list (string * string * Z)) : Z :=
  match attempts with
  | [] => 0
  | (user, password, now) :: attempts =>
      (if (web_is_locked (web_throttle a) now).1 then 0 else 1)
      + compared (attempt_login a user password now).2 attempts
  end.

(** Failing attempts between [now] and [until], in order. *)
Fixpoint guesses (a : WebAuth) (now until : Z) (attempts : list (string * string * Z)) : Prop :=
  match attempts with
  | [] => True
  | (user, password, t) :: attempts =>
      now <= t <= until /\ verify_credentials a user password = false /\ guesses a t until attempts
  end.

Lemma guesses_auth a a' now until l : wa_user a = wa_user a' -> wa_password a = wa_password a' ->
  guesses a now until l -> guesses a' now until l.
Proof.
  intros Hu Hp. revert now. induction l as [|[[u p] t] l IH]; simpl; intros now; [done|].
  unfold verify_credentials. rewrite Hu, Hp. intros (H1 & H2 & H3). eauto.
Qed.

(** What the throttle still allows until [until]. *)
Definition budget (t : WebThrottle) (now until : Z) : Z :=
  match locked_until t with
  | None => (LOGIN_LOCK_THRESHOLD - consecutive_failures t)
            + LOGIN_LOCK_THRESHOLD * ((until - now) / LOGIN_LOCK_DURATION)
  | Some u => if decide (u <= until)
              then LOGIN_LOCK_THRESHOLD + LOGIN_LOCK_THRESHOLD * ((until - u) / LOGIN_LOCK_DURATION)
              else 0
  end.

Definition throttle_wf (t : WebThrottle) : Prop :=
  0 <= consecutive_failures t <= LOGIN_LOCK_THRESHOLD /\
  (locked_until t = None -> consecutive_failures t < LOGIN_LOCK_THRESHOLD).

Lemma failure_budget t now until : now <= until -> locked_until t = None ->
  0 <= consecutive_failures t < LOGIN_LOCK_THRESHOLD ->
  let t' := (web_record_failure t now).2 in
  throttle_wf t' /\ 1 + budget t' now until <= budget t now until.
Proof.
  intros Hle Hl Hn t'. subst t'. unfold web_record_failure, throttle_wf, budget.
  unfold LOGIN_LOCK_THRESHOLD, LOGIN_LOCK_DURATION, secs in *. rewrite Hl.
  rewrite wrap_u32_small by lia. case_decide; simpl.
  - split; [split; [lia|done]|]. case_decide; euclid.
  - split; [split; [lia|intros; lia]|]. lia.
Qed.

Lemma budget_later t now now' until : now <= now' <= until -> budget t now' until <= budget t now until.
Proof.
  intros H. unfold budget. destruct (locked_until t); [apply Z.le_refl|].
  assert ((until - now') / LOGIN_LOCK_DURATION <= (until - now) / LOGIN_LOCK_DURATION)
    by (apply Z.div_le_mono; [done|lia]).
  unfold LOGIN_LOCK_THRESHOLD. lia.
Qed.

Lemma budget_nonneg t now until : throttle_wf t -> now <= until -> 0 <= budget t now until.
Proof.
  intros [H _] Hle. unfold budget, LOGIN_LOCK_THRESHOLD, LOGIN_LOCK_DURATION, secs in *.
  destruct (locked_until t); [case_decide|]; euclid.
Qed.

#[local] Arguments budget : simpl never.

Lemma compared_budget l : forall a now until, throttle_wf (web_throttle a) -> now <= until ->
  guesses a now until l -> compared a l <= budget (web_throttle a) now until.
Proof.
  induction l as [|[[u p] t] l IH]; intros a now until Hwf Hle Hg; simpl.
  { by apply budget_nonneg. }
  destruct Hg as (Ht & Hv & Hg). unfold attempt_login.
  pose proof (budget_later (web_throttle a) now t until Ht) as Hlater.
  unfold web_is_locked. destruct (locked_until (web_throttle a)) as [until'|] eqn:El.
  - destruct (decide (t < until')) as [Hlt|Hge]; cbn [fst snd].
    + specialize (IH (with_web_throttle a (web_throttle a)) t until). simpl in IH.
      assert (compared (with_web_throttle a (web_throttle a)) l <= budget (web_throttle a) t until); [|lia].
      apply IH; [done|lia|]. by eapply guesses_auth; [..|exact Hg].
    + rewrite Hv. destruct (failure_budget web_throttle_new t until) as [Hwf' Hb]; [lia|done|done|].
      destruct (web_record_failure web_throttle_new t) as [b t'] eqn:Ef. simpl in *.
      specialize (IH (with_web_throttle a t') t until Hwf' ltac:(lia)). simpl in IH.
      assert (compared (with_web_throttle a t') l <= budget t' t until)
        by (apply IH; by eapply guesses_auth; [..|exact Hg]).
      assert (budget web_throttle_new t until <= budget (web_throttle a) now until); [|lia].
      unfold budget. rewrite El. simpl. rewrite decide_True by lia.
      unfold LOGIN_LOCK_THRESHOLD, LOGIN_LOCK_DURATION, secs. euclid.
  - simpl. rewrite Hv.
    destruct (failure_budget (web_throttle a) t until) as [Hwf' Hb];
      [lia|done|destruct Hwf as [Hr Hn]; specialize (Hn El); lia|].
    destruct (web_record_failure (web_throttle a) t) as [b t'] eqn:Ef. simpl in *.
    specialize (IH (with_web_throttle a t') t until Hwf' ltac:(lia)). simpl in IH.
    assert (compared (with_web_throttle a t') l <= budget t' t until)
      by (apply IH; by eapply guesses_auth; [..|exact Hg]). lia.
Qed.

(** Whether an attempt at [now] with the right credentials would be let in. *)
Definition open_to_guess (a : WebAuth) (now : Z) : bool :=
  match wa_user a, wa_password a with
  | Some user, Some password =>
      match (attempt_login a user password now).1 with Ok _ => true | Err _ => false end
  | _, _ => false
  end.

(** How many of the attempts come at a moment when the right one would be let in. *)
Fixpoint tested (a : WebAuth) (attempts : list (string * string * Z)) : Z :=
  match attempts with
  | [] => 0
  | (user, password, now) :: attempts =>
      (if open_to_guess a now then 1 else 0) + tested (attempt_login a user password now).2 attempts
  end.

Lemma open_unlocked a now : open_to_guess a now = true -> (web_is_locked (web_throttle a) now).1 = false.
Proof.
  unfold open_to_guess, attempt_login. destruct (wa_user a), (wa_password a); try done.
  by destruct (web_is_locked (web_throttle a) now) as [[] t].
Qed.

Lemma tested_compared l : forall a, tested a l <= compared a l.
Proof.
  induction l as [|[[u p] t] l IH]; intros a; simpl; [done|].
  specialize (IH (attempt_login a u p t).2). pose proof (open_unlocked a t) as Ho.
  destruct (open_to_guess a t); [rewrite Ho by done|destruct (web_is_locked _ _).1]; lia.
Qed.

(** C23: guessing is slow.  Of any sequence of attempts with wrong credentials,
    whoever makes them and however many there are, at most five per started
    five-minute period tell anything about the password: all others come at a
    moment when the login answers the right credentials with a refusal too.
    (Attempts that fail only: a login that succeeds starts the count afresh.) *)
Theorem guesses_bounded user password start duration attempts : 0 <= duration ->
  guesses (web_auth_new user password) start (start + duration) attempts ->
  tested (web_auth_new user password) attempts <= 5 * (duration / secs 300 + 1).
Proof.
  intros Hd Hg. etransitivity; [apply tested_compared|]. etransitivity.
  - apply (compared_budget attempts _ start (start + duration)); [|lia|done]. split; simpl; [done|].
    intros _. done.
  - unfold budget, LOGIN_LOCK_THRESHOLD, LOGIN_LOCK_DURATION, secs. simpl.
    replace (start + duration - start) with duration by lia. euclid.
Qed.

Lemma guesses_bounded_witness :
  let a := web_auth_new (Some "admin"%string) (Some "secret"%string) in
  let attempts := (fun i => ("admin"%string, "guess"%string, secs (Z.of_nat i))) <$> seq 0 100 in
  tested a attempts = 5 /\ tested a attempts <= 5 * (secs 99 / secs 300 + 1).
Proof.
  intros a attempts. split; [vm_compute; reflexivity|].
  apply (guesses_bounded (Some "admin"%string) (Some "secret"%string) 0 (secs 99) attempts);
    [unfold secs; lia|]. unfold attempts. simpl. unfold secs. repeat split; lia.
Defined.

(** ** Cookies *)
Definition other_cookie (part : string) : Prop :=
  contains_char ";" part = false /\ cookie_value part = None.

Lemma token_of_parts others pair : Forall other_cookie others ->
  session_token_from_headers (Some (foldr (fun p acc => p +:+ ";" +:+ acc) pair others)%string)
  = session_token_from_headers (Some pair).
Proof.
  intros Ho. unfold session_token_from_headers. cbn [mbind option_bind].
  induction Ho as [|p others [Hp Hn] _ IH]; [done|]. simpl foldr at 2.
  change (p +:+ ";" +:+ ?x)%string with (p +:+ String ";"%char x)%string.
  rewrite split_char_app by done. cbn [foldr]. by rewrite Hn.
Qed.

Lemma cookie_value_session token : str_all visible token = true -> token <> EmptyString ->
  cookie_value (WEB_SESSION_COOKIE +:+ "=" +:+ token)%string = Some token.
Proof.
  intros Hv Hne. unfold cookie_value.
  rewrite trim_tight by (apply word_tight; by rewrite !str_all_app, Hv).
  rewrite (proj2 (strip_prefix_Some _ _ ("=" +:+ token)%string)) by done. cbn [mbind option_bind].
  rewrite (proj2 (strip_prefix_Some _ _ token)) by done. cbn [mbind option_bind].
  by rewrite (proj2 (is_empty_false token)).
Qed.

Lemma visible_no_semicolon token : str_all (fun c => visible c && negb (Ascii.eqb c ";")) token = true ->
  str_all visible token = true /\ contains_char ";" token = false.
Proof.
  induction token as [|c token IH]; [done|]. rewrite !str_all_cons. simpl.
  rewrite !andb_true_iff, negb_true_iff. intros [[Hc Hs] Ht]. apply IH in Ht as [H1 H2].
  apply Ascii.eqb_neq in Hs. by rewrite Hc, H1, decide_False.
Qed.

(** the browser's answer works: the part of the Set-Cookie header before
    its attributes, sent back with any other cookies before it, is read as
    exactly the token that was issued, provided the token is printable and has
    no semicolon (base64 has neither problem). *)
Theorem cookie_roundtrip others token secure :
  Forall other_cookie others -> token <> EmptyString ->
  str_all (fun c => visible c && negb (Ascii.eqb c ";")) token = true ->
  exists pair, head (split_char ";"%char (session_cookie token secure)) = Some pair /\
    session_token_from_headers (Some (foldr (fun p acc => p +:+ ";" +:+ acc) pair others)%string)
    = Some token.
Proof.
  intros Ho Hne Hv. apply visible_no_semicolon in Hv as [Hv Hs].
  exists (WEB_SESSION_COOKIE +:+ "=" +:+ token)%string.
  assert (Hc : contains_char ";" (WEB_SESSION_COOKIE +:+ "=" +:+ token)%string = false)
    by (rewrite !contains_char_app, Hs; done).
  split.
  - unfold session_cookie. rewrite !(str_app_assoc WEB_SESSION_COOKIE), (str_app_assoc _ token).
    rewrite <- (str_app_assoc WEB_SESSION_COOKIE "=" token).
    change ("; HttpOnly; SameSite=Strict; Path=/; Max-Age=" +:+ ?x)%string
      with (String ";"%char (" HttpOnly; SameSite=Strict; Path=/; Max-Age=" +:+ x)%string).
    by rewrite split_char_app by done.
  - rewrite token_of_parts by done. unfold session_token_from_headers. cbn [mbind option_bind].
    rewrite split_char_single by done. cbn [foldr]. by rewrite cookie_value_session.
Qed.

Lemma cookie_roundtrip_witness : exists pair,
  head (split_char ";"%char (session_cookie "q83vASNFZ4k=" true)) = Some pair /\
  session_token_from_headers (Some (foldr (fun p acc => p +:+ ";" +:+ acc) pair ["theme=dark"; " lang=zh"])%string)
  = Some "q83vASNFZ4k="%string.
Proof.
  apply (cookie_roundtrip ["theme=dark"; " lang=zh"]%string); [|done|reflexivity].
  repeat constructor.
Defined.

(** ** Who gets past the gate *)
Definition protected (expose_metrics : bool) (r : web_request) : bool :=
  negb (bool_decide (wr_path r = "/login" \/ wr_path r = "/health" \/ wr_path r = "/healthz")%string
        || (expose_metrics && bool_decide (wr_path r = "/metrics"%string))).

Definition is_logout (r : web_request) (token : string) : Prop :=
  wr_path r = "/logout"%string /\ (wr_method r = GET \/ wr_method r = HEAD) /\
  session_token_from_headers (wr_cookie r) = Some token.

Lemma cookie_nonempty cookie token : session_token_from_headers cookie = Some token -> is_empty token = false.
Proof.
  unfold session_token_from_headers. destruct cookie as [c|]; [|done]. cbn [mbind option_bind].
  induction (split_char ";" c) as [|p ps IH]; [done|]. cbn [foldr]. unfold cookie_value.
  destruct (strip_prefix _ _) as [r|]; [|done]. cbn [mbind option_bind].
  destruct (strip_prefix _ r) as [v|]; [|done]. cbn [mbind option_bind].
  destruct (is_empty v) eqn:E; [done|]. by intros [= <-].
Qed.

Lemma gate_spec expose a r t1 t2 o a1 : requires_login a = true -> gate expose a r t1 t2 = (o, a1) ->
  wa_user a1 = wa_user a /\ wa_password a1 = wa_password a /\
  web_sessions a1 ⊆ web_sessions a /\
  match o with
  | None => protected expose r = true ->
            exists token e, session_token_from_headers (wr_cookie r) = Some token /\
              web_sessions a1 !! token = Some e /\ t2 < e
  | Some x => x = RedirectTo "/login" None /\
              forall token e, session_token_from_headers (wr_cookie r) = Some token ->
                web_sessions a1 !! token = Some e -> e <= t2
  end.
Proof.
  intros Hr. unfold gate, protected. rewrite Hr. destruct (_ || _); simpl.
  { intros [= <- <-]. done. }
  destruct (session_token_from_headers (wr_cookie r)) as [token|] eqn:Et; simpl.
  2:{ intros [= <- <-]. split_and!; try done. }
  unfold validate_session. rewrite (cookie_nonempty _ _ Et).
  set (m := purge_expired_sessions t1 (web_sessions a)).
  assert (m ⊆ web_sessions a) by apply map_filter_subseteq.
  destruct (m !! token) as [e|] eqn:El; [case_bool_decide as Hlt|]; intros [= <- <-]; split_and!; try done.
  - intros _. exists token, e. done.
  - intros token' e' [= <-] He. simpl in He. simplify_eq. lia.
  - intros token' e' [= <-] He. simpl in He. by simplify_eq.
Qed.

Section Protected.
Context `{Base64} (url_decode : string -> option string) (header_value_ok : string -> bool)
  (expose_metrics : bool) (user password : string).

(** A login with the right credentials that was given [token]. *)
Definition grants (rt : web_request * web_moment) (token : string) : Prop :=
  wr_path rt.1 = "/login"%string /\ wr_method rt.1 = POST /\
  field "username" (form_fields url_decode (wr_body rt.1)) = user /\
  field "password" (form_fields url_decode (wr_body rt.1)) = password /\
  new_session_token (random_bytes rt.2) = Some token.

(** Where a session that expires at [e] comes from. *)
Definition backed (before : list (web_request * web_moment)) (token : string) (e : Z) : Prop :=
  exists b1 login b2, before = b1 ++ login :: b2 /\ grants login token /\
    e = t_expiry login.2 + WEB_SESSION_TTL /\
    Forall (fun rt => is_logout rt.1 token -> e <= t_expiry rt.2) b2.

Definition sessions_backed (before : list (web_request * web_moment)) (a : WebAuth) : Prop :=
  wa_user a = Some user /\ wa_password a = Some password /\
  map_Forall (backed before) (web_sessions a).

Lemma backed_snoc before rt token e : backed before token e ->
  (is_logout rt.1 token -> e <= t_expiry rt.2) -> backed (before ++ [rt]) token e.
Proof.
  intros (b1 & l & b2 & -> & Hg & -> & Hf) Hl. exists b1, l, (b2 ++ [rt]).
  split_and!; [by rewrite <- app_assoc|done|done|]. apply Forall_app_2; [done|by constructor].
Qed.

Lemma attempt_login_keeps a u p now :
  wa_user (attempt_login a u p now).2 = wa_user a /\
  wa_password (attempt_login a u p now).2 = wa_password a /\
  web_sessions (attempt_login a u p now).2 = web_sessions a /\
  ((attempt_login a u p now).1 = Ok tt -> verify_credentials a u p = true).
Proof.
  unfold attempt_login. destruct (web_is_locked _ _) as [[] t]; simpl; [done|].
  destruct (verify_credentials a u p) eqn:Ev; [done|]. by destruct (web_record_failure t now).
Qed.

Lemma login_backed before a r t : wr_path r = "/login"%string -> wr_method r = POST ->
  sessions_backed before a ->
  sessions_backed (before ++ [(r, t)]) (login_post_handler url_decode header_value_ok a r t).2.
Proof.
  intros Hp Hm (Hu & Hpw & Hs).
  assert (Hs' : map_Forall (backed (before ++ [(r, t)])) (web_sessions a)).
  { intros token e He. apply backed_snoc; [by apply Hs|]. intros [Hp' _]. simpl in Hp'. congruence. }
  unfold login_post_handler. destruct (negb (requires_login a)); [done|].
  set (u := field "username" _). set (p := field "password" _).
  pose proof (attempt_login_keeps a u p (t_throttle t)) as (K1 & K2 & K3 & K4).
  destruct (attempt_login a u p (t_throttle t)) as [[[]|locked] a1]; simpl in *.
  2:{ split_and!; [congruence..|by rewrite K3]. }
  specialize (K4 eq_refl). unfold verify_credentials in K4. rewrite Hu, Hpw in K4.
  apply andb_true_iff in K4 as [Ku Kp]. apply str_eq_ct_true in Ku. apply str_eq_ct_true in Kp.
  unfold create_session. destruct (new_session_token (random_bytes t)) as [token|] eqn:En; simpl.
  2:{ split_and!; [congruence..|by rewrite K3]. }
  destruct (header_value_ok _); simpl; (split_and!; simpl; [congruence..|]).
  all: apply map_Forall_insert_2;
    [|intros k x Hk; apply map_lookup_filter_Some in Hk as [Hk _]; rewrite K3 in Hk; by apply Hs'].
  all: exists before, (r, t), []; split_and!; try done; unfold grants; split_and!; done.
Qed.

Lemma serve_backed before a rt : sessions_backed before a ->
  sessions_backed (before ++ [rt]) (serve url_decode header_value_ok expose_metrics a rt).2.
Proof.
  intros (Hu & Hp & Hs). destruct rt as [r t]. unfold serve.
  destruct (gate expose_metrics a r (t_purge t) (t_expiry t)) as [o a1] eqn:Eg.
  apply gate_spec in Eg as (G1 & G2 & Gs & Go); [|unfold requires_login; by rewrite Hu, Hp].
  assert (B1 : sessions_backed before a1).
  { split_and!; [congruence..|]. intros token e He. apply Hs. by eapply lookup_weaken. }
  destruct o as [x|]; simpl.
  { destruct B1 as (? & ? & Hs1). split_and!; [done..|]. intros token e He.
    apply backed_snoc; [by apply Hs1|]. intros (_ & _ & Ht). simpl in *. eapply Go; eauto. }
  unfold route. case_decide as Hlogin; [apply login_backed; tauto|].
  destruct B1 as (Hu1 & Hp1 & Hs1).
  assert (Hother : (forall token, ~ is_logout r token) -> sessions_backed (before ++ [(r, t)]) a1).
  { intros Hn. split_and!; [done..|]. intros token e He.
    apply backed_snoc; [by apply Hs1|]. intros Hl. by destruct (Hn token). }
  case_decide as Hlogout.
  - unfold logout_handler. simpl. destruct (session_token_from_headers (wr_cookie r)) as [token|] eqn:Et.
    2:{ apply Hother. intros token (_ & _ & E). congruence. }
    unfold revoke_session. rewrite (cookie_nonempty _ _ Et). split_and!; [done..|]. simpl.
    intros token' e He. apply lookup_delete_Some in He as [Hne He].
    apply backed_snoc; [by apply Hs1|]. intros (_ & _ & E). simpl in E. congruence.
  - case_decide; simpl; apply Hother; intros token (E1 & E2 & _); tauto.
Qed.

Lemma serve_all_app a rs1 rs2 :
  serve_all url_decode header_value_ok expose_metrics a (rs1 ++ rs2) =
  (let '(x1, a) := serve_all url_decode header_value_ok expose_metrics a rs1 in
   let '(x2, a) := serve_all url_decode header_value_ok expose_metrics a rs2 in (x1 ++ x2, a)).
Proof.
  revert a. induction rs1 as [|r rs1 IH]; intros a; simpl.
  - by destruct (serve_all _ _ _ a rs2).
  - destruct (serve _ _ _ a r) as [x a1]. rewrite IH.
    destruct (serve_all _ _ _ a1 rs1) as [x1 a2]. by destruct (serve_all _ _ _ a2 rs2).
Qed.

Lemma serve_all_backed before : 
  sessions_backed before (serve_all url_decode header_value_ok expose_metrics
    (web_auth_new (Some user) (Some password)) before).2.
Proof.
  induction before as [|rt before IH] using rev_ind; [split_and!; [done..|apply map_Forall_empty]|].
  rewrite serve_all_app. destruct (serve_all _ _ _ _ before) as [xs a] eqn:E. simpl.
  destruct (serve _ _ _ a rt) as [x a1] eqn:Es. simpl.
  change a1 with ((x, a1).2). rewrite <- Es. by apply serve_backed.
Qed.

(** C17: the dashboard is closed to strangers: with credentials configured, a
    request to anything but the login page, the health probes and an exposed
    /metrics is answered with a redirect to the login page, unless its cookie
    holds a token that an earlier login with the right user name and password
    was given less than eight hours ago, and that was not logged out since. *)
Theorem dashboard_protected before r t xs x a :
  serve_all url_decode header_value_ok expose_metrics (web_auth_new (Some user) (Some password))
    (before ++ [(r, t)]) = (xs ++ [x], a) ->
  protected expose_metrics r = true -> x <> RedirectTo "/login" None ->
  exists token e, session_token_from_headers (wr_cookie r) = Some token /\
    backed before token e /\ t_expiry t < e.
Proof.
  intros Hrun Hprot Hx. rewrite serve_all_app in Hrun. pose proof (serve_all_backed before) as Hb.
  destruct (serve_all _ _ _ _ before) as [ys a0]. simpl in *.
  destruct (gate expose_metrics a0 r (t_purge t) (t_expiry t)) as [o a1] eqn:Eg.
  destruct Hb as (Hu & Hp & Hs).
  apply gate_spec in Eg as (_ & _ & Gs & Go); [|unfold requires_login; by rewrite Hu, Hp].
  destruct o as [y|].
  { destruct Go as [-> _]. injection Hrun as E _. by apply app_inj_tail in E as [_ <-]. }
  destruct (Go Hprot) as (token & e & Ht & He & Hlt). exists token, e. split_and!; [done| |done].
  apply Hs. by eapply lookup_weaken.
Qed.
End Protected.

Definition demo_moment (now : Z) : web_moment :=
  {| t_throttle := now; t_purge := now; t_expiry := now; random_bytes := Some (as_bytes "q83v");
     reload_channel := Some true |}.
Definition demo_login : web_request :=
  {| wr_method := POST; wr_path := "/login"; wr_cookie := None; wr_forwarded_proto := None;
     wr_body := "username=admin&password=secret" |}.
Definition demo_reload : web_request :=
  {| wr_method := POST; wr_path := "/api/reload"; wr_cookie := Some "theme=dark; frp_session=q83v"%string;
     wr_forwarded_proto := None; wr_body := EmptyString |}.

Lemma dashboard_protected_witness :
  exists token e, session_token_from_headers (wr_cookie demo_reload) = Some token /\
    @backed toy_base64 Some "admin" "secret" [(demo_login, demo_moment 5)] token e /\ secs 60 < e.
Proof.
  destruct (@serve_all toy_base64 Some (fun _ => true) false
    (web_auth_new (Some "admin"%string) (Some "secret"%string))
    ([(demo_login, demo_moment 5)] ++ [(demo_reload, demo_moment (secs 60))])) as [xs a] eqn:E.
  assert (Hxs : xs = [RedirectTo "/" (Some (session_cookie "q83v" false))] ++ [ReloadSent]).
  { apply (f_equal fst) in E. vm_compute in E. vm_compute. symmetry. exact E. }
  subst xs.
  apply (@dashboard_protected toy_base64 Some (fun _ => true) false "admin" "secret"
    [(demo_login, demo_moment 5)] demo_reload (demo_moment (secs 60))
    [RedirectTo "/" (Some (session_cookie "q83v" false))] ReloadSent a E); [reflexivity|discriminate].
Defined.

(** Without credentials nothing that could change state is answered. *)
Lemma no_credentials_read_only `{Base64} url_decode ok expose user rt :
  let a := web_auth_new user None in
  (serve url_decode ok expose a rt).1 = Forbidden \/
  ((serve url_decode ok expose a rt).1 <> ReloadSent /\ web_sessions (serve url_decode ok expose a rt).2 = ∅).
Proof.
  intros a. destruct rt as [r t]. unfold serve, gate.
  replace (requires_login a) with false by (unfold requires_login; by rewrite andb_false_r).
  destruct (is_unsafe_unauthenticated (wr_method r) (wr_path r)) eqn:E; [by left|right].
  unfold is_unsafe_unauthenticated in E. destruct (decide _) as [Hm|]; [|done].
  apply bool_decide_eq_false in E. unfold route.
  rewrite decide_False by (intros [_ Hp]; rewrite Hp in Hm; naive_solver).
  destruct (decide (_ /\ _)) as [_|_]; simpl.
  - unfold logout_handler. simpl. split; [done|]. destruct (session_token_from_headers _); [|done].
    unfold revoke_session. destruct (is_empty _); [done|]. simpl. apply delete_empty.
  - by rewrite decide_False by (intros [Hp _]; done).
Qed.
