(* ===== verification/ServerIngress.v ===== *)
(** * The server's front door (src/rust_frp_server/src/server.rs,
    server/ingress.rs, server/control.rs, server/transport.rs,
    server/tls_helpers.rs, server/reload.rs)

    How an accepted control connection is sniffed and what path it takes, the
    negotiation of the wire protocol on it, how a server is built from its
    configuration, reloading that configuration, and waiting for the sessions
    to drain.  What a peer does is an argument: it answers a wait, or stays
    [Silent] for ever; a handler that then never returns gives [None]. *)
From S2P Require Import Prelude RustStd RustFmt ConfigTypes ConfigLoader Transport EncStream IoConn.
From S2P Require Import WireV2 Routers Groups ProxyManager Throttle WorkPool CoreMsg HttpClient.
From S2P Require Import JsonValue Auth ServerPlugin Metrics ControlManager Web.

Definition MAX_INFLIGHT_CONNECTIONS : Z := 4096.
Definition DRAIN_POLL_INTERVAL : Z := 100 * 1000000.
Definition TCP_MUX_MAGIC : byte := Byte.x5a.

(** [try_acquire_conn_permit], by the permits in use. *)
Definition try_acquire_conn_permit (in_use : Z) : option Z :=
  if decide (in_use < MAX_INFLIGHT_CONNECTIONS) then Some (in_use + 1) else None.

(** ** Sniffing *)
Definition GET_ : list byte := as_bytes "GET ".

Definition is_prefix (p l : list byte) : bool := bool_decide (take (length p) l = p).

Definition is_websocket_prefix (bytes : list byte) : bool :=
  negb (bool_decide (bytes = [])) && (is_prefix GET_ bytes || is_prefix bytes GET_).

Definition plaintext_ws_must_be_rejected (tls_only : bool) (tls : option TlsConfig) : bool :=
  let require_client_cert := match tls with
                             | Some t => tls_enable t && tls_require_client_cert t
                             | None => false
                             end in
  tls_only || require_client_cert.

Definition should_start_vhost_https (tls : option TlsConfig) : bool :=
  match tls with Some t => tls_enable t | None => false end.

(** ** Taking a control connection *)
Inductive wait (A : Type) := Got (a : A) | Silent.
Arguments Got {A} a.
Arguments Silent {A}.

Inductive control_kind := KPlaintextWs | KWss | KTls | KPlain | KMux (tls : bool).

(** What [spawn_control] is given. *)
Record setup := {
  su_kind : control_kind;
  su_fingerprint : option string;
  su_work_conn_tls : bool;
  su_plaintext_ws : bool;
}.

Definition outcome : Type := option (result string setup * MonitorMetrics).

(** After the TLS handshake: the fingerprint and the first bytes inside. *)
Definition tls_accepted : Type := result string (option string * list byte).

Definition ws_rejected : string :=
  "plaintext websocket control connection rejected: TLS client certificate (mTLS) is required".

(** [accept_websocket_stream(..).await?]: no time-out. *)
Definition upgrade (m : MonitorMetrics) (ws : wait (result string unit)) (su : setup) : outcome :=
  match ws with
  | Silent => None
  | Got (Err e) => Some (Err e, m)
  | Got (Ok _) => Some (Ok su, m)
  end.

(** [handle_mux_connection] up to the first stream: no time-out either. *)
Definition handle_mux_connection (tls_available : bool) (handshake : wait tls_accepted)
    (stream : wait (result string unit)) (m : MonitorMetrics) : outcome :=
  let open_stream su := match stream with
                        | Silent => None
                        | Got (Err e) => Some (Err e, m)
                        | Got (Ok _) => Some (Ok su, m)
                        end in
  if tls_available then
    match handshake with
    | Silent => None
    | Got (Err e) => Some (Err ("TLS accept failed: " +:+ e)%string, incr_tls_rejects m)
    | Got (Ok (fp, _)) => open_stream {| su_kind := KMux true; su_fingerprint := fp;
                                         su_work_conn_tls := true; su_plaintext_ws := false |}
    end
  else open_stream {| su_kind := KMux false; su_fingerprint := None; su_work_conn_tls := false;
                      su_plaintext_ws := false |}.

Definition handle_connection (tls_available reject_plaintext_ws : bool)
    (sniffed : wait (result string (list byte))) (ws : wait (result string unit))
    (handshake : wait tls_accepted) (stream : wait (result string unit)) (m : MonitorMetrics) : outcome :=
  match sniffed with
  | Silent => Some (Err "control conn sniff timeout"%string, m)
  | Got (Err e) => Some (Err ("control conn sniff failed: " +:+ e)%string, m)
  | Got (Ok first) =>
      if is_websocket_prefix first then
        if reject_plaintext_ws then Some (Err ws_rejected, incr_tls_rejects m)
        else upgrade m ws {| su_kind := KPlaintextWs; su_fingerprint := None;
                             su_work_conn_tls := tls_available; su_plaintext_ws := true |}
      else if decide (head first = Some TCP_MUX_MAGIC) then
        handle_mux_connection tls_available handshake stream m
      else if tls_available then
        match handshake with
        | Silent => Some (Err "TLS handshake timeout"%string, incr_tls_rejects m)
        | Got (Err e) => Some (Err ("TLS accept failed: " +:+ e)%string, incr_tls_rejects m)
        | Got (Ok (fp, prefix)) =>
            if is_websocket_prefix prefix then
              upgrade m ws {| su_kind := KWss; su_fingerprint := fp; su_work_conn_tls := true;
                              su_plaintext_ws := false |}
            else Some (Ok {| su_kind := KTls; su_fingerprint := fp; su_work_conn_tls := true;
                             su_plaintext_ws := false |}, m)
        end
      else Some (Ok {| su_kind := KPlain; su_fingerprint := None; su_work_conn_tls := false;
                       su_plaintext_ws := false |}, m)
  end.

(** Accepting: the connection is counted, and given up at the limit. *)
Definition accept_control (in_use : Z) (m : MonitorMetrics) : option Z * MonitorMetrics :=
  let m := increment_connections m in
  match try_acquire_conn_permit in_use with
  | Some p => (Some p, m)
  | None => (None, decrement_connections m)
  end.

(** ** The wire protocol *)
Section Negotiate.
Context `{Aead, RingHash, !Json ClientHello, !Json ServerHello}.

(** [PrefixedStream::new(prefix, conn)]. *)
Definition replay (prefix : list byte) : io string (option (enc_stream conn)) :=
  fun c => (Ok None, Conn (prefix ++ rx c) (tx c) (room c)).

(** [None]: version 1 on the connection, with the sniffed bytes replayed. *)
Definition negotiate_control_conn (random prefix : option (list byte)) (auth : AuthManager)
  : io string (option (enc_stream conn)) :=
  sniffed ← io_map_err (fun e => "wire protocol sniff failed: " +:+ err_msg e)%string check_magic;
  if negb sniffed.2 then replay sniffed.1 else
  base_key ← lift (ok_or "wire protocol v2 requires a token on the server: the v2 control channel derives its AEAD keys from SHA-256(token)"%string
                     (encryption_key auth));
  encrypted ← io_map_err (fun e => "wire v2 handshake failed: " +:+ wire_error_text e)%string
                (server_handshake random prefix base_key);
  mret (Some encrypted).
End Negotiate.

(** ** The server *)
Record Server := {
  srv_config : ServerConfig;
  srv_auth : AuthManager;                     (* what new connections get *)
  srv_pm : Manager;
  srv_cm : ControlManager nat nat nat;
  srv_pool_size : Z;
  srv_plugins : PluginManager;
  srv_tls : bool;
  srv_web : option (string * WebAuth * bool);
}.

(** The port announced to clients and listened on; u16 addition. *)
Definition work_conn_port (c : ServerConfig) : Z :=
  default (wrap_u16 (sc_bind_port c + 1000)) (sc_work_conn_port c).

(** [TlsConfig::new_server] and [new_server_with_runtime_cert] load and check
    the certificates; the argument is the files and what a client must show. *)
Definition build_server_tls_config
    (from_files : string -> string -> option string -> bool -> result string unit)
    (runtime_cert : option string -> bool -> result string unit) (tls : TlsConfig) : result string unit :=
  match tls_cert_file tls, tls_key_file tls with
  | Some cert, Some key => from_files cert key (tls_client_ca_file tls) (tls_require_client_cert tls)
  | _, _ => runtime_cert (tls_client_ca_file tls) (tls_require_client_cert tls)
  end.

Section Build.
Context `{RingHash, Base64, Jwt} (from_files : string -> string -> option string -> bool -> result string unit)
  (runtime_cert : option string -> bool -> result string unit) (parse_addr : string -> result string string).

Definition server_new (config : ServerConfig) : result string Server :=
  auth ← auth_new (sc_auth config);
  tls ← (match tr_tls (sc_transport config) with
         | Some tls => if tls_enable tls then _ ← build_server_tls_config from_files runtime_cert tls; Ok true else Ok false
         | None => Ok false
         end);
  if tr_tls_only (sc_transport config) && negb tls then
    Err "tls_only requires transport.tls.enable = true (with cert/key or runtime-generated cert)"%string
  else
  web ← (if decide (0 < ws_port (sc_web_server config))
         then web ← web_server_new parse_addr (sc_web_server config); Ok (Some web)
         else Ok None);
  Ok {| srv_config := config; srv_auth := auth;
        srv_pm := manager_new {| allow_ports := sc_allow_ports config;
          max_ports_per_user := sc_max_ports_per_user config;
          custom_domains_allowlist := sc_custom_domains_allowlist config;
          tcpmux_port := sc_tcpmux_http_connect_port config |};
        srv_cm := with_security (new_throttle (au_login_max_failures (sc_auth config))
                    (au_login_lockout_secs (sc_auth config))) (au_client_id_policy (sc_auth config))
                    (au_kick_require_same_cert (sc_auth config));
        srv_pool_size := effective_max_pool_count (sc_transport config);
        srv_plugins := from_configs (sc_http_plugins config); srv_tls := tls; srv_web := web |}.

Definition with_config (s : Server) (c : ServerConfig) (a : AuthManager) (pm : Manager) : Server :=
  {| srv_config := c; srv_auth := a; srv_pm := pm; srv_cm := srv_cm s; srv_pool_size := srv_pool_size s;
     srv_plugins := srv_plugins s; srv_tls := srv_tls s; srv_web := srv_web s |}.

(** [reload_server_config]; the loader's answer for the path is given. *)
Definition reload_server_config (path : option string) (load : string -> result string ServerConfig)
    (s : Server) : result string unit * Server :=
  match path with
  | None => (Ok tt, s)
  | Some path =>
      match load path with
      | Err e => (Err e, s)
      | Ok c =>
          match auth_new (sc_auth c) with
          | Err e => (Err e, with_config s c (srv_auth s) (srv_pm s))
          | Ok a => (Ok tt, with_config s c a (set_allow_ports (srv_pm s) (sc_allow_ports c)))
          end
      end
  end.

(** The port told to the clients of connections accepted from now on. *)
Definition managers_work_conn_port (s : Server) : Z := work_conn_port (srv_config s).
End Build.

(** [wait_for_drain] on the samples (clock, open connections) it takes. *)
Fixpoint wait_for_drain (deadline : Z) (samples : list (Z * Z)) : option bool :=
  match samples with
  | [] => None
  | (now, current) :: samples =>
      if decide (current = 0) then Some true
      else if decide (deadline <= now) then Some false
      else wait_for_drain deadline samples
  end.

(** ** Counting connections

    Each accepted control connection is a task that holds a permit and is
    counted until it has returned; it hands the connection over to a session
    task, which counts itself when it first runs.  The limiter and the counter
    are the process's: the tasks of the work connection port hold permits and are
    not counted; the connections of the virtual hosts, the bridges of visitors
    (by a [ConnectionGuard]) and the KCP and QUIC connections are counted and
    hold no permit. *)
Record door := {
  permits : Z;                       (* of the global limiter *)
  door_mm : MonitorMetrics;
  opening : nat;                     (* in [handle_connection] *)
  closing : nat;                     (* it has returned, the task has not *)
  spawned : nat;                     (* session tasks that have not run yet *)
  sessions : nat;                    (* running [spawn_control] tasks *)
  work_tasks : nat;                  (* tasks of [handle_work_connections] *)
  guarded : nat;                     (* the others that are counted *)
}.

Definition door_new (now : Z) : door :=
  {| permits := 0; door_mm := metrics_new now; opening := 0; closing := 0; spawned := 0; sessions := 0;
     work_tasks := 0; guarded := 0 |}.

Inductive door_event :=
| Arrives | Refused | HandedOver | TaskEnds | SessionStarts | SessionEnds
| WorkArrives | WorkTaskEnds | GuardTaken | GuardDropped.

(** The door with these counts, permits and metrics. *)
Definition with_opening (d : door) (p : Z) (m : MonitorMetrics) (o c : nat) : door :=
  {| permits := p; door_mm := m; opening := o; closing := c; spawned := spawned d; sessions := sessions d;
     work_tasks := work_tasks d; guarded := guarded d |}.
Definition with_sessions (d : door) (m : MonitorMetrics) (o c sp se : nat) : door :=
  {| permits := permits d; door_mm := m; opening := o; closing := c; spawned := sp; sessions := se;
     work_tasks := work_tasks d; guarded := guarded d |}.
Definition with_others (d : door) (p : Z) (m : MonitorMetrics) (w g : nat) : door :=
  {| permits := p; door_mm := m; opening := opening d; closing := closing d; spawned := spawned d;
     sessions := sessions d; work_tasks := w; guarded := g |}.

Definition door_step (d : door) (e : door_event) : option door :=
  match e with
  | Arrives =>
      let '(p, m) := accept_control (permits d) (door_mm d) in
      match p with
      | Some p => Some (with_opening d p m (opening d + 1) (closing d))
      | None => Some (with_opening d (permits d) m (opening d) (closing d))
      end
  | Refused | HandedOver =>
      match opening d with
      | O => None
      | S n => Some (with_sessions d (door_mm d) n (closing d + 1)
                       (match e with HandedOver => spawned d + 1 | _ => spawned d end)%nat (sessions d))
      end
  | TaskEnds =>
      match closing d with
      | O => None
      | S n => Some (with_opening d (permits d - 1) (decrement_connections (door_mm d)) (opening d) n)
      end
  | SessionStarts =>
      match spawned d with
      | O => None
      | S n => Some (with_sessions d (increment_connections (door_mm d)) (opening d) (closing d) n (sessions d + 1))
      end
  | SessionEnds =>
      match sessions d with
      | O => None
      | S n => Some (with_sessions d (decrement_connections (door_mm d)) (opening d) (closing d) (spawned d) n)
      end
  | WorkArrives =>
      match try_acquire_conn_permit (permits d) with
      | Some p => Some (with_others d p (door_mm d) (work_tasks d + 1) (guarded d))
      | None => Some d
      end
  | WorkTaskEnds =>
      match work_tasks d with
      | O => None
      | S n => Some (with_others d (permits d - 1) (door_mm d) n (guarded d))
      end
  | GuardTaken => Some (with_others d (permits d) (increment_connections (door_mm d)) (work_tasks d) (guarded d + 1))
  | GuardDropped =>
      match guarded d with
      | O => None
      | S n => Some (with_others d (permits d) (decrement_connections (door_mm d)) (work_tasks d) n)
      end
  end.

Fixpoint door_run (d : door) (es : list door_event) : option door :=
  match es with
  | [] => Some d
  | e :: es => d ← door_step d e; door_run d es
  end.

Definition counted (d : door) : nat := (opening d + closing d + sessions d + guarded d)%nat.
Definition holders (d : door) : nat := (opening d + closing d + work_tasks d)%nat.

Record door_inv (d : door) : Prop := {
  di_permits : permits d = Z.of_nat (holders d);
  di_limit : permits d <= MAX_INFLIGHT_CONNECTIONS;
  di_count : current_connections (counters (door_mm d)) = wrap_u64 (Z.of_nat (counted d));
}.

Lemma wrap_u64_shift a b k : a = wrap_u64 b -> wrap_u64 (a + k) = wrap_u64 (b + k).
Proof. intros ->. apply Zplus_mod_idemp_l. Qed.

Lemma door_step_inv d e d' : door_inv d -> door_step d e = Some d' -> door_inv d'.
Proof.
  intros [Hp Hl Hc] E. pose proof (wrap_u64_shift _ _ 1 Hc) as Hup.
  pose proof (wrap_u64_shift _ _ (-1) Hc) as Hdown.
  unfold holders in Hp. unfold counted in *.
  assert (step : forall k, current_connections (counters (door_mm d')) = wrap_u64 k ->
    k = Z.of_nat (counted d') -> permits d' = Z.of_nat (holders d') -> permits d' <= MAX_INFLIGHT_CONNECTIONS ->
    door_inv d') by (intros k Hk ? ? ?; subst k; by split).
  unfold counted, holders in step. destruct e; simpl in E.
  - unfold accept_control, try_acquire_conn_permit in E. case_decide; simplify_eq/=.
    + eapply step; [exact Hup|lia..].
    + eapply step; [exact (wrap_u64_shift _ _ (-1) Hup)|lia..].
  - destruct (opening d); simplify_eq/=. eapply step; [exact Hc|lia..].
  - destruct (opening d); simplify_eq/=. eapply step; [exact Hc|lia..].
  - destruct (closing d); simplify_eq/=. eapply step; [exact Hdown|lia..].
  - destruct (spawned d); simplify_eq/=. eapply step; [exact Hup|lia..].
  - destruct (sessions d); simplify_eq/=. eapply step; [exact Hdown|lia..].
  - unfold try_acquire_conn_permit in E. case_decide; simplify_eq/=; (eapply step; [exact Hc|lia..]).
  - destruct (work_tasks d); simplify_eq/=. eapply step; [exact Hc|lia..].
  - simplify_eq/=. eapply step; [exact Hup|lia..].
  - destruct (guarded d); simplify_eq/=. eapply step; [exact Hdown|lia..].
Qed.

Lemma door_run_inv es : forall d d', door_inv d -> door_run d es = Some d' -> door_inv d'.
Proof.
  induction es as [|e es IH]; intros d d' Hi E; simpl in E; [by simplify_eq|].
  destruct (door_step d e) as [d1|] eqn:E1; [|done]. cbn [mbind option_bind] in E.
  eapply IH; [|exact E]. by eapply door_step_inv.
Qed.



(** The limit is on connections being set up: running sessions hold no permit,
    so any number of them can be open with the limiter idle. *)
Lemma limit_is_for_handshakes now n : exists es d,
  door_run (door_new now) es = Some d /\ sessions d = n /\ permits d = 0.
Proof.
  assert (forall k d, permits d = 0 -> opening d = 0%nat -> closing d = 0%nat -> spawned d = 0%nat ->
    exists es d', door_run d es = Some d' /\ sessions d' = (k + sessions d)%nat /\ permits d' = 0) as H.
  { induction k as [|k IH]; intros d Hp Ho Hc Hs; [by exists [], d|].
    destruct d as [p mm o c sp se w g]. simpl in *. subst.
    destruct (IH {| permits := 0; door_mm := increment_connections (decrement_connections
      (increment_connections mm)); opening := 0; closing := 0; spawned := 0;
      sessions := se + 1; work_tasks := w; guarded := g |}) as (es & d' & E & Hn & Hp'); [done..|].
    exists ([Arrives; HandedOver; TaskEnds; SessionStarts] ++ es), d'. split_and!; [exact E|simpl in Hn; lia|done]. }
  destruct (H n (door_new now)) as (es & d & E & Hn & Hp); [done..|]. exists es, d.
  split_and!; [done|simpl in Hn; lia|done].
Qed.

(** A session that was handed over and has not run yet is in nobody's count. *)
Lemma drain_misses_unstarted_session : exists d,
  door_run (door_new 0) [Arrives; HandedOver; TaskEnds] = Some d /\ spawned d = 1%nat /\
  wait_for_drain 30 [(0, current_connections (counters (door_mm d)))] = Some true.
Proof. eexists. split; [vm_compute; reflexivity|]. split; reflexivity. Qed.

(** ** Draining *)

(** The samples of a drain: the first right away, the next ones a poll later. *)
Fixpoint polled (now : Z) (samples : list (Z * Z)) : Prop :=
  match samples with
  | [] => True
  | (t, _) :: samples => now <= t /\ polled (t + DRAIN_POLL_INTERVAL) samples
  end.

Lemma drain_decides deadline samples : forall now, polled now samples ->
  deadline - now <= (zlen samples - 1) * DRAIN_POLL_INTERVAL -> samples <> [] ->
  is_Some (wait_for_drain deadline samples).
Proof.
  unfold zlen, DRAIN_POLL_INTERVAL. induction samples as [|[t c] samples IH]; intros now Hp Hl Hne; [done|].
  simpl in *. destruct Hp as [Ht Hp]. case_decide; [done|]. case_decide; [done|].
  destruct samples as [|x samples]; [simpl in Hl; lia|]. apply (IH (t + DRAIN_POLL_INTERVAL)); [done| |done].
  unfold DRAIN_POLL_INTERVAL in *. cbn [length] in *. lia.
Qed.

(** C24: graceful shutdown cannot hang on the drain: with a time-out of [timeout]
    it is decided after at most timeout/100ms + 2 samples; and the answer is
    "drained" exactly when some sample saw no connection before any sample that
    was taken at the deadline or later. *)
Theorem drain_terminates start timeout samples : 0 <= timeout -> polled start samples ->
  timeout / DRAIN_POLL_INTERVAL + 2 <= zlen samples ->
  exists drained, wait_for_drain (start + timeout) samples = Some drained /\
    (drained = true <-> exists pre now post, samples = pre ++ (now, 0) :: post /\
       Forall (fun s => s.1 < start + timeout /\ s.2 <> 0) pre).
Proof.
  intros Ht Hp Hl. destruct (drain_decides (start + timeout) samples start Hp) as [drained Hd].
  { unfold DRAIN_POLL_INTERVAL in *. euclid. }
  { intros ->. unfold zlen, DRAIN_POLL_INTERVAL in Hl. simpl in Hl. euclid. }
  exists drained. split; [done|]. clear Hp Hl. revert drained Hd.
  induction samples as [|[now c] samples IH]; intros drained Hd; simpl in Hd; [done|].
  case_decide as Hc; [|case_decide as Hn].
  - simplify_eq. split; [|done]. intros _. by exists [], now, samples.
  - simplify_eq. split; [done|]. intros (pre & n & post & E & Hf). destruct pre as [|[] pre]; simplify_eq/=.
    apply Forall_cons in Hf as [[? _] _]. simpl in *. lia.
  - rewrite (IH drained Hd). split.
    + intros (pre & n & post & -> & Hf). exists ((now, c) :: pre), n, post. split; [done|].
      constructor; [simpl; lia|done].
    + intros (pre & n & post & E & Hf). destruct pre as [|p pre]; simplify_eq/=.
      apply Forall_cons in Hf as [_ Hf]. by exists pre, n, post.
Qed.

Lemma drain_terminates_witness :
  let samples := (fun i => (millis (100 * Z.of_nat i), Z.max 0 (3 - Z.of_nat i))) <$> seq 0 32 in
  exists drained, wait_for_drain (0 + secs 3) samples = Some drained /\
    (drained = true <-> exists pre now post, samples = pre ++ (now, 0) :: post /\
       Forall (fun s => s.1 < 0 + secs 3 /\ s.2 <> 0) pre).
Proof.
  intros samples. apply drain_terminates; [unfold secs; lia| |vm_compute; discriminate].
  unfold samples, millis. simpl. unfold DRAIN_POLL_INTERVAL. repeat split; lia.
Defined.

(** ** Which path a connection takes *)

(** the waits nobody bounds.  The handler of an accepted connection comes
    back with an answer, whatever the peer does, except in three situations: a
    websocket upgrade request that is never completed (in plain text where it
    is allowed, or inside TLS), a multiplexed connection whose TLS handshake
    never completes, and one that never opens its first stream.  The first
    byte and the direct TLS handshake are bounded. *)
Theorem unbounded_waits_iff tls reject sniffed ws hs stream m :
  handle_connection tls reject sniffed ws hs stream m = None <->
  exists first, sniffed = Got (Ok first) /\
    ((is_websocket_prefix first = true /\ reject = false /\ ws = Silent) \/
     (is_websocket_prefix first = false /\ head first = Some TCP_MUX_MAGIC /\
        ((tls = true /\ hs = Silent) \/
         ((tls = false \/ exists acc, hs = Got (Ok acc)) /\ stream = Silent))) \/
     (is_websocket_prefix first = false /\ head first <> Some TCP_MUX_MAGIC /\ tls = true /\ ws = Silent /\
        exists fp prefix, hs = Got (Ok (fp, prefix)) /\ is_websocket_prefix prefix = true)).
Proof.
  unfold handle_connection, handle_mux_connection, upgrade. split.
  - intros E. destruct sniffed as [[first|]|]; [|done|done]. exists first. split; [done|].
    destruct (is_websocket_prefix first) eqn:Ew.
    + left. destruct reject; [done|]. by destruct ws as [[]|].
    + right. case_decide as Hm.
      * left. split; [done|]. split; [done|]. destruct tls; [destruct hs as [[[fp p]|]|]|].
        -- right. destruct stream as [[]|]; [done..|]. eauto.
        -- done.
        -- by left.
        -- right. destruct stream as [[]|]; [done..|]. eauto.
      * right. destruct tls; [|done]. destruct hs as [[[fp p]|]|]; [|done..].
        destruct (is_websocket_prefix p) eqn:Ep; [|done]. destruct ws as [[]|]; [done..|].
        split_and!; eauto.
  - intros (first & -> & [(-> & -> & ->)|[(-> & Hm & H)|(-> & Hm & -> & -> & fp & p & -> & ->)]]).
    + done.
    + rewrite decide_True by done. destruct H as [[-> ->]|[[->|[[fp p] ->]] ->]]; try done. by destruct tls.
    + by rewrite decide_False by done.
Qed.

(** The path the handler's answer came by. *)
Definition mtls_path (hs : wait tls_accepted) (su : setup) : Prop :=
  su_kind su ∈ [KWss; KTls; KMux true] /\ su_work_conn_tls su = true /\
  exists prefix, hs = Got (Ok (su_fingerprint su, prefix)).

Lemma tls_path reject sniffed ws hs stream m su m' : reject = true ->
  handle_connection true reject sniffed ws hs stream m = Some (Ok su, m') -> mtls_path hs su.
Proof.
  intros -> E. unfold mtls_path.
  destruct sniffed as [[first|]|]; [|done|done]. simpl in E.
  destruct (is_websocket_prefix first); [done|]. case_decide.
  - unfold handle_mux_connection in E. destruct hs as [[[fp p]|]|]; [|done|done].
    destruct stream as [[]|]; simplify_eq/=. split_and!; [set_solver|done|eauto].
  - destruct hs as [[[fp p]|]|]; [|done|done]. destruct (is_websocket_prefix p).
    + unfold upgrade in E. destruct ws as [[]|]; simplify_eq/=. split_and!; [set_solver|done|eauto].
    + simplify_eq/=. split_and!; [set_solver|done|eauto].
Qed.

Section Server.
Context `{RingHash, Base64, Jwt} (from_files : string -> string -> option string -> bool -> result string unit)
  (runtime_cert : option string -> bool -> result string unit) (parse_addr : string -> result string string).

Lemma server_new_Ok config s : server_new from_files runtime_cert parse_addr config = Ok s ->
  srv_config s = config /\ auth_new (sc_auth config) = Ok (srv_auth s) /\
  allow_ports (options (srv_pm s)) = sc_allow_ports config /\
  (tr_tls_only (sc_transport config) = true -> srv_tls s = true) /\
  (should_start_vhost_https (tr_tls (sc_transport config)) = true -> srv_tls s = true).
Proof.
  unfold server_new. rewrite result_bind_Ok. intros (a & Ha & E).
  apply result_bind_Ok in E as (tls & Ht & E). destruct (_ && _) eqn:Eo; [done|].
  apply result_bind_Ok in E as (web & _ & E). injection E as <-. simpl. split_and!; try done.
  - intros Htls. rewrite Htls in Eo. by destruct tls.
  - unfold should_start_vhost_https. destruct (tr_tls _) as [t|]; [|done]. intros He. rewrite He in Ht.
    by apply result_bind_Ok in Ht as (_ & _ & [= <-]).
Qed.

(** C18: a server that demands TLS gets TLS on its TCP control port.  Whatever a
    peer of that port sends, a control connection that is set up by a server
    whose configuration sets tls_only, or a required client certificate, went
    through the TLS handshake, carries the fingerprint that handshake produced,
    and promises TLS for its work connections; plain TCP, plain multiplexing and
    plaintext websockets never get that far on this port.  (The KCP port is
    another door: tls_only keeps it shut, a required client certificate alone
    does not, lemma mtls_server_opens_kcp of ServerStart.v.) *)
Theorem strict_transport config s sniffed ws hs stream m su m' :
  server_new from_files runtime_cert parse_addr config = Ok s ->
  let reject := plaintext_ws_must_be_rejected (tr_tls_only (sc_transport config)) (tr_tls (sc_transport config)) in
  reject = true ->
  handle_connection (srv_tls s) reject sniffed ws hs stream m = Some (Ok su, m') ->
  su_kind su ∈ [KWss; KTls; KMux true] /\ su_work_conn_tls su = true /\
  exists prefix, hs = Got (Ok (su_fingerprint su, prefix)).
Proof.
  intros Hs reject Hr E. apply server_new_Ok in Hs as (_ & _ & _ & Honly & Hen).
  assert (srv_tls s = true) as Htls.
  { subst reject. unfold plaintext_ws_must_be_rejected in Hr. apply orb_true_iff in Hr as [Hr|Hr]; [auto|].
    apply Hen. unfold should_start_vhost_https. destruct (tr_tls _); [|done]. by apply andb_true_iff in Hr as [? _]. }
  rewrite Htls in E. exact (tls_path _ _ _ _ _ _ _ _ Hr E).
Qed.

(** ** Reloading *)

(** What runs is what the configuration says. *)
Definition in_sync (s : Server) : Prop :=
  auth_new (sc_auth (srv_config s)) = Ok (srv_auth s) /\
  allow_ports (options (srv_pm s)) = sc_allow_ports (srv_config s).

(** A reload succeeds and synchronises, fails before touching anything, or
    fails half-way, and then only because of the authentication section. *)
Lemma reload_outcomes path load s r s' : reload_server_config path load s = (r, s') ->
  (r = Ok tt /\ (s' = s \/ exists p c, path = Some p /\ load p = Ok c /\ srv_config s' = c /\ in_sync s')) \/
  (exists e, r = Err e /\ s' = s) \/
  (exists p c e, r = Err e /\ path = Some p /\ load p = Ok c /\ auth_new (sc_auth c) = Err e /\
     srv_config s' = c /\ srv_auth s' = srv_auth s /\ srv_pm s' = srv_pm s).
Proof.
  unfold reload_server_config. destruct path as [p|]; [|intros [= <- <-]; eauto].
  destruct (load p) as [c|e] eqn:El; [|intros [= <- <-]; eauto].
  destruct (auth_new (sc_auth c)) as [a|e] eqn:Ea; intros [= <- <-].
  - left. split; [done|]. right. exists p, c. done.
  - right. right. exists p, c, e. done.
Qed.

(** The server after a series of reloads, each seeing the file as it is then. *)
Definition reload_all (path : option string) (loads : list (string -> result string ServerConfig)) (s : Server)
  : Server := foldl (fun s load => (reload_server_config path load s).2) s loads.

(** hot reload keeps the running server in step with its configuration: as
    long as every file that loads has a usable authentication section, the
    credentials and the port white list in force are after any number of
    reloads, successful or not, those of the configuration the server shows;
    and sessions, proxies' sockets and TLS are untouched. *)
Theorem reload_keeps_in_sync config s path loads :
  server_new from_files runtime_cert parse_addr config = Ok s ->
  Forall (fun load => forall p c, load p = Ok c -> is_ok (auth_new (sc_auth c)) = true) loads ->
  in_sync (reload_all path loads s) /\
  srv_cm (reload_all path loads s) = srv_cm s /\ srv_tls (reload_all path loads s) = srv_tls s /\
  net (srv_pm (reload_all path loads s)) = net (srv_pm s).
Proof.
  intros Hs Hl. assert (in_sync s) as Hi.
  { apply server_new_Ok in Hs as (<- & Ha & Hp & _). by split. }
  clear Hs. revert s Hi. induction Hl as [|load loads Hload _ IH]; intros s Hi; [done|]. simpl.
  destruct (reload_server_config path load s) as [r s1] eqn:E.
  assert (in_sync s1) as Hi1.
  { apply reload_outcomes in E as [[_ [->|(p & c & _ & _ & _ & Hi1)]]|[(e & _ & ->)|(p & c & e & _ & _ & Hc & Ha & _)]];
      try done. apply Hload in Hc. by rewrite Ha in Hc. }
  destruct (IH s1 Hi1) as (K1 & K2 & K3 & K4). unfold reload_all in *. cbn [foldl snd] in *. rewrite K2, K3, K4. split; [done|].
  unfold reload_server_config in E. destruct path as [p|]; [|by simplify_eq].
  destruct (load p) as [c|]; [|by simplify_eq]. by destruct (auth_new (sc_auth c)); simplify_eq.
Qed.
End Server.

(** ** The wire protocol on the connection *)
Lemma v1_first_byte text : zlen text <= MAX_MESSAGE_SIZE ->
  exists rest, message_bytes V1 text = Byte.x00 :: rest.
Proof.
  intros H. pose proof (Zle_0_nat (length text)). unfold zlen, MAX_MESSAGE_SIZE in *.
  unfold message_bytes. unfold zlen. cbn [be_bytes].
  replace (Z.of_nat (length text) / 256 / 256 / 256) with 0 by euclid. eexists. reflexivity.
Qed.

Lemma sniff_v1 text k : zlen text <= MAX_MESSAGE_SIZE -> (0 < k)%nat ->
  is_websocket_prefix (take k (message_bytes V1 text)) = false /\
  head (take k (message_bytes V1 text)) = Some Byte.x00.
Proof.
  intros H Hk. destruct (v1_first_byte text H) as [rest ->]. destruct k as [|k]; [lia|]. split; [|done].
  unfold is_websocket_prefix, is_prefix. by simpl.
Qed.

Section NegotiateLemmas.
Context `{Aead, RingHash, !Json ClientHello, !Json ServerHello}.

Lemma negotiate_v1 random prefix auth bytes t r :
  (length MAGIC_V2 <= length bytes)%nat -> take (length MAGIC_V2) bytes <> MAGIC_V2 ->
  negotiate_control_conn random prefix auth (Conn bytes t r) = (Ok None, Conn bytes t r).
Proof.
  intros Hl Hne. unfold negotiate_control_conn, check_magic.
  rewrite <- (take_drop (length MAGIC_V2) bytes) at 1.
  erewrite io_bind_eq.
  2:{ apply io_map_err_Ok. erewrite io_bind_eq by (apply read_n_app; rewrite length_take; lia). reflexivity. }
  cbn [fst snd]. rewrite bool_decide_eq_false_2 by done. unfold replay. cbn [negb rx tx room].
  by rewrite take_drop.
Qed.

Lemma negotiate_v2_without_key random prefix auth rest t r : encryption_key auth = None ->
  negotiate_control_conn random prefix auth (Conn (MAGIC_V2 ++ rest) t r) =
  (Err "wire protocol v2 requires a token on the server: the v2 control channel derives its AEAD keys from SHA-256(token)"%string,
   Conn rest t r).
Proof.
  intros Hk. unfold negotiate_control_conn, check_magic.
  erewrite io_bind_eq.
  2:{ apply io_map_err_Ok. erewrite io_bind_eq by (by apply read_n_app). reflexivity. }
  cbn [fst snd]. rewrite bool_decide_eq_true_2 by done. cbn [negb]. unfold lift. by rewrite Hk.
Qed.

(** sniffing never costs a version-1 client its first message.  Whatever
    the message, and however little of it the first packet held, the front
    door takes the connection for neither a websocket, a multiplexed session
    nor version 2, in plain text and inside TLS; and the negotiation hands on
    the connection with every byte still to be read, so the login reader gets
    exactly the message that was sent. *)
Theorem v1_first_message `{!Json Message} random prefix auth text rest t r k reject ws hs stream m fp limit :
  3 <= zlen text -> zlen text <= limit -> limit <= MAX_MESSAGE_SIZE -> (0 < k)%nat ->
  let sent := message_bytes V1 text in
  handle_connection false reject (Got (Ok (take k sent))) ws hs stream m
    = Some (Ok {| su_kind := KPlain; su_fingerprint := None; su_work_conn_tls := false;
                  su_plaintext_ws := false |}, m) /\
  (forall hello, is_websocket_prefix hello = false -> head hello <> Some TCP_MUX_MAGIC ->
   handle_connection true reject (Got (Ok hello)) ws (Got (Ok (fp, take k sent))) stream m
    = Some (Ok {| su_kind := KTls; su_fingerprint := fp; su_work_conn_tls := true;
                  su_plaintext_ws := false |}, m)) /\
  negotiate_control_conn random prefix auth (Conn (sent ++ rest) t r) = (Ok None, Conn (sent ++ rest) t r) /\
  control_read_with_limit V1 limit (Conn (sent ++ rest) t r)
    = lift (map_err MsgJson (of_json text)) (Conn rest t r).
Proof.
  intros H3 Hl Hmax Hk sent. subst sent.
  destruct (sniff_v1 text k ltac:(lia) Hk) as [Hws Hhd]. split_and!.
  - unfold handle_connection. rewrite Hws, Hhd. by rewrite decide_False.
  - intros hello Hh Hm. unfold handle_connection. rewrite Hh. rewrite decide_False by done. by rewrite Hws.
  - apply negotiate_v1.
    + unfold message_bytes. rewrite !length_app, length_be_bytes. unfold zlen in *. simpl length at 1. lia.
    + destruct (v1_first_byte text ltac:(lia)) as [rest' ->]. done.
  - apply read_bytes; [done|]. unfold wire_max, u32_max, MAX_MESSAGE_SIZE in *. lia.
Qed.
End NegotiateLemmas.

(** ** Concrete servers *)
Definition demo_auth (token : option string) : AuthConfig :=
  {| au_method := "token"; au_token := token; au_token_source := None; au_additional_scopes := None;
     au_client_id_policy := Warn; au_login_max_failures := 5; au_login_lockout_secs := 600;
     au_kick_require_same_cert := false; au_oidc := None |}.

Definition demo_server (token : option string) (work_conn_port : option Z) (mtls : bool) : ServerConfig :=
  {| sc_bind_addr := "0.0.0.0"; sc_bind_port := 7000; sc_kcp_bind_port := None;
     sc_quic_bind_port := None; sc_vhost_http_port := None; sc_vhost_https_port := None;
     sc_tcpmux_http_connect_port := None; sc_work_conn_port := work_conn_port;
     sc_web_server := default_web_server; sc_auth := demo_auth token;
     sc_transport := {| tr_protocol := "tcp";
       tr_tls := if mtls then Some {| tls_enable := true; tls_cert_file := Some "c.pem"%string;
                   tls_key_file := Some "k.pem"%string; tls_trusted_ca_file := None;
                   tls_skip_verify := false; tls_client_ca_file := Some "ca.pem"%string;
                   tls_require_client_cert := true; tls_force := false |} else None;
       tr_tcp_mux := true; tr_tls_only := false; tr_pool_count := 0; tr_max_pool_count := None;
       tr_tcp_keepalive_secs := 30; tr_bandwidth_limit := None; tr_use_encryption := false;
       tr_use_compression := false; tr_quic := None; tr_wire_protocol := "v1"; tr_work_conn_via := "auto" |};
     sc_allow_ports := [{| pr_start := Some 1000; pr_end := Some 2000; pr_single := None |}];
     sc_max_ports_per_user := None;
     sc_custom_domains_allowlist := []; sc_custom_404_page := None; sc_log := default_log;
     sc_log_file := None; sc_log_level := None; sc_log_max_days := None;
     sc_includes := None; sc_proxies := []; sc_http_plugins := [] |}.

Definition demo_new (c : ServerConfig) : result string Server :=
  server_new (fun _ _ _ _ => Ok tt) (fun _ _ => Ok tt) (fun a => Ok a) c.

Lemma strict_transport_witness : exists s su,
  demo_new (demo_server (Some "t"%string) None true) = Ok s /\
  handle_connection (srv_tls s) true (Got (Ok [Byte.x16])) Silent (Got (Ok (Some "ab12"%string, [Byte.x00])))
    Silent (metrics_new 0) = Some (Ok su, metrics_new 0) /\
  su_kind su ∈ [KWss; KTls; KMux true] /\ su_fingerprint su = Some "ab12"%string.
Proof.
  destruct (demo_new (demo_server (Some "t"%string) None true)) as [s|e] eqn:Es; [|discriminate Es].
  assert (srv_tls s = true) as Ht by (vm_compute in Es; injection Es as <-; reflexivity).
  set (su := {| su_kind := KTls; su_fingerprint := Some "ab12"%string; su_work_conn_tls := true;
                su_plaintext_ws := false |}).
  assert (handle_connection (srv_tls s) true (Got (Ok [Byte.x16])) Silent
    (Got (Ok (Some "ab12"%string, [Byte.x00]))) Silent (metrics_new 0) = Some (Ok su, metrics_new 0)) as E
    by (rewrite Ht; vm_compute; reflexivity).
  destruct (strict_transport (fun _ _ _ _ => Ok tt) (fun _ _ => Ok tt) (fun a => Ok a)
    (demo_server (Some "t"%string) None true) s _ _ _ _ _ su _ Es eq_refl E) as (Hk & _ & p & Hfp).
  exists s, su. split; [reflexivity|]. split; [exact E|]. split; [exact Hk|reflexivity].
Defined.

Lemma reload_keeps_in_sync_witness : exists s,
  demo_new (demo_server (Some "t"%string) None false) = Ok s /\
  in_sync (reload_all (Some "frps.toml"%string)
    [(fun _ => Ok (demo_server (Some "new"%string) None false)); (fun _ => Err "syntax error"%string)] s).
Proof.
  destruct (demo_new (demo_server (Some "t"%string) None false)) as [s|e] eqn:Es; [|discriminate Es].
  exists s. split; [reflexivity|].
  apply (reload_keeps_in_sync (fun _ _ _ _ => Ok tt) (fun _ _ => Ok tt) (fun a => Ok a)
    (demo_server (Some "t"%string) None false) s _ _ Es).
  constructor; [intros p c [= <-]; reflexivity|]. constructor; [intros p c [=]|constructor].
Defined.

(** A file without a token loads, but its reload stops half-way: the
    configuration shown is the new one, the credentials and ports in force are
    the old ones. *)
Lemma half_reload : exists s e s',
  demo_new (demo_server (Some "t"%string) None false) = Ok s /\
  reload_server_config (Some "frps.toml"%string) (fun _ => Ok (demo_server None (Some 9000) true)) s = (Err e, s') /\
  srv_config s' <> srv_config s /\ srv_auth s' = srv_auth s /\
  managers_work_conn_port s = 8000 /\ managers_work_conn_port s' = 9000.
Proof.
  destruct (demo_new (demo_server (Some "t"%string) None false)) as [s|e] eqn:Es; [|done].
  vm_compute in Es. injection Es as <-. eexists _, _, _.
  split; [done|]. split; [vm_compute; reflexivity|]. split; [done|]. split; [reflexivity|]. done.
Qed.

(** The default work connection port of a server on a high port wraps around. *)
Lemma work_conn_port_wraps :
  work_conn_port {| sc_bind_addr := EmptyString; sc_bind_port := 65000; sc_kcp_bind_port := None;
     sc_quic_bind_port := None; sc_vhost_http_port := None; sc_vhost_https_port := None;
     sc_tcpmux_http_connect_port := None; sc_work_conn_port := None;
     sc_web_server := default_web_server; sc_auth := default_auth;
     sc_transport := default_transport; sc_allow_ports := []; sc_max_ports_per_user := None;
     sc_custom_domains_allowlist := []; sc_custom_404_page := None; sc_log := default_log;
     sc_log_file := None; sc_log_level := None; sc_log_max_days := None;
     sc_includes := None; sc_proxies := []; sc_http_plugins := [] |} = 464.
Proof. reflexivity. Qed.

Lemma v1_first_message_witness :
  let text := as_bytes "hello" in
  let sent := message_bytes V1 text in
  handle_connection false true (Got (Ok (take 1 sent))) Silent Silent Silent (metrics_new 0)
    = Some (Ok {| su_kind := KPlain; su_fingerprint := None; su_work_conn_tls := false;
                  su_plaintext_ws := false |}, metrics_new 0) /\
  control_read_with_limit V1 MAX_PREAUTH_MESSAGE_SIZE (Conn (sent ++ [Byte.x01]) [] 0)
    = lift (map_err MsgJson (of_json text)) (Conn [Byte.x01] [] 0).
Proof.
  intros text sent. destruct (demo_new (demo_server (Some "t"%string) None false)) as [s|e] eqn:Es; [|discriminate Es].
  destruct (v1_first_message None None (srv_auth s) text [Byte.x01] [] 0 1 true Silent Silent Silent
    (metrics_new 0) None MAX_PREAUTH_MESSAGE_SIZE) as (H1 & _ & _ & H4);
    [vm_compute; discriminate|vm_compute; discriminate|vm_compute; discriminate|apply Nat.lt_0_1|].
  split; [exact H1|exact H4].
Defined.
