(* ===== verification/ClientRegistry.v ===== *)
(** * The client's tables (src/rust_frp_client/src/transport.rs registries,
    src/rust_frp_client/src/types.rs managers)

    [StcpRespRegistry]: who waits for the server's answer to which bridge
    request; [XtcpRegistry]: the one pending hole punch of each proxy; and the
    tables of proxies and visitors with the tasks that serve them.  A one-shot
    channel is named by the waiter's number, and what was sent into it and not
    yet received is in a mailbox.  Tasks and channels are numbers; what a
    mutation stops or closes is recorded. *)
From S2P Require Import Prelude RustStd ConfigTypes.

(** ** Answers to bridge requests *)
Record StcpVisitorGrant := { gr_bridge_id : string; gr_work_conn_sign_key : string }.

Inductive StcpWaitError := WaitTimeout | WaitDropped.

Definition answer_t : Type := result string StcpVisitorGrant.

Record resp_registry := {
  rs_pending : gmap string (list Z);
  rs_next_id : Z;                            (* AtomicU64 *)
  rs_mail : gmap Z answer_t;                 (* sent, not received *)
}.

Definition resp_registry_new : resp_registry := {| rs_pending := ∅; rs_next_id := 1; rs_mail := ∅ |}.

Definition resp_register (s : resp_registry) (bridge_id : string) : Z * resp_registry :=
  let id := rs_next_id s in
  (id, {| rs_pending := <[bridge_id := default [] (rs_pending s !! bridge_id) ++ [id]]> (rs_pending s);
          rs_next_id := wrap_u64 (id + 1); rs_mail := rs_mail s |}).

Definition resp_resolve (s : resp_registry) (bridge_id : string) (r : answer_t) : resp_registry :=
  match rs_pending s !! bridge_id with
  | Some waiters =>
      {| rs_pending := delete bridge_id (rs_pending s); rs_next_id := rs_next_id s;
         rs_mail := foldl (fun m id => <[id := r]> m) (rs_mail s) waiters |}
  | None => s
  end.

Definition resp_cancel (s : resp_registry) (bridge_id : string) (id : Z) : resp_registry :=
  match rs_pending s !! bridge_id with
  | Some waiters =>
      let waiters := filter (fun wid => wid <> id) waiters in
      {| rs_pending := if decide (waiters = []) then delete bridge_id (rs_pending s)
                       else <[bridge_id := waiters]> (rs_pending s);
         rs_next_id := rs_next_id s; rs_mail := rs_mail s |}
  | None => s
  end.

(** The end of [wait_timeout], by an answer or at the time-out, and the drop of
    the waiter; a sender that is gone without an answer would be [WaitDropped].
    The two are one step here: between them the waiter can only be sent an answer
    that nobody reads. *)
Definition resp_finish (s : resp_registry) (bridge_id : string) (id : Z)
  : result StcpWaitError answer_t * resp_registry :=
  let pending := bool_decide (id ∈ default [] (rs_pending s !! bridge_id)) in
  let out := match rs_mail s !! id with
             | Some r => Ok r
             | None => Err (if pending then WaitTimeout else WaitDropped)
             end in
  let s := resp_cancel s bridge_id id in
  (out, {| rs_pending := rs_pending s; rs_next_id := rs_next_id s; rs_mail := delete id (rs_mail s) |}).

(** What other tasks do meanwhile. *)
Inductive resp_event :=
| RRegister (bridge_id : string)
| RResolve (bridge_id : string) (r : answer_t)
| RFinish (bridge_id : string) (id : Z).

Definition resp_step (s : resp_registry) (e : resp_event) : resp_registry :=
  match e with
  | RRegister b => (resp_register s b).2
  | RResolve b r => resp_resolve s b r
  | RFinish b id => (resp_finish s b id).2
  end.

(** The first answer to a bridge in a history. *)
Fixpoint first_answer (b : string) (es : list resp_event) : option answer_t :=
  match es with
  | [] => None
  | RResolve b' r :: es => if decide (b' = b) then Some r else first_answer b es
  | _ :: es => first_answer b es
  end.

(** ** Pending hole punches *)
Record xtcp_registry := {
  xr_pending : gmap string Z;
  xr_next : Z;
  xr_mail : gmap Z (string * string);
  xr_closed : gset Z;                        (* waiters whose sender is gone *)
}.

Definition xtcp_register (s : xtcp_registry) (proxy_name : string) : Z * xtcp_registry :=
  let id := xr_next s in
  (id, {| xr_pending := <[proxy_name := id]> (xr_pending s); xr_next := id + 1; xr_mail := xr_mail s;
          xr_closed := match xr_pending s !! proxy_name with
                       | Some old => {[old]} ∪ xr_closed s
                       | None => xr_closed s
                       end |}).

Definition xtcp_resolve (s : xtcp_registry) (proxy_name : string) (addrs : string * string)
  : bool * xtcp_registry :=
  match xr_pending s !! proxy_name with
  | Some id => (true, {| xr_pending := delete proxy_name (xr_pending s); xr_next := xr_next s;
                         xr_mail := <[id := addrs]> (xr_mail s); xr_closed := xr_closed s |})
  | None => (false, s)
  end.

(** ** Proxies *)
Record ProxyTraffic := { bytes_down : Z; bytes_up : Z }.

Definition traffic_add (t : ProxyTraffic) (down up : Z) : ProxyTraffic :=
  {| bytes_down := wrap_u64 (bytes_down t + down); bytes_up := wrap_u64 (bytes_up t + up) |}.

(** [WorkConnManager] and [ClientProxyManager]. *)
Record client_proxies := {
  cp_senders : gmap string nat;              (* WorkConnManager: proxy to channel *)
  cp_proxies : gmap string ProxyConfig;
  cp_handlers : gmap string nat;             (* proxy to task *)
  cp_traffic : gmap string ProxyTraffic;
  cp_default_bandwidth : option string;
  cp_next : nat;                             (* fresh channels and tasks *)
  cp_aborted : list nat;                     (* tasks that were aborted *)
}.

Definition client_proxies_new (bandwidth : option string) : client_proxies :=
  {| cp_senders := ∅; cp_proxies := ∅; cp_handlers := ∅; cp_traffic := ∅;
     cp_default_bandwidth := bandwidth; cp_next := 0; cp_aborted := [] |}.

Definition record_traffic (s : client_proxies) (name : string) (down up : Z) : client_proxies :=
  let t := default {| bytes_down := 0; bytes_up := 0 |} (cp_traffic s !! name) in
  {| cp_senders := cp_senders s; cp_proxies := cp_proxies s; cp_handlers := cp_handlers s;
     cp_traffic := <[name := traffic_add t down up]> (cp_traffic s);
     cp_default_bandwidth := cp_default_bandwidth s; cp_next := cp_next s; cp_aborted := cp_aborted s |}.

Definition traffic_snapshot (s : client_proxies) (name : string) : option (Z * Z) :=
  (fun t => (bytes_down t, bytes_up t)) <$> cp_traffic s !! name.

Definition direct_type (ty : string) : bool :=
  bool_decide (ty ∈ ["tcp"; "http"; "https"; "websocket"; "tcpmux"]%string).

(** [start_proxy]: [local] is the parsed [local_ip:local_port].  The handler
    task and its channel get one fresh number; the counter exists from now on. *)
Definition start_client_proxy (s : client_proxies) (c : ProxyConfig) (local : result string unit)
  : result string unit * client_proxies :=
  if direct_type (px_type c) then
    match local with
    | Err e => (Err e, s)
    | Ok _ =>
        let t := cp_next s in
        (Ok tt, {| cp_senders := <[px_name c := t]> (cp_senders s); cp_proxies := cp_proxies s;
                   cp_handlers := <[px_name c := t]> (cp_handlers s);
                   cp_traffic := <[px_name c := default {| bytes_down := 0; bytes_up := 0 |}
                                                  (cp_traffic s !! px_name c)]> (cp_traffic s);
                   cp_default_bandwidth := cp_default_bandwidth s; cp_next := S t;
                   cp_aborted := cp_aborted s |})
    end
  else (Ok tt, s).

Definition with_proxies (s : client_proxies) (m : gmap string ProxyConfig) : client_proxies :=
  {| cp_senders := cp_senders s; cp_proxies := m; cp_handlers := cp_handlers s;
     cp_traffic := cp_traffic s; cp_default_bandwidth := cp_default_bandwidth s; cp_next := cp_next s;
     cp_aborted := cp_aborted s |}.

Definition add_client_proxy (s : client_proxies) (c : ProxyConfig) (local : result string unit)
  : result string unit * client_proxies :=
  start_client_proxy (with_proxies s (<[px_name c := c]> (cp_proxies s))) c local.

Definition abort_handlers (s : client_proxies) (handlers : gmap string nat) (stopped : list nat) : client_proxies :=
  {| cp_senders := cp_senders s; cp_proxies := cp_proxies s; cp_handlers := handlers;
     cp_traffic := cp_traffic s; cp_default_bandwidth := cp_default_bandwidth s; cp_next := cp_next s;
     cp_aborted := cp_aborted s ++ stopped |}.

Definition stop_client_proxy (s : client_proxies) (name : string) : client_proxies :=
  match cp_handlers s !! name with
  | Some t => abort_handlers s (delete name (cp_handlers s)) [t]
  | None => s
  end.

Definition remove_client_proxy (s : client_proxies) (name : string) : client_proxies :=
  let s := stop_client_proxy s name in with_proxies s (delete name (cp_proxies s)).

Definition clear_client_proxies (s : client_proxies) : client_proxies :=
  with_proxies (abort_handlers s ∅ (snd <$> map_to_list (cp_handlers s))) ∅.

(** The channels whose receiver lives: those of handlers that run. *)
Definition get_work_conn_sender (s : client_proxies) (name : string) : option nat := cp_senders s !! name.

(** ** Visitors *)
Record client_visitors := {
  cv_visitors : gmap string VisitorConfig;
  cv_tasks : gmap string nat;
  cv_aborted : list nat;
}.

Definition add_visitor (s : client_visitors) (c : VisitorConfig) : client_visitors :=
  {| cv_visitors := <[vi_name c := c]> (cv_visitors s); cv_tasks := cv_tasks s; cv_aborted := cv_aborted s |}.

Definition remove_visitor (s : client_visitors) (name : string) : client_visitors :=
  {| cv_visitors := delete name (cv_visitors s); cv_tasks := cv_tasks s; cv_aborted := cv_aborted s |}.

Definition register_visitor_task (s : client_visitors) (name : string) (task : nat) : client_visitors :=
  {| cv_visitors := cv_visitors s; cv_tasks := <[name := task]> (cv_tasks s);
     cv_aborted := cv_aborted s ++ match cv_tasks s !! name with Some old => [old] | None => [] end |}.

Definition abort_visitor_task (s : client_visitors) (name : string) : client_visitors :=
  {| cv_visitors := cv_visitors s; cv_tasks := delete name (cv_tasks s);
     cv_aborted := cv_aborted s ++ match cv_tasks s !! name with Some old => [old] | None => [] end |}.

Definition clear_visitors (s : client_visitors) : client_visitors :=
  {| cv_visitors := ∅; cv_tasks := ∅; cv_aborted := cv_aborted s ++ (snd <$> map_to_list (cv_tasks s)) |}.

(** ** The registry's invariant *)
Definition waiting (s : resp_registry) (b : string) : list Z := default [] (rs_pending s !! b).

(** [n] more registrations fit into the counter. *)
Record resp_inv (n : Z) (s : resp_registry) : Prop := {
  ri_range : 0 < rs_next_id s /\ rs_next_id s + n < 2 ^ 64;
  ri_bounded : forall b id, id ∈ waiting s b -> 0 < id < rs_next_id s;
  ri_unique : forall b b' id, id ∈ waiting s b -> id ∈ waiting s b' -> b = b';
  ri_mail : forall id, is_Some (rs_mail s !! id) -> 0 < id < rs_next_id s /\ forall b, id ∉ waiting s b;
}.

Fixpoint registrations (es : list resp_event) : Z :=
  match es with
  | [] => 0
  | RRegister _ :: es => 1 + registrations es
  | _ :: es => registrations es
  end.

Lemma foldl_mail ids r (m : gmap Z answer_t) i :
  foldl (fun m id => <[id := r]> m) m ids !! i = if decide (i ∈ ids) then Some r else m !! i.
Proof.
  revert m. induction ids as [|id ids IH]; intros m; cbn [foldl].
  { by rewrite decide_False by apply not_elem_of_nil. }
  rewrite IH. destruct (decide (i ∈ ids)) as [Hi|Hi].
  - by rewrite decide_True by (by right).
  - destruct (decide (i = id)) as [->|Hne].
    + by rewrite lookup_insert_eq, decide_True by (by left).
    + rewrite lookup_insert_ne by done. by rewrite decide_False by (by intros [->|]%elem_of_cons).
Qed.

Lemma waiting_register s b b' : waiting (resp_register s b).2 b' =
  if decide (b' = b) then waiting s b ++ [rs_next_id s] else waiting s b'.
Proof.
  unfold waiting. simpl. case_decide as E; [subst; by rewrite lookup_insert_eq|by rewrite lookup_insert_ne].
Qed.

Lemma waiting_resolve s b r b' : waiting (resp_resolve s b r) b' = if decide (b' = b) then [] else waiting s b'.
Proof.
  unfold waiting, resp_resolve. destruct (rs_pending s !! b) eqn:E; simpl; case_decide as Eb; subst.
  - by rewrite lookup_delete_eq.
  - by rewrite lookup_delete_ne.
  - by rewrite E.
  - done.
Qed.

Lemma waiting_finish s b id b' : waiting (resp_finish s b id).2 b' =
  if decide (b' = b) then filter (fun i => i <> id) (waiting s b) else waiting s b'.
Proof.
  unfold waiting, resp_finish, resp_cancel. simpl. destruct (rs_pending s !! b) as [ws|] eqn:E; simpl.
  - repeat case_decide; subst; rewrite ?lookup_delete_eq, ?lookup_delete_ne, ?lookup_insert_eq, ?lookup_insert_ne by done;
      simpl; congruence.
  - case_decide; subst; by rewrite ?E.
Qed.

Lemma mail_resolve s b r id : rs_mail (resp_resolve s b r) !! id =
  if decide (id ∈ waiting s b) then Some r else rs_mail s !! id.
Proof.
  unfold resp_resolve, waiting. destruct (rs_pending s !! b) as [ws|]; [apply foldl_mail|].
  rewrite decide_False; [done|apply not_elem_of_nil].
Qed.

Lemma next_resolve s b r : rs_next_id (resp_resolve s b r) = rs_next_id s.
Proof. unfold resp_resolve. by destruct (rs_pending s !! b). Qed.

Lemma finish_out s b id : resp_finish s b id =
  (match rs_mail s !! id with
   | Some r => Ok r
   | None => Err (if bool_decide (id ∈ waiting s b) then WaitTimeout else WaitDropped)
   end, (resp_finish s b id).2).
Proof. done. Qed.

Lemma next_finish s b id : rs_next_id (resp_finish s b id).2 = rs_next_id s.
Proof. unfold resp_finish, resp_cancel. simpl. by destruct (rs_pending s !! b). Qed.

Lemma mail_finish s b id : rs_mail (resp_finish s b id).2 = delete id (rs_mail s).
Proof. unfold resp_finish, resp_cancel. simpl. by destruct (rs_pending s !! b). Qed.

Lemma resp_step_inv n s e : 0 <= n -> resp_inv (n + registrations [e]) s -> resp_inv n (resp_step s e).
Proof.
  intros Hn [Hr Hb Hu Hm]. destruct e as [b|b r|b i]; cbn [registrations] in Hr; cbn [resp_step].
  - assert (Hnext : rs_next_id (resp_register s b).2 = rs_next_id s + 1)
      by (simpl; apply wrap_u64_small; lia).
    assert (Hw : forall b' id, id ∈ waiting (resp_register s b).2 b' ->
      id ∈ waiting s b' \/ (id = rs_next_id s /\ b' = b)).
    { intros b' id. rewrite waiting_register. case_decide; [subst|by left].
      rewrite elem_of_app, list_elem_of_singleton. tauto. }
    split; rewrite ?Hnext; [lia|..].
    + intros b' id [Hx|[-> _]]%Hw; [apply Hb in Hx|]; lia.
    + intros b1 b2 id [H1|[E1 B1]]%Hw [H2|[E2 B2]]%Hw; [by eapply Hu|..|congruence].
      * apply Hb in H1. lia.
      * apply Hb in H2. lia.
    + intros id H0. apply Hm in H0 as [H1 H2]. split; [lia|]. intros b' [Hi|[-> _]]%Hw; [by eapply H2|lia].
  - assert (Hw : forall b' id, id ∈ waiting (resp_resolve s b r) b' -> id ∈ waiting s b' /\ b' <> b).
    { intros b' id. rewrite waiting_resolve. case_decide; [by intros Hn0%not_elem_of_nil|done]. }
    split; rewrite ?next_resolve; [lia|..].
    + intros b' id [Hx _]%Hw. by eapply Hb.
    + intros b1 b2 id [H1 _]%Hw [H2 _]%Hw. by eapply Hu.
    + intros id. rewrite mail_resolve. case_decide as Hi.
      * intros _. split; [by eapply Hb|]. intros b' [Hx Hne]%Hw. by apply Hne, (Hu b' b id).
      * intros [H1 H2]%Hm. split; [done|]. intros b' [Hx _]%Hw. by eapply H2.
  - assert (Hw : forall b' id, id ∈ waiting (resp_finish s b i).2 b' -> id ∈ waiting s b').
    { intros b' id. rewrite waiting_finish. case_decide; [subst|done]. by intros [_ ?]%list_elem_of_filter. }
    split; rewrite ?next_finish, ?mail_finish; [lia|..].
    + intros b' id Hi%Hw. by eapply Hb.
    + intros b1 b2 id H1%Hw H2%Hw. by eapply Hu.
    + intros id [x [_ Hx]%lookup_delete_Some]. destruct (Hm id) as [H1 H2]; [by eexists|].
      split; [done|]. intros b' Hx0%Hw. by eapply H2.
Qed.

(** Where a waiter stands: unanswered, or answered with [r]. *)
Definition waits_for (s : resp_registry) (b : string) (id : Z) (r : option answer_t) : Prop :=
  match r with
  | None => id ∈ waiting s b /\ rs_mail s !! id = None
  | Some r => (forall b', id ∉ waiting s b') /\ rs_mail s !! id = Some r
  end.

Lemma waits_step n s b id e : resp_inv n s -> (forall b', e <> RFinish b' id) -> 0 < id < rs_next_id s ->
  forall o, waits_for s b id o ->
  waits_for (resp_step s e) b id (match o with Some r => Some r | None => first_answer b [e] end).
Proof.
  intros [_ Hb Hu Hm] He Hid o Ho. destruct e as [b1|b1 r1|b1 i]; cbn [resp_step first_answer].
  - destruct o as [r|]; destruct Ho as [H1 H2].
    + split; [|done]. intros b'. rewrite waiting_register. case_decide; [subst|by apply H1].
      rewrite elem_of_app, list_elem_of_singleton. intros [Hx| ->]; [by eapply H1|lia].
    + split; [|done]. rewrite waiting_register. case_decide; [subst; apply elem_of_app; by left|done].
  - destruct o as [r|]; destruct Ho as [H1 H2].
    + split; [|rewrite mail_resolve; by rewrite decide_False].
      intros b'. rewrite waiting_resolve. case_decide; [apply not_elem_of_nil|apply H1].
    + case_decide as Eb; [subst b1|].
      * split; [|rewrite mail_resolve; by rewrite decide_True].
        intros b'. rewrite waiting_resolve. case_decide; [apply not_elem_of_nil|].
        intros Hx. assert (b' = b) by (by eapply Hu). done.
      * split; [rewrite waiting_resolve; by rewrite decide_False by congruence|].
        rewrite mail_resolve. rewrite decide_False; [done|]. intros Hx. by apply Eb, (Hu b1 b id).
  - assert (Hne : i <> id) by (intros ->; by apply (He b1)). destruct o as [r|]; destruct Ho as [H1 H2].
    + split; [|rewrite mail_finish; by rewrite lookup_delete_ne].
      intros b'. rewrite waiting_finish. case_decide; [subst|apply H1].
      intros [_ Hx]%list_elem_of_filter. by eapply H1.
    + split; [|rewrite mail_finish; by rewrite lookup_delete_ne].
      rewrite waiting_finish. case_decide; [subst|done]. apply list_elem_of_filter. done.
Qed.

Lemma waits_run es : forall s b id o, resp_inv (registrations es) s ->
  Forall (fun e => forall b', e <> RFinish b' id) es -> 0 < id < rs_next_id s -> waits_for s b id o ->
  resp_inv 0 (foldl resp_step s es) /\
  waits_for (foldl resp_step s es) b id (match o with Some r => Some r | None => first_answer b es end).
Proof.
  assert (Hnn : forall es, 0 <= registrations es) by (intros l; induction l as [|[] l IHl]; cbn [registrations]; lia).
  induction es as [|e es IH]; intros s b id o Hi Hf Hid Ho; [by destruct o|].
  apply Forall_cons in Hf as [He Hf]. cbn [foldl].
  assert (Hsplit : registrations (e :: es) = registrations es + registrations [e])
    by (destruct e; cbn [registrations]; lia).
  rewrite Hsplit in Hi. pose proof (waits_step _ s b id e Hi He Hid o Ho) as Ho'.
  pose proof (ri_range _ _ Hi) as [_ Hr]. specialize (Hnn es).
  apply resp_step_inv in Hi; [|done].
  assert (Hid' : 0 < id < rs_next_id (resp_step s e)).
  { destruct e as [b1|b1 r1|b1 i]; cbn [resp_step registrations] in *; rewrite ?next_resolve, ?next_finish; try done.
    simpl. rewrite wrap_u64_small by lia. lia. }
  destruct (IH _ b id _ Hi Hf Hid' Ho') as [Hi2 Ho2]. split; [done|].
  destruct o; [done|]. destruct e as [b1|b1 r1|b1 i]; cbn [first_answer] in *; try done.
  by case_decide.
Qed.

(** The registry when the wait of a waiter registered in [s] ends. *)
Lemma waited_state s b es : resp_inv (1 + registrations es) s ->
  Forall (fun e => forall b', e <> RFinish b' (rs_next_id s)) es ->
  let sf := foldl resp_step (resp_register s b).2 es in
  resp_inv 0 sf /\ waits_for sf b (rs_next_id s) (first_answer b es).
Proof.
  intros Hi Hf sf.
  assert (Hnn : 0 <= registrations es) by (clear; induction es as [|[] ? IH]; cbn [registrations]; lia).
  pose proof (ri_range _ _ Hi) as [Hp Hr].
  assert (Hm : rs_mail s !! rs_next_id s = None).
  { destruct (rs_mail s !! rs_next_id s) eqn:Em; [|done]. destruct (ri_mail _ _ Hi (rs_next_id s)) as [Hx _]; [by eexists|lia]. }
  destruct (waits_run es (resp_step s (RRegister b)) b (rs_next_id s) None) as [Hi2 Ho2]; [|done|..].
  - apply resp_step_inv; [done|]. cbn [registrations]. by rewrite Z.add_comm.
  - cbn [resp_step resp_register snd rs_next_id]. rewrite wrap_u64_small by lia. lia.
  - split; [|done]. cbn [resp_step]. rewrite waiting_register, decide_True by done.
    apply elem_of_app. right. by apply list_elem_of_singleton.
  - by split.
Qed.

Lemma waited_outcome sf b id o : waits_for sf b id o ->
  (resp_finish sf b id).1 = match o with Some r => Ok r | None => Err WaitTimeout end.
Proof.
  intros Ho. rewrite finish_out. destruct o as [r|]; destruct Ho as [H1 H2]; cbn [fst]; rewrite H2; [done|].
  by rewrite bool_decide_eq_true_2.
Qed.

(** C19: every waiter gets its own answer.  A visitor that registers for a
    bridge gets, when its wait ends, the first answer the server sent for that
    bridge since it registered, or a time-out if there was none, no matter how
    many other visitors register, are answered or give up in between; the
    outcome "dropped" never happens; and afterwards nothing of the waiter is
    left in the registry. *)
Theorem waiter_gets_first_answer s b es :
  resp_inv (1 + registrations es) s ->
  let '(id, s1) := resp_register s b in
  Forall (fun e => forall b', e <> RFinish b' id) es ->
  let '(out, s2) := resp_finish (foldl resp_step s1 es) b id in
  out = match first_answer b es with Some r => Ok r | None => Err WaitTimeout end /\
  (forall b', id ∉ waiting s2 b') /\ rs_mail s2 !! id = None.
Proof.
  intros Hi. rewrite (surjective_pairing (resp_register s b)). change (resp_register s b).1 with (rs_next_id s).
  intros Hf. destruct (waited_state s b es Hi Hf) as [Hi2 Ho2].
  set (sf := foldl resp_step _ es) in *. rewrite (surjective_pairing (resp_finish sf b (rs_next_id s))).
  split_and!.
  - by apply waited_outcome.
  - intros b'. rewrite waiting_finish. case_decide; [by intros [? _]%list_elem_of_filter|].
    destruct (first_answer b es); destruct Ho2 as [H1 H2]; [by apply H1|].
    intros Hx. assert (b' = b) by (by eapply (ri_unique _ _ Hi2)). done.
  - by rewrite mail_finish, lookup_delete_eq.
Qed.

Lemma waiter_gets_first_answer_witness :
  let grant b := Ok {| gr_bridge_id := b; gr_work_conn_sign_key := "k" |} in
  let es := [RRegister "other"; RResolve "other" (grant "other"); RResolve "mine" (grant "mine"); RFinish "other" 2;
             RResolve "mine" (Err "late")]%string in
  (resp_finish (foldl resp_step (resp_register resp_registry_new "mine").2 es) "mine" 1).1
  = Ok (grant "mine"%string).
Proof.
  intros grant es. assert (resp_inv (1 + registrations es) resp_registry_new) as Hi.
  { split.
    - cbn. split; lia.
    - intros b id Hx. unfold waiting in Hx. cbn [resp_registry_new rs_pending] in Hx. rewrite lookup_empty in Hx.
      by apply not_elem_of_nil in Hx.
    - intros b b' id Hx. unfold waiting in Hx. cbn [resp_registry_new rs_pending] in Hx. rewrite lookup_empty in Hx.
      by apply not_elem_of_nil in Hx.
    - intros id [x Hx]. cbn [resp_registry_new rs_mail] in Hx. by rewrite lookup_empty in Hx. }
  pose proof (waiter_gets_first_answer resp_registry_new "mine" es Hi) as Hw.
  destruct (resp_register resp_registry_new "mine") as [id s1] eqn:E.
  injection E as <- <-. cbn [snd].
  specialize (Hw ltac:(unfold es; repeat (constructor; [intros b' [=]; lia|]); constructor)).
  destruct (resp_finish _ "mine" 1) as [out s2]. destruct Hw as (-> & _ & _). reflexivity.
Defined.

(** A hole punch of the same proxy takes the slot: the earlier waiter's channel
    is closed, so it falls back to the relay, and only the later one is woken. *)
Lemma xtcp_slot_replaced s name addrs id1 s1 id2 s2 :
  xr_pending s !! name = None -> xr_mail s !! xr_next s = None -> 
  xtcp_register s name = (id1, s1) -> xtcp_register s1 name = (id2, s2) ->
  id1 <> id2 /\ id1 ∈ xr_closed s2 /\
  let '(woken, s3) := xtcp_resolve s2 name addrs in
  woken = true /\ xr_mail s3 !! id2 = Some addrs /\ xr_mail s3 !! id1 = None /\ xr_pending s3 !! name = None.
Proof.
  intros Hp Hm [= <- <-] [= <- <-]. cbn [xr_pending xr_next xr_mail xr_closed].
  rewrite lookup_insert_eq. split; [lia|]. split; [set_solver|].
  unfold xtcp_resolve. cbn [xr_pending]. rewrite lookup_insert_eq. cbn [xr_mail xr_pending].
  split_and!; [done|by rewrite lookup_insert_eq| |by rewrite lookup_delete_eq].
  rewrite lookup_insert_ne by lia. done.
Qed.

(** ** The proxy table *)
Inductive cp_op :=
| CpAdd (c : ProxyConfig) (local : result string unit)
| CpRemove (name : string)
| CpClear
| CpTraffic (name : string) (down up : Z).

Definition cp_step (s : client_proxies) (o : cp_op) : client_proxies :=
  match o with
  | CpAdd c local => (add_client_proxy s c local).2
  | CpRemove name => remove_client_proxy s name
  | CpClear => clear_client_proxies s
  | CpTraffic name down up => record_traffic s name down up
  end.

(** Only a proxy that is listed has a handler; the channel work connections are
    sent to is the handler's; no two proxies share a handler; no handler in the
    table was aborted; and its traffic counter exists. *)
Record cp_inv (s : client_proxies) : Prop := {
  ci_listed name t : cp_handlers s !! name = Some t -> is_Some (cp_proxies s !! name);
  ci_sender name t : cp_handlers s !! name = Some t -> cp_senders s !! name = Some t;
  ci_fresh name t : cp_handlers s !! name = Some t -> (t < cp_next s)%nat;
  ci_distinct n1 n2 t : cp_handlers s !! n1 = Some t -> cp_handlers s !! n2 = Some t -> n1 = n2;
  ci_alive name t : cp_handlers s !! name = Some t -> t ∉ cp_aborted s;
  ci_old t : t ∈ cp_aborted s -> (t < cp_next s)%nat;
  ci_counter name t : cp_handlers s !! name = Some t -> is_Some (cp_traffic s !! name);
}.

Lemma cp_inv_new bw : cp_inv (client_proxies_new bw).
Proof. split; cbn; intros; try (by rewrite lookup_empty in * ); by apply not_elem_of_nil in H. Qed.

Lemma cp_inv_list s c : cp_inv s -> cp_inv (with_proxies s (<[px_name c := c]> (cp_proxies s))).
Proof.
  intros [Hl Hs Hf Hd Ha Ho Hc]. split; try done. intros name t Ht. cbn in *.
  destruct (decide (px_name c = name)) as [->|]; [rewrite lookup_insert_eq; by eexists|].
  rewrite lookup_insert_ne by done. by eapply Hl.
Qed.

Lemma cp_inv_start s c local : cp_inv s -> is_Some (cp_proxies s !! px_name c) ->
  cp_inv (start_client_proxy s c local).2.
Proof.
  intros Hi Hp. unfold start_client_proxy. destruct (direct_type _); [|done].
  destruct local as [u|e]; [|done]. destruct Hi as [Hl Hs Hf Hd Ha Ho Hc].
  assert (Hcase : forall name t, <[px_name c := cp_next s]> (cp_handlers s) !! name = Some t ->
            name = px_name c /\ t = cp_next s \/ name <> px_name c /\ cp_handlers s !! name = Some t).
  { intros name t Ht. apply lookup_insert_Some in Ht as [[<- <-]|[Hn Ht]]; [by left|]. right. by split. }
  split; cbn [snd cp_handlers cp_proxies cp_senders cp_next cp_aborted cp_traffic].
  - intros name t [[-> ->]|[Hn Ht]]%Hcase; [done|by eapply Hl].
  - intros name t [[-> ->]|[Hn Ht]]%Hcase; [by rewrite lookup_insert_eq|]. rewrite lookup_insert_ne by done. by apply Hs.
  - intros name t [[-> ->]|[Hn Ht]]%Hcase; [lia|]. apply Hf in Ht. lia.
  - intros n1 n2 t [[-> ->]|[Hn1 H1]]%Hcase [[-> E]|[Hn2 H2]]%Hcase; subst; try done.
    + apply Hf in H2. lia.
    + apply Hf in H1. lia.
    + by eapply Hd.
  - intros name t [[-> ->]|[Hn Ht]]%Hcase; [|by eapply Ha]. intros Hx%Ho. lia.
  - intros t Ht%Ho. lia.
  - intros name t [[-> ->]|[Hn Ht]]%Hcase; [rewrite lookup_insert_eq; by eexists|].
    rewrite lookup_insert_ne by done. by eapply Hc.
Qed.

Lemma cp_inv_stop s name : cp_inv s ->
  cp_inv (stop_client_proxy s name) /\ cp_handlers (stop_client_proxy s name) !! name = None.
Proof.
  intros [Hl Hs Hf Hd Ha Ho Hc]. unfold stop_client_proxy. destruct (cp_handlers s !! name) as [t0|] eqn:E; [|done].
  split; [|by cbn; rewrite lookup_delete_eq].
  split; cbn [abort_handlers cp_handlers cp_proxies cp_senders cp_next cp_aborted cp_traffic].
  - intros n t [Hn Ht]%lookup_delete_Some. by eapply Hl.
  - intros n t [Hn Ht]%lookup_delete_Some. by apply Hs.
  - intros n t [Hn Ht]%lookup_delete_Some. by eapply Hf.
  - intros n1 n2 t [Hn Ht]%lookup_delete_Some [Hn2 Ht2]%lookup_delete_Some. by eapply Hd.
  - intros n t [Hn Ht]%lookup_delete_Some. rewrite elem_of_app, list_elem_of_singleton.
    intros [Hx| ->]; [by eapply Ha|]. apply Hn. by eapply Hd.
  - intros t. rewrite elem_of_app, list_elem_of_singleton. intros [Hx| ->]; [by apply Ho|by eapply Hf].
  - intros n t [Hn Ht]%lookup_delete_Some. by eapply Hc.
Qed.

Lemma cp_inv_step s o : cp_inv s -> cp_inv (cp_step s o).
Proof.
  intros Hi. destruct o as [c local|name| |name down up]; cbn [cp_step].
  - apply cp_inv_start; [by apply cp_inv_list|]. cbn. rewrite lookup_insert_eq. by eexists.
  - destruct (cp_inv_stop s name Hi) as [[Hl Hs Hf Hd Ha Ho Hc] Hn]. unfold remove_client_proxy.
    split; cbn [with_proxies cp_handlers cp_proxies cp_senders cp_next cp_aborted cp_traffic]; try done.
    intros n t Ht. rewrite lookup_delete_ne; [by eapply Hl|]. intros <-. by rewrite Hn in Ht.
  - destruct Hi as [Hl Hs Hf Hd Ha Ho Hc].
    split; cbn; try (intros ? ? Hx; by rewrite lookup_empty in Hx).
    + intros ? ? ? Hx. by rewrite lookup_empty in Hx.
    + intros t. rewrite elem_of_app. intros [Hx|Hx]; [by apply Ho|].
      apply list_elem_of_fmap in Hx as [[n t'] [-> Hx%elem_of_map_to_list]]. by eapply Hf.
  - destruct Hi as [Hl Hs Hf Hd Ha Ho Hc].
    split; cbn [record_traffic cp_handlers cp_proxies cp_senders cp_next cp_aborted cp_traffic]; try done.
    intros n t Ht%Hc. destruct (decide (n = name)) as [->|]; [rewrite lookup_insert_eq; by eexists|].
    by rewrite lookup_insert_ne by done.
Qed.

Lemma cp_inv_run bw os : cp_inv (foldl cp_step (client_proxies_new bw) os).
Proof.
  assert (Hg : forall s, cp_inv s -> cp_inv (foldl cp_step s os)).
  { induction os as [|o os IH]; intros s Hs; [done|]. cbn [foldl]. by apply IH, cp_inv_step. }
  apply Hg, cp_inv_new.
Qed.

(** whatever proxies are added, removed, cleared and used, a proxy with a
    handler is listed, work connections for it go to that handler and to no
    other, the handler was not aborted, no two proxies share one, and its
    traffic counter exists. *)
Theorem proxy_table_consistent bw os :
  let s := foldl cp_step (client_proxies_new bw) os in
  forall name, match cp_handlers s !! name with
               | Some t => is_Some (cp_proxies s !! name) /\ get_work_conn_sender s name = Some t /\
                           t ∉ cp_aborted s /\ is_Some (traffic_snapshot s name) /\
                           (forall other, other <> name -> cp_handlers s !! other <> Some t)
               | None => True
               end.
Proof.
  intros s name. destruct (cp_inv_run bw os) as [Hl Hs Hf Hd Ha Ho Hc]. fold s in Hl, Hs, Hf, Hd, Ha, Ho, Hc.
  destruct (cp_handlers s !! name) as [t|] eqn:E; [|done]. split_and!.
  - by eapply Hl.
  - by apply Hs.
  - by eapply Ha.
  - unfold traffic_snapshot. destruct (Hc _ _ E) as [x ->]. by eexists.
  - intros other Hne Ho'. apply Hne. by eapply Hd.
Qed.

(** A proxy removed while its channel stays registered: work connections for it
    are still given to the channel of the stopped handler. *)
Lemma removed_proxy_keeps_sender s name t : cp_inv s -> cp_handlers s !! name = Some t ->
  let s' := remove_client_proxy s name in
  cp_proxies s' !! name = None /\ get_work_conn_sender s' name = Some t /\ t ∈ cp_aborted s'.
Proof.
  intros [Hl Hs Hf Hd Ha Ho Hc] Ht. unfold remove_client_proxy, stop_client_proxy. rewrite Ht. cbn. split_and!.
  - by rewrite lookup_delete_eq.
  - by apply Hs.
  - apply elem_of_app. right. by apply list_elem_of_singleton.
Qed.
