(* ===== verification/ClientConn.v ===== *)
(** * The client's connections to the server
    (src/rust_frp_client/src/transport.rs, src/rust_frp_client/src/work_conn.rs)

    TLS settings, the work connection port and its fall back, credentials, the
    opening of work connections and what is written to the local service.  What
    the network answers is an argument: [connect] a TCP connection ([None]: not
    within five seconds), [tls_connect] a TLS handshake, [load_tls] the
    certificate files, the session a new stream.  A connection is its number and
    the state of [IoConn]. *)
From Stdlib Require Import Sorting.Sorted.
From S2P Require Import Prelude RustStd RustFmt Utf8 ConfigTypes Transport EncStream IoConn WireV2.
From S2P Require Import Secrets Throttle WorkPool CoreMsg HttpClient JsonValue Auth ProxyProto.

(** ** TLS *)
Definition client_cert_of (tls : TlsConfig) : result string (option (string * string)) :=
  match tls_cert_file tls, tls_key_file tls with
  | Some c, Some k => Ok (Some (c, k))
  | None, None => Ok None
  | _, _ => Err ("transport.tls.cert_file and transport.tls.key_file must be configured together "
      +:+ "(they carry the client certificate presented for mTLS)")%string
  end.

(** [TlsConfig] of rust_frp_net, by the constructor that made it. *)
Inductive client_tls :=
| ClientWithCaAndCert (ca cert key : string)
| ClientWithCa (ca : string)
| ClientInsecure.

#[global] Instance client_tls_eq_dec : EqDecision client_tls.
Proof. solve_decision. Defined.

Definition tls_skip_with_cert : string :=
  ("transport.tls.skip_verify = true cannot be combined with a client certificate "
   +:+ "(cert_file/key_file): skipping server verification would let an impostor server "
   +:+ "collect the client certificate. Remove skip_verify and set trusted_ca_file "
   +:+ "(fail-closed).")%string.

Definition tls_unverified : string :=
  ("TLS is enabled but transport.tls.trusted_ca_file is not set and "
   +:+ "transport.tls.skip_verify is false: refusing to connect with unverified server "
   +:+ "certificate (fail-closed). Set trusted_ca_file to pin the server CA (the server must "
   +:+ "present a stable cert whose SAN matches server_addr; the built-in runtime self-signed "
   +:+ "cert is regenerated every restart and only carries 'frp-server.local'/'localhost', so "
   +:+ "it cannot be pinned), or set skip_verify = true to explicitly accept the risk "
   +:+ "(encryption only, no authentication).")%string.

Section Tls.
Context (load_tls : client_tls -> result string unit).

Definition loaded (t : client_tls) : result string (option client_tls) :=
  _ ← load_tls t; Ok (Some t).

Definition build_client_tls_config (config : ClientConfig) : result string (option client_tls) :=
  match tr_tls (cc_transport config) with
  | None => Ok None
  | Some tls =>
      if negb (tls_enable tls) then Ok None else
      client_cert ← client_cert_of tls;
      match tls_trusted_ca_file tls with
      | Some ca_file =>
          match client_cert with
          | Some (cert_file, key_file) => loaded (ClientWithCaAndCert ca_file cert_file key_file)
          | None => loaded (ClientWithCa ca_file)
          end
      | None =>
          if tls_skip_verify tls then
            match client_cert with
            | Some _ => Err tls_skip_with_cert
            | None => loaded ClientInsecure
            end
          else Err tls_unverified
      end
  end.
End Tls.

(** ** The work connection port *)
Definition work_conn_port_of (config : ClientConfig) : Z :=
  default (wrap_u16 (cc_server_port config + 1000)) (cc_work_conn_port config).

Definition resolve_work_conn_port (config : ClientConfig) (server_work_conn_port : Z) : Z :=
  if decide (0 < server_work_conn_port) then server_work_conn_port else work_conn_port_of config.

Definition WORK_PORT_RETRY_INTERVAL_SECS : Z := 60.

(** On [WORK_PORT_LAST_FAIL_SECS] and the clock in seconds. *)
Definition work_port_currently_preferred (last now : Z) : bool :=
  if decide (last = 0) then true
  else bool_decide (WORK_PORT_RETRY_INTERVAL_SECS <= wrap_i64 (now - last)).

Definition mark_work_port_failed (now : Z) : Z := now.
Definition mark_work_port_ok : Z := 0.

(** ** Credentials *)

(** [fetch]: [OidcClientCredentials::fetch_access_token] on the configuration. *)
Definition resolve_auth_token (fetch : OidcConfig -> result string string) (config : ClientConfig)
  : result string string :=
  if decide (au_method (cc_auth config) <> "oidc"%string) then Ok (default EmptyString (au_token (cc_auth config)))
  else
    match au_oidc (cc_auth config) with
    | None => Err ("auth.oidc is required when auth.method = " +:+ dquote +:+ "oidc" +:+ dquote)%string
    | Some oidc => map_err (fun e => "failed to obtain OIDC access token: " +:+ e)%string (fetch oidc)
    end.

Definition with_token (config : ClientConfig) (token : string) : ClientConfig :=
  {| cc_server_addr := cc_server_addr config; cc_server_port := cc_server_port config;
     cc_work_conn_port := cc_work_conn_port config; cc_user := cc_user config;
     cc_client_id := cc_client_id config; cc_web_server := cc_web_server config;
     cc_auth := let a := cc_auth config in
       {| au_method := au_method a; au_token := Some token; au_token_source := au_token_source a;
          au_additional_scopes := au_additional_scopes a; au_client_id_policy := au_client_id_policy a;
          au_login_max_failures := au_login_max_failures a; au_login_lockout_secs := au_login_lockout_secs a;
          au_kick_require_same_cert := au_kick_require_same_cert a; au_oidc := au_oidc a |};
     cc_transport := cc_transport config; cc_proxies := cc_proxies config;
     cc_visitors := cc_visitors config; cc_log := cc_log config; cc_log_file := cc_log_file config;
     cc_log_level := cc_log_level config; cc_log_max_days := cc_log_max_days config;
     cc_includes := cc_includes config |}.

(** What a command gave: whether it succeeded, its status as text, its output. *)
Record command_output := { cmd_success : bool; cmd_status : string; cmd_stdout : list byte }.

Section TokenSource.
Context (read_to_string : string -> result string string)
        (run : string -> list string -> result string command_output).

Definition source_token (ts : TokenSource) : result string string :=
  if decide (ts_type ts = "file"%string) then
    path ← ok_or ("auth.tokenSource.filePath is required when type = " +:+ dquote +:+ "file" +:+ dquote)%string
      (ts_file_path ts);
    trim <$> map_err (fun e => "failed to read auth.tokenSource.filePath " +:+ path +:+ ": " +:+ e)%string
      (read_to_string path)
  else if decide (ts_type ts = "exec"%string) then
    argv ← ok_or ("auth.tokenSource.exec is required when type = " +:+ dquote +:+ "exec" +:+ dquote)%string
      (ts_exec ts);
    match argv with
    | [] => Err "auth.tokenSource.exec must not be empty"%string
    | prog :: args =>
        output ← map_err (fun e => "failed to run auth.tokenSource.exec " +:+ prog +:+ ": " +:+ e)%string
          (run prog args);
        if cmd_success output then Ok (trim (from_utf8_lossy (cmd_stdout output)))
        else Err ("auth.tokenSource.exec " +:+ prog +:+ " exited with " +:+ cmd_status output)%string
    end
  else Err ("unsupported auth.tokenSource.type: " +:+ ts_type ts +:+ " (expected " +:+ dquote +:+ "file"
            +:+ dquote +:+ " or " +:+ dquote +:+ "exec" +:+ dquote +:+ ")")%string.

Definition apply_token_source (config : ClientConfig) : result string ClientConfig :=
  match au_token_source (cc_auth config) with
  | None => Ok config
  | Some ts =>
      token ← source_token ts;
      if is_empty token then Err "auth.tokenSource produced an empty token"%string
      else Ok (with_token config token)
  end.
End TokenSource.

Definition retryable_needles : list string :=
  ["connection reset"; "connection aborted"; "broken pipe"; "unexpectedeof"; "early eof"; "close_notify";
   "half-close grace"]%string.

Definition work_conn_disconnect_is_retryable (message : string) : bool :=
  existsb (fun needle => contains_str needle (to_ascii_lowercase message)) retryable_needles.

Section Keys.
Context `{RingHash, Base64}.

Definition derive_encryption_key (token : string) : list byte := sha256 (as_bytes token).

Definition client_work_conn_sign_key (token run_id : string) : string :=
  b64_encode (hmac_sha256 (sha256 (as_bytes token)) (as_bytes ("work_conn:" +:+ run_id)%string)).
End Keys.

(** ** Addresses of a hole punching peer *)

(** [SocketAddr], the scope id of IPv6 included. *)
Record peer_addr := PeerAddr { pa_ip : ip_addr; pa_scope : Z; pa_port : Z }.
#[global] Instance peer_addr_eq_dec : EqDecision peer_addr.
Proof. solve_decision. Defined.

(** Any number of digits. *)
Definition read_decimal (bound : Z) (s : string) : option (Z * string) :=
  read_number 10 (str_len s) true bound s.

Definition read_port (s : string) : option (Z * string) :=
  s ← strip_prefix ":" s; read_decimal 65536 s.

Definition read_scope_id (s : string) : Z * string :=
  default (0, s) (s ← strip_prefix "%" s; read_decimal 4294967296 s).

Definition parse_socket_addr (s : string) : option peer_addr :=
  match ('(ip, s) ← read_ipv4 s; '(port, s) ← read_port s; Some (ip, port, s)) with
  | Some (ip, port, rest) => if is_empty rest then Some (PeerAddr (V4 ip) 0 port) else None
  | None =>
      s ← strip_prefix "[" s;
      '(ip, s) ← read_ipv6 s;
      let '(scope, s) := read_scope_id s in
      s ← strip_prefix "]" s;
      '(port, rest) ← read_port s;
      if is_empty rest then Some (PeerAddr (V6 ip) scope port) else None
  end.

Definition add_peer (peers : list peer_addr) (s : string) : list peer_addr :=
  if is_empty s then peers else
  match parse_socket_addr s with
  | Some a => if decide (a ∈ peers) then peers else peers ++ [a]
  | None => peers
  end.

Definition parse_peer_addrs (public local : string) : list peer_addr := foldl add_peer [] [public; local].

(** ** Opening a work connection *)
Definition sock : Type := nat * conn.

Record WorkConnRequest := {
  wq_proxy_name : string;
  wq_run_id : string;
  wq_work_conn_tls : bool;
  wq_session : option (result string sock);     (* what opening a stream of the session gives *)
  wq_server_work_conn_port : Z;
  wq_use_encryption : bool;
  wq_use_compression : bool;
  wq_bridge_id : string;
  wq_bridge_sign_key : string;
}.

(** The readings of the clock, in seconds. *)
Record work_times := { wt_choose : Z; wt_failed : Z; wt_sign : Z }.

Section Dial.
Context (load_tls : client_tls -> result string unit)
        (connect : string -> option (result string sock))
        (tls_connect : client_tls -> string -> sock -> result string sock).

(** The keep-alive option of the socket is not part of its state. *)
Definition dial_work_port (config : ClientConfig) (server_work_conn_port : Z) (work_conn_tls : bool)
  : result string sock :=
  let work_addr := (cc_server_addr config +:+ ":"
                    +:+ dec (resolve_work_conn_port config server_work_conn_port))%string in
  tcp_conn ← default (Err ("connect to work port " +:+ work_addr +:+ " timed out (5s)")%string) (connect work_addr);
  if work_conn_tls then
    tls_config ← map_err (fun e => "failed to build client TLS config: " +:+ e)%string
      (build_client_tls_config load_tls config);
    tls_config ← ok_or "server requires TLS work conn but client tls is disabled"%string tls_config;
    map_err (fun e => "work conn TLS handshake failed: " +:+ e)%string
      (tls_connect tls_config (cc_server_addr config) tcp_conn)
  else Ok tcp_conn.

Definition work_conn_via (config : ClientConfig) : string :=
  to_ascii_lowercase (tr_work_conn_via (cc_transport config)).

Definition prefer_direct (config : ClientConfig) (last now : Z) : bool :=
  let via := work_conn_via config in
  if decide (via = "mux"%string) then false
  else if decide (via = "dedicated"%string) then true
  else bool_decide (tr_protocol (cc_transport config) = "tcp"%string) && work_port_currently_preferred last now.

(** The choice of the path: the connection, and the remembered failure. *)
Definition pick_path (config : ClientConfig) (t : work_times) (last : Z) (req : WorkConnRequest)
  : result string sock * Z :=
  let dial := dial_work_port config (wq_server_work_conn_port req) (wq_work_conn_tls req) in
  if prefer_direct config last (wt_choose t) then
    match dial with
    | Ok conn => (Ok conn, mark_work_port_ok)
    | Err dial_err =>
        if decide (work_conn_via config = "dedicated"%string) then (Err dial_err, last) else
        match wq_session req with
        | Some stream =>
            (map_err (fun e => "both work port (" +:+ dial_err +:+ ") and mux session failed: " +:+ e)%string stream,
             mark_work_port_failed (wt_failed t))
        | None => (Err dial_err, last)
        end
    end
  else
    match wq_session req with
    | Some stream => (map_err (fun e => "session open work stream failed: " +:+ e)%string stream, last)
    | None => (dial, last)
    end.

Section Handshake.
Context `{!Json Message, RingHash, Base64}.

Definition new_work_conn_msg (config : ClientConfig) (t : work_times) (req : WorkConnRequest) : NewWorkConnMsg :=
  {| nw_run_id := wq_run_id req; nw_proxy_name := wq_proxy_name req; nw_timestamp := wt_sign t;
     nw_sign_key := default EmptyString
       ((fun token => client_work_conn_sign_key token (wq_run_id req)) <$> au_token (cc_auth config));
     nw_bridge_id := wq_bridge_id req; nw_bridge_sign_key := wq_bridge_sign_key req;
     nw_use_encryption := wq_use_encryption req; nw_use_compression := wq_use_compression req |}.

Definition start_exchange (config : ClientConfig) (t : work_times) (req : WorkConnRequest)
  : io msg_error (string * Z) :=
  _ ← write_message (NewWorkConn (new_work_conn_msg config t req));
  m ← read_message;
  match m with
  | StartWorkConn start_msg =>
      if is_empty (sw_error start_msg) then mret (sw_src_addr start_msg, sw_src_port start_msg)
      else fail (MsgText ("Server error: " +:+ sw_error start_msg))
  | _ => fail (MsgText "Unexpected response from server")
  end.

(** Compression inside, encryption outside. *)
Definition wrap_client_conn (config : ClientConfig) (req : WorkConnRequest) (c : any_conn)
  : result msg_error any_conn :=
  let c := if wq_use_compression req then CompressedConn c else c in
  if wq_use_encryption req then
    token ← ok_or (MsgText "use_encryption requires a configured token") (au_token (cc_auth config));
    let key := derive_encryption_key token in
    if decide (length key = 32%nat) then Ok (EncryptedConn c key)
    else Err (MsgIo (IoError InvalidInput "read key must be 32 bytes for AES-256-GCM"))
  else Ok c.

(** The result, the connection as the exchange left it, and the memory. *)
Definition open_work_conn (config : ClientConfig) (t : work_times) (last : Z) (req : WorkConnRequest)
  : result msg_error (any_conn * string * Z) * option conn * Z :=
  match pick_path config t last req with
  | (Err e, last) => (Err (MsgText e), None, last)
  | (Ok (id, c), last) =>
      let '(r, c) := start_exchange config t req c in
      ('(src_addr, src_port) ← r;
       work_conn ← wrap_client_conn config req (Raw id);
       Ok (work_conn, src_addr, src_port), Some c, last)
  end.

(** ** Serving a work connection *)
Record WorkConnEstablishRequest := {
  we_proxy_name : string;
  we_run_id : string;
  we_bridge_id : string;
  we_bridge_sign_key : string;
  we_work_conn_tls : bool;
  we_server_work_conn_port : Z;
  we_session : option (result string sock);
}.

Definition proxy_work_conn (p : ProxyConfig) (req : WorkConnEstablishRequest) : WorkConnRequest :=
  {| wq_proxy_name := we_proxy_name req; wq_run_id := we_run_id req;
     wq_work_conn_tls := we_work_conn_tls req; wq_session := we_session req;
     wq_server_work_conn_port := we_server_work_conn_port req;
     wq_use_encryption := px_use_encryption p; wq_use_compression := px_use_compression p;
     wq_bridge_id := we_bridge_id req; wq_bridge_sign_key := we_bridge_sign_key req |}.

(** The request the control loop makes of the server's [ReqWorkConn]. *)
Definition establish_request (run_id : string) (tls : bool) (port : Z) (session : option (result string sock))
    (m : ReqWorkConnMsg) : WorkConnEstablishRequest :=
  {| we_proxy_name := rw_proxy_name m; we_run_id := run_id; we_bridge_id := rw_bridge_id m;
     we_bridge_sign_key := rw_work_conn_sign_key m; we_work_conn_tls := tls;
     we_server_work_conn_port := port; we_session := session |}.

(** What an established work connection turns into: SUDP frames to a local
    address, or a bridge with the local service, to which bytes were written. *)
Inductive served :=
| ServeSudp (conn : any_conn) (local_addr : string)
| ServeBridge (conn : any_conn) (local_addr : string) (header : list byte).

(** The header that precedes the bridge. *)
Definition proxy_protocol_bytes (p : ProxyConfig) (src_addr : string) (src_port : Z) : list byte :=
  let enabled := default false (px_proxy_protocol p) || bool_decide (is_Some (px_proxy_protocol_version p)) in
  if enabled && bool_decide (0 < src_port) then
    build_proxy_protocol_header src_addr src_port (px_local_ip p) (px_local_port p)
      (default "v1"%string (px_proxy_protocol_version p))
  else [].

Definition find_proxy (config : ClientConfig) (name : string) : option ProxyConfig :=
  List.find (fun p => bool_decide (px_name p = name)) (cc_proxies config).

(** [local]: connecting to the local service; [write]: writing the header. *)
Definition establish_work_connection (local : string -> result io_error unit)
    (write : list byte -> result io_error unit) (config : ClientConfig) (t : work_times) (last : Z)
    (req : WorkConnEstablishRequest) : result msg_error served * option conn * Z :=
  match find_proxy config (we_proxy_name req) with
  | None => (Err (MsgText ("Proxy config not found: " +:+ we_proxy_name req)), None, last)
  | Some p =>
      if bool_decide (px_use_encryption p = true /\ au_token (cc_auth config) = None) then
        (Err (MsgText ("proxy [" +:+ we_proxy_name req
           +:+ "] enables use_encryption but client has no token configured")), None, last)
      else
      let '(opened, c, last) := open_work_conn config t last (proxy_work_conn p req) in
      ('(work_conn, src_addr, src_port) ← opened;
       let local_addr := (px_local_ip p +:+ ":" +:+ dec (px_local_port p))%string in
       if decide (px_type p = "sudp"%string) then Ok (ServeSudp work_conn local_addr) else
       _ ← map_err MsgIo (local local_addr);
       let header := proxy_protocol_bytes p src_addr src_port in
       _ ← (if decide (header = []) then Ok tt else map_err MsgIo (write header));
       Ok (ServeBridge work_conn local_addr header), c, last)
  end.
End Handshake.
End Dial.

(** ** Nothing is sent to a server that was not asked for *)
Lemma loaded_Ok load t r : loaded load t = Ok r <-> load t = Ok tt /\ r = Some t.
Proof.
  unfold loaded, mbind, result_bind. destruct (load t) as [[]|e].
  - split; [by intros [= <-]|by intros [_ ->]].
  - split; [done|by intros [? _]].
Qed.


Definition secure_client : ClientConfig :=
  {| cc_server_addr := "frp.example.com"; cc_server_port := 7000; cc_work_conn_port := None;
     cc_user := None; cc_client_id := None; cc_web_server := default_web_server;
     cc_auth := {| au_method := "token"; au_token := Some "tok"%string; au_token_source := None;
       au_additional_scopes := None; au_client_id_policy := Warn; au_login_max_failures := 5;
       au_login_lockout_secs := 600; au_kick_require_same_cert := false; au_oidc := None |};
     cc_transport := {| tr_protocol := "tcp"; tr_tls := Some {| tls_enable := true;
         tls_cert_file := None; tls_key_file := None; tls_trusted_ca_file := None; tls_skip_verify := true;
         tls_client_ca_file := None; tls_require_client_cert := false; tls_force := true |};
       tr_tcp_mux := true; tr_tls_only := false; tr_pool_count := 0; tr_max_pool_count := None;
       tr_tcp_keepalive_secs := 60; tr_bandwidth_limit := None; tr_use_encryption := false;
       tr_use_compression := false; tr_quic := None; tr_wire_protocol := "v1"; tr_work_conn_via := "auto" |};
     cc_proxies := [default_proxy]; cc_visitors := []; cc_log := default_log; cc_log_file := None;
     cc_log_level := None; cc_log_max_days := None; cc_includes := None |}.


(** ** A closed work port costs one dial a minute *)

(** A history of requests: the times of the dials, and whether each request got
    the stream of the session. *)
Fixpoint direct_dials (load : client_tls -> result string unit)
    (connect : string -> option (result string sock))
    (tls_connect : client_tls -> string -> sock -> result string sock)
    (config : ClientConfig) (last : Z) (reqs : list (work_times * WorkConnRequest))
  : list Z * list (result string sock) :=
  match reqs with
  | [] => ([], [])
  | (t, req) :: reqs =>
      let '(out, last') := pick_path load connect tls_connect config t last req in
      let '(dials, outs) := direct_dials load connect tls_connect config last' reqs in
      (if prefer_direct config last (wt_choose t) then wt_choose t :: dials else dials, out :: outs)
  end.

(** The clock does not run backwards, and is not at the epoch. *)
Fixpoint clock_from (now : Z) (reqs : list (work_times * WorkConnRequest)) : Prop :=
  match reqs with
  | [] => True
  | (t, _) :: reqs => now <= wt_choose t <= wt_failed t /\ wt_failed t < 2 ^ 62 /\ clock_from (wt_failed t) reqs
  end.

Definition auto_tcp (config : ClientConfig) : Prop :=
  work_conn_via config = "auto"%string /\ tr_protocol (cc_transport config) = "tcp"%string.

Lemma prefer_auto config last now : auto_tcp config -> 0 <= last <= now -> now < 2 ^ 62 ->
  prefer_direct config last now = bool_decide (last = 0 \/ last + 60 <= now).
Proof.
  intros [Hv Hp] Hl Hn. unfold prefer_direct. rewrite Hv, Hp. rewrite !decide_False by done.
  rewrite bool_decide_eq_true_2 by done. cbn [andb]. unfold work_port_currently_preferred.
  assert (2 ^ 62 = 4611686018427387904) as E by reflexivity. rewrite E in Hn.
  unfold WORK_PORT_RETRY_INTERVAL_SECS. rewrite wrap_i64_small by lia.
  case_decide; [by rewrite bool_decide_eq_true_2 by lia|]. apply bool_decide_ext. lia.
Qed.

Lemma pick_path_closed load connect tls_connect config t last req e stream : auto_tcp config ->
  dial_work_port load connect tls_connect config (wq_server_work_conn_port req) (wq_work_conn_tls req) = Err e ->
  wq_session req = Some (Ok stream) ->
  pick_path load connect tls_connect config t last req =
    (Ok stream, if prefer_direct config last (wt_choose t) then wt_failed t else last).
Proof.
  intros [Hv _] Hd Hs. unfold pick_path. rewrite Hd, Hs, Hv.
  destruct (prefer_direct _ _ _); [|done]. by rewrite decide_False.
Qed.

(** a work port that cannot be reached costs little and breaks nothing.
    With the default path selection and a multiplexed session, however many work
    connections are requested, every one of them is served by the session, the
    port is dialled again only 60 seconds after a dial failed, and the first
    request after that dials it. *)
Theorem dial_backoff load connect tls_connect config reqs : auto_tcp config -> forall last now,
  0 <= last <= now -> 0 < now -> clock_from now reqs ->
  Forall (fun r => is_Some (wq_session r.2 ≫= fun s => match s with Ok x => Some x | Err _ => None end) /\
    exists e, dial_work_port load connect tls_connect config (wq_server_work_conn_port r.2)
                (wq_work_conn_tls r.2) = Err e) reqs ->
  let '(dials, outs) := direct_dials load connect tls_connect config last reqs in
  StronglySorted (fun a b => a + 60 <= b) dials /\
  Forall2 (fun r out => wq_session r.2 = Some out /\ is_ok out = true) reqs outs /\
  (forall d rest, dials = d :: rest -> last = 0 \/ last + 60 <= d) /\
  (match reqs with (t, _) :: _ => (last = 0 \/ last + 60 <= wt_choose t) -> head dials = Some (wt_choose t)
   | [] => True end).
Proof.
  intros Hauto. induction reqs as [|[t req] reqs IH]; intros last now Hl Hn Hc Hf; simpl.
  { split_and!; [constructor|constructor|done|done]. }
  destruct Hc as (Ht & Hmax & Hc). apply Forall_cons in Hf as [[[stream Hs] [e He]] Hf]. cbn [snd] in *.
  assert (Hstream : wq_session req = Some (Ok stream)).
  { destruct (wq_session req) as [[x|]|]; simpl in Hs; by simplify_eq. }
  rewrite (pick_path_closed _ _ _ _ _ _ _ _ stream Hauto He Hstream).
  rewrite prefer_auto by (done || lia).
  set (last' := if bool_decide _ then _ else _).
  assert (Hl' : 0 <= last' <= wt_failed t) by (subst last'; case_bool_decide; lia).
  specialize (IH last' (wt_failed t) Hl' ltac:(lia) Hc Hf).
  destruct (direct_dials _ _ _ _ last' reqs) as [dials outs]. destruct IH as (I1 & I2 & I3 & I4).
  assert (Hlow : forall n, (last' = 0 \/ last' + 60 <= n) -> last' <> 0 -> last' + 60 <= n) by lia.
  subst last'. case_bool_decide as Hb.
  - split_and!.
    + constructor; [done|]. destruct dials as [|d rest]; [constructor|].
      assert (wt_choose t + 60 <= d) by (destruct (I3 d rest eq_refl); lia).
      apply StronglySorted_inv in I1 as [_ I1]. constructor; [done|].
      eapply Forall_impl; [exact I1|]. simpl. intros. lia.
    + constructor; [by split|done].
    + intros d rest [= <- <-]. lia.
    + done.
  - split_and!; [done|constructor; [by split|done]|done|]. intros. lia.
Qed.

Definition toy_request (name : string) (session : option (result string sock)) : WorkConnRequest :=
  {| wq_proxy_name := name; wq_run_id := "run"; wq_work_conn_tls := false; wq_session := session;
     wq_server_work_conn_port := 0; wq_use_encryption := false; wq_use_compression := false;
     wq_bridge_id := EmptyString; wq_bridge_sign_key := EmptyString |}.

Definition toy_times_at (now : Z) : work_times := {| wt_choose := now; wt_failed := now + 5; wt_sign := now + 5 |}.

Lemma dial_backoff_witness :
  let stream := Ok (1%nat, Conn [] [] 0) in
  let reqs := (fun n => (toy_times_at n, toy_request "ssh" (Some stream))) <$> [100; 130; 150; 165; 300] in
  direct_dials (fun _ => Ok tt) (fun _ => None) (fun _ _ s => Ok s) secure_client 0 reqs
    = ([100; 165; 300], [stream; stream; stream; stream; stream]) /\
  StronglySorted (fun a b => a + 60 <= b) [100; 165; 300].
Proof.
  intros stream reqs.
  pose proof (dial_backoff (fun _ => Ok tt) (fun _ => None) (fun _ _ s => Ok s) secure_client reqs) as H0.
  assert (E : direct_dials (fun _ => Ok tt) (fun _ => None) (fun _ _ s => Ok s) secure_client 0 reqs
    = ([100; 165; 300], [stream; stream; stream; stream; stream])) by (vm_compute; reflexivity).
  split; [exact E|].
  specialize (H0 ltac:(split; reflexivity) 0 50 ltac:(lia) ltac:(lia)).
  rewrite E in H0. apply H0; [cbn; lia|].
  repeat constructor; try (by eexists); by eexists.
Defined.
