(* ===== verification/ClientVisitor.v ===== *)
(** * Visitors and hole punching on the client (src/rust_frp_client/src/visitor.rs)

    What one local connection of an STCP or XTCP visitor does: the settings it
    takes, the attempt to reach the owner directly, the request for a bridge, the
    wait for the answer, and the work connection; and the owner's side of a hole
    punch.  What the network and the other tasks do is an argument. *)
From S2P Require Import Prelude RustStd RustFmt Utf8 ConfigTypes Transport EncStream IoConn WireV2.
From S2P Require Import Secrets Throttle WorkPool CoreMsg HttpClient JsonValue Auth ProxyProto.
From S2P Require Import ClientRegistry ClientConn.

Section Visitors.
Context `{RingHash, Base64}.

(** What a visitor takes from the configuration, by the proxy it visits. *)
Record visitor_settings := {
  vs_is_xtcp : bool;
  vs_secret_key : string;
  vs_use_encryption : bool;
  vs_use_compression : bool;
}.

Definition find_visitor (config : ClientConfig) (proxy_name : string) : option VisitorConfig :=
  List.find (fun v => bool_decide (vi_server_name v = proxy_name)) (cc_visitors config).

Definition settings_of (config : ClientConfig) (proxy_name : string) : visitor_settings :=
  let v := find_visitor config proxy_name in
  {| vs_is_xtcp := existsb (fun v => bool_decide (vi_server_name v = proxy_name)
                                    && bool_decide (vi_type v = "xtcp"%string)) (cc_visitors config);
     vs_secret_key := default EmptyString (v ≫= vi_secret_key);
     vs_use_encryption := default false (vi_use_encryption <$> v);
     vs_use_compression := default false (vi_use_compression <$> v) |}.

(** The information an XTCP visitor sends about itself. *)
Definition xtcp_nat_info (proxy_name run_id secret_key local_addr : string) (public : option string)
    (timestamp : Z) : XtcpNatInfoMsg :=
  {| xn_proxy_name := proxy_name; xn_run_id := run_id; xn_nat_type := "unknown";
     xn_local_addr := local_addr; xn_public_addr := default EmptyString public;
     xn_sign_key := generate_stcp_sign_key b64_encode secret_key proxy_name timestamp;
     xn_timestamp := timestamp |}.

Definition stcp_visitor_request (config : ClientConfig) (proxy_name bridge_id run_id : string) (timestamp : Z)
  : StcpVisitorMsg :=
  {| sv_proxy_name := proxy_name; sv_run_id := run_id; sv_bridge_id := bridge_id; sv_timestamp := timestamp;
     sv_sign_key := generate_stcp_visitor_sign_key b64_encode (vs_secret_key (settings_of config proxy_name))
                      proxy_name bridge_id run_id timestamp |}.

(** ** Hole punching *)

(** What happens to an attempt: whether the socket is bound, what STUN and the
    routing table say, whether the control channel takes the message, the answer
    ([None]: six seconds passed; [Some None]: another attempt took the slot), and
    whether KCP starts and hears the peer. *)
Record punch := {
  pu_bound : bool;
  pu_public : option string;
  pu_local : string;
  pu_time : Z;
  pu_sent : bool;
  pu_answer : option (option (string * string));
  pu_started : bool;
  pu_active : bool;
}.

(** [None] as in the code: the connection was served directly. *)
Definition xtcp_try_p2p (p : punch) (proxy_name run_id secret_key : string) (reg : xtcp_registry)
  : option unit * list Message * xtcp_registry :=
  if negb (pu_bound p) then (Some tt, [], reg) else
  let '(id, reg) := xtcp_register reg proxy_name in
  let nat_info := xtcp_nat_info proxy_name run_id secret_key (pu_local p) (pu_public p) (pu_time p) in
  if negb (pu_sent p) then (Some tt, [], reg) else
  let direct := match pu_answer p with
                | Some (Some (owner_public, owner_local)) =>
                    match parse_peer_addrs owner_public owner_local with
                    | [] => false
                    | _ => pu_started p && pu_active p
                    end
                | _ => false
                end in
  (if direct then None else Some tt, [XtcpNatInfo nat_info], reg).

(** The owner: the messages it sends, and the local service it bridges to. *)
Definition run_xtcp_owner (p : punch) (proxy : ProxyConfig) (visitor_public visitor_local run_id : string)
    (connect : string -> bool) : list Message * option string :=
  if negb (pu_bound p) then ([], None) else
  let nat_info := {| xn_proxy_name := px_name proxy; xn_run_id := run_id; xn_nat_type := "unknown";
    xn_local_addr := pu_local p; xn_public_addr := default EmptyString (pu_public p);
    xn_sign_key := EmptyString; xn_timestamp := 0 |} in
  if negb (pu_sent p) then ([], None) else
  ([XtcpNatInfo nat_info],
   match parse_peer_addrs visitor_public visitor_local with
   | [] => None
   | _ =>
       let local_svc := (px_local_ip proxy +:+ ":" +:+ dec (px_local_port proxy))%string in
       if pu_started p && pu_active p && connect local_svc then Some local_svc else None
   end).

(** ** One connection of a visitor *)
Record StcpVisitorDeps := {
  vd_proxy_name : string;
  vd_run_id : string;
  vd_config : ClientConfig;
  vd_work_conn_tls : bool;
  vd_server_work_conn_port : Z;
}.

(** Before the request: encryption needs a token; a direct path ends it. *)
Definition visitor_plan (d : StcpVisitorDeps) (p : punch) (reg : xtcp_registry)
  : result string (option unit * list Message * xtcp_registry) :=
  let s := settings_of (vd_config d) (vd_proxy_name d) in
  if bool_decide (vs_use_encryption s = true /\ au_token (cc_auth (vd_config d)) = None) then
    Err ("visitor for [" +:+ vd_proxy_name d +:+ "] enables use_encryption but client has no token configured")%string
  else if vs_is_xtcp s then Ok (xtcp_try_p2p p (vd_proxy_name d) (vd_run_id d) (vs_secret_key s) reg)
  else Ok (Some tt, [], reg).

Definition visitor_grant (proxy_name bridge_id : string) (waited : result StcpWaitError answer_t)
  : result string StcpVisitorGrant :=
  match waited with
  | Ok (Ok grant) =>
      if decide (gr_bridge_id grant <> bridge_id) then Err "STCP visitor response bridge mismatch"%string
      else Ok grant
  | Ok (Err e) => Err ("STCP visitor rejected by server: " +:+ e)%string
  | Err WaitDropped => Err "STCP visitor waiter dropped (reconnect?)"%string
  | Err WaitTimeout => Err ("timeout waiting for STCP visitor resp of " +:+ proxy_name +:+ " (bridge not ready)")%string
  end.

(** Registers the waiter, then sends, then waits while [es] happens to the
    registry; whatever the outcome, the waiter is gone afterwards. *)
Definition ask_for_bridge (proxy_name bridge_id : string) (sent : result string unit) (es : list resp_event)
    (reg : resp_registry) : result string StcpVisitorGrant * resp_registry :=
  let '(id, reg) := resp_register reg bridge_id in
  match sent with
  | Err e => (Err ("Failed to send StcpVisitor: " +:+ e)%string, resp_cancel reg bridge_id id)
  | Ok _ =>
      let '(waited, reg) := resp_finish (foldl resp_step reg es) bridge_id id in
      (visitor_grant proxy_name bridge_id waited, reg)
  end.

(** What the control loop makes of the server's answer. *)
Definition stcp_visitor_answer (resp : StcpVisitorRespMsg) : answer_t :=
  if is_empty (sr_error resp)
  then Ok {| gr_bridge_id := sr_bridge_id resp; gr_work_conn_sign_key := sr_work_conn_sign_key resp |}
  else Err (sr_error resp).

(** The work connection of the visitor's leg. *)
Definition visitor_work_conn (d : StcpVisitorDeps) (grant : StcpVisitorGrant) : WorkConnRequest :=
  let s := settings_of (vd_config d) (vd_proxy_name d) in
  {| wq_proxy_name := vd_proxy_name d; wq_run_id := vd_run_id d; wq_work_conn_tls := vd_work_conn_tls d;
     wq_session := None; wq_server_work_conn_port := vd_server_work_conn_port d;
     wq_use_encryption := vs_use_encryption s; wq_use_compression := vs_use_compression s;
     wq_bridge_id := gr_bridge_id grant; wq_bridge_sign_key := gr_work_conn_sign_key grant |}.

(** What a local connection ends as: served directly, or bridged with a work
    connection. *)
Inductive visited := Direct | Relayed (conn : any_conn).

(** [handle_stcp_visitor_conn]: the outcome, the messages given to the control
    connection, and both registries. *)
Definition handle_stcp_visitor_conn `{!Json Message} (load_tls : client_tls -> result string unit)
    (connect : string -> option (result string sock))
    (tls_connect : client_tls -> string -> sock -> result string sock)
    (d : StcpVisitorDeps) (p : punch) (bridge_id : string) (timestamp : Z) (sent : result string unit)
    (es : list resp_event) (t : work_times) (last : Z) (xreg : xtcp_registry) (reg : resp_registry)
  : result msg_error visited * list Message * xtcp_registry * resp_registry * Z :=
  match visitor_plan d p xreg with
  | Err e => (Err (MsgText e), [], xreg, reg, last)
  | Ok (None, msgs, xreg) => (Ok Direct, msgs, xreg, reg, last)
  | Ok (Some _, msgs, xreg) =>
      let request := stcp_visitor_request (vd_config d) (vd_proxy_name d) bridge_id (vd_run_id d) timestamp in
      let msgs := msgs ++ match sent with Ok _ => [StcpVisitor request] | Err _ => [] end in
      let '(granted, reg) := ask_for_bridge (vd_proxy_name d) bridge_id sent es reg in
      match granted with
      | Err e => (Err (MsgText e), msgs, xreg, reg, last)
      | Ok grant =>
          let '(opened, _, last) :=
            open_work_conn load_tls connect tls_connect (vd_config d) t last (visitor_work_conn d grant) in
          ((fun o => Relayed o.1.1) <$> opened, msgs, xreg, reg, last)
      end
  end.
End Visitors.
