(* ===== verification/ClientSession.v ===== *)
(** * The client's control session
    (src/rust_frp_client/src/control.rs, src/rust_frp_client/src/client_impl.rs)

    One control connection: the messages the loop reads and what it starts for
    them, the heartbeat, the choice of the transport, login and registration; and
    the life of the client around it: reconnecting, reloading, shutting down.
    Tasks the loop starts are recorded; what the network answers is an argument
    or part of an event. *)
From S2P Require Import Prelude RustStd RustFmt Utf8 ConfigTypes Transport EncStream IoConn WireV2.
From S2P Require Import Secrets Throttle WorkPool CoreMsg HttpClient JsonValue Auth ProxyProto.
From S2P Require Import ClientRegistry ClientConn ClientVisitor.

(** ** The control connection *)

(** The messages still to come and how the next writes go ([Ok] when the list
    is exhausted), and what was sent. *)
Record wire := { wi_in : list (result string Message); wi_writes : list (result string unit); wi_sent : list Message }.

Definition wire_read (w : wire) : result string Message * wire :=
  match wi_in w with
  | [] => (Err "early eof"%string, w)
  | r :: rest => (r, {| wi_in := rest; wi_writes := wi_writes w; wi_sent := wi_sent w |})
  end.

Definition wire_write (msg : Message) (w : wire) : result string unit * wire :=
  let '(r, rest) := match wi_writes w with [] => (Ok tt, []) | r :: rest => (r, rest) end in
  (r, {| wi_in := wi_in w; wi_writes := rest;
         wi_sent := match r with Ok _ => wi_sent w ++ [msg] | Err _ => wi_sent w end |}).

(** What the loop starts on its own task. *)
Inductive client_task :=
| TaskWorkConn (req : WorkConnEstablishRequest)
| TaskUdpReply (socket : nat) (proxy_name : string) (client_addr : option string)
| TaskXtcpOwner (proxy : ProxyConfig) (visitor_public visitor_local : string).

(** [ClientControl]. *)
Record client_control := {
  k_wire : wire;
  k_run_id : string;
  k_auth : AuthManager;
  k_config : ClientConfig;
  k_udp_sockets : gmap string nat;
  k_last_pong_time : Z;
  k_plugin_rejected_heartbeat : bool;
  k_work_conn_tls : bool;
  k_server_work_conn_port : Z;
  k_session : option (result string sock);
  k_xtcp : xtcp_registry;
}.

(** The control, the process-wide table of waiters, the started tasks and the
    datagrams given to local services. *)
Record client_session := {
  cs_control : client_control;
  cs_resp : resp_registry;
  cs_tasks : list client_task;
  cs_datagrams : list (nat * string * list byte);
}.

Definition control_new (w : wire) (run_id : string) (auth : AuthManager) (config : ClientConfig)
    (now : Z) (tls : bool) (port : Z) (session : option (result string sock)) : client_control :=
  {| k_wire := w; k_run_id := run_id; k_auth := auth; k_config := config; k_udp_sockets := ∅;
     k_last_pong_time := now; k_plugin_rejected_heartbeat := false; k_work_conn_tls := tls;
     k_server_work_conn_port := port; k_session := session;
     k_xtcp := {| xr_pending := ∅; xr_next := 0; xr_mail := ∅; xr_closed := ∅ |} |}.

Definition set_wire (w : wire) (k : client_control) : client_control :=
  {| k_wire := w; k_run_id := k_run_id k; k_auth := k_auth k; k_config := k_config k;
     k_udp_sockets := k_udp_sockets k; k_last_pong_time := k_last_pong_time k;
     k_plugin_rejected_heartbeat := k_plugin_rejected_heartbeat k; k_work_conn_tls := k_work_conn_tls k;
     k_server_work_conn_port := k_server_work_conn_port k; k_session := k_session k; k_xtcp := k_xtcp k |}.

Definition set_pong (now : Z) (rejected : bool) (k : client_control) : client_control :=
  {| k_wire := k_wire k; k_run_id := k_run_id k; k_auth := k_auth k; k_config := k_config k;
     k_udp_sockets := k_udp_sockets k; k_last_pong_time := now;
     k_plugin_rejected_heartbeat := rejected; k_work_conn_tls := k_work_conn_tls k;
     k_server_work_conn_port := k_server_work_conn_port k; k_session := k_session k; k_xtcp := k_xtcp k |}.

Definition set_sockets (m : gmap string nat) (k : client_control) : client_control :=
  {| k_wire := k_wire k; k_run_id := k_run_id k; k_auth := k_auth k; k_config := k_config k;
     k_udp_sockets := m; k_last_pong_time := k_last_pong_time k;
     k_plugin_rejected_heartbeat := k_plugin_rejected_heartbeat k; k_work_conn_tls := k_work_conn_tls k;
     k_server_work_conn_port := k_server_work_conn_port k; k_session := k_session k; k_xtcp := k_xtcp k |}.

Definition set_xtcp (x : xtcp_registry) (k : client_control) : client_control :=
  {| k_wire := k_wire k; k_run_id := k_run_id k; k_auth := k_auth k; k_config := k_config k;
     k_udp_sockets := k_udp_sockets k; k_last_pong_time := k_last_pong_time k;
     k_plugin_rejected_heartbeat := k_plugin_rejected_heartbeat k; k_work_conn_tls := k_work_conn_tls k;
     k_server_work_conn_port := k_server_work_conn_port k; k_session := k_session k; k_xtcp := x |}.

Definition set_control (k : client_control) (s : client_session) : client_session :=
  {| cs_control := k; cs_resp := cs_resp s; cs_tasks := cs_tasks s; cs_datagrams := cs_datagrams s |}.
Definition set_resp (r : resp_registry) (s : client_session) : client_session :=
  {| cs_control := cs_control s; cs_resp := r; cs_tasks := cs_tasks s; cs_datagrams := cs_datagrams s |}.
Definition start_task (t : client_task) (s : client_session) : client_session :=
  {| cs_control := cs_control s; cs_resp := cs_resp s; cs_tasks := cs_tasks s ++ [t];
     cs_datagrams := cs_datagrams s |}.
Definition add_datagram (d : nat * string * list byte) (s : client_session) : client_session :=
  {| cs_control := cs_control s; cs_resp := cs_resp s; cs_tasks := cs_tasks s;
     cs_datagrams := cs_datagrams s ++ [d] |}.

(** ** Messages *)

(** What the operating system does for a datagram: a new socket, the sending. *)
Record udp_env := { ue_bind : option nat; ue_send : nat -> string -> list byte -> bool }.

Definition on_udp_packet (env : udp_env) (m : UdpPacketMsg) (s : client_session) : client_session :=
  match find_proxy (k_config (cs_control s)) (up_proxy_name m) with
  | None => s
  | Some cfg =>
      let local_addr := (px_local_ip cfg +:+ ":" +:+ dec (px_local_port cfg))%string in
      let socket := match k_udp_sockets (cs_control s) !! up_proxy_name m with
                    | Some socket => Some (socket, s)
                    | None =>
                        (fun socket => (socket, set_control (set_sockets (<[up_proxy_name m := socket]>
                           (k_udp_sockets (cs_control s))) (cs_control s)) s)) <$> ue_bind env
                    end in
      match socket with
      | None => s
      | Some (socket, s) =>
          if ue_send env socket local_addr (up_data m)
          then start_task (TaskUdpReply socket (up_proxy_name m) (up_client_addr m))
                 (add_datagram (socket, local_addr, up_data m) s)
          else s
      end
  end.

Definition handle_client_message (env : udp_env) (now : Z) (msg : Message) (s : client_session) : client_session :=
  let k := cs_control s in
  match msg with
  | Pong m =>
      set_control (set_pong now (k_plugin_rejected_heartbeat k || negb (is_empty (pong_error m))) k) s
  | StcpVisitorResp resp => set_resp (resp_resolve (cs_resp s) (sr_bridge_id resp) (stcp_visitor_answer resp)) s
  | ReqWorkConn m =>
      start_task (TaskWorkConn (establish_request (k_run_id k) (k_work_conn_tls k) (k_server_work_conn_port k)
        (k_session k) m)) s
  | UdpPacket m => on_udp_packet env m s
  | XtcpNatInfo m =>
      match find_proxy (k_config k) (xn_proxy_name m) with
      | Some proxy_cfg => start_task (TaskXtcpOwner proxy_cfg (xn_public_addr m) (xn_local_addr m)) s
      | None =>
          set_control (set_xtcp (xtcp_resolve (k_xtcp k) (xn_proxy_name m)
            (xn_public_addr m, xn_local_addr m)).2 k) s
      end
  | _ => s
  end.

(** ** The loop *)
Inductive run_event :=
| EvRead (r : result string Message)
| EvIdle                                    (* fifteen seconds without a message *)
| EvUdp (m : Message)                       (* the answer of a local UDP service *)
| EvVisitor (m : Message).                  (* a message of a visitor *)

(** The clock at the top of an iteration and at its event; the time stamp. *)
Record run_clock := { rc_top : Z; rc_event : Z; rc_stamp : Z }.

Definition HEARTBEAT_INTERVAL : Z := secs 10.
Definition PONG_TIMEOUT : Z := secs 90.

Definition write_control (msg : Message) (s : client_session) : result string unit * client_session :=
  let '(r, w) := wire_write msg (k_wire (cs_control s)) in (r, set_control (set_wire w (cs_control s)) s).

Section Loop.
Context `{RingHash, Base64}.

Definition client_ping (k : client_control) (timestamp : Z) : Message :=
  Ping {| ping_timestamp := timestamp;
          privilege_key := default EmptyString (ping_privilege_key (k_auth k) timestamp) |}.

(** The top of an iteration: [None] ends the loop. *)
Definition maybe_ping (t : run_clock) (last_ping : Z) (s : client_session) : option Z * client_session :=
  if decide (HEARTBEAT_INTERVAL < duration_since (rc_top t) last_ping) then
    match write_control (client_ping (cs_control s) (rc_stamp t)) s with
    | (Ok _, s) => (Some (rc_top t), s)
    | (Err _, s) => (None, s)
    end
  else (Some last_ping, s).

(** One event: whether the loop goes on. *)
Definition on_event (env : udp_env) (t : run_clock) (e : run_event) (s : client_session) : bool * client_session :=
  match e with
  | EvRead (Ok msg) =>
      let s := handle_client_message env (rc_event t) msg s in
      (negb (k_plugin_rejected_heartbeat (cs_control s)), s)
  | EvRead (Err _) => (false, s)
  | EvIdle => (negb (bool_decide (PONG_TIMEOUT < duration_since (rc_event t) (k_last_pong_time (cs_control s)))), s)
  | EvUdp msg | EvVisitor msg => (true, (write_control msg s).2)
  end.

(** [run]: whether the loop is still going when the events are used up. *)
Fixpoint run_client (env : udp_env) (last_ping : Z) (events : list (run_clock * run_event)) (s : client_session)
  : bool * Z * client_session :=
  match events with
  | [] => (true, last_ping, s)
  | (t, e) :: events =>
      match maybe_ping t last_ping s with
      | (None, s) => (false, last_ping, s)
      | (Some last_ping, s) =>
          let '(continue, s) := on_event env t e s in
          if continue then run_client env last_ping events s else (false, last_ping, s)
      end
  end.
End Loop.

(** ** A dead server is noticed *)
Definition is_pong (e : run_event) : bool :=
  match e with EvRead (Ok (Pong _)) => true | _ => false end.

Lemma last_pong_wire w k : k_last_pong_time (set_wire w k) = k_last_pong_time k.
Proof. done. Qed.

Lemma write_control_pong msg s r s' : write_control msg s = (r, s') ->
  k_last_pong_time (cs_control s') = k_last_pong_time (cs_control s).
Proof. unfold write_control. destruct (wire_write _ _). by intros [= _ <-]. Qed.

Lemma udp_packet_pong env m s :
  k_last_pong_time (cs_control (on_udp_packet env m s)) = k_last_pong_time (cs_control s).
Proof.
  unfold on_udp_packet. destruct (find_proxy _ _) as [cfg|]; [|done].
  destruct (k_udp_sockets _ !! _) as [sock|]; [by destruct (ue_send _ _ _ _)|].
  destruct (ue_bind env) as [sock|]; [|done]. cbn. by destruct (ue_send _ _ _ _).
Qed.

Lemma message_pong env now msg s : is_pong (EvRead (Ok msg)) = false ->
  k_last_pong_time (cs_control (handle_client_message env now msg s)) = k_last_pong_time (cs_control s).
Proof.
  destruct msg; try done; intros _; cbn [handle_client_message]; [apply udp_packet_pong|].
  by destruct (find_proxy _ _).
Qed.

Section Alive.
Context `{RingHash, Base64}.

Lemma maybe_ping_pong t lp s o s' : maybe_ping t lp s = (o, s') ->
  k_last_pong_time (cs_control s') = k_last_pong_time (cs_control s).
Proof.
  unfold maybe_ping. case_decide; [|by intros [= _ <-]].
  destruct (write_control _ s) as [[u|e] s1] eqn:E; intros [= _ <-]; by eapply write_control_pong.
Qed.

Lemma on_event_pong env t e s b s' : on_event env t e s = (b, s') -> is_pong e = false ->
  k_last_pong_time (cs_control s') = k_last_pong_time (cs_control s).
Proof.
  intros E Hp. destruct e as [[m|r]| |m|m]; cbn [on_event] in E.
  - injection E as _ <-. by apply message_pong.
  - by injection E as _ <-.
  - by injection E as _ <-.
  - destruct (write_control m s) as [r s1] eqn:Ew. injection E as _ <-. by eapply write_control_pong.
  - destruct (write_control m s) as [r s1] eqn:Ew. injection E as _ <-. by eapply write_control_pong.
Qed.

(** C13: a server that no longer answers is noticed: when no answer to a
    heartbeat arrives any more, the control loop has ended at the latest with the
    first quiet quarter of a minute that ends more than 90 seconds after the last
    answer, whatever else happens before. *)
Theorem dead_server_detected env events t lp s :
  Forall (fun e => is_pong e.2 = false) events ->
  (t, EvIdle) ∈ events -> k_last_pong_time (cs_control s) + PONG_TIMEOUT < rc_event t ->
  (run_client env lp events s).1.1 = false.
Proof.
  revert lp s. induction events as [|[t' e] events IH]; intros lp s Hf Hin Hlate; [by apply elem_of_nil in Hin|].
  apply Forall_cons in Hf as [Hp Hf]. cbn [run_client snd] in *.
  destruct (maybe_ping t' lp s) as [[lp'|] s1] eqn:Em; [|done]. apply maybe_ping_pong in Em.
  destruct (on_event env t' e s1) as [[] s2] eqn:Ee; [|done].
  apply elem_of_cons in Hin as [[= <- <-]|Hin].
  - cbn [on_event] in Ee. injection Ee as Ee _. rewrite Em in Ee.
    rewrite bool_decide_eq_true_2 in Ee; [done|]. unfold duration_since. lia.
  - apply IH; [done|done|]. apply on_event_pong in Ee; [|done]. by rewrite Ee, Em.
Qed.

(** The watch is only looked at after fifteen quiet seconds: a client that has
    something to send at least that often never looks, however long the server
    has been silent, as long as its writes are taken. *)
Lemma busy_client_never_looks env n m t lp s : wi_writes (k_wire (cs_control s)) = [] ->
  (run_client env lp (replicate n (t, EvUdp m)) s).1.1 = true.
Proof.
  revert lp s. induction n as [|n IH]; intros lp s Hw; [done|]. cbn [replicate run_client].
  unfold maybe_ping, write_control, wire_write. rewrite Hw.
  case_decide; cbn; unfold write_control, wire_write; cbn; rewrite ?Hw; by apply IH.
Qed.
End Alive.

(** ** A read that is dropped half way *)

(** The [select!] of the loop drops a pending read when another branch is ready.
    If the length was already read, it is lost: the next read takes the first
    bytes of the text for a length, and since the text of a message begins with a
    brace and a quote that length is above the limit: the session ends. *)
Lemma dropped_read_desyncs `{!Json Message} text rest t r b1 b2 :
  text = z2b 123 :: z2b 34 :: b1 :: b2 :: rest -> zlen text <= u32_max ->
  let c := Conn (message_bytes V1 text) t r in
  (read_n 4 c).1 = Ok (be_bytes 4 (zlen text)) /\
  exists e, read_message (read_n 4 c).2 = (Err e, Conn rest t r).
Proof.
  intros Ht Hl c. subst c. unfold message_bytes. rewrite read_n_app by apply length_be_bytes.
  split; [done|]. cbn [snd]. subst text. set (hdr := [z2b 123; z2b 34; b1; b2]).
  change (z2b 123 :: z2b 34 :: b1 :: b2 :: rest) with (hdr ++ rest).
  assert (Hbig : MAX_MESSAGE_SIZE < be_value hdr).
  { assert (Ev : be_value hdr = (b2z (z2b 123) * 256 + b2z (z2b 34)) * 65536 + be_value [b1; b2])
      by (unfold be_value, hdr; simpl; lia).
    rewrite Ev. pose proof (be_value_range [b1; b2]). change (b2z (z2b 123)) with 123. change (b2z (z2b 34)) with 34.
    unfold MAX_MESSAGE_SIZE. lia. }
  exists (too_large (be_value hdr) MAX_MESSAGE_SIZE).
  unfold read_message, read_message_with_limit.
  erewrite io_bind_eq by (apply io_map_err_Ok, read_n_app; done). cbv zeta. by rewrite decide_True.
Qed.

(** ** UDP answers *)

(** A datagram that arrives on a socket may be taken by any task that waits on
    it; it is sent to the user that task was started for. *)
Definition udp_may_answer (s : client_session) (socket : nat) (data : list byte) (m : Message) : Prop :=
  exists name addr, TaskUdpReply socket name addr ∈ cs_tasks s /\
    m = UdpPacket {| up_proxy_name := name; up_data := data; up_client_addr := addr |}.

(** All users of a proxy share its socket: after a packet of [a] and one of [b]
    the service's answer to either may be sent to either. *)
Lemma udp_answers_mix env now1 now2 a b name da db cfg sock s :
  find_proxy (k_config (cs_control s)) name = Some cfg -> k_udp_sockets (cs_control s) !! name = Some sock ->
  (forall addr d, ue_send env sock addr d = true) ->
  let packet d who := UdpPacket {| up_proxy_name := name; up_data := d; up_client_addr := who |} in
  let s' := handle_client_message env now2 (packet db b) (handle_client_message env now1 (packet da a) s) in
  forall answer, udp_may_answer s' sock answer (packet answer a) /\ udp_may_answer s' sock answer (packet answer b).
Proof.
  intros Hf Hs Hsend packet s' answer. subst s' packet. cbn [handle_client_message].
  unfold on_udp_packet. cbn [up_proxy_name up_data up_client_addr]. rewrite Hf, Hs, Hsend.
  cbn. rewrite Hf, Hs, Hsend. unfold udp_may_answer. cbn.
  split; eexists _, _; (split; [|done]); set_solver.
Qed.

(** ** Witness *)
Definition toy_client_control : client_control :=
  control_new {| wi_in := []; wi_writes := []; wi_sent := [] |} "run"
    {| auth_verifier := TokenVerifier "tok"; Auth.encryption_key := None; auth_token := Some "tok"%string;
       additional_scopes := [] |} secure_client (secs 1000) false 0 None.

Definition toy_client_session : client_session :=
  {| cs_control := toy_client_control; cs_resp := resp_registry_new; cs_tasks := []; cs_datagrams := [] |}.

Definition at_secs (n : Z) : run_clock := {| rc_top := secs (n - 15); rc_event := secs n; rc_stamp := n |}.

#[local] Existing Instance toy_base64.

Lemma dead_server_detected_witness :
  let env := {| ue_bind := Some 1%nat; ue_send := fun _ _ _ => true |} in
  let events := (fun n => (at_secs n, EvIdle)) <$> [1015; 1030; 1045; 1060; 1075; 1090; 1105] in
  (run_client env (secs 1000) (take 6 events) toy_client_session).1.1 = true /\
  (run_client env (secs 1000) events toy_client_session).1.1 = false.
Proof.
  intros env events. split; [vm_compute; reflexivity|].
  apply (dead_server_detected env events (at_secs 1105)).
  - repeat constructor.
  - subst events. cbn. set_solver.
  - vm_compute. reflexivity.
Defined.
