(* ===== verification/ClientLife.v ===== *)
(** * The life of a client (src/rust_frp_client/src/client_impl.rs)

    The choice of the transport and the login, the registration of the proxies,
    reloading the configuration, and the loop that reconnects.  A connection is
    the stack of the layers it was built from; whether the network lets a layer
    be added is an argument, and so is what the login exchange receives. *)
From S2P Require Import Prelude RustStd RustFmt Utf8 ConfigTypes Transport EncStream IoConn WireV2.
From S2P Require Import Secrets Throttle WorkPool CoreMsg HttpClient JsonValue Auth ProxyProto.
From S2P Require Import ClientRegistry ClientConn ClientVisitor ClientSession.

(** ** Connecting *)
Inductive layer :=
| LTcp (addr : peer_addr)
| LMagic                                                 (* the tcp_mux byte *)
| LTls (tls : client_tls) (domain : string)
| LWebSocket (url : string)
| LMux
| LKcp (addr : peer_addr)
| LQuic (addr : peer_addr) (domain : string) (ca : option string) (insecure : bool)
    (cert : option (string * string))
| LStream.                                               (* a stream of a session *)

(** TLS or QUIC, which contains TLS. *)
Definition encrypting (l : layer) : bool :=
  match l with LTls _ _ | LQuic _ _ _ _ _ => true | _ => false end.
Definition encrypted (stack : list layer) : bool := existsb encrypting stack.

(** [Connector]: the configuration and the TLS settings it was made with. *)
Record connector := { cn_config : ClientConfig; cn_tls : option client_tls }.

Definition server_socket (config : ClientConfig) : string :=
  (cc_server_addr config +:+ ":" +:+ dec (cc_server_port config))%string.

Definition parse_addr_err (s : string) : result string peer_addr :=
  ok_or "invalid socket address syntax"%string (parse_socket_addr s).

Section Login.
Context (load_tls : client_tls -> result string unit)
        (resolve : string -> Z -> result string (list peer_addr))
        (net : list layer -> layer -> result string unit)
        (quic_config : option string -> bool -> option (string * string) -> result string unit).

Definition connector_new (config : ClientConfig) : result string connector :=
  tls ← build_client_tls_config load_tls config; Ok {| cn_config := config; cn_tls := tls |}.

(** Adds a layer; the error is prefixed. *)
Definition add_layer (stack : list layer) (l : layer) (what : string) : result string (list layer) :=
  _ ← map_err (fun e => what +:+ e)%string (net stack l); Ok (stack ++ [l]).

Definition resolve_server_addr (host : string) (port : Z) : result string peer_addr :=
  match parse_socket_addr (host +:+ ":" +:+ dec port)%string with
  | Some addr => Ok addr
  | None =>
      addrs ← map_err (fun e => "failed to resolve " +:+ host +:+ ":" +:+ dec port +:+ ": " +:+ e)%string (resolve host port);
      ok_or ("no address resolved for " +:+ host +:+ ":" +:+ dec port)%string (head addrs)
  end.

Definition connect (c : connector) : result string (list layer) :=
  addr ← parse_addr_err (server_socket (cn_config c)); add_layer [] (LTcp addr) "".

Definition connect_tls (c : connector) (domain : string) : result string (list layer) :=
  stack ← connect c;
  match cn_tls c with
  | Some tls => add_layer stack (LTls tls domain) ""
  | None => Err "TLS config not set"%string
  end.

Definition connect_kcp (c : connector) : result string (list layer) :=
  addr ← parse_addr_err (server_socket (cn_config c)); add_layer [] (LKcp addr) "".

Definition connect_quic (c : connector) : result string (list layer) :=
  addr ← parse_addr_err (server_socket (cn_config c));
  let tls := tr_tls (cc_transport (cn_config c)) in
  let ca := tls ≫= tls_trusted_ca_file in
  let insecure := default false (tls_skip_verify <$> tls) in
  let client_cert := t ← tls; c ← tls_cert_file t; k ← tls_key_file t; Some (c, k) in
  _ ← map_err (fun e => "QUIC always uses TLS 1.3 and has no plaintext mode: " +:+ e
      +:+ ". Set transport.tls.trusted_ca_file to pin the server CA, or "
      +:+ "transport.tls.skip_verify = true to accept encryption without authentication")%string
    (quic_config ca insecure client_cert);
  add_layer [] (LQuic addr (cc_server_addr (cn_config c)) ca insecure client_cert) "".

Definition use_tls (config : ClientConfig) : bool := default true (tls_enable <$> tr_tls (cc_transport config)).

Definition wss_untrusted : string :=
  ("protocol = " +:+ dquote +:+ "wss" +:+ dquote +:+ " requires TLS: configure [transport.tls] with "
   +:+ "trusted_ca_file (pin server CA) or skip_verify = true")%string.

Definition connect_websocket (config : ClientConfig) (wss : bool) : result string (list layer) :=
  let host := cc_server_addr config in
  let hostport := (host +:+ ":" +:+ dec (cc_server_port config))%string in
  addr ← resolve_server_addr host (cc_server_port config);
  tcp ← add_layer [] (LTcp addr) ("WebSocket TCP connect to " +:+ hostport +:+ " failed: ");
  if wss then
    tls_config ← map_err (fun e => "failed to build client TLS config: " +:+ e)%string
      (build_client_tls_config load_tls config);
    tls_config ← ok_or wss_untrusted tls_config;
    tls_stream ← add_layer tcp (LTls tls_config host) "wss TLS handshake failed: ";
    add_layer tls_stream (LWebSocket ("wss://" +:+ hostport +:+ "/~!frp")) "wss WebSocket handshake failed: "
  else add_layer tcp (LWebSocket ("ws://" +:+ hostport +:+ "/~!frp")) "WebSocket handshake failed: ".

Definition connect_mux (config : ClientConfig) : result string (list layer) :=
  addr ← parse_addr_err (server_socket config);
  tcp ← add_layer [] (LTcp addr) "TCP connection failed: ";
  tcp ← add_layer tcp LMagic "";
  io ← (if use_tls config then
          tls_config ← map_err (fun e => "failed to build client TLS config: " +:+ e)%string
            (build_client_tls_config load_tls config);
          tls_config ← ok_or "tcp_mux requires TLS but client tls is disabled"%string tls_config;
          add_layer tcp (LTls tls_config (cc_server_addr config)) "TLS connection failed: "
        else Ok tcp);
  add_layer (io ++ [LMux]) LStream "mux open control stream failed: ".

(** The control connection, and whether a session for more streams exists. *)
Definition connect_control (config : ClientConfig) (c : connector) : result string (list layer * bool) :=
  let protocol := tr_protocol (cc_transport config) in
  if decide (protocol = "kcp"%string) then
    (fun s => (s, false)) <$> map_err (fun e => "KCP connection failed: " +:+ e)%string (connect_kcp c)
  else if decide (protocol = "quic"%string) then
    session ← map_err (fun e => "QUIC connection failed: " +:+ e)%string (connect_quic c);
    (fun s => (s, true)) <$> add_layer session LStream "QUIC open control stream failed: "
  else if decide (protocol = "websocket"%string \/ protocol = "wss"%string) then
    (fun s => (s, false)) <$> connect_websocket config (bool_decide (protocol = "wss"%string))
  else if tr_tcp_mux (cc_transport config) then (fun s => (s, true)) <$> connect_mux config
  else if use_tls config then
    (fun s => (s, false)) <$> map_err (fun e => "TLS connection failed: " +:+ e)%string
      (connect_tls c (cc_server_addr config))
  else (fun s => (s, false)) <$> map_err (fun e => "TCP connection failed: " +:+ e)%string (connect c).
End Login.

(** ** Login *)
Record host := { ho_arch : string; ho_os : string; ho_hostname : result string string; ho_version : string }.

Definition login_msg (h : host) (config : ClientConfig) (hostname run_id token : string) (timestamp : Z) : LoginMsg :=
  {| lm_arch := ho_arch h; lm_os := ho_os h; lm_hostname := hostname;
     lm_pool_count := tr_pool_count (cc_transport config); lm_user := default EmptyString (cc_user config);
     lm_client_id := default hostname (cc_client_id config); lm_version := ho_version h;
     lm_timestamp := timestamp; lm_run_id := run_id; lm_token := token; lm_metas := ∅; lm_client_spec := None |}.

Definition v2_without_token : string :=
  ("transport.wire_protocol = " +:+ dquote +:+ "v2" +:+ dquote
   +:+ " requires a token: the v2 control channel derives its AEAD keys from SHA-256(token)")%string.

(** What the hello of wire v2 says about the connection. *)
Definition login_bootstrap (config : ClientConfig) : BootstrapInfo :=
  let protocol := tr_protocol (cc_transport config) in
  {| transport := protocol; tls := bool_decide (protocol ∈ ["wss"; "quic"]%string) || use_tls config;
     tcp_mux := tr_tcp_mux (cc_transport config) |}.

Section Exchange.
Context (load_tls : client_tls -> result string unit)
        (resolve : string -> Z -> result string (list peer_addr))
        (net : list layer -> layer -> result string unit)
        (quic_config : option string -> bool -> option (string * string) -> result string unit)
        (fetch : OidcConfig -> result string string)
        (handshake : list layer -> list byte -> BootstrapInfo -> result string unit)
        (server : list layer -> wire)                 (* the messages of the other side *)
        (stream : list layer -> result string sock).  (* opening another stream *)

(** [login]: [handshake] is the outcome of [WireV2.client_handshake] on the
    connection; afterwards messages are exchanged through [wire]. *)
Definition login (h : host) (config : ClientConfig) (c : connector) (auth : AuthManager) (run_id : string)
    (now timestamp : Z) : result string client_control :=
  '(stack, session) ← connect_control load_tls resolve net quic_config config c;
  _ ← (if decide (tr_wire_protocol (cc_transport config) = "v2"%string) then
         base_key ← ok_or v2_without_token (Auth.encryption_key auth);
         map_err (fun e => "wire v2 handshake failed: " +:+ e)%string
           (handshake stack base_key (login_bootstrap config))
       else Ok tt);
  hostname ← ho_hostname h;
  token ← resolve_auth_token fetch config;
  let '(sent, w) := wire_write (Login (login_msg h config hostname run_id token timestamp)) (server stack) in
  _ ← sent;
  let '(msg, w) := wire_read w in
  m ← msg;
  match m with
  | LoginResp resp =>
      if is_empty (lr_error resp) then
        Ok (control_new w (lr_run_id resp) auth config now (lr_work_conn_tls resp) (lr_work_conn_port resp)
              (if session : bool then Some (stream stack) else None))
      else Err (lr_error resp)
  | _ => Err "unexpected message"%string
  end.
End Exchange.

(** ** Registration *)
Definition register_proxy (proxy : ProxyConfig) (k : client_control) : result string unit * client_control :=
  let '(sent, w) := wire_write (RegisterProxy {| rp_proxy := proxy |}) (k_wire k) in
  match sent with
  | Err e => (Err e, set_wire w k)
  | Ok _ =>
      let '(msg, w) := wire_read w in
      (m ← msg;
       match m with
       | RegisterProxyResp resp =>
           if is_empty (rr_error resp) then Ok tt
           else Err ("Failed to register proxy " +:+ px_name proxy +:+ ": " +:+ rr_error resp)%string
       | _ => Err "Unexpected message"%string
       end, set_wire w k)
  end.

Fixpoint register_all (proxies : list ProxyConfig) (k : client_control) : list (result string unit) * client_control :=
  match proxies with
  | [] => ([], k)
  | p :: proxies =>
      let '(r, k) := register_proxy p k in
      let '(rs, k) := register_all proxies k in (r :: rs, k)
  end.

(** ** The client *)
Record client := {
  cl_config : ClientConfig;
  cl_control : option client_control;
  cl_proxies : client_proxies;
  cl_visitors : client_visitors;
  cl_auth : AuthManager;
  cl_connector : connector;
  cl_config_path : option string;
  cl_health_checks : list string;          (* the proxies that are checked *)
}.

Definition set_tables (p : client_proxies) (v : client_visitors) (c : client) : client :=
  {| cl_config := cl_config c; cl_control := cl_control c; cl_proxies := p; cl_visitors := v;
     cl_auth := cl_auth c; cl_connector := cl_connector c; cl_config_path := cl_config_path c;
     cl_health_checks := cl_health_checks c |}.

Definition set_control_of (k : option client_control) (c : client) : client :=
  {| cl_config := cl_config c; cl_control := k; cl_proxies := cl_proxies c; cl_visitors := cl_visitors c;
     cl_auth := cl_auth c; cl_connector := cl_connector c; cl_config_path := cl_config_path c;
     cl_health_checks := cl_health_checks c |}.

Definition set_config (config : ClientConfig) (c : client) : client :=
  {| cl_config := config; cl_control := cl_control c; cl_proxies := cl_proxies c; cl_visitors := cl_visitors c;
     cl_auth := cl_auth c; cl_connector := cl_connector c; cl_config_path := cl_config_path c;
     cl_health_checks := cl_health_checks c |}.

Definition set_health (names : list string) (c : client) : client :=
  {| cl_config := cl_config c; cl_control := cl_control c; cl_proxies := cl_proxies c;
     cl_visitors := cl_visitors c; cl_auth := cl_auth c; cl_connector := cl_connector c;
     cl_config_path := cl_config_path c; cl_health_checks := names |}.

Definition with_client_id (config : ClientConfig) (id : string) : ClientConfig :=
  {| cc_server_addr := cc_server_addr config; cc_server_port := cc_server_port config;
     cc_work_conn_port := cc_work_conn_port config; cc_user := cc_user config; cc_client_id := Some id;
     cc_web_server := cc_web_server config; cc_auth := cc_auth config; cc_transport := cc_transport config;
     cc_proxies := cc_proxies config; cc_visitors := cc_visitors config; cc_log := cc_log config;
     cc_log_file := cc_log_file config; cc_log_level := cc_log_level config;
     cc_log_max_days := cc_log_max_days config; cc_includes := cc_includes config |}.

(** [random]: what [rand_id(16)] gives. *)
Definition ensure_client_id (random : string) (config : ClientConfig) (fallback : option string) : ClientConfig :=
  match cc_client_id config with
  | Some _ => config
  | None => with_client_id config
              (match fallback with
               | Some v => if is_empty v then random else v
               | None => random
               end)
  end.

(** [format!("{}:{}", local_ip, local_port).parse::<SocketAddr>()]. *)
Definition local_socket (p : ProxyConfig) : result string unit :=
  _ ← parse_addr_err (px_local_ip p +:+ ":" +:+ dec (px_local_port p))%string; Ok tt.

(** [stop_health_checks] and [start_health_checks]. *)
Definition restart_health_checks (proxies : list ProxyConfig) (c : client) : client :=
  set_health (px_name <$> filter (fun p => is_Some (px_health_check p)) proxies) c.

(** The proxies in turn, up to the first error. *)
Fixpoint add_all (proxies : list ProxyConfig) (s : client_proxies) : result string unit * client_proxies :=
  match proxies with
  | [] => (Ok tt, s)
  | p :: proxies =>
      match add_client_proxy s p (local_socket p) with
      | (Ok _, s) => add_all proxies s
      | (Err e, s) => (Err e, s)
      end
  end.

Section Life.
Context `{RingHash, Base64, Jwt}.
Context (load_tls : client_tls -> result string unit)
        (read_to_string : string -> result string string)
        (run : string -> list string -> result string command_output).

Definition client_new (random : string) (config : ClientConfig) (path : option string) : result string client :=
  let config := ensure_client_id random config None in
  config ← apply_token_source read_to_string run config;
  auth ← auth_new (cc_auth config);
  c ← connector_new load_tls config;
  Ok {| cl_config := config; cl_control := None;
        cl_proxies := client_proxies_new (tr_bandwidth_limit (cc_transport config));
        cl_visitors := {| cv_visitors := ∅; cv_tasks := ∅; cv_aborted := [] |};
        cl_auth := auth; cl_connector := c; cl_config_path := path; cl_health_checks := [] |}.

(** [loaded]: what reading the configuration file gives. *)
Definition reload_client_config (random : string) (loaded : result string ClientConfig) (c : client)
  : result string unit * client :=
  match cl_config_path c with
  | None => (Ok tt, c)
  | Some _ =>
      match (new_config ← loaded; apply_token_source read_to_string run new_config) with
      | Err e => (Err e, c)
      | Ok new_config =>
          let c := set_config (ensure_client_id random new_config (cc_client_id (cl_config c))) c in
          let '(added, proxies) := add_all (cc_proxies (cl_config c)) (cl_proxies c) in
          match added with
          | Err e => (Err e, set_tables proxies (cl_visitors c) c)
          | Ok _ =>
              let visitors := foldl add_visitor (clear_visitors (cl_visitors c)) (cc_visitors (cl_config c)) in
              (Ok tt, restart_health_checks (cc_proxies (cl_config c)) (set_tables proxies visitors c))
          end
      end
  end.

(** After a login: registration, the tables, the listeners of the visitors
    ([task] numbers them), the health checks. *)
Definition start_session (task : nat) (k : client_control) (c : client) : client :=
  let k := (register_all (cc_proxies (cl_config c)) k).2 in
  let proxies := foldl (fun s p => (add_client_proxy s p (local_socket p)).2) (cl_proxies c) (cc_proxies (cl_config c)) in
  let visitors := foldl add_visitor (cl_visitors c) (cc_visitors (cl_config c)) in
  let visitors := foldl (fun s iv => if decide (vi_type iv.2 ∈ ["stcp"; "xtcp"; "sudp"]%string)
                                     then register_visitor_task s (vi_name iv.2) (task + iv.1)%nat else s)
                    visitors (imap pair (cc_visitors (cl_config c))) in
  restart_health_checks (cc_proxies (cl_config c)) (set_control_of (Some k) (set_tables proxies visitors c)).

(** ** The loop around it *)
Definition MAX_RECONNECT_DELAY_MS : Z := 15000.

Definition next_reconnect_delay (delay : Z) : Z :=
  if decide (delay = 0) then 1000 else Z.min (wrap_u64 (delay * 2)) MAX_RECONNECT_DELAY_MS.

(** [jitter]: the random share of the delay, [(delay * random * 0.1) as u64]. *)
Definition reconnect_sleep (delay jitter : Z) : Z := if decide (delay = 0) then 0 else wrap_u64 (delay + jitter).

(** How one pass of the loop ends: the session is over (or the login failed), a
    reload was asked for (with what the file then holds), or a stop. *)
Inductive pass_end := PEnded | PReload (random : string) (loaded : result string ClientConfig) | PStop.

(** A pass: whether the login succeeded, where the client was when it ended,
    how it ended, and the random share. *)
Record pass := { pa_logged_in : bool; pa_client : client; pa_end : pass_end; pa_jitter : Z }.

Definition reset_managers (c : client) : client :=
  set_tables (clear_client_proxies (cl_proxies c)) (clear_visitors (cl_visitors c)) c.

Definition graceful_shutdown (c : client) : client :=
  match cl_control c with
  | None => c
  | Some k => set_control_of (Some (set_wire (wire_write (Disconnect {| reason := "client_shutdown" |}) (k_wire k)).2 k)) c
  end.

(** The rest of the iteration: how long it slept, the next delay, the client,
    and whether the loop goes on. *)
Definition finish_pass (delay : Z) (p : pass) : option Z * Z * client * bool :=
  let delay := if pa_logged_in p then 0 else delay in
  match pa_end p with
  | PStop => (None, delay, graceful_shutdown (pa_client p), false)
  | PReload random loaded => (None, delay, reset_managers (reload_client_config random loaded (pa_client p)).2, true)
  | PEnded => (Some (reconnect_sleep delay (pa_jitter p)), next_reconnect_delay delay, reset_managers (pa_client p), true)
  end.

(** The sleeps of the passes, from a delay. *)
Fixpoint client_sleeps (delay : Z) (passes : list pass) : list (option Z) :=
  match passes with
  | [] => []
  | p :: passes =>
      let '(slept, delay, _, continue) := finish_pass delay p in
      slept :: if continue : bool then client_sleeps delay passes else []
  end.
End Life.

(** ** Which control connections are encrypted *)
Lemma fmap_Ok {E A B} (f : A -> B) (r : result E A) b : f <$> r = Ok b <-> exists a, r = Ok a /\ b = f a.
Proof.
  destruct r as [a|e]; cbn; split.
  - intros [= <-]. by exists a.
  - by intros (a' & [= ->] & ->).
  - done.
  - by intros (a' & ? & _).
Qed.

Lemma add_layer_Ok net stack l what s : add_layer net stack l what = Ok s -> s = stack ++ [l].
Proof. unfold add_layer. intros E. by apply result_bind_Ok in E as (? & _ & [= <-]). Qed.

Lemma encrypted_app a b : encrypted (a ++ b) = encrypted a || encrypted b.
Proof. apply existsb_app. Qed.

Ltac layer_steps :=
  repeat match goal with
    | H : (_ ≫= _) = Ok _ |- _ => apply result_bind_Ok in H as (? & ? & H)
    | H : map_err _ _ = Ok _ |- _ => apply map_err_Ok in H
    | H : _ <$> _ = Ok _ |- _ => apply fmap_Ok in H as (? & H & ?)
    | H : add_layer _ _ _ _ = Ok _ |- _ => apply add_layer_Ok in H
    end; subst.

Section Encryption.
Context (load_tls : client_tls -> result string unit)
        (resolve : string -> Z -> result string (list peer_addr))
        (net : list layer -> layer -> result string unit)
        (quic_config : option string -> bool -> option (string * string) -> result string unit).

Lemma connect_Ok c s : connect net c = Ok s -> encrypted s = false.
Proof. unfold connect. intros E. layer_steps. done. Qed.

Lemma connect_tls_Ok c d s : connect_tls net c d = Ok s -> encrypted s = true /\ cn_tls c <> None.
Proof.
  unfold connect_tls. intros E. apply result_bind_Ok in E as (s0 & E0 & E). destruct (cn_tls c); [|done].
  layer_steps. rewrite encrypted_app. split; [apply orb_true_r|done].
Qed.

Lemma connect_kcp_Ok c s : connect_kcp net c = Ok s -> encrypted s = false.
Proof. unfold connect_kcp. intros E. layer_steps. done. Qed.

Lemma connect_quic_Ok c s : connect_quic net quic_config c = Ok s -> encrypted s = true.
Proof. unfold connect_quic. intros E. layer_steps. done. Qed.

Lemma connect_websocket_Ok config wss s : connect_websocket load_tls resolve net config wss = Ok s ->
  encrypted s = wss.
Proof. unfold connect_websocket. intros E. destruct wss; layer_steps; done. Qed.

Lemma connect_mux_Ok config s : connect_mux load_tls net config = Ok s -> encrypted s = use_tls config.
Proof.
  unfold connect_mux. intros E. destruct (use_tls config); layer_steps;
    [|match goal with H : Ok _ = Ok _ |- _ => injection H as <- end]; done.
Qed.

Lemma control_encryption config c stack session :
  connect_control load_tls resolve net quic_config config c = Ok (stack, session) ->
  let protocol := tr_protocol (cc_transport config) in
  encrypted stack = true <->
    protocol = "quic"%string \/ protocol = "wss"%string \/
    (protocol <> "kcp"%string /\ protocol <> "websocket"%string /\ use_tls config = true).
Proof.
  intros E. cbv zeta. unfold connect_control in E. revert E. generalize (tr_protocol (cc_transport config)) as p.
  intros p. case_decide as Hk; [|case_decide as Hq; [|case_decide as Hw; [|destruct (tr_tcp_mux _); [|destruct (use_tls config) eqn:Hu]]]];
    intros E.
  - apply fmap_Ok in E as (s & E%map_err_Ok%connect_kcp_Ok & [= -> ->]). rewrite E, Hk.
    split; [done|]. by intros [?|[?|[? _]]].
  - apply result_bind_Ok in E as (s & E1%map_err_Ok%connect_quic_Ok & E).
    apply fmap_Ok in E as (s' & E%add_layer_Ok & [= -> ->]). subst. rewrite encrypted_app, E1. tauto.
  - apply fmap_Ok in E as (s & E%connect_websocket_Ok & [= -> ->]). rewrite E, bool_decide_eq_true.
    split; [tauto|]. destruct Hw as [-> | ->]; [|done]. by intros [?|[?|(_ & ? & _)]].
  - apply fmap_Ok in E as (s & E%connect_mux_Ok & [= -> ->]). rewrite E.
    split; [intros Hu; right; right; by split_and!; tauto|]. intros [?|[?|(_ & _ & ?)]]; tauto.
  - apply fmap_Ok in E as (s & E%map_err_Ok%connect_tls_Ok & [= -> ->]). destruct E as [E _]. rewrite E.
    split; [intros _; right; right; by split_and!; tauto|done].
  - apply fmap_Ok in E as (s & E%map_err_Ok%connect_Ok & [= -> ->]). rewrite E.
    split; [done|]. intros [?|[?|(_ & _ & ?)]]; [tauto..|done].
Qed.

(** C4: when the control connection is encrypted.  Whatever the network does, a
    control connection that comes about under any protocol but "websocket" is
    encrypted (by TLS or QUIC) exactly when the protocol is "quic" or "wss", or
    is neither of these nor "kcp" (so TCP, multiplexed or not) and TLS is enabled
    (which it is unless the configuration disables it).  KCP is never
    encrypted, as the documentation says. *)
Theorem control_encrypted_iff config c stack session :
  connect_control load_tls resolve net quic_config config c = Ok (stack, session) ->
  let protocol := tr_protocol (cc_transport config) in
  protocol <> "websocket"%string ->
  encrypted stack = true <->
    protocol = "quic"%string \/ protocol = "wss"%string \/ (protocol <> "kcp"%string /\ use_tls config = true).
Proof.
  intros E protocol Hw. subst protocol. rewrite (control_encryption _ _ _ _ E). tauto.
Qed.

(** Under "websocket" no control connection is encrypted, TLS enabled or not:
    the documentation promises TLS when [transport.tls] enables it. *)
Lemma websocket_never_encrypted config c stack session :
  connect_control load_tls resolve net quic_config config c = Ok (stack, session) ->
  tr_protocol (cc_transport config) = "websocket"%string -> encrypted stack = false.
Proof.
  intros E Hp. destruct (encrypted stack) eqn:He; [|done].
  apply (control_encryption _ _ _ _ E) in He. rewrite Hp in He. by destruct He as [?|[?|(_ & ? & _)]].
Qed.

(** Without a [transport.tls] section TLS counts as enabled, but no TLS settings
    are built: a client with the default transport never connects. *)
Lemma no_tls_section_never_connects config c :
  tr_tls (cc_transport config) = None -> tr_protocol (cc_transport config) = "tcp"%string ->
  connector_new load_tls config = Ok c ->
  exists e, connect_control load_tls resolve net quic_config config c = Err e.
Proof.
  intros Ht Hp Hc. unfold connect_control. rewrite Hp. cbv zeta. rewrite !decide_False by (done || by intros [|]).
  assert (Hu : use_tls config = true) by (unfold use_tls; by rewrite Ht). rewrite Hu.
  assert (Hn : cn_tls c = None).
  { unfold connector_new, build_client_tls_config in Hc. rewrite Ht in Hc. by injection Hc as <-. }
  destruct (tr_tcp_mux _).
  - destruct (connect_mux load_tls net config) as [s|e] eqn:E; [|by eexists].
    exfalso. unfold connect_mux in E. rewrite Hu in E. layer_steps.
    unfold build_client_tls_config in *. rewrite Ht in *. simplify_eq/=.
  - destruct (connect_tls net c (cc_server_addr config)) as [s|e] eqn:E; [|by eexists].
    by apply connect_tls_Ok in E as [_ ?].
Qed.
End Encryption.

(** ** Registration, when the server only answers *)
Definition answered (resps : list RegisterProxyRespMsg) : list (result string Message) :=
  (fun r => Ok (RegisterProxyResp r)) <$> resps.

Definition registration_result (p : ProxyConfig) (r : RegisterProxyRespMsg) : result string unit :=
  if is_empty (rr_error r) then Ok tt
  else Err ("Failed to register proxy " +:+ px_name p +:+ ": " +:+ rr_error r)%string.

(** registration pairs requests and answers.  When the server answers each
    request with its response and sends nothing in between, every proxy is
    reported registered exactly when its own answer carries no error, the
    requests were sent in the order of the configuration, and whatever the server
    sent after the last answer is still there for the control loop. *)
Theorem registration_paired proxies : forall resps rest sent k, length resps = length proxies ->
  k_wire k = {| wi_in := answered resps ++ rest; wi_writes := []; wi_sent := sent |} ->
  let '(rs, k') := register_all proxies k in
  rs = zip_with registration_result proxies resps /\
  k_wire k' = {| wi_in := rest; wi_writes := [];
    wi_sent := sent ++ ((fun p => RegisterProxy {| rp_proxy := p |}) <$> proxies) |}.
Proof.
  induction proxies as [|p proxies IH]; intros [|r resps] rest sent k Hl Hw; try done.
  { simpl. rewrite app_nil_r. by split. }
  cbn [register_all]. unfold register_proxy. rewrite Hw. cbn.
  injection Hl as Hl.
  set (k1 := set_wire _ k).
  specialize (IH resps rest (sent ++ [RegisterProxy {| rp_proxy := p |}]) k1 Hl eq_refl).
  destruct (register_all proxies k1) as [rs k'] eqn:E. destruct IH as [-> IH].
  split; [done|]. rewrite IH, <- app_assoc. done.
Qed.

(** A request for a work connection that arrives before the answer is taken for
    the answer: the proxy is reported failed, the request is lost, and the answer
    is left for the next proxy. *)
Lemma registration_shifted p resp rest m sent k :
  k_wire k = {| wi_in := Ok (ReqWorkConn m) :: Ok (RegisterProxyResp resp) :: rest; wi_writes := []; wi_sent := sent |} ->
  (register_proxy p k).1 = Err "Unexpected message"%string /\
  wi_in (k_wire (register_proxy p k).2) = Ok (RegisterProxyResp resp) :: rest.
Proof. intros Hw. unfold register_proxy. rewrite Hw. done. Qed.

(** ** Reconnecting *)

(** The delay after [n] attempts in a row. *)
Definition backoff (n : nat) : Z := match n with O => 0 | S n => Z.min (1000 * 2 ^ Z.of_nat n) MAX_RECONNECT_DELAY_MS end.

(** How many attempts failed in a row before each pass. *)
Fixpoint failures (n : nat) (passes : list pass) : list nat :=
  match passes with
  | [] => []
  | p :: passes => let n := if pa_logged_in p then O else n in n :: failures (S n) passes
  end.

Definition fair_jitter (delay jitter : Z) : Prop := 0 <= jitter /\ 10 * jitter <= delay.

Lemma backoff_range n : 0 <= backoff n <= 15000 /\ (n <> O -> 1000 <= backoff n).
Proof.
  unfold backoff, MAX_RECONNECT_DELAY_MS. destruct n as [|n]; [lia|].
  assert (1 <= 2 ^ Z.of_nat n) by (change 1 with (2 ^ 0); apply Z.pow_le_mono_r; lia). lia.
Qed.

Lemma next_backoff n : next_reconnect_delay (backoff n) = backoff (S n).
Proof.
  unfold next_reconnect_delay. pose proof (backoff_range n) as [Hr Hn]. destruct n as [|n]; [done|].
  rewrite decide_False by lia. rewrite wrap_u64_small by lia. unfold backoff, MAX_RECONNECT_DELAY_MS.
  rewrite Nat2Z.inj_succ, Z.pow_succ_r by lia. lia.
Qed.

(** Without reloads, the pause after a pass is [backoff n] plus at most a tenth,
    where [n] counts the attempts that failed in a row since the last successful
    login: 0, 1, 2, 4, 8 seconds and then 15 for ever. *)
Lemma sleeps_back_off read_to_string run passes : forall n,
  Forall2 (fun m p => pa_end p = PEnded /\ fair_jitter (backoff m) (pa_jitter p)) (failures n passes) passes ->
  Forall2 (fun m slept => exists z, slept = Some z /\ backoff m <= z /\ 10 * z <= 11 * backoff m)
    (failures n passes) (client_sleeps read_to_string run (backoff n) passes).
Proof.
  induction passes as [|p passes IH]; intros n Hf; [constructor|]. cbn [failures] in *.
  apply Forall2_cons in Hf as [[He [Hj0 Hj]] Hf]. set (m := if pa_logged_in p then 0%nat else n) in *.
  assert (Hd : (if pa_logged_in p then 0 else backoff n) = backoff m) by (subst m; by destruct (pa_logged_in p)).
  cbn [client_sleeps]. unfold finish_pass. rewrite He, Hd, next_backoff.
  constructor; [|by apply IH]. pose proof (backoff_range m) as [Hr _].
  eexists. split; [done|]. unfold reconnect_sleep. case_decide; [lia|]. rewrite wrap_u64_small by lia. lia.
Qed.

(** The pause, in milliseconds, after [m] attempts that failed in a row: none
    after a session, then a second that doubles with every failure, with at most
    a tenth of jitter; from the fifth failure on at least eight seconds and never
    more than the thirty of the comment in the code. *)
Definition pause_ok (m : nat) (pause : Z) : Prop :=
  match m with
  | 0%nat => pause = 0
  | 1%nat => 1000 <= pause <= 1100
  | 2%nat => 2000 <= pause <= 2200
  | 3%nat => 4000 <= pause <= 4400
  | 4%nat => 8000 <= pause <= 8800
  | _ => 8000 <= pause <= 30000
  end.


(** Passes that log in and end at once are repeated without any pause: the
    back-off is reset by the login, not by a session that lasted. *)
Lemma quick_sessions_never_pause read_to_string run c n d :
  client_sleeps read_to_string run d
    (replicate n {| pa_logged_in := true; pa_client := c; pa_end := PEnded; pa_jitter := 0 |})
  = replicate n (Some 0).
Proof. revert d. induction n as [|n IH]; intros d; [done|]. cbn. by rewrite IH. Qed.

(** ** What survives a pass *)

(** nothing is left running by a pass: however it ends short of a stop, the
    tables of proxies and visitors are empty, no handler and no visitor task is
    registered, and every task that was is in the list of the aborted ones. *)
Theorem pass_leaves_nothing read_to_string run delay p slept delay' c :
  finish_pass read_to_string run delay p = (slept, delay', c, true) -> pa_end p <> PStop ->
  cp_proxies (cl_proxies c) = ∅ /\ cp_handlers (cl_proxies c) = ∅ /\
  cv_visitors (cl_visitors c) = ∅ /\ cv_tasks (cl_visitors c) = ∅ /\
  (pa_end p = PEnded ->
     (forall name t, cp_handlers (cl_proxies (pa_client p)) !! name = Some t -> t ∈ cp_aborted (cl_proxies c)) /\
     (forall name t, cv_tasks (cl_visitors (pa_client p)) !! name = Some t -> t ∈ cv_aborted (cl_visitors c))).
Proof.
  intros E Hs. unfold finish_pass in E. destruct (pa_end p); [..|done]; injection E as _ _ <-;
    (split_and!; [done..|]); [|done].
  intros _. cbn. split; intros name t Ht; apply elem_of_app; right; apply list_elem_of_fmap;
    exists (name, t); (split; [done|]); by apply elem_of_map_to_list.
Qed.

(** ** The identity of a client *)
Section Identity.
Context `{RingHash, Base64, Jwt}.
Context (load_tls : client_tls -> result string unit)
        (read_to_string : string -> result string string)
        (run : string -> list string -> result string command_output).

Lemma token_source_id config config' : apply_token_source read_to_string run config = Ok config' ->
  cc_client_id config' = cc_client_id config.
Proof.
  unfold apply_token_source. destruct (au_token_source _); [|by intros [= <-]].
  intros E. apply result_bind_Ok in E as (token & _ & E). destruct (is_empty token); [done|]. by injection E as <-.
Qed.

Lemma reload_keeps_id random loaded c id : cc_client_id (cl_config c) = Some id -> id <> EmptyString ->
  (forall config, loaded = Ok config -> cc_client_id config = None) ->
  cc_client_id (cl_config (reload_client_config read_to_string run random loaded c).2) = Some id.
Proof.
  intros Hc Hid Hl. unfold reload_client_config. destruct (cl_config_path c); [|done].
  destruct (loaded ≫= _) as [new_config|e] eqn:E; [|done].
  apply result_bind_Ok in E as (config & Hload & E). specialize (Hl config Hload).
  apply token_source_id in E. rewrite Hl in E.
  assert (Hen : cc_client_id (ensure_client_id random new_config (cc_client_id (cl_config c))) = Some id).
  { unfold ensure_client_id. rewrite E, Hc. apply is_empty_false in Hid. rewrite Hid. done. }
  cbn [cl_config set_config]. destruct (add_all _ _) as [[u|e] proxies]; done.
Qed.

(** a client keeps its identity.  A client whose configuration names no
    [client_id] logs in with the random one it drew when it was made, after
    however many reloads of files that name none either, successful or not: it
    never falls back to the host name and never draws a new one. *)
Theorem client_id_stable random config path c reloads h hostname run_id token ts :
  cc_client_id config = None -> random <> EmptyString ->
  client_new load_tls read_to_string run random config path = Ok c ->
  Forall (fun r => forall config, r.2 = Ok config -> cc_client_id config = None) reloads ->
  let c' := foldl (fun c r => (reload_client_config read_to_string run r.1 r.2 c).2) c reloads in
  lm_client_id (login_msg h (cl_config c') hostname run_id token ts) = random.
Proof.
  intros Hn Hr Hnew Hf c'.
  assert (Hc : cc_client_id (cl_config c) = Some random).
  { unfold client_new in Hnew. apply result_bind_Ok in Hnew as (config' & E%token_source_id & Hnew).
    apply result_bind_Ok in Hnew as (auth & _ & Hnew). apply result_bind_Ok in Hnew as (cn & _ & [= <-]).
    cbn [cl_config]. rewrite E. unfold ensure_client_id. by rewrite Hn. }
  assert (Hc' : cc_client_id (cl_config c') = Some random).
  { subst c'. clear Hnew. revert c Hc. induction reloads as [|r reloads IH]; intros c Hc; [done|].
    apply Forall_cons in Hf as [Hf1 Hf]. cbn [foldl]. apply IH; [done|]. by apply reload_keeps_id. }
  cbn [login_msg lm_client_id]. by rewrite Hc'.
Qed.

(** A reload changes the configuration but not what was derived from the old one:
    the credentials of heartbeats and of wire v2, and the server that plain TCP,
    KCP and QUIC connect to. *)
Lemma reload_keeps_credentials random loaded c :
  let c' := (reload_client_config read_to_string run random loaded c).2 in
  cl_auth c' = cl_auth c /\ cl_connector c' = cl_connector c.
Proof.
  cbv zeta. unfold reload_client_config. destruct (cl_config_path c); [|done]. destruct (loaded ≫= _); [|done].
  cbn [cl_auth cl_connector set_config]. by destruct (add_all _ _) as [[u|e] proxies].
Qed.
End Identity.

(** ** Witnesses *)
#[local] Existing Instance toy_base64.
#[local] Existing Instance toy_jwt.

Definition with_transport (c : ClientConfig) (addr protocol : string) (tls : option TlsConfig) : ClientConfig :=
  {| cc_server_addr := addr; cc_server_port := cc_server_port c; cc_work_conn_port := cc_work_conn_port c;
     cc_user := cc_user c; cc_client_id := cc_client_id c; cc_web_server := cc_web_server c;
     cc_auth := cc_auth c;
     cc_transport := {| tr_protocol := protocol; tr_tls := tls; tr_tcp_mux := true; tr_tls_only := false;
       tr_pool_count := 0; tr_max_pool_count := None; tr_tcp_keepalive_secs := 60; tr_bandwidth_limit := None;
       tr_use_encryption := false; tr_use_compression := false; tr_quic := None; tr_wire_protocol := "v1";
       tr_work_conn_via := "auto" |};
     cc_proxies := cc_proxies c; cc_visitors := cc_visitors c; cc_log := cc_log c;
     cc_log_file := cc_log_file c; cc_log_level := cc_log_level c; cc_log_max_days := cc_log_max_days c;
     cc_includes := cc_includes c |}.

Definition open_net (stack : list layer) (l : layer) : result string unit := Ok tt.
Definition no_dns (h : string) (p : Z) : result string (list peer_addr) := Err "no such host"%string.

Definition toy_connector : connector := {| cn_config := secure_client; cn_tls := Some ClientInsecure |}.

(** TLS is enabled, the protocol is "websocket": the token is sent in the clear. *)
Lemma control_encrypted_iff_witness :
  let config := with_transport secure_client "10.0.0.1" "wss" (tr_tls (cc_transport secure_client)) in
  exists stack, connect_control (fun _ => Ok tt) no_dns open_net (fun _ _ _ => Ok tt) config toy_connector
    = Ok (stack, false) /\ encrypted stack = true.
Proof.
  intros config. set (out := connect_control _ _ _ _ config toy_connector).
  assert (exists stack, out = Ok (stack, false)) as [stack E] by (eexists; vm_compute; reflexivity).
  exists stack. split; [exact E|].
  apply (control_encrypted_iff (fun _ => Ok tt) no_dns open_net (fun _ _ _ => Ok tt) config toy_connector _ _ E);
    [discriminate|by right; left].
Defined.

(** A client set to "websocket" with TLS enabled logs in over a clear connection. *)
Example websocket_in_the_clear :
  let config := with_transport secure_client "10.0.0.1" "websocket" (tr_tls (cc_transport secure_client)) in
  use_tls config = true /\
  connect_control (fun _ => Ok tt) no_dns open_net (fun _ _ _ => Ok tt) config toy_connector
    = Ok ([LTcp (PeerAddr (V4 167772161) 0 7000); LWebSocket "ws://10.0.0.1:7000/~!frp"], false).
Proof. split; vm_compute; reflexivity. Qed.

Definition named_proxy (name : string) : ProxyConfig :=
  {| px_name := name; px_type := "tcp"; px_local_ip := "127.0.0.1";
     px_local_port := 22; px_remote_port := Some 6000; px_custom_domains := None;
     px_subdomain := None; px_locations := None; px_host_header_rewrite := None;
     px_http_user := None; px_http_password := None; px_health_check := None;
     px_bandwidth_limit := None; px_secret_key := None; px_transport := None;
     px_plugin := None; px_proxy_protocol := None; px_proxy_protocol_version := None;
     px_group := None; px_group_key := None; px_use_encryption := false;
     px_use_compression := false; px_multiplexer := None; px_route_by_http_user := None;
     px_allow_users := None |}.

Lemma registration_paired_witness :
  let k := set_wire {| wi_in := [Ok (RegisterProxyResp {| rr_name := "a"; rr_error := EmptyString |});
      Ok (RegisterProxyResp {| rr_name := "b"; rr_error := "port in use" |}); Err "later"%string];
      wi_writes := []; wi_sent := [] |} toy_client_control in
  let '(rs, k') := register_all [named_proxy "a"; named_proxy "b"] k in
  rs = [Ok tt; Err "Failed to register proxy b: port in use"%string] /\ wi_in (k_wire k') = [Err "later"%string].
Proof.
  intros k.
  pose proof (registration_paired [named_proxy "a"; named_proxy "b"]
    [{| rr_name := "a"; rr_error := EmptyString |}; {| rr_name := "b"; rr_error := "port in use" |}]
    [Err "later"%string] [] k eq_refl eq_refl) as Hp.
  destruct (register_all _ k) as [rs k']. destruct Hp as [-> ->]. split; reflexivity.
Defined.

Definition toy_client (id : option string) : ClientConfig :=
  let c := with_transport secure_client "10.0.0.1" "tcp" (tr_tls (cc_transport secure_client)) in
  match id with Some id => with_client_id c id | None => c end.

Definition toy_life : result string client :=
  client_new (fun _ => Ok tt) (fun _ => Err "no file"%string) (fun _ _ => Err "no program"%string) "r4nd0m"
    (toy_client None) (Some "frpc.toml"%string).

Definition made_client : client :=
  {| cl_config := toy_client (Some "r4nd0m"%string); cl_control := None; cl_proxies := client_proxies_new None;
     cl_visitors := {| cv_visitors := ∅; cv_tasks := ∅; cv_aborted := [] |};
     cl_auth := {| auth_verifier := TokenVerifier "tok"; Auth.encryption_key := Some (generate_encryption_key "tok");
       auth_token := Some "tok"%string; additional_scopes := [] |};
     cl_connector := {| cn_config := toy_client (Some "r4nd0m"%string); cn_tls := Some ClientInsecure |};
     cl_config_path := Some "frpc.toml"%string; cl_health_checks := [] |}.

Lemma client_id_stable_witness : let h := {| ho_arch := "x86_64"; ho_os := "linux"; ho_hostname := Ok "pc"%string;
    ho_version := "0.2.2" |} in
  let c := (reload_client_config (fun _ => Err "no file"%string) (fun _ _ => Err "no program"%string) "other"
    (Ok (toy_client None)) made_client).2 in
  lm_client_id (login_msg h (cl_config c) "pc" "run" "tok" 7) = "r4nd0m"%string.
Proof.
  intros h c.
  apply (client_id_stable (fun _ => Ok tt) (fun _ => Err "no file"%string) (fun _ _ => Err "no program"%string)
    "r4nd0m" (toy_client None) (Some "frpc.toml"%string) made_client [("other"%string, Ok (toy_client None))]).
  - reflexivity.
  - discriminate.
  - reflexivity.
  - repeat constructor. by intros config [= <-].
Defined.

Definition failed_pass (logged_in : bool) (jitter : Z) : pass :=
  {| pa_logged_in := logged_in; pa_client := made_client; pa_end := PEnded; pa_jitter := jitter |}.


Lemma pass_leaves_nothing_witness :
  let p := {| pa_logged_in := true; pa_client := start_session 7 toy_client_control made_client; pa_end := PEnded;
              pa_jitter := 0 |} in
  cp_handlers (cl_proxies (reset_managers (pa_client p))) = ∅.
Proof.
  intros p. refine (proj1 (proj2 (pass_leaves_nothing (fun _ => Err "no file"%string)
    (fun _ _ => Err "no program"%string) 0 p (Some 0) 1000 (reset_managers (pa_client p)) _ _))).
  - reflexivity.
  - discriminate.
Defined.
