(* ===== verification/EndToEnd.v ===== *)
(** * Client and server together

    What the client opens, the server accepts: a work connection from the path
    the client picks to the record streams on both ends, and an STCP tunnel from
    the visitor's local connection to the bridged pair.  The client is that of
    ClientConn.v, ClientVisitor.v, ClientSession.v and ClientLife.v, the server that of
    Control.v and WorkConnHandler.v. *)
From S2P Require Import Prelude RustStd RustFmt ConfigTypes Transport EncStream IoConn WireV2 Secrets.
From S2P Require Import Routers Groups ProxyManager Throttle StcpBridge WorkPool CoreMsg HttpClient.
From S2P Require Import JsonValue Auth ServerPlugin Metrics ControlManager StateErr Control WorkConnHandler.
From S2P Require Import ProxyProto ClientRegistry ClientConn ClientVisitor ClientSession ClientLife.

(** ** Credentials *)
Section Credentials.
Context `{RingHash, Base64, ServerEnv}.

(** The server keeps the token the client was configured with. *)
Record same_token (config : ClientConfig) (auth : AuthManager) (token : string) : Prop := {
  st_client : au_token (cc_auth config) = Some token;
  st_server : Auth.encryption_key auth = Some (generate_encryption_key token);
}.

Lemma auth_new_same_token `{Jwt} config sc auth token : auth_new sc = Ok auth ->
  au_token sc = Some token -> au_token (cc_auth config) = Some token -> same_token config auth token.
Proof.
  intros Ha Hs Hc. split; [done|]. unfold auth_new in Ha. apply result_bind_Ok in Ha as (v & _ & [= <-]).
  by rewrite Hs.
Qed.

Lemma client_signature_accepted config auth token t req s : same_token config auth token ->
  check_sign_key auth (new_work_conn_msg config t req) s = (Ok tt, s).
Proof.
  intros [Hc Hs]. apply check_sign_key_Ok. split; [done|]. intros key Hk. rewrite Hs in Hk. injection Hk as <-.
  unfold new_work_conn_msg. cbn [nw_sign_key nw_run_id]. by rewrite Hc.
Qed.

(** Both ends build the same record streams on a connection. *)
Lemma same_layers `{!RingHashLaws} config auth token t req c : same_token config auth token ->
  exists c', wrap_client_conn config req c = Ok c' /\
    wrap_leg c auth (new_work_conn_msg config t req) = Ok c' /\
    wrap_conn (wq_proxy_name req) {| wc_conn := c; WorkPool.use_compression := wq_use_compression req;
      WorkPool.use_encryption := wq_use_encryption req;
      WorkPool.encryption_key := Auth.encryption_key auth; pooled_at := 0 |} = Ok c'.
Proof.
  intros [Hc Hs]. assert (Hl : length (generate_encryption_key token) = 32%nat) by apply sha256_length.
  unfold wrap_client_conn, wrap_leg, wrap_conn, new_work_conn_msg.
  cbn [nw_use_compression nw_use_encryption wc_conn WorkPool.use_compression WorkPool.use_encryption
       WorkPool.encryption_key].
  rewrite Hc, Hs. destruct (wq_use_encryption req); [|by eexists].
  cbn [ok_or mbind result_bind]. change (derive_encryption_key token) with (generate_encryption_key token).
  rewrite !(decide_True (P := length (generate_encryption_key token) = 32%nat)) by done. by eexists.
Qed.
End Credentials.

(** ** Login and heartbeats *)
Lemma str_eq_ct_refl s : str_eq_ct s s = true.
Proof. by apply str_eq_ct_true. Qed.

(** one token opens the door and keeps it open.  When client and server are
    configured with the same token, and for the same additional scopes, the
    credential of every login of the client passes the server's check, and so
    does the key of every heartbeat the client's loop sends, at whatever time,
    whether or not heartbeats are signed. *)
Theorem credentials_agree `{RingHash, Base64, Jwt} fetch get config sc a b token :
  au_method (cc_auth config) = "token"%string -> au_method sc = "token"%string ->
  au_token (cc_auth config) = Some token -> au_token sc = Some token ->
  au_additional_scopes (cc_auth config) = au_additional_scopes sc ->
  auth_new (cc_auth config) = Ok a -> auth_new sc = Ok b ->
  (forall t, exists cred, resolve_auth_token fetch config = Ok cred /\
     (auth_verify_login get b t cred).1 = Ok tt) /\
  (forall k ts, k_auth k = a -> exists p, client_ping k ts = Ping p /\ ping_timestamp p = ts /\
     verify_ping_privilege_key b ts (privilege_key p) = Ok tt).
Proof.
  intros Hm1 Hm2 Ht1 Ht2 Hs Ha Hb. unfold auth_new in Ha, Hb. rewrite Hm1, Ht1 in Ha. rewrite Hm2, Ht2 in Hb.
  rewrite decide_True in Ha, Hb by done. injection Ha as <-. injection Hb as <-. split.
  - intros t. exists token. unfold resolve_auth_token. rewrite Hm1, Ht1. split; [done|].
    unfold auth_verify_login, verify_login. cbn [auth_verifier fst]. by rewrite str_eq_ct_refl.
  - intros k ts Hk. eexists. split; [reflexivity|]. split; [done|]. unfold client_ping. rewrite Hk.
    unfold verify_ping_privilege_key, ping_privilege_key, heartbeats_scope_enabled.
    cbn [Auth.additional_scopes auth_token privilege_key]. rewrite Hs. destruct (existsb _ _); [|done].
    cbn [negb]. cbn. by rewrite str_eq_ct_refl.
Qed.

(** ** A work connection *)
Section WorkConn.
Context `{RingHash, !RingHashLaws, Base64, ServerEnv, !Json Message, !JsonLaws Message}.

(** C2: what the client opens, the server accepts and both read alike.  When
    opening a work connection succeeds, the connection is the one of the chosen
    path, and the one message the client wrote on it is read by the server's
    door as it was meant exactly when it is at most the 64 KiB the door allows
    before the connection is authenticated, and is refused for its length when
    longer (its four byte length field permitting); its signature passes the server's check, when both were given the
    same token; and the record streams the client put around the connection are
    the ones the server builds, for a pooled connection and for a leg of a
    bridge: same order, same key. *)
Theorem work_conn_agrees load connect tls_connect config t last req auth token c' src_addr src_port conn' last' :
  same_token config auth token ->
  open_work_conn load connect tls_connect config t last req
    = (Ok (c', src_addr, src_port), Some conn', last') ->
  exists id c0 text, pick_path load connect tls_connect config t last req = (Ok (id, c0), last') /\
    let m := new_work_conn_msg config t req in
    to_json (NewWorkConn m) = Ok text /\
    (zlen text <= u32_max -> tx conn' = tx c0 ++ message_bytes V1 text /\
      forall rest out room,
        read_message_with_limit MAX_PREAUTH_MESSAGE_SIZE (Conn (message_bytes V1 text ++ rest) out room)
        = if decide (zlen text <= 64 * 1024) then (Ok (NewWorkConn m), Conn rest out room)
          else (Err (too_large (zlen text) (64 * 1024)), Conn (text ++ rest) out room)) /\
    (forall s, check_sign_key auth m s = (Ok tt, s)) /\
    wrap_leg (Raw id) auth m = Ok c' /\
    wrap_conn (wq_proxy_name req) {| wc_conn := Raw id; WorkPool.use_compression := wq_use_compression req;
      WorkPool.use_encryption := wq_use_encryption req;
      WorkPool.encryption_key := Auth.encryption_key auth; pooled_at := 0 |} = Ok c'.
Proof.
  intros Htok E. unfold open_work_conn in E.
  destruct (pick_path _ _ _ _ _ _ _) as [[[id c0]|e] last1] eqn:Ep; [|done].
  destruct (start_exchange config t req c0) as [r c1] eqn:Es. injection E as E <- <-.
  apply result_bind_Ok in E as ([a p] & -> & E). apply result_bind_Ok in E as (c2 & Ew & E).
  injection E as <- <- <-. unfold start_exchange in Es.
  apply io_bind_Ok in Es as (u & c3 & Hw & Es).
  change (write_message (NewWorkConn (new_work_conn_msg config t req)))
    with (control_write V1 (NewWorkConn (new_work_conn_msg config t req))) in Hw.
  apply control_write_Ok in Hw as (text & Ej & Hrx & Htx).
  apply io_bind_Ok in Es as (m & c4 & Hr & Es).
  assert (Htx4 : tx c4 = tx c3).
  { unfold read_message, read_message_with_limit in Hr.
    apply io_bind_Ok in Hr as (b & c5 & R1%io_map_err_Ok%read_n_Ok & Hr). case_decide; [done|].
    apply io_bind_Ok in Hr as (b2 & c6 & R2%io_map_err_Ok%read_n_Ok & Hr). unfold lift in Hr.
    destruct R1 as (_ & _ & R1 & _), R2 as (_ & _ & R2 & _). injection Hr as _ <-. congruence. }
  assert (c1 = c4) as ->.
  { destruct m; try done. case_match; [|done]. by injection Es. }
  destruct (same_layers config auth token t req (Raw id) Htok) as (c5 & E1 & E2 & E3).
  assert (c2 = c5) as -> by congruence.
  exists id, c0, text. split; [done|]. split; [done|]. split.
  - intros Hlen. split.
    + rewrite Htx4. apply Htx. unfold wire_max, u32_max in *. lia.
    + intros rest out room. change (read_message_with_limit MAX_PREAUTH_MESSAGE_SIZE ?c)
        with (control_read_with_limit V1 MAX_PREAUTH_MESSAGE_SIZE c).
      change (64 * 1024) with MAX_PREAUTH_MESSAGE_SIZE. case_decide.
      * rewrite read_bytes; [|done|done]. unfold lift. by rewrite (json_roundtrip _ _ Ej).
      * unfold message_bytes. rewrite <- app_assoc. apply oversized_refused; [|lia]. unfold zlen in *. lia.
  - split; [|done]. intros s. by apply (client_signature_accepted config auth token).
Qed.
End WorkConn.

(** ** An STCP tunnel *)
Section Tunnel.
Context `{RingHash, !RingHashLaws, Base64, Jwt, Os, HashIter, ServerEnv}.

(** A session of the server whose client may open work connections. *)
Record session_ready (w : World) (run_id : string) (config : ClientConfig) (msg : NewWorkConnMsg)
    (auth : AuthManager) (token : string) : Prop := {
  sy_known : is_Some (get_msg_tx (w_cm w) run_id);
  sy_auth : session_auth w run_id = Some auth;
  sy_token : same_token config auth token;
  sy_plugins : (callback plugin_new_work_conn (work_conn_content
    (default EmptyString (get_user_by_run_id (w_cm w) run_id)) msg)).1 = Ok tt;
}.

Lemma ready_admitted w config t req auth token :
  session_ready w (wq_run_id req) config (new_work_conn_msg config t req) auth token ->
  admitted w (new_work_conn_msg config t req) auth.
Proof.
  intros [Hk Ha [Hc Hs] Hp]. split; cbn [new_work_conn_msg nw_run_id nw_sign_key nw_use_encryption]; try done.
  intros key Hkey. rewrite Hs in Hkey. injection Hkey as <-. by rewrite Hc.
Qed.

Lemma ready_sealing config auth token : same_token config auth token -> sealing_key auth.
Proof. intros [_ Hs] key Hk. rewrite Hs in Hk. injection Hk as <-. apply sha256_length. Qed.

(** The answer of the server to a granted request, and the request to the owner. *)
Definition granted_resp (msg : StcpVisitorMsg) (secret : string) : StcpVisitorRespMsg :=
  {| sr_proxy_name := sv_proxy_name msg; sr_bridge_id := sv_bridge_id msg; sr_error := EmptyString;
     sr_visitor_run_id := sv_run_id msg; sr_work_conn_sign_key := stcp_visitor_key secret msg |}.
Definition owner_req (msg : StcpVisitorMsg) (secret owner : string) : ReqWorkConnMsg :=
  {| rw_proxy_name := sv_proxy_name msg; rw_bridge_id := sv_bridge_id msg;
     rw_work_conn_sign_key := stcp_owner_key secret owner msg |}.

(** The server's side of a visitor's request, but for its signature. *)
Record bridge_possible (t : times) (msg : StcpVisitorMsg) (s : Session) (owner secret : string) (tx : nat) : Prop := {
  bp_run : sv_run_id msg = ct_run_id (ctl s);
  bp_id : sv_bridge_id msg <> EmptyString;
  bp_owner : w_owners (world s) !! sv_proxy_name msg = Some owner;
  bp_secret : secret_get (w_secrets (world s)) (sv_proxy_name msg) = Some secret;
  bp_available : id_available (w_bridges (world s)) (t_now t) (sv_bridge_id msg);
  bp_tx : ControlManager.get_msg_tx (w_cm (world s)) owner = Some tx;
  bp_open : is_Some (chans (w_out (world s)) !! tx);
  bp_replied : next_write (ctl s) = WDone;
}.

Lemma request_granted t d bridge ts s owner tx :
  let msg := stcp_visitor_request (vd_config d) (vd_proxy_name d) bridge (vd_run_id d) ts in
  bridge_possible t msg s owner (vs_secret_key (settings_of (vd_config d) (vd_proxy_name d))) tx ->
  0 <= t_ts t < 2 ^ 62 -> - 2 ^ 62 <= ts < 2 ^ 62 -> t_ts t - 120 <= ts <= t_ts t + 120 ->
  stcp_granted t msg s owner (vs_secret_key (settings_of (vd_config d) (vd_proxy_name d))) tx.
Proof.
  intros msg [? Hid ? ? ? ? ? ?] Hn Ht Hc. by split.
Qed.

Lemma visitor_gets_grant name bridge es reg grant : resp_inv (1 + registrations es) reg ->
  Forall (fun e => forall b', e <> RFinish b' (rs_next_id reg)) es ->
  first_answer bridge es = Some (Ok grant) -> gr_bridge_id grant = bridge ->
  (ask_for_bridge name bridge (Ok tt) es reg).1 = Ok grant.
Proof.
  intros Hi Hf Ha Hg. unfold ask_for_bridge. rewrite (surjective_pairing (resp_register reg bridge)).
  change (resp_register reg bridge).1 with (rs_next_id reg).
  destruct (waited_state reg bridge es Hi Hf) as [_ Ho]. apply waited_outcome in Ho. rewrite Ha in Ho.
  rewrite (surjective_pairing (resp_finish _ _ _)), Ho. cbn [fst]. unfold visitor_grant.
  by rewrite decide_False by tauto.
Qed.

(** One tunnel: the visitor, what it drew and when, the owner's session, client
    and proxy, what the owner's control session knows, and the clocks of both
    clients when they open their work connections. *)
Record tunnel := {
  tn_visitor : StcpVisitorDeps;
  tn_bridge : string;
  tn_stamp : Z;
  tn_owner : string;
  tn_owner_config : ClientConfig;
  tn_proxy : ProxyConfig;
  tn_owner_tls : bool;
  tn_owner_port : Z;
  tn_owner_stream : option (result string sock);
  tn_visitor_clock : work_times;
  tn_owner_clock : work_times;
}.

Definition tn_name (n : tunnel) : string := vd_proxy_name (tn_visitor n).
Definition tn_secret (n : tunnel) : string := vs_secret_key (settings_of (vd_config (tn_visitor n)) (tn_name n)).
Definition tn_request (n : tunnel) : StcpVisitorMsg :=
  stcp_visitor_request (vd_config (tn_visitor n)) (tn_name n) (tn_bridge n) (vd_run_id (tn_visitor n)) (tn_stamp n).
Definition tn_grant (n : tunnel) : StcpVisitorGrant :=
  {| gr_bridge_id := tn_bridge n; gr_work_conn_sign_key := stcp_visitor_key (tn_secret n) (tn_request n) |}.
Definition tn_visitor_conn (n : tunnel) : WorkConnRequest := visitor_work_conn (tn_visitor n) (tn_grant n).
Definition tn_owner_conn (n : tunnel) : WorkConnRequest :=
  proxy_work_conn (tn_proxy n) (establish_request (tn_owner n) (tn_owner_tls n) (tn_owner_port n)
    (tn_owner_stream n) (owner_req (tn_request n) (tn_secret n) (tn_owner n))).
Definition tn_visitor_leg (n : tunnel) : NewWorkConnMsg :=
  new_work_conn_msg (vd_config (tn_visitor n)) (tn_visitor_clock n) (tn_visitor_conn n).
Definition tn_owner_leg (n : tunnel) : NewWorkConnMsg :=
  new_work_conn_msg (tn_owner_config n) (tn_owner_clock n) (tn_owner_conn n).

(** C1: an STCP tunnel comes about.  A visitor that was given the proxy's secret
    key, with a clock within two minutes of the server's, sends a request that
    the server can serve (an unused bridge id, a known owner that is connected,
    room for a bridge, a reply that is written); it gets the grant, whatever else
    its client does meanwhile, once the server's answer is what it is handed
    first; the owner is asked for a work connection; and when, within 15
    seconds, both clients open the work connections they open with what they
    were sent, the visitor's before the owner's or the owner's before the
    visitor's, the server accepts both and bridges them, each wrapped in the same
    record streams, under the same key, as at its client.  Both sessions are
    logged in with a token their server has, no plugin refuses them, and the two
    sides are told apart: their session ids or the keys they were sent differ. *)
Theorem stcp_tunnel n t s tx es reg tv to_ cv co av ao tokv toko :
  bridge_possible t (tn_request n) s (tn_owner n) (tn_secret n) tx ->
  (tn_owner n, stcp_owner_key (tn_secret n) (tn_owner n) (tn_request n))
    <> (vd_run_id (tn_visitor n), stcp_visitor_key (tn_secret n) (tn_request n)) ->
  0 <= t_ts t < 2 ^ 62 -> - 2 ^ 62 <= tn_stamp n < 2 ^ 62 -> t_ts t - 120 <= tn_stamp n <= t_ts t + 120 ->
  resp_inv (1 + registrations es) reg ->
  Forall (fun e => forall b, e <> RFinish b (rs_next_id reg)) es ->
  first_answer (tn_bridge n) es = Some (stcp_visitor_answer (granted_resp (tn_request n) (tn_secret n))) ->
  session_ready (world s) (vd_run_id (tn_visitor n)) (vd_config (tn_visitor n)) (tn_visitor_leg n) av tokv ->
  session_ready (world s) (tn_owner n) (tn_owner_config n) (tn_owner_leg n) ao toko ->
  tv <= t_now t + BRIDGE_EMPTY_TTL -> to_ <= t_now t + BRIDGE_EMPTY_TTL ->
  exists s1 q co' cv',
    handle_stcp_visitor t (tn_request n) s = (Ok tt, s1) /\
    ct_sent (ctl s1) = ct_sent (ctl s) ++ [StcpVisitorResp (granted_resp (tn_request n) (tn_secret n))] /\
    chans (w_out (world s1)) !! tx
      = Some (q ++ [ReqWorkConn (owner_req (tn_request n) (tn_secret n) (tn_owner n))]) /\
    (ask_for_bridge (tn_name n) (tn_bridge n) (Ok tt) es reg).1 = Ok (tn_grant n) /\
    wrap_client_conn (tn_owner_config n) (tn_owner_conn n) co = Ok co' /\
    wrap_client_conn (vd_config (tn_visitor n)) (tn_visitor_conn n) cv = Ok cv' /\
    forall first second : leg_arrival,
      (first = (tv, cv, tn_visitor_leg n) /\ second = (to_, co, tn_owner_leg n)) \/
      (first = (to_, co, tn_owner_leg n) /\ second = (tv, cv, tn_visitor_leg n)) ->
      exists s3, legs_accepted (work_state (world s1)) first second s3 /\
        wk_bridged s3 = [(tn_name n, co', cv')] /\
        bridges (w_bridges (wk_world s3)) !! tn_bridge n = None.
Proof.
  intros Hp Hne Hn Ht Hc Hi Hf Ha Rv Ro Htv Hto.
  pose proof (request_granted t (tn_visitor n) (tn_bridge n) (tn_stamp n) s (tn_owner n) tx Hp Hn Ht Hc) as G.
  change (stcp_granted t (tn_request n) s (tn_owner n) (tn_secret n) tx) in G.
  assert (clocks_in_range t (tn_request n)) as Hck by done.
  destruct (stcp_granted_effects _ _ _ _ _ _ Hck G) as (s1 & q & E1 & _ & _ & Hch & Hsent & _ & _).
  pose proof (ready_admitted _ (vd_config (tn_visitor n)) (tn_visitor_clock n) (tn_visitor_conn n) _ _ Rv) as Av.
  pose proof (ready_admitted _ (tn_owner_config n) (tn_owner_clock n) (tn_owner_conn n) _ _ Ro) as Ao.
  pose proof (ready_sealing _ _ _ (sy_token _ _ _ _ _ _ Rv)) as Sv.
  pose proof (ready_sealing _ _ _ (sy_token _ _ _ _ _ _ Ro)) as So.
  assert (leg_of (tn_request n) (sv_run_id (tn_request n)) (stcp_visitor_key (tn_secret n) (tn_request n))
    (tn_visitor_leg n)) as Lv by done.
  assert (leg_of (tn_request n) (tn_owner n) (stcp_owner_key (tn_secret n) (tn_owner n) (tn_request n))
    (tn_owner_leg n)) as Lo by done.
  destruct (stcp_end_to_end t (tn_request n) s (tn_owner n) (tn_secret n) tx tv to_ cv co
    (tn_visitor_leg n) (tn_owner_leg n) av ao Hck G Hne Lv Lo eq_refl Av Ao Sv So Htv Hto)
    as (s1' & co' & cv' & E1' & E5 & E6 & _ & _ & Hall).
  assert (s1' = s1) as -> by congruence.
  exists s1, q, co', cv'. split; [done|]. split; [done|]. split; [by rewrite Hch, lookup_insert_eq|].
  split; [by apply visitor_gets_grant|].
  destruct (same_layers _ _ _ (tn_owner_clock n) (tn_owner_conn n) co (sy_token _ _ _ _ _ _ Ro)) as (c1 & L1 & L2 & _).
  destruct (same_layers _ _ _ (tn_visitor_clock n) (tn_visitor_conn n) cv (sy_token _ _ _ _ _ _ Rv)) as (c2 & L3 & L4 & _).
  fold (tn_owner_leg n) in L2. fold (tn_visitor_leg n) in L4. rewrite E5 in L2. rewrite E6 in L4.
  injection L2 as ->. injection L4 as ->. done.
Qed.
End Tunnel.

(** ** On the small server *)
#[local] Existing Instance map_order.
#[local] Existing Instance toy_base64.
#[local] Existing Instance toy_jwt.

Definition with_visitors (c : ClientConfig) (vs : list VisitorConfig) : ClientConfig :=
  {| cc_server_addr := cc_server_addr c; cc_server_port := cc_server_port c;
     cc_work_conn_port := cc_work_conn_port c; cc_user := cc_user c; cc_client_id := cc_client_id c;
     cc_web_server := cc_web_server c; cc_auth := cc_auth c; cc_transport := cc_transport c;
     cc_proxies := cc_proxies c; cc_visitors := vs; cc_log := cc_log c; cc_log_file := cc_log_file c;
     cc_log_level := cc_log_level c; cc_log_max_days := cc_log_max_days c; cc_includes := cc_includes c |}.

Definition toy_visitor_config : VisitorConfig :=
  {| vi_name := "v"; vi_type := "stcp"; vi_server_name := "ssh"; vi_secret_key := Some "k"%string;
     vi_bind_addr := "127.0.0.1"; vi_bind_port := 6000; vi_transport := None;
     vi_use_encryption := true; vi_use_compression := true |}.

Definition toy_tunnel : tunnel :=
  {| tn_visitor := {| vd_proxy_name := "ssh"; vd_run_id := "vis";
       vd_config := with_visitors secure_client [toy_visitor_config]; vd_work_conn_tls := false;
       vd_server_work_conn_port := 0 |};
     tn_bridge := "b1"; tn_stamp := 990; tn_owner := "own"; tn_owner_config := secure_client;
     tn_proxy := default_proxy; tn_owner_tls := false; tn_owner_port := 0; tn_owner_stream := None;
     tn_visitor_clock := toy_times_at 990; tn_owner_clock := toy_times_at 991 |}.

Lemma toy_registry n : 0 <= n < 1000 -> resp_inv n resp_registry_new.
Proof.
  intros Hn.
  assert (Hw : forall b id, id ∉ waiting resp_registry_new b).
  { intros b id. unfold waiting. cbn [resp_registry_new rs_pending]. rewrite lookup_empty. apply not_elem_of_nil. }
  split.
  - cbn. lia.
  - intros b id Hx. by apply Hw in Hx.
  - intros b b' id Hx. by apply Hw in Hx.
  - intros id [x Hx]. cbn [resp_registry_new rs_mail] in Hx. by rewrite lookup_empty in Hx.
Qed.

Lemma stcp_tunnel_witness : let _ := toy_env no_plugins None in
  exists s1 s3 s4,
    legs_accepted s1 (secs 2, Raw 5, tn_visitor_leg toy_tunnel) (secs 3, Raw 6, tn_owner_leg toy_tunnel) s3 /\
    legs_accepted s1 (secs 3, Raw 6, tn_owner_leg toy_tunnel) (secs 2, Raw 5, tn_visitor_leg toy_tunnel) s4 /\
    wk_bridged s3 = [("ssh"%string, Raw 6,
      EncryptedConn (CompressedConn (Raw 5)) (generate_encryption_key "tok"))] /\
    wk_bridged s4 = wk_bridged s3.
Proof.
  intros env.
  set (es := [RRegister "other"; RResolve "b1" (stcp_visitor_answer (granted_resp (tn_request toy_tunnel)
    (tn_secret toy_tunnel)))]%string).
  destruct (stcp_tunnel toy_tunnel toy_times (toy_session [] "vis" 2 []) 1 es resp_registry_new (secs 2) (secs 3)
    (Raw 5) (Raw 6) (toy_auth []) (toy_auth []) "tok" "tok")
    as (s1 & q & co & cv & _ & _ & _ & _ & Ec & Ev & Hall).
  - split; try (vm_compute; (reflexivity || discriminate)); [|by exists []].
    by apply (create_bridge_Ok_iff _ _ "ssh" _ "own" "vis" "" "").
  - intros E. apply (f_equal fst) in E. discriminate.
  - cbn. lia.
  - cbn. lia.
  - cbn. lia.
  - apply toy_registry. cbn. lia.
  - subst es. repeat (constructor; [intros b [=]|]). constructor.
  - reflexivity.
  - split; [eexists; vm_compute; reflexivity|reflexivity|split; reflexivity|reflexivity].
  - split; [eexists; vm_compute; reflexivity|reflexivity|split; reflexivity|reflexivity].
  - vm_compute. discriminate.
  - vm_compute. discriminate.
  - destruct (Hall _ _ (or_introl (conj eq_refl eq_refl))) as (s3 & A3 & E3 & _).
    destruct (Hall _ _ (or_intror (conj eq_refl eq_refl))) as (s4 & A4 & E4 & _).
    exists (work_state (world s1)), s3, s4. split; [exact A3|]. split; [exact A4|].
    rewrite E3, E4. injection Ec as <-. vm_compute in Ev. injection Ev as <-. split; reflexivity.
Defined.

(** A codec for one work connection message and its answer. *)
Definition demo_req : WorkConnRequest :=
  {| wq_proxy_name := "ssh"; wq_run_id := "run"; wq_work_conn_tls := false; wq_session := None;
     wq_server_work_conn_port := 7001; wq_use_encryption := true; wq_use_compression := true;
     wq_bridge_id := EmptyString; wq_bridge_sign_key := EmptyString |}.
Definition demo_start : Message := StartWorkConn {| sw_error := EmptyString; sw_src_addr := "10.1.2.3";
  sw_src_port := 5555; sw_dst_addr := EmptyString; sw_dst_port := 0 |}.

#[local] Instance new_work_conn_eq_dec : EqDecision NewWorkConnMsg.
Proof. solve_decision. Defined.

Definition demo_msg : NewWorkConnMsg := new_work_conn_msg secure_client (toy_times_at 990) demo_req.

Definition demo_to_json (m : Message) : result string (list byte) :=
  match m with
  | NewWorkConn m => if decide (m = demo_msg) then Ok [Byte.x01] else Err "unsupported"%string
  | _ => Err "unsupported"%string
  end.
Definition demo_of_json (l : list byte) : result string Message :=
  match l with
  | [Byte.x01] => Ok (NewWorkConn demo_msg)
  | [Byte.x02] => Ok demo_start
  | _ => Err "unsupported"%string
  end.
#[local] Instance demo_json : Json Message := {| to_json := demo_to_json; of_json := demo_of_json |}.
#[local] Instance demo_json_laws : JsonLaws Message.
Proof.
  split. intros m b. cbn [to_json demo_json]. unfold demo_to_json. destruct m; try done.
  case_decide; [|done]. intros [= <-]. by subst.
Qed.

Lemma work_conn_agrees_witness : let _ := toy_env no_plugins None in
  exists c', wrap_leg (Raw 4) (toy_auth []) demo_msg = Ok c' /\
    c' = EncryptedConn (CompressedConn (Raw 4)) (generate_encryption_key "tok").
Proof.
  intros env. set (c0 := Conn (message_bytes V1 [Byte.x02]) [] 1000).
  set (out := open_work_conn (fun _ => Ok tt) (fun _ => Some (Ok (4%nat, c0))) (fun _ _ s => Ok s) secure_client
    (toy_times_at 990) 0 demo_req).
  assert (E : out = (Ok (EncryptedConn (CompressedConn (Raw 4)) (generate_encryption_key "tok"), "10.1.2.3"%string, 5555),
    Some (Conn [] (message_bytes V1 [Byte.x01]) 995), 0)) by (vm_compute; reflexivity).
  destruct (work_conn_agrees (fun _ => Ok tt) (fun _ => Some (Ok (4%nat, c0))) (fun _ _ s => Ok s) secure_client
    (toy_times_at 990) 0 demo_req (toy_auth []) "tok" _ _ _ _ _ ltac:(by split) E)
    as (id & c1 & text & Ep & Hrest). cbv zeta in Hrest. destruct Hrest as (_ & _ & _ & Ew & _).
  vm_compute in Ep. injection Ep as <- <-. eexists. split; [exact Ew|reflexivity].
Defined.

Lemma credentials_agree_witness : 
  (forall t, exists cred, resolve_auth_token (fun _ => Err "no idp"%string) secure_client = Ok cred /\
     (auth_verify_login (fun _ _ => Err "down"%string) (toy_auth []) t cred).1 = Ok tt).
Proof.
  apply (credentials_agree (fun _ => Err "no idp"%string) (fun _ _ => Err "down"%string) secure_client
    (cc_auth secure_client) (toy_auth []) (toy_auth []) "tok"); reflexivity.
Defined.
