(* ===== verification/Api.v ===== *)
(** * The management API (src/rust_frp_server/src/api.rs, the handlers of
    src/rust_frp_server/src/web.rs that answer with data)

    The server information, the clients and the proxies as JSON, in the v1 form
    and in the v2 envelope with its pages and filters, and the two requests that
    forget history.  JSON is JsonValue.v's [value]; an object keeps its fields in
    the order they were put in, which only serialisation could tell from
    [serde_json]'s sorted maps.  The metrics, the session registry and the proxy
    tables are those of Metrics.v, ControlManager.v and ProxyManager.v; a request
    reads the clocks once ([now] for [Instant], [ts] for Unix seconds).  URL-safe
    base64, the local time offset and the package version are arguments; matching
    a URL against the routes and decoding it is axum's, so a request is an
    [endpoint] with its path parameters. *)
From S2P Require Import Prelude RustStd RustFmt ConfigTypes LocalTime JsonValue Metrics Throttle ControlManager Vhost.

Definition DEFAULT_V2_PAGE : Z := 1.
Definition DEFAULT_V2_PAGE_SIZE : Z := 50.
Definition MAX_V2_PAGE_SIZE : Z := 200.

Definition PROXY_TYPES : list string :=
  ["tcp"; "udp"; "http"; "https"; "tcpmux"; "stcp"; "xtcp"; "sudp"; "websocket"]%string.

(** ** JSON *)
Definition json_opt {A} (f : A -> value) (o : option A) : value :=
  match o with Some x => f x | None => JNull end.
Definition json_strs (l : list string) : value := JArr (JStr <$> l).

(** [Map::insert] on an object. *)
Fixpoint put (name : string) (x : value) (fields : list (string * value)) : list (string * value) :=
  match fields with
  | [] => [(name, x)]
  | (k, y) :: fields => if decide (k = name) then (k, x) :: fields else (k, y) :: put name x fields
  end.
Definition insert_field (name : string) (x : value) (v : value) : value :=
  match v with JObj fields => JObj (put name x fields) | _ => v end.
Definition insert_some {A} (f : A -> value) (name : string) (o : option A) (v : value) : value :=
  match o with Some x => insert_field name (f x) v | None => v end.

Definition str_of (name : string) (v : value) : string := default EmptyString (get_str name v).

(** ** Responses *)
Record response := { status : Z; body : value }.
Definition ok_json (v : value) : response := {| status := 200; body := v |}.

Definition v1_error (code : Z) (msg : string) : response :=
  {| status := code; body := JObj [("code", JInt code); ("msg", JStr msg)]%string |}.
Definition v2_error (code : Z) (msg : string) : response :=
  {| status := code; body := JObj [("code", JInt code); ("msg", JStr msg); ("data", JNull)]%string |}.
Definition v2_ok (data : value) : response :=
  ok_json (JObj [("code", JInt 200); ("msg", JStr "success"); ("data", data)]%string).

(** ** Query parameters *)
Notation query := (gmap string string) (only parsing).

Definition parse_positive (raw : option string) (def : Z) (name : string) : result string Z :=
  match raw with
  | None => Ok def
  | Some v =>
      if is_empty v then Ok def
      else match parse_unsigned 64 v with
           | Some n => if decide (1 <= n) then Ok n else Err (name +:+ " must be a positive integer")%string
           | None => Err (name +:+ " must be a positive integer")%string
           end
  end.

Definition parse_v2_page (q : query) : result response (Z * Z) :=
  page ← map_err (v2_error 400) (parse_positive (q !! "page"%string) DEFAULT_V2_PAGE "page");
  page_size ← map_err (v2_error 400)
    (parse_positive (q !! "pageSize"%string) DEFAULT_V2_PAGE_SIZE "pageSize");
  if decide (MAX_V2_PAGE_SIZE < page_size)
  then Err (v2_error 400 ("pageSize must be between 1 and " +:+ dec MAX_V2_PAGE_SIZE)%string)
  else Ok (page, page_size).

Definition status_matches (online : bool) (filter : string) : bool :=
  if decide (filter = "online"%string) then online
  else if decide (filter = "offline"%string) then negb online
  else true.

(** [usize] arithmetic, as a build without overflow checks does it. *)
Definition paginate {A} (items : list A) (page page_size : Z) : list A :=
  let start := wrap_u64 ((page - 1) * page_size) in
  if decide (zlen items <= start) then []
  else let end_ := Z.min (wrap_u64 (start + page_size)) (zlen items) in
       take (Z.to_nat (end_ - start)) (drop (Z.to_nat start) items).

(** The order of [sort_by_key] on pairs of strings. *)
Definition pair_leb (a b : string * string) : bool :=
  match String.compare a.1 b.1 with
  | Lt => true
  | Eq => String.leb a.2 b.2
  | Gt => false
  end.
Definition sort_by_key {A} (key : A -> string * string) (l : list A) : list A :=
  stable_sort (fun a b => pair_leb (key a) (key b)) l.

(** ** The views *)
Section Api.
Context {Chan Auth Signal : Type} `{HashIter} `{Lowercase}
  (b64 : string -> string) (offset_secs_at : Z -> Z) (pkg_version : string).

Record ApiServer := {
  api_config : ServerConfig;
  api_metrics : MonitorMetrics;
  api_control : ControlManager Chan Auth Signal;
  api_proxies : gmap string ProxyConfig;
  api_owners : gmap string string;
}.
Implicit Types (s : ApiServer).

Definition with_api_metrics s (m : MonitorMetrics) : ApiServer :=
  {| api_config := api_config s; api_metrics := m; api_control := api_control s;
     api_proxies := api_proxies s; api_owners := api_owners s |}.
Definition with_api_control s (c : ControlManager Chan Auth Signal) : ApiServer :=
  {| api_config := api_config s; api_metrics := api_metrics s; api_control := c;
     api_proxies := api_proxies s; api_owners := api_owners s |}.

Definition parse_v2_status (raw : option string) : result response string :=
  let status := default EmptyString (to_lowercase <$> raw) in
  if decide (status ∈ [EmptyString; "all"; "online"; "offline"]%string) then Ok status
  else Err (v2_error 400 "status must be one of all, online, offline").

(** [proxies.values()]. *)
Definition proxy_values s : list ProxyConfig := snd <$> hash_iter (api_proxies s).

Definition proxy_type_counts s : value :=
  JObj (prod_map id JInt <$> map_to_list
    (foldl (fun (counts : gmap string Z) p => <[px_type p := default 0 (counts !! px_type p) + 1]> counts)
       ∅ (proxy_values s))).

Definition render_port_range (r : PortRange) : option string :=
  match pr_single r, pr_start r, pr_end r with
  | Some single, _, _ => Some (dec single)
  | None, Some start, Some end_ => Some (dec start +:+ "-" +:+ dec end_)%string
  | None, Some start, None => Some (dec start)
  | None, None, _ => None
  end.
Definition render_allow_ports (cfg : ServerConfig) : string :=
  str_join "," (omap render_port_range (sc_allow_ports cfg)).

(** A number of [get_metrics] as [i64]; 0 when it does not fit. *)
Definition metric_num s (now : Z) (key : string) : Z :=
  default 0 (list_find (fun kv => kv.1 = key) (get_metrics (api_metrics s) now) ≫=
    fun x => as_i64 (JInt x.2.2)).

Definition build_server_info s (now : Z) : value :=
  let cfg := api_config s in
  let num := metric_num s now in
  JObj [("version", JStr pkg_version);
        ("bindPort", JInt (sc_bind_port cfg));
        ("vhostHTTPPort", JInt (default 0 (sc_vhost_http_port cfg)));
        ("vhostHTTPSPort", JInt (default 0 (sc_vhost_https_port cfg)));
        ("tcpmuxHTTPConnectPort", JInt (default 0 (sc_tcpmux_http_connect_port cfg)));
        ("kcpBindPort", JInt (default 0 (sc_kcp_bind_port cfg)));
        ("quicBindPort", JInt (default 0 (sc_quic_bind_port cfg)));
        ("subdomainHost", JStr EmptyString);
        ("maxPoolCount", JInt (effective_max_pool_count (sc_transport cfg)));
        ("maxPortsPerClient", JInt (default 0 (sc_max_ports_per_user cfg)));
        ("heartbeatTimeout", JInt 90);
        ("allowPortsStr", JStr (render_allow_ports cfg));
        ("tlsForce", JBool (tr_tls_only (sc_transport cfg)));
        ("totalTrafficIn", JInt (num "bytes_received"));
        ("totalTrafficOut", JInt (num "bytes_sent"));
        ("curConns", JInt (num "current_connections"));
        ("clientCounts", JInt (zlen (get_clients (api_control s))));
        ("proxyTypeCount", proxy_type_counts s)]%string.

(** Whole seconds since [then_]. *)
Definition elapsed_secs (now then_ : Z) : Z := duration_since now then_ / secs 1.

Definition build_client_resp (now ts : Z) (info : ClientInfo) : value :=
  JObj [("key", JStr (client_key b64 info));
        ("user", JStr (ci_user info));
        ("clientID", JStr (ci_client_id info));
        ("runID", JStr (ci_run_id info));
        ("version", JStr (ci_version info));
        ("wireProtocol", JStr (ci_wire_protocol info));
        ("hostname", JStr (ci_hostname info));
        ("clientIP", JStr (ci_client_ip info));
        ("firstConnectedAt", JInt (first_connected_at info));
        ("lastConnectedAt", JInt (wrap_i64 (ts - wrap_i64 (elapsed_secs now (connected_at info)))));
        ("disconnectedAt", JInt (default 0 (disconnected_at info)));
        ("online", JBool (online info))]%string.

Definition build_proxy_conf (p : ProxyConfig) : value :=
  let conf :=
    JObj [("name", JStr (px_name p));
          ("type", JStr (px_type p));
          ("localIP", JStr (px_local_ip p));
          ("localPort", JInt (px_local_port p));
          ("plugin", JStr (default EmptyString (pl_type <$> px_plugin p)));
          ("useEncryption", JBool (px_use_encryption p));
          ("useCompression", JBool (px_use_compression p));
          ("transport", JObj [("useEncryption", JBool (px_use_encryption p));
                              ("useCompression", JBool (px_use_compression p));
                              ("bandwidthLimit", JStr (default EmptyString (px_bandwidth_limit p)))])]%string in
  let conf := insert_some JInt "remotePort" (px_remote_port p) conf in
  let conf := insert_some json_strs "customDomains" (px_custom_domains p) conf in
  let conf := insert_some JStr "subdomain" (px_subdomain p) conf in
  let conf := insert_some json_strs "locations" (px_locations p) conf in
  let conf := insert_some JStr "hostHeaderRewrite" (px_host_header_rewrite p) conf in
  let conf := insert_some JStr "multiplexer" (px_multiplexer p) conf in
  let conf := insert_some JStr "routeByHTTPUser" (px_route_by_http_user p) conf in
  insert_some (fun g => JObj [("group"%string, JStr g)]) "loadBalancer" (px_group p) conf.

Definition format_timestamp (secs : Z) : string :=
  if decide (secs <= 0) then EmptyString
  else format_local_datetime_with_offset secs (offset_secs_at secs).

Definition build_proxy_stats s (ts : Z) (p : ProxyConfig) (client_id user : string) : value :=
  let '(traffic_in, traffic_out, cur_conns, last_start) :=
    match get_proxy_stat (api_metrics s) (px_name p) with
    | Some st => (wrap_i64 (bytes_in st), wrap_i64 (bytes_out st), wrap_i64 (current_conns st), created_at st)
    | None => (0, 0, 0, ts)
    end in
  JObj [("name", JStr (px_name p));
        ("conf", build_proxy_conf p);
        ("user", JStr user);
        ("clientID", JStr client_id);
        ("todayTrafficIn", JInt traffic_in);
        ("todayTrafficOut", JInt traffic_out);
        ("curConns", JInt cur_conns);
        ("lastStartTime", JStr (format_timestamp last_start));
        ("lastCloseTime", JStr EmptyString);
        ("status", JStr "online")]%string.

Definition build_closed_proxy_stats (info : ClosedProxyInfo) : value :=
  JObj [("name", JStr (cp_name info));
        ("conf", JObj [("name", JStr (cp_name info)); ("type", JStr (cp_type info));
                       ("remotePort", json_opt JInt (cp_remote_port info))]);
        ("user", JStr (cp_user info));
        ("clientID", JStr (cp_client_id info));
        ("todayTrafficIn", JInt (wrap_i64 (traffic_in info)));
        ("todayTrafficOut", JInt (wrap_i64 (traffic_out info)));
        ("curConns", JInt 0);
        ("lastStartTime", JStr (format_timestamp (last_start_time info)));
        ("lastCloseTime", JStr (format_timestamp (last_close_time info)));
        ("status", JStr "offline")]%string.

(** Run id to (client id, user), of the clients online. *)
Definition client_map s : gmap string (string * string) :=
  foldl (fun m c => <[ci_run_id c := (ci_client_id c, ci_user c)]> m) ∅ (get_clients (api_control s)).
Definition proxy_owner s (name : string) : string * string :=
  default ("-", "-")%string (run_id ← api_owners s !! name; client_map s !! run_id).

Definition online_row s (ts : Z) (p : ProxyConfig) : value :=
  let '(client_id, user) := proxy_owner s (px_name p) in build_proxy_stats s ts p client_id user.

Definition collect_all_proxy_stats s (ts : Z) : list value :=
  sort_by_key (fun v => (str_of "status" v, str_of "name" v))
    ((online_row s ts <$> proxy_values s) ++
     (build_closed_proxy_stats <$> list_closed_proxies (api_metrics s))).

Definition conf_type (v : value) : option string := get "conf" v ≫= get_str "type".

Definition traffic_series_of s (name : string) : option (list Z * list Z) :=
  match get_proxy_stat (api_metrics s) name with
  | Some st => let '(i, o) := series_snapshot (series st) in Some (wrap_i64 <$> i, wrap_i64 <$> o)
  | None =>
      (fun x => ([wrap_i64 (traffic_in x.2)], [wrap_i64 (traffic_out x.2)])) <$>
      list_find (fun p => cp_name p = name) (list_closed_proxies (api_metrics s))
  end.

Definition to_v2_proxy_resp (v1 : value) : value :=
  let conf := default (JObj []) (get "conf" v1) in
  let online := bool_decide (get_str "status" v1 = Some "online"%string) in
  let spec :=
    JObj [("type", JStr (str_of "type" conf));
          ("transport",
           JObj [("useEncryption", default (JBool false) (get "useEncryption" conf));
                 ("useCompression", default (JBool false) (get "useCompression" conf));
                 ("bandwidthLimit", default (JStr EmptyString)
                    (get "transport" conf ≫= get "bandwidthLimit"))])]%string in
  let copy (name : string) spec := insert_some id name (get name conf) spec in
  let spec := copy "remotePort" spec in
  let spec := copy "customDomains" spec in
  let spec := copy "subdomain" spec in
  let spec := copy "locations" spec in
  let spec := copy "hostHeaderRewrite" spec in
  let spec := copy "multiplexer" spec in
  let spec := copy "routeByHTTPUser" spec in
  let spec := copy "loadBalancer" spec in
  let field name (def : value) := default def (get name v1) in
  JObj [("name", field "name" JNull);
        ("user", field "user" JNull);
        ("clientID", field "clientID" JNull);
        ("spec", spec);
        ("status",
         JObj [("phase", JStr (if online then "online" else "offline"));
               ("todayTrafficIn", field "todayTrafficIn" (JInt 0));
               ("todayTrafficOut", field "todayTrafficOut" (JInt 0));
               ("curConns", field "curConns" (JInt 0));
               ("lastStartTime", field "lastStartTime" (JStr EmptyString));
               ("lastCloseTime", field "lastCloseTime" (JStr EmptyString))])]%string.

(** ** The v1 handlers *)
Definition param (q : query) (name : string) : string := default EmptyString (q !! name).
Definition lower_param (q : query) (name : string) : string := default EmptyString (to_lowercase <$> q !! name).

(** The filters both client lists start with; empty ones let everything pass. *)
Definition client_selected (user client_id run_id status : string) (c : ClientInfo) : bool :=
  (is_empty user || bool_decide (ci_user c = user)) &&
  (is_empty client_id || bool_decide (ci_client_id c = client_id)) &&
  (is_empty run_id || bool_decide (ci_run_id c = run_id)) &&
  status_matches (online c) status.
Definition by_user_and_client (v : value) : string * string := (str_of "user" v, str_of "clientID" v).

Definition serverinfo_handler s (now : Z) : response := ok_json (build_server_info s now).

Definition clients_handler s (q : query) (now ts : Z) : response :=
  let selected := filter (fun c => client_selected (param q "user") (param q "clientId") (param q "runId")
                                     (lower_param q "status") c = true) (get_all_clients (api_control s)) in
  ok_json (JArr (sort_by_key by_user_and_client (build_client_resp now ts <$> selected))).

Definition client_detail_handler s (key : string) (now ts : Z) : response :=
  match get_client_by_key b64 (api_control s) key with
  | Some info => ok_json (build_client_resp now ts info)
  | None => v1_error 404 ("client " +:+ key +:+ " not found")
  end.

Definition proxy_by_type_handler s (proxy_type : string) (ts : Z) : response :=
  let proxy_type := to_lowercase proxy_type in
  if decide (proxy_type ∈ PROXY_TYPES) then
    ok_json (JObj [("proxies"%string,
      JArr (sort_by_key (fun v => (str_of "name" v, EmptyString))
        (filter (fun v => conf_type v = Some proxy_type) (collect_all_proxy_stats s ts))))])
  else v1_error 400 ("invalid proxy type: " +:+ proxy_type).

Definition find_row (p : value -> Prop) `{!forall v, Decision (p v)} s (ts : Z) : option value :=
  snd <$> list_find p (collect_all_proxy_stats s ts).

Definition proxy_by_type_and_name_handler s (proxy_type name : string) (ts : Z) : response :=
  let proxy_type := to_lowercase proxy_type in
  if decide (proxy_type ∈ PROXY_TYPES) then
    match find_row (fun v => get_str "name" v = Some name /\ conf_type v = Some proxy_type) s ts with
    | Some stats => ok_json stats
    | None => v1_error 404 "no proxy info found"
    end
  else v1_error 400 ("invalid proxy type: " +:+ proxy_type).

Definition proxy_by_name_handler s (name : string) (ts : Z) : response :=
  match find_row (fun v => get_str "name" v = Some name) s ts with
  | Some stats => ok_json stats
  | None => v1_error 404 "no proxy info found"
  end.

Definition traffic_body (name : string) (series : list Z * list Z) : value :=
  JObj [("name", JStr name); ("trafficIn", JArr (JInt <$> series.1));
        ("trafficOut", JArr (JInt <$> series.2))]%string.
Definition proxy_traffic_handler s (name : string) : response :=
  match traffic_series_of s name with
  | Some series => ok_json (traffic_body name series)
  | None => v1_error 404 "no proxy info found"
  end.

Definition delete_proxies_handler s (q : query) : response * ApiServer :=
  if decide (q !! "status"%string = Some "offline"%string) then
    let '(_, m) := clear_closed_proxies (api_metrics s) in
    (ok_json (JObj [("code", JInt 200); ("msg", JStr "success")]%string), with_api_metrics s m)
  else (v1_error 400 "status only support offline", s).

(** ** The v2 handlers *)
Definition v2_system_info_handler s (now : Z) : response :=
  let info := build_server_info s now in
  let pick (k : string) := (k, default JNull (get k info)) in
  v2_ok (JObj [pick "version";
    ("config", JObj (pick <$> ["bindPort"; "vhostHTTPPort"; "vhostHTTPSPort"; "tcpmuxHTTPConnectPort";
       "kcpBindPort"; "quicBindPort"; "subdomainHost"; "maxPoolCount"; "maxPortsPerClient";
       "heartbeatTimeout"; "allowPortsStr"; "tlsForce"]));
    ("status", JObj (pick <$> ["totalTrafficIn"; "totalTrafficOut"; "curConns"; "clientCounts";
       "proxyTypeCount"]))])%string.

Definition prune_body (kind : string) (cleared total : Z) : value :=
  JObj [("type", JStr kind); ("cleared", JInt cleared); ("total", JInt total)]%string.
Definition v2_system_prune_handler s (q : query) : response * ApiServer :=
  let prune_type := lower_param q "type" in
  if decide (prune_type = "offline_proxies"%string) then
    let '((cleared, total), m) := clear_closed_proxies (api_metrics s) in
    (v2_ok (prune_body "offline_proxies" cleared total), with_api_metrics s m)
  else if decide (prune_type = "clients"%string) then
    let '(cleared, c) := clear_offline_clients (api_control s) in
    (v2_ok (prune_body "clients" cleared cleared), with_api_control s c)
  else (v2_error 400 "type must be one of offline_proxies, clients", s).

Definition v2_page_body (items : list value) (page page_size : Z) : value :=
  JObj [("total", JInt (zlen items)); ("page", JInt page); ("pageSize", JInt page_size);
        ("items", JArr (paginate items page page_size))]%string.

(** Clients and proxies of each user. *)
Definition count_client (m : gmap string (Z * Z)) (user : string) : gmap string (Z * Z) :=
  let '(c, p) := default (0, 0) (m !! user) in <[user := (c + 1, p)]> m.
Definition count_proxy (m : gmap string (Z * Z)) (user : string) : gmap string (Z * Z) :=
  let '(c, p) := default (0, 0) (m !! user) in <[user := (c, p + 1)]> m.
Definition user_counts s (ts : Z) : gmap string (Z * Z) :=
  foldl count_proxy (foldl count_client ∅ (ci_user <$> get_all_clients (api_control s)))
    (str_of "user" <$> collect_all_proxy_stats s ts).

Definition user_row (e : string * (Z * Z)) : value :=
  JObj [("user", JStr e.1); ("clientCount", JInt e.2.1); ("proxyCount", JInt e.2.2)]%string.

Definition respond (r : result response response) : response :=
  match r with Ok x => x | Err x => x end.

Definition v2_users_handler s (q : query) (ts : Z) : response :=
  respond (
    '(page, page_size) ← parse_v2_page q;
    let text := lower_param q "q" in
    let items := sort_by_key (fun v => (str_of "user" v, EmptyString))
      (user_row <$> filter (fun e => is_empty text || contains_str text (to_lowercase e.1) = true)
                      (hash_iter (user_counts s ts))) in
    Ok (v2_ok (v2_page_body items page page_size))).

Definition client_matches (text : string) (c : ClientInfo) : bool :=
  is_empty text || contains_str text (to_lowercase (ci_client_id c))
  || contains_str text (to_lowercase (ci_hostname c))
  || contains_str text (to_lowercase (ci_client_ip c))
  || contains_str text (to_lowercase (ci_run_id c)).

Definition v2_client_rows s (q : query) (status : string) (now ts : Z) : list value :=
  sort_by_key by_user_and_client (build_client_resp now ts <$>
    filter (fun c => client_matches (lower_param q "q") c = true)
      (filter (fun c => client_selected (param q "user") (param q "clientID") (param q "runID") status c = true)
         (get_all_clients (api_control s)))).

Definition v2_clients_handler s (q : query) (now ts : Z) : response :=
  respond (
    '(page, page_size) ← parse_v2_page q;
    status ← parse_v2_status (q !! "status"%string);
    Ok (v2_ok (v2_page_body (v2_client_rows s q status now ts) page page_size))).

Definition v2_client_detail_handler s (key : string) (now ts : Z) : response :=
  match get_client_by_key b64 (api_control s) key with
  | Some info =>
      let proxy_count := zlen (filter (fun e => e.2 = ci_run_id info) (map_to_list (api_owners s))) in
      v2_ok (insert_field "status"
        (JObj [("phase", JStr (if online info then "online" else "offline"));
               ("curConns", JInt (elapsed_secs now (connected_at info)));
               ("proxyCount", JInt proxy_count)]%string) (build_client_resp now ts info))
  | None => v2_error 404 ("client " +:+ key +:+ " not found")
  end.

Definition proxy_selected (proxy_type status user client_id text : string) (v : value) : bool :=
  (is_empty proxy_type || bool_decide (default EmptyString (conf_type v) = proxy_type)) &&
  status_matches (bool_decide (get_str "status" v = Some "online"%string)) status &&
  (is_empty user || bool_decide (str_of "user" v = user)) &&
  (is_empty client_id || bool_decide (str_of "clientID" v = client_id)) &&
  (is_empty text || contains_str text (to_lowercase (str_of "name" v))).

Definition v2_proxy_rows s (q : query) (proxy_type status : string) (ts : Z) : list value :=
  sort_by_key (fun v => (default EmptyString (get "spec" v ≫= get_str "type"), str_of "name" v))
    (to_v2_proxy_resp <$>
     filter (fun v => proxy_selected proxy_type status (param q "user") (param q "clientID")
                        (lower_param q "q") v = true) (collect_all_proxy_stats s ts)).

Definition v2_proxies_handler s (q : query) (ts : Z) : response :=
  respond (
    '(page, page_size) ← parse_v2_page q;
    status ← parse_v2_status (q !! "status"%string);
    let proxy_type := lower_param q "type" in
    if negb (is_empty proxy_type) && negb (bool_decide (proxy_type ∈ PROXY_TYPES))
    then Err (v2_error 400 ("invalid proxy type: " +:+ proxy_type))
    else Ok (v2_ok (v2_page_body (v2_proxy_rows s q proxy_type status ts) page page_size))).

Definition v2_proxy_detail_handler s (name : string) (ts : Z) : response :=
  match find_row (fun v => get_str "name" v = Some name) s ts with
  | Some stats => v2_ok (to_v2_proxy_resp stats)
  | None => v2_error 404 "no proxy info found"
  end.

Definition v2_proxy_traffic_handler s (name : string) : response :=
  match traffic_series_of s name with
  | Some series => v2_ok (traffic_body name series)
  | None => v2_error 404 "no proxy info found"
  end.

(** ** The dashboard's own handlers (web.rs) *)
Definition health_handler (ts : Z) : response :=
  ok_json (JObj [("status", JStr "ok"); ("timestamp", JInt ts)]%string).

Definition metrics_handler s (now : Z) : response :=
  ok_json (JObj (prod_map id JInt <$> get_metrics (api_metrics s) now)).

Definition controllers_handler s (now : Z) : response :=
  ok_json (JArr ((fun c =>
    JObj [("user", JStr (ci_user c)); ("client_id", JStr (ci_client_id c)); ("run_id", JStr (ci_run_id c));
          ("connected_at", JInt (elapsed_secs now (connected_at c)));
          ("last_heartbeat", JInt (elapsed_secs now (last_heartbeat c)))]%string)
    <$> get_clients (api_control s))).

(** [Serialize] of a plugin's configuration. *)
Definition plugin_json (p : PluginConfig) : value :=
  JObj [("type", JStr (pl_type p)); ("unix_path", json_opt JStr (pl_unix_path p));
        ("local_path", json_opt JStr (pl_local_path p)); ("strip_prefix", json_opt JStr (pl_strip_prefix p));
        ("http_user", json_opt JStr (pl_http_user p)); ("http_password", json_opt JStr (pl_http_password p));
        ("username", json_opt JStr (pl_username p)); ("password", json_opt JStr (pl_password p));
        ("local_addr", json_opt JStr (pl_local_addr p)); ("crt_path", json_opt JStr (pl_crt_path p));
        ("key_path", json_opt JStr (pl_key_path p));
        ("host_header_rewrite", json_opt JStr (pl_host_header_rewrite p));
        ("request_headers", json_opt (fun o =>
           JObj [("set"%string, JObj (prod_map id JStr <$> map_to_list (ho_set o)))]) (pl_request_headers p))]%string.

Definition proxy_row s (p : ProxyConfig) : value :=
  let '(traffic_in, traffic_out) := default (0, 0) (stat_totals <$> get_proxy_stat (api_metrics s) (px_name p)) in
  JObj [("name", JStr (px_name p)); ("type", JStr (px_type p)); ("local_ip", JStr (px_local_ip p));
        ("local_port", JInt (px_local_port p)); ("remote_port", json_opt JInt (px_remote_port p));
        ("plugin", json_opt plugin_json (px_plugin p));
        ("client", JStr (proxy_owner s (px_name p)).1);
        ("traffic_in", JInt traffic_in); ("traffic_out", JInt traffic_out)]%string.
Definition proxies_handler s : response := ok_json (JArr (proxy_row s <$> proxy_values s)).

(** ** The routes ([create_routes]) *)
Inductive endpoint :=
| Health | Metrics | Controllers | ServerInfo | Clients (q : query) | ClientDetail (key : string)
| ProxyByType (proxy_type : string) | ProxyByTypeAndName (proxy_type name : string)
| Proxies | DeleteProxies (q : query) | ProxyByName (name : string) | Traffic (name : string)
| V2Users (q : query) | V2SystemInfo | V2SystemPrune (q : query) | V2Clients (q : query)
| V2ClientDetail (key : string) | V2Proxies (q : query) | V2ProxyDetail (name : string)
| V2ProxyTraffic (name : string).

Definition api_call s (e : endpoint) (now ts : Z) : response * ApiServer :=
  match e with
  | Health => (health_handler ts, s)
  | Metrics => (metrics_handler s now, s)
  | Controllers => (controllers_handler s now, s)
  | ServerInfo => (serverinfo_handler s now, s)
  | Clients q => (clients_handler s q now ts, s)
  | ClientDetail key => (client_detail_handler s key now ts, s)
  | ProxyByType t => (proxy_by_type_handler s t ts, s)
  | ProxyByTypeAndName t name => (proxy_by_type_and_name_handler s t name ts, s)
  | Proxies => (proxies_handler s, s)
  | DeleteProxies q => delete_proxies_handler s q
  | ProxyByName name => (proxy_by_name_handler s name ts, s)
  | Traffic name => (proxy_traffic_handler s name, s)
  | V2Users q => (v2_users_handler s q ts, s)
  | V2SystemInfo => (v2_system_info_handler s now, s)
  | V2SystemPrune q => v2_system_prune_handler s q
  | V2Clients q => (v2_clients_handler s q now ts, s)
  | V2ClientDetail key => (v2_client_detail_handler s key now ts, s)
  | V2Proxies q => (v2_proxies_handler s q ts, s)
  | V2ProxyDetail name => (v2_proxy_detail_handler s name ts, s)
  | V2ProxyTraffic name => (v2_proxy_traffic_handler s name, s)
  end.
End Api.

(** ** Pages *)
Definition ulen_ok {A} (l : list A) : Prop := zlen l < 2 ^ 63.

Lemma paginate_spec {A} (l : list A) k ps : 1 <= k -> 1 <= ps -> k * ps < 2 ^ 63 ->
  paginate l k ps = take (Z.to_nat ps) (drop (Z.to_nat ((k - 1) * ps)) l).
Proof.
  intros Hk Hp Ho. assert (0 <= (k - 1) * ps <= k * ps) by nia.
  unfold paginate. rewrite wrap_u64_small by lia. case_decide as Hs.
  - rewrite drop_ge; [by rewrite take_nil|]. unfold zlen in Hs. lia.
  - rewrite wrap_u64_small by lia. set (d := Z.to_nat ((k - 1) * ps)).
    destruct (decide ((k - 1) * ps + ps <= zlen l)).
    + f_equal. lia.
    + rewrite Z.min_r by lia. rewrite !take_ge; [done|..]; rewrite length_drop; unfold zlen in *; lia.
Qed.

Lemma take_pages {A} (l : list A) (ps n : nat) :
  concat ((fun k => take ps (drop (k * ps) l)) <$> seq 0 n) = take (n * ps) l.
Proof.
  induction n as [|n IH]; [done|]. rewrite seq_S, fmap_app, concat_app, IH. simpl. rewrite app_nil_r.
  replace (ps + n * ps)%nat with (n * ps + ps)%nat by lia. apply take_take_drop.
Qed.

(** The pages 1, 2, … n laid end to end. *)
Lemma pages_concat {A} (l : list A) ps n : 1 <= ps -> Z.of_nat n * ps < 2 ^ 63 ->
  zlen l <= Z.of_nat n * ps ->
  concat ((fun k => paginate l (Z.of_nat k + 1) ps) <$> seq 0 n) = l.
Proof.
  intros Hp Ho Hl. transitivity (take (n * Z.to_nat ps) l); cycle 1.
  { apply take_ge. unfold zlen in Hl. lia. }
  rewrite <- take_pages. f_equal. apply list_fmap_ext. intros i k Hk.
  apply lookup_seq in Hk as [-> Hi]. rewrite paginate_spec by nia. do 2 f_equal. lia.
Qed.

(** The rows of one page of a v2 list. *)
Definition page_items (r : response) : list value :=
  default [] (data ← get "data" (body r); items ← get "items" data; as_array items).

Lemma dec_positive z : 1 <= z < 2 ^ 64 -> forall def name,
  parse_positive (Some (dec z)) def name = Ok z.
Proof.
  intros Hz def name. unfold parse_positive, dec, pretty, pretty_Z.
  destruct z as [|p|p]; [lia| |lia].
  destruct (pretty_N_spec (Npos p)) as (x & Hx & Hd & Hv & Hne & _).
  change (pretty p) with (pretty (Npos p)). rewrite Hx.
  rewrite (proj2 (is_empty_false x)) by done.
  rewrite (parse_unsigned_digits 64 x _ Hd Hne Hv) by lia. by rewrite decide_True by lia.
Qed.

Lemma parse_v2_page_at q k ps : 1 <= k < 2 ^ 64 -> 1 <= ps <= MAX_V2_PAGE_SIZE ->
  q !! "page"%string = Some (dec k) -> q !! "pageSize"%string = Some (dec ps) ->
  parse_v2_page q = Ok (k, ps).
Proof.
  intros Hk Hp Eq1 Eq2. unfold parse_v2_page, MAX_V2_PAGE_SIZE in *.
  rewrite Eq1, Eq2, !dec_positive by lia. simpl. by rewrite decide_False by (simpl; lia).
Qed.

Lemma page_items_body rows k ps : page_items (v2_ok (v2_page_body rows k ps)) = paginate rows k ps.
Proof. done. Qed.

Section Clients.
Context {Chan Auth Signal : Type} `{HashIter} `{Lowercase} (b64 : string -> string).
Implicit Types (s : ApiServer (Chan := Chan) (Auth := Auth) (Signal := Signal)).

(** The same filters, as v1 and as v2 spell them. *)
Definition v1_client_query (user client_id run_id status : string) : query :=
  {["user" := user; "clientId" := client_id; "runId" := run_id; "status" := status]}%string.
Definition v2_client_query (user client_id run_id status : string) (page page_size : Z) : query :=
  {["user" := user; "clientID" := client_id; "runID" := run_id; "status" := status;
    "page" := dec page; "pageSize" := dec page_size]}%string.

(** The rows of [/api/clients]. *)
Definition v1_client_rows s (user client_id run_id status : string) (now ts : Z) : list value :=
  sort_by_key by_user_and_client (build_client_resp b64 now ts <$>
    filter (fun c => client_selected user client_id run_id (to_lowercase status) c = true)
      (get_all_clients (api_control s))).

Lemma clients_handler_rows s user client_id run_id status now ts :
  body (clients_handler b64 s (v1_client_query user client_id run_id status) now ts) =
  JArr (v1_client_rows s user client_id run_id status now ts).
Proof. done. Qed.

Lemma v2_rows_are_v1_rows s user client_id run_id status k ps now ts :
  v2_client_rows b64 s (v2_client_query user client_id run_id status k ps) (to_lowercase status) now ts =
  v1_client_rows s user client_id run_id status now ts.
Proof.
  unfold v2_client_rows, v1_client_rows, param, lower_param. do 2 f_equal.
  rewrite list_filter_filter. apply list_filter_iff. intros c.
  unfold client_matches. cbn. naive_solver.
Qed.

Lemma length_v1_client_rows s user client_id run_id status now ts :
  zlen (v1_client_rows s user client_id run_id status now ts) <= zlen (get_all_clients (api_control s)).
Proof.
  unfold v1_client_rows, sort_by_key, zlen. rewrite stable_sort_perm, length_fmap.
  apply Nat2Z.inj_le, length_filter.
Qed.

Lemma v2_clients_page s user client_id run_id status k ps now ts :
  1 <= k < 2 ^ 64 -> 1 <= ps <= MAX_V2_PAGE_SIZE ->
  to_lowercase status ∈ [EmptyString; "all"; "online"; "offline"]%string ->
  page_items (v2_clients_handler b64 s (v2_client_query user client_id run_id status k ps) now ts) =
  paginate (v1_client_rows s user client_id run_id status now ts) k ps.
Proof.
  intros Hk Hps Hst. unfold v2_clients_handler. rewrite (parse_v2_page_at _ k ps) by done.
  cbn [mbind result_bind]. unfold parse_v2_status.
  change (v2_client_query _ _ _ _ _ _ !! "status"%string) with (Some status).
  cbn [fmap option_fmap option_map default]. rewrite decide_True by done. rewrite <- (v2_rows_are_v1_rows _ _ _ _ _ k ps). reflexivity.
Qed.

(** the v2 client list is the v1 list cut into pages: with the same
    filters, for any page size from 1 to 200 and enough pages to hold every
    client, the pages 1, 2, ... n laid end to end are exactly the array
    [/api/clients] answers with; no client is lost, repeated or reordered. *)
Theorem client_pages_agree s user client_id run_id status ps n now ts :
  1 <= ps <= MAX_V2_PAGE_SIZE ->
  zlen (get_all_clients (api_control s)) <= Z.of_nat n * ps < 2 ^ 63 ->
  to_lowercase status ∈ [EmptyString; "all"; "online"; "offline"]%string ->
  body (clients_handler b64 s (v1_client_query user client_id run_id status) now ts) =
  JArr (concat ((fun k => page_items (v2_clients_handler b64 s
    (v2_client_query user client_id run_id status (Z.of_nat k + 1) ps) now ts)) <$> seq 0 n)).
Proof.
  intros Hps Hn Hst. rewrite clients_handler_rows. f_equal.
  pose proof (length_v1_client_rows s user client_id run_id status now ts).
  rewrite <- (pages_concat (v1_client_rows s user client_id run_id status now ts) ps n) at 1 by lia.
  f_equal. apply list_fmap_ext. intros i k Hk. apply lookup_seq in Hk as [-> Hi].
  by rewrite v2_clients_page by first [done | nia].
Qed.
End Clients.

(** ** Finding a proxy *)
Lemma find_unique {A} (P : A -> Prop) `{!forall x, Decision (P x)} (l : list A) x :
  x ∈ l -> P x -> (forall y, y ∈ l -> P y -> y = x) -> snd <$> list_find P l = Some x.
Proof.
  intros Hx HP Hu. destruct (list_find P l) as [[i y]|] eqn:E; simpl.
  - apply list_find_Some in E as (Hl & Hy & _). apply list_elem_of_lookup_2 in Hl. f_equal. auto.
  - apply list_find_None in E. rewrite Forall_forall in E. by destruct (E x Hx).
Qed.

Lemma find_none {A} (P : A -> Prop) `{!forall x, Decision (P x)} (l : list A) :
  (forall y, y ∈ l -> ~ P y) -> snd <$> list_find P l = None.
Proof.
  intros Hu. destruct (list_find P l) as [[i y]|] eqn:E; [|done].
  apply list_find_Some in E as (Hl & Hy & _). apply list_elem_of_lookup_2 in Hl. by destruct (Hu y Hl).
Qed.

(** [iter.map(|c| (key, value)).collect::<HashMap>()] of entries with distinct keys. *)
Lemma collect_other {A V} (key : A -> string) (val : A -> V) (l : list A) k m :
  (forall x, x ∈ l -> key x <> k) ->
  foldl (fun m x => <[key x := val x]> m) m l !! k = (m : gmap string V) !! k.
Proof.
  revert m; induction l as [|x l IH]; intros m Hu; simpl; [done|].
  rewrite IH by set_solver. apply lookup_insert_ne. apply Hu. by left.
Qed.

Lemma collect_lookup {A V} (key : A -> string) (val : A -> V) (l : list A) c m :
  c ∈ l -> (forall x, x ∈ l -> key x = key c -> x = c) ->
  foldl (fun m x => <[key x := val x]> m) (m : gmap string V) l !! key c = Some (val c).
Proof.
  revert m; induction l as [|x l IH] using rev_ind; intros m Hc Hu; [by apply not_elem_of_nil in Hc|].
  rewrite foldl_app. simpl. destruct (decide (key x = key c)) as [E|E].
  - rewrite (Hu x) by (set_solver || done). apply lookup_insert_eq.
  - rewrite lookup_insert_ne by done. apply IH; [|set_solver].
    apply elem_of_app in Hc as [?|Hc%list_elem_of_singleton]; [done|by subst].
Qed.

Section Proxies.
Context {Chan Auth Signal : Type} `{HashIterLaws} `{Lowercase}
  (offset_secs_at : Z -> Z).
Implicit Types (s : ApiServer (Chan := Chan) (Auth := Auth) (Signal := Signal)).

(** What registering, closing and logging in establish: each table is keyed by
    its entries' own names, and a closed proxy is kept once and is not online. *)
Record api_wf s : Prop := {
  aw_proxies : map_Forall (fun name p => px_name p = name) (api_proxies s);
  aw_clients : map_Forall (fun id c => ci_run_id c = id) (clients (api_control s));
  aw_closed : NoDup (cp_name <$> closed_proxies (api_metrics s));
  aw_offline : forall c, c ∈ closed_proxies (api_metrics s) -> api_proxies s !! cp_name c = None;
}.

Lemma elem_hash_values {A} (m : gmap string A) x :
  x ∈ (snd <$> hash_iter m) <-> exists k, m !! k = Some x.
Proof.
  rewrite hash_iter_perm, list_elem_of_fmap. split.
  - intros ([k y] & -> & Hk%elem_of_map_to_list). by exists k.
  - intros [k Hk]. exists (k, x). by rewrite elem_of_map_to_list.
Qed.

Lemma elem_rows s ts v : v ∈ collect_all_proxy_stats offset_secs_at s ts <->
  (exists name p, api_proxies s !! name = Some p /\ v = online_row offset_secs_at s ts p) \/
  (exists c, c ∈ closed_proxies (api_metrics s) /\ v = build_closed_proxy_stats offset_secs_at c).
Proof.
  unfold collect_all_proxy_stats, sort_by_key, list_closed_proxies, proxy_values.
  rewrite stable_sort_perm, elem_of_app, !list_elem_of_fmap. setoid_rewrite elem_hash_values.
  setoid_rewrite stable_sort_perm. naive_solver.
Qed.

Lemma online_row_name s ts p : get_str "name" (online_row offset_secs_at s ts p) = Some (px_name p).
Proof. unfold online_row, build_proxy_stats. destruct (proxy_owner _ _). by destruct (get_proxy_stat _ _). Qed.

Lemma find_name s ts name : api_wf s ->
  find_row offset_secs_at (fun v => get_str "name" v = Some name) s ts =
  match api_proxies s !! name with
  | Some p => Some (online_row offset_secs_at s ts p)
  | None => (fun x => build_closed_proxy_stats offset_secs_at x.2) <$>
              list_find (fun c => cp_name c = name) (closed_proxies (api_metrics s))
  end.
Proof.
  intros W. unfold find_row. destruct (api_proxies s !! name) as [p|] eqn:Ep.
  - apply find_unique.
    + apply elem_rows. left. eauto.
    + rewrite online_row_name. f_equal. by apply W.
    + intros y [(n & p' & E & ->)|(c & Hc & ->)]%elem_rows.
      * rewrite online_row_name. intros [= E']. assert (px_name p' = n) as <- by (by apply W).
        rewrite E' in E. congruence.
      * intros [= E']. pose proof (aw_offline s W c Hc). congruence.
  - destruct (list_find _ (closed_proxies _)) as [[i c]|] eqn:El; simpl.
    + apply list_find_Some in El as (Hl & Hn & _). apply find_unique.
      * apply elem_rows. right. exists c. split; [by eapply list_elem_of_lookup_2|done].
      * change (Some (cp_name c) = Some name). by rewrite Hn.
      * intros y [(n & p' & E & ->)|(c' & Hc & ->)]%elem_rows.
        -- rewrite online_row_name. intros [= E']. assert (px_name p' = n) as <- by (by apply W). congruence.
        -- intros [= E']. f_equal. apply list_elem_of_lookup_1 in Hc as [j Hj].
           assert (i = j) as ->; [|congruence].
           eapply (NoDup_lookup _ i j (cp_name c) (aw_closed s W)); rewrite list_lookup_fmap; [by rewrite Hl|].
           rewrite Hj. simpl. congruence.
    + apply list_find_None in El. rewrite Forall_forall in El. apply find_none.
      intros y [(n & p' & E & ->)|(c & Hc & ->)]%elem_rows.
      * rewrite online_row_name. intros [= E']. assert (px_name p' = n) as <- by (by apply W). congruence.
      * intros [= E']. by apply (El c Hc).
Qed.

Context (b64 : string -> string) (pkg_version : string).
Local Notation call s e now ts := (api_call b64 offset_secs_at pkg_version s e now ts).

(** The client a proxy is shown under: the one online under the owner's run id. *)
Lemma proxy_owner_spec s name : api_wf s ->
  proxy_owner s name =
  match (run_id ← api_owners s !! name; clients (api_control s) !! run_id) with
  | Some c => (ci_client_id c, ci_user c)
  | None => ("-", "-")%string
  end.
Proof.
  intros W. unfold proxy_owner. destruct (api_owners s !! name) as [run_id|]; [|done]. simpl.
  unfold client_map, get_clients. destruct (clients (api_control s) !! run_id) as [c|] eqn:E.
  - assert (ci_run_id c = run_id) as <- by (by apply (aw_clients s W)).
    rewrite (collect_lookup ci_run_id (fun c => (ci_client_id c, ci_user c))); [done| |].
    + apply elem_hash_values. eauto.
    + intros x [k Hk]%elem_hash_values Ex. pose proof (aw_clients s W _ _ Hk). simpl in *. congruence.
  - rewrite (collect_other ci_run_id (fun c => (ci_client_id c, ci_user c))); [done|].
    intros x [k Hk]%elem_hash_values Ex. pose proof (aw_clients s W _ _ Hk). simpl in *. congruence.
Qed.

(** what [/api/proxies/{name}] answers: the row of the registered proxy of
    that name, under the client whose session owns it; otherwise the row of the
    closed proxy of that name; otherwise 404.  Neither the order the tables are
    walked in nor the sorting of the rows matters. *)
Theorem proxy_found s name now ts : api_wf s ->
  (call s (ProxyByName name) now ts).1 =
  match api_proxies s !! name with
  | Some p =>
      ok_json (match (run_id ← api_owners s !! name; clients (api_control s) !! run_id) with
               | Some c => build_proxy_stats offset_secs_at s ts p (ci_client_id c) (ci_user c)
               | None => build_proxy_stats offset_secs_at s ts p "-" "-"
               end)
  | None =>
      match list_find (fun c => cp_name c = name) (closed_proxies (api_metrics s)) with
      | Some (_, c) => ok_json (build_closed_proxy_stats offset_secs_at c)
      | None => v1_error 404 "no proxy info found"
      end
  end.
Proof.
  intros W. cbn [api_call fst]. unfold proxy_by_name_handler. rewrite find_name by done.
  destruct (api_proxies s !! name) as [p|] eqn:Ep; [|by destruct (list_find _ _) as [[i c]|]].
  f_equal. unfold online_row. assert (px_name p = name) as -> by (by apply W).
  rewrite proxy_owner_spec by done. by destruct (_ ≫= _).
Qed.

(** no request touches what is live: the registered proxies, their owners,
    the sessions and the traffic counters stay as they are, whatever the
    request; only the two histories can become empty, by the requests that say
    so. *)
Theorem api_never_touches_sessions s e now ts :
  let s' := (call s e now ts).2 in
  api_config s' = api_config s /\ api_proxies s' = api_proxies s /\ api_owners s' = api_owners s /\
  proxy_stats (api_metrics s') = proxy_stats (api_metrics s) /\ heap (api_metrics s') = heap (api_metrics s) /\
  counters (api_metrics s') = counters (api_metrics s) /\
  clients (api_control s') = clients (api_control s) /\
  msg_channels (api_control s') = msg_channels (api_control s) /\
  auth_managers (api_control s') = auth_managers (api_control s) /\
  kick_signals (api_control s') = kick_signals (api_control s) /\
  (closed_proxies (api_metrics s') = closed_proxies (api_metrics s) \/
   closed_proxies (api_metrics s') = [] /\
     ((exists q, e = DeleteProxies q /\ q !! "status"%string = Some "offline"%string) \/
      (exists q, e = V2SystemPrune q /\ lower_param q "type" = "offline_proxies"%string))) /\
  (offline_clients (api_control s') = offline_clients (api_control s) \/
   offline_clients (api_control s') = [] /\
     exists q, e = V2SystemPrune q /\ lower_param q "type" = "clients"%string).
Proof.
  destruct e; try (cbn; by split_and!; auto).
  - cbn [api_call]. unfold delete_proxies_handler. case_decide; cbn; split_and!; eauto 8.
  - cbn [api_call]. unfold v2_system_prune_handler. repeat case_decide; cbn; split_and!; eauto 8.
Qed.

(** Forgetting the closed proxies leaves exactly the registered ones. *)
Lemma history_forgotten s q name now ts : api_wf s -> q !! "status"%string = Some "offline"%string ->
  let s' := (call s (DeleteProxies q) now ts).2 in
  (call s' (ProxyByName name) now ts).1 =
  match api_proxies s !! name with
  | Some p => ok_json (online_row offset_secs_at s ts p)
  | None => v1_error 404 "no proxy info found"
  end.
Proof.
  intros W Hq s'. assert (s' = with_api_metrics s (with_closed (api_metrics s) [])) as Hs'.
  { unfold s'. cbn [api_call]. unfold delete_proxies_handler. by rewrite decide_True. }
  assert (api_wf s') as W'.
  { rewrite Hs'. split; [apply W|apply W|apply NoDup_nil_2|]. intros c Hc. by apply not_elem_of_nil in Hc. }
  cbn [api_call fst]. unfold proxy_by_name_handler. rewrite find_name by done.
  replace (api_proxies s') with (api_proxies s) by (by rewrite Hs'). rewrite Hs'.
  by destruct (api_proxies s !! name).
Qed.

(** The dashboard's list publishes the plugin's password. *)
Lemma plugin_password_published s name p pl pw : api_proxies s !! name = Some p ->
  px_plugin p = Some pl -> pl_http_password pl = Some pw ->
  exists rows row plugin, body (proxies_handler s) = JArr rows /\ row ∈ rows /\
    get "plugin" row = Some plugin /\ get_str "http_password" plugin = Some pw.
Proof.
  intros Hp Hpl Hpw. exists (proxy_row s <$> proxy_values s), (proxy_row s p), (plugin_json pl).
  split_and!; [done| | |].
  - apply list_elem_of_fmap_2, elem_hash_values. eauto.
  - unfold proxy_row. destruct (default _ _). cbn. by rewrite Hpl.
  - cbn. by rewrite Hpw.
Qed.
End Proxies.

(** A page number beyond the address space shows the first page again. *)
Lemma huge_page_is_first_page {A} (l : list A) : zlen l < 2 ^ 63 ->
  paginate l (2 ^ 63 + 1) 2 = paginate l 1 2.
Proof.
  intros Hl. unfold paginate.
  replace (wrap_u64 ((2 ^ 63 + 1 - 1) * 2)) with (wrap_u64 ((1 - 1) * 2)); [done|by vm_compute].
Qed.

(** "curConns" of a client's detail is the age of its session in seconds. *)
Lemma client_connections_are_seconds {Chan Auth Signal} `{HashIter} b64
    (s : ApiServer (Chan := Chan) (Auth := Auth) (Signal := Signal)) key now ts info :
  get_client_by_key b64 (api_control s) key = Some info ->
  (data ← get "data" (body (v2_client_detail_handler b64 s key now ts));
   status ← get "status" data; get_i64 "curConns" status) =
  as_i64 (JInt (elapsed_secs now (connected_at info))).
Proof. intros E. unfold v2_client_detail_handler. rewrite E. done. Qed.

(** ** Runs *)
Definition demo_client (run_id client_id user : string) : ClientRegistration :=
  {| cr_run_id := run_id; cr_client_id := client_id; cr_user := user; cr_version := "0.1.0";
     cr_hostname := "host-a"; cr_client_ip := "10.0.0.7"; cr_wire_protocol := "v1"; cr_cert_fingerprint := None |}.
Definition demo_proxy (name : string) : ProxyConfig :=
  {| px_name := name; px_type := "tcp"; px_local_ip := "127.0.0.1"; px_local_port := 8080;
     px_remote_port := Some 9001; px_custom_domains := None; px_subdomain := None; px_locations := None;
     px_host_header_rewrite := None; px_http_user := None; px_http_password := None;
     px_health_check := None; px_bandwidth_limit := None; px_secret_key := None; px_transport := None;
     px_plugin := None; px_proxy_protocol := None; px_proxy_protocol_version := None; px_group := None;
     px_group_key := None; px_use_encryption := true; px_use_compression := false; px_multiplexer := None;
     px_route_by_http_user := None; px_allow_users := None |}.
Definition demo_closed (name : string) : ClosedProxyInfo :=
  {| cp_name := name; cp_type := "tcp"; cp_user := "bob"; cp_client_id := "cli-2"; cp_remote_port := Some 9002;
     last_start_time := 100; last_close_time := 200; traffic_in := 5; traffic_out := 6 |}.

(** Three clients, one of them gone; "ssh" online and "old" closed. *)
Definition demo_api : ApiServer (Chan := nat) (Auth := nat) (Signal := nat) :=
  let m := record_proxy_closed (metrics_new 0) (demo_closed "old") in
  let c := add_client (add_client (add_client (cm_new : ControlManager nat nat nat)
             (demo_client "r1" "cli-1" "alice") (secs 1) 1) (demo_client "r2" "cli-2" "bob") (secs 2) 2)
             (demo_client "r3" "cli-3" "alice") (secs 3) 3 in
  {| api_config := default_server; api_metrics := (register_proxy_stat m 50 "ssh" "tcp" (Some 9001)).2;
     api_control := remove c "r2" 9; api_proxies := {["ssh"%string := demo_proxy "ssh"]};
     api_owners := {["ssh"%string := "r1"%string]} |}.

Lemma client_pages_agree_witness :
  body (@clients_handler nat nat nat map_order ascii_case id demo_api
    (v1_client_query "" "" "" "ALL") (secs 10) 10) =
  JArr (concat ((fun k => page_items (@v2_clients_handler nat nat nat map_order ascii_case id demo_api
    (v2_client_query "" "" "" "ALL" (Z.of_nat k + 1) 2) (secs 10) 10)) <$> seq 0 2)).
Proof.
  apply (@client_pages_agree nat nat nat map_order ascii_case id demo_api "" "" "" "ALL" 2 2).
  - vm_compute. split; discriminate.
  - vm_compute. split; [discriminate|reflexivity].
  - vm_compute. apply list_elem_of_In. simpl. tauto.
Defined.

Lemma proxy_found_witness :
  (@api_call nat nat nat map_order ascii_case id (fun _ => 0) "1.0" demo_api (ProxyByName "ssh") 0 7).1 =
  ok_json (@build_proxy_stats nat nat nat (fun _ => 0) demo_api 7 (demo_proxy "ssh") "cli-1" "alice") /\
  (@api_call nat nat nat map_order ascii_case id (fun _ => 0) "1.0" demo_api (ProxyByName "none") 0 7).1.(status) = 404.
Proof.
  assert (api_wf demo_api) as W.
  { split.
    - intros n p. cbn [demo_api api_proxies]. intros [<- <-]%lookup_singleton_Some. reflexivity.
    - apply map_Forall_to_list. vm_compute. repeat constructor.
    - vm_compute. repeat constructor. by apply not_elem_of_nil.
    - intros c Hc. vm_compute in Hc. apply list_elem_of_In in Hc as [<-|[]]. vm_compute. reflexivity. }
  split.
  - etransitivity; [apply (@proxy_found nat nat nat map_order map_order_laws ascii_case (fun _ => 0) id "1.0" demo_api "ssh" 0 7 W)|].
    vm_compute. reflexivity.
  - rewrite (@proxy_found nat nat nat map_order map_order_laws ascii_case (fun _ => 0) id "1.0" demo_api "none" 0 7 W).
    vm_compute. reflexivity.
Defined.
