(* ===== verification/ConnPool.v ===== *)
(** * Connection pools (src/rust_frp_net/src/pool.rs, [ConnManager]'s TCP part in
    src/rust_frp_net/src/lib.rs)

    A pool hands out idle connections, newest first, and makes a new one when it
    has none; callers put them back.  Several callers run at once: a [get] holds a
    semaphore permit while it runs, the list of idle connections has a lock, and
    [cleanup] reports its numbers after it has released that lock.  So an
    operation is one or two atomic sections, and an execution is a sequence of
    sections with the connections that are out and the calls that are under way
    as ghost state.  A connection is a handle; what [connect] returns, whether a
    handle is healthy, and the clock are arguments.  Counters are 64-bit; a build
    without overflow checks wraps them. *)
From S2P Require Import Prelude.

Record PoolConfig := {
  max_size : nat;
  connection_timeout : Z;
  max_idle_time : Z;
  max_lifetime : Z;
  health_check : bool;
  health_check_interval : Z;
}.

Definition default_pool_config : PoolConfig :=
  {| max_size := 10; connection_timeout := secs 5; max_idle_time := secs 300;
     max_lifetime := secs 3600; health_check := true; health_check_interval := secs 30 |}.

(** [conn] is the handle of the TCP stream. *)
Record PooledConn := {
  conn : nat;
  created_at : Z;
  last_used_at : Z;
  use_count : Z;
}.

Definition pooled_new (c : nat) (now : Z) : PooledConn :=
  {| conn := c; created_at := now; last_used_at := now; use_count := 0 |}.

Definition is_expired (idle lifetime now : Z) (c : PooledConn) : bool :=
  bool_decide (idle < duration_since now (last_used_at c)) ||
  bool_decide (lifetime < duration_since now (created_at c)).

Definition mark_used (now : Z) (c : PooledConn) : PooledConn :=
  {| conn := conn c; created_at := created_at c; last_used_at := now;
     use_count := wrap_u64 (use_count c + 1) |}.

(** [is_healthy]: an empty write succeeds or would block. *)
Inductive try_write := Written | WouldBlock | WriteFailed.
Definition is_healthy (w : try_write) : bool :=
  match w with Written | WouldBlock => true | WriteFailed => false end.

Record PoolStats := Stats {
  total_created : Z;
  total_reused : Z;
  total_closed : Z;
  total_failed : Z;
  current_idle : Z;
  current_in_use : Z;
}.
Definition stats_new : PoolStats := Stats 0 0 0 0 0 0.

(** The updates the operations make. *)
Definition add_closed (n : Z) (s : PoolStats) : PoolStats :=
  Stats (total_created s) (total_reused s) (wrap_u64 (total_closed s + n)) (total_failed s)
    (current_idle s) (current_in_use s).
Definition set_idle (n : Z) (s : PoolStats) : PoolStats :=
  Stats (total_created s) (total_reused s) (total_closed s) (total_failed s) n (current_in_use s).
Definition add_in_use (d : Z) (s : PoolStats) : PoolStats :=
  Stats (total_created s) (total_reused s) (total_closed s) (total_failed s) (current_idle s)
    (wrap_u64 (current_in_use s + d)).
Definition add_reused (s : PoolStats) : PoolStats :=
  Stats (total_created s) (wrap_u64 (total_reused s + 1)) (total_closed s) (total_failed s)
    (current_idle s) (current_in_use s).
Definition add_created (s : PoolStats) : PoolStats :=
  Stats (wrap_u64 (total_created s + 1)) (total_reused s) (total_closed s) (total_failed s)
    (current_idle s) (current_in_use s).

(** [connections] in the order of the [Vec]; [permits] are those left. *)
Record ConnPool := Pool {
  pool_config : PoolConfig;
  connections : list PooledConn;
  permits : nat;
  stats : PoolStats;
}.

Definition pool_new (c : PoolConfig) : ConnPool := Pool c [] (max_size c) stats_new.

Definition with_idle_conns (l : list PooledConn) (p : ConnPool) : ConnPool :=
  Pool (pool_config p) l (permits p) (stats p).
Definition with_permits (n : nat) (p : ConnPool) : ConnPool :=
  Pool (pool_config p) (connections p) n (stats p).
Definition update_stats (f : PoolStats -> PoolStats) (p : ConnPool) : ConnPool :=
  Pool (pool_config p) (connections p) (permits p) (f (stats p)).

Definition expired (p : ConnPool) (now : Z) (c : PooledConn) : bool :=
  is_expired (max_idle_time (pool_config p)) (max_lifetime (pool_config p)) now c.

Section pool.
Context (probe : PooledConn -> try_write).

(** Not usable any more: too old, or found broken when that is checked. *)
Definition unusable (cfg : PoolConfig) (now : Z) (c : PooledConn) : bool :=
  is_expired (max_idle_time cfg) (max_lifetime cfg) now c || (health_check cfg && negb (is_healthy (probe c))).

(** The [while let Some(conn) = connections.pop()] loop over the list read from
    its end; it returns what is left and how many were closed. *)
Fixpoint pop_usable (cfg : PoolConfig) (now : Z) (rev_conns : list PooledConn)
  : option PooledConn * list PooledConn * Z :=
  match rev_conns with
  | [] => (None, [], 0)
  | c :: rest =>
      if unusable cfg now c then
        let '(r, kept, closed) := pop_usable cfg now rest in (r, kept, closed + 1)
      else (Some (mark_used now c), rest, 0)
  end.

(** [get] up to the connect: with a permit, the newest usable connection; [None]
    means a connection has to be made. *)
Definition get_idle (now : Z) (p : ConnPool) : option PooledConn * ConnPool :=
  let '(r, kept, closed) := pop_usable (pool_config p) now (rev (connections p)) in
  let p := update_stats (add_closed closed) (with_idle_conns (rev kept) p) in
  match r with
  | Some c =>
      (Some c, update_stats (fun s => set_idle (zlen kept) (add_in_use 1 (add_reused s))) p)
  | None => (None, p)
  end.

(** [put]; the pool is full at [max_size] idle connections. *)
Definition put (c : PooledConn) (p : ConnPool) : ConnPool :=
  if health_check (pool_config p) && negb (is_healthy (probe c)) then
    update_stats (fun s => add_in_use (-1) (add_closed 1 s)) p
  else if decide (max_size (pool_config p) <= length (connections p))%nat then
    update_stats (fun s => add_in_use (-1) (add_closed 1 s)) p
  else
    let l := connections p ++ [c] in
    update_stats (fun s => set_idle (zlen l) (add_in_use (-1) s)) (with_idle_conns l p).
End pool.

(** [get] after the connect: [None] is a timeout or an error. *)
Definition connected (c : option nat) (now : Z) (p : ConnPool) : option PooledConn * ConnPool :=
  match c with
  | Some c => (Some (pooled_new c now), update_stats (fun s => add_in_use 1 (add_created s)) p)
  | None => (None, p)
  end.

(** [cleanup] under the lock: what it counted at [t1] and what is left at [t2];
    [None] when nothing was removed. *)
Definition cleanup_scan (t1 t2 : Z) (p : ConnPool) : option (Z * Z) * ConnPool :=
  let expired_count := zlen (filter (fun c => expired p t1 c = true) (connections p)) in
  let kept := filter (fun c => expired p t2 c = false) (connections p) in
  (if decide (length kept = length (connections p)) then None else Some (expired_count, zlen kept),
   with_idle_conns kept p).
(** Its report, after the lock. *)
Definition cleanup_report (r : Z * Z) (p : ConnPool) : ConnPool :=
  update_stats (fun s => set_idle r.2 (add_closed r.1 s)) p.

Definition close_all (p : ConnPool) : ConnPool :=
  update_stats (fun s => set_idle 0 (add_closed (zlen (connections p)) s)) (with_idle_conns [] p).

(** ** Executions

    [out]: the connections callers hold; [connecting]: the [get]s that wait for a
    new connection, each with a permit; [reports]: the [cleanup]s that have not
    reported yet; [made]: every handle there ever was. *)
Record run := Run {
  the_pool : ConnPool;
  out : list PooledConn;
  connecting : nat;
  reports : list (Z * Z);
  made : gset nat;
}.
Definition run_new (cfg : PoolConfig) : run := Run (pool_new cfg) [] 0 [] ∅.

Inductive pool_step : run -> run -> Prop :=
| step_reuse probe now p o k rs m c p' :
    (0 < permits p)%nat -> get_idle probe now p = (Some c, p') ->
    pool_step (Run p o k rs m) (Run p' (c :: o) k rs m)
| step_miss probe now p o k rs m p' :
    (0 < permits p)%nat -> get_idle probe now p = (None, p') ->
    pool_step (Run p o k rs m) (Run (with_permits (pred (permits p)) p') o (S k) rs m)
| step_connected now p o k rs m h c p' :
    h ∉ m -> connected (Some h) now p = (Some c, p') ->
    pool_step (Run p o (S k) rs m) (Run (with_permits (S (permits p)) p') (c :: o) k rs ({[h]} ∪ m))
| step_not_connected p o k rs m :
    pool_step (Run p o (S k) rs m) (Run (with_permits (S (permits p)) p) o k rs m)
| step_put probe p o1 c o2 k rs m :
    pool_step (Run p (o1 ++ c :: o2) k rs m) (Run (put probe c p) (o1 ++ o2) k rs m)
| step_scan t1 t2 p o k rs m r p' :
    t1 <= t2 -> cleanup_scan t1 t2 p = (r, p') ->
    pool_step (Run p o k rs m) (Run p' o k (match r with Some r => r :: rs | None => rs end) m)
| step_report p o k rs1 r rs2 m :
    pool_step (Run p o k (rs1 ++ r :: rs2) m) (Run (cleanup_report r p) o k (rs1 ++ rs2) m)
| step_close_all p o k rs m :
    pool_step (Run p o k rs m) (Run (close_all p) o k rs m).

Definition pool_reachable (cfg : PoolConfig) (r : run) : Prop := rtc pool_step (run_new cfg) r.

(** Connections closed and not counted yet. *)
Definition unreported (r : run) : Z := foldr (fun x acc => x.1 + acc) 0 (reports r).

Definition handles (r : run) : list nat := conn <$> (connections (the_pool r) ++ out r).

Record run_inv (cfg : PoolConfig) (r : run) : Prop := {
  rn_config : pool_config (the_pool r) = cfg;
  rn_idle : (length (connections (the_pool r)) <= max_size cfg)%nat;
  rn_permits : (permits (the_pool r) + connecting r = max_size cfg)%nat;
  rn_distinct : NoDup (handles r);
  rn_made : forall h, h ∈ handles r -> h ∈ made r;
  rn_reports : Forall (fun x => 0 <= x.1) (reports r);
  rn_failed : total_failed (stats (the_pool r)) = 0;
  rn_closed : 0 <= total_closed (stats (the_pool r));
  rn_created : total_created (stats (the_pool r)) = Z.of_nat (size (made r));
  rn_in_use : current_in_use (stats (the_pool r)) = zlen (out r);
  rn_books : total_closed (stats (the_pool r)) + unreported r
    + zlen (connections (the_pool r)) + zlen (out r) <= Z.of_nat (size (made r));
}.

Lemma pop_usable_spec probe cfg now l r kept closed : pop_usable probe cfg now l = (r, kept, closed) ->
  exists bad, Forall (fun c => unusable probe cfg now c = true) bad /\ closed = zlen bad /\
    match r with
    | Some c => exists c0, l = bad ++ c0 :: kept /\ c = mark_used now c0 /\ unusable probe cfg now c0 = false
    | None => l = bad /\ kept = []
    end.
Proof.
  revert r kept closed; induction l as [|c l IH]; intros r kept closed; simpl.
  { intros [= <- <- <-]. exists []. auto. }
  destruct (unusable probe cfg now c) eqn:Er.
  - destruct (pop_usable probe cfg now l) as [[r' k'] n] eqn:E. intros [= <- <- <-].
    destruct (IH _ _ _ eq_refl) as (bad & Hb & -> & Hr). exists (c :: bad).
    split_and!; [by constructor|unfold zlen; simpl; lia|].
    destruct r'; [destruct Hr as (c0 & -> & ? & ?); by exists c0|by destruct Hr as [-> ->]].
  - intros [= <- <- <-]. exists []. split_and!; [done|done|]. by exists c.
Qed.

Lemma get_idle_spec probe now p r p' : get_idle probe now p = (r, p') ->
  exists kept bad, Forall (fun c => unusable probe (pool_config p) now c = true) bad /\
    pool_config p' = pool_config p /\ permits p' = permits p /\ connections p' = kept /\
    match r with
    | Some c => exists c0, connections p = kept ++ c0 :: bad /\ c = mark_used now c0 /\
        unusable probe (pool_config p) now c0 = false /\
        stats p' = set_idle (zlen kept) (add_in_use 1 (add_reused (add_closed (zlen bad) (stats p))))
    | None => connections p = bad /\ kept = [] /\ stats p' = add_closed (zlen bad) (stats p)
    end.
Proof.
  unfold get_idle. destruct (pop_usable _ _ _ _) as [[r0 kept] closed] eqn:E.
  apply pop_usable_spec in E as (bad & Hb & -> & Hr).
  destruct r0 as [c|]; intros [= <- <-]; exists (rev kept), (rev bad); simpl.
  - destruct Hr as (c0 & Hl & -> & Hc0). rewrite <- (rev_involutive (connections p)), Hl.
    split_and!; [by apply Forall_rev|done..|]. exists c0. unfold zlen. rewrite !length_rev.
    split_and!; [rewrite rev_app_distr; simpl; by rewrite <- app_assoc|done..].
  - destruct Hr as [Hl ->]. rewrite <- (rev_involutive (connections p)), Hl.
    split_and!; [by apply Forall_rev|done..|]. unfold zlen. by rewrite length_rev.
Qed.

(** Fewer handles, none of them new. *)
Lemma run_inv_shrink cfg r r' : run_inv cfg r ->
  pool_config (the_pool r') = cfg ->
  (length (connections (the_pool r')) <= max_size cfg)%nat ->
  (permits (the_pool r') + connecting r' = max_size cfg)%nat ->
  handles r' ⊆+ handles r -> made r' = made r ->
  Forall (fun x => 0 <= x.1) (reports r') ->
  total_failed (stats (the_pool r')) = 0 -> 0 <= total_closed (stats (the_pool r')) ->
  total_created (stats (the_pool r')) = total_created (stats (the_pool r)) ->
  current_in_use (stats (the_pool r')) = zlen (out r') ->
  total_closed (stats (the_pool r')) + unreported r' + zlen (connections (the_pool r')) + zlen (out r')
    <= total_closed (stats (the_pool r)) + unreported r + zlen (connections (the_pool r)) + zlen (out r) ->
  run_inv cfg r'.
Proof.
  intros V ? ? ? Hs Hm ? ? ? Hc ? Hb. destruct V as [_ _ _ Hd Hmade _ _ _ Hcr _ Hbk].
  split; try done.
  - apply submseteq_Permutation in Hs as [l El]. rewrite El, NoDup_app in Hd. by destruct Hd.
  - intros h Hh. rewrite Hm. apply Hmade. by eapply elem_of_submseteq.
  - by rewrite Hc, Hm.
  - rewrite Hm. lia.
Qed.

Lemma unreported_app rs1 r rs2 p o k m :
  unreported (Run p o k (rs1 ++ r :: rs2) m) = r.1 + unreported (Run p o k (rs1 ++ rs2) m).
Proof. unfold unreported. simpl. induction rs1 as [|x rs1 IH]; simpl; lia. Qed.

Lemma unreported_nonneg r : Forall (fun x => 0 <= x.1) (reports r) -> 0 <= unreported r.
Proof. unfold unreported. induction 1; simpl; lia. Qed.

Lemma zlen_nonneg {A} (l : list A) : 0 <= zlen l.
Proof. unfold zlen. lia. Qed.
Lemma zlen_cons {A} (x : A) l : zlen (x :: l) = zlen l + 1.
Proof. unfold zlen. simpl. lia. Qed.

(** Nothing that counts connections can pass the number ever made. *)
Lemma run_inv_bounds cfg r : run_inv cfg r -> Z.of_nat (size (made r)) < 2 ^ 64 ->
  0 <= total_closed (stats (the_pool r)) < 2 ^ 64 /\ 0 <= unreported r /\
  zlen (out r) < 2 ^ 64 /\
  total_closed (stats (the_pool r)) + unreported r + zlen (connections (the_pool r)) + zlen (out r) < 2 ^ 64.
Proof.
  intros V Hm. pose proof (rn_closed _ _ V). pose proof (rn_books _ _ V).
  pose proof (unreported_nonneg r (rn_reports _ _ V)). pose proof (zlen_nonneg (out r)).
  pose proof (zlen_nonneg (connections (the_pool r))). lia.
Qed.

(** The sum [unreported] and the lists of a state, for [lia]. *)
Ltac pool_books :=
  unfold unreported in *; simpl in *;
  rewrite ?zlen_cons, ?zlen_app in *; unfold zlen in *; simpl in *;
  rewrite ?length_app in *; simpl in *.

Lemma step_get_inv cfg probe now p o k rs m r p' : get_idle probe now p = (r, p') ->
  (0 < permits p)%nat -> run_inv cfg (Run p o k rs m) -> Z.of_nat (size m) < 2 ^ 64 ->
  run_inv cfg (match r with
               | Some c => Run p' (c :: o) k rs m
               | None => Run (with_permits (pred (permits p)) p') o (S k) rs m
               end).
Proof.
  intros E Hp V Hm. pose proof (run_inv_bounds _ _ V Hm) as (B1 & B2 & B3 & B4).
  pose proof (rn_config _ _ V). pose proof (rn_idle _ _ V). pose proof (rn_permits _ _ V).
  pose proof (rn_failed _ _ V). pose proof (rn_in_use _ _ V).
  apply get_idle_spec in E as (kept & bad & _ & Hc & Hpm & Hl & Hr). simpl in *.
  destruct r as [c|].
  - destruct Hr as (c0 & Hcs & -> & _ & Hs).
    apply (run_inv_shrink cfg _ _ V); simpl; rewrite ?Hs; simpl; try done; try congruence.
    + rewrite Hcs in *. rewrite Hl. pool_books. lia.
    + unfold handles. simpl. rewrite Hl, Hcs, !fmap_app. simpl. rewrite <- !app_assoc. simpl.
      apply submseteq_app; [done|]. apply submseteq_skip, submseteq_inserts_l. done.
    + apply V.
    + rewrite Hcs in *. pool_books. rewrite wrap_u64_small; lia.
    + rewrite Hcs in *. pool_books. rewrite wrap_u64_small; lia.
    + rewrite Hcs, Hl in *. pool_books. rewrite wrap_u64_small; lia.
  - destruct Hr as (Hcs & -> & Hs).
    apply (run_inv_shrink cfg _ _ V); simpl; rewrite ?Hs; simpl; try done; try congruence.
    + rewrite Hl. simpl. lia.
    + lia.
    + unfold handles. simpl. rewrite Hl, !fmap_app. simpl. by apply submseteq_inserts_l.
    + apply V.
    + rewrite Hcs in *. pool_books. rewrite wrap_u64_small; lia.
    + rewrite Hcs, Hl in *. pool_books. rewrite wrap_u64_small; lia.
Qed.

Lemma step_connected_inv cfg now p o k rs m h c p' : h ∉ m -> connected (Some h) now p = (Some c, p') ->
  run_inv cfg (Run p o (S k) rs m) -> Z.of_nat (size ({[h]} ∪ m)) < 2 ^ 64 ->
  run_inv cfg (Run (with_permits (S (permits p)) p') (c :: o) k rs ({[h]} ∪ m)).
Proof.
  intros Hh [= <- <-] V Hm. rewrite size_union, size_singleton in Hm by set_solver.
  assert (Z.of_nat (size (made (Run p o (S k) rs m))) < 2 ^ 64) as Hm0 by (simpl; lia).
  pose proof (run_inv_bounds _ _ V Hm0) as (B1 & B2 & B3 & B4).
  destruct V as [V1 V2 V3 V4 V5 V6 V7 V8 V9 V10 V11]. simpl in *.
  assert (handles (Run (with_permits (S (permits p)) (update_stats (fun s => add_in_use 1 (add_created s)) p))
    (pooled_new h now :: o) k rs ({[h]} ∪ m)) ≡ₚ h :: handles (Run p o (S k) rs m)) as Hp.
  { unfold handles. simpl. rewrite !fmap_app. simpl. by rewrite Permutation_middle. }
  split; simpl; try done.
  - lia.
  - rewrite Hp. apply NoDup_cons. split; [|done]. intros Hx. by apply Hh, V5.
  - intros x. rewrite Hp, elem_of_cons. intros [->|Hx]; [set_solver|]. apply elem_of_union_r. by apply V5.
  - rewrite size_union, size_singleton by set_solver. rewrite wrap_u64_small; lia.
  - pool_books. rewrite wrap_u64_small; lia.
  - rewrite size_union, size_singleton by set_solver. pool_books. lia.
Qed.

Lemma step_put_inv cfg probe p o1 c o2 k rs m : run_inv cfg (Run p (o1 ++ c :: o2) k rs m) ->
  Z.of_nat (size m) < 2 ^ 64 -> run_inv cfg (Run (put probe c p) (o1 ++ o2) k rs m).
Proof.
  intros V Hm. pose proof (run_inv_bounds _ _ V Hm) as (B1 & B2 & B3 & B4).
  pose proof (rn_config _ _ V) as Hcfg. simpl in Hcfg. subst cfg. pose proof (rn_idle _ _ V). pose proof (rn_permits _ _ V).
  pose proof (rn_failed _ _ V). pose proof (rn_in_use _ _ V). pose proof (rn_reports _ _ V).
  assert (forall p1, connections p1 = connections p \/ connections p1 = connections p ++ [c] ->
    handles (Run p1 (o1 ++ o2) k rs m) ⊆+ handles (Run p (o1 ++ c :: o2) k rs m)) as Hh.
  { intros p1 [E|E]; unfold handles; simpl; rewrite E, !fmap_app; simpl; rewrite <- ?app_assoc; simpl.
    - apply submseteq_app; [done|]. apply submseteq_app; [done|]. by apply submseteq_cons.
    - apply submseteq_app; [done|]. by rewrite Permutation_middle. }
  simpl in *. unfold put.
  repeat match goal with
         | |- context [if ?b then _ else _] => let E := fresh in destruct b eqn:E
         end;
  apply (run_inv_shrink _ _ _ V); simpl; try done;
    try (apply Hh; simpl; auto); pool_books; rewrite ?wrap_u64_small; lia.
Qed.

(** Expired stays expired. *)
Lemma is_expired_later idle lifetime t1 t2 c : t1 <= t2 ->
  is_expired idle lifetime t1 c = true -> is_expired idle lifetime t2 c = true.
Proof.
  unfold is_expired, duration_since. rewrite !orb_true_iff, !bool_decide_eq_true. lia.
Qed.

Lemma expired_kept p t1 t2 (l : list PooledConn) : t1 <= t2 ->
  zlen (filter (fun c => expired p t1 c = true) l) + zlen (filter (fun c => expired p t2 c = false) l) <= zlen l.
Proof.
  intros Ht. induction l as [|c l IH]; [done|]. rewrite !filter_cons, zlen_cons.
  pose proof (is_expired_later (max_idle_time (pool_config p)) (max_lifetime (pool_config p)) t1 t2 c Ht) as Hc.
  change (is_expired _ _ t1 c) with (expired p t1 c) in Hc. change (is_expired _ _ t2 c) with (expired p t2 c) in Hc.
  destruct (expired p t1 c), (expired p t2 c); simpl in *; rewrite ?zlen_cons; first [lia | by specialize (Hc eq_refl)].
Qed.

Lemma step_scan_inv cfg t1 t2 p o k rs m r p' : t1 <= t2 -> cleanup_scan t1 t2 p = (r, p') ->
  run_inv cfg (Run p o k rs m) ->
  run_inv cfg (Run p' o k (match r with Some r => r :: rs | None => rs end) m).
Proof.
  intros Ht E V. pose proof (expired_kept p t1 t2 (connections p) Ht) as Hk.
  pose proof (rn_idle _ _ V). pose proof (rn_reports _ _ V) as Hr.
  unfold cleanup_scan in E. injection E as <- <-. simpl in *.
  set (kept := filter (fun c => expired p t2 c = false) (connections p)) in *.
  set (gone := filter (fun c => expired p t1 c = true) (connections p)) in *.
  assert (length kept <= length (connections p))%nat by apply length_filter.
  apply (run_inv_shrink cfg _ _ V); simpl; try done; try apply V.
  - lia.
  - unfold handles. simpl. rewrite !fmap_app. apply submseteq_app; [|done].
    apply fmap_submseteq, sublist_submseteq, sublist_filter.
  - destruct (decide _); [done|]. constructor; [apply zlen_nonneg|done].
  - destruct (decide _); pool_books; lia.
Qed.

Lemma step_report_inv cfg p o k rs1 r rs2 m : run_inv cfg (Run p o k (rs1 ++ r :: rs2) m) ->
  Z.of_nat (size m) < 2 ^ 64 -> run_inv cfg (Run (cleanup_report r p) o k (rs1 ++ rs2) m).
Proof.
  intros V Hm. pose proof (run_inv_bounds _ _ V Hm) as (B1 & B2 & B3 & B4).
  pose proof (rn_reports _ _ V) as Hr. simpl in *.
  apply Forall_app in Hr as [Hr1 [Hr Hr2]%Forall_cons].
  assert (Forall (fun x => 0 <= x.1) (rs1 ++ rs2)) as Hr' by (by apply Forall_app).
  rewrite unreported_app in B2, B4.
  pose proof (unreported_nonneg (Run p o k (rs1 ++ rs2) m) Hr').
  pose proof (zlen_nonneg (connections p)). pose proof (zlen_nonneg o).
  apply (run_inv_shrink cfg _ _ V); simpl; try done; try apply V.
  - rewrite wrap_u64_small; lia.
  - rewrite unreported_app, wrap_u64_small by lia.
    unfold unreported in *; simpl in *. lia.
Qed.

Lemma step_close_all_inv cfg p o k rs m : run_inv cfg (Run p o k rs m) ->
  Z.of_nat (size m) < 2 ^ 64 -> run_inv cfg (Run (close_all p) o k rs m).
Proof.
  intros V Hm. pose proof (run_inv_bounds _ _ V Hm) as (B1 & B2 & B3 & B4). simpl in *.
  pose proof (zlen_nonneg (connections p)). pose proof (zlen_nonneg o).
  apply (run_inv_shrink cfg _ _ V); simpl; try done; try apply V.
  - lia.
  - unfold handles. simpl. rewrite fmap_app. by apply submseteq_inserts_l.
  - rewrite wrap_u64_small; lia.
  - rewrite wrap_u64_small by lia. pool_books. lia.
Qed.

Lemma pool_step_inv cfg r r' : pool_step r r' -> run_inv cfg r -> Z.of_nat (size (made r')) < 2 ^ 64 ->
  run_inv cfg r'.
Proof.
  intros Hs V Hm. destruct Hs; simpl in Hm.
  - by apply (step_get_inv cfg probe now p o k rs m (Some c) p').
  - by apply (step_get_inv cfg probe now p o k rs m None p').
  - by eapply step_connected_inv.
  - pose proof (rn_permits _ _ V). simpl in *.
    apply (run_inv_shrink cfg _ _ V); simpl; try done; try apply V. lia.
  - by apply step_put_inv.
  - by eapply step_scan_inv.
  - by eapply step_report_inv.
  - by apply step_close_all_inv.
Qed.

Lemma made_grows r r' : pool_step r r' -> made r ⊆ made r'.
Proof. destruct 1; simpl; set_solver. Qed.

Lemma run_new_inv cfg : run_inv cfg (run_new cfg).
Proof.
  split; unfold handles; simpl; try done; try lia; try by constructor.
  intros h Hh. by apply not_elem_of_nil in Hh.
Qed.

Lemma reachable_run_inv cfg r : pool_reachable cfg r -> Z.of_nat (size (made r)) < 2 ^ 64 -> run_inv cfg r.
Proof.
  revert r. refine (rtc_ind_r (fun r => Z.of_nat (size (made r)) < 2 ^ 64 -> run_inv cfg r) _ _ _).
  { intros _. apply run_new_inv. }
  intros r1 r2 Hr Hs IH Hm.
  pose proof (subseteq_size _ _ (made_grows _ _ Hs)).
  apply (pool_step_inv cfg r1); [done|apply IH; lia|done].
Qed.

(** the books of a pool, in any execution of any number of callers: no
    connection is ever with two callers, or both idle and with a caller; at most
    [max_size] are idle; every running [get] has a permit; the number "in use" is
    exactly what callers hold, the number "created" exactly what was ever made;
    and what was counted closed, is about to be, is idle or is held never exceeds
    what was made. *)
Theorem pool_books_hold cfg r : pool_reachable cfg r -> Z.of_nat (size (made r)) < 2 ^ 64 ->
  NoDup (conn <$> (connections (the_pool r) ++ out r)) /\
  (length (connections (the_pool r)) <= max_size cfg)%nat /\
  (permits (the_pool r) + connecting r = max_size cfg)%nat /\
  current_in_use (stats (the_pool r)) = zlen (out r) /\
  total_created (stats (the_pool r)) = Z.of_nat (size (made r)) /\
  total_closed (stats (the_pool r)) + unreported r + zlen (connections (the_pool r)) + zlen (out r)
    <= total_created (stats (the_pool r)).
Proof.
  intros Hr Hm. destruct (reachable_run_inv cfg r Hr Hm) as [V1 V2 V3 V4 V5 V6 V7 V8 V9 V10 V11].
  split_and!; try done. by rewrite V9.
Qed.

(** a [get] that does not connect hands out the most recently returned
    connection that is neither too old nor found broken, with its use counted;
    everything returned after it is closed, everything before stays; and it
    connects only if no idle connection was usable. *)
Theorem get_newest_usable probe now p r p' : get_idle probe now p = (r, p') ->
  match r with
  | Some c => exists older c0 newer, connections p = older ++ c0 :: newer /\ c = mark_used now c0 /\
      unusable probe (pool_config p) now c0 = false /\
      Forall (fun b => unusable probe (pool_config p) now b = true) newer /\ connections p' = older
  | None => Forall (fun b => unusable probe (pool_config p) now b = true) (connections p) /\ connections p' = []
  end.
Proof.
  intros (kept & bad & Hb & _ & _ & Hl & Hr)%get_idle_spec. destruct r as [c|].
  - destruct Hr as (c0 & -> & -> & Hc & _). exists kept, c0, bad. by split_and!.
  - destruct Hr as (-> & -> & _). by split.
Qed.

(** [max_size] does not bound the connections: the permit is given back when
    [get] returns, so any number can be with callers at once. *)
Lemma callers_unbounded cfg n : (0 < max_size cfg)%nat ->
  exists p m, pool_config p = cfg /\ connections p = [] /\ permits p = max_size cfg /\
    exists o, length o = n /\ pool_reachable cfg (Run p o 0 [] m).
Proof.
  intros Hs. induction n as [|n (p & m & Hc & Hl & Hp & o & Ho & Hr)].
  { exists (pool_new cfg), ∅. split_and!; try done. exists []. split; [done|]. apply rtc_refl. }
  set (p1 := update_stats (add_closed 0) (with_idle_conns [] p)).
  assert (get_idle (fun _ => Written) 0 p = (None, p1)) as E1.
  { unfold get_idle. rewrite Hl. reflexivity. }
  set (p2 := with_permits (S (permits (with_permits (pred (permits p)) p1)))
    (update_stats (fun s => add_in_use 1 (add_created s)) (with_permits (pred (permits p)) p1))).
  exists p2, ({[fresh m]} ∪ m). split_and!; [done|done|simpl; lia|].
  exists (pooled_new (fresh m) 0 :: o). split; [simpl; lia|].
  eapply rtc_r; [eapply rtc_r; [exact Hr|]|].
  - eapply (step_miss (fun _ => Written) 0); [lia|exact E1].
  - eapply (step_connected 0); [apply is_fresh|reflexivity].
Qed.

(** A connection that expires between the two looks of [cleanup] is closed and
    never counted. *)
Definition tick_pool : ConnPool :=
  Pool default_pool_config [pooled_new 1 0] 10 (Stats 1 0 0 0 1 0).
Lemma cleanup_undercounts :
  cleanup_scan (secs 300) (secs 300 + 1) tick_pool = (Some (0, 0), with_idle_conns [] tick_pool).
Proof. vm_compute. reflexivity. Qed.

(** [current_idle] stays behind when a [get] finds only expired connections. *)
Lemma idle_number_stale :
  let p' := (get_idle (fun _ => Written) (secs 301) tick_pool).2 in
  connections p' = [] /\ current_idle (stats p') = 1.
Proof. vm_compute. split; reflexivity. Qed.

(** Putting back a connection the pool never handed out: the number in use
    becomes 2^64 - 1. *)
Lemma foreign_put_wraps :
  current_in_use (stats (put (fun _ => Written) (pooled_new 7 0) (pool_new default_pool_config))) = 2 ^ 64 - 1.
Proof. vm_compute. reflexivity. Qed.

(** ** The manager: one pool per address

    [pools] maps an address to a pool; the pools themselves are shared
    ([Arc]), so they live in a store that a removed name does not empty. *)
Record PoolManager := {
  pools : gmap string nat;
  store : gmap nat ConnPool;
  default_config : PoolConfig;
}.
Definition pool_manager_new (c : PoolConfig) : PoolManager := {| pools := ∅; store := ∅; default_config := c |}.

Definition get_pool (m : PoolManager) (addr : string) : option nat := pools m !! addr.

Definition get_or_create_pool (m : PoolManager) (addr : string) : nat * PoolManager :=
  match pools m !! addr with
  | Some ref => (ref, m)
  | None =>
      let ref := fresh (dom (store m)) in
      (ref, {| pools := <[addr := ref]> (pools m); store := <[ref := pool_new (default_config m)]> (store m);
               default_config := default_config m |})
  end.

Definition with_store (m : PoolManager) (f : gmap nat ConnPool -> gmap nat ConnPool) : PoolManager :=
  {| pools := pools m; store := f (store m); default_config := default_config m |}.

Definition remove_pool (m : PoolManager) (addr : string) : PoolManager :=
  match pools m !! addr with
  | Some ref => with_store {| pools := delete addr (pools m); store := store m; default_config := default_config m |}
                  (alter close_all ref)
  | None => m
  end.

Definition get_all_stats (m : PoolManager) : gmap string PoolStats :=
  omap (fun ref => stats <$> store m !! ref) (pools m).

(** [ConnManager::put_back]: without a pool the connection is dropped. *)
Definition put_back (probe : PooledConn -> try_write) (m : PoolManager) (addr : string) (c : PooledConn)
  : PoolManager :=
  match get_pool m addr with
  | Some ref => with_store m (alter (put probe c) ref)
  | None => m
  end.

Record manager_wf (m : PoolManager) : Prop := {
  mw_stored : forall addr ref, pools m !! addr = Some ref -> is_Some (store m !! ref);
  mw_distinct : forall a b ref, pools m !! a = Some ref -> pools m !! b = Some ref -> a = b;
}.

(** Addresses never share a pool, and asking again gives the same pool. *)
Lemma get_or_create_wf m addr ref m' : manager_wf m -> get_or_create_pool m addr = (ref, m') ->
  manager_wf m' /\ pools m' !! addr = Some ref /\ get_or_create_pool m' addr = (ref, m') /\
  forall b, b <> addr -> pools m' !! b = pools m !! b.
Proof.
  intros W. unfold get_or_create_pool. destruct (pools m !! addr) as [r|] eqn:E.
  { intros [= <- <-]. rewrite E. by split_and!. }
  intros [= <- <-]. set (f := fresh (dom (store m))). simpl. rewrite lookup_insert_eq.
  assert (store m !! f = None) as Hf by (apply not_elem_of_dom, is_fresh).
  assert (forall b ref, pools m !! b = Some ref -> ref <> f) as Hne.
  { intros b ref Hb ->. destruct (mw_stored _ W _ _ Hb). congruence. }
  split_and!; try done; [|intros b Hb; by rewrite lookup_insert_ne].
  split; simpl.
  - intros b ref. rewrite lookup_insert_Some. intros [[<- <-]|[? Hb]]; [by rewrite lookup_insert_eq|].
    rewrite lookup_insert_ne by (symmetry; eauto). by eapply mw_stored.
  - intros a b ref. rewrite !lookup_insert_Some. intros [[<- <-]|[? Ha]] [[<- Eb]|[? Hb]]; try done.
    + by destruct (Hne _ _ Hb).
    + subst. by destruct (Hne _ _ Ha).
    + by eapply mw_distinct.
Qed.

Lemma remove_pool_wf m addr : manager_wf m -> manager_wf (remove_pool m addr) /\
  pools (remove_pool m addr) !! addr = None.
Proof.
  intros W. unfold remove_pool. destruct (pools m !! addr) as [r|] eqn:E; [|done].
  split; [split|]; simpl.
  - intros b ref [_ Hb]%lookup_delete_Some. rewrite lookup_alter_is_Some. by eapply mw_stored.
  - intros a b ref [_ Ha]%lookup_delete_Some [_ Hb]%lookup_delete_Some. by eapply mw_distinct.
  - apply lookup_delete_eq.
Qed.

(** One caller: connect, put back, get the same connection again. *)
Definition one_cycle : run :=
  Run (get_idle (fun _ => Written) 2 (put (fun _ => Written) (pooled_new 5 1)
    (with_permits 10 (connected (Some 5%nat) 1 (with_permits 9
       (get_idle (fun _ => Written) 1 (pool_new default_pool_config)).2)).2))).2
    [mark_used 2 (pooled_new 5 1)] 0 [] {[5%nat]}.

Lemma one_cycle_reachable : pool_reachable default_pool_config one_cycle.
Proof.
  eapply rtc_l; [eapply (step_miss (fun _ => Written) 1); [simpl; lia|reflexivity]|].
  eapply rtc_l; [apply (step_connected 1 _ [] 0%nat [] ∅ 5%nat); [set_solver|reflexivity]|].
  eapply rtc_l; [apply (step_put (fun _ => Written) _ [] (pooled_new 5 1) [])|].
  eapply rtc_l; [eapply (step_reuse (fun _ => Written) 2); [simpl; lia|reflexivity]|].
  replace ({[5%nat]} ∪ ∅ : gset nat) with ({[5%nat]} : gset nat) by set_solver. apply rtc_refl.
Qed.

Lemma pool_books_hold_witness :
  NoDup (conn <$> (connections (the_pool one_cycle) ++ out one_cycle)) /\
  current_in_use (stats (the_pool one_cycle)) = 1 /\ total_created (stats (the_pool one_cycle)) = 1.
Proof.
  pose proof (pool_books_hold default_pool_config one_cycle one_cycle_reachable) as V.
  destruct V as (V1 & _ & _ & V2 & V3 & _); [vm_compute; reflexivity|]. by split_and!.
Defined.

Lemma get_newest_usable_witness :
  let p := Pool default_pool_config [pooled_new 1 (secs 400); pooled_new 2 0] 10 stats_new in
  exists older c0 newer, connections p = older ++ c0 :: newer /\ c0 = pooled_new 1 (secs 400) /\
    newer = [pooled_new 2 0].
Proof.
  intros p. pose proof (get_newest_usable (fun _ => Written) (secs 500) p _ _ eq_refl) as G.
  simpl in G. destruct G as (older & c0 & newer & E & Em & _ & Hn & Ho).
  exists older, c0, newer. vm_compute in Ho. subst older. injection E as <- <-. done.
Defined.
