(* ===== verification/Sudp.v ===== *)
(** * UDP over secret tunnels (src/rust_frp_client/src/sudp.rs)

    The visitor listens on a UDP port and opens one tunnel per source address; the
    owner gives every source a UDP socket of its own towards the local service.
    Each side is a set of tasks joined by bounded channels: the receive loop, and
    per session a task that turns datagrams into messages, one that writes them
    and one that reads.  A section of a task between two waits is one event, and a
    side is a function from a state and an event to the next state, [None] when
    that task has to wait.  A socket address is its text. *)
From S2P Require Import Prelude RustStd ConfigTypes Transport EncStream IoConn WireV2 Secrets Throttle WorkPool CoreMsg.
From S2P Require Import HttpClient JsonValue Auth ProxyProto ClientRegistry ClientConn ClientVisitor.

Definition SUDP_HEARTBEAT_INTERVAL : Z := secs 30.
Definition SUDP_TUNNEL_IDLE_TIMEOUT : Z := secs 60.

(** The capacities of the channels. *)
Definition TUNNEL_QUEUE : nat := 1024.
Definition SESSION_QUEUE : nat := 256.

Definition udp_packet (proxy_name client_addr : string) (data : list byte) : Message :=
  UdpPacket {| up_proxy_name := proxy_name; up_data := data; up_client_addr := Some client_addr |}.
Definition keepalive (timestamp : Z) : Message :=
  Ping {| ping_timestamp := timestamp; privilege_key := EmptyString |}.

(** What a message carries to whom, if it carries a datagram with an address. *)
Definition payload_of (m : Message) : option (string * list byte) :=
  match m with
  | UdpPacket p => (fun a => (a, up_data p)) <$> up_client_addr p
  | _ => None
  end.

(** ** Opening a tunnel ([sudp_open_session]) *)
Record SudpVisitorContext := {
  sx_proxy_name : string;
  sx_run_id : string;
  sx_config : ClientConfig;
  sx_work_conn_tls : bool;
  sx_server_work_conn_port : Z;
  sx_secret_key : string;
  sx_use_encryption : bool;
  sx_use_compression : bool;
}.

(** What [start_sudp_visitor] takes from the configuration. *)
Definition sudp_context (config : ClientConfig) (proxy_name run_id : string) (work_conn_tls : bool)
    (server_work_conn_port : Z) : SudpVisitorContext :=
  let v := find_visitor config proxy_name in
  {| sx_proxy_name := proxy_name; sx_run_id := run_id; sx_config := config;
     sx_work_conn_tls := work_conn_tls; sx_server_work_conn_port := server_work_conn_port;
     sx_secret_key := default EmptyString (v ≫= vi_secret_key);
     sx_use_encryption := default false (vi_use_encryption <$> v);
     sx_use_compression := default false (vi_use_compression <$> v) |}.

Section Open.
Context `{RingHash, Base64} `{!Json Message}.

Definition sudp_request (x : SudpVisitorContext) (bridge_id : string) (timestamp : Z) : StcpVisitorMsg :=
  {| sv_proxy_name := sx_proxy_name x; sv_run_id := sx_run_id x; sv_bridge_id := bridge_id;
     sv_timestamp := timestamp;
     sv_sign_key := generate_stcp_visitor_sign_key b64_encode (sx_secret_key x) (sx_proxy_name x) bridge_id
                      (sx_run_id x) timestamp |}.

Definition sudp_grant (proxy_name bridge_id : string) (waited : result StcpWaitError answer_t)
  : result string StcpVisitorGrant :=
  match waited with
  | Ok (Ok grant) =>
      if decide (gr_bridge_id grant <> bridge_id) then Err "SUDP visitor response bridge mismatch"%string
      else Ok grant
  | Ok (Err e) => Err ("SUDP visitor rejected by server: " +:+ e)%string
  | Err WaitDropped => Err "SUDP visitor waiter dropped (reconnect?)"%string
  | Err WaitTimeout => Err ("timeout waiting for SUDP visitor resp of " +:+ proxy_name +:+ " (bridge not ready)")%string
  end.

Definition sudp_work_conn (x : SudpVisitorContext) (bridge_id : string) (grant : StcpVisitorGrant) : WorkConnRequest :=
  {| wq_proxy_name := sx_proxy_name x; wq_run_id := sx_run_id x; wq_work_conn_tls := sx_work_conn_tls x;
     wq_session := None; wq_server_work_conn_port := sx_server_work_conn_port x;
     wq_use_encryption := sx_use_encryption x; wq_use_compression := sx_use_compression x;
     wq_bridge_id := bridge_id; wq_bridge_sign_key := gr_work_conn_sign_key grant |}.

(** The tunnel or the error, and the registry; the waiter is registered before
    the request is sent and is gone afterwards. *)
Definition sudp_open_session (load_tls : client_tls -> result string unit)
    (connect : string -> option (result string sock))
    (tls_connect : client_tls -> string -> sock -> result string sock)
    (x : SudpVisitorContext) (bridge_id : string) (sent : result string unit) (es : list resp_event)
    (t : work_times) (last : Z) (reg : resp_registry)
  : result msg_error any_conn * resp_registry * Z :=
  let '(id, reg) := resp_register reg bridge_id in
  match sent with
  | Err e => (Err (MsgText ("Failed to send StcpVisitor for sudp: " +:+ e)%string), resp_cancel reg bridge_id id, last)
  | Ok _ =>
      let '(waited, reg) := resp_finish (foldl resp_step reg es) bridge_id id in
      match sudp_grant (sx_proxy_name x) bridge_id waited with
      | Err e => (Err (MsgText e), reg, last)
      | Ok grant =>
          let '(opened, _, last) :=
            open_work_conn load_tls connect tls_connect (sx_config x) t last (sudp_work_conn x bridge_id grant) in
          ((fun o => o.1.1) <$> opened, reg, last)
      end
  end.
End Open.

(** ** The visitor *)

(** A tunnel: its source; the datagrams waiting for the task that wraps them, and
    whether that task runs; the messages waiting for the writer, and whether it
    runs; what was written; whether the reader runs. *)
Record tunnel := Tunnel {
  tn_src : string;
  tn_inbound : list (list byte);
  tn_forwarding : bool;
  tn_out : list Message;
  tn_writing : bool;
  tn_wire : list Message;
  tn_reading : bool;
}.
Definition tunnel_new (src : string) : tunnel := Tunnel src [] true [] true [] true.

(** Where the receive loop is. *)
Inductive loop_state :=
| Receiving
| Opening (src : string) (data : list byte)                 (* awaits [sudp_open_session] *)
| Sending (id : nat) (src : string) (data : list byte).     (* awaits [inbound.send] *)

Record sudp_visitor := Visitor {
  vi_loop : loop_state;
  vi_sessions : gmap string nat;
  vi_tunnels : gmap nat tunnel;
  vi_delivered : list (string * list byte);                 (* [socket.send_to] *)
}.
Definition visitor_new : sudp_visitor := Visitor Receiving ∅ ∅ [].

Inductive visitor_event :=
| Datagram (src : string) (data : list byte)                (* [recv_from] *)
| Opened (id : option nat)                                  (* [sudp_open_session] returns *)
| Sent                                                      (* [inbound.send] returns *)
| Forward (id : nat)                                        (* one turn of the wrapping task *)
| Write (id : nat) (ok : bool)                              (* one turn of the writer *)
| Received (id : nat) (m : option Message).                 (* the reader; [None]: closed, or idle *)

Definition with_loop (l : loop_state) (s : sudp_visitor) : sudp_visitor :=
  Visitor l (vi_sessions s) (vi_tunnels s) (vi_delivered s).
Definition with_vi_sessions (f : gmap string nat -> gmap string nat) (s : sudp_visitor) : sudp_visitor :=
  Visitor (vi_loop s) (f (vi_sessions s)) (vi_tunnels s) (vi_delivered s).
Definition with_tunnel (id : nat) (t : tunnel) (s : sudp_visitor) : sudp_visitor :=
  Visitor (vi_loop s) (vi_sessions s) (<[id := t]> (vi_tunnels s)) (vi_delivered s).
Definition deliver (src : string) (data : list byte) (s : sudp_visitor) : sudp_visitor :=
  Visitor (vi_loop s) (vi_sessions s) (vi_tunnels s) (vi_delivered s ++ [(src, data)]).

(** The wrapping task stops: its queue is gone, sends to it fail. *)
Definition stop_forwarding (t : tunnel) : tunnel :=
  Tunnel (tn_src t) [] false (tn_out t) (tn_writing t) (tn_wire t) (tn_reading t).

Definition forward_step (proxy_name : string) (t : tunnel) : option tunnel :=
  if negb (tn_forwarding t) then None else
  match tn_inbound t with
  | [] => None
  | data :: rest =>
      if negb (tn_writing t) then Some (stop_forwarding t)
      else if decide (length (tn_out t) < TUNNEL_QUEUE)%nat then
        Some (Tunnel (tn_src t) rest true (tn_out t ++ [udp_packet proxy_name (tn_src t) data]) true
                (tn_wire t) (tn_reading t))
      else None
  end.

Definition write_step (ok : bool) (t : tunnel) : option tunnel :=
  if negb (tn_writing t) then None else
  match tn_out t with
  | [] => None
  | m :: rest =>
      Some (if ok then Tunnel (tn_src t) (tn_inbound t) (tn_forwarding t) rest true (tn_wire t ++ [m]) (tn_reading t)
            else Tunnel (tn_src t) (tn_inbound t) (tn_forwarding t) [] false (tn_wire t) (tn_reading t))
  end.

Definition stop_reading (t : tunnel) : tunnel :=
  Tunnel (tn_src t) (tn_inbound t) (tn_forwarding t) (tn_out t) (tn_writing t) (tn_wire t) false.

Definition enqueue (data : list byte) (t : tunnel) : tunnel :=
  Tunnel (tn_src t) (tn_inbound t ++ [data]) (tn_forwarding t) (tn_out t) (tn_writing t) (tn_wire t) (tn_reading t).

Section Visitor.
Context (proxy_name : string).

(** A new session is one event: the source starts the reader of its tunnel just
    before it enters the table. *)
Definition visitor_step (s : sudp_visitor) (e : visitor_event) : option sudp_visitor :=
  match e with
  | Datagram src data =>
      match vi_loop s with
      | Receiving =>
          Some (with_loop (match vi_sessions s !! src with
                           | Some id => Sending id src data
                           | None => Opening src data
                           end) s)
      | _ => None
      end
  | Opened opened =>
      match vi_loop s, opened with
      | Opening src data, Some id =>
          match vi_tunnels s !! id with
          | None => Some (with_loop (Sending id src data)
                            (with_vi_sessions (insert src id) (with_tunnel id (tunnel_new src) s)))
          | Some _ => None
          end
      | Opening src data, None => Some (with_loop Receiving s)
      | _, _ => None
      end
  | Sent =>
      match vi_loop s with
      | Sending id src data =>
          t ← vi_tunnels s !! id;
          if negb (tn_forwarding t) then Some (with_loop Receiving (with_vi_sessions (delete src) s))
          else if decide (length (tn_inbound t) < SESSION_QUEUE)%nat
          then Some (with_loop Receiving (with_tunnel id (enqueue data t) s))
          else None
      | _ => None
      end
  | Forward id => t ← vi_tunnels s !! id; t ← forward_step proxy_name t; Some (with_tunnel id t s)
  | Write id ok => t ← vi_tunnels s !! id; t ← write_step ok t; Some (with_tunnel id t s)
  | Received id m =>
      t ← vi_tunnels s !! id;
      if negb (tn_reading t) then None else
      match m with
      | Some (UdpPacket p) => Some (deliver (tn_src t) (up_data p) s)
      | Some _ => Some s
      | None => Some (with_vi_sessions (delete (tn_src t)) (with_tunnel id (stop_reading t) s))
      end
  end.

(** A run; [None] when an event happens that cannot. *)
Definition visitor_run (s : sudp_visitor) (es : list visitor_event) : option sudp_visitor :=
  foldl (fun s e => s ← s; visitor_step s e) (Some s) es.
End Visitor.

(** ** The owner ([serve_sudp_proxy], [spawn_sudp_local_session]) *)
Record local_session := Local {
  lo_client : string;
  lo_inbound : list (list byte);
  lo_alive : bool;
  lo_sent : list (list byte);                               (* to the local service *)
}.

Record sudp_proxy := Owner {
  ow_reading : bool;                                        (* the loop on the tunnel *)
  ow_pending : option (nat * string * list byte);           (* awaits [inbound.send] *)
  ow_sessions : gmap string nat;
  ow_locals : gmap nat local_session;
  ow_out : list Message;
  ow_writing : bool;
  ow_wire : list Message;
}.
Definition owner_new : sudp_proxy := Owner true None ∅ ∅ [] true [].

Inductive owner_event :=
| OMessage (m : option Message) (fresh_id : nat)            (* [read_message] *)
| OSent
| OLocalSend (id : nat) (ok : bool)                         (* [socket.send] *)
| OLocalRecv (id : nat) (data : option (list byte))         (* [socket.recv]; [None]: the task ends *)
| OHeartbeat (timestamp : Z)
| OWrite (ok : bool).

Definition with_local (id : nat) (l : local_session) (s : sudp_proxy) : sudp_proxy :=
  Owner (ow_reading s) (ow_pending s) (ow_sessions s) (<[id := l]> (ow_locals s)) (ow_out s) (ow_writing s) (ow_wire s).
Definition with_pending (p : option (nat * string * list byte)) (s : sudp_proxy) : sudp_proxy :=
  Owner (ow_reading s) p (ow_sessions s) (ow_locals s) (ow_out s) (ow_writing s) (ow_wire s).
Definition with_ow_sessions (f : gmap string nat -> gmap string nat) (s : sudp_proxy) : sudp_proxy :=
  Owner (ow_reading s) (ow_pending s) (f (ow_sessions s)) (ow_locals s) (ow_out s) (ow_writing s) (ow_wire s).
Definition with_out (o : list Message) (w : bool) (wire : list Message) (s : sudp_proxy) : sudp_proxy :=
  Owner (ow_reading s) (ow_pending s) (ow_sessions s) (ow_locals s) o w wire.
Definition stop_owner (s : sudp_proxy) : sudp_proxy :=
  Owner false (ow_pending s) ∅ (ow_locals s) (ow_out s) (ow_writing s) (ow_wire s).

(** The session's task ends: its queue is gone. *)
Definition stop_local (l : local_session) : local_session := Local (lo_client l) [] false (lo_sent l).

(** A message for the tunnel; [None] waits for room, [Some false]: the writer is gone. *)
Definition owner_send (m : Message) (s : sudp_proxy) : option (bool * sudp_proxy) :=
  if negb (ow_writing s) then Some (false, s)
  else if decide (length (ow_out s) < TUNNEL_QUEUE)%nat
  then Some (true, with_out (ow_out s ++ [m]) true (ow_wire s) s) else None.

Section Owner.
Context (proxy_name : string).

Definition owner_step (s : sudp_proxy) (e : owner_event) : option sudp_proxy :=
  match e with
  | OMessage m fresh_id =>
      if negb (ow_reading s) || bool_decide (is_Some (ow_pending s)) then None else
      match m with
      | None => Some (stop_owner s)
      | Some m =>
          match payload_of m with
          | None => Some s
          | Some (client, data) =>
              match ow_sessions s !! client with
              | Some id => Some (with_pending (Some (id, client, data)) s)
              | None =>
                  match ow_locals s !! fresh_id with
                  | None => Some (with_pending (Some (fresh_id, client, data))
                              (with_ow_sessions (insert client fresh_id)
                                 (with_local fresh_id (Local client [] true []) s)))
                  | Some _ => None
                  end
              end
          end
      end
  | OSent =>
      '(id, client, data) ← ow_pending s;
      l ← ow_locals s !! id;
      if negb (lo_alive l) then Some (with_pending None (with_ow_sessions (delete client) s))
      else if decide (length (lo_inbound l) < SESSION_QUEUE)%nat
      then Some (with_pending None
                   (with_local id (Local (lo_client l) (lo_inbound l ++ [data]) true (lo_sent l)) s))
      else None
  | OLocalSend id ok =>
      l ← ow_locals s !! id;
      match lo_alive l, lo_inbound l with
      | true, data :: rest =>
          Some (with_local id (if ok then Local (lo_client l) rest true (lo_sent l ++ [data]) else stop_local l) s)
      | _, _ => None
      end
  | OLocalRecv id data =>
      l ← ow_locals s !! id;
      if negb (lo_alive l) then None else
      match data with
      | None => Some (with_local id (stop_local l) s)
      | Some data =>
          '(sent, s) ← owner_send (udp_packet proxy_name (lo_client l) data) s;
          Some (if (sent : bool) then s else with_local id (stop_local l) s)
      end
  | OHeartbeat timestamp => '(_, s) ← owner_send (keepalive timestamp) s; Some s
  | OWrite ok =>
      if negb (ow_writing s) then None else
      match ow_out s with
      | [] => None
      | m :: rest => Some (if ok then with_out rest true (ow_wire s ++ [m]) s else with_out [] false (ow_wire s) s)
      end
  end.

Definition owner_run (s : sudp_proxy) (es : list owner_event) : option sudp_proxy :=
  foldl (fun s e => s ← s; owner_step s e) (Some s) es.
End Owner.

(** ** What a visitor run does *)

(** The datagrams a source sent. *)
Definition offered (es : list visitor_event) (src : string) : list (list byte) :=
  omap (fun e => match e with
                 | Datagram a d => if decide (a = src) then Some d else None
                 | _ => None
                 end) es.

(** The datagrams the readers took off the tunnels, with the source each tunnel is for. *)
Definition returned_one (tunnels : gmap nat tunnel) (e : visitor_event) : option (string * list byte) :=
  match e with
  | Received id (Some (UdpPacket p)) => (fun t => (tn_src t, up_data p)) <$> tunnels !! id
  | _ => None
  end.
Definition returned (tunnels : gmap nat tunnel) (es : list visitor_event) : list (string * list byte) :=
  omap (returned_one tunnels) es.

Lemma offered_snoc es e src : offered (es ++ [e]) src =
  offered es src ++ match e with Datagram a d => if decide (a = src) then [d] else [] | _ => [] end.
Proof.
  unfold offered. rewrite omap_app. f_equal. simpl. destruct e; try done. by case_decide.
Qed.

Lemma returned_snoc tunnels es e :
  returned tunnels (es ++ [e]) = returned tunnels es ++ returned tunnels [e].
Proof. apply omap_app. Qed.

Definition src_of (s : sudp_visitor) (id : nat) : option string := tn_src <$> vi_tunnels s !! id.

(** The datagram the loop is about to put into tunnel [id]. *)
Definition pending_for (l : loop_state) (id : nat) : list (list byte) :=
  match l with Sending id' _ d => if decide (id' = id) then [d] else [] | _ => [] end.

Definition tunnel_data (proxy_name : string) (t : tunnel) (data : list (list byte)) : Prop :=
  exists w o, tn_wire t = udp_packet proxy_name (tn_src t) <$> w /\
    tn_out t = udp_packet proxy_name (tn_src t) <$> o /\ data = w ++ o ++ tn_inbound t.

Section Runs.
Context (proxy_name : string).
Local Notation step := (visitor_step proxy_name).
Local Notation holds := (tunnel_data proxy_name).

Record visitor_inv (es : list visitor_event) (s : sudp_visitor) : Prop := {
  vn_table : forall src id, vi_sessions s !! src = Some id -> src_of s id = Some src;
  vn_loop : match vi_loop s with
            | Receiving => True
            | Opening src d => sublist [d] (offered es src)
            | Sending id src _ => src_of s id = Some src
            end;
  vn_seen : forall id m, Received id m ∈ es -> is_Some (vi_tunnels s !! id);
  vn_content : forall id t, vi_tunnels s !! id = Some t -> exists data, holds t data /\
    sublist (data ++ pending_for (vi_loop s) id) (offered es (tn_src t));
  vn_delivered : vi_delivered s = returned (vi_tunnels s) es;
}.

Lemma forward_step_data t t' data : forward_step proxy_name t = Some t' -> holds t data ->
  tn_src t' = tn_src t /\ exists data', holds t' data' /\ sublist data' data /\
    (tn_writing t = true -> data' = data /\ tn_forwarding t' = true /\ tn_writing t' = true).
Proof.
  unfold forward_step. destruct (tn_forwarding t); [|done]. simpl.
  destruct (tn_inbound t) as [|d rest] eqn:Ei; [done|]. destruct (tn_writing t); simpl.
  - case_decide; [|done]. intros [= <-] (w & o & Hw & Ho & ->). split; [done|]. exists (w ++ o ++ d :: rest).
    rewrite Ei. split_and!; [|done|done]. exists w, (o ++ [d]). simpl. split_and!; [done|by rewrite Ho, fmap_app|].
    by rewrite <- (app_assoc o).
  - intros [= <-] (w & o & Hw & Ho & ->). split; [done|]. exists (w ++ o). split_and!; [| |done].
    + exists w, o. simpl. by rewrite app_nil_r.
    + rewrite app_assoc. by apply sublist_inserts_r.
Qed.

Lemma write_step_data ok t t' data : write_step ok t = Some t' -> holds t data ->
  tn_src t' = tn_src t /\ exists data', holds t' data' /\ sublist data' data /\
    tn_forwarding t' = tn_forwarding t /\ (ok = true -> data' = data /\ tn_writing t' = true).
Proof.
  unfold write_step. destruct (tn_writing t); [|done]. simpl.
  destruct (tn_out t) as [|m rest] eqn:Eo; [done|]. intros [= <-] (w & o & Hw & Ho & ->).
  rewrite Eo in Ho. destruct o as [|d o]; [done|]. injection Ho as -> ->. destruct ok; (split; [done|]).
  - exists (w ++ (d :: o) ++ tn_inbound t). split_and!; [|done|done|done]. exists (w ++ [d]), o. simpl.
    rewrite fmap_app, <- Hw. split_and!; [done|done|]. by rewrite <- app_assoc.
  - exists (w ++ tn_inbound t). split_and!; [|by apply sublist_app, sublist_inserts_l|done|done].
    exists w, []. split_and!; done.
Qed.

(** Changing one tunnel in place keeps who every tunnel is for. *)
Lemma src_of_update s id t t' id' : vi_tunnels s !! id = Some t -> tn_src t' = tn_src t ->
  src_of (with_tunnel id t' s) id' = src_of s id'.
Proof.
  intros Ht Hs. unfold src_of. simpl. destruct (decide (id' = id)) as [->|].
  - rewrite lookup_insert_eq, Ht. simpl. by rewrite Hs.
  - by rewrite lookup_insert_ne.
Qed.

Lemma returned_same (m m' : gmap nat tunnel) es :
  (forall id, (exists r, Received id r ∈ es) -> tn_src <$> m' !! id = tn_src <$> m !! id) ->
  returned m' es = returned m es.
Proof.
  intros Hm. unfold returned. induction es as [|e es IH]; [done|].
  cbn [omap list_omap]. rewrite IH; [|intros id [r Hr]; apply Hm; exists r; by right].
  assert (returned_one m' e = returned_one m e) as ->; [|done].
  destruct e as [| | | | |id [[]|]]; try done. simpl.
  assert (tn_src <$> m' !! id = tn_src <$> m !! id) by (apply Hm; eexists; left).
  clear Hm IH. destruct (m !! id), (m' !! id); simpl in *; congruence.
Qed.

Lemma tunnel_data_same t t' data : tn_src t' = tn_src t -> tn_wire t' = tn_wire t -> tn_out t' = tn_out t ->
  tn_inbound t' = tn_inbound t -> holds t data -> holds t' data.
Proof. intros E1 E2 E3 E4 (w & o & ? & ? & ->). exists w, o. rewrite E1, E2, E3, E4. by split_and!. Qed.

(** One more event that is no datagram, and changes at most one tunnel in place. *)
Lemma visitor_inv_update es s e s' id t t' : visitor_inv es s ->
  vi_tunnels s !! id = Some t -> tn_src t' = tn_src t ->
  vi_tunnels s' = <[id := t']> (vi_tunnels s) ->
  (forall src, offered (es ++ [e]) src = offered es src) ->
  (forall src i, vi_sessions s' !! src = Some i -> vi_sessions s !! src = Some i) ->
  (vi_loop s' = vi_loop s \/ vi_loop s' = Receiving) ->
  (forall i m, e = Received i m -> i = id) ->
  vi_delivered s' = vi_delivered s ++ returned (vi_tunnels s') [e] ->
  (exists data, holds t' data /\ sublist (data ++ pending_for (vi_loop s') id) (offered es (tn_src t))) ->
  visitor_inv (es ++ [e]) s'.
Proof.
  intros V Ht Hsrc Ht' Hoff Hses Hloop Hrec Hdel Hdata.
  assert (forall i, src_of s' i = src_of s i) as Hso.
  { intros i. unfold src_of. rewrite Ht'. by apply (src_of_update s id t t' i). }
  split.
  - intros src i Hi. rewrite Hso. by apply (vn_table _ _ V), Hses.
  - pose proof (vn_loop _ _ V) as Hl. destruct Hloop as [->| ->]; [|done].
    destruct (vi_loop s); [done|by rewrite Hoff|by rewrite Hso].
  - intros i m [Hi|Hi%list_elem_of_singleton]%elem_of_app; rewrite Ht'.
    + destruct (decide (i = id)) as [->|]; [by rewrite lookup_insert_eq|].
      rewrite lookup_insert_ne by done. by eapply (vn_seen _ _ V).
    + symmetry in Hi. apply Hrec in Hi as ->. by rewrite lookup_insert_eq.
  - intros i u. rewrite Ht', Hoff. destruct (decide (i = id)) as [->|Hi].
    + rewrite lookup_insert_eq. intros [= <-]. by rewrite Hsrc.
    + rewrite lookup_insert_ne by done. intros Hu. destruct (vn_content _ _ V _ _ Hu) as (data & Hd & Hs).
      exists data. split; [done|]. destruct Hloop as [->| ->]; [done|]. simpl. rewrite app_nil_r.
      etransitivity; [|exact Hs]. by apply sublist_inserts_r.
  - rewrite Hdel, (vn_delivered _ _ V), returned_snoc. f_equal.
    symmetry. apply (returned_same (vi_tunnels s)). intros i _. apply Hso.
Qed.

Lemma visitor_inv_datagram es s src d s' : visitor_inv es s -> step s (Datagram src d) = Some s' ->
  visitor_inv (es ++ [Datagram src d]) s'.
Proof.
  intros V E. simpl in E. destruct (vi_loop s) eqn:El; [|done..]. injection E as <-.
  assert (forall a, offered (es ++ [Datagram src d]) a = offered es a ++ (if decide (src = a) then [d] else [])) as Hoff
    by (intros; apply offered_snoc).
  split; simpl.
  - apply V.
  - destruct (vi_sessions s !! src) as [id|] eqn:Es; [by apply (vn_table _ _ V)|].
    rewrite Hoff, decide_True by done. by apply sublist_inserts_l.
  - intros id m [Hi|Hi%list_elem_of_singleton]%elem_of_app; [by eapply (vn_seen _ _ V)|done].
  - intros id t Ht. destruct (vn_content _ _ V _ _ Ht) as (data & Hd & Hs). exists data. split; [done|].
    rewrite El in Hs. simpl in Hs. rewrite app_nil_r in Hs. rewrite Hoff.
    apply sublist_app; [done|]. destruct (vi_sessions s !! src) as [id'|] eqn:Es; [|apply sublist_nil_l]. simpl.
    case_decide as Ei; [|apply sublist_nil_l]. subst id'.
    apply (vn_table _ _ V) in Es. unfold src_of in Es. rewrite Ht in Es. injection Es as <-.
    by rewrite decide_True.
  - rewrite (vn_delivered _ _ V), returned_snoc. simpl. by rewrite app_nil_r.
Qed.

Lemma visitor_inv_opened es s opened s' : visitor_inv es s -> step s (Opened opened) = Some s' ->
  visitor_inv (es ++ [Opened opened]) s'.
Proof.
  intros V E. simpl in E. pose proof (vn_loop _ _ V) as Hl. destruct (vi_loop s) as [|src d|] eqn:El; [done| |done].
  assert (forall a, offered (es ++ [Opened opened]) a = offered es a) as Hoff
    by (intros; rewrite offered_snoc; apply app_nil_r).
  assert (forall id m, Received id m ∈ es ++ [Opened opened] -> Received id m ∈ es) as Hin.
  { intros id m [Hi|Hi%list_elem_of_singleton]%elem_of_app; done. }
  destruct opened as [id|]; cycle 1.
  { injection E as <-. split; simpl; [apply V|done|intros; by eapply (vn_seen _ _ V), Hin| |].
    - intros i t Ht. destruct (vn_content _ _ V _ _ Ht) as (data & Hd & Hs). exists data. split; [done|].
      rewrite Hoff. by rewrite El in Hs.
    - rewrite (vn_delivered _ _ V), returned_snoc. simpl. by rewrite app_nil_r. }
  destruct (vi_tunnels s !! id) eqn:Et; [done|]. injection E as <-.
  assert (forall i, is_Some (vi_tunnels s !! i) -> i <> id) as Hne by (intros i [? ?] ->; congruence).
  split; simpl.
  - intros a i. unfold src_of. simpl. rewrite lookup_insert_Some. intros [[<- <-]|[_ Hi]]; [by rewrite lookup_insert_eq|].
    apply (vn_table _ _ V) in Hi. unfold src_of in Hi. rewrite lookup_insert_ne; [done|].
    symmetry. apply Hne. destruct (vi_tunnels s !! i); [by eexists|done].
  - unfold src_of. simpl. by rewrite lookup_insert_eq.
  - intros i m Hi. rewrite lookup_insert_ne; [by eapply (vn_seen _ _ V), Hin|].
    symmetry. eapply Hne, (vn_seen _ _ V), Hin, Hi.
  - intros i t. rewrite Hoff, lookup_insert_Some. intros [[<- <-]|[Hi Ht]].
    + exists []. split; [by exists [], []|]. simpl. by rewrite decide_True.
    + destruct (vn_content _ _ V _ _ Ht) as (data & Hd & Hs). exists data. split; [done|].
      rewrite decide_False by done. by rewrite El in Hs.
  - rewrite (vn_delivered _ _ V), returned_snoc. simpl. rewrite app_nil_r. symmetry. apply returned_same.
    intros i [m Hi]. rewrite lookup_insert_ne; [done|]. symmetry. eapply Hne, (vn_seen _ _ V), Hi.
Qed.

Lemma visitor_inv_step es s e s' : visitor_inv es s -> step s e = Some s' -> visitor_inv (es ++ [e]) s'.
Proof.
  intros V E. destruct e as [src d|opened| |id|id ok|id m];
    [by eapply visitor_inv_datagram|by eapply visitor_inv_opened|..]; simpl in E;
    pose proof (vn_content _ _ V) as Hc.
  - pose proof (vn_loop _ _ V) as Hl. destruct (vi_loop s) as [| |id src d] eqn:El; [done..|].
    destruct (vi_tunnels s !! id) as [t|] eqn:Et; [|done]. simpl in E.
    destruct (Hc _ _ Et) as (data & Hd & Hs). rewrite ?El in Hs. simpl in Hs. rewrite decide_True in Hs by done.
    unfold src_of in Hl. rewrite Et in Hl. injection Hl as Hl.
    destruct (tn_forwarding t); simpl in E; [case_decide; [|done]|]; injection E as <-.
    + apply (visitor_inv_update es s _ _ id t (enqueue d t) V Et); try done; [by intros; rewrite offered_snoc, app_nil_r|by right|by simpl; rewrite app_nil_r|].
      exists (data ++ [d]). split; [|by rewrite app_nil_r]. destruct Hd as (w & o & ? & ? & ->).
      exists w, o. simpl. split_and!; [done..|]. by rewrite !app_assoc.
    + apply (visitor_inv_update es s _ _ id t t V Et); try done; [simpl; by rewrite insert_id|by intros; rewrite offered_snoc, app_nil_r| |by right|by simpl; rewrite app_nil_r|].
      * intros a i. simpl. by intros [_ ?]%lookup_delete_Some.
      * exists data. split; [done|]. simpl. rewrite app_nil_r. etransitivity; [|exact Hs]. by apply sublist_inserts_r.
  - destruct (vi_tunnels s !! id) as [t|] eqn:Et; [|done]. simpl in E.
    destruct (forward_step proxy_name t) as [t'|] eqn:Ef; [|done]. injection E as <-.
    destruct (Hc _ _ Et) as (data & Hd & Hs). destruct (forward_step_data _ _ _ Ef Hd) as (Hsrc & data' & Hd' & Hs' & _).
    apply (visitor_inv_update es s _ _ id t t' V Et); try done; [by intros; rewrite offered_snoc, app_nil_r|by left|by simpl; rewrite app_nil_r|].
    exists data'. split; [done|]. etransitivity; [|exact Hs]. by apply sublist_app.
  - destruct (vi_tunnels s !! id) as [t|] eqn:Et; [|done]. simpl in E.
    destruct (write_step ok t) as [t'|] eqn:Ef; [|done]. injection E as <-.
    destruct (Hc _ _ Et) as (data & Hd & Hs). destruct (write_step_data _ _ _ _ Ef Hd) as (Hsrc & data' & Hd' & Hs' & _).
    apply (visitor_inv_update es s _ _ id t t' V Et); try done; [by intros; rewrite offered_snoc, app_nil_r|by left|by simpl; rewrite app_nil_r|].
    exists data'. split; [done|]. etransitivity; [|exact Hs]. by apply sublist_app.
  - destruct (vi_tunnels s !! id) as [t|] eqn:Et; [|done]. simpl in E.
    destruct (tn_reading t); [|done]. simpl in E. destruct (Hc _ _ Et) as (data & Hd & Hs).
    assert (forall src, offered (es ++ [Received id m]) src = offered es src) as Hoff
      by (intros; rewrite offered_snoc; apply app_nil_r).
    destruct m as [m|]; cycle 1.
    { injection E as <-. apply (visitor_inv_update es s _ _ id t (stop_reading t) V Et); try done;
        [|by left|by intros ? ? [=]|by simpl; rewrite app_nil_r|].
      - intros a i. simpl. by intros [_ ?]%lookup_delete_Some.
      - exists data. split; [|done]. by apply (tunnel_data_same t). }
    assert (vi_tunnels s = <[id := t]> (vi_tunnels s)) as Hid by (by rewrite insert_id).
    destruct m; injection E as <-;
      apply (visitor_inv_update es s _ _ id t t V Et); try done; try (by left); try (by intros ? ? [=]);
      try (by exists data); simpl; rewrite ?app_nil_r; try done.
    by rewrite Et.
Qed.

Lemma visitor_run_snoc s es e :
  visitor_run proxy_name s (es ++ [e]) = (s ← visitor_run proxy_name s es; step s e).
Proof. unfold visitor_run. by rewrite foldl_app. Qed.

Lemma visitor_new_inv : visitor_inv [] visitor_new.
Proof. split; try done. intros id m Hi. by apply not_elem_of_nil in Hi. Qed.

Lemma visitor_run_inv es s : visitor_run proxy_name visitor_new es = Some s -> visitor_inv es s.
Proof.
  revert s; induction es as [|e es IH] using rev_ind; intros s.
  { intros [= <-]. apply visitor_new_inv. }
  rewrite visitor_run_snoc. destruct (visitor_run _ _ es) as [s0|]; [|done].
  intros E. eapply visitor_inv_step; [by apply IH|done].
Qed.

(** ** Runs without a failure *)
Definition clean (e : visitor_event) : Prop :=
  match e with Opened None | Write _ false | Received _ None => False | _ => True end.

Definition opening_for (l : loop_state) (src : string) : list (list byte) :=
  match l with Opening a d => if decide (a = src) then [d] else [] | _ => [] end.

Record clean_inv (es : list visitor_event) (s : sudp_visitor) : Prop := {
  cn_tunnel : forall id t, vi_tunnels s !! id = Some t ->
    vi_sessions s !! tn_src t = Some id /\ tn_forwarding t = true /\ tn_writing t = true /\
    exists data, holds t data /\ data ++ pending_for (vi_loop s) id = offered es (tn_src t);
  cn_table : forall src id, vi_sessions s !! src = Some id -> src_of s id = Some src;
  cn_none : forall src, vi_sessions s !! src = None -> offered es src = opening_for (vi_loop s) src;
  cn_opening : forall src d, vi_loop s = Opening src d -> vi_sessions s !! src = None;
  cn_sending : forall id src d, vi_loop s = Sending id src d -> src_of s id = Some src;
}.

Lemma clean_inv_update es s e s' id t t' : clean_inv es s -> vi_tunnels s !! id = Some t ->
  tn_src t' = tn_src t -> tn_forwarding t' = true -> tn_writing t' = true ->
  vi_tunnels s' = <[id := t']> (vi_tunnels s) -> vi_sessions s' = vi_sessions s ->
  (forall src, offered (es ++ [e]) src = offered es src) ->
  (vi_loop s' = vi_loop s \/ vi_loop s' = Receiving /\ exists src d, vi_loop s = Sending id src d) ->
  (exists data, holds t' data /\ data ++ pending_for (vi_loop s') id = offered es (tn_src t)) ->
  clean_inv (es ++ [e]) s'.
Proof.
  intros V Ht Hsrc Hf Hw Ht' Hses Hoff Hloop Hdata.
  assert (forall i, src_of s' i = src_of s i) as Hso.
  { intros i. unfold src_of. rewrite Ht'. by apply (src_of_update s id t t' i). }
  split.
  - intros i u. rewrite Ht', Hoff, Hses. destruct (decide (i = id)) as [->|Hi].
    + rewrite lookup_insert_eq. intros [= <-]. rewrite Hsrc. split_and!; try done. by apply (cn_tunnel _ _ V).
    + rewrite lookup_insert_ne by done. intros Hu. destruct (cn_tunnel _ _ V _ _ Hu) as (? & ? & ? & data & Hd & He).
      split_and!; try done. exists data. split; [done|]. rewrite <- He. f_equal.
      destruct Hloop as [->|(-> & src & d & ->)]; [done|]. simpl. by rewrite decide_False.
  - intros src i. rewrite Hses, Hso. apply V.
  - intros src. rewrite Hses, Hoff. intros Hn. rewrite (cn_none _ _ V _ Hn).
    by destruct Hloop as [->|(-> & a & d & ->)].
  - intros src d. rewrite Hses. destruct Hloop as [->|(-> & ?)]; [apply V|done].
  - intros i src d. rewrite Hso. destruct Hloop as [->|(-> & ?)]; [apply V|done].
Qed.

Lemma clean_inv_datagram es s src d s' : clean_inv es s -> step s (Datagram src d) = Some s' ->
  clean_inv (es ++ [Datagram src d]) s'.
Proof.
  intros V E. simpl in E. destruct (vi_loop s) eqn:El; [|done..]. injection E as <-.
  assert (forall a, offered (es ++ [Datagram src d]) a = offered es a ++ (if decide (src = a) then [d] else [])) as Hoff
    by (intros; apply offered_snoc).
  split; simpl.
  - intros id t Ht. destruct (cn_tunnel _ _ V _ _ Ht) as (Hses & Hf & Hw & data & Hd & He).
    split_and!; try done. exists data. split; [done|]. rewrite El in He. simpl in He. rewrite app_nil_r in He.
    rewrite Hoff, <- He. f_equal. case_decide as Hsrc.
    + subst src. rewrite Hses. simpl. by rewrite decide_True.
    + destruct (vi_sessions s !! src) as [id'|] eqn:Es; [|done]. simpl. rewrite decide_False; [done|].
      intros ->. apply (cn_table _ _ V) in Es. unfold src_of in Es. rewrite Ht in Es. by injection Es.
  - apply V.
  - intros a Ha. rewrite Hoff, (cn_none _ _ V _ Ha), El. simpl. case_decide as Hsrc; [subst a|].
    + rewrite Ha. simpl. by rewrite decide_True.
    + destruct (vi_sessions s !! src); [done|]. simpl. by rewrite decide_False.
  - intros a d'. destruct (vi_sessions s !! src) eqn:Es; [done|]. by intros [= <- <-].
  - intros id a d'. destruct (vi_sessions s !! src) eqn:Es; [|done]. intros [= <- <- <-].
    by apply (cn_table _ _ V).
Qed.

Lemma clean_inv_opened es s id s' : clean_inv es s -> step s (Opened (Some id)) = Some s' ->
  clean_inv (es ++ [Opened (Some id)]) s'.
Proof.
  intros V E. simpl in E. destruct (vi_loop s) as [|src d|] eqn:El; [done| |done].
  pose proof (cn_opening _ _ V _ _ El) as Hno.
  destruct (vi_tunnels s !! id) eqn:Et; [done|]. injection E as <-.
  assert (forall a, offered (es ++ [Opened (Some id)]) a = offered es a) as Hoff
    by (intros; rewrite offered_snoc; apply app_nil_r).
  split; simpl.
  - intros i t. rewrite Hoff, lookup_insert_Some. intros [[<- <-]|[Hi Ht]].
    + simpl. split_and!; [by rewrite lookup_insert_eq|done|done|]. exists []. split; [by exists [], []|].
      rewrite decide_True by done. rewrite (cn_none _ _ V _ Hno), El. simpl. by rewrite decide_True.
    + destruct (cn_tunnel _ _ V _ _ Ht) as (Hses & Hf & Hw & data & Hd & He).
      split_and!; try done; [rewrite lookup_insert_ne; [done|congruence]|].
      exists data. split; [done|]. rewrite decide_False by done. by rewrite El in He.
  - intros a i. unfold src_of. simpl. rewrite lookup_insert_Some. intros [[<- <-]|[_ Hi]]; [by rewrite lookup_insert_eq|].
    apply (cn_table _ _ V) in Hi. unfold src_of in Hi. rewrite lookup_insert_ne; [done|].
    intros ->. by rewrite Et in Hi.
  - intros a. rewrite Hoff, lookup_insert_None. intros [Ha Hne]. rewrite (cn_none _ _ V _ Ha), El. simpl.
    by rewrite decide_False.
  - done.
  - intros i a d' [= <- <- <-]. unfold src_of. simpl. by rewrite lookup_insert_eq.
Qed.

Lemma clean_inv_step es s e s' : clean_inv es s -> clean e -> step s e = Some s' -> clean_inv (es ++ [e]) s'.
Proof.
  intros V Hcl E. destruct e as [src d|[id|]| |id|id [|]|id [m|]]; try done;
    [by eapply clean_inv_datagram|by eapply clean_inv_opened|..]; simpl in E;
    match goal with |- clean_inv (_ ++ [?e]) _ =>
      assert (forall a, offered (es ++ [e]) a = offered es a) as Hoff
        by (intros; rewrite offered_snoc; apply app_nil_r)
    end.
  - destruct (vi_loop s) as [| |id src d] eqn:El; [done..|].
    destruct (vi_tunnels s !! id) as [t|] eqn:Et; [|done]. simpl in E.
    destruct (cn_tunnel _ _ V _ _ Et) as (_ & Hf & Hw & data & Hd & He). rewrite Hf in E. simpl in E.
    case_decide; [|done]. injection E as <-.
    apply (clean_inv_update es s _ _ id t (enqueue d t) V Et); try done; [by right; eauto|].
    rewrite El in He. simpl in He. rewrite decide_True in He by done.
    exists (data ++ [d]). split; [|by rewrite app_nil_r]. destruct Hd as (w & o & ? & ? & ->).
    exists w, o. simpl. split_and!; [done..|]. by rewrite !app_assoc.
  - destruct (vi_tunnels s !! id) as [t|] eqn:Et; [|done]. simpl in E.
    destruct (forward_step proxy_name t) as [t'|] eqn:Ef; [|done]. injection E as <-.
    destruct (cn_tunnel _ _ V _ _ Et) as (_ & Hf & Hw & data & Hd & He).
    destruct (forward_step_data _ _ _ Ef Hd) as (Hsrc & data' & Hd' & _ & Hk).
    destruct (Hk Hw) as (-> & ? & ?).
    apply (clean_inv_update es s _ _ id t t' V Et); try done; [by left|]. by exists data.
  - destruct (vi_tunnels s !! id) as [t|] eqn:Et; [|done]. simpl in E.
    destruct (write_step true t) as [t'|] eqn:Ef; [|done]. injection E as <-.
    destruct (cn_tunnel _ _ V _ _ Et) as (_ & Hf & Hw & data & Hd & He).
    destruct (write_step_data _ _ _ _ Ef Hd) as (Hsrc & data' & Hd' & _ & Hfw & Hk).
    destruct (Hk eq_refl) as (-> & ?).
    apply (clean_inv_update es s _ _ id t t' V Et); try done; [congruence|by left|]. by exists data.
  - destruct (vi_tunnels s !! id) as [t|] eqn:Et; [|done]. simpl in E.
    destruct (tn_reading t); [|done]. simpl in E.
    destruct (cn_tunnel _ _ V _ _ Et) as (_ & Hf & Hw & data & Hd & He).
    assert (vi_tunnels s = <[id := t]> (vi_tunnels s)) as Hid by (by rewrite insert_id).
    destruct m; injection E as <-; apply (clean_inv_update es s _ _ id t t V Et); try done;
      try (by left); by exists data.
Qed.

Lemma clean_run_inv es s : visitor_run proxy_name visitor_new es = Some s -> Forall clean es -> clean_inv es s.
Proof.
  revert s; induction es as [|e es IH] using rev_ind; intros s.
  { intros [= <-] _. by split. }
  rewrite visitor_run_snoc. destruct (visitor_run _ _ es) as [s0|]; [|done].
  intros E [Hes [He _]%Forall_cons]%Forall_app. eapply clean_inv_step; [by apply IH|done..].
Qed.

Lemma sudp_content es s id t : visitor_run proxy_name visitor_new es = Some s ->
  vi_tunnels s !! id = Some t ->
  exists w, tn_wire t = udp_packet proxy_name (tn_src t) <$> w /\ sublist w (offered es (tn_src t)).
Proof.
  intros V%visitor_run_inv Ht.
  destruct (vn_content _ _ V _ _ Ht) as (data & (w & o & Hw & _ & ->) & Hs). exists w. split; [done|].
  etransitivity; [|exact Hs]. rewrite <- app_assoc. by apply sublist_inserts_r.
Qed.

(** a UDP visitor mixes nothing up, whatever fails: a tunnel opened for a
    source only ever carries datagrams of that source, marked with its address,
    in the order they came, none of them twice; and every datagram that comes out
    of a tunnel is sent to the source the tunnel was opened for, in order, and to
    nobody else. *)
Theorem sudp_sources_separate es s : visitor_run proxy_name visitor_new es = Some s ->
  (forall id t, vi_tunnels s !! id = Some t ->
     exists w, tn_wire t = udp_packet proxy_name (tn_src t) <$> w /\ sublist w (offered es (tn_src t))) /\
  vi_delivered s = returned (vi_tunnels s) es.
Proof.
  intros Hr. split; [|by apply visitor_run_inv in Hr as []]. intros id t. by apply sudp_content.
Qed.

(** nothing is lost while nothing fails: as long as every tunnel opens, is
    written and stays open, each source that sent a datagram has one tunnel, and
    what was written to it, what waits in its two queues and what the loop is
    holding for it are together exactly the datagrams of that source, in order. *)
Theorem sudp_lossless es s src : visitor_run proxy_name visitor_new es = Some s -> Forall clean es ->
  match vi_sessions s !! src with
  | Some id => exists t w o, vi_tunnels s !! id = Some t /\ tn_src t = src /\
      tn_wire t = udp_packet proxy_name src <$> w /\ tn_out t = udp_packet proxy_name src <$> o /\
      w ++ o ++ tn_inbound t ++ pending_for (vi_loop s) id = offered es src
  | None => offered es src = opening_for (vi_loop s) src
  end.
Proof.
  intros Hr Hcl. pose proof (clean_run_inv es s Hr Hcl) as V.
  destruct (vi_sessions s !! src) as [id|] eqn:Es; [|by apply V].
  pose proof (cn_table _ _ V _ _ Es) as Hs. unfold src_of in Hs.
  destruct (vi_tunnels s !! id) as [t|] eqn:Et; [|done]. injection Hs as <-.
  destruct (cn_tunnel _ _ V _ _ Et) as (_ & _ & _ & data & (w & o & Hw & Ho & ->) & He).
  exists t, w, o. split_and!; try done. by rewrite <- He, !app_assoc.
Qed.
End Runs.

(** ** What an owner run does *)

(** The datagrams that came through the tunnel for a source. *)
Definition arrived (es : list owner_event) (client : string) : list (list byte) :=
  omap (fun e => match e with
                 | OMessage (Some m) _ =>
                     '(c, d) ← payload_of m; if decide (c = client) then Some d else None
                 | _ => None
                 end) es.

(** What the local sockets and the heartbeat had to say. *)
Definition reply_one (proxy_name : string) (locals : gmap nat local_session) (e : owner_event) : option Message :=
  match e with
  | OLocalRecv id (Some d) => (fun l => udp_packet proxy_name (lo_client l) d) <$> locals !! id
  | OHeartbeat timestamp => Some (keepalive timestamp)
  | _ => None
  end.
Definition replies (proxy_name : string) (locals : gmap nat local_session) (es : list owner_event) : list Message :=
  omap (reply_one proxy_name locals) es.

Section Owners.
Context (proxy_name : string).
Local Notation step := (owner_step proxy_name).

Definition client_of (s : sudp_proxy) (id : nat) : option string := lo_client <$> ow_locals s !! id.
Definition held_for (s : sudp_proxy) (id : nat) : list (list byte) :=
  match ow_pending s with Some (i, _, d) => if decide (i = id) then [d] else [] | None => [] end.

Record owner_inv (es : list owner_event) (s : sudp_proxy) : Prop := {
  on_table : forall c id, ow_sessions s !! c = Some id -> client_of s id = Some c;
  on_pending : forall id c d, ow_pending s = Some (id, c, d) -> client_of s id = Some c;
  on_content : forall id l, ow_locals s !! id = Some l ->
    sublist (lo_sent l ++ lo_inbound l ++ held_for s id) (arrived es (lo_client l));
  on_seen : forall id d, OLocalRecv id d ∈ es -> is_Some (ow_locals s !! id);
  on_out : sublist (ow_wire s ++ ow_out s) (replies proxy_name (ow_locals s) es);
}.

Lemma arrived_snoc es e c : arrived (es ++ [e]) c = arrived es c ++ arrived [e] c.
Proof. apply omap_app. Qed.
Lemma replies_snoc m es e : replies proxy_name m (es ++ [e]) = replies proxy_name m es ++ replies proxy_name m [e].
Proof. apply omap_app. Qed.

Lemma arrived_other e c : match e with OMessage (Some _) _ => False | _ => True end -> arrived [e] c = [].
Proof. by destruct e as [[]| | | | |]. Qed.

Lemma arrived_payload m i a d c : payload_of m = Some (a, d) ->
  arrived [OMessage (Some m) i] c = if decide (a = c) then [d] else [].
Proof. intros E. unfold arrived. cbn [omap list_omap]. rewrite E. simpl. by case_decide. Qed.

Lemma replies_same (m m' : gmap nat local_session) es :
  (forall id, (exists d, OLocalRecv id d ∈ es) -> lo_client <$> m' !! id = lo_client <$> m !! id) ->
  replies proxy_name m' es = replies proxy_name m es.
Proof.
  intros Hm. unfold replies. induction es as [|e es IH]; [done|].
  cbn [omap list_omap]. rewrite IH; [|intros id [r Hr]; apply Hm; exists r; by right].
  assert (reply_one proxy_name m' e = reply_one proxy_name m e) as ->; [|done].
  destruct e as [| | |id [d|]| |]; try done. simpl.
  assert (lo_client <$> m' !! id = lo_client <$> m !! id) by (apply Hm; eexists; left).
  clear Hm IH. destruct (m !! id), (m' !! id); simpl in *; congruence.
Qed.

(** One more event, which is no message for a session and changes at most one
    session in place. *)
Lemma owner_inv_update es s e s' id l l' : owner_inv es s ->
  ow_locals s !! id = Some l -> lo_client l' = lo_client l ->
  ow_locals s' = <[id := l']> (ow_locals s) ->
  (forall c, arrived [e] c = []) ->
  (forall c i, ow_sessions s' !! c = Some i -> ow_sessions s !! c = Some i) ->
  (ow_pending s' = ow_pending s \/ ow_pending s' = None) ->
  (forall i d, e = OLocalRecv i d -> i = id) ->
  sublist (lo_sent l' ++ lo_inbound l' ++ held_for s' id) (lo_sent l ++ lo_inbound l ++ held_for s id) ->
  sublist (ow_wire s' ++ ow_out s') (ow_wire s ++ ow_out s ++ replies proxy_name (ow_locals s') [e]) ->
  owner_inv (es ++ [e]) s'.
Proof.
  intros V Hl Hc Hl' Harr Hses Hpend Hrec Hdata Hout.
  assert (forall i, client_of s' i = client_of s i) as Hco.
  { intros i. unfold client_of. rewrite Hl'. destruct (decide (i = id)) as [->|].
    - rewrite lookup_insert_eq, Hl. simpl. by rewrite Hc.
    - by rewrite lookup_insert_ne. }
  split.
  - intros c i Hi. rewrite Hco. by apply (on_table _ _ V), Hses.
  - intros i c d. rewrite Hco. destruct Hpend as [->| ->]; [apply V|done].
  - intros i u. rewrite Hl', arrived_snoc, Harr, app_nil_r. destruct (decide (i = id)) as [->|Hi].
    + rewrite lookup_insert_eq. intros [= <-]. rewrite Hc. etransitivity; [exact Hdata|]. by apply V.
    + rewrite lookup_insert_ne by done. intros Hu. etransitivity; [|by apply (on_content _ _ V i)].
      apply sublist_app; [done|]. apply sublist_app; [done|]. unfold held_for.
      destruct Hpend as [->| ->]; [done|]. apply sublist_nil_l.
  - intros i d [Hi|Hi%list_elem_of_singleton]%elem_of_app; rewrite Hl'.
    + destruct (decide (i = id)) as [->|]; [by rewrite lookup_insert_eq|].
      rewrite lookup_insert_ne by done. by eapply (on_seen _ _ V).
    + symmetry in Hi. apply Hrec in Hi as ->. by rewrite lookup_insert_eq.
  - rewrite replies_snoc. etransitivity; [exact Hout|]. rewrite app_assoc. apply sublist_app; [|done].
    rewrite (replies_same (ow_locals s)); [apply V|]. intros i _. apply Hco.
Qed.

(** The same when no session changes at all. *)
Lemma owner_inv_quiet es s e s' : owner_inv es s -> ow_locals s' = ow_locals s ->
  (forall c, arrived [e] c = []) ->
  (forall c i, ow_sessions s' !! c = Some i -> ow_sessions s !! c = Some i) ->
  ow_pending s' = ow_pending s ->
  (forall i d, e = OLocalRecv i d -> is_Some (ow_locals s !! i)) ->
  sublist (ow_wire s' ++ ow_out s') (ow_wire s ++ ow_out s ++ replies proxy_name (ow_locals s') [e]) ->
  owner_inv (es ++ [e]) s'.
Proof.
  intros V Hl Harr Hses Hpend Hrec Hout. split.
  - intros c i Hi. unfold client_of. rewrite Hl. by apply (on_table _ _ V), Hses.
  - intros i c d. unfold client_of. rewrite Hpend, Hl. apply V.
  - intros i u. rewrite Hl, arrived_snoc, Harr, app_nil_r. unfold held_for. rewrite Hpend. apply V.
  - intros i d [Hi|Hi%list_elem_of_singleton]%elem_of_app; rewrite Hl; [by eapply (on_seen _ _ V)|eauto].
  - rewrite replies_snoc. etransitivity; [exact Hout|]. rewrite app_assoc. apply sublist_app; [|done].
    rewrite Hl. apply V.
Qed.

Lemma owner_inv_message es s m i a d s' : owner_inv es s -> payload_of m = Some (a, d) ->
  step s (OMessage (Some m) i) = Some s' -> owner_inv (es ++ [OMessage (Some m) i]) s'.
Proof.
  intros V Hp E. cbn [owner_step] in E. destruct (negb _ || _) eqn:Er; [done|].
  apply orb_false_iff in Er as [_ Hn%bool_decide_eq_false]. rewrite Hp in E.
  assert (ow_pending s = None) as Hpn by (destruct (ow_pending s); [by destruct Hn|done]).
  assert (forall id, held_for s id = []) as Hh by (intros; unfold held_for; by rewrite Hpn).
  assert (forall c, arrived (es ++ [OMessage (Some m) i]) c = arrived es c ++ (if decide (a = c) then [d] else [])) as Harr.
  { intros c. by rewrite arrived_snoc, (arrived_payload _ _ _ _ _ Hp). }
  assert (forall j x, OLocalRecv j x ∈ es ++ [OMessage (Some m) i] -> OLocalRecv j x ∈ es) as Hin.
  { intros j x [Hi|Hi%list_elem_of_singleton]%elem_of_app; done. }
  destruct (ow_sessions s !! a) as [id|] eqn:Es; [|destruct (ow_locals s !! i) eqn:El; [done|]]; injection E as <-.
  - pose proof (on_table _ _ V _ _ Es) as Hc. split; simpl; [apply V| | | |].
    + intros j c x [= <- <- <-]. exact Hc.
    + intros j l Hl. rewrite Harr. pose proof (on_content _ _ V _ _ Hl) as Hs. rewrite Hh, app_nil_r in Hs.
      rewrite app_assoc. apply sublist_app; [done|]. unfold held_for. simpl.
      case_decide; [subst j|apply sublist_nil_l]. unfold client_of in Hc. rewrite Hl in Hc. injection Hc as ->.
      by rewrite decide_True.
    + intros j x Hj. by eapply (on_seen _ _ V), Hin.
    + rewrite replies_snoc. simpl. rewrite app_nil_r. apply V.
  - assert (forall j, is_Some (ow_locals s !! j) -> i <> j) as Hne by (intros j [? ?] ->; congruence).
    assert (forall j c, client_of s j = Some c -> i <> j) as Hne'.
    { intros j c Hj. apply Hne. unfold client_of in Hj. by destruct (ow_locals s !! j). }
    split; simpl.
    + intros c j. unfold client_of. simpl. rewrite lookup_insert_Some. intros [[<- <-]|[_ Hj]]; [by rewrite lookup_insert_eq|].
      apply (on_table _ _ V) in Hj. by rewrite lookup_insert_ne by eauto.
    + intros j c x [= <- <- <-]. unfold client_of. simpl. by rewrite lookup_insert_eq.
    + intros j l. rewrite Harr, lookup_insert_Some. unfold held_for. simpl. intros [[<- <-]|[Hj Hl]].
      * simpl. rewrite !decide_True by done. by apply sublist_inserts_l.
      * rewrite decide_False by done. pose proof (on_content _ _ V _ _ Hl) as Hs. rewrite Hh in Hs.
        by apply sublist_inserts_r.
    + intros j x Hj%Hin%(on_seen _ _ V). rewrite lookup_insert_ne by auto. done.
    + rewrite replies_snoc. simpl. rewrite app_nil_r. rewrite (replies_same (ow_locals s)); [apply V|].
      intros j [x Hj%(on_seen _ _ V)]. by rewrite lookup_insert_ne by auto.
Qed.

Lemma owner_send_spec m s sent s' : owner_send m s = Some (sent, s') ->
  ow_locals s' = ow_locals s /\ ow_sessions s' = ow_sessions s /\ ow_pending s' = ow_pending s /\
  ow_wire s' = ow_wire s /\ ow_out s' = ow_out s ++ (if sent then [m] else []).
Proof.
  unfold owner_send. destruct (ow_writing s); simpl; [case_decide; [|done]|]; intros [= <- <-]; by rewrite ?app_nil_r.
Qed.

Lemma owner_inv_step es s e s' : owner_inv es s -> step s e = Some s' -> owner_inv (es ++ [e]) s'.
Proof.
  intros V E. destruct e as [m i| |id ok|id data|timestamp|ok].
  - destruct m as [m|].
    + destruct (payload_of m) as [[a d]|] eqn:Hp; [by eapply owner_inv_message|].
      cbn [owner_step] in E. destruct (_ || _); [done|]. rewrite Hp in E. injection E as <-.
      apply (owner_inv_quiet es s _ _ V); try done; [|by rewrite !app_nil_r].
      intros c. unfold arrived. cbn [omap list_omap]. by rewrite Hp.
    + cbn [owner_step] in E. destruct (_ || _); [done|]. injection E as <-.
      apply (owner_inv_quiet es s _ _ V); try done. by rewrite !app_nil_r.
  - cbn [owner_step] in E. destruct (ow_pending s) as [[[id c] d]|] eqn:Ep; [|done]. simpl in E.
    destruct (ow_locals s !! id) as [l|] eqn:El; [|done]. simpl in E.
    assert (held_for s id = [d]) as Hh by (unfold held_for; rewrite Ep; by rewrite decide_True).
    destruct (lo_alive l); simpl in E; [case_decide; [|done]|]; injection E as <-.
    + eapply (owner_inv_update es s _ _ id l (Local (lo_client l) (lo_inbound l ++ [d]) true (lo_sent l)) V El);
        try done; [by right| |by rewrite !app_nil_r].
      simpl. rewrite Hh. unfold held_for. simpl. by rewrite app_nil_r.
    + apply (owner_inv_update es s _ _ id l l V El); try done; [simpl; by rewrite insert_id| |by right| |by rewrite !app_nil_r].
      * intros a i. simpl. by intros [_ ?]%lookup_delete_Some.
      * apply sublist_app; [done|]. apply sublist_app; [done|]. unfold held_for at 1. simpl. apply sublist_nil_l.
  - cbn [owner_step] in E. destruct (ow_locals s !! id) as [l|] eqn:El; [|done]. simpl in E.
    destruct (lo_alive l); [|done]. destruct (lo_inbound l) as [|d rest] eqn:Ei; [done|].
    destruct ok; injection E as <-.
    + eapply (owner_inv_update es s _ _ id l (Local (lo_client l) rest true (lo_sent l ++ [d])) V El);
        try done; [by left| |by rewrite !app_nil_r].
      simpl. rewrite Ei. by rewrite <- !app_assoc.
    + eapply (owner_inv_update es s _ _ id l (stop_local l) V El); try done; [by left| |by rewrite !app_nil_r].
      simpl. rewrite Ei. apply sublist_app; [done|]. by apply (sublist_inserts_l (d :: rest)).
  - cbn [owner_step] in E. destruct (ow_locals s !! id) as [l|] eqn:El; [|done]. simpl in E.
    destruct (lo_alive l); [|done]. simpl in E. destruct data as [data|].
    + destruct (owner_send _ s) as [[sent s1]|] eqn:Eo; [|done]. simpl in E. injection E as <-.
      apply owner_send_spec in Eo as (H1 & H2 & H3 & H4 & H5). destruct sent.
      * eapply (owner_inv_update es s _ _ id l l V El); try done.
        -- rewrite H1. by rewrite insert_id.
        -- intros a i. by rewrite H2.
        -- by left.
        -- by intros i d [= <- _].
        -- unfold held_for. by rewrite H3.
        -- rewrite H4, H5, H1. simpl. by rewrite El.
      * eapply (owner_inv_update es s _ _ id l (stop_local l) V El); try done.
        -- simpl. by rewrite H1.
        -- intros a i. simpl. by rewrite H2.
        -- by left.
        -- by intros i d [= <- _].
        -- simpl. unfold held_for. simpl. rewrite H3. apply sublist_app; [done|]. by apply sublist_inserts_l.
        -- simpl. rewrite H4, H5, app_nil_r. rewrite app_assoc. by apply sublist_inserts_r.
    + injection E as <-. eapply (owner_inv_update es s _ _ id l (stop_local l) V El); try done.
      * by left.
      * by intros i d [= <- _].
      * simpl. apply sublist_app; [done|]. by apply sublist_inserts_l.
      * by rewrite !app_nil_r.
  - cbn [owner_step] in E. destruct (owner_send _ s) as [[sent s1]|] eqn:Eo; [|done]. simpl in E. injection E as <-.
    apply owner_send_spec in Eo as (H1 & H2 & H3 & H4 & H5).
    apply (owner_inv_quiet es s _ _ V); try done; [intros c i; by rewrite H2|].
    rewrite H4, H5. simpl. apply sublist_app; [done|]. apply sublist_app; [done|]. destruct sent; [done|apply sublist_nil_l].
  - cbn [owner_step] in E. destruct (ow_writing s); [|done]. simpl in E.
    destruct (ow_out s) as [|m rest] eqn:Eo; [done|].
    destruct ok; injection E as <-; apply (owner_inv_quiet es s _ _ V); try done; simpl; rewrite Eo, app_nil_r.
    + by rewrite <- app_assoc.
    + rewrite app_nil_r. by apply sublist_inserts_r.
Qed.

Lemma owner_run_inv es s : owner_run proxy_name owner_new es = Some s -> owner_inv es s.
Proof.
  revert s; induction es as [|e es IH] using rev_ind; intros s.
  { intros [= <-]. split; try done. intros id d Hi. by apply not_elem_of_nil in Hi. }
  unfold owner_run. rewrite foldl_app. fold (owner_run proxy_name owner_new es).
  simpl. destruct (owner_run _ _ es) as [s0|]; [|done]. intros E. eapply owner_inv_step; [by apply IH|done].
Qed.
End Owners.

(** The messages the owner read, in order. *)
Definition messages_read (es : list owner_event) : list Message :=
  omap (fun e => match e with OMessage m _ => m | _ => None end) es.

Lemma arrived_read es client : arrived es client =
  omap (fun m => '(c, d) ← payload_of m; if decide (c = client) then Some d else None) (messages_read es).
Proof. induction es as [|[[m|]| | | | |] es IH]; cbn [arrived messages_read omap list_omap]; try done.
  unfold arrived in IH. rewrite IH. by destruct (_ ≫= _). Qed.

Lemma arrived_packets proxy_name src w client :
  omap (fun m => '(c, d) ← payload_of m; if decide (c = client) then Some d else None)
    (udp_packet proxy_name src <$> w) = if decide (src = client) then w else [].
Proof.
  induction w as [|d w IH]; [by case_decide|]. cbn [fmap list_fmap omap list_omap]. rewrite IH. simpl. by case_decide.
Qed.

Lemma packets_prefix proxy_name src (w : list (list byte)) ms : ms `prefix_of` (udp_packet proxy_name src <$> w) ->
  exists v, ms = udp_packet proxy_name src <$> v /\ v `prefix_of` w.
Proof.
  intros [rest E]. apply fmap_app_inv in E as (v & u & -> & -> & ->).
  exists v. split; [done|]. by exists u.
Qed.

(** C21: end to end: whatever fails on the way, what a local UDP service
    receives on a socket of the owner are datagrams of the one source that
    socket is for, the source of the tunnel, in the order that source sent them
    and none twice; and what goes back through the tunnel is what the sockets
    received, marked with that same source, and keep-alives. *)
Theorem sudp_end_to_end proxy_name ves v id t oes o i l :
  visitor_run proxy_name visitor_new ves = Some v -> vi_tunnels v !! id = Some t ->
  owner_run proxy_name owner_new oes = Some o -> messages_read oes `prefix_of` tn_wire t ->
  ow_locals o !! i = Some l ->
  sublist (lo_sent l) (if decide (lo_client l = tn_src t) then offered ves (tn_src t) else []) /\
  sublist (ow_wire o) (replies proxy_name (ow_locals o) oes).
Proof.
  intros Hv Ht Ho Hread Hl. destruct (sudp_content proxy_name ves v id t Hv Ht) as (w & Hw & Hs).
  pose proof (owner_run_inv proxy_name oes o Ho) as V. split.
  - pose proof (on_content _ _ _ V _ _ Hl) as Hc. rewrite Hw in Hread.
    apply packets_prefix in Hread as (u & Hu & Hpre). rewrite arrived_read, Hu, arrived_packets in Hc.
    etransitivity; [apply sublist_inserts_r, reflexivity|].
    etransitivity; [exact Hc|]. destruct (decide (tn_src t = lo_client l)) as [<-|Hne].
    + rewrite decide_True by done. etransitivity; [|exact Hs]. destruct Hpre as [k ->]. by apply sublist_inserts_r.
    + apply sublist_nil_l.
  - etransitivity; [|exact (on_out _ _ _ V)]. by apply sublist_inserts_r.
Qed.

(** While the loop waits for one session's queue, no other source is heard. *)
Lemma one_stalled_tunnel_stops_all proxy_name s id src data t :
  vi_loop s = Sending id src data -> vi_tunnels s !! id = Some t -> tn_forwarding t = true ->
  (SESSION_QUEUE <= length (tn_inbound t))%nat ->
  visitor_step proxy_name s Sent = None /\ forall a d, visitor_step proxy_name s (Datagram a d) = None.
Proof.
  intros El Et Hf Hq. simpl. rewrite El, Et. simpl. rewrite Hf. simpl. by rewrite decide_False by lia.
Qed.

(** A tunnel whose writer died loses three datagrams, and when its reader notices
    at last it takes the entry of the tunnel that replaced it. *)
Definition stale_run : list visitor_event :=
  [Datagram "1.2.3.4:5" [Byte.x01]; Opened (Some 1%nat); Sent; Forward 1; Write 1 false;
   Datagram "1.2.3.4:5" [Byte.x02]; Sent; Forward 1; Datagram "1.2.3.4:5" [Byte.x03]; Sent;
   Datagram "1.2.3.4:5" [Byte.x04]; Opened (Some 2%nat); Sent; Forward 2; Write 2 true;
   Received 1 None].
Lemma stale_reader_removes_new_session :
  exists s, visitor_run "dns" visitor_new stale_run = Some s /\ vi_sessions s = ∅ /\
    tn_wire <$> vi_tunnels s !! 1%nat = Some [] /\
    tn_wire <$> vi_tunnels s !! 2%nat = Some [udp_packet "dns" "1.2.3.4:5" [Byte.x04]] /\
    tn_reading <$> vi_tunnels s !! 2%nat = Some true.
Proof. eexists. split; [vm_compute; reflexivity|]. by vm_compute. Qed.

(** ** Runs *)
Definition demo_visit : list visitor_event :=
  [Datagram "1.2.3.4:5" [Byte.x01]; Opened (Some 1%nat); Sent; Datagram "9.9.9.9:9" [Byte.x41];
   Opened (Some 2%nat); Sent; Forward 1; Datagram "1.2.3.4:5" [Byte.x02]; Sent; Forward 2; Write 1 true;
   Forward 1; Write 1 true; Write 2 true; Received 2 (Some (udp_packet "dns" "9.9.9.9:9" [Byte.x42]))].
Definition demo_serve : list owner_event :=
  [OMessage (Some (udp_packet "dns" "1.2.3.4:5" [Byte.x01])) 7; OSent; OLocalSend 7 true;
   OMessage (Some (udp_packet "dns" "1.2.3.4:5" [Byte.x02])) 8; OSent; OLocalSend 7 true;
   OLocalRecv 7 (Some [Byte.x10]); OWrite true; OHeartbeat 5].

Lemma sudp_sources_separate_witness :
  exists s, visitor_run "dns" visitor_new demo_visit = Some s /\
    vi_delivered s = [("9.9.9.9:9"%string, [Byte.x42])] /\
    vi_delivered s = returned (vi_tunnels s) demo_visit.
Proof.
  eexists. split; [vm_compute; reflexivity|]. split; [reflexivity|].
  apply (sudp_sources_separate "dns" demo_visit). vm_compute. reflexivity.
Defined.

Lemma sudp_lossless_witness :
  exists s id t w o, visitor_run "dns" visitor_new demo_visit = Some s /\ vi_tunnels s !! id = Some t /\
    tn_wire t = udp_packet "dns" "1.2.3.4:5" <$> w /\
    w ++ o ++ tn_inbound t ++ pending_for (vi_loop s) id = [[Byte.x01]; [Byte.x02]].
Proof.
  eexists. assert (visitor_run "dns" visitor_new demo_visit = Some ltac:(let r := eval vm_compute in
    (visitor_run "dns" visitor_new demo_visit) in match r with Some ?x => exact x end)) as E by (vm_compute; reflexivity).
  pose proof (sudp_lossless "dns" demo_visit _ "1.2.3.4:5" E) as L.
  assert (Forall clean demo_visit) as Hc by (repeat constructor). specialize (L Hc).
  simpl in L. destruct L as (t & w & o & Ht & _ & Hw & _ & Hall).
  exists 1%nat, t, w, o. split_and!; [exact E|exact Ht|exact Hw|exact Hall].
Defined.

Definition demo_visitor : sudp_visitor := default visitor_new (visitor_run "dns" visitor_new demo_visit).
Definition demo_tunnel : tunnel := default (tunnel_new EmptyString) (vi_tunnels demo_visitor !! 1%nat).
Definition demo_owner : sudp_proxy := default owner_new (owner_run "dns" owner_new demo_serve).
Definition demo_local : local_session :=
  default (Local EmptyString [] false []) (ow_locals demo_owner !! 7%nat).

Lemma sudp_end_to_end_witness :
  lo_sent demo_local = [[Byte.x01]; [Byte.x02]] /\
  sublist (lo_sent demo_local) (offered demo_visit "1.2.3.4:5") /\
  sublist [udp_packet "dns" "1.2.3.4:5" [Byte.x10]] (replies "dns" (ow_locals demo_owner) demo_serve).
Proof.
  split; [vm_compute; reflexivity|].
  apply (sudp_end_to_end "dns" demo_visit demo_visitor 1 demo_tunnel demo_serve demo_owner 7 demo_local).
  - vm_compute. reflexivity.
  - vm_compute. reflexivity.
  - vm_compute. reflexivity.
  - exists []. vm_compute. reflexivity.
  - vm_compute. reflexivity.
Defined.
