(* ===== verification/WsConn.v ===== *)
(** * WebSocket connections as byte streams (src/rust_frp_net/src/lib.rs,
    [WebSocketConn])

    A WebSocket carries messages; the adapter makes a byte stream of them: what
    does not fit the reader's buffer waits in [read_buf], and a write is one
    binary frame, handed to the sink and flushed, with [write_pending] for a flush
    that is not finished.  The [tungstenite] stream below is a list of what
    [poll_next] answers and a list of what the sink's calls answer. *)
From S2P Require Import Prelude Transport.

Inductive ws_message :=
| WsBinary (data : list byte)
| WsText (data : list byte)
| WsControl.                                   (* ping, pong, close, raw frame *)

(** The answers of [poll_next], in order; after them the stream has ended. *)
Inductive ws_item :=
| Message (m : ws_message)
| Failure (e : io_error)
| NotYet.

(** The answers of the sink's calls; after them every call succeeds. *)
Inductive sink_answer := SinkReady | SinkPending | SinkError (e : io_error).

Record WebSocketConn := Ws {
  ws_items : list ws_item;
  ws_answers : list sink_answer;
  ws_frames : list (list byte);                (* given to [start_send] *)
  ws_read_buf : list byte;
  ws_write_pending : option nat;
}.

Definition ws_new (items : list ws_item) (answers : list sink_answer) : WebSocketConn :=
  Ws items answers [] [] None.

Definition ws_closed : io_error := IoError UnexpectedEof "websocket closed".

Definition with_items (l : list ws_item) (c : WebSocketConn) : WebSocketConn :=
  Ws l (ws_answers c) (ws_frames c) (ws_read_buf c) (ws_write_pending c).
Definition with_read_buf (b : list byte) (c : WebSocketConn) : WebSocketConn :=
  Ws (ws_items c) (ws_answers c) (ws_frames c) b (ws_write_pending c).
Definition with_write_pending (p : option nat) (c : WebSocketConn) : WebSocketConn :=
  Ws (ws_items c) (ws_answers c) (ws_frames c) (ws_read_buf c) p.

(** The next data message, past the control messages. *)
Fixpoint next_data (items : list ws_item) : poll (result io_error (list byte)) * list ws_item :=
  match items with
  | [] => (Ready (Err ws_closed), [])
  | Message (WsBinary d) :: rest => (Ready (Ok d), rest)
  | Message (WsText d) :: rest => (Ready (Ok d), rest)
  | Message WsControl :: rest => next_data rest
  | Failure e :: rest => (Ready (Err e), rest)
  | NotYet :: rest => (Pending, rest)
  end.

(** [poll_read] into a buffer of [cap] bytes. *)
Definition ws_poll_read (cap : nat) (c : WebSocketConn)
  : poll (result io_error (list byte)) * WebSocketConn :=
  match ws_read_buf c with
  | _ :: _ => (Ready (Ok (take cap (ws_read_buf c))), with_read_buf (drop cap (ws_read_buf c)) c)
  | [] =>
      let '(r, rest) := next_data (ws_items c) in
      match r with
      | Ready (Ok d) => (Ready (Ok (take cap d)), with_read_buf (drop cap d) (with_items rest c))
      | Ready (Err e) => (Ready (Err e), with_items rest c)
      | Pending => (Pending, with_items rest c)
      end
  end.

(** One call of the sink: its answer, and the connection after it. *)
Definition sink_call (c : WebSocketConn) : sink_answer * WebSocketConn :=
  match ws_answers c with
  | [] => (SinkReady, c)
  | a :: rest => (a, Ws (ws_items c) rest (ws_frames c) (ws_read_buf c) (ws_write_pending c))
  end.

(** [start_send]: a refused frame is not sent. *)
Definition start_send (frame : list byte) (c : WebSocketConn) : sink_answer * WebSocketConn :=
  let '(a, c) := sink_call c in
  match a with
  | SinkError e => (SinkError e, c)
  | _ => (SinkReady, Ws (ws_items c) (ws_answers c) (ws_frames c ++ [frame]) (ws_read_buf c) (ws_write_pending c))
  end.

Definition ws_poll_write (buf : list byte) (c : WebSocketConn) : poll (result io_error nat) * WebSocketConn :=
  match ws_write_pending c with
  | Some pending_len =>
      let '(a, c) := sink_call c in
      match a with
      | SinkReady => (Ready (Ok pending_len), with_write_pending None c)
      | SinkError e => (Ready (Err e), with_write_pending None c)
      | SinkPending => (Pending, c)
      end
  | None =>
      let '(a, c) := sink_call c in            (* poll_ready *)
      match a with
      | SinkPending => (Pending, c)
      | SinkError e => (Ready (Err e), c)
      | SinkReady =>
          let '(a, c) := start_send buf c in
          match a with
          | SinkError e => (Ready (Err e), c)
          | _ =>
              let '(a, c) := sink_call c in    (* poll_flush *)
              match a with
              | SinkReady => (Ready (Ok (length buf)), c)
              | SinkError e => (Ready (Err e), c)
              | SinkPending => (Pending, with_write_pending (Some (length buf)) c)
              end
          end
      end
  end.

Definition ws_poll_flush (c : WebSocketConn) : poll (result io_error unit) * WebSocketConn :=
  let '(a, c) := sink_call c in
  match a with
  | SinkReady => (Ready (Ok tt), with_write_pending None c)
  | SinkError e => (Ready (Err e), c)
  | SinkPending => (Pending, c)
  end.

Definition ws_poll_shutdown (c : WebSocketConn) : poll (result io_error unit) * WebSocketConn :=
  let '(a, c) := sink_call c in
  (match a with SinkReady => Ready (Ok tt) | SinkError e => Ready (Err e) | SinkPending => Pending end, c).

(** ** Reading *)

(** The bytes the peer's data messages hold. *)
Definition item_bytes (i : ws_item) : list byte :=
  match i with Message (WsBinary d) => d | Message (WsText d) => d | _ => [] end.
Definition ws_incoming (c : WebSocketConn) : list byte :=
  ws_read_buf c ++ concat (item_bytes <$> ws_items c).

Lemma next_data_bytes items r rest : next_data items = (r, rest) ->
  concat (item_bytes <$> items) =
  match r with Ready (Ok d) => d | _ => [] end ++ concat (item_bytes <$> rest).
Proof.
  revert r rest; induction items as [|[[d|d|]|e|] items IH]; intros r rest; simpl; try by intros [= <- <-].
  apply IH.
Qed.

(** A reader that asks with the given buffer sizes until it is told to wait or
    fails: what it got, and how it ended. *)
Fixpoint ws_reads (caps : list nat) (c : WebSocketConn) : list byte * WebSocketConn :=
  match caps with
  | [] => ([], c)
  | cap :: caps =>
      match ws_poll_read cap c with
      | (Ready (Ok bs), c) => let '(more, c) := ws_reads caps c in (bs ++ more, c)
      | (_, c) => ws_reads caps c
      end
  end.

Lemma ws_poll_read_bytes cap c r c' : ws_poll_read cap c = (r, c') ->
  ws_incoming c = match r with Ready (Ok bs) => bs | _ => [] end ++ ws_incoming c' /\
  ws_frames c' = ws_frames c /\
  match r with Ready (Ok bs) => (length bs <= cap)%nat | _ => True end.
Proof.
  unfold ws_poll_read, ws_incoming. destruct (ws_read_buf c) as [|b buf] eqn:Eb.
  - destruct (next_data (ws_items c)) as [r0 rest] eqn:En. apply next_data_bytes in En.
    destruct r0 as [[d|e]|]; intros [= <- <-]; simpl; rewrite En, ?Eb; simpl.
    + split_and!; [by rewrite app_assoc, take_drop|done|rewrite length_take; lia].
    + done.
    + done.
  - intros [= <- <-]. simpl. split_and!; [|done|rewrite length_take; lia].
    change (take cap (b :: buf) ++ drop cap (b :: buf) ++ concat (item_bytes <$> ws_items c)) with
      (take cap (b :: buf) ++ (drop cap (b :: buf) ++ concat (item_bytes <$> ws_items c))).
    by rewrite app_assoc, take_drop.
Qed.

(** the reader's byte stream is the peer's messages laid end to end,
    whatever the buffer sizes, the waits and the control messages in between:
    what was read so far, what is left over from a message and what is still to
    come are together exactly the bytes of the data messages, and reading writes
    nothing. *)
Theorem ws_reads_messages caps c got c' : ws_reads caps c = (got, c') ->
  ws_incoming c = got ++ ws_incoming c' /\ ws_frames c' = ws_frames c.
Proof.
  revert c got c'; induction caps as [|cap caps IH]; intros c got c'; simpl; [by intros [= <- <-]|].
  destruct (ws_poll_read cap c) as [[[bs|e]|] c1] eqn:E; apply ws_poll_read_bytes in E as (Hi & Hf & _);
    rewrite Hi, <- Hf; simpl; [|apply IH..].
  destruct (ws_reads caps c1) as [more c2] eqn:Er. intros [= <- <-].
  destruct (IH _ _ _ Er) as [-> ->]. by rewrite app_assoc.
Qed.

(** An empty message is an empty read, which the readers above take for the end
    of the stream. *)
Lemma empty_message_looks_closed cap rest answers :
  ws_poll_read cap (ws_new (Message (WsBinary []) :: rest) answers) = (Ready (Ok []), ws_new rest answers).
Proof. unfold ws_poll_read. simpl. by rewrite take_nil, drop_nil. Qed.

(** The end of the stream is an error, not an empty read. *)
Lemma closed_is_an_error cap answers : (ws_poll_read cap (ws_new [] answers)).1 = Ready (Err ws_closed).
Proof. done. Qed.

(** ** Writing *)

(** [write_all]: the same bytes again until they are taken; [None] when it still
    waits after the fuel. *)
Fixpoint ws_write_all (fuel : nat) (buf : list byte) (c : WebSocketConn)
  : option (result io_error unit) * WebSocketConn :=
  match buf with
  | [] => (Some (Ok tt), c)
  | _ =>
      match fuel with
      | O => (None, c)
      | S fuel =>
          match ws_poll_write buf c with
          | (Ready (Ok n), c) => ws_write_all fuel (drop n buf) c
          | (Ready (Err e), c) => (Some (Err e), c)
          | (Pending, c) => ws_write_all fuel buf c
          end
      end
  end.

(** Between calls: either no frame is on its way, or the last one holds the
    bytes that are being written. *)
Definition writing (before : list (list byte)) (buf : list byte) (c : WebSocketConn) : Prop :=
  match ws_write_pending c with
  | None => ws_frames c = before
  | Some n => n = length buf /\ ws_frames c = before ++ [buf]
  end.

Lemma sink_call_frame c a c' : sink_call c = (a, c') ->
  ws_frames c' = ws_frames c /\ ws_write_pending c' = ws_write_pending c /\
  (length (ws_answers c') <= length (ws_answers c))%nat /\
  (ws_answers c = [] -> a = SinkReady /\ c' = c) /\
  (ws_answers c <> [] -> (length (ws_answers c') < length (ws_answers c))%nat).
Proof.
  unfold sink_call. destruct (ws_answers c) as [|x rest] eqn:E; intros [= <- <-]; simpl; rewrite ?E; simpl; split_and!; try done; lia.
Qed.

Lemma start_send_frame buf c a c' : start_send buf c = (a, c') ->
  ws_write_pending c' = ws_write_pending c /\
  (length (ws_answers c') <= length (ws_answers c))%nat /\
  match a with
  | SinkError _ => ws_frames c' = ws_frames c
  | _ => ws_frames c' = ws_frames c ++ [buf]
  end.
Proof.
  unfold start_send. destruct (sink_call c) as [b c1] eqn:E. apply sink_call_frame in E as (Hf & Hp & Hl & _).
  destruct b; intros [= <- <-]; simpl; rewrite ?Hf; done.
Qed.

(** One call: the frame is sent once, and the answer is its length. *)
Lemma ws_poll_write_spec before buf c r c' : writing before buf c -> ws_poll_write buf c = (r, c') ->
  match r with
  | Ready (Ok n) => n = length buf /\ ws_frames c' = before ++ [buf] /\ ws_write_pending c' = None
  | Ready (Err _) => ws_write_pending c' = None /\ (ws_frames c' = before \/ ws_frames c' = before ++ [buf])
  | Pending => writing before buf c' /\ (length (ws_answers c') < length (ws_answers c))%nat
  end.
Proof.
  unfold writing, ws_poll_write. destruct (ws_write_pending c) as [n|] eqn:Ew.
  - intros [-> Hf]. destruct (sink_call c) as [a c1] eqn:E. apply sink_call_frame in E as (Hf1 & Hp1 & _ & Hr & Hl).
    destruct a; intros [= <- <-]; simpl; rewrite ?Hf1, ?Hf; try (by auto).
    rewrite Hp1, Ew. split; [done|]. apply Hl. intros Hn. by destruct (Hr Hn).
  - intros Hf. destruct (sink_call c) as [a c1] eqn:E. apply sink_call_frame in E as (Hf1 & Hp1 & Hl1 & Hr & Hl).
    destruct a as [| |e].
    + destruct (start_send buf c1) as [b c2] eqn:Es. apply start_send_frame in Es as (Hp2 & Hl2 & Hf2).
      destruct b as [| |e]; [| |intros [= <- <-]; rewrite Hp2, Hp1; split; [done|left; congruence]];
        destruct (sink_call c2) as [d c3] eqn:E3; apply sink_call_frame in E3 as (Hf3 & Hp3 & Hl3 & Hr3 & Hl4);
        destruct d; intros [= <- <-]; simpl; rewrite ?Hf3, ?Hf2, ?Hf1, ?Hf, ?Hp3, ?Hp2, ?Hp1; auto;
        (split; [done|]; assert (ws_answers c2 <> []) as Hne by (intros Hn; by destruct (Hr3 Hn));
         specialize (Hl4 Hne); lia).
    + intros [= <- <-]. rewrite Hp1, Ew, Hf1. split; [done|]. apply Hl. intros Hn. by destruct (Hr Hn).
    + intros [= <- <-]. rewrite Hp1, Ew, Hf1. auto.
Qed.

Lemma ws_write_all_spec fuel before buf c r c' : buf <> [] -> writing before buf c ->
  ws_write_all fuel buf c = (r, c') ->
  match r with
  | Some (Ok _) => ws_frames c' = before ++ [buf] /\ ws_write_pending c' = None
  | Some (Err _) => ws_frames c' = before \/ ws_frames c' = before ++ [buf]
  | None => (fuel <= length (ws_answers c))%nat
  end.
Proof.
  intros Hb. revert c; induction fuel as [|fuel IH]; intros c Hw; destruct buf as [|b buf]; try done; cbn [ws_write_all].
  { intros [= <- <-]. lia. }
  destruct (ws_poll_write (b :: buf) c) as [[[n|e]|] c1] eqn:E; pose proof (ws_poll_write_spec _ _ _ _ _ Hw E) as S.
  - destruct S as (-> & Hf & Hp). rewrite drop_all. destruct fuel; simpl; intros [= <- <-]; done.
  - intros [= <- <-]. by destruct S as [_ ?].
  - destruct S as [Hw' Hl]. intros Hr. specialize (IH _ Hw' Hr). destruct r as [[]|]; try done. lia.
Qed.

(** writing delivers every byte once: however often the sink makes the
    writer wait, [write_all] ends, and when it succeeds the frame that was added
    is exactly the bytes given; when it fails the frame was added once or not at
    all, never twice. *)
Theorem ws_write_all_once buf c : buf <> [] -> ws_write_pending c = None ->
  exists r c', ws_write_all (S (length (ws_answers c))) buf c = (Some r, c') /\
    (ws_frames c' = ws_frames c ++ [buf] \/ (exists e, r = Err e) /\ ws_frames c' = ws_frames c) /\
    (r = Ok tt -> ws_write_pending c' = None).
Proof.
  intros Hb Hp. destruct (ws_write_all (S (length (ws_answers c))) buf c) as [r c'] eqn:E.
  assert (writing (ws_frames c) buf c) as Hw by (unfold writing; by rewrite Hp).
  pose proof (ws_write_all_spec _ _ _ _ _ _ Hb Hw E) as S. destruct r as [[[]|e]|]; [| |lia].
  - destruct S as [Hf Hn]. exists (Ok tt), c'. split_and!; auto.
  - exists (Err e), c'. split_and!; [done| |done]. destruct S as [S|S]; [right|left]; eauto.
Qed.

(** A flush between the wait and the retry forgets that the frame is on its way:
    the retry sends it again. *)
Lemma flush_then_retry_sends_twice bs :
  let c1 := (ws_poll_write bs (ws_new [] [SinkReady; SinkReady; SinkPending])).2 in
  let c2 := (ws_poll_flush c1).2 in
  ws_frames (ws_poll_write bs c2).2 = [bs; bs].
Proof. reflexivity. Qed.

(** Other bytes after a wait are reported as written and never sent. *)
Lemma other_bytes_after_wait_are_lost bs other : length other = length bs ->
  let c1 := (ws_poll_write bs (ws_new [] [SinkReady; SinkReady; SinkPending])).2 in
  exists c2, ws_poll_write other c1 = (Ready (Ok (length other)), c2) /\ ws_frames c2 = [bs].
Proof. intros -> c1. eexists. by split. Qed.

(** ** Runs *)
Definition demo_ws : WebSocketConn :=
  ws_new [Message (WsBinary (as_bytes "hello ")); NotYet; Message WsControl; Message (WsText (as_bytes "world"))]
    [SinkPending; SinkReady; SinkReady; SinkPending].

Lemma ws_reads_messages_witness :
  exists c', ws_reads [4; 4; 1; 9; 9]%nat demo_ws = (as_bytes "hello world", c') /\
    ws_incoming demo_ws = as_bytes "hello world" ++ ws_incoming c'.
Proof.
  destruct (ws_reads [4; 4; 1; 9; 9]%nat demo_ws) as [got c'] eqn:E. exists c'.
  assert (got = as_bytes "hello world") as -> by (apply (f_equal fst) in E; vm_compute in E; vm_compute; congruence).
  split; [done|]. by apply (ws_reads_messages [4; 4; 1; 9; 9]%nat demo_ws _ c').
Defined.

Lemma ws_write_all_once_witness :
  exists r c', ws_write_all 5 (as_bytes "ab") demo_ws = (Some r, c') /\ r = Ok tt /\ ws_frames c' = [as_bytes "ab"].
Proof.
  destruct (ws_write_all_once (as_bytes "ab") demo_ws) as (r & c' & E & _ & _); [discriminate|reflexivity|].
  exists r, c'. split; [exact E|]. vm_compute in E. injection E as <- <-. by vm_compute.
Defined.
