(* ===== verification/Mux.v ===== *)
(** * The multiplexed session (src/rust_frp_net/src/mux.rs)

    One task, the driver, owns the [yamux] connection; everybody else talks to
    it through two bounded channels.  What the two polls of the connection answer
    is part of an event; a stream is a number, and so is the one-shot channel a
    caller of [open_stream] waits on.  A section of a task between two waits is
    one event; [None] means that the task has to wait.  [mx_submitted],
    [mx_arrived], [mx_answered] and [mx_accepted] are ghosts: the requests that
    went into the channel, the streams [yamux] handed to the driver, the answers
    the callers saw and the streams that were accepted, each in its order. *)
From S2P Require Import Prelude Transport.

Notation stream := nat (only parsing).
Notation reply := nat (only parsing).
(** [None]: the channel was dropped without an answer. *)
Notation opened := (option (result string stream)) (only parsing).

Inductive Cmd := Open (r : reply) | Close.

Inductive Event := Inbound (s : stream) | OpenDone | Command (c : Cmd) | CmdClosed | Closed.

(** Where the driver is between two waits. *)
Inductive driver :=
| Polling
| Delivering (s : stream)                      (* in [inbound_tx.send] *)
| Closing                                      (* in [poll_close] *)
| Stopped.

Record MuxSession := Mux {
  mx_cmds : list Cmd;
  mx_inbound : list stream;
  mx_pending_opens : list reply;
  mx_driver : driver;
  mx_closed : bool;
  mx_shared : bool;                            (* somebody holds the [Arc] *)
  mx_submitted : list reply;
  mx_arrived : list stream;
  mx_answered : list (reply * opened);
  mx_accepted : list stream;
}.

Definition CHANNEL : nat := 64.

Definition mux_new : MuxSession := Mux [] [] [] Polling false true [] [] [] [].

Definition mux_is_closed (s : MuxSession) : bool :=
  mx_closed s || match mx_driver s with Stopped => true | _ => false end.

Definition with_driver (d : driver) (s : MuxSession) : MuxSession :=
  Mux (mx_cmds s) (mx_inbound s) (mx_pending_opens s) d (mx_closed s) (mx_shared s)
    (mx_submitted s) (mx_arrived s) (mx_answered s) (mx_accepted s).
Definition with_cmds (l : list Cmd) (s : MuxSession) : MuxSession :=
  Mux l (mx_inbound s) (mx_pending_opens s) (mx_driver s) (mx_closed s) (mx_shared s)
    (mx_submitted s) (mx_arrived s) (mx_answered s) (mx_accepted s).
Definition with_inbound (l : list stream) (s : MuxSession) : MuxSession :=
  Mux (mx_cmds s) l (mx_pending_opens s) (mx_driver s) (mx_closed s) (mx_shared s)
    (mx_submitted s) (mx_arrived s) (mx_answered s) (mx_accepted s).
Definition with_pending (l : list reply) (s : MuxSession) : MuxSession :=
  Mux (mx_cmds s) (mx_inbound s) l (mx_driver s) (mx_closed s) (mx_shared s)
    (mx_submitted s) (mx_arrived s) (mx_answered s) (mx_accepted s).
Definition answer (r : reply) (a : opened) (s : MuxSession) : MuxSession :=
  Mux (mx_cmds s) (mx_inbound s) (mx_pending_opens s) (mx_driver s) (mx_closed s) (mx_shared s)
    (mx_submitted s) (mx_arrived s) (mx_answered s ++ [(r, a)]) (mx_accepted s).

(** The requests among the commands. *)
Definition opens (l : list Cmd) : list reply :=
  l ≫= fun c => match c with Open r => [r] | Close => [] end.

(** The end of [driver_loop]: the flag, then what it owned is dropped, and with
    it the channels of everybody who waits for an answer. *)
Definition stop (s : MuxSession) : MuxSession :=
  Mux [] (mx_inbound s) [] Stopped true (mx_shared s) (mx_submitted s) (mx_arrived s)
    (mx_answered s ++ ((fun r => (r, None)) <$> mx_pending_opens s ++ opens (mx_cmds s))) (mx_accepted s).

(** ** The driver *)

(** One round of [poll_fn]: inbound streams first, then the oldest request, then
    the commands; [inbound] and [outbound] are the connection's answers. *)
Definition driver_poll (inbound : poll (option (result string stream))) (outbound : poll (result string stream))
    (s : MuxSession) : option (Event * MuxSession) :=
  match inbound with
  | Ready (Some (Ok i)) =>
      Some (Inbound i, Mux (mx_cmds s) (mx_inbound s) (mx_pending_opens s) (mx_driver s) (mx_closed s) (mx_shared s)
                         (mx_submitted s) (mx_arrived s ++ [i]) (mx_answered s) (mx_accepted s))
  | Ready (Some (Err _)) => Some (Closed, s)
  | Ready None => Some (Closed, s)
  | Pending =>
      let commands :=
        match mx_cmds s with
        | c :: rest => Some (Command c, with_cmds rest s)
        | [] => if mx_shared s then None else Some (CmdClosed, s)
        end in
      match mx_pending_opens s with
      | r :: rest =>
          match outbound with
          | Ready o => Some (OpenDone, answer r (Some o) (with_pending rest s))
          | Pending => commands
          end
      | [] => commands
      end
  end.

(** [inbound_tx.send]: waits for room, fails when the receiver is gone. *)
Definition deliver (i : stream) (s : MuxSession) : MuxSession :=
  if mx_shared s
  then if (length (mx_inbound s) <? CHANNEL)%nat
       then with_driver Polling (with_inbound (mx_inbound s ++ [i]) s)
       else with_driver (Delivering i) s
  else stop s.

Definition driver_handle (e : Event) (s : MuxSession) : MuxSession :=
  match e with
  | Inbound i => deliver i s
  | OpenDone => s
  | Command (Open r) => with_pending (mx_pending_opens s ++ [r]) s
  | Command Close => with_driver Closing s
  | CmdClosed | Closed => stop s
  end.

(** ** The callers *)

(** The guard at the start of [open_stream]. *)
Definition open_stream_guard (s : MuxSession) : result string unit :=
  if mux_is_closed s then Err "mux session closed" else Ok tt.

(** [cmd_tx.send]: waits for room; the driver's end is dropped when it stops. *)
Definition send_cmd (c : Cmd) (s : MuxSession) : option (result unit MuxSession) :=
  match mx_driver s with
  | Stopped => Some (Err tt)
  | _ => if (length (mx_cmds s) <? CHANNEL)%nat then Some (Ok (with_cmds (mx_cmds s ++ [c]) s)) else None
  end.

Definition submitted (r : reply) (s : MuxSession) : MuxSession :=
  Mux (mx_cmds s) (mx_inbound s) (mx_pending_opens s) (mx_driver s) (mx_closed s) (mx_shared s)
    (mx_submitted s ++ [r]) (mx_arrived s) (mx_answered s) (mx_accepted s).

Definition open_stream_send (r : reply) (s : MuxSession) : option MuxSession :=
  match send_cmd (Open r) s with
  | Some (Ok s) => Some (submitted r s)
  | Some (Err _) => Some (answer r None (submitted r s))
  | None => None
  end.

(** What [open_stream] returns for the answer it got. *)
Definition open_stream_result (a : opened) : result string stream :=
  match a with
  | Some (Ok i) => Ok i
  | Some (Err e) => Err ("yamux open stream: " ++ e)%string
  | None => Err "mux session closed"%string
  end.

(** [accept_stream]: [None] while it has to wait. *)
Definition accept_stream (s : MuxSession) : option (result string stream * MuxSession) :=
  match mx_inbound s with
  | i :: rest =>
      Some (Ok i, Mux (mx_cmds s) rest (mx_pending_opens s) (mx_driver s) (mx_closed s) (mx_shared s)
                    (mx_submitted s) (mx_arrived s) (mx_answered s) (mx_accepted s ++ [i]))
  | [] => match mx_driver s with Stopped => Some (Err "mux session closed"%string, s) | _ => None end
  end.

Definition close (s : MuxSession) : option MuxSession :=
  match send_cmd Close s with
  | Some (Ok s) => Some s
  | Some (Err _) => Some s
  | None => None
  end.

(** ** Events *)
Inductive mux_event :=
| DriverPolls (inbound : poll (option (result string stream))) (outbound : poll (result string stream))
| DriverResumes                                (* [inbound_tx.send] is polled again *)
| DriverCloses                                 (* [poll_close] is ready *)
| CallerOpens (r : reply)
| CallerAccepts
| CallerCloses
| SessionDropped.

Definition mux_step (e : mux_event) (s : MuxSession) : option MuxSession :=
  match e with
  | DriverPolls inb out =>
      match mx_driver s with
      | Polling => '(ev, s) ← driver_poll inb out s; Some (driver_handle ev s)
      | _ => None
      end
  | DriverResumes =>
      match mx_driver s with
      | Delivering i => if mx_shared s && (CHANNEL <=? length (mx_inbound s))%nat then None else Some (deliver i s)
      | _ => None
      end
  | DriverCloses => match mx_driver s with Closing => Some (stop s) | _ => None end
  | CallerOpens r => if mx_shared s then open_stream_send r s else None
  | CallerAccepts => if mx_shared s then '(_, s) ← accept_stream s; Some s else None
  | CallerCloses => if mx_shared s then close s else None
  | SessionDropped =>
      Some (Mux (mx_cmds s) (mx_inbound s) (mx_pending_opens s) (mx_driver s) (mx_closed s) false
              (mx_submitted s) (mx_arrived s) (mx_answered s) (mx_accepted s))
  end.

Fixpoint mux_run (es : list mux_event) (s : MuxSession) : option MuxSession :=
  match es with
  | [] => Some s
  | e :: es => s ← mux_step e s; mux_run es s
  end.

(** ** What holds in every run *)

Definition on_the_way (s : MuxSession) : list stream :=
  match mx_driver s with Delivering i => [i] | _ => [] end.

Record mux_inv (s : MuxSession) : Prop := MuxInv {
  inv_requests : mx_submitted s = (mx_answered s).*1 ++ mx_pending_opens s ++ opens (mx_cmds s);
  inv_streams : mx_shared s = true -> mx_arrived s = mx_accepted s ++ mx_inbound s ++ on_the_way s;
  inv_accepted : mx_accepted s `prefix_of` mx_arrived s;
  inv_inbound : (length (mx_inbound s) <= CHANNEL)%nat;
  inv_cmds : (length (mx_cmds s) <= CHANNEL)%nat;
  inv_stopped : mx_driver s = Stopped -> mx_pending_opens s = [] /\ mx_cmds s = [] /\ mx_closed s = true;
  inv_closed : mx_closed s = true -> mx_driver s = Stopped;
}.

Lemma opens_app l k : opens (l ++ k) = opens l ++ opens k.
Proof. apply bind_app. Qed.

Lemma mux_new_inv : mux_inv mux_new.
Proof. by split; try (simpl; lia). Qed.

Lemma no_answer_fst (l : list reply) : ((fun r => (r, None : opened)) <$> l).*1 = l.
Proof. rewrite <- list_fmap_compose. apply list_fmap_id. Qed.

Lemma stop_inv s : mux_inv s -> (mx_shared s = true -> on_the_way s = []) -> mux_inv (stop s).
Proof.
  intros [] Hw. split; simpl; try done; try lia.
  - by rewrite fmap_app, no_answer_fst, !app_nil_r.
  - intros Hs. by rewrite (inv_streams0 Hs), (Hw Hs).
Qed.

(** [deliver] starts with the stream either on its way or only just arrived. *)
Lemma deliver_inv i s d : mux_inv (with_driver (Delivering i) s) -> mx_driver s = d -> d <> Stopped ->
  mux_inv (deliver i s).
Proof.
  intros I Hd Hn. unfold deliver. destruct (mx_shared s) eqn:Hs.
  - case_match eqn:Hl; [|done]. apply Nat.ltb_lt in Hl. destruct I. split; simpl in *; try done.
    + intros _. specialize (inv_streams0 Hs). unfold on_the_way in *. simpl in *. by rewrite <- app_assoc.
    + rewrite length_app. simpl. lia.
    + intros Hc. by specialize (inv_closed0 Hc).
  - change (stop s) with (stop (with_driver (Delivering i) s)). apply stop_inv; [done|]. simpl. congruence.
Qed.

Lemma driver_handle_inv inb out s ev s' : mux_inv s -> mx_driver s = Polling ->
  driver_poll inb out s = Some (ev, s') -> mux_inv (driver_handle ev s').
Proof.
  intros I Hd.
  assert (mx_closed s = false) as Hc by (destruct (mx_closed s) eqn:E; [by rewrite (inv_closed _ I E) in Hd|done]).
  assert (forall f, match mx_cmds s with
    | c :: rest => Some (Command c, with_cmds rest s)
    | [] => if mx_shared s then None else Some (CmdClosed, s)
    end = Some f -> mux_inv (driver_handle f.1 f.2)) as Hcmd.
  { intros f. destruct (mx_cmds s) as [|c rest] eqn:Ec.
    - destruct (mx_shared s) eqn:Es; [done|]. intros [= <-]. simpl. apply stop_inv; [done|congruence].
    - intros [= <-]. destruct I; rewrite Ec in *; simpl in *. destruct c as [r|]; split; simpl; rewrite ?Hd in *; try done; try lia.
      + rewrite inv_requests0. simpl. by rewrite <- !app_assoc.
      + intros Hs. rewrite (inv_streams0 Hs). unfold on_the_way. by rewrite Hd.
      + congruence. }
  unfold driver_poll. destruct inb as [[[i|e]|]|].
  - intros [= <- <-]. simpl. eapply deliver_inv; [|simpl; exact Hd|done].
    destruct I; split; simpl; try done; try congruence.
    + intros Hs. rewrite (inv_streams0 Hs). unfold on_the_way. rewrite Hd. simpl. by rewrite <- !app_assoc.
    + by apply prefix_app_r.
  - intros [= <- <-]. simpl. apply stop_inv; [done|]. intros _. unfold on_the_way. by rewrite Hd.
  - intros [= <- <-]. simpl. apply stop_inv; [done|]. intros _. unfold on_the_way. by rewrite Hd.
  - destruct (mx_pending_opens s) as [|r rest] eqn:Ep; [intros E; by apply (Hcmd _ E)|].
    destruct out as [o|]; [|intros E; by apply (Hcmd _ E)]. intros [= <- <-]. simpl.
    destruct I; rewrite Ep in *; split; simpl; try done; try congruence.
    rewrite inv_requests0, fmap_app. simpl. by rewrite <- app_assoc.
Qed.

Lemma open_stream_send_inv r s s' : mux_inv s -> open_stream_send r s = Some s' -> mux_inv s'.
Proof.
  intros I. unfold open_stream_send, send_cmd.
  assert (mx_driver s = Stopped -> Some (answer r None (submitted r s)) = Some s' -> mux_inv s') as Hstop.
  { intros Hd [= <-]. destruct I. destruct (inv_stopped0 Hd) as (Hp & Hm & _). split; simpl; try done.
    rewrite inv_requests0, fmap_app, Hp, Hm. simpl. by rewrite !app_nil_r. }
  assert ((if (length (mx_cmds s) <? CHANNEL)%nat then Some (Ok (with_cmds (mx_cmds s ++ [Open r]) s)) else None) =
            Some (Ok (E:=unit) (with_cmds (mx_cmds s ++ [Open r]) s)) -> mx_driver s <> Stopped ->
          mux_inv (submitted r (with_cmds (mx_cmds s ++ [Open r]) s))) as Hpush.
  { case_match eqn:Hl; [|done]. intros _ Hn. apply Nat.ltb_lt in Hl. destruct I. split; simpl; try done.
    - rewrite inv_requests0, opens_app. simpl. by rewrite <- !app_assoc.
    - rewrite length_app. simpl. lia. }
  destruct (mx_driver s) eqn:Hd; [| | |by apply Hstop];
    (destruct (length (mx_cmds s) <? CHANNEL)%nat; [|done]; intros [= <-]; by apply Hpush).
Qed.

Lemma close_inv s s' : mux_inv s -> close s = Some s' -> mux_inv s'.
Proof.
  intros I. unfold close, send_cmd.
  assert ((length (mx_cmds s) <? CHANNEL)%nat = true -> mx_driver s <> Stopped ->
    mux_inv (with_cmds (mx_cmds s ++ [Close]) s)) as Hpush.
  { intros Hl%Nat.ltb_lt Hn. destruct I. split; simpl; try done.
    - rewrite inv_requests0, opens_app. simpl. by rewrite app_nil_r.
    - rewrite length_app. simpl. lia. }
  destruct (mx_driver s) eqn:Hd; [| | |by intros [= <-]];
    (destruct (length (mx_cmds s) <? CHANNEL)%nat; [|done]; intros [= <-]; by apply Hpush).
Qed.

Lemma mux_step_inv e s s' : mux_inv s -> mux_step e s = Some s' -> mux_inv s'.
Proof.
  intros I. destruct e as [inb out| | |r| | |]; cbn [mux_step].
  - destruct (mx_driver s) eqn:Hd; try done.
    destruct (driver_poll inb out s) as [[ev s1]|] eqn:E; [|done]. intros [= <-].
    by apply (driver_handle_inv _ _ _ _ _ I Hd E).
  - destruct (mx_driver s) as [|i| |] eqn:Hd; try done. case_match; [done|]. intros [= <-].
    refine (deliver_inv i s (Delivering i) _ Hd _); [by destruct s; simpl in *; subst|done].
  - destruct (mx_driver s) eqn:Hd; try done. intros [= <-]. apply stop_inv; [done|].
    intros _. unfold on_the_way. by rewrite Hd.
  - case_match; [|done]. by apply open_stream_send_inv.
  - case_match; [|done]. unfold accept_stream. destruct (mx_inbound s) as [|i rest] eqn:Ei.
    + destruct (mx_driver s); try done. by intros [= <-].
    + intros [= <-]. destruct I; rewrite Ei in *; split; simpl in *; try done; try lia.
      * intros Hs. rewrite (inv_streams0 Hs). simpl. by rewrite <- app_assoc.
      * rewrite inv_streams0 by done. exists (rest ++ on_the_way s). simpl. by rewrite <- app_assoc.
  - case_match; [|done]. by apply close_inv.
  - intros [= <-]. destruct I. by split.
Qed.

Lemma mux_run_inv es s s' : mux_inv s -> mux_run es s = Some s' -> mux_inv s'.
Proof.
  revert s; induction es as [|e es IH]; intros s I; cbn [mux_run]; [by intros [= <-]|].
  destruct (mux_step e s) as [s1|] eqn:E; [|done]. apply IH. by eapply mux_step_inv.
Qed.

(** C15: whatever the connection, the peer and the callers do, requests are
    answered once each and in the order they were made; a session that has ended
    leaves no caller waiting; and while somebody holds the session, every stream
    the peer opened is accepted once, waits in the channel of 64, or is just being
    put there, in the order of arrival. *)
Theorem mux_requests_answered es s : mux_run es mux_new = Some s ->
  ((mx_answered s).*1) `prefix_of` mx_submitted s /\
  (mx_driver s = Stopped -> (mx_answered s).*1 = mx_submitted s) /\
  (mx_shared s = true -> mx_arrived s = mx_accepted s ++ mx_inbound s ++ on_the_way s) /\
  mx_accepted s `prefix_of` mx_arrived s /\ (length (mx_inbound s) <= CHANNEL)%nat.
Proof.
  intros [] % (mux_run_inv _ _ _ mux_new_inv). split_and!; try done.
  - rewrite inv_requests0. by apply prefix_app_r.
  - intros Hd. destruct (inv_stopped0 Hd) as (Hp & Hc & _). by rewrite inv_requests0, Hp, Hc, app_nil_r.
Qed.

(** ** Progress *)

(** The driver sleeps only when nothing can be done: a full backlog of
    acknowledgements ([outbound] pending) does not stop it from reading, and a
    request does not stop it from taking commands. *)
Lemma driver_waits_iff inb out s :
  driver_poll inb out s = None <->
  inb = Pending /\ (mx_pending_opens s = [] \/ out = Pending) /\ mx_cmds s = [] /\ mx_shared s = true.
Proof.
  unfold driver_poll. destruct inb as [[[]|]|]; try (split; [done|by intros [? _]]).
  destruct (mx_pending_opens s), out, (mx_cmds s), (mx_shared s); naive_solver.
Qed.

(** The driver with a connection that opens streams and brings none in. *)
Fixpoint drive (outs : list (result string stream)) (s : MuxSession) : MuxSession :=
  match outs with
  | [] => s
  | o :: outs => drive outs (default s (mux_step (DriverPolls Pending (Ready o)) s))
  end.

Definition work_left (s : MuxSession) : nat := 2 * length (mx_cmds s) + length (mx_pending_opens s).

Lemma drive_done outs s : mx_driver s = Closing \/ mx_driver s = Stopped -> drive outs s = s.
Proof. intros H. induction outs as [|o outs IH]; [done|]. cbn [drive mux_step]. by destruct H as [-> | ->]. Qed.

(** no request is forgotten: when the connection lets streams be opened,
    as many rounds of the driver as there is work (two per command that waits and
    one per request in the queue) answer everybody who has asked, unless a close
    was among the commands; then the end of closing answers the rest. *)
Theorem mux_opens_served outs s : mux_inv s -> mx_driver s = Polling -> mx_shared s = true ->
  (work_left s <= length outs)%nat ->
  let s' := drive outs s in
  mx_submitted s' = mx_submitted s /\
  ((mx_answered s').*1 = mx_submitted s' \/
   mx_driver s' = Closing /\ exists s'', mux_step DriverCloses s' = Some s'' /\ (mx_answered s'').*1 = mx_submitted s'').
Proof.
  revert s; induction outs as [|o outs IH]; intros s I Hd Hs Hl s'; subst s'.
  - split; [done|]. left. unfold work_left in Hl. simpl in *. rewrite (inv_requests _ I).
    destruct (mx_cmds s), (mx_pending_opens s); simpl in *; try lia. by rewrite app_nil_r.
  - cbn [drive]. destruct (mux_step (DriverPolls Pending (Ready o)) s) as [s1|] eqn:E; cbn [default from_option id].
    + pose proof (mux_step_inv _ _ _ I E) as I1. cbn [mux_step] in E. rewrite Hd in E. unfold driver_poll in E.
      unfold work_left in *.
      destruct (mx_pending_opens s) as [|r rest] eqn:Ep.
      * destruct (mx_cmds s) as [|[r|] rest] eqn:Ec; [by rewrite Hs in E| |]; injection E as <-.
        -- refine (IH _ I1 Hd Hs _). simpl in *. rewrite length_app, Ep. simpl. lia.
        -- rewrite drive_done by (by left). split; [done|]. right. split; [done|]. eexists. split; [done|]. simpl.
           pose proof (inv_requests _ I1) as Hr. simpl in Hr. by rewrite fmap_app, no_answer_fst, Ep, Hr, Ep.
      * injection E as <-. refine (IH _ I1 Hd Hs _). simpl in *. lia.
    + cbn [mux_step] in E. rewrite Hd in E. destruct (driver_poll Pending (Ready o) s) as [[]|] eqn:Ew; [done|].
      apply driver_waits_iff in Ew as (_ & Hp & Hc & _). destruct Hp as [Hp|]; [|done].
      apply IH; try done. unfold work_left in *. rewrite Hc, Hp in *. simpl. lia.
Qed.

(** Streams nobody accepts stop the session: once 64 of them wait and one more
    has arrived, nobody is answered any more, and a close has no effect. *)
Definition unattended (e : mux_event) : Prop :=
  match e with CallerAccepts | SessionDropped => False | _ => True end.

Lemma unaccepted_streams_stop_the_session es i s s' : Forall unattended es ->
  mx_driver s = Delivering i -> mx_shared s = true -> length (mx_inbound s) = CHANNEL ->
  mux_run es s = Some s' -> mx_answered s' = mx_answered s /\ mx_driver s' = Delivering i.
Proof.
  revert s; induction es as [|e es IH]; intros s Hes Hd Hs Hl; cbn [mux_run]; [by intros [= <-]|].
  apply Forall_cons in Hes as [He Hes]. destruct (mux_step e s) as [s1|] eqn:E; [|done]. intros Hr.
  assert (mx_driver s1 = Delivering i /\ mx_shared s1 = true /\ length (mx_inbound s1) = CHANNEL /\ mx_answered s1 = mx_answered s) as (H1 & H2 & H3 & H4).
  { destruct e; cbn [mux_step] in E; rewrite ?Hd, ?Hs in E; try done.
    - rewrite Hl, Nat.leb_refl in E. done.
    - unfold open_stream_send, send_cmd in E. rewrite Hd in E. destruct (length (mx_cmds s) <? CHANNEL)%nat; simplify_eq; done.
    - unfold close, send_cmd in E. rewrite Hd in E. destruct (length (mx_cmds s) <? CHANNEL)%nat; simplify_eq; done. }
  destruct (IH _ Hes H1 H2 H3 Hr) as [-> ->]. done.
Qed.

(** ** Runs *)

(** Two requests, one refused by the connection, with a stream of the peer in
    between; then the peer goes away while a third request waits. *)
Definition demo_mux_events : list mux_event :=
  [ CallerOpens 10; CallerOpens 11; DriverPolls (Ready (Some (Ok 7%nat))) Pending; CallerAccepts;
    DriverPolls Pending Pending; DriverPolls Pending (Ready (Ok 1%nat)); DriverPolls Pending Pending; CallerOpens 12;
    DriverPolls Pending (Ready (Err "too many streams"%string)); DriverPolls (Ready None) Pending ].
Definition demo_mux : MuxSession := default mux_new (mux_run demo_mux_events mux_new).

Lemma mux_requests_answered_witness :
  (open_stream_result <$> (mx_answered demo_mux).*2) =
    [Ok 1%nat; Err "yamux open stream: too many streams"%string; Err "mux session closed"%string] /\
  (mx_answered demo_mux).*1 = mx_submitted demo_mux /\ mx_accepted demo_mux = [7%nat].
Proof.
  destruct (mux_requests_answered demo_mux_events demo_mux) as (_ & Hstop & _); [vm_compute; reflexivity|].
  split_and!; [vm_compute; reflexivity|apply Hstop; vm_compute; reflexivity|vm_compute; reflexivity].
Defined.

Definition busy_mux : MuxSession := default mux_new (mux_run [CallerOpens 1; CallerOpens 2; CallerCloses; CallerOpens 3] mux_new).

Lemma mux_opens_served_witness :
  let outs := replicate 8 (Ok 5%nat) in
  let s' := drive outs busy_mux in
  mx_driver s' = Closing /\ (mx_answered s').*1 = [1; 2]%nat /\ mx_submitted s' = [1; 2; 3]%nat /\
  (mx_submitted s' = mx_submitted busy_mux /\
  ((mx_answered s').*1 = mx_submitted s' \/
   mx_driver s' = Closing /\ exists s'', mux_step DriverCloses s' = Some s'' /\ (mx_answered s'').*1 = mx_submitted s'')).
Proof.
  intros outs s'. split_and!; [vm_compute; reflexivity..|].
  apply (mux_opens_served outs busy_mux); [|vm_compute; reflexivity|vm_compute; reflexivity|vm_compute; lia].
  apply (mux_run_inv [CallerOpens 1; CallerOpens 2; CallerCloses; CallerOpens 3] mux_new); [apply mux_new_inv|vm_compute; reflexivity].
Defined.
