(* ===== verification/Kcp.v ===== *)
(** * KCP connections and their listener (src/rust_frp_net/src/lib.rs, [KcpConn],
    [KcpListener])

    KCP makes a reliable message channel of datagrams; the protocol machine is
    the [kcp] crate's and is the interface [Kcp] here.  One driver task per
    connection moves messages between the machine, the socket and the two bounded
    channels of the stream's user; the listener's reader gives every datagram to
    the connection of its source.  A section of a task between two waits is one
    event, and [None] means that the task has to wait.  The fields that end in a
    ghost comment record what went by, in its order. *)
From S2P Require Import Prelude Transport.

Notation datagram := (list byte) (only parsing).
Notation address := string (only parsing).

(** ** The protocol machine *)
Class Kcp (K : Type) := {
  kcp_new : Z -> K;
  kcp_input : datagram -> K -> K;              (* its errors are ignored *)
  kcp_recv : nat -> K -> option (list byte * K);
  kcp_send : list byte -> K -> bool * K;
  kcp_flush : K -> list datagram * K;
  kcp_update : Z -> K -> list datagram * K;
  (** the whole messages that wait for [kcp_recv] *)
  kcp_ready : K -> list (list byte);
}.

(** What the crate documents: [recv] takes the next whole message, and refuses
    without taking it when the buffer is too small; the other calls do not take
    messages. *)
Class KcpLaws (K : Type) `{Kcp K} := {
  kcp_recv_takes cap k m rest : kcp_ready k = m :: rest -> (length m <= cap)%nat ->
    exists k', kcp_recv cap k = Some (m, k') /\ kcp_ready k' = rest;
  kcp_recv_refuses cap k : match kcp_ready k with [] => True | m :: _ => (cap < length m)%nat end ->
    kcp_recv cap k = None;
  kcp_input_ready d k : kcp_ready k `prefix_of` kcp_ready (kcp_input d k);
  kcp_send_ready m k : kcp_ready (kcp_send m k).2 = kcp_ready k;
  kcp_flush_ready k : kcp_ready (kcp_flush k).2 = kcp_ready k;
  kcp_update_ready now k : kcp_ready (kcp_update now k).2 = kcp_ready k;
}.

(** ** Where a connection's datagrams come from *)
Inductive KcpRecv :=
| Socket (arrivals : list (result unit (datagram * address)))
| Chan (queue : list datagram) (sender_alive : bool).

Definition BUFFER : nat := 65535.
Definition CHANNEL : nat := 256.

(** [None]: waits; [Some None]: the source has ended; an empty datagram is
    ignored by the caller. *)
Definition next_datagram (remote : address) (r : KcpRecv) : option (option datagram * KcpRecv) :=
  match r with
  | Socket [] => None
  | Socket (Ok (d, src) :: rest) => Some (Some (if decide (src = remote) then take BUFFER d else []), Socket rest)
  | Socket (Err _ :: rest) => Some (None, Socket rest)
  | Chan (d :: rest) alive => Some (Some (take BUFFER d), Chan rest alive)
  | Chan [] true => None
  | Chan [] false => Some (None, Chan [] false)
  end.

(** ** A connection *)
Inductive phase :=
| Selecting
| Receiving (flush_after : bool)               (* the [while let Ok(n) = kcp.recv] loops *)
| Handing (m : list byte) (flush_after : bool) (* in [user_rx_tx.send] *)
| Ended.

Record KcpConn (K : Type) := KConn {
  kc_kcp : K;
  kc_out : list datagram;                      (* [out_tx] to [out_rx] *)
  kc_user_in : list (list byte);               (* [user_tx] to [user_rx] *)
  kc_user_out : list (list byte);              (* [user_rx_tx] to [user_rx_rx] *)
  kc_recv_src : KcpRecv;
  kc_phase : phase;
  kc_remote_addr : address;
  kc_read_buf : list byte;
  kc_written : list (list byte);               (* ghost: what [poll_write] took *)
  kc_to_kcp : list (list byte);                (* ghost: what [kcp_send] was given *)
  kc_from_kcp : list (list byte);              (* ghost: what [kcp_recv] returned *)
  kc_read : list byte;                         (* ghost: what [poll_read] returned *)
  kc_heard : list datagram;                    (* ghost: what was routed to it *)
}.
Arguments KConn {K}.
Arguments kc_kcp {K}.
Arguments kc_out {K}.
Arguments kc_user_in {K}.
Arguments kc_user_out {K}.
Arguments kc_recv_src {K}.
Arguments kc_phase {K}.
Arguments kc_remote_addr {K}.
Arguments kc_read_buf {K}.
Arguments kc_written {K}.
Arguments kc_to_kcp {K}.
Arguments kc_from_kcp {K}.
Arguments kc_read {K}.
Arguments kc_heard {K}.

Section Conn.
Context {K : Type} `{Kcp K}.

Definition set_kcp (k : K) (c : KcpConn K) : KcpConn K :=
  KConn k (kc_out c) (kc_user_in c) (kc_user_out c) (kc_recv_src c) (kc_phase c) (kc_remote_addr c) (kc_read_buf c)
    (kc_written c) (kc_to_kcp c) (kc_from_kcp c) (kc_read c) (kc_heard c).
Definition set_out (l : list datagram) (c : KcpConn K) : KcpConn K :=
  KConn (kc_kcp c) l (kc_user_in c) (kc_user_out c) (kc_recv_src c) (kc_phase c) (kc_remote_addr c) (kc_read_buf c)
    (kc_written c) (kc_to_kcp c) (kc_from_kcp c) (kc_read c) (kc_heard c).
Definition set_src (r : KcpRecv) (c : KcpConn K) : KcpConn K :=
  KConn (kc_kcp c) (kc_out c) (kc_user_in c) (kc_user_out c) r (kc_phase c) (kc_remote_addr c) (kc_read_buf c)
    (kc_written c) (kc_to_kcp c) (kc_from_kcp c) (kc_read c) (kc_heard c).
Definition set_phase (p : phase) (c : KcpConn K) : KcpConn K :=
  KConn (kc_kcp c) (kc_out c) (kc_user_in c) (kc_user_out c) (kc_recv_src c) p (kc_remote_addr c) (kc_read_buf c)
    (kc_written c) (kc_to_kcp c) (kc_from_kcp c) (kc_read c) (kc_heard c).

(** [KcpChannelOutput::write]: what does not fit the channel is lost (and sent
    again by KCP). *)
Definition write_out (l : list datagram) (c : KcpConn K) : KcpConn K :=
  set_out (foldl (fun out d => if (length out <? CHANNEL)%nat then out ++ [d] else out) (kc_out c) l) c.

Definition flush (c : KcpConn K) : KcpConn K :=
  let '(ps, k) := kcp_flush (kc_kcp c) in write_out ps (set_kcp k c).

(** A message handed to the user's channel, when there is room. *)
Definition hand (m : list byte) (fl : bool) (c : KcpConn K) : KcpConn K :=
  if (length (kc_user_out c) <? CHANNEL)%nat
  then KConn (kc_kcp c) (kc_out c) (kc_user_in c) (kc_user_out c ++ [m]) (kc_recv_src c) (Receiving fl) (kc_remote_addr c)
         (kc_read_buf c) (kc_written c) (kc_to_kcp c) (kc_from_kcp c) (kc_read c) (kc_heard c)
  else set_phase (Handing m fl) c.

(** One turn of a [while let Ok(n) = kcp.recv] loop. *)
Definition recv_turn (fl : bool) (c : KcpConn K) : KcpConn K :=
  match kcp_recv BUFFER (kc_kcp c) with
  | Some (m, k) =>
      hand m fl (KConn k (kc_out c) (kc_user_in c) (kc_user_out c) (kc_recv_src c) (kc_phase c) (kc_remote_addr c)
                   (kc_read_buf c) (kc_written c) (kc_to_kcp c) (kc_from_kcp c ++ [m]) (kc_read c) (kc_heard c))
  | None => set_phase Selecting (if fl then flush c else c)
  end.

Definition new_conn (conv : Z) (src : KcpRecv) (remote : address) (initial_input : option datagram) : KcpConn K :=
  let c := KConn (kcp_new conv) [] [] [] src Selecting remote [] [] [] [] [] [] in
  match initial_input with
  | Some d => set_phase (Receiving true) (set_kcp (kcp_input d (kc_kcp c)) c)
  | None => c
  end.

(** [KcpConn::new] (client) and [KcpConn::accept] (server). *)
Definition kcp_connect (conv : option Z) (random : Z) (arrivals : list (result unit (datagram * address)))
    (remote : address) : KcpConn K :=
  new_conn (default random conv) (Socket arrivals) remote None.

Definition le_value (bs : list byte) : Z := be_value (rev bs).

Definition kcp_accept (first_packet : datagram) (random : Z) (remote : address) : KcpConn K :=
  let conv := if (4 <=? length first_packet)%nat then le_value (take 4 first_packet) else random in
  new_conn conv (Chan [] true) remote (Some first_packet).

(** *** The stream *)
Definition reset_error : io_error := IoError ConnectionReset "KCP connection closed".

Definition kcp_poll_read (cap : nat) (c : KcpConn K) : poll (result io_error (list byte)) * KcpConn K :=
  let got bs rest user_out :=
    (Ready (Ok bs), KConn (kc_kcp c) (kc_out c) (kc_user_in c) user_out (kc_recv_src c) (kc_phase c) (kc_remote_addr c)
                      rest (kc_written c) (kc_to_kcp c) (kc_from_kcp c) (kc_read c ++ bs) (kc_heard c)) in
  match kc_read_buf c with
  | _ :: _ => got (take cap (kc_read_buf c)) (drop cap (kc_read_buf c)) (kc_user_out c)
  | [] =>
      match kc_user_out c with
      | d :: rest => got (take cap d) (drop cap d) rest
      | [] => match kc_phase c with Ended => (Ready (Err reset_error), c) | _ => (Pending, c) end
      end
  end.

(** [poll_write]: [try_send], which registers no waker when the channel is full. *)
Definition kcp_poll_write (buf : list byte) (c : KcpConn K) : poll (result io_error nat) * KcpConn K :=
  match kc_phase c with
  | Ended => (Ready (Err (IoError BrokenPipe "KCP send channel closed")), c)
  | _ =>
      if (length (kc_user_in c) <? CHANNEL)%nat
      then (Ready (Ok (length buf)),
            KConn (kc_kcp c) (kc_out c) (kc_user_in c ++ [buf]) (kc_user_out c) (kc_recv_src c) (kc_phase c)
              (kc_remote_addr c) (kc_read_buf c) (kc_written c ++ [buf]) (kc_to_kcp c) (kc_from_kcp c) (kc_read c) (kc_heard c))
      else (Pending, c)
  end.

(** *** Events *)
Inductive conn_event :=
| Tick (now_ms : Z)
| TakesDatagram
| SendsOut
| TakesWrite
| RecvTurn                                     (* a turn of a receive loop, or the hand-over retried *)
| UserReads (cap : nat)
| UserWrites (buf : list byte).

Definition conn_step (e : conn_event) (c : KcpConn K) : option (KcpConn K) :=
  match e with
  | UserReads cap => Some (kcp_poll_read cap c).2
  | UserWrites buf => Some (kcp_poll_write buf c).2
  | RecvTurn =>
      match kc_phase c with
      | Receiving fl => Some (recv_turn fl c)
      | Handing m fl => if (length (kc_user_out c) <? CHANNEL)%nat then Some (hand m fl c) else None
      | _ => None
      end
  | _ =>
      match kc_phase c with
      | Selecting =>
          match e with
          | Tick now =>
              let '(ps, k) := kcp_update now (kc_kcp c) in
              Some (flush (write_out ps (set_kcp k c)))
          | TakesDatagram =>
              '(r, src) ← next_datagram (kc_remote_addr c) (kc_recv_src c);
              let c := set_src src c in
              match r with
              | None => Some (set_phase Ended c)
              | Some [] => Some c
              | Some d => Some (set_phase (Receiving false) (set_kcp (kcp_input d (kc_kcp c)) c))
              end
          | SendsOut => match kc_out c with _ :: rest => Some (set_out rest c) | [] => None end
          | TakesWrite =>
              match kc_user_in c with
              | m :: rest =>
                  let '(_, k) := kcp_send m (kc_kcp c) in
                  Some (set_phase (Receiving false) (flush
                    (KConn k (kc_out c) rest (kc_user_out c) (kc_recv_src c) (kc_phase c) (kc_remote_addr c)
                       (kc_read_buf c) (kc_written c) (kc_to_kcp c ++ [m]) (kc_from_kcp c) (kc_read c) (kc_heard c))))
              | [] => None
              end
          | _ => None
          end
      | _ => None
      end
  end.

Fixpoint conn_run (es : list conn_event) (c : KcpConn K) : option (KcpConn K) :=
  match es with
  | [] => Some c
  | e :: es => c ← conn_step e c; conn_run es c
  end.

End Conn.

(** ** The listener *)
Record KcpListener (K : Type) := KListener {
  kl_routes : gmap address nat;                (* the route's id; its sender is the connection's channel *)
  kl_incoming : list (datagram * address);
  kl_next_route_id : nat;
  kl_conns : gmap nat (KcpConn K);
  kl_arrived : list (datagram * address);      (* ghost: what the socket received *)
}.
Arguments KListener {K}.
Arguments kl_routes {K}.
Arguments kl_incoming {K}.
Arguments kl_next_route_id {K}.
Arguments kl_conns {K}.
Arguments kl_arrived {K}.

Section Listener.
Context {K : Type} `{Kcp K}.

Definition kcp_bind : KcpListener K := KListener ∅ [] 1 ∅ [].

Definition set_conns (m : gmap nat (KcpConn K)) (l : KcpListener K) : KcpListener K :=
  KListener (kl_routes l) (kl_incoming l) (kl_next_route_id l) m (kl_arrived l).

(** [tx.try_send]: lost when the channel is full or its receiver is gone. *)
Definition route_to (d : datagram) (c : KcpConn K) : KcpConn K :=
  match kc_recv_src c, kc_phase c with
  | _, Ended => c
  | Chan queue alive, _ =>
      if (length queue <? CHANNEL)%nat
      then KConn (kc_kcp c) (kc_out c) (kc_user_in c) (kc_user_out c) (Chan (queue ++ [d]) alive) (kc_phase c)
             (kc_remote_addr c) (kc_read_buf c) (kc_written c) (kc_to_kcp c) (kc_from_kcp c) (kc_read c) (kc_heard c ++ [d])
      else c
  | _, _ => c
  end.

(** The reader task: one datagram of the shared socket. *)
Definition reader (d : datagram) (src : address) (l : KcpListener K) : KcpListener K :=
  let l := KListener (kl_routes l) (kl_incoming l) (kl_next_route_id l) (kl_conns l) (kl_arrived l ++ [(d, src)]) in
  match kl_routes l !! src with
  | Some id => set_conns (alter (route_to d) id (kl_conns l)) l
  | None =>
      if (length (kl_incoming l) <? CHANNEL)%nat
      then KListener (kl_routes l) (kl_incoming l ++ [(d, src)]) (kl_next_route_id l) (kl_conns l) (kl_arrived l)
      else l
  end.

(** A route that is replaced drops its sender. *)
Definition sender_dropped (c : KcpConn K) : KcpConn K :=
  match kc_recv_src c with
  | Chan queue _ => set_src (Chan queue false) c
  | Socket _ => c
  end.

Definition drop_route (id : option nat) (m : gmap nat (KcpConn K)) : gmap nat (KcpConn K) :=
  match id with Some id => alter sender_dropped id m | None => m end.

(** [accept]: [None] while it waits; [random] is used when the packet is too
    short to hold a conversation number. *)
Definition accept (random : Z) (l : KcpListener K) : option (nat * KcpListener K) :=
  match kl_incoming l with
  | [] => None
  | (first_packet, src_addr) :: rest =>
      let route_id := kl_next_route_id l in
      let conns := drop_route (kl_routes l !! src_addr) (kl_conns l) in
      let c := kcp_accept first_packet random src_addr in
      let c := KConn (kc_kcp c) (kc_out c) (kc_user_in c) (kc_user_out c) (kc_recv_src c) (kc_phase c)
                 (kc_remote_addr c) (kc_read_buf c) (kc_written c) (kc_to_kcp c) (kc_from_kcp c) (kc_read c) [first_packet] in
      Some (route_id, KListener (<[src_addr := route_id]> (kl_routes l)) rest (S route_id) (<[route_id := c]> conns) (kl_arrived l))
  end.

(** [KcpRouteGuard::drop]. *)
Definition drop_guard (remote_addr : address) (id : nat) (routes : gmap address nat) : gmap address nat :=
  if decide (routes !! remote_addr = Some id) then delete remote_addr routes else routes.

Inductive listener_event :=
| Arrives (d : datagram) (src : address)
| Accepts (random : Z)
| ConnRuns (id : nat) (e : conn_event)
| ConnDropped (id : nat).

Definition guard_dropped (id : nat) (c : KcpConn K) (l : KcpListener K) : KcpListener K :=
  KListener (drop_guard (kc_remote_addr c) id (kl_routes l)) (kl_incoming l) (kl_next_route_id l) (kl_conns l) (kl_arrived l).

(** The driver task ends with its guard, by itself or because the connection was
    dropped. *)
Definition listener_step (e : listener_event) (l : KcpListener K) : option (KcpListener K) :=
  match e with
  | Arrives d src => Some (reader d src l)
  | Accepts random => snd <$> accept random l
  | ConnRuns id e =>
      c ← kl_conns l !! id;
      c' ← conn_step e c;
      let l := set_conns (<[id := c']> (kl_conns l)) l in
      Some (match kc_phase c, kc_phase c' with
            | Ended, _ => l
            | _, Ended => guard_dropped id c' l
            | _, _ => l
            end)
  | ConnDropped id =>
      c ← kl_conns l !! id;
      Some (guard_dropped id c (set_conns (delete id (kl_conns l)) l))
  end.

Fixpoint listener_run (es : list listener_event) (l : KcpListener K) : option (KcpListener K) :=
  match es with
  | [] => Some l
  | e :: es => l ← listener_step e l; listener_run es l
  end.

End Listener.

(** ** One connection *)
Section ConnLemmas.
Context {K : Type} `{Kcp K}.

(** What a connection's [Chan] can become by the driver's own steps. *)
Definition src_step (r r' : KcpRecv) : Prop :=
  r' = r \/ exists d q a, r = Chan (d :: q) a /\ r' = Chan q a.

(** Everything but the driver's and the user's own business. *)
Record routing_frame (c c' : KcpConn K) : Prop := {
  rf_remote : kc_remote_addr c' = kc_remote_addr c;
  rf_heard : kc_heard c' = kc_heard c;
  rf_src : forall q a, kc_recv_src c = Chan q a -> src_step (Chan q a) (kc_recv_src c');
  rf_end : kc_phase c' = Ended -> kc_phase c = Ended \/ (forall q, kc_recv_src c <> Chan q true);
  rf_stays : kc_phase c = Ended -> kc_phase c' = Ended;
}.

Lemma write_out_frame ps (c : KcpConn K) : write_out ps c = set_out (kc_out (write_out ps c)) c.
Proof. done. Qed.

Lemma flush_frame (c : KcpConn K) : exists k out, flush c = set_out out (set_kcp k c).
Proof. unfold flush. destruct (kcp_flush (kc_kcp c)) as [ps k]. by exists k, (kc_out (write_out ps (set_kcp k c))). Qed.

Lemma hand_frame m fl (c : KcpConn K) :
  exists u p, hand m fl c = KConn (kc_kcp c) (kc_out c) (kc_user_in c) u (kc_recv_src c) p (kc_remote_addr c)
    (kc_read_buf c) (kc_written c) (kc_to_kcp c) (kc_from_kcp c) (kc_read c) (kc_heard c) /\ p <> Ended.
Proof. unfold hand. case_match; eexists _, _; split; try reflexivity; done. Qed.

#[local] Ltac frame_done := split; simpl; try done; try (intros q a ->; auto); try (left; congruence); try congruence; auto.

Lemma conn_step_routing e (c c' : KcpConn K) : conn_step e c = Some c' -> routing_frame c c'.
Proof.
  assert (forall r, src_step r r) as Hrefl by (by left).
  destruct e as [now| | | | |cap|buf]; cbn [conn_step].
  - destruct (kc_phase c) eqn:Hp; try done. destruct (kcp_update now (kc_kcp c)) as [ps k]. intros [= <-].
    destruct (flush_frame (write_out ps (set_kcp k c))) as (k' & out & ->). frame_done.
  - destruct (kc_phase c) eqn:Hp; try done. destruct (next_datagram _ _) as [[r src]|] eqn:En; [|done].
    cbn [mbind option_bind]. intros E.
    assert (forall q a, kc_recv_src c = Chan q a -> src_step (Chan q a) src /\ (r = None -> a = false)) as Hs.
    { intros q a Hc. rewrite Hc in En. destruct q as [|d q]; [destruct a|]; simpl in En; [done|..]; injection En as <- <-.
      - split; [by left|done].
      - split; [right; by exists d, q, a|done]. }
    destruct r as [[|b d]|]; injection E as <-; split; simpl; try done; try (intros q a Hc; by apply Hs); try congruence; try (rewrite Hp; congruence).
    intros _. right. intros q Hc. destruct (Hs _ _ Hc) as [_ Ha]. by specialize (Ha eq_refl).
  - destruct (kc_phase c) eqn:Hp; try done. destruct (kc_out c); [done|]. intros [= <-].
    frame_done.
  - destruct (kc_phase c) eqn:Hp; try done. destruct (kc_user_in c); [done|]. destruct (kcp_send _ _) as [ok k]. intros [= <-].
    match goal with |- context [flush ?x] => destruct (flush_frame x) as (k' & out & ->) end.
    frame_done.
  - destruct (kc_phase c) as [|fl|m fl|] eqn:Hp; try done.
    + intros [= <-]. unfold recv_turn. destruct (kcp_recv _ _) as [[m k]|].
      * match goal with |- context [hand m fl ?x] => destruct (hand_frame m fl x) as (u & p & -> & Hn) end.
        frame_done.
      * destruct fl; [destruct (flush_frame c) as (k' & out & ->)|]; frame_done.
    + case_match; [|done]. intros [= <-]. destruct (hand_frame m fl c) as (u & p & -> & Hn).
      frame_done.
  - intros [= <-]. unfold kcp_poll_read. destruct (kc_read_buf c); [destruct (kc_user_out c); [destruct (kc_phase c) eqn:Hp|]|];
      frame_done.
  - intros [= <-]. unfold kcp_poll_write. destruct (kc_phase c) eqn:Hp; [case_match..|];
      frame_done.
Qed.

(** The user's side: nothing written is lost or doubled on the way into the
    machine, and what is read is what came out of it. *)
Definition in_hand (c : KcpConn K) : list (list byte) := match kc_phase c with Handing m _ => [m] | _ => [] end.

Record conn_inv (c : KcpConn K) : Prop := {
  ci_written : kc_written c = kc_to_kcp c ++ kc_user_in c;
  ci_read : concat (kc_from_kcp c) = kc_read c ++ kc_read_buf c ++ concat (kc_user_out c ++ in_hand c);
  ci_bounds : (length (kc_user_in c) <= CHANNEL /\ length (kc_user_out c) <= CHANNEL /\ length (kc_out c) <= CHANNEL)%nat;
}.

Lemma new_conn_inv conv src remote first : conn_inv (new_conn (K:=K) conv src remote first).
Proof. destruct first; split; simpl; try done; lia. Qed.

Lemma write_out_bound ps (c : KcpConn K) : (length (kc_out c) <= CHANNEL)%nat -> (length (kc_out (write_out ps c)) <= CHANNEL)%nat.
Proof.
  unfold write_out. simpl. generalize (kc_out c). induction ps as [|p ps IH]; intros out Hl; simpl; [done|].
  apply IH. case_match eqn:E; [|done]. apply Nat.ltb_lt in E. rewrite length_app. simpl. lia.
Qed.

Lemma set_kcp_inv k c : conn_inv c -> conn_inv (set_kcp k c).
Proof. by intros []. Qed.
Lemma write_out_inv ps c : conn_inv c -> conn_inv (write_out ps c).
Proof. intros [H1 H2 H3]. split; [done..|]. split_and!; [apply H3..|]. apply write_out_bound, H3. Qed.
Lemma flush_inv c : conn_inv c -> conn_inv (flush c).
Proof. intros I. unfold flush. destruct (kcp_flush _). by apply write_out_inv, set_kcp_inv. Qed.

Lemma set_phase_inv p c : in_hand (set_phase p c) = in_hand c -> conn_inv c -> conn_inv (set_phase p c).
Proof. intros Hh [H1 H2 H3]. split; [done| |done]. by rewrite Hh. Qed.

(** [hand] of a message that the machine has just given. *)
Lemma hand_inv m fl c : kc_written c = kc_to_kcp c ++ kc_user_in c ->
  concat (kc_from_kcp c) = kc_read c ++ kc_read_buf c ++ concat (kc_user_out c ++ [m]) ->
  (length (kc_user_in c) <= CHANNEL /\ length (kc_user_out c) <= CHANNEL /\ length (kc_out c) <= CHANNEL)%nat ->
  conn_inv (hand m fl c).
Proof.
  intros H1 H2 H3. unfold hand. case_match eqn:E; split; simpl; try done.
  - by rewrite app_nil_r.
  - apply Nat.ltb_lt in E. rewrite length_app. simpl. lia.
Qed.

Lemma conn_step_inv e c c' : conn_inv c -> conn_step e c = Some c' -> conn_inv c'.
Proof.
  intros I. destruct e as [now| | | | |cap|buf]; cbn [conn_step].
  - destruct (kc_phase c); try done. destruct (kcp_update now (kc_kcp c)) as [ps k]. intros [= <-].
    by apply flush_inv, write_out_inv, set_kcp_inv.
  - destruct (kc_phase c) eqn:Hp; try done. destruct (next_datagram _ _) as [[r src]|]; [|done]. cbn [mbind option_bind]. intros E.
    assert (in_hand c = []) as Hh by (unfold in_hand; by rewrite Hp).
    assert (conn_inv (set_src src c)) as Hs by (by destruct I).
    destruct r as [[|b d]|]; injection E as <-; [done|..]; (apply set_phase_inv; [by unfold in_hand; simpl; rewrite Hp|]); [|done].
    by apply set_kcp_inv.
  - destruct (kc_phase c) eqn:Hp; try done. destruct (kc_out c) eqn:Eo; [done|]. intros [= <-]. destruct I as [H1 H2 H3].
    split; [done..|]. rewrite Eo in H3. simpl in *. lia.
  - destruct (kc_phase c) eqn:Hp; try done. destruct (kc_user_in c) as [|m rest] eqn:Eu; [done|].
    destruct (kcp_send _ _) as [ok k]. intros [= <-]. apply set_phase_inv.
    { match goal with |- context [flush ?x] => destruct (flush_frame x) as (k' & out & ->) end. reflexivity. }
    apply flush_inv. destruct I as [H1 H2 H3]. rewrite Eu in *. split; simpl in *.
    + rewrite H1. by rewrite <- app_assoc.
    + unfold in_hand in H2. by rewrite Hp in H2.
    + lia.
  - destruct (kc_phase c) as [|fl|m fl|] eqn:Hp; try done.
    + intros [= <-]. unfold recv_turn. destruct (kcp_recv _ _) as [[m k]|].
      * destruct I as [H1 H2 H3]. unfold in_hand in H2. rewrite Hp, app_nil_r in H2. apply hand_inv; simpl; try done.
        rewrite !concat_app, H2. simpl. by rewrite app_nil_r, !app_assoc.
      * assert (forall c1, in_hand c1 = [] -> conn_inv c1 -> conn_inv (set_phase Selecting c1)) as Hsel
          by (intros c1 Hh; apply set_phase_inv; by rewrite Hh).
        destruct fl; apply Hsel.
        -- destruct (flush_frame c) as (k' & out & ->). unfold in_hand. simpl. by rewrite Hp.
        -- by apply flush_inv.
        -- unfold in_hand. by rewrite Hp.
        -- done.
    + case_match; [|done]. intros [= <-]. destruct I as [H1 H2 H3]. unfold in_hand in H2. rewrite Hp in H2. by apply hand_inv.
  - intros [= <-]. unfold kcp_poll_read. pose proof I as [H1 H2 H3].
    destruct (kc_read_buf c) as [|b buf] eqn:Eb.
    + destruct (kc_user_out c) as [|d rest] eqn:Eu.
      * by destruct (kc_phase c).
      * split; simpl; [done| |simpl in *; lia]. rewrite H2. simpl. rewrite <- !app_assoc. f_equal.
        by rewrite (app_assoc (take cap d)), take_drop.
    + split; simpl; [done| |done]. rewrite H2. rewrite <- !app_assoc. f_equal. by rewrite (app_assoc (take cap _)), take_drop.
  - intros [= <-]. unfold kcp_poll_write. destruct I as [H1 H2 H3].
    destruct (kc_phase c) eqn:Hp; [case_match eqn:El..|]; try (by split);
      (apply Nat.ltb_lt in El; split; simpl; [by rewrite H1, app_assoc|by unfold in_hand in *; simpl in *; rewrite Hp in *|rewrite length_app; simpl; lia]).
Qed.

Lemma conn_run_inv es c c' : conn_inv c -> conn_run es c = Some c' -> conn_inv c'.
Proof.
  revert c; induction es as [|e es IH]; intros c I; cbn [conn_run]; [by intros [= <-]|].
  destruct (conn_step e c) as [c1|] eqn:E; [|done]. apply IH. by eapply conn_step_inv.
Qed.

(** a KCP connection neither loses, repeats nor reorders what passes between
    its user and the protocol machine: the machine was given the accepted writes,
    in order, up to those that wait in the channel, and the user has read the
    messages the machine returned, laid end to end, up to what waits in the read
    buffer, in the channel and in the driver's hand. *)
Theorem kcp_conn_faithful conv src remote first es c :
  conn_run es (new_conn conv src remote first) = Some c ->
  kc_to_kcp c `prefix_of` kc_written c /\ length (kc_written c) = (length (kc_to_kcp c) + length (kc_user_in c))%nat /\
  concat (kc_from_kcp c) = kc_read c ++ kc_read_buf c ++ concat (kc_user_out c ++ in_hand c) /\
  (length (kc_user_in c) <= CHANNEL /\ length (kc_user_out c) <= CHANNEL /\ length (kc_out c) <= CHANNEL)%nat.
Proof.
  intros [H1 H2 H3]%conn_run_inv; [|apply new_conn_inv]. split_and!; try apply H3; [|by rewrite H1, length_app|done].
  rewrite H1. by apply prefix_app_r.
Qed.

(** A message the machine has ready that is longer than the buffer of 65535
    bytes stays there: nothing behind it is ever delivered. *)
Lemma long_message_blocks `{!KcpLaws K} (c : KcpConn K) fl m rest :
  kcp_ready (kc_kcp c) = m :: rest -> (BUFFER < length m)%nat ->
  recv_turn fl c = set_phase Selecting (if fl then flush c else c).
Proof.
  intros Hr Hl. unfold recv_turn. rewrite kcp_recv_refuses; [done|]. by rewrite Hr.
Qed.

(** what KCP has put together reaches the user's channel: while there is
    room and no message is longer than the buffer, the receive loop hands over
    every ready message, in order, one a turn, and ends. *)
Theorem kcp_delivers_ready `{!KcpLaws K} fl (c : KcpConn K) : kc_phase c = Receiving fl ->
  Forall (fun m => (length m <= BUFFER)%nat) (kcp_ready (kc_kcp c)) ->
  (length (kc_user_out c) + length (kcp_ready (kc_kcp c)) <= CHANNEL)%nat ->
  exists c', conn_run (replicate (S (length (kcp_ready (kc_kcp c)))) RecvTurn) c = Some c' /\
    kc_phase c' = Selecting /\ kc_user_out c' = kc_user_out c ++ kcp_ready (kc_kcp c) /\ kcp_ready (kc_kcp c') = [].
Proof.
  remember (kcp_ready (kc_kcp c)) as ms eqn:Hms. symmetry in Hms. revert c Hms.
  induction ms as [|m ms IH]; intros c Hms Hp Hf Hl; cbn [length replicate conn_run conn_step mbind option_bind]; rewrite Hp;
    cbn [mbind option_bind]; unfold recv_turn.
  - rewrite kcp_recv_refuses by (by rewrite Hms). eexists. split; [reflexivity|]. rewrite app_nil_r.
    destruct fl; [|by split_and!]. unfold flush. destruct (kcp_flush (kc_kcp c)) as [ps k] eqn:Ek. simpl. split_and!; try done.
    pose proof (kcp_flush_ready (kc_kcp c)) as Hr. rewrite Ek in Hr. simpl in Hr. by rewrite Hr.
  - apply Forall_cons in Hf as [Hm Hf]. destruct (kcp_recv_takes BUFFER _ _ _ Hms Hm) as (k & -> & Hk).
    unfold hand. cbn [kc_user_out]. cbn [length] in Hl.
    assert ((length (kc_user_out c) <? CHANNEL)%nat = true) as -> by (apply Nat.ltb_lt; lia).
    destruct (IH (KConn k (kc_out c) (kc_user_in c) (kc_user_out c ++ [m]) (kc_recv_src c) (Receiving fl) (kc_remote_addr c)
      (kc_read_buf c) (kc_written c) (kc_to_kcp c) (kc_from_kcp c ++ [m]) (kc_read c) (kc_heard c))) as (c' & Hr & Hs & Hu & He);
      [done|done|done|simpl; rewrite length_app; simpl; lia|].
    exists c'. cbn [kc_kcp kc_out kc_user_in kc_user_out kc_recv_src kc_phase kc_remote_addr kc_read_buf kc_written kc_to_kcp
      kc_from_kcp kc_read kc_heard]. cbn [kc_user_out] in Hu. split_and!; [exact Hr|done| |done]. by rewrite Hu, <- app_assoc.
Qed.

(** A write the machine refuses was reported as written. *)
Lemma refused_write_is_lost (c : KcpConn K) m rest k : kc_phase c = Selecting -> kc_user_in c = m :: rest ->
  kcp_send m (kc_kcp c) = (false, k) -> exists c', conn_step TakesWrite c = Some c' /\ kc_user_in c' = rest.
Proof.
  intros Hp Hu Hs. cbn [conn_step]. rewrite Hp, Hu, Hs. eexists. split; [done|].
  match goal with |- context [flush ?x] => destruct (flush_frame x) as (k' & out & ->) end. reflexivity.
Qed.

(** A full channel answers "not yet" and leaves nothing that would wake the
    writer. *)
Lemma full_channel_never_wakes buf (c : KcpConn K) : kc_phase c <> Ended -> length (kc_user_in c) = CHANNEL ->
  kcp_poll_write buf c = (Pending, c).
Proof. intros Hp Hl. unfold kcp_poll_write. rewrite Hl, Nat.ltb_irrefl. by destruct (kc_phase c). Qed.

End ConnLemmas.

(** ** Routing *)
Section ListenerLemmas.
Context {K : Type} `{Kcp K}.

(** The datagrams that came from an address. *)
Definition sent_by (a : address) (l : list (datagram * address)) : list datagram := (filter (fun x => x.2 = a) l).*1.

Lemma sent_by_app a l k : sent_by a (l ++ k) = sent_by a l ++ sent_by a k.
Proof. unfold sent_by. by rewrite filter_app, fmap_app. Qed.

(** The channel of a connection with a live sender. *)
Definition open_chan (c : KcpConn K) : Prop := kc_phase c <> Ended /\ exists q, kc_recv_src c = Chan q true.

Record listener_inv (l : KcpListener K) : Prop := {
  li_routes : forall a id, kl_routes l !! a = Some id ->
    exists c, kl_conns l !! id = Some c /\ kc_remote_addr c = a /\ open_chan c;
  li_open : forall id c, kl_conns l !! id = Some c -> open_chan c -> kl_routes l !! kc_remote_addr c = Some id;
  li_fresh : forall id c, kl_conns l !! id = Some c -> (id < kl_next_route_id l)%nat;
  li_chan : forall id c, kl_conns l !! id = Some c ->
    kc_heard c `sublist_of` sent_by (kc_remote_addr c) (kl_arrived l) /\
    exists q a, kc_recv_src c = Chan q a /\ q `suffix_of` kc_heard c;
  li_incoming : forall d a, (d, a) ∈ kl_incoming l -> (d, a) ∈ kl_arrived l;
}.

Lemma kcp_bind_inv : listener_inv kcp_bind.
Proof. split; simpl; intros; try done; by apply not_elem_of_nil in H0 || (by set_solver). Qed.

(** [route_to] keeps everything but the channel. *)
Lemma route_to_spec d (c : KcpConn K) q a : kc_recv_src c = Chan q a ->
  kc_remote_addr (route_to d c) = kc_remote_addr c /\ kc_phase (route_to d c) = kc_phase c /\
  (route_to d c = c \/ kc_heard (route_to d c) = kc_heard c ++ [d] /\ kc_recv_src (route_to d c) = Chan (q ++ [d]) a).
Proof.
  intros Hs. unfold route_to. rewrite Hs. destruct (kc_phase c) eqn:Hp; try case_match; simpl; rewrite ?Hp; auto.
Qed.

Lemma sublist_grows (x : list datagram) a l k : x `sublist_of` sent_by a l -> x `sublist_of` sent_by a (l ++ k).
Proof. intros Hx. rewrite sent_by_app. by apply sublist_inserts_r. Qed.

Lemma reader_inv d src l : listener_inv l -> listener_inv (reader d src l).
Proof.
  intros [R O F C I]. unfold reader. simpl.
  assert (forall x y, (x, y) ∈ kl_incoming l -> (x, y) ∈ kl_arrived l ++ [(d, src)]) as I'
    by (intros x y Hx; apply elem_of_app; left; by apply I).
  destruct (kl_routes l !! src) as [id|] eqn:Er.
  - destruct (R _ _ Er) as (c & Hc & Hrem & Hph & q & Hq).
    destruct (route_to_spec d c q true Hq) as (Hr1 & Hr2 & Hr3).
    assert (open_chan (route_to d c)) as Hopen.
    { split; [by rewrite Hr2|]. destruct Hr3 as [-> |[_ ->]]; eauto. }
    split; simpl; try done.
    + intros a i Ha. destruct (decide (i = id)) as [-> |Hn].
      * destruct (R _ _ Ha) as (c1 & Hc1 & Hrem1 & _). simplify_eq.
        exists (route_to d c). rewrite lookup_alter_eq, Hc. simpl. split_and!; [done|done|exact Hopen].
      * rewrite lookup_alter_ne by done. by apply R.
    + intros i c1 Hi Ho. destruct (decide (i = id)) as [-> |Hn].
      * rewrite lookup_alter_eq, Hc in Hi. simpl in Hi. simplify_eq. by rewrite Hr1.
      * rewrite lookup_alter_ne in Hi by done. by apply O.
    + intros i c1 Hi. destruct (decide (i = id)) as [-> |Hn].
      * by apply (F _ c).
      * rewrite lookup_alter_ne in Hi by done. by apply (F _ c1).
    + intros i c1 Hi. destruct (decide (i = id)) as [-> |Hn].
      * rewrite lookup_alter_eq, Hc in Hi. simpl in Hi. injection Hi as <-.
        destruct (C _ _ Hc) as (Hsub & q1 & a1 & Hq1 & Hsuf). rewrite Hr1.
        destruct Hr3 as [-> |[Hh Hs]].
        -- split; [by apply sublist_grows|eauto].
        -- rewrite Hh, Hs. split.
           ++ rewrite sent_by_app, Hrem. unfold sent_by at 2. rewrite filter_cons_True by done. simpl.
              apply sublist_app; [by rewrite <- Hrem|done].
           ++ exists (q ++ [d]), true. split; [done|]. rewrite Hq1 in Hq. simplify_eq. destruct Hsuf as [k ->]. exists k. by rewrite app_assoc.
      * rewrite lookup_alter_ne in Hi by done. destruct (C _ _ Hi) as [Hsub Hq1]. split; [by apply sublist_grows|done].
  - assert (forall x, listener_inv (KListener (kl_routes l) x (kl_next_route_id l) (kl_conns l) (kl_arrived l ++ [(d, src)]))
      <-> (forall e a, (e, a) ∈ x -> (e, a) ∈ kl_arrived l ++ [(d, src)])) as Hx.
    { intros x. split; [by intros []|]. intros Hx. split; simpl; try done.
      intros i c1 Hi. destruct (C _ _ Hi) as [Hsub Hq1]. split; [by apply sublist_grows|done]. }
    case_match; apply Hx; simpl; [|done]. intros e a [He| ->%list_elem_of_singleton]%elem_of_app; [by apply I'|].
    apply elem_of_app. right. by apply list_elem_of_singleton.
Qed.

Lemma accept_inv random l id l' : listener_inv l -> accept random l = Some (id, l') -> listener_inv l'.
Proof.
  intros [R O F C I]. unfold accept. destruct (kl_incoming l) as [|[first src] rest] eqn:Ei; [done|]. intros [= <- <-].
  set (conns := drop_route (kl_routes l !! src) (kl_conns l)).
  assert (forall i c1, conns !! i = Some c1 ->
    exists c, kl_conns l !! i = Some c /\ kc_remote_addr c1 = kc_remote_addr c /\ kc_heard c1 = kc_heard c /\
      (kl_routes l !! src <> Some i -> c1 = c) /\
      (kl_routes l !! src = Some i -> ~ open_chan c1) /\
      (forall q a, kc_recv_src c = Chan q a -> exists a', kc_recv_src c1 = Chan q a')) as Hold.
  { intros i c1. unfold conns, drop_route. destruct (kl_routes l !! src) as [j|] eqn:Ej.
    2:{ intros Hi. exists c1. split_and!; try done; eauto. }
    destruct (decide (i = j)) as [-> |Hn].
    - rewrite lookup_alter_eq. destruct (kl_conns l !! j) as [c|]; [|done]. simpl. intros [= <-]. exists c.
      unfold sender_dropped. destruct (kc_recv_src c) as [|q a] eqn:Es; split_and!; simpl; try done; eauto; try (intros Hf; by destruct Hf).
      + intros _ [_ [q Hq]]. by rewrite Es in Hq.
      + intros _ [_ [q' Hq]]. done.
      + intros q' a' [= -> ->]. eauto.
    - rewrite lookup_alter_ne by done. intros Hi. exists c1. split_and!; try done; eauto. congruence. }
  assert (conns !! kl_next_route_id l = None) as Hfree.
  { destruct (conns !! kl_next_route_id l) as [c1|] eqn:E; [|done]. destruct (Hold _ _ E) as (c & Hc & _). apply F in Hc. lia. }
  split; simpl.
  - intros a i Ha. destruct (decide (a = src)) as [-> |Hn].
    + rewrite lookup_insert_eq in Ha. simplify_eq. eexists. rewrite lookup_insert_eq.
      split_and!; [reflexivity|done|]. split; simpl; [done|by exists []].
    + rewrite lookup_insert_ne in Ha by done. destruct (R _ _ Ha) as (c & Hc & Hrem & Ho).
      exists c. split; [|done]. rewrite lookup_insert_ne by (apply F in Hc; lia).
      unfold conns, drop_route. destruct (kl_routes l !! src) as [j|] eqn:Ej; [|done].
      rewrite lookup_alter_ne; [done|]. intros ->. destruct (R _ _ Ej) as (c' & Hc' & Hr' & _). congruence.
  - intros i c1 Hi Ho. destruct (decide (i = kl_next_route_id l)) as [-> |Hn].
    + rewrite lookup_insert_eq in Hi. injection Hi as <-. simpl. by rewrite lookup_insert_eq.
    + rewrite lookup_insert_ne in Hi by done. destruct (Hold _ _ Hi) as (c & Hc & Hrem & _ & Hsame & Hnot & _).
      destruct (decide (kl_routes l !! src = Some i)) as [Hs|Hs]; [by destruct (Hnot Hs)|].
      rewrite (Hsame Hs) in *. rewrite lookup_insert_ne; [by apply O|].
      intros Heq. destruct Hs. rewrite Heq. by apply O.
  - intros i c1 Hi. destruct (decide (i = kl_next_route_id l)) as [-> |Hn]; [lia|].
    rewrite lookup_insert_ne in Hi by done. destruct (Hold _ _ Hi) as (c & Hc & _). apply F in Hc. lia.
  - intros i c1 Hi. destruct (decide (i = kl_next_route_id l)) as [-> |Hn].
    + rewrite lookup_insert_eq in Hi. injection Hi as <-. simpl. split; [|exists [], true; split; [done|apply suffix_nil]].
      apply singleton_sublist_l. unfold sent_by. apply list_elem_of_fmap. exists (first, src). split; [done|].
      apply list_elem_of_filter. split; [done|]. apply I. apply list_elem_of_here.
    + rewrite lookup_insert_ne in Hi by done. destruct (Hold _ _ Hi) as (c & Hc & Hrem & Hh & _ & _ & Hq).
      destruct (C _ _ Hc) as (Hsub & q & a & Hs & Hsuf). destruct (Hq _ _ Hs) as [a' Ha'].
      rewrite Hrem, Hh. split; [done|eauto].
  - intros d a Hd. apply I. by apply list_elem_of_further.
Qed.

Lemma conn_runs_inv id e c c' l : listener_inv l -> kl_conns l !! id = Some c -> conn_step e c = Some c' ->
  listener_inv (match kc_phase c, kc_phase c' with
    | Ended, _ => set_conns (<[id := c']> (kl_conns l)) l
    | _, Ended => guard_dropped id c' (set_conns (<[id := c']> (kl_conns l)) l)
    | _, _ => set_conns (<[id := c']> (kl_conns l)) l
    end).
Proof.
  intros [R O F C I] Hc E. destruct (conn_step_routing _ _ _ E) as [Fr Fh Fs Fe Fst].
  destruct (C _ _ Hc) as (Hsub & q & a & Hs & Hsuf).
  assert (exists q', kc_recv_src c' = Chan q' a /\ q' `suffix_of` kc_heard c') as (q' & Hq' & Hsuf').
  { destruct (Fs _ _ Hs) as [Hq|(d & q2 & a2 & Hq & Hq2)]; rewrite Fh; [by exists q|]. simplify_eq.
    exists q2. split; [done|]. destruct Hsuf as [k Hk]. exists (k ++ [d]). by rewrite Hk, <- app_assoc. }
  assert (open_chan c -> open_chan c') as Hopen.
  { intros [Hp [q1 Hq1]]. split; [|rewrite Hs in Hq1; simplify_eq; eauto].
    intros Hend. destruct (Fe Hend) as [?|Hno]; [done|by apply (Hno q1)]. }
  assert (open_chan c' -> open_chan c) as Hopen'.
  { intros [Hp [q1 Hq1]]. split; [|rewrite Hq' in Hq1; simplify_eq; eauto]. intros Hend. by apply Hp, Fst. }
  assert (listener_inv (set_conns (<[id := c']> (kl_conns l)) l)) as Hinv.
  { split; simpl; try done.
    - intros x i Hi. destruct (R _ _ Hi) as (c1 & Hc1 & Hr1 & Ho1). destruct (decide (i = id)) as [-> |Hn].
      + simplify_eq. exists c'. rewrite lookup_insert_eq. rewrite Fr. auto.
      + exists c1. by rewrite lookup_insert_ne.
    - intros i c1 Hi Ho. destruct (decide (i = id)) as [-> |Hn].
      + rewrite lookup_insert_eq in Hi. simplify_eq. rewrite Fr. by apply O; [|apply Hopen'].
      + rewrite lookup_insert_ne in Hi by done. by apply O.
    - intros i c1 Hi. destruct (decide (i = id)) as [-> |Hn]; [by apply (F _ c)|].
      rewrite lookup_insert_ne in Hi by done. by apply (F _ c1).
    - intros i c1 Hi. destruct (decide (i = id)) as [-> |Hn].
      + rewrite lookup_insert_eq in Hi. simplify_eq. rewrite Fr, Fh. rewrite Fh in Hsuf'. eauto.
      + rewrite lookup_insert_ne in Hi by done. exact (C _ _ Hi). }
  assert (kc_phase c <> Ended -> kc_phase c' = Ended ->
    guard_dropped id c' (set_conns (<[id := c']> (kl_conns l)) l) = set_conns (<[id := c']> (kl_conns l)) l) as Hguard.
  { intros Hne Hend. unfold guard_dropped, drop_guard. simpl. rewrite decide_False; [done|]. intros Hr.
    destruct (R _ _ Hr) as (c1 & Hc1 & _ & _ & q1 & Hq1). simplify_eq.
    destruct (Fe Hend) as [?|Hno]; [done|by apply (Hno q1)]. }
  destruct (kc_phase c) eqn:Hp; [..|done]; destruct (kc_phase c') eqn:Hp'; try done; by rewrite Hguard.
Qed.

Lemma conn_dropped_inv id c l : listener_inv l -> kl_conns l !! id = Some c ->
  listener_inv (guard_dropped id c (set_conns (delete id (kl_conns l)) l)).
Proof.
  intros [R O F C I] Hc. unfold guard_dropped, drop_guard. simpl. split; simpl; try done.
  - intros a i Ha. assert (kl_routes l !! a = Some i /\ i <> id) as [Ha' Hn].
    { case_decide as Hd.
      - destruct (decide (a = kc_remote_addr c)) as [-> |Hne]; [by rewrite lookup_delete_eq in Ha|].
        rewrite lookup_delete_ne in Ha by done. split; [done|]. intros ->.
        destruct (R _ _ Ha) as (c1 & Hc1 & Hr1 & _). simplify_eq.
      - split; [done|]. intros ->. destruct (R _ _ Ha) as (c1 & Hc1 & Hr1 & _). simplify_eq. }
    destruct (R _ _ Ha') as (c1 & Hc1 & ?). exists c1. by rewrite lookup_delete_ne.
  - intros i c1 Hi Ho. apply lookup_delete_Some in Hi as [Hn Hi]. pose proof (O _ _ Hi Ho) as Hr.
    case_decide as Hd; [|done]. rewrite lookup_delete_ne; [done|]. intros Heq. congruence.
  - intros i c1 Hi. apply lookup_delete_Some in Hi as [Hn Hi]. by apply (F _ c1).
  - intros i c1 Hi. apply lookup_delete_Some in Hi as [Hn Hi]. exact (C _ _ Hi).
Qed.

Lemma listener_run_inv es l l' : listener_inv l -> listener_run es l = Some l' -> listener_inv l'.
Proof.
  revert l; induction es as [|e es IH]; intros l I; cbn [listener_run]; [by intros [= <-]|].
  destruct (listener_step e l) as [l1|] eqn:E; [|done]. apply IH. destruct e as [d src|random|id e|id]; cbn [listener_step] in E.
  - injection E as <-. by apply reader_inv.
  - destruct (accept random l) as [[id l2]|] eqn:Ea; [|done]. injection E as <-. by eapply accept_inv.
  - destruct (kl_conns l !! id) as [c|] eqn:Hc; [|done]. cbn [mbind option_bind] in E.
    destruct (conn_step e c) as [c'|] eqn:Ec; [|done]. injection E as <-. by apply (conn_runs_inv id e).
  - destruct (kl_conns l !! id) as [c|] eqn:Hc; [|done]. injection E as <-. by apply conn_dropped_inv.
Qed.

(** datagrams reach only the connection of the peer that sent them: whatever
    arrives and however connections come and go, a connection was given datagrams
    of its own peer only, in the order they arrived and none twice; a route leads
    to a live connection of that peer; and of several connections with one peer
    exactly the routed one can still receive, so a connection that ends late never
    takes away its successor's route. *)
Theorem kcp_routes es l : listener_run es kcp_bind = Some l ->
  (forall id c, kl_conns l !! id = Some c -> kc_heard c `sublist_of` sent_by (kc_remote_addr c) (kl_arrived l)) /\
  (forall a id, kl_routes l !! a = Some id -> exists c, kl_conns l !! id = Some c /\ kc_remote_addr c = a /\ open_chan c) /\
  (forall id1 id2 c1 c2, kl_conns l !! id1 = Some c1 -> kl_conns l !! id2 = Some c2 -> open_chan c1 -> open_chan c2 ->
     kc_remote_addr c1 = kc_remote_addr c2 -> id1 = id2) /\
  (forall id c, kl_conns l !! id = Some c -> open_chan c -> kl_routes l !! kc_remote_addr c = Some id).
Proof.
  intros [R O F C I]%listener_run_inv; [|apply kcp_bind_inv]. split_and!; try done.
  - intros id c Hc. exact (proj1 (C _ _ Hc)).
  - intros id1 id2 c1 c2 H1 H2 O1 O2 Hr. pose proof (O _ _ H1 O1) as E1. pose proof (O _ _ H2 O2) as E2. congruence.
Qed.

(** A datagram that is received twice before the first copy is accepted makes two
    connections, and the second takes the first one's route. *)
Lemma duplicate_first_packet_is_a_second_connection d src random :
  exists l, listener_run [Arrives d src; Arrives d src; Accepts random; Accepts random] kcp_bind = Some l /\
    kl_routes l !! src = Some 2%nat /\
    (exists c1, kl_conns l !! 1%nat = Some c1 /\ kc_recv_src c1 = Chan [] false) /\
    (exists c2, kl_conns l !! 2%nat = Some c2 /\ kc_recv_src c2 = Chan [] true /\ kc_kcp c2 = kc_kcp (kcp_accept (K:=K) d random src)).
Proof.
  set (c0 := kcp_accept (K:=K) d random src).
  assert (forall q arr, (length q <? CHANNEL)%nat = true -> reader d src (KListener (K:=K) ∅ q 1 ∅ arr) =
    KListener ∅ (q ++ [(d, src)]) 1 ∅ (arr ++ [(d, src)])) as Hread.
  { intros q arr Hq. unfold reader. cbn [kl_routes kl_incoming kl_next_route_id kl_conns kl_arrived]. by rewrite lookup_empty, Hq. }
  cbn [listener_run listener_step mbind option_bind]. unfold kcp_bind. rewrite !Hread by done. cbn [app].
  unfold accept. cbn [kl_incoming kl_routes kl_conns kl_next_route_id kl_arrived fmap option_fmap option_map snd].
  rewrite lookup_empty. cbn [drop_route mbind option_bind].
  cbn [kl_incoming kl_routes kl_conns kl_next_route_id kl_arrived fmap option_fmap option_map snd].
  rewrite lookup_insert_eq. cbn [drop_route]. eexists. split; [reflexivity|]. cbn [kl_routes kl_conns]. split_and!.
  - by rewrite lookup_insert_eq.
  - rewrite lookup_insert_ne by done. rewrite lookup_alter_eq, lookup_insert_eq. eexists. by split.
  - rewrite lookup_insert_eq. eexists. by split.
Qed.

End ListenerLemmas.

(** ** Runs *)

(** A machine without retransmission: a datagram is a message. *)
Record toy_kcp := ToyKcp { toy_conv : Z; toy_ready : list (list byte); toy_queue : list (list byte) }.
#[local] Instance toy_kcp_machine : Kcp toy_kcp := {
  kcp_new conv := ToyKcp conv [] [];
  kcp_input d k := ToyKcp (toy_conv k) (toy_ready k ++ [d]) (toy_queue k);
  kcp_recv cap k :=
    match toy_ready k with
    | m :: rest => if (length m <=? cap)%nat then Some (m, ToyKcp (toy_conv k) rest (toy_queue k)) else None
    | [] => None
    end;
  kcp_send m k := if (length m <=? 1000)%nat then (true, ToyKcp (toy_conv k) (toy_ready k) (toy_queue k ++ [m])) else (false, k);
  kcp_flush k := (toy_queue k, ToyKcp (toy_conv k) (toy_ready k) []);
  kcp_update _ k := ([], k);
  kcp_ready := toy_ready;
}.

#[local] Instance toy_kcp_laws : KcpLaws toy_kcp.
Proof.
  split; simpl; try done.
  - intros cap k m rest -> Hl%Nat.leb_le. rewrite Hl. by eexists.
  - intros cap k Hr. destruct (toy_ready k) as [|m rest]; [done|]. case_match eqn:E; [apply Nat.leb_le in E; lia|done].
  - intros d k. by apply prefix_app_r.
  - intros m k. by case_match.
Qed.

Definition demo_listener_events : list listener_event :=
  [ Arrives (as_bytes "aaaaLogin") "10.0.0.1:5"; Accepts 0; ConnRuns 1 RecvTurn; ConnRuns 1 RecvTurn;
    Arrives (as_bytes "bbbb") "10.0.0.2:6"; Arrives (as_bytes "more") "10.0.0.1:5"; ConnDropped 1; Accepts 0;
    Arrives (as_bytes "late") "10.0.0.1:5"; Accepts 0 ].
Definition demo_listener : KcpListener toy_kcp := default kcp_bind (listener_run demo_listener_events kcp_bind).

Lemma kcp_routes_witness :
  (kc_heard <$> kl_conns demo_listener !! 3%nat) = Some [as_bytes "late"] /\
  (kc_heard <$> kl_conns demo_listener !! 2%nat) = Some [as_bytes "bbbb"] /\
  (forall id c, kl_conns demo_listener !! id = Some c ->
     kc_heard c `sublist_of` sent_by (kc_remote_addr c) (kl_arrived demo_listener)).
Proof.
  split_and!; [vm_compute; reflexivity|vm_compute; reflexivity|].
  apply (kcp_routes demo_listener_events demo_listener). vm_compute. reflexivity.
Defined.

Definition demo_conn_events : list conn_event :=
  [ RecvTurn; UserReads 4; RecvTurn; UserWrites (as_bytes "one"); UserWrites (as_bytes "two"); TakesWrite; RecvTurn; SendsOut;
    UserReads 100 ].
Definition demo_start : KcpConn toy_kcp := new_conn 7 (Chan [] true) "10.0.0.1:5" (Some (as_bytes "hello")).
Definition demo_conn : KcpConn toy_kcp := default demo_start (conn_run demo_conn_events demo_start).

Lemma kcp_conn_faithful_witness :
  kc_read demo_conn = as_bytes "hello" /\ kc_to_kcp demo_conn = [as_bytes "one"] /\
  kc_to_kcp demo_conn `prefix_of` kc_written demo_conn.
Proof.
  split_and!; [vm_compute; reflexivity|vm_compute; reflexivity|].
  apply (kcp_conn_faithful 7 (Chan [] true) "10.0.0.1:5" (Some (as_bytes "hello")) demo_conn_events demo_conn).
  vm_compute. reflexivity.
Defined.

Lemma kcp_delivers_ready_witness : exists c',
  conn_run (replicate 2 RecvTurn) demo_start = Some c' /\ kc_phase c' = Selecting /\
  kc_user_out c' = [as_bytes "hello"] /\ kcp_ready (kc_kcp c') = [].
Proof.
  destruct (kcp_delivers_ready true demo_start) as (c' & E1 & E2 & E3 & E4);
    [reflexivity|constructor; [by apply Nat.leb_le; vm_compute|constructor]|by apply Nat.leb_le; vm_compute|].
  exists c'. split_and!; [exact E1|exact E2|rewrite E3; vm_compute; reflexivity|exact E4].
Defined.
