(* ===== verification/KcpStream.v ===== *)
(** * The P2P stream (src/rust_frp_net/src/kcp_stream.rs)

    After a hole punch the two clients talk KCP over one UDP socket: several
    candidate addresses are tried until a valid KCP packet arrives, whose source
    is kept; the connecting side opens with one byte that teaches the accepting
    side the conversation number and is hidden from its reader.  The [kcp]
    crate's machine is the interface [KcpMachine]; its clock reading is an
    argument.  The tasks share the state behind one mutex, and each of their
    lock-protected sections is one definition; [ks_sent] and [ks_woken] record
    what went to the socket and which wakers were called. *)
From S2P Require Import Prelude Transport.

Notation datagram := (list byte) (only parsing).
Notation address := string (only parsing).

Definition PUNCH_PACKET : list byte := as_bytes "rfrp-udp-punch".
Definition HANDSHAKE_MAGIC : byte := z2b 31.
Definition KCP_OVERHEAD : nat := 24.

Inductive kcp_error := RecvQueueEmpty | ConvInconsistent | OtherKcp (text : string).

Class KcpMachine (K : Type) := {
  (** [None]: the conversation number is learnt from the first input *)
  km_new : option Z -> result string K;
  km_input : datagram -> K -> result kcp_error unit * K;
  km_recv : nat -> K -> result kcp_error (list byte) * K;
  km_send : list byte -> K -> result kcp_error nat * K;
  km_update : Z -> K -> result kcp_error unit * (list datagram * K);
  km_flush : K -> result kcp_error unit * (list datagram * K);
  km_wait_snd : K -> nat;
  km_snd_wnd : K -> nat;
  km_mss : K -> nat;
  km_is_dead_link : K -> bool;
  km_error_text : kcp_error -> string;
}.

Inductive waker := ReadWaker | WriteWaker.

Record KcpState (K : Type) := KState {
  ks_kcp : K;
  ks_out : list datagram;
  ks_peers : list address;
  ks_active_peer : option address;
  ks_read_waker : bool;
  ks_write_waker : bool;
  ks_active : bool;
  ks_dead : bool;
  ks_consume_handshake : bool;
  ks_closed : bool;                            (* [Shared::closed] *)
  ks_sent : list (datagram * address);         (* ghost *)
  ks_woken : list waker;                       (* ghost *)
  ks_read : list byte;                         (* ghost: what [poll_read] returned *)
  ks_written : list byte;                      (* ghost: what [poll_write] took *)
}.
Arguments KState {K}.
Arguments ks_kcp {K}.
Arguments ks_out {K}.
Arguments ks_peers {K}.
Arguments ks_active_peer {K}.
Arguments ks_read_waker {K}.
Arguments ks_write_waker {K}.
Arguments ks_active {K}.
Arguments ks_dead {K}.
Arguments ks_consume_handshake {K}.
Arguments ks_closed {K}.
Arguments ks_sent {K}.
Arguments ks_woken {K}.
Arguments ks_read {K}.
Arguments ks_written {K}.

(** [Vec::dedup]: of equal neighbours the first stays. *)
Fixpoint dedup_from (a : address) (l : list address) : list address :=
  match l with
  | [] => []
  | x :: l => if decide (x = a) then dedup_from a l else x :: dedup_from x l
  end.
Definition dedup (l : list address) : list address :=
  match l with [] => [] | x :: l => x :: dedup_from x l end.

Section Stream.
Context {K : Type} `{KcpMachine K}.

Definition set_machine (k : K) (new_out : list datagram) (s : KcpState K) : KcpState K :=
  KState k (ks_out s ++ new_out) (ks_peers s) (ks_active_peer s) (ks_read_waker s) (ks_write_waker s) (ks_active s)
    (ks_dead s) (ks_consume_handshake s) (ks_closed s) (ks_sent s) (ks_woken s) (ks_read s) (ks_written s).
Definition set_dead (s : KcpState K) : KcpState K :=
  KState (ks_kcp s) (ks_out s) (ks_peers s) (ks_active_peer s) (ks_read_waker s) (ks_write_waker s) (ks_active s)
    true (ks_consume_handshake s) (ks_closed s) (ks_sent s) (ks_woken s) (ks_read s) (ks_written s).
Definition set_wakers (r w : bool) (s : KcpState K) : KcpState K :=
  KState (ks_kcp s) (ks_out s) (ks_peers s) (ks_active_peer s) r w (ks_active s)
    (ks_dead s) (ks_consume_handshake s) (ks_closed s) (ks_sent s) (ks_woken s) (ks_read s) (ks_written s).

Definition wake_read (s : KcpState K) : KcpState K :=
  if ks_read_waker s
  then KState (ks_kcp s) (ks_out s) (ks_peers s) (ks_active_peer s) false (ks_write_waker s) (ks_active s)
         (ks_dead s) (ks_consume_handshake s) (ks_closed s) (ks_sent s) (ks_woken s ++ [ReadWaker]) (ks_read s) (ks_written s)
  else s.
Definition wake_write (s : KcpState K) : KcpState K :=
  if ks_write_waker s
  then KState (ks_kcp s) (ks_out s) (ks_peers s) (ks_active_peer s) (ks_read_waker s) false (ks_active s)
         (ks_dead s) (ks_consume_handshake s) (ks_closed s) (ks_sent s) (ks_woken s ++ [WriteWaker]) (ks_read s) (ks_written s)
  else s.

Definition mark_dead (s : KcpState K) : KcpState K := wake_write (wake_read (set_dead s)).

(** Draining the collector of packets. *)
Definition drain (s : KcpState K) : list datagram * KcpState K :=
  (ks_out s, KState (ks_kcp s) [] (ks_peers s) (ks_active_peer s) (ks_read_waker s) (ks_write_waker s) (ks_active s)
    (ks_dead s) (ks_consume_handshake s) (ks_closed s) (ks_sent s) (ks_woken s) (ks_read s) (ks_written s)).

Definition try_send (l : list (datagram * address)) (s : KcpState K) : KcpState K :=
  KState (ks_kcp s) (ks_out s) (ks_peers s) (ks_active_peer s) (ks_read_waker s) (ks_write_waker s) (ks_active s)
    (ks_dead s) (ks_consume_handshake s) (ks_closed s) (ks_sent s ++ l) (ks_woken s) (ks_read s) (ks_written s).

(** [send_all]: to the peer that was found, or to every candidate. *)
Definition targets (s : KcpState K) : list address :=
  match ks_active_peer s with Some peer => [peer] | None => ks_peers s end.
Definition send_all (pkts : list datagram) (s : KcpState K) : KcpState K :=
  if ks_dead s then s
  else try_send (pkts ≫= fun pkt => (fun p => (pkt, p)) <$> targets s) s.

Definition flush_and_send (now : Z) (s : KcpState K) : KcpState K :=
  if ks_dead s then s
  else let '(r, (ps, k)) := km_update now (ks_kcp s) in
       let s := set_machine k ps s in
       match r with
       | Err _ => mark_dead s
       | Ok _ => let '(pkts, s) := drain s in send_all pkts s
       end.

(** [KcpStream::new]: [conv] is given by the connecting side. *)
Definition stream_new (peers : list address) (conv : option Z) (now : Z) : result string (KcpState K) :=
  match peers with
  | [] => Err "no peer addresses"%string
  | _ =>
      let peers := dedup peers in
      match km_new conv with
      | Err e => Err e
      | Ok k =>
          let s := KState k [] peers None false false false false (bool_decide (conv = None)) false [] [] [] [] in
          match conv with
          | None => Ok s
          | Some _ =>
              let '(_, k) := km_send [HANDSHAKE_MAGIC] (ks_kcp s) in
              let '(_, (ps, k)) := km_update now k in
              let '(pkts, s) := drain (set_machine k ps s) in
              Ok (try_send (pkts ≫= fun pkt => (fun p => (pkt, p)) <$> peers) s)
          end
      end
  end.

Definition has_activity (s : KcpState K) : bool := ks_active s.
Definition peer_addr (s : KcpState K) : option address := ks_active_peer s.

Definition close (s : KcpState K) : KcpState K :=
  wake_write (wake_read (KState (ks_kcp s) (ks_out s) (ks_peers s) (ks_active_peer s) (ks_read_waker s) (ks_write_waker s)
    (ks_active s) (ks_dead s) (ks_consume_handshake s) true (ks_sent s) (ks_woken s) (ks_read s) (ks_written s))).

(** ** Reading *)

(** One turn of the loop in [poll_read]: [None] when the loop goes on.  The bytes
    returned are added to the ghost [ks_read]. *)
Definition read_turn (cap : nat) (s : KcpState K) : option (poll (result io_error (list byte))) * KcpState K :=
  if ks_dead s || ks_closed s then (Some (Ready (Ok [])), s)
  else match km_recv (Nat.max cap 1) (ks_kcp s) with
       | (Ok bs, k) =>
           let first := negb (bool_decide (bs = [])) && ks_consume_handshake s in
           let start := if first && bool_decide (head bs = Some HANDSHAKE_MAGIC) then 1%nat else 0%nat in
           let s := KState k (ks_out s) (ks_peers s) (ks_active_peer s) (ks_read_waker s) (ks_write_waker s) (ks_active s)
                      (ks_dead s) (if first then false else ks_consume_handshake s) (ks_closed s) (ks_sent s) (ks_woken s)
                      (ks_read s ++ drop start bs) (ks_written s) in
           (if (start <? length bs)%nat then Some (Ready (Ok (drop start bs))) else None, s)
       | (Err RecvQueueEmpty, k) => (Some Pending, set_wakers true (ks_write_waker s) (set_machine k [] s))
       | (Err e, k) => (Some (Ready (Err (IoError OtherKind (km_error_text e)))), set_machine k [] s)
       end.

Fixpoint poll_read (fuel cap : nat) (s : KcpState K) : option (poll (result io_error (list byte))) * KcpState K :=
  match fuel with
  | O => (None, s)
  | S fuel =>
      match read_turn cap s with
      | (Some r, s) => (Some r, s)
      | (None, s) => poll_read fuel cap s
      end
  end.

(** ** Writing *)
Definition poll_write (buf : list byte) (now : Z) (s : KcpState K) : poll (result io_error nat) * KcpState K :=
  if ks_dead s || ks_closed s then (Ready (Err (IoError BrokenPipe "kcp stream closed")), s)
  else if (km_snd_wnd (ks_kcp s) <=? km_wait_snd (ks_kcp s))%nat then (Pending, set_wakers (ks_read_waker s) true s)
  else
    let max_chunk := (km_mss (ks_kcp s) * 64)%nat in
    let chunk := take max_chunk buf in
    match km_send chunk (ks_kcp s) with
    | (Ok n, k) =>
        let s := KState k (ks_out s) (ks_peers s) (ks_active_peer s) (ks_read_waker s) (ks_write_waker s) (ks_active s)
                   (ks_dead s) (ks_consume_handshake s) (ks_closed s) (ks_sent s) (ks_woken s) (ks_read s)
                   (ks_written s ++ take n chunk) in
        let '(r, (ps, k)) := km_update now k in
        let s := set_machine k ps s in
        let '(r, s) := match r with
                       | Err e => (Err e, s)
                       | Ok _ => let '(r, (ps, k)) := km_flush k in (r, set_machine k ps s)
                       end in
        match r with
        | Err e => (Ready (Err (IoError OtherKind (km_error_text e))), mark_dead s)
        | Ok _ => let '(pkts, s) := drain s in (Ready (Ok n), send_all pkts s)
        end
    | (Err e, k) => (Ready (Err (IoError OtherKind (km_error_text e))), set_machine k [] s)
    end.

Definition poll_shutdown (s : KcpState K) : KcpState K := close s.

(** ** The tasks *)

(** One datagram of the receive loop. *)
Definition recv_datagram (data : datagram) (src : address) (now : Z) (s : KcpState K) : KcpState K :=
  if ks_closed s then s
  else if decide (data = PUNCH_PACKET) then try_send [(PUNCH_PACKET, src)] s
  else if (length data <? KCP_OVERHEAD)%nat then s
  else if ks_dead s then s
  else match km_input data (ks_kcp s) with
       | (Ok _, k) =>
           let s := KState k (ks_out s) (ks_peers s) (Some (default src (ks_active_peer s))) (ks_read_waker s)
                      (ks_write_waker s) true (ks_dead s) (ks_consume_handshake s) (ks_closed s) (ks_sent s) (ks_woken s)
                      (ks_read s) (ks_written s) in
           wake_read (flush_and_send now s)
       | (Err _, k) => set_machine k [] s
       end.

(** One beat of the ticker. *)
Definition tick (now : Z) (s : KcpState K) : KcpState K :=
  if ks_closed s then s
  else if km_is_dead_link (ks_kcp s) && negb (ks_dead s) then mark_dead s
  else let s := flush_and_send now s in
       if (km_wait_snd (ks_kcp s) <? km_snd_wnd (ks_kcp s))%nat then wake_write s else s.

(** One round of the puncher. *)
Definition punch (s : KcpState K) : KcpState K :=
  if ks_closed s then s
  else match ks_active_peer s with
       | Some _ => s
       | None => try_send ((fun p => (PUNCH_PACKET, p)) <$> ks_peers s) s
       end.

Inductive stream_event :=
| Receives (d : datagram) (src : address) (now : Z)
| Ticks (now : Z)
| Punches
| Reads (cap : nat)
| Writes (buf : list byte) (now : Z)
| Flushes (now : Z)
| ShutsDown.

Definition stream_step (e : stream_event) (s : KcpState K) : KcpState K :=
  match e with
  | Receives d src now => recv_datagram d src now s
  | Ticks now => tick now s
  | Punches => punch s
  | Reads cap => (poll_read 2 cap s).2
  | Writes buf now => (poll_write buf now s).2
  | Flushes now => flush_and_send now s
  | ShutsDown => poll_shutdown s
  end.

Definition stream_run (es : list stream_event) (s : KcpState K) : KcpState K := foldl (fun s e => stream_step e s) s es.

End Stream.

(** ** What the crate documents *)

(** The bytes [recv] has returned so far and those [send] has taken; a chunk of
    64 segments fits the receiver's window of 128, and reading never gives an
    empty message. *)
Class KcpMachineLaws (K : Type) `{KcpMachine K} := {
  km_taken : K -> list byte;
  km_accepted : K -> list byte;
  km_same (k k' : K) := km_taken k' = km_taken k /\ km_accepted k' = km_accepted k;
  km_new_spec conv k : km_new conv = Ok k -> km_taken k = [] /\ km_accepted k = [];
  km_mss_spec k : (1 <= km_mss k)%nat;
  km_recv_ok cap k bs k' : km_recv cap k = (Ok bs, k') ->
    bs <> [] /\ (length bs <= cap)%nat /\ km_taken k' = km_taken k ++ bs /\ km_accepted k' = km_accepted k;
  km_recv_err cap k e k' : km_recv cap k = (Err e, k') -> km_same k k';
  km_send_fits bs k : (length bs <= km_mss k * 64)%nat -> exists k', km_send bs k = (Ok (length bs), k');
  km_send_ok bs k n k' : km_send bs k = (Ok n, k') ->
    n = length bs /\ km_taken k' = km_taken k /\ km_accepted k' = km_accepted k ++ bs;
  km_send_err bs k e k' : km_send bs k = (Err e, k') -> km_same k k';
  km_input_same d k : km_same k (km_input d k).2;
  km_update_same now k : km_same k (km_update now k).2.2;
  km_flush_same k : km_same k (km_flush k).2.2;
}.

(** ** The peer *)
Section Peer.
Context {K : Type} `{KcpMachine K}.

(** What happens to a state while a peer is known: the peer stays, and what is
    sent goes to it, but for answers to punch packets. *)
Definition to_peer (p : address) (x : datagram * address) : Prop := x.2 = p \/ x.1 = PUNCH_PACKET.

Definition kept (p : address) (s s' : KcpState K) : Prop :=
  ks_active_peer s' = Some p /\ exists new, ks_sent s' = ks_sent s ++ new /\ Forall (to_peer p) new.

Lemma kept_refl p s : ks_active_peer s = Some p -> kept p s s.
Proof. intros Hp. split; [done|]. exists []. by rewrite app_nil_r. Qed.

Lemma kept_trans p s1 s2 s3 : kept p s1 s2 -> kept p s2 s3 -> kept p s1 s3.
Proof.
  intros [_ (n1 & E1 & F1)] [Hp (n2 & E2 & F2)]. split; [done|]. exists (n1 ++ n2).
  rewrite E2, E1, app_assoc. by rewrite Forall_app.
Qed.

(** A change of anything but the peer and the socket. *)
Lemma kept_same p (s s' : KcpState K) : ks_active_peer s = Some p -> ks_active_peer s' = ks_active_peer s ->
  ks_sent s' = ks_sent s -> kept p s s'.
Proof. intros Hp E1 E2. split; [congruence|]. exists []. by rewrite app_nil_r, E2. Qed.

Lemma wake_read_peer (s : KcpState K) : ks_active_peer (wake_read s) = ks_active_peer s /\ ks_sent (wake_read s) = ks_sent s.
Proof. unfold wake_read. by case_match. Qed.
Lemma wake_write_peer (s : KcpState K) : ks_active_peer (wake_write s) = ks_active_peer s /\ ks_sent (wake_write s) = ks_sent s.
Proof. unfold wake_write. by case_match. Qed.
Lemma mark_dead_peer (s : KcpState K) : ks_active_peer (mark_dead s) = ks_active_peer s /\ ks_sent (mark_dead s) = ks_sent s.
Proof.
  unfold mark_dead. destruct (wake_write_peer (wake_read (set_dead s))) as [-> ->].
  by destruct (wake_read_peer (set_dead s)) as [-> ->].
Qed.

Lemma send_all_kept p pkts (s : KcpState K) : ks_active_peer s = Some p -> kept p s (send_all pkts s).
Proof.
  intros Hp. unfold send_all. case_match; [by apply kept_refl|]. split; [done|]. eexists. split; [reflexivity|].
  unfold targets. rewrite Hp. apply Forall_forall. intros x (pkt & Hx & _)%list_elem_of_bind.
  apply list_elem_of_singleton in Hx as ->. by left.
Qed.

Lemma flush_and_send_kept p now (s : KcpState K) : ks_active_peer s = Some p -> kept p s (flush_and_send now s).
Proof.
  intros Hp. unfold flush_and_send. case_match; [by apply kept_refl|]. destruct (km_update _ _) as [[[]|e] [ps k]].
  - unfold drain. eapply kept_trans; [|by apply send_all_kept]. by apply kept_same.
  - apply kept_same; [done|..]; by destruct (mark_dead_peer (set_machine k ps s)).
Qed.

Lemma close_kept p (s : KcpState K) : ks_active_peer s = Some p -> kept p s (close s).
Proof.
  intros Hp. unfold close. match goal with |- context [wake_read ?x] => set (s1 := x) end.
  destruct (wake_write_peer (wake_read s1)) as [E1 E2], (wake_read_peer s1) as [E3 E4].
  apply kept_same; [done|by rewrite E1, E3|by rewrite E2, E4].
Qed.

Lemma poll_read_kept p fuel cap (s : KcpState K) : ks_active_peer s = Some p -> kept p s (poll_read fuel cap s).2.
Proof.
  revert s; induction fuel as [|fuel IH]; intros s Hp; cbn [poll_read]; [by apply kept_refl|].
  assert (kept p s (read_turn cap s).2) as Ht.
  { unfold read_turn. case_match; [by apply kept_refl|]. destruct (km_recv _ _) as [[bs|[]] k]; by apply kept_same. }
  destruct (read_turn cap s) as [[r|] s1]; [done|]. eapply kept_trans; [exact Ht|]. apply IH, Ht.
Qed.

Lemma poll_write_kept p buf now (s : KcpState K) : ks_active_peer s = Some p -> kept p s (poll_write buf now s).2.
Proof.
  intros Hp. unfold poll_write. case_match; [by apply kept_refl|]. case_match; [by apply kept_same|].
  destruct (km_send _ _) as [[n|e] k]; [|by apply kept_same].
  assert (forall e (s1 : KcpState K), kept p s s1 -> kept p s (Ready (Err (E:=io_error) (T:=nat) e), mark_dead s1).2) as Hdead.
  { intros e s1 Hk. eapply kept_trans; [exact Hk|]. apply kept_same; [apply Hk|..]; by destruct (mark_dead_peer s1). }
  destruct (km_update now k) as [[[]|e] [ps k1]]; [|apply Hdead; by apply kept_same].
  destruct (km_flush k1) as [[[]|e] [ps2 k2]]; [|apply Hdead; by apply kept_same].
  unfold drain. cbn [snd]. eapply kept_trans; [|by apply send_all_kept]. by apply kept_same.
Qed.

Lemma stream_step_kept p e s : ks_active_peer s = Some p -> kept p s (stream_step e s).
Proof.
  intros Hp. destruct e as [d src now|now| |cap|buf now|now|]; cbn [stream_step].
  - unfold recv_datagram. case_match; [by apply kept_refl|]. case_match.
    { split; [done|]. eexists. split; [reflexivity|]. constructor; [by right|constructor]. }
    case_match; [by apply kept_refl|]. case_match; [by apply kept_refl|].
    destruct (km_input d (ks_kcp s)) as [[[]|e] k]; [|by apply kept_same]. rewrite Hp. cbn [default from_option id].
    match goal with |- context [flush_and_send now ?x] => set (s1 := x) end.
    assert (ks_active_peer s1 = Some p) as Hs1 by done.
    eapply kept_trans; [apply (kept_same p s s1); by try done|]. eapply kept_trans; [by apply (flush_and_send_kept p now)|].
    destruct (wake_read_peer (flush_and_send now s1)) as [E1 E2]. apply kept_same; [|done|done].
    by apply flush_and_send_kept.
  - unfold tick. case_match; [by apply kept_refl|]. case_match.
    + apply kept_same; [done|..]; by destruct (mark_dead_peer s).
    + pose proof (flush_and_send_kept p now s Hp) as Hk. case_match; [|done]. eapply kept_trans; [exact Hk|].
      apply kept_same; [apply Hk|..]; by destruct (wake_write_peer (flush_and_send now s)).
  - unfold punch. case_match; [by apply kept_refl|]. rewrite Hp. by apply kept_refl.
  - by apply poll_read_kept.
  - by apply poll_write_kept.
  - by apply flush_and_send_kept.
  - by apply close_kept.
Qed.

(** once a peer has answered, the stream is with that peer: whatever arrives
    from whomever afterwards, the peer never changes, and everything the stream
    sends goes to it, except that a punch packet is answered to its sender. *)
Theorem peer_lock es p s : ks_active_peer s = Some p ->
  ks_active_peer (stream_run es s) = Some p /\
  exists new, ks_sent (stream_run es s) = ks_sent s ++ new /\ Forall (to_peer p) new.
Proof.
  change (ks_active_peer s = Some p -> kept p s (stream_run es s)). intros Hp.
  assert (forall es s1, kept p s s1 -> kept p s (stream_run es s1)) as Hrun; [|by apply Hrun, kept_refl].
  clear es. induction es as [|e es IH]; intros s1 Hk; [done|]. cbn [stream_run foldl]. apply IH.
  eapply kept_trans; [exact Hk|]. apply stream_step_kept, Hk.
Qed.
End Peer.

(** ** The bytes *)
Section Bytes.
Context {K : Type} `{KcpMachineLaws K}.

(** What the accepting side's reader sees of the bytes the machine returned. *)
Definition strip (l : list byte) : list byte :=
  match l with b :: l' => if bool_decide (b = HANDSHAKE_MAGIC) then l' else l | [] => [] end.

Record side_inv (connecting : bool) (s : KcpState K) : Prop := {
  si_written : km_accepted (ks_kcp s) = (if connecting then [HANDSHAKE_MAGIC] else []) ++ ks_written s;
  si_handshake : ks_consume_handshake s = negb connecting && bool_decide (km_taken (ks_kcp s) = []);
  si_read : ks_read s = if connecting then km_taken (ks_kcp s) else strip (km_taken (ks_kcp s));
}.

(** The parts of the state that [side_inv] speaks of. *)
Definition side_same (s s' : KcpState K) : Prop :=
  km_same (ks_kcp s) (ks_kcp s') /\ ks_written s' = ks_written s /\ ks_read s' = ks_read s /\
  ks_consume_handshake s' = ks_consume_handshake s.

Lemma side_same_inv b s s' : side_same s s' -> side_inv b s -> side_inv b s'.
Proof. intros ([Ht Ha] & Hw & Hr & Hc) []. split; rewrite ?Ht, ?Ha, ?Hw, ?Hr, ?Hc; done. Qed.

Lemma side_same_refl s : side_same s s.
Proof. by repeat split. Qed.
Lemma side_same_trans s1 s2 s3 : side_same s1 s2 -> side_same s2 s3 -> side_same s1 s3.
Proof. unfold side_same, km_same. intros ([] & ? & ? & ?) ([] & ? & ? & ?). repeat split; congruence. Qed.

Lemma wake_read_side (s : KcpState K) : side_same s (wake_read s).
Proof. unfold wake_read. case_match; by repeat split. Qed.
Lemma wake_write_side (s : KcpState K) : side_same s (wake_write s).
Proof. unfold wake_write. case_match; by repeat split. Qed.
Lemma mark_dead_side (s : KcpState K) : side_same s (mark_dead s).
Proof.
  unfold mark_dead. eapply side_same_trans; [|apply wake_write_side]. eapply side_same_trans; [|apply wake_read_side].
  by repeat split.
Qed.
Lemma set_machine_side k ps (s : KcpState K) : km_same (ks_kcp s) k -> side_same s (set_machine k ps s).
Proof. intros []. by repeat split. Qed.
Lemma send_all_side pkts (s : KcpState K) : side_same s (send_all pkts s).
Proof. unfold send_all. case_match; by repeat split. Qed.

Lemma drain_send_side (s : KcpState K) : side_same s (let '(pkts, s) := drain s in send_all pkts s).
Proof. unfold drain. eapply side_same_trans; [|apply send_all_side]. by repeat split. Qed.

Lemma flush_and_send_side now (s : KcpState K) : side_same s (flush_and_send now s).
Proof.
  unfold flush_and_send. case_match; [apply side_same_refl|]. pose proof (km_update_same now (ks_kcp s)) as Hs.
  destruct (km_update now (ks_kcp s)) as [[[]|e] [ps k]]; simpl in Hs;
    (eapply side_same_trans; [by apply (set_machine_side k ps)|]); [apply drain_send_side|apply mark_dead_side].
Qed.

Lemma close_side (s : KcpState K) : side_same s (close s).
Proof.
  unfold close. eapply side_same_trans; [|apply wake_write_side]. eapply side_same_trans; [|apply wake_read_side]. by repeat split.
Qed.

Lemma strip_app l k : l <> [] -> strip (l ++ k) = strip l ++ k.
Proof. destruct l as [|b l]; [done|]. intros _. simpl. by case_match. Qed.

Lemma read_turn_inv b cap s : side_inv b s -> side_inv b (read_turn cap s).2.
Proof.
  intros I. unfold read_turn. case_match; [done|]. destruct (km_recv _ _) as [[bs|e] k] eqn:Er.
  - destruct (km_recv_ok _ _ _ _ Er) as (Hne & _ & Ht & Ha). destruct I as [Iw Ih Ir].
    assert (negb (bool_decide (bs = [])) = true) as -> by (by rewrite bool_decide_false).
    destruct bs as [|x bs]; [done|]. cbn [andb snd].
    assert (km_taken k <> []) as Hk by (rewrite Ht; by destruct (km_taken (ks_kcp s))).
    split; cbn [ks_kcp ks_written ks_read ks_consume_handshake].
    + by rewrite Ha.
    + rewrite (bool_decide_false (km_taken k = [])) by done. rewrite andb_false_r. by destruct (ks_consume_handshake s).
    + rewrite Ih, Ir, Ht. destruct b; cbn [negb andb].
      * by rewrite drop_0.
      * case_bool_decide as Hn; cbn [andb].
        -- rewrite Hn. simpl. case_bool_decide as Hx; simplify_eq; cbn [head]; case_bool_decide; simplify_eq; done.
        -- rewrite drop_0. by rewrite strip_app.
  - destruct e; (eapply side_same_inv; [|exact I]); split; simpl; try done; by eapply km_recv_err.
Qed.

Lemma poll_read_inv b fuel cap s : side_inv b s -> side_inv b (poll_read fuel cap s).2.
Proof.
  revert s; induction fuel as [|fuel IH]; intros s I; cbn [poll_read]; [done|].
  apply (read_turn_inv b cap) in I. destruct (read_turn cap s) as [[r|] s1]; [done|by apply IH].
Qed.

Lemma stream_write_inv b buf now s : side_inv b s -> side_inv b (poll_write buf now s).2.
Proof.
  intros I. unfold poll_write. case_match; [done|]. case_match; [by eapply side_same_inv; [|exact I]|].
  set (chunk := take (km_mss (ks_kcp s) * 64) buf). destruct (km_send chunk (ks_kcp s)) as [[n|e] k] eqn:Es.
  - destruct (km_send_ok _ _ _ _ Es) as (-> & Ht & Ha).
    match goal with |- context [set_machine _ _ ?x] => set (s1 := x) end.
    assert (side_inv b s1) as I1.
    { destruct I as [Iw Ih Ir]. split; simpl; [|by rewrite Ht..]. rewrite Ha, Iw, take_ge by lia. by rewrite app_assoc. }
    assert (forall e s2, side_same s1 s2 -> side_inv b (Ready (Err (E:=io_error) (T:=nat) e), mark_dead s2).2) as Hdead.
    { intros e s2 Hs. eapply side_same_inv; [|exact I1]. eapply side_same_trans; [exact Hs|apply mark_dead_side]. }
    pose proof (km_update_same now k) as Hu.
    destruct (km_update now k) as [[[]|e] [ps k1]]; simpl in Hu; [|apply Hdead; by apply set_machine_side].
    pose proof (km_flush_same k1) as Hf. destruct (km_flush k1) as [[[]|e] [ps2 k2]]; simpl in Hf.
    2:{ apply Hdead. eapply side_same_trans; by apply set_machine_side. }
    cbn [drain snd]. eapply side_same_inv; [|exact I1]. eapply side_same_trans; [by apply (set_machine_side k1 ps)|].
    eapply side_same_trans; [by apply (set_machine_side k2 ps2)|].
    refine (side_same_trans _ _ _ _ (send_all_side _ _)). by repeat split.
  - eapply side_same_inv; [|exact I]. apply set_machine_side. by eapply km_send_err.
Qed.

Lemma recv_datagram_inv b d src now s : side_inv b s -> side_inv b (recv_datagram d src now s).
Proof.
  intros I. unfold recv_datagram. repeat (case_match; try done).
  - eapply side_same_inv; [|exact I]. by repeat split.
  - match goal with Hi : km_input _ _ = _ |- _ => pose proof (km_input_same d (ks_kcp s)) as Hs; rewrite Hi in Hs; simpl in Hs end.
    eapply side_same_inv; [|exact I]. eapply side_same_trans; [|apply wake_read_side].
    eapply side_same_trans; [|apply flush_and_send_side]. destruct Hs. by repeat split.
  - match goal with Hi : km_input _ _ = _ |- _ => pose proof (km_input_same d (ks_kcp s)) as Hs; rewrite Hi in Hs; simpl in Hs end.
    eapply side_same_inv; [|exact I]. by apply set_machine_side.
Qed.

Lemma stream_step_inv b e s : side_inv b s -> side_inv b (stream_step e s).
Proof.
  intros I. destruct e as [d src now|now| |cap|buf now|now|]; cbn [stream_step].
  - by apply recv_datagram_inv.
  - eapply side_same_inv; [|exact I]. unfold tick. case_match; [apply side_same_refl|]. case_match; [apply mark_dead_side|].
    case_match; [|apply flush_and_send_side]. eapply side_same_trans; [apply flush_and_send_side|apply wake_write_side].
  - eapply side_same_inv; [|exact I]. unfold punch. repeat case_match; by repeat split.
  - by apply poll_read_inv.
  - by apply stream_write_inv.
  - eapply side_same_inv; [|exact I]. apply flush_and_send_side.
  - eapply side_same_inv; [|exact I]. apply close_side.
Qed.

Lemma stream_run_inv b es s : side_inv b s -> side_inv b (stream_run es s).
Proof. revert s; induction es as [|e es IH]; intros s I; [done|]. cbn [stream_run foldl]. by apply IH, stream_step_inv. Qed.

Lemma stream_new_inv peers conv now s : stream_new peers conv now = Ok s -> side_inv (bool_decide (conv <> None)) s.
Proof.
  unfold stream_new. destruct peers as [|p peers]; [done|]. destruct (km_new conv) as [k|e] eqn:En; [|done].
  destruct (km_new_spec _ _ En) as [Ht Ha]. destruct conv as [c|].
  - cbn [ks_kcp]. destruct (km_send_fits [HANDSHAKE_MAGIC] k) as [k1 E1]; [pose proof (km_mss_spec k); simpl; lia|]. rewrite E1.
    destruct (km_send_ok _ _ _ _ E1) as (_ & Ht1 & Ha1). pose proof (km_update_same now k1) as Hu.
    destruct (km_update now k1) as [r [ps k2]]. simpl in Hu. destruct Hu as [Ht2 Ha2]. intros [= <-].
    split; simpl; [by rewrite Ha2, Ha1, Ha|done|]. by rewrite Ht2, Ht1, Ht.
  - intros [= <-]. split; simpl; [done| |by rewrite Ht]. by rewrite Ht.
Qed.

(** C20: the stream is transparent end to end, in both directions: when KCP gives
    each side a prefix of what the other side's machine took, each reader has got
    a prefix of what the other writer wrote; the byte that opens the conversation
    is never seen, and a first byte that happens to equal it is not swallowed. *)
Theorem stream_end_to_end peers1 peers2 conv now1 now2 s1 s2 es1 es2 :
  stream_new peers1 (Some conv) now1 = Ok s1 -> stream_new peers2 None now2 = Ok s2 ->
  let a := stream_run es1 s1 in
  let b := stream_run es2 s2 in
  km_taken (ks_kcp b) `prefix_of` km_accepted (ks_kcp a) -> km_taken (ks_kcp a) `prefix_of` km_accepted (ks_kcp b) ->
  ks_read b `prefix_of` ks_written a /\ ks_read a `prefix_of` ks_written b.
Proof.
  intros E1%stream_new_inv E2%stream_new_inv a b.
  apply (stream_run_inv _ es1) in E1. apply (stream_run_inv _ es2) in E2. fold a in E1. fold b in E2.
  destruct E1 as [Wa _ Ra], E2 as [Wb _ Rb]. rewrite bool_decide_true in Wa, Ra by done.
  rewrite bool_decide_false in Wb, Rb by (intros Hf; by destruct Hf). rewrite Wa, Wb, Ra, Rb. intros H1 H2. split; [|done].
  destruct H1 as [k Hk]. destruct (km_taken (ks_kcp b)) as [|x l]; [apply prefix_nil|].
  simpl in Hk. injection Hk as <- Hk. simpl. exists k. by rewrite Hk.
Qed.

(** Writing: a chunk is never refused, and never more than 64 segments. *)
Lemma write_accepted buf now s : ks_dead s = false -> ks_closed s = false ->
  (km_wait_snd (ks_kcp s) < km_snd_wnd (ks_kcp s))%nat ->
  let chunk := take (km_mss (ks_kcp s) * 64) buf in
  ks_written (poll_write buf now s).2 = ks_written s ++ chunk /\
  ((poll_write buf now s).1 = Ready (Ok (length chunk)) \/ ks_dead (poll_write buf now s).2 = true).
Proof.
  intros Hd Hc Hw chunk. unfold poll_write. rewrite Hd, Hc. cbn [orb].
  assert ((km_snd_wnd (ks_kcp s) <=? km_wait_snd (ks_kcp s))%nat = false) as -> by (apply Nat.leb_gt; lia). fold chunk.
  destruct (km_send_fits chunk (ks_kcp s)) as [k ->]; [unfold chunk; rewrite length_take; lia|].
  assert (forall s1 : KcpState K, ks_written (mark_dead s1) = ks_written s1 /\ ks_dead (mark_dead s1) = true) as Hm.
  { intros s1. unfold mark_dead, wake_write, wake_read. by repeat case_match. }
  destruct (km_update now k) as [[[]|e] [ps k1]]; [destruct (km_flush k1) as [[[]|e] [ps2 k2]]|].
  - cbn [drain fst snd]. unfold send_all. simpl. rewrite ?Hd. simpl. rewrite take_ge by lia. auto.
  - cbn [fst snd]. match goal with |- context [mark_dead ?x] => destruct (Hm x) as [-> ->] end. simpl. rewrite take_ge by lia. auto.
  - cbn [fst snd]. match goal with |- context [mark_dead ?x] => destruct (Hm x) as [-> ->] end. simpl. rewrite take_ge by lia. auto.
Qed.

(** Two turns of the loop are enough for one read. *)
Lemma poll_read_decides cap s : exists r s', poll_read 2 cap s = (Some r, s').
Proof.
  assert (forall s, (read_turn cap s).1 <> None \/ ks_consume_handshake s = true /\ ks_consume_handshake (read_turn cap s).2 = false) as Ht.
  { intros s0. unfold read_turn. case_match; [by left|]. destruct (km_recv _ _) as [[bs|[]] k] eqn:Er; try by left.
    destruct (km_recv_ok _ _ _ _ Er) as (Hne & _). rewrite bool_decide_false by done. cbn [negb andb].
    destruct (ks_consume_handshake s0) eqn:Hc; cbn [andb]; [right; by split|left]. rewrite drop_0.
    destruct bs as [|x bs]; done. }
  cbn [poll_read]. destruct (Ht s) as [Hn|[_ Hc]]; destruct (read_turn cap s) as [[r|] s1]; try done; eauto.
  simpl in Hc. destruct (Ht s1) as [Hn|[Hc1 _]]; [|congruence]. destruct (read_turn cap s1) as [[r|] s2]; [eauto|done].
Qed.
End Bytes.

(** ** Waking *)
Section Waking.
Context {K : Type} `{KcpMachine K}.

Definition finished (s : KcpState K) : bool := ks_dead s || ks_closed s.
Definition nobody_sleeps (s : KcpState K) : Prop := ks_read_waker s = false /\ ks_write_waker s = false.

Definition wake_inv (s : KcpState K) : Prop := finished s = true -> nobody_sleeps s.

Lemma wakes_both (s : KcpState K) : nobody_sleeps (wake_write (wake_read s)).
Proof. unfold wake_write, wake_read, nobody_sleeps. destruct (ks_read_waker s) eqn:Hr, (ks_write_waker s) eqn:Hw; simpl; rewrite ?Hw; auto. Qed.

Lemma wake_inv_done s : nobody_sleeps s -> wake_inv s.
Proof. by intros ? ?. Qed.

(** The fields that [wake_inv] speaks of. *)
Definition wake_same (s s' : KcpState K) : Prop :=
  finished s' = finished s /\ ks_read_waker s' = ks_read_waker s /\ ks_write_waker s' = ks_write_waker s.
Lemma wake_same_inv s s' : wake_same s s' -> wake_inv s -> wake_inv s'.
Proof. unfold wake_inv, nobody_sleeps. intros (-> & -> & ->). done. Qed.

Lemma flush_and_send_wake now (s : KcpState K) : wake_inv s -> wake_inv (flush_and_send now s).
Proof.
  intros I. unfold flush_and_send. case_match eqn:Hd; [done|]. destruct (km_update _ _) as [[[]|e] [ps k]].
  - eapply wake_same_inv; [|exact I]. unfold drain, send_all, wake_same, finished. simpl. rewrite ?Hd. simpl. by rewrite ?Hd.
  - apply wake_inv_done, wakes_both.
Qed.

Lemma wake_read_inv (s : KcpState K) : wake_inv s -> wake_inv (wake_read s).
Proof. unfold wake_inv, wake_read, finished, nobody_sleeps. destruct (ks_read_waker s) eqn:E; simpl; rewrite ?E; naive_solver. Qed.
Lemma wake_write_inv (s : KcpState K) : wake_inv s -> wake_inv (wake_write s).
Proof. unfold wake_inv, wake_write, finished, nobody_sleeps. destruct (ks_write_waker s) eqn:E; simpl; rewrite ?E; naive_solver. Qed.

Lemma unfinished_inv s : finished s = false -> wake_inv s.
Proof. unfold wake_inv. by intros ->. Qed.

Lemma read_turn_wake cap (s : KcpState K) : wake_inv s -> wake_inv (read_turn cap s).2.
Proof.
  intros I. unfold read_turn. fold (finished s). destruct (finished s) eqn:Hf; [done|].
  destruct (km_recv _ _) as [[bs|[]] k]; by apply unfinished_inv.
Qed.

Lemma poll_read_wake fuel cap (s : KcpState K) : wake_inv s -> wake_inv (poll_read fuel cap s).2.
Proof.
  revert s; induction fuel as [|fuel IH]; intros s I; cbn [poll_read]; [done|].
  apply (read_turn_wake cap) in I. destruct (read_turn cap s) as [[r|] s1]; [done|by apply IH].
Qed.

Lemma poll_write_wake buf now (s : KcpState K) : wake_inv s -> wake_inv (poll_write buf now s).2.
Proof.
  intros I. unfold poll_write. fold (finished s). destruct (finished s) eqn:Hf; [done|].
  case_match; [by apply unfinished_inv|]. destruct (km_send _ _) as [[n|e] k]; [|by apply unfinished_inv].
  destruct (km_update now k) as [[[]|e] [ps k1]]; [destruct (km_flush k1) as [[[]|e] [ps2 k2]]|];
    try apply wake_inv_done, wakes_both.
  apply unfinished_inv. unfold finished, drain, send_all in *. simpl. case_match; done.
Qed.

Lemma stream_step_wake e s : wake_inv s -> wake_inv (stream_step e s).
Proof.
  intros I. destruct e as [d src now|now| |cap|buf now|now|]; cbn [stream_step].
  - unfold recv_datagram. repeat (case_match; try done). by apply wake_read_inv, flush_and_send_wake.
  - unfold tick. case_match; [done|]. case_match; [apply wake_inv_done, wakes_both|].
    case_match; [apply wake_write_inv|]; by apply flush_and_send_wake.
  - unfold punch. by repeat case_match.
  - by apply poll_read_wake.
  - by apply poll_write_wake.
  - by apply flush_and_send_wake.
  - apply wake_inv_done, wakes_both.
Qed.

(** no reader or writer is forgotten: once the stream is dead or closed
    nobody sleeps on it; a datagram KCP accepts wakes the reader; and a beat of
    the ticker wakes the writer as soon as the window has room, or everybody when
    the link is dead. *)
Theorem nobody_forgotten peers conv now0 s0 es : stream_new peers conv now0 = Ok s0 ->
  let s := stream_run es s0 in
  (finished s = true -> nobody_sleeps s) /\
  (forall d src now k, finished s = false -> d <> PUNCH_PACKET -> (KCP_OVERHEAD <= length d)%nat ->
     km_input d (ks_kcp s) = (Ok tt, k) -> ks_read_waker (recv_datagram d src now s) = false) /\
  (forall now, finished s = false ->
     (km_is_dead_link (ks_kcp s) = true -> nobody_sleeps (tick now s) /\ finished (tick now s) = true) /\
     ((km_wait_snd (ks_kcp (tick now s)) < km_snd_wnd (ks_kcp (tick now s)))%nat -> ks_write_waker (tick now s) = false \/
       nobody_sleeps (tick now s))).
Proof.
  intros E s.
  assert (wake_inv s0) as I0.
  { unfold stream_new in E. destruct peers; [done|]. destruct (km_new conv) as [k|]; [|done]. destruct conv; [|by injection E as <-].
    destruct (km_send _ _) as [r k1]. destruct (km_update now0 k1) as [r2 [ps k2]]. injection E as <-. by apply unfinished_inv. }
  assert (wake_inv s) as I.
  { unfold s. clear E. revert s0 I0 s. induction es as [|e es IH]; intros s0 I0 s; [done|]. apply IH. by apply stream_step_wake. }
  split; [exact I|]. clearbody s. clear -I. split.
  - intros d src now k Hf Hd Hl Hi. unfold recv_datagram. apply orb_false_iff in Hf as [Hdead Hcl].
    rewrite Hcl, decide_False, Hdead by done. assert ((length d <? KCP_OVERHEAD)%nat = false) as -> by (apply Nat.ltb_ge; lia).
    rewrite Hi. unfold wake_read at 1. by case_match.
  - intros now Hf. apply orb_false_iff in Hf as [Hdead Hcl]. unfold tick. rewrite Hcl, Hdead. cbn [negb]. split.
    + intros ->. cbn [andb]. split; [apply wakes_both|]. unfold mark_dead, wake_write, wake_read, finished. by repeat case_match.
    + rewrite andb_true_r. case_match; [intros _; right; apply wakes_both|].
      destruct (km_wait_snd (ks_kcp (flush_and_send now s)) <? km_snd_wnd (ks_kcp (flush_and_send now s)))%nat eqn:El.
      * intros _. left. unfold wake_write. by case_match.
      * intros Hw. apply Nat.ltb_ge in El. lia.
Qed.

(** Shutting down ends both directions at once: nothing is sent again, so what
    was not acknowledged is lost, and what was not read yet is never read. *)
Lemma shutdown_loses_unsent es s : Forall (fun e => match e with Flushes _ => False | _ => True end) es ->
  ks_sent (stream_run es (poll_shutdown s)) = ks_sent s /\
  forall cap, (poll_read 1 cap (stream_run es (poll_shutdown s))).1 = Some (Ready (Ok [])).
Proof.
  intros Hes.
  assert (forall s1, ks_closed s1 = true -> ks_closed (stream_run es s1) = true /\ ks_sent (stream_run es s1) = ks_sent s1) as Hrun.
  { induction es as [|e es IH]; intros s1 Hc; [done|]. apply Forall_cons in Hes as [He Hes]. cbn [stream_run foldl].
    assert (ks_closed (stream_step e s1) = true /\ ks_sent (stream_step e s1) = ks_sent s1) as [H1 H2].
    { destruct e as [d src now|now| |cap|buf now|now|]; cbn [stream_step]; try done.
      - unfold recv_datagram. by rewrite Hc.
      - unfold tick. by rewrite Hc.
      - unfold punch. by rewrite Hc.
      - cbn [poll_read]. unfold read_turn. by rewrite Hc, orb_true_r.
      - unfold poll_write. by rewrite Hc, orb_true_r.
      - unfold poll_shutdown, close, wake_write, wake_read. by repeat case_match. }
    destruct (IH Hes _ H1) as [H3 H4]. by rewrite <- H2. }
  assert (ks_closed (poll_shutdown s) = true /\ ks_sent (poll_shutdown s) = ks_sent s) as [Hc Hs].
  { unfold poll_shutdown, close, wake_write, wake_read. by repeat case_match. }
  destruct (Hrun _ Hc) as [Hc' Hs']. split; [congruence|]. intros cap. cbn [poll_read]. unfold read_turn. by rewrite Hc', orb_true_r.
Qed.

(** A packet of the right conversation is fed to KCP whoever sent it, also when
    the peer is known. *)
Lemma strangers_packets_are_taken d src now p s k : ks_active_peer s = Some p -> src <> p -> finished s = false ->
  d <> PUNCH_PACKET -> (KCP_OVERHEAD <= length d)%nat -> km_input d (ks_kcp s) = (Ok tt, k) ->
  exists s1, recv_datagram d src now s = wake_read (flush_and_send now s1) /\ ks_kcp s1 = k /\ ks_active_peer s1 = Some p.
Proof.
  intros Hp _ Hf Hd Hl Hi. unfold recv_datagram. apply orb_false_iff in Hf as [Hdead Hcl].
  rewrite Hcl, decide_False, Hdead by done. assert ((length d <? KCP_OVERHEAD)%nat = false) as -> by (apply Nat.ltb_ge; lia).
  rewrite Hi, Hp. eexists. by split_and!.
Qed.
End Waking.

(** ** Runs *)

(** A machine that puts a packet header in front of what it is given. *)
Record toy_machine := Toy { tm_ready : list byte; tm_taken : list byte; tm_accepted : list byte; tm_queue : list (list byte) }.
Definition toy_header : list byte := replicate KCP_OVERHEAD (z2b 0).
#[local] Instance toy_machine_kcp : KcpMachine toy_machine := {
  km_new _ := Ok (Toy [] [] [] []);
  km_input d k := (Ok tt, Toy (tm_ready k ++ drop KCP_OVERHEAD d) (tm_taken k) (tm_accepted k) (tm_queue k));
  km_recv cap k :=
    match take cap (tm_ready k) with
    | [] => (Err RecvQueueEmpty, k)
    | bs => (Ok bs, Toy (drop cap (tm_ready k)) (tm_taken k ++ bs) (tm_accepted k) (tm_queue k))
    end;
  km_send bs k :=
    if (length bs <=? 256)%nat then (Ok (length bs), Toy (tm_ready k) (tm_taken k) (tm_accepted k ++ bs) (tm_queue k ++ [bs]))
    else (Err (OtherKcp "too big"), k);
  km_update _ k := (Ok tt, ((app toy_header) <$> tm_queue k, Toy (tm_ready k) (tm_taken k) (tm_accepted k) []));
  km_flush k := (Ok tt, ([], k));
  km_wait_snd k := length (tm_queue k);
  km_snd_wnd _ := 128%nat;
  km_mss _ := 4%nat;
  km_is_dead_link _ := false;
  km_error_text e := match e with OtherKcp t => t | _ => EmptyString end;
}.

#[local] Instance toy_machine_laws : KcpMachineLaws toy_machine.
Proof.
  unshelve refine {| km_taken := tm_taken; km_accepted := tm_accepted |}; simpl; try done.
  - by intros _ k [= <-].
  - intros _. lia.
  - intros cap k bs k'. destruct (take cap (tm_ready k)) as [|b l] eqn:E; intros [= <- <-]. simpl. split_and!; try done.
    change (length (b :: l) <= cap)%nat. rewrite <- E, length_take. lia.
  - intros cap k e k'. by destruct (take cap (tm_ready k)); intros [= <- <-].
  - intros bs k Hl. assert ((length bs <=? 256)%nat = true) as -> by (apply Nat.leb_le; lia). by eexists.
  - intros bs k n k'. case_match; by intros [= <- <-].
  - intros bs k e k'. case_match; by intros [= <- <-].
Defined.

Definition demo_a : KcpState toy_machine :=
  match stream_new ["192.168.0.2:7"; "192.168.0.2:7"; "1.2.3.4:7"] (Some 9) 0 with Ok s => s | Err _ => KState (Toy [] [] [] []) [] [] None false false false false false false [] [] [] [] end.
Definition demo_b : KcpState toy_machine :=
  match stream_new ["10.9.8.7:6"] None 0 with Ok s => s | Err _ => demo_a end.
Definition demo_a_events : list stream_event := [Punches; Writes (as_bytes "ping") 1; Ticks 2].
Definition demo_b_events : list stream_event :=
  [Reads 10; Receives (toy_header ++ [HANDSHAKE_MAGIC]) "10.9.8.7:66" 3; Receives (toy_header ++ as_bytes "ping") "10.9.8.7:66" 4; Reads 3].

Lemma stream_end_to_end_witness :
  ks_read (stream_run demo_b_events demo_b) = as_bytes "pi" /\
  ks_written (stream_run demo_a_events demo_a) = as_bytes "ping" /\
  ks_read (stream_run demo_b_events demo_b) `prefix_of` ks_written (stream_run demo_a_events demo_a).
Proof.
  split_and!; [vm_compute; reflexivity|vm_compute; reflexivity|].
  apply (stream_end_to_end ["192.168.0.2:7"; "192.168.0.2:7"; "1.2.3.4:7"] ["10.9.8.7:6"] 9 0 0 demo_a demo_b demo_a_events demo_b_events);
    [vm_compute; reflexivity|vm_compute; reflexivity|exists (as_bytes "ng"); vm_compute; reflexivity|apply prefix_nil].
Defined.

Lemma peer_lock_witness :
  let s := stream_run (take 2 demo_b_events) demo_b in
  let s' := stream_run [Receives PUNCH_PACKET "6.6.6.6:6" 5; Receives (toy_header ++ as_bytes "evil") "6.6.6.6:6" 6;
                        Writes (as_bytes "pong") 7] s in
  ks_active_peer s = Some "10.9.8.7:66"%string /\ ks_active_peer s' = Some "10.9.8.7:66"%string /\
  (ks_sent s').*2 = ["6.6.6.6:6"; "10.9.8.7:66"]%string.
Proof.
  intros s s'. split; [vm_compute; reflexivity|]. split; [|vm_compute; reflexivity].
  apply (peer_lock [Receives PUNCH_PACKET "6.6.6.6:6" 5; Receives (toy_header ++ as_bytes "evil") "6.6.6.6:6" 6;
                    Writes (as_bytes "pong") 7] "10.9.8.7:66" s). vm_compute. reflexivity.
Defined.

Lemma nobody_forgotten_witness :
  let s := stream_run [Reads 10] demo_b in
  ks_read_waker s = true /\ ks_read_waker (recv_datagram (toy_header ++ [HANDSHAKE_MAGIC]) "10.9.8.7:66" 3 s) = false.
Proof.
  intros s. split; [vm_compute; reflexivity|].
  destruct (nobody_forgotten ["10.9.8.7:6"] None 0 demo_b [Reads 10]) as (_ & Hd & _); [vm_compute; reflexivity|].
  refine (Hd _ _ 3 (Toy [HANDSHAKE_MAGIC] [] [] []) _ _ _ _); [vm_compute; reflexivity|vm_compute; discriminate|vm_compute; lia|vm_compute; reflexivity].
Defined.
