(* ===== verification/ServerStart.v ===== *)
(** * Starting the server (src/rust_frp_server/src/server.rs [Server::start];
    src/rust_frp_net/src/quic.rs; the QUIC entry of
    src/rust_frp_server/src/server/transport.rs)

    The listeners a server opens for its configuration, in order, and what stays
    open when one of them fails; the QUIC settings of both sides; and what the
    first message on a QUIC stream leads to.  Binding an address is the argument
    [bind] and may depend on what is already bound; certificates, keys and what
    rustls says of them are arguments. *)
From S2P Require Import Prelude RustStd ConfigTypes ConfigLoader StateErr CoreMsg Auth Web ServerIngress ProxyManager.
From S2P Require Import ControlManager ServerPlugin JsonValue WorkPool Metrics.

(** ** QUIC *)
Definition QUIC_ALPN : string := "frp".

(** Durations are in seconds. *)
Record QuicOptions := {
  qo_max_idle_timeout : option Z;
  qo_max_incoming_streams : Z;
  qo_keep_alive_interval : option Z;
}.

Definition default_quic_options : QuicOptions :=
  {| qo_max_idle_timeout := Some 30; qo_max_incoming_streams := 100000; qo_keep_alive_interval := None |}.

Definition from_config (max_idle_timeout_secs max_incoming_streams keepalive_period_secs : option Z) : QuicOptions :=
  {| qo_max_idle_timeout := match max_idle_timeout_secs with
                            | Some 0 => None
                            | Some s => Some s
                            | None => qo_max_idle_timeout default_quic_options
                            end;
     qo_max_incoming_streams := match max_incoming_streams with
                                | Some n => if decide (0 < n) then n else qo_max_incoming_streams default_quic_options
                                | None => qo_max_incoming_streams default_quic_options
                                end;
     qo_keep_alive_interval := match keepalive_period_secs with
                               | Some s => if decide (0 < s) then Some s else None
                               | None => None
                               end |}.

Definition quic_options (config : ServerConfig) : QuicOptions :=
  let q := tr_quic (sc_transport config) in
  from_config (q ≫= quic_max_idle_timeout) (q ≫= quic_max_incoming_streams) (q ≫= quic_keepalive_period).

(** What [quinn::TransportConfig] is told; [idle_fits] is [IdleTimeout::try_from]. *)
Definition transport_config (idle_fits : Z -> bool) (opts : QuicOptions) : QuicOptions :=
  {| qo_max_idle_timeout := match qo_max_idle_timeout opts with
                            | Some idle => if idle_fits idle then Some idle else None
                            | None => None
                            end;
     qo_max_incoming_streams := qo_max_incoming_streams opts;
     qo_keep_alive_interval := qo_keep_alive_interval opts |}.

(** Where a certificate comes from. *)
Inductive cert_source := FromFiles (cert key : string) | RuntimeCert.

#[global] Instance cert_source_eq_dec : EqDecision cert_source.
Proof. solve_decision. Defined.

Record QuicServerConfig := {
  qs_cert : cert_source;
  qs_client_auth : option (string * bool);     (* the CA file, and whether a certificate is required *)
  qs_alpn : string;
  qs_transport : QuicOptions;
}.

#[global] Instance quic_options_eq_dec : EqDecision QuicOptions.
Proof. solve_decision. Defined.
#[global] Instance quic_server_config_eq_dec : EqDecision QuicServerConfig.
Proof. solve_decision. Defined.

(** Whom the client believes. *)
Inductive server_check := VerifiedBy (ca : string) | NotVerified.

Record QuicClientConfig := {
  qc_server : server_check;
  qc_client_cert : option (string * string);
  qc_alpn : string;
  qc_transport : QuicOptions;
}.

Section Quic.
Context (load_certs load_key : string -> result string unit) (self_signed : result string unit)
  (client_verifier : string -> bool -> result string unit) (accepts : cert_source -> result string unit)
  (add_roots : string -> result string unit) (idle_fits : Z -> bool).

Definition build_server_config (cert_file key_file client_ca_file : option string) (require_client_cert : bool)
    (opts : QuicOptions) : result string QuicServerConfig :=
  cert ← match cert_file, key_file with
         | Some c, Some k => _ ← load_certs c; _ ← load_key k; Ok (FromFiles c k)
         | _, _ => _ ← map_err (fun e => "generate self-signed certificate: " +:+ e)%string self_signed; Ok RuntimeCert
         end;
  auth ← match client_ca_file with
         | Some ca => _ ← client_verifier ca require_client_cert; Ok (Some (ca, require_client_cert))
         | None => Ok None
         end;
  _ ← map_err (fun e => "QUIC server cert rejected: " +:+ e)%string (accepts cert);
  Ok {| qs_cert := cert; qs_client_auth := auth; qs_alpn := QUIC_ALPN; qs_transport := transport_config idle_fits opts |}.

Definition mtls_needs_ca : string :=
  "QUIC client certificate (mTLS) requires trusted_ca_file and cannot be combined with skip_verify = true: without verifying the server, an impostor could collect the client certificate".

Definition build_client_config (ca_file : option string) (insecure : bool) (client_cert : option (string * string))
    (opts : QuicOptions) : result string QuicClientConfig :=
  _ ← match client_cert with
      | Some _ => if insecure || negb (is_some ca_file) then Err mtls_needs_ca else Ok tt
      | None => Ok tt
      end;
  let config server cert :=
    {| qc_server := server; qc_client_cert := cert; qc_alpn := QUIC_ALPN; qc_transport := transport_config idle_fits opts |} in
  match ca_file with
  | Some ca =>
      _ ← load_certs ca;
      _ ← map_err (fun e => "QUIC trusted CA rejected: " +:+ e)%string (add_roots ca);
      match client_cert with
      | Some (cert, key) =>
          _ ← load_certs cert;
          _ ← load_key key;
          _ ← map_err (fun e => "QUIC client cert rejected: " +:+ e)%string (accepts (FromFiles cert key));
          Ok (config (VerifiedBy ca) client_cert)
      | None => Ok (config (VerifiedBy ca) None)
      end
  | None =>
      if insecure then Ok (config NotVerified None)
      else Err "QUIC client requires trusted_ca_file (or skip_verify = true)"%string
  end.
End Quic.

(** What the first message on a QUIC stream makes of it. *)
Inductive quic_stream :=
| QuicControl (login : LoginMsg)
| QuicWork (m : Message).

Definition handle_quic_stream (negotiated : result string unit) (first : wait (result string Message))
    : result string quic_stream :=
  _ ← negotiated;
  match first with
  | Silent => Err "QUIC stream handshake timeout"%string
  | Got (Err e) => Err e
  | Got (Ok (Login login)) => Ok (QuicControl login)
  | Got (Ok (NewWorkConn m)) => Ok (QuicWork (NewWorkConn m))
  | Got (Ok _) => Err "unexpected first message on QUIC stream"%string
  end.

(** ** The listeners *)
Inductive ingress :=
| IWeb (addr : string)
| IControl (addr : string)
| IVhostHttp (addr : string)
| IVhostHttps (addr : string) (cert : cert_source) (asks_client_cert : bool)
| ITcpmux (addr : string)
| IWork (addr : string) (tls tls_only : bool)
| IKcp (addr : string) (work_conn_tls : bool)
| IQuic (addr : string) (config : QuicServerConfig).

#[global] Instance ingress_eq_dec : EqDecision ingress.
Proof. solve_decision. Defined.

Section Start.
Context (parse_addr : string -> result string string) (bind : list ingress -> ingress -> result string unit)
  (vhost_cert : string -> string -> result string unit)
  (load_certs load_key : string -> result string unit) (self_signed : result string unit)
  (client_verifier : string -> bool -> result string unit) (accepts : cert_source -> result string unit)
  (idle_fits : Z -> bool).

Notation start_m := (st (list ingress) string).

Definition listen (i : ingress) : start_m unit := fun l =>
  match bind l i with
  | Ok _ => (Ok tt, l ++ [i])
  | Err e => (Err e, l)
  end.

Definition lift {A} (r : result string A) : start_m A := fun l => (r, l).

(** [format!("{}:{}", ..).parse::<SocketAddr>()]. *)
Definition addr_of (config : ServerConfig) (port : Z) : start_m string :=
  lift (parse_addr (sc_bind_addr config +:+ ":" +:+ pretty port)%string).

(** Which certificate the HTTPS virtual hosts use, if they start; visitors are
    never asked for one of theirs. *)
Definition vhost_tls (s : Server) : option cert_source :=
  let tls := tr_tls (sc_transport (srv_config s)) in
  let files := match tls with
               | Some t => match tls_cert_file t, tls_key_file t with Some c, Some k => Some (c, k) | _, _ => None end
               | None => None
               end in
  match should_start_vhost_https tls, files with
  | true, Some (cert, key) => match vhost_cert cert key with Ok _ => Some (FromFiles cert key) | Err _ => None end
  | true, None =>
      if is_some (tls ≫= tls_client_ca_file) then None
      else if srv_tls s then Some RuntimeCert else None
  | false, _ => None
  end.

Definition kcp_refused : string :=
  "tls_only is enabled but KCP is plaintext UDP; disable kcp_bind_port or tls_only".

Definition start_kcp (s : Server) : start_m unit :=
  let config := srv_config s in
  match sc_kcp_bind_port config with
  | None => mret tt
  | Some port =>
      if tr_tls_only (sc_transport config) then throw kcp_refused
      else addr ← addr_of config port; listen (IKcp addr (srv_tls s))
  end.

Definition start_quic (s : Server) : start_m unit :=
  let config := srv_config s in
  match sc_quic_bind_port config with
  | None => mret tt
  | Some port =>
      if decide (0 < port) then
        let tls := tr_tls (sc_transport config) in
        addr ← addr_of config port;
        cfg ← lift (build_server_config load_certs load_key self_signed client_verifier accepts idle_fits
                      (tls ≫= tls_cert_file) (tls ≫= tls_key_file) (tls ≫= tls_client_ca_file)
                      (match tls with Some t => tls_require_client_cert t | None => false end) (quic_options config));
        listen (IQuic addr cfg)
      else mret tt
  end.

(** [start], up to the accept loop. *)
Definition start (s : Server) : start_m unit :=
  let config := srv_config s in
  _ ← match srv_web s with Some (addr, _, _) => listen (IWeb addr) | None => mret tt end;
  addr ← addr_of config (sc_bind_port config);
  _ ← listen (IControl addr);
  addr ← addr_of config (default 9090 (sc_vhost_http_port config));
  _ ← listen (IVhostHttp addr);
  _ ← match vhost_tls s with
      | Some cert => addr ← addr_of config (default 9091 (sc_vhost_https_port config)); listen (IVhostHttps addr cert false)
      | None => mret tt
      end;
  _ ← match sc_tcpmux_http_connect_port config with
      | Some port => if decide (0 < port) then addr ← addr_of config port; listen (ITcpmux addr) else mret tt
      | None => mret tt
      end;
  addr ← addr_of config (work_conn_port config);
  _ ← listen (IWork addr (srv_tls s) (tr_tls_only (sc_transport config)));
  _ ← start_kcp s;
  start_quic s.


(** ** What is open after a start, whether it succeeded or not *)

Definition grows (P : ingress -> Prop) {A} (m : start_m A) : Prop := forall l r l', m l = (r, l') ->
  exists new, l' = l ++ new /\ Forall P new /\
    forall n i, l' !! n = Some i -> (length l <= n)%nat -> bind (take n l') i = Ok tt.

Lemma grows_same P {A} (m : start_m A) : (forall l, (m l).2 = l) -> grows P m.
Proof.
  intros Hm l r l' E. assert (l' = l) as -> by (rewrite <- (Hm l), E; done). exists []. rewrite app_nil_r.
  split_and!; [done|constructor|]. intros n i Hi%lookup_lt_Some Hn. lia.
Qed.

Lemma grows_bind P {A B} (m : start_m A) (f : A -> start_m B) : grows P m -> (forall a, grows P (f a)) -> grows P (m ≫= f).
Proof.
  intros Hm Hf l r l'. unfold mbind, st_bind. destruct (m l) as [[a|e] l1] eqn:Em.
  - intros Ef. destruct (Hm _ _ _ Em) as (n1 & -> & F1 & B1). destruct (Hf _ _ _ _ Ef) as (n2 & -> & F2 & B2).
    exists (n1 ++ n2). split_and!; [by rewrite app_assoc|by apply Forall_app|]. intros n i Hi Hn.
    destruct (decide (length (l ++ n1) <= n)%nat) as [Hge|Hlt]; [by apply B2|].
    rewrite take_app_le by lia. apply B1; [|done]. by rewrite lookup_app_l in Hi by lia.
  - intros [= <- <-]. by apply (Hm _ _ _ Em).
Qed.

Lemma grows_listen (P : ingress -> Prop) i : P i -> grows P (listen i).
Proof.
  intros Hi l r l'. unfold listen. destruct (bind l i) as [[]|e] eqn:Eb; intros [= <- <-].
  - exists [i]. split_and!; [done|by constructor|]. intros n j Hj Hn. pose proof (lookup_lt_Some _ _ _ Hj) as Hl.
    rewrite length_app in Hl. simpl in Hl. assert (n = length l) as -> by lia.
    rewrite lookup_app_r, Nat.sub_diag in Hj by lia. injection Hj as <-. by rewrite take_app_le, firstn_all by lia.
  - exists []. rewrite app_nil_r. split_and!; [done|constructor|]. intros n j Hj%lookup_lt_Some Hn. lia.
Qed.

Lemma grows_addr P config port : grows P (addr_of config port).
Proof. by apply grows_same. Qed.

#[local] Hint Resolve grows_addr : grows.

(** What a start may open for a server. *)
Definition allowed (s : Server) (i : ingress) : Prop :=
  match i with
  | IWork _ tls only => tls = srv_tls s /\ only = tr_tls_only (sc_transport (srv_config s))
  | IKcp _ _ => tr_tls_only (sc_transport (srv_config s)) = false
  | IVhostHttps _ cert asks => asks = false /\ vhost_tls s = Some cert
  | IQuic _ c => qs_alpn c = QUIC_ALPN /\
      qs_client_auth c = match tr_tls (sc_transport (srv_config s)) with
                         | Some t => (fun ca => (ca, tls_require_client_cert t)) <$> tls_client_ca_file t
                         | None => None
                         end
  | _ => True
  end.

Lemma build_server_config_Ok cert key ca req opts c :
  build_server_config load_certs load_key self_signed client_verifier accepts idle_fits cert key ca req opts = Ok c ->
  qs_alpn c = QUIC_ALPN /\ qs_client_auth c = (fun ca => (ca, req)) <$> ca /\
  qs_cert c = match cert, key with Some c, Some k => FromFiles c k | _, _ => RuntimeCert end.
Proof.
  unfold build_server_config. intros E.
  apply result_bind_Ok in E as (crt & Hc & E). apply result_bind_Ok in E as (auth & Ha & E).
  apply result_bind_Ok in E as ([] & _ & [= <-]). simpl. split_and!; [done|..].
  - destruct ca; [|by injection Ha as <-]. by apply result_bind_Ok in Ha as (_ & _ & [= <-]).
  - destruct cert, key; try (by apply result_bind_Ok in Hc as (_ & _ & [= <-])).
    apply result_bind_Ok in Hc as (_ & _ & Hc). by apply result_bind_Ok in Hc as (_ & _ & [= <-]).
Qed.

Lemma start_grows s : grows (allowed s) (start s).
Proof.
  assert (grows (allowed s) (mret tt : start_m unit)) as Hret by by apply grows_same.
  unfold start. apply grows_bind; [destruct (srv_web s) as [[[a ?] ?]|]; [by apply grows_listen|done]|intros _].
  apply grows_bind; [apply grows_addr|intros a1]. apply grows_bind; [by apply grows_listen|intros _].
  apply grows_bind; [apply grows_addr|intros a2]. apply grows_bind; [by apply grows_listen|intros _].
  apply grows_bind; [|intros _].
  { destruct (vhost_tls s) eqn:Ev; [|done]. apply grows_bind; [apply grows_addr|intros a3]. by apply grows_listen. }
  apply grows_bind; [|intros _].
  { destruct (sc_tcpmux_http_connect_port _); [|done]. case_decide; [|done].
    apply grows_bind; [apply grows_addr|intros a3]. by apply grows_listen. }
  apply grows_bind; [apply grows_addr|intros a4]. apply grows_bind; [by apply grows_listen|intros _].
  apply grows_bind; [|intros _].
  { unfold start_kcp. destruct (sc_kcp_bind_port _); [|done]. destruct (tr_tls_only _) eqn:Eo; [by apply grows_same|].
    apply grows_bind; [apply grows_addr|intros a5]. by apply grows_listen. }
  unfold start_quic. destruct (sc_quic_bind_port _); [|done]. case_decide; [|done].
  apply grows_bind; [apply grows_addr|intros a5]. intros l r l'. unfold mbind, st_bind, lift.
  destruct (build_server_config _ _ _ _ _ _ _ _ _ _ _) as [c|e] eqn:Eb.
  - apply grows_listen. destruct (build_server_config_Ok _ _ _ _ _ _ Eb) as (Hal & Hca & _). split; [done|]. rewrite Hca.
    by destruct (tr_tls (sc_transport (srv_config s))).
  - intros E. exact (grows_same (allowed s) (fun l => (Err e, l) : result string unit * list ingress) (fun _ => eq_refl) _ _ _ E).
Qed.

(** A start that succeeded opened what the configuration names. *)
Lemma listen_elem i l l' : listen i l = (Ok tt, l') -> i ∈ l'.
Proof. unfold listen. destruct (bind l i); intros [= <-]. apply elem_of_app. right. by apply list_elem_of_singleton. Qed.

Definition opened (s : Server) (l : list ingress) : Prop :=
  let config := srv_config s in
  (exists a, IControl a ∈ l /\ parse_addr (sc_bind_addr config +:+ ":" +:+ pretty (sc_bind_port config))%string = Ok a) /\
  (exists a, IWork a (srv_tls s) (tr_tls_only (sc_transport config)) ∈ l /\
     parse_addr (sc_bind_addr config +:+ ":" +:+ pretty (work_conn_port config))%string = Ok a) /\
  (forall port, sc_kcp_bind_port config = Some port -> exists a, IKcp a (srv_tls s) ∈ l /\
     parse_addr (sc_bind_addr config +:+ ":" +:+ pretty port)%string = Ok a) /\
  (forall port, sc_quic_bind_port config = Some port -> 0 < port -> exists a c, IQuic a c ∈ l /\
     parse_addr (sc_bind_addr config +:+ ":" +:+ pretty port)%string = Ok a).

Lemma addr_of_Ok config port l a l' : addr_of config port l = (Ok a, l') ->
  l' = l /\ parse_addr (sc_bind_addr config +:+ ":" +:+ pretty port)%string = Ok a.
Proof. unfold addr_of, lift. intros E. injection E as Ea El. by rewrite <- El. Qed.

Lemma grows_keeps P {A} (m : start_m A) l r l' i : grows P m -> m l = (r, l') -> i ∈ l -> i ∈ l'.
Proof. intros Hg E Hi. destruct (Hg _ _ _ E) as (new & -> & _). apply elem_of_app. by left. Qed.

Lemma start_Ok s l : start s [] = (Ok tt, l) -> opened s l.
Proof.
  unfold start. intros E.
  apply st_bind_Ok in E as ([] & l1 & _ & E). apply st_bind_Ok in E as (a & l2 & Ea & E). apply addr_of_Ok in Ea as [-> Ea].
  apply st_bind_Ok in E as ([] & l3 & Ec & E). apply listen_elem in Ec.
  match type of E with ?m l3 = _ => assert (grows (fun _ => True) m) as Hg end.
  { repeat first [apply grows_bind; [|intros ?]|apply grows_addr|by apply grows_listen|
      match goal with |- grows _ (match ?x with _ => _ end) => destruct x end|by apply grows_same|progress unfold start_kcp, start_quic]. }
  pose proof (grows_keeps _ _ _ _ _ _ Hg E Ec) as Hc. clear Hg Ec.
  apply st_bind_Ok in E as (a2 & l4 & _ & E). apply st_bind_Ok in E as ([] & l5 & _ & E). apply st_bind_Ok in E as ([] & l6 & _ & E).
  apply st_bind_Ok in E as ([] & l7 & _ & E). apply st_bind_Ok in E as (aw & l8 & Eaw & E). apply addr_of_Ok in Eaw as [-> Eaw].
  apply st_bind_Ok in E as ([] & l9 & Ew & E). apply listen_elem in Ew.
  match type of E with ?m l9 = _ => assert (grows (fun _ => True) m) as Hg end.
  { repeat first [apply grows_bind; [|intros ?]|apply grows_addr|by apply grows_listen|
      match goal with |- grows _ (match ?x with _ => _ end) => destruct x end|by apply grows_same|progress unfold start_kcp, start_quic]. }
  pose proof (grows_keeps _ _ _ _ _ _ Hg E Ew) as Hw. clear Hg Ew.
  apply st_bind_Ok in E as ([] & l10 & Ek & E). split_and!; [eauto|eauto| |].
  - intros port Hp. unfold start_kcp in Ek. rewrite Hp in Ek. destruct (tr_tls_only _); [done|].
    apply st_bind_Ok in Ek as (ak & l11 & Eak & Ek). apply addr_of_Ok in Eak as [-> Eak]. apply listen_elem in Ek.
    exists ak. split; [|done]. refine (grows_keeps (fun _ => True) (start_quic s) _ _ _ _ _ E Ek).
    unfold start_quic. repeat first [apply grows_bind; [|intros ?]|apply grows_addr|by apply grows_listen|
      match goal with |- grows _ (match ?x with _ => _ end) => destruct x end|by apply grows_same].
  - intros port Hp Hpos. unfold start_quic in E. rewrite Hp, decide_True in E by done.
    apply st_bind_Ok in E as (aq & l11 & Eaq & E). apply addr_of_Ok in Eaq as [-> Eaq].
    apply st_bind_Ok in E as (c & l12 & _ & E). apply listen_elem in E. eauto.
Qed.

(** what runs after a start: every listener was bound, one after the other,
    on top of those before it, also when the start fails half way; and a start
    that succeeds listens for control connections, for work connections, and for
    KCP and QUIC where they are configured, on the configured addresses. *)
Theorem start_opens s r l : start s [] = (r, l) ->
  (forall n i, l !! n = Some i -> bind (take n l) i = Ok tt) /\ (r = Ok tt -> opened s l).
Proof.
  intros E. split.
  - destruct (start_grows s _ _ _ E) as (new & -> & _ & Hb). intros n i Hi. apply Hb; [done|simpl; lia].
  - intros ->. by apply start_Ok.
Qed.

Context `{RingHash, Base64, Jwt} (from_files : string -> string -> option string -> bool -> result string unit)
  (runtime_cert : option string -> bool -> result string unit).

(** tls_only closes every plaintext way in.  Of a server built from such a
    configuration no KCP listener ever runs (configuring one makes the start
    fail); every control connection that is set up went through a TLS handshake;
    work connections are never taken in plain text; QUIC speaks TLS by itself,
    and asks for client certificates as the TLS settings say; and browsers at the
    HTTPS virtual hosts are not asked for one. *)
Theorem tls_only_ingress config s r l : server_new from_files runtime_cert parse_addr config = Ok s ->
  tr_tls_only (sc_transport config) = true -> start s [] = (r, l) ->
  (sc_kcp_bind_port config <> None -> r <> Ok tt) /\
  forall i, i ∈ l ->
    match i with
    | IKcp _ _ => False
    | IControl _ => forall sniffed ws hs stream m su m',
        handle_connection (srv_tls s) (plaintext_ws_must_be_rejected true (tr_tls (sc_transport config))) sniffed ws hs stream m =
          Some (Ok su, m') -> mtls_path hs su
    | IWork _ tls only => forall first_byte, classify_work_conn first_byte tls only <> ClassPlain
    | IVhostHttps _ _ asks => asks = false
    | IQuic _ c => qs_alpn c = QUIC_ALPN /\
        qs_client_auth c = match tr_tls (sc_transport config) with
                           | Some t => (fun ca => (ca, tls_require_client_cert t)) <$> tls_client_ca_file t
                           | None => None
                           end
    | _ => True
    end.
Proof.
  intros Hs Honly E. apply server_new_Ok in Hs as (Hcfg & _ & _ & Htls & _). specialize (Htls Honly). subst config. split.
  - intros Hk ->. destruct (start_grows s _ _ _ E) as (new & -> & Hall & _). apply start_Ok in E as (_ & _ & Hkcp & _).
    destruct (sc_kcp_bind_port (srv_config s)) as [port|]; [|done].
    destruct (Hkcp _ eq_refl) as (a & Ha & _). rewrite Forall_forall in Hall. specialize (Hall _ Ha). simpl in Hall. congruence.
  - destruct (start_grows s _ _ _ E) as (new & -> & Hall & _). rewrite Forall_forall in Hall.
    intros i Hi. specialize (Hall i Hi). destruct i as [a|a|a|a c asks|a|a tls only|a t|a c]; simpl in Hall; try done.
    + intros sniffed ws hs stream m su m' Eh. rewrite Htls in Eh. by apply (tls_path _ _ _ _ _ _ _ _ eq_refl Eh).
    + by destruct Hall.
    + destruct Hall as [-> ->]. rewrite Htls, Honly. intros b. unfold classify_work_conn. by case_bool_decide.
    + congruence.
Qed.
End Start.

(** ** The QUIC client *)
Section QuicClient.
Context (load_certs load_key : string -> result string unit) (accepts : cert_source -> result string unit)
  (add_roots : string -> result string unit) (idle_fits : Z -> bool).

(** a QUIC client fails closed: it goes on without verifying the server only
    when it was told to, and then shows no certificate of its own; a client
    certificate is shown only to a server verified against the configured CA; and
    a CA or certificate that cannot be loaded is an error, never a fall back. *)
Theorem quic_client_fail_closed ca insecure cert opts c :
  build_client_config load_certs load_key accepts add_roots idle_fits ca insecure cert opts = Ok c ->
  qc_alpn c = QUIC_ALPN /\ qc_client_cert c = cert /\
  match ca with
  | Some ca => qc_server c = VerifiedBy ca /\ load_certs ca = Ok tt
  | None => qc_server c = NotVerified /\ insecure = true /\ cert = None
  end /\
  (forall p, cert = Some p -> insecure = false /\ (exists ca', qc_server c = VerifiedBy ca') /\
     load_certs p.1 = Ok tt /\ load_key p.2 = Ok tt).
Proof.
  unfold build_client_config. intros E. apply result_bind_Ok in E as ([] & Hc & E).
  assert (forall p, cert = Some p -> insecure = false /\ ConfigLoader.is_some ca = true) as Hm.
  { intros p ->. destruct (insecure || negb (is_some ca)) eqn:Eo; [done|]. apply orb_false_iff in Eo as [-> Hn].
    by apply negb_false_iff in Hn. }
  destruct ca as [ca|].
  - apply result_bind_Ok in E as ([] & Hl & E). apply result_bind_Ok in E as ([] & _ & E). destruct cert as [[cf kf]|].
    + apply result_bind_Ok in E as ([] & H1 & E). apply result_bind_Ok in E as ([] & H2 & E).
      apply result_bind_Ok in E as ([] & _ & [= <-]). simpl. split_and!; try done.
      intros p [= <-]. destruct (Hm _ eq_refl) as [-> _]. split_and!; eauto.
    + injection E as <-. by split_and!.
  - destruct insecure; [|done]. injection E as <-. simpl. destruct cert as [p|]; [by destruct (Hm _ eq_refl)|]. by split_and!.
Qed.
End QuicClient.

(** ** Runs *)

(** An operating system that refuses an address that is taken. *)
Definition addr_text (i : ingress) : string :=
  match i with
  | IWeb a | IControl a | IVhostHttp a | IVhostHttps a _ _ | ITcpmux a | IWork a _ _ => "tcp " +:+ a
  | IKcp a _ | IQuic a _ => "udp " +:+ a
  end%string.
Definition demo_bind (l : list ingress) (i : ingress) : result string unit :=
  if bool_decide (addr_text i ∈ addr_text <$> l) then Err ("address in use: " +:+ addr_text i)%string else Ok tt.
Definition demo_start (s : Server) : result string unit * list ingress :=
  start (fun a => Ok a) demo_bind (fun _ _ => Ok tt) (fun _ => Ok tt) (fun _ => Ok tt) (Ok tt) (fun _ _ => Ok tt)
    (fun _ => Ok tt) (fun _ => true) s [].

(** [demo_server] with KCP, QUIC and [tls_only]. *)
Definition demo_config (kcp quic : option Z) (tls_only mtls : bool) : ServerConfig :=
  let c := demo_server (Some "t"%string) None mtls in
  let tr := sc_transport c in
  {| sc_bind_addr := sc_bind_addr c; sc_bind_port := sc_bind_port c; sc_kcp_bind_port := kcp; sc_quic_bind_port := quic;
     sc_vhost_http_port := Some 80; sc_vhost_https_port := Some 443; sc_tcpmux_http_connect_port := Some 1337;
     sc_work_conn_port := None; sc_web_server := sc_web_server c; sc_auth := sc_auth c;
     sc_transport := {| tr_protocol := tr_protocol tr; tr_tls := tr_tls tr; tr_tcp_mux := true; tr_tls_only := tls_only;
       tr_pool_count := 0; tr_max_pool_count := None; tr_tcp_keepalive_secs := 30; tr_bandwidth_limit := None;
       tr_use_encryption := false; tr_use_compression := false; tr_quic := None; tr_wire_protocol := "v1"; tr_work_conn_via := "auto" |};
     sc_allow_ports := []; sc_max_ports_per_user := None; sc_custom_domains_allowlist := []; sc_custom_404_page := None;
     sc_log := sc_log c; sc_log_file := None; sc_log_level := None; sc_log_max_days := None; sc_includes := None;
     sc_proxies := []; sc_http_plugins := [] |}.

(** A server that demands client certificates, without [tls_only], opens KCP,
    which has neither TLS nor certificates, next to the door that rejects
    plaintext. *)
Lemma mtls_server_opens_kcp :
  let c := demo_config (Some 7001) None false true in
  plaintext_ws_must_be_rejected (tr_tls_only (sc_transport c)) (tr_tls (sc_transport c)) = true /\
  exists s l, demo_new c = Ok s /\ demo_start s = (Ok tt, l) /\ IKcp "0.0.0.0:7001" true ∈ l.
Proof.
  intros c. split; [reflexivity|]. eexists _, _. split; [vm_compute; reflexivity|]. split; [vm_compute; reflexivity|].
  apply (bool_decide_unpack _). vm_compute. exact I.
Qed.

(** A start that fails leaves the listeners it had opened, and their tasks. *)
Lemma failed_start_keeps_listening :
  let c := demo_config (Some 7001) None true true in
  exists s l, demo_new c = Ok s /\ demo_start s = (Err kcp_refused, l) /\ IWork "0.0.0.0:8000" true true ∈ l.
Proof.
  intros c. eexists _, _. split; [vm_compute; reflexivity|]. split; [vm_compute; reflexivity|].
  apply (bool_decide_unpack _). vm_compute. exact I.
Qed.

Lemma start_opens_witness : exists s l,
  demo_new (demo_config None (Some 7002) false true) = Ok s /\ demo_start s = (Ok tt, l) /\ length l = 6%nat /\
  exists a, IWork a true false ∈ l.
Proof.
  destruct (demo_new (demo_config None (Some 7002) false true)) as [s|e] eqn:Es; [|vm_compute in Es; discriminate].
  destruct (demo_start s) as [r l] eqn:El. exists s, l.
  assert (r = Ok tt /\ length l = 6%nat /\ srv_tls s = true /\ tr_tls_only (sc_transport (srv_config s)) = false) as (Hr & Hl & Ht & Ho).
  { vm_compute in Es. injection Es as <-. vm_compute in El. injection El as <- <-. split_and!; reflexivity. }
  destruct (start_opens (fun a => Ok a) demo_bind (fun _ _ => Ok tt) (fun _ => Ok tt) (fun _ => Ok tt) (Ok tt) (fun _ _ => Ok tt)
    (fun _ => Ok tt) (fun _ => true) s r l El) as [_ Hopen].
  destruct (Hopen Hr) as (_ & (a & Ha & _) & _). rewrite Ht, Ho in Ha.
  split_and!; [reflexivity|by rewrite El, Hr|exact Hl|by exists a].
Defined.

Lemma tls_only_ingress_witness : exists s r l,
  demo_new (demo_config (Some 7001) None true true) = Ok s /\ demo_start s = (r, l) /\ r <> Ok tt /\
  (forall a t, IKcp a t ∉ l).
Proof.
  destruct (demo_new (demo_config (Some 7001) None true true)) as [s|e] eqn:Es; [|vm_compute in Es; discriminate].
  destruct (demo_start s) as [r l] eqn:El. exists s, r, l.
  destruct (tls_only_ingress (fun a => Ok a) demo_bind (fun _ _ => Ok tt) (fun _ => Ok tt) (fun _ => Ok tt) (Ok tt) (fun _ _ => Ok tt)
    (fun _ => Ok tt) (fun _ => true) (fun _ _ _ _ => Ok tt) (fun _ _ => Ok tt) (demo_config (Some 7001) None true true) s r l Es eq_refl El)
    as [Hk Hall].
  split_and!; [reflexivity|exact El|apply Hk; discriminate|]. intros a t Ha. exact (Hall _ Ha).
Defined.

Lemma quic_client_fail_closed_witness : exists c,
  build_client_config (fun _ => Ok tt) (fun _ => Ok tt) (fun _ => Ok tt) (fun _ => Ok tt) (fun _ => true)
    (Some "ca.pem"%string) false (Some ("c.pem", "k.pem")%string) default_quic_options = Ok c /\
  qc_server c = VerifiedBy "ca.pem".
Proof.
  eexists. split; [reflexivity|].
  apply (quic_client_fail_closed (fun _ => Ok tt) (fun _ => Ok tt) (fun _ => Ok tt) (fun _ => Ok tt) (fun _ => true)
    (Some "ca.pem"%string) false (Some ("c.pem", "k.pem")%string) default_quic_options). reflexivity.
Defined.
