(* ===== verification/Cli.v ===== *)
(** * The client's command line (src/rust_frp_client/src/bin/rust_frpc.rs)

    The arguments as a list of strings: the command, the flags with their
    spellings, inline or separate values, and the configuration a quick run makes
    of them; the choices of the administrative commands; the files of a
    multi-instance run.  A duration is kept as the number that was written and
    the unit it is converted in, because the conversion can panic.  Loading a
    file is the argument [load], made of ConfigLoader.v's pipeline. *)
From S2P Require Import Prelude RustStd RustFmt ConfigTypes ConfigLoader Throttle ProxyProto Stun.

Definition PROXY_TYPES : list string :=
  ["tcp"; "udp"; "http"; "https"; "tcpmux"; "stcp"; "sudp"; "xtcp"; "websocket"]%string.
Definition VISITOR_TYPES : list string := ["stcp"; "sudp"; "xtcp"]%string.

Inductive Command :=
| Run
| Verify
| Reload
| Status
| Stop
| NatholeDiscover
| Proxy (t : string)
| Visitor (t : string).

#[global] Instance command_eq_dec : EqDecision Command.
Proof. solve_decision. Defined.

Record QuickOpts := {
  qk_server_addr : option string;
  qk_server_port : option Z;
  qk_token : option string;
  qk_user : option string;
  qk_name : option string;
  qk_local_ip : option string;
  qk_local_port : option Z;
  qk_remote_port : option Z;
  qk_custom_domains : list string;
  qk_subdomain : option string;
  qk_secret_key : option string;
  qk_allow_users : list string;
  qk_group : option string;
  qk_group_key : option string;
  qk_use_encryption : bool;
  qk_use_compression : bool;
  qk_plugin : option string;
  qk_server_name : option string;
  qk_bind_addr : option string;
  qk_bind_port : option Z;
  qk_stun_server : option string;
  qk_stun_local_addr : option string;
  qk_has_proxy_flag : bool;
}.

Definition default_opts : QuickOpts :=
  {| qk_server_addr := None; qk_server_port := None; qk_token := None; qk_user := None; qk_name := None;
     qk_local_ip := None; qk_local_port := None; qk_remote_port := None; qk_custom_domains := []; qk_subdomain := None;
     qk_secret_key := None; qk_allow_users := []; qk_group := None; qk_group_key := None; qk_use_encryption := false;
     qk_use_compression := false; qk_plugin := None; qk_server_name := None; qk_bind_addr := None; qk_bind_port := None;
     qk_stun_server := None; qk_stun_local_addr := None; qk_has_proxy_flag := false |}.

(** [Duration::from_millis(n as u64)], [from_secs_f64(n * 60.0)] and
    [from_secs_f64(n)]. *)
Inductive duration := DMillis (n : f64_text) | DMinutes (n : f64_text) | DSecs (n : f64_text).

Record CliArgs := {
  cli_config_path : option string;
  cli_config_dir : option string;
  cli_version : bool;
  cli_api_timeout : duration;
  cli_strict_config : bool;
  cli_opts : QuickOpts;
}.

Definition default_cli : CliArgs :=
  {| cli_config_path := None; cli_config_dir := None; cli_version := false; cli_api_timeout := DSecs (FDec false 30 0);
     cli_strict_config := true; cli_opts := default_opts |}.

Definition USAGE : string :=
  "usage: frpc [verify|reload|status|stop|nathole discover|<proxy_type> [visitor]] [-c config_path] [--config_dir dir] [-v] [--api-timeout secs]".

Definition split_flag (arg : string) : string * option string :=
  match split_once "=" arg with
  | Some (k, v) => (k, Some v)
  | None => (arg, None)
  end.

(** ** Values *)

(** [n < 0.0] of the nearest double: negative numbers that round to zero are
    not below it. *)
Definition f64_negative (v : f64_text) : bool :=
  match v with
  | FDec true m e => bool_decide (10 ^ Z.max 0 (- e) < m * 10 ^ Z.max 0 e * 2 ^ 1075)
  | FInf neg => neg
  | _ => false
  end.
Definition f64_finite (v : f64_text) : bool :=
  match v with
  | FDec _ m e => bool_decide (m * 10 ^ Z.max 0 e < (2 ^ 1024 - 2 ^ 970) * 10 ^ Z.max 0 (- e))
  | _ => false
  end.

Definition parse_duration (raw : string) : result string duration :=
  let s := trim raw in
  let '(num, unit) :=
    match strip_suffix "ms" s with
    | Some v => (v, DMillis)
    | None => match strip_suffix "s" s with
              | Some v => (v, DSecs)
              | None => match strip_suffix "m" s with
                        | Some v => (v, DMinutes)
                        | None => (s, DSecs)
                        end
              end
    end in
  match parse_f64 (trim num) with
  | None => Err ("invalid duration: " +:+ raw)%string
  | Some n => if f64_negative n || negb (f64_finite n) then Err ("invalid duration: " +:+ raw)%string else Ok (unit n)
  end.

(** [Duration::from_secs_f64] panics from 2^64 seconds on. *)
Definition duration_panics (d : duration) : bool :=
  let too_big m e k := bool_decide (2 ^ 64 * 10 ^ Z.max 0 (- e) <= k * m * 10 ^ Z.max 0 e) in
  match d with
  | DSecs (FDec false m e) => too_big m e 1
  | DMinutes (FDec false m e) => too_big m e 60
  | _ => false
  end.

Definition parse_u16 (raw flag : string) : result string Z :=
  match parse_unsigned 16 (trim raw) with
  | Some n => Ok n
  | None => Err (flag +:+ " expects a number in 0..65535, got: " +:+ raw)%string
  end.

Definition split_list (raw : string) : list string :=
  filter (fun s => is_empty s = false) (trim <$> split_char "," raw).

(** ** The flags *)
Inductive flag :=
| FConfig | FConfigDir | FVersion | FApiTimeout | FStrictConfig
| FServerAddr | FServerPort | FToken | FUser | FName | FLocalIp | FLocalPort | FRemotePort | FCustomDomains | FSubdomain
| FSecretKey | FAllowUsers | FGroup | FGroupKey | FUseEncryption | FUseCompression | FPlugin | FServerName
| FBindAddr | FBindPort | FStunServer | FStunLocalAddr.

#[global] Instance flag_eq_dec : EqDecision flag.
Proof. solve_decision. Defined.

(** The arms of the match, in order. *)
Definition spellings : list (flag * list string) :=
  [ (FConfig, ["-c"; "--config"]); (FConfigDir, ["--config_dir"; "--config-dir"]); (FVersion, ["-v"; "--version"]);
    (FApiTimeout, ["--api-timeout"]); (FStrictConfig, ["--strict_config"; "--strict-config"]);
    (FServerAddr, ["-s"; "--server_addr"; "--serverAddr"]); (FServerPort, ["-p"; "--server_port"; "--serverPort"]);
    (FToken, ["-t"; "--token"]); (FUser, ["-u"; "--user"]); (FName, ["-n"; "--name"]);
    (FLocalIp, ["--local_ip"; "--localIP"]); (FLocalPort, ["--local_port"; "--localPort"]);
    (FRemotePort, ["--remote_port"; "--remotePort"]); (FCustomDomains, ["--custom_domains"; "--customDomains"]);
    (FSubdomain, ["--subdomain"; "--subDomain"]); (FSecretKey, ["--secret_key"; "--secretKey"]);
    (FAllowUsers, ["--allow_users"; "--allowUsers"]); (FGroup, ["--group"]); (FGroupKey, ["--group_key"; "--groupKey"]);
    (FUseEncryption, ["--use_encryption"; "--useEncryption"]); (FUseCompression, ["--use_compression"; "--useCompression"]);
    (FPlugin, ["--plugin"]); (FServerName, ["--server_name"; "--serverName"]); (FBindAddr, ["--bind_addr"; "--bindAddr"]);
    (FBindPort, ["--bind_port"; "--bindPort"]); (FStunServer, ["--nat_hole_stun_server"; "--natHoleStunServer"]);
    (FStunLocalAddr, ["-l"; "--nat_hole_local_addr"; "--natHoleLocalAddr"]) ]%string.

Definition flag_of (key : string) : option flag :=
  fst <$> find (fun x => bool_decide (key ∈ x.2)) spellings.

Definition takes_value (f : flag) : bool :=
  match f with FVersion | FStrictConfig | FUseEncryption | FUseCompression => false | _ => true end.

(** The arms that set [has_proxy_flag]. *)
Definition proxy_flag (f : flag) : bool :=
  match f with
  | FConfig | FConfigDir | FVersion | FApiTimeout | FStrictConfig | FServerPort | FToken | FUser | FStunServer | FStunLocalAddr => false
  | _ => true
  end.

(** The option a flag sets: to a text, a port, a longer list or [true]. *)
Definition set_opt (f : flag) (text : option string) (port : option Z) (items : list string) (o : QuickOpts) : QuickOpts :=
  let str f' old := if decide (f = f') then text else old in
  let num f' old := if decide (f = f') then port else old in
  let more f' old := if decide (f = f') then old ++ items else old in
  let on f' old := if decide (f = f') then true else old in
  {| qk_server_addr := str FServerAddr (qk_server_addr o); qk_server_port := num FServerPort (qk_server_port o);
     qk_token := str FToken (qk_token o); qk_user := str FUser (qk_user o); qk_name := str FName (qk_name o);
     qk_local_ip := str FLocalIp (qk_local_ip o); qk_local_port := num FLocalPort (qk_local_port o);
     qk_remote_port := num FRemotePort (qk_remote_port o); qk_custom_domains := more FCustomDomains (qk_custom_domains o);
     qk_subdomain := str FSubdomain (qk_subdomain o); qk_secret_key := str FSecretKey (qk_secret_key o);
     qk_allow_users := more FAllowUsers (qk_allow_users o); qk_group := str FGroup (qk_group o);
     qk_group_key := str FGroupKey (qk_group_key o); qk_use_encryption := on FUseEncryption (qk_use_encryption o);
     qk_use_compression := on FUseCompression (qk_use_compression o); qk_plugin := str FPlugin (qk_plugin o);
     qk_server_name := str FServerName (qk_server_name o); qk_bind_addr := str FBindAddr (qk_bind_addr o);
     qk_bind_port := num FBindPort (qk_bind_port o); qk_stun_server := str FStunServer (qk_stun_server o);
     qk_stun_local_addr := str FStunLocalAddr (qk_stun_local_addr o);
     qk_has_proxy_flag := proxy_flag f || qk_has_proxy_flag o |}.

Definition with_opts (o : QuickOpts) (c : CliArgs) : CliArgs :=
  {| cli_config_path := cli_config_path c; cli_config_dir := cli_config_dir c; cli_version := cli_version c;
     cli_api_timeout := cli_api_timeout c; cli_strict_config := cli_strict_config c; cli_opts := o |}.

(** The arm of a flag with its value. *)
Definition set_value (f : flag) (key v : string) (c : CliArgs) : result string CliArgs :=
  let text := Ok (with_opts (set_opt f (Some v) None [] (cli_opts c)) c) in
  let number := p ← parse_u16 v key; Ok (with_opts (set_opt f None (Some p) [] (cli_opts c)) c) in
  match f with
  | FConfig => Ok {| cli_config_path := Some v; cli_config_dir := cli_config_dir c; cli_version := cli_version c;
                     cli_api_timeout := cli_api_timeout c; cli_strict_config := cli_strict_config c; cli_opts := cli_opts c |}
  | FConfigDir => Ok {| cli_config_path := cli_config_path c; cli_config_dir := Some v; cli_version := cli_version c;
                     cli_api_timeout := cli_api_timeout c; cli_strict_config := cli_strict_config c; cli_opts := cli_opts c |}
  | FApiTimeout => d ← parse_duration v;
      Ok {| cli_config_path := cli_config_path c; cli_config_dir := cli_config_dir c; cli_version := cli_version c;
            cli_api_timeout := d; cli_strict_config := cli_strict_config c; cli_opts := cli_opts c |}
  | FServerPort | FLocalPort | FRemotePort | FBindPort => number
  | FCustomDomains | FAllowUsers => Ok (with_opts (set_opt f None None (split_list v) (cli_opts c)) c)
  | _ => text
  end.

(** The arm of a flag without one; only [--strict_config] looks at an inline
    value. *)
Definition set_switch (f : flag) (inline : option string) (c : CliArgs) : CliArgs :=
  match f with
  | FVersion => {| cli_config_path := cli_config_path c; cli_config_dir := cli_config_dir c; cli_version := true;
                   cli_api_timeout := cli_api_timeout c; cli_strict_config := cli_strict_config c; cli_opts := cli_opts c |}
  | FStrictConfig =>
      {| cli_config_path := cli_config_path c; cli_config_dir := cli_config_dir c; cli_version := cli_version c;
         cli_api_timeout := cli_api_timeout c;
         cli_strict_config := match inline with
                              | Some v => bool_decide (v ∈ ["true"; "1"; "TRUE"; "True"]%string)
                              | None => true
                              end;
         cli_opts := cli_opts c |}
  | _ => with_opts (set_opt f None None [] (cli_opts c)) c
  end.

Fixpoint parse_flags (args : list string) (c : CliArgs) : result string CliArgs :=
  match args with
  | [] => Ok c
  | arg :: rest =>
      let '(key, inline) := split_flag arg in
      match flag_of key with
      | None => Err ("unknown argument: " +:+ key +:+ nl +:+ USAGE)%string
      | Some f =>
          if takes_value f then
            match inline, rest with
            | Some v, _ => c ← set_value f key v c; parse_flags rest c
            | None, v :: rest => c ← set_value f key v c; parse_flags rest c
            | None, [] => Err (key +:+ " requires a value")%string
            end
          else parse_flags rest (set_switch f inline c)
      end
  end.

(** The command and the arguments that are left. *)
Definition parse_command (args : list string) : result string (Command * list string) :=
  match args with
  | [] => Ok (Run, [])
  | first :: rest =>
      if decide (first = "verify"%string) then Ok (Verify, rest)
      else if decide (first = "reload"%string) then Ok (Reload, rest)
      else if decide (first = "status"%string) then Ok (Status, rest)
      else if decide (first = "stop"%string) then Ok (Stop, rest)
      else if decide (first = "nathole"%string) then
        match rest with
        | second :: rest =>
            if decide (second = "discover"%string) then Ok (NatholeDiscover, rest)
            else Err ("unknown nathole subcommand: " +:+ second +:+ nl +:+
                      "usage: frpc nathole discover [--nat_hole_stun_server <addr>] [-l <local_addr>]")%string
        | [] => Err ("unknown nathole subcommand: <missing>" +:+ nl +:+
                     "usage: frpc nathole discover [--nat_hole_stun_server <addr>] [-l <local_addr>]")%string
        end
      else if bool_decide (first ∈ PROXY_TYPES) then
        match rest with
        | second :: rest' =>
            if bool_decide (first ∈ VISITOR_TYPES) && bool_decide (second = "visitor"%string)
            then Ok (Visitor first, rest') else Ok (Proxy first, rest)
        | [] => Ok (Proxy first, [])
        end
      else Ok (Run, args)
  end.

Definition misused : string := ("proxy flags can not be used together with -c/--config" +:+ nl +:+ USAGE)%string.

Definition parse_args (args : list string) : result string (Command * CliArgs) :=
  '(command, rest) ← parse_command args;
  c ← parse_flags rest default_cli;
  if bool_decide (command = Run \/ command = Verify) && qk_has_proxy_flag (cli_opts c) && is_some (cli_config_path c)
  then Err misused else Ok (command, c).

(** ** Quick runs *)
Definition non_empty (v : list string) : option (list string) := match v with [] => None | _ => Some v end.

Definition quick_auth (o : QuickOpts) (a : AuthConfig) : AuthConfig :=
  match qk_token o with
  | Some t =>
      {| au_method := "token"; au_token := Some t; au_token_source := au_token_source a;
         au_additional_scopes := au_additional_scopes a; au_client_id_policy := au_client_id_policy a;
         au_login_max_failures := au_login_max_failures a; au_login_lockout_secs := au_login_lockout_secs a;
         au_kick_require_same_cert := au_kick_require_same_cert a; au_oidc := au_oidc a |}
  | None => a
  end.

Definition quick_base (o : QuickOpts) (proxies : list ProxyConfig) (visitors : list VisitorConfig) : ClientConfig :=
  let d := default_client in
  {| cc_server_addr := default (cc_server_addr d) (qk_server_addr o);
     cc_server_port := default (cc_server_port d) (qk_server_port o); cc_work_conn_port := cc_work_conn_port d;
     cc_user := match qk_user o with Some u => Some u | None => cc_user d end; cc_client_id := cc_client_id d;
     cc_web_server := cc_web_server d; cc_auth := quick_auth o (cc_auth d); cc_transport := cc_transport d;
     cc_proxies := proxies; cc_visitors := visitors; cc_log := cc_log d; cc_log_file := cc_log_file d;
     cc_log_level := cc_log_level d; cc_log_max_days := cc_log_max_days d; cc_includes := cc_includes d |}.

Definition quick_plugin (ty : string) : PluginConfig :=
  {| pl_type := ty; pl_unix_path := None; pl_local_path := None; pl_strip_prefix := None; pl_http_user := None;
     pl_http_password := None; pl_username := None; pl_password := None; pl_local_addr := None; pl_crt_path := None;
     pl_key_path := None; pl_host_header_rewrite := None; pl_request_headers := None |}.

Definition quick_proxy (t : string) (o : QuickOpts) : ProxyConfig :=
  let d := default_proxy in
  {| px_name := default t (qk_name o); px_type := t; px_local_ip := default "127.0.0.1"%string (qk_local_ip o);
     px_local_port := default 0 (qk_local_port o); px_remote_port := qk_remote_port o;
     px_custom_domains := non_empty (qk_custom_domains o); px_subdomain := qk_subdomain o; px_locations := px_locations d;
     px_host_header_rewrite := px_host_header_rewrite d; px_http_user := px_http_user d; px_http_password := px_http_password d;
     px_health_check := px_health_check d; px_bandwidth_limit := px_bandwidth_limit d; px_secret_key := qk_secret_key o;
     px_transport := px_transport d; px_plugin := quick_plugin <$> qk_plugin o; px_proxy_protocol := px_proxy_protocol d;
     px_proxy_protocol_version := px_proxy_protocol_version d; px_group := qk_group o; px_group_key := qk_group_key o;
     px_use_encryption := qk_use_encryption o; px_use_compression := qk_use_compression o; px_multiplexer := px_multiplexer d;
     px_route_by_http_user := px_route_by_http_user d; px_allow_users := non_empty (qk_allow_users o) |}.

Definition quick_visitor (t : string) (o : QuickOpts) : VisitorConfig :=
  {| vi_name := default (t +:+ "-visitor")%string (qk_name o); vi_type := t; vi_server_name := default EmptyString (qk_server_name o);
     vi_secret_key := qk_secret_key o; vi_bind_addr := default "127.0.0.1"%string (qk_bind_addr o);
     vi_bind_port := default 0 (qk_bind_port o); vi_transport := None;
     vi_use_encryption := qk_use_encryption o; vi_use_compression := qk_use_compression o |}.

(** [run_quick] up to [Client::new]. *)
Definition run_quick (command : Command) (o : QuickOpts) : result string ClientConfig :=
  match command with
  | Proxy t =>
      if negb (is_some (qk_plugin o)) && bool_decide (default 0 (qk_local_port o) = 0)
      then Err (t +:+ " proxy requires --local_port (or --plugin) in quick-run mode")%string
      else Ok (quick_base o [quick_proxy t o] [])
  | Visitor t =>
      if is_empty (default EmptyString (qk_server_name o))
      then Err (t +:+ " visitor requires --server_name (the proxy name to visit)")%string
      else if bool_decide (default 0 (qk_bind_port o) = 0) then Err (t +:+ " visitor requires --bind_port")%string
      else Ok (quick_base o [] [quick_visitor t o])
  | _ => Err "internal error: run_quick called with non quick-run command"%string
  end.

(** ** The other commands *)
Definition default_config_path (p : option string) : string := default "frpc.toml"%string p.

Definition resolved_log_default : ResolvedLog := {| rl_to := None; rl_level := None; rl_max_days := DEFAULT_LOG_MAX_DAYS |}.

(** What [main] does once the arguments are read. *)
Inductive job :=
| JVersion
| JVerify (path : string)
| JAdmin (method url path : string) (timeout : duration)
| JDiscover (o : QuickOpts)
| JQuick (command : Command) (o : QuickOpts)
| JDir (dir : string)
| JClient (path : string).

(** [main]; an error of the arguments is exit code 2. *)
Definition main_job (args : list string) : result Z (job * bool) :=
  match parse_args args with
  | Err _ => Err 2
  | Ok (command, c) =>
      let path := default_config_path (cli_config_path c) in
      Ok (if cli_version c then JVersion else
          match command with
          | Verify => JVerify path
          | Reload => JAdmin "POST" "/reload" path (cli_api_timeout c)
          | Status => JAdmin "GET" "/status" path (cli_api_timeout c)
          | Stop => JAdmin "POST" "/stop" path (cli_api_timeout c)
          | NatholeDiscover => JDiscover (cli_opts c)
          | Proxy _ | Visitor _ => JQuick command (cli_opts c)
          | Run => match cli_config_dir c with Some d => JDir d | None => JClient path end
          end, cli_strict_config c)
  end.

Section WithFiles.
(** [ConfigLoader::load_client_config_strict]; [fs::read_dir] with the
    entries that could not be read, and whether one is a file; and the path
    of a name in a directory. *)
Context (load : string -> bool -> result string ClientConfig).
Context (read_dir : string -> option (list (option (string * bool)))).
Context (join : string -> string -> string).

(** [load_config_or_exit]: an error is the exit code. *)
Definition load_config_or_exit (path : string) (strict : bool) : result Z ClientConfig :=
  match load path strict with Ok c => Ok c | Err _ => Err 1 end.

Definition run_verify (path : string) (strict : bool) : result Z (nat * nat) :=
  match load path strict with
  | Ok c => Ok (length (cc_proxies c), length (cc_visitors c))
  | Err _ => Err 1
  end.

Definition peek_log_settings (path : string) (strict : bool) : ResolvedLog :=
  match load path strict with Ok c => client_resolved_log c | Err _ => resolved_log_default end.

(** Paths in one directory are ordered like their names. *)
Definition list_config_files (dir : string) : option (list string) :=
  match read_dir dir with
  | Some entries =>
      Some (join dir <$> stable_sort (fun a b => String.leb a b)
             (fst <$> filter (fun e : string * bool => e.2 = true) (omap id entries)))
  | None => None
  end.

Definition peek_log_settings_from_dir (dir : string) (strict : bool) : ResolvedLog :=
  match list_config_files dir with
  | Some (path :: _) => peek_log_settings path strict
  | _ => resolved_log_default
  end.

Definition main_log (j : job) (strict : bool) : ResolvedLog :=
  match j with
  | JDir d => peek_log_settings_from_dir d strict
  | JClient p => peek_log_settings p strict
  | _ => resolved_log_default
  end.

(** What [run_admin] sends, and its exit code for what came back ([None]: not
    in time). *)
Record AdminRequest := {
  ar_addr : string;
  ar_port : Z;
  ar_method : string;
  ar_url : string;
  ar_auth : option (string * string);
}.

Definition admin_auth (w : WebServerConfig) : option (string * string) :=
  match ws_user w, ws_password w with
  | Some u, Some p => if negb (is_empty u) && negb (is_empty p) then Some (u, p) else None
  | _, _ => None
  end.

Definition run_admin (path : string) (strict : bool) (method url : string) : result Z AdminRequest :=
  c ← load_config_or_exit path strict;
  let w := cc_web_server c in
  if bool_decide (ws_port w = 0) then Err 1
  else Ok {| ar_addr := ws_addr w; ar_port := ws_port w; ar_method := method; ar_url := url; ar_auth := admin_auth w |}.

Definition admin_exit (answer : option (result string (Z * string))) : Z :=
  match answer with Some (Ok (200, _)) => 0 | _ => 1 end.

(** [run_multiple_clients]: the instances in the order their tasks first run,
    each until it loaded its file.  [load_config_or_exit] ends the process. *)
Fixpoint start_instances (strict : bool) (order : list string) (running : list (string * ClientConfig))
  : list (string * ClientConfig) * option Z :=
  match order with
  | [] => (running, None)
  | path :: rest =>
      match load_config_or_exit path strict with
      | Ok c => start_instances strict rest (running ++ [(path, c)])
      | Err code => (running, Some code)
      end
  end.

(** [schedule] orders the tasks. *)
Definition run_multiple_clients (schedule : list string -> list string) (dir : string) (strict : bool)
  : list (string * ClientConfig) * option Z :=
  match list_config_files dir with
  | None | Some [] => ([], Some 1)
  | Some paths => start_instances strict (schedule paths) []
  end.
End WithFiles.

(** ** [nathole discover] *)
Section Discover.
(** [discover_from_server]: the answer to the n-th probe, sent to a server. *)
Context (probe : nat -> socket_addr -> option socket_addr).

Fixpoint probe_servers (n : nat) (servers : list socket_addr) : list socket_addr :=
  match servers with
  | [] => []
  | s :: rest => match probe n s with Some a => a :: probe_servers (S n) rest | None => probe_servers (S n) rest end
  end.

(** The second loop, with the probes that were sent; [None] when the fuel is
    used up. *)
Fixpoint fill_samples (fuel n : nat) (first : option socket_addr) (addrs : list socket_addr)
  : option (list socket_addr * nat) :=
  if decide (length addrs < 2)%nat then
    match fuel, first with
    | O, _ => None
    | _, None => Some (addrs, n)
    | S fuel, Some s => match probe n s with
                        | Some a => fill_samples fuel (S n) first (addrs ++ [a])
                        | None => Some (addrs, S n)
                        end
    end
  else Some (addrs, n).

Definition discover_fuel : nat := 2.

(** [run_nathole_discover] from the servers on: the samples, the feature and
    the number of probes; an error is exit code 1. *)
Definition run_nathole_discover (servers : list socket_addr) (local_ip : option ip_addr)
  : option (result Z (list socket_addr * NatFeature) * nat) :=
  match servers with
  | [] => Some (Err 1, O)
  | first :: _ =>
      '(addrs, n) ← fill_samples discover_fuel (length servers) (Some first) (probe_servers 0 servers);
      Some (if decide (length addrs < 2)%nat then Err 1 else
            match classify_nat_feature addrs local_ip with Ok f => Ok (addrs, f) | Err _ => Err 1 end, n)
  end.
End Discover.

(** ** Reading back what was written *)

(** One flag as a user writes it: a value after [=] or as the next argument, or
    a switch. *)
Inductive setting :=
| Valued (key v : string) (inline : bool)
| Switch (key : string) (inline : option string).

Definition render (s : setting) : list string :=
  match s with
  | Valued key v true | Switch key (Some v) => [(key +:+ "=" +:+ v)%string]
  | Valued key v false => [key; v]
  | Switch key None => [key]
  end.

Definition setting_ok (s : setting) : Prop :=
  match s with
  | Valued key _ _ => takes_value <$> flag_of key = Some true
  | Switch key _ => takes_value <$> flag_of key = Some false
  end.

Definition apply_setting (s : setting) (c : CliArgs) : result string CliArgs :=
  match s with
  | Valued key v _ => match flag_of key with Some f => set_value f key v c | None => Ok c end
  | Switch key inline => match flag_of key with Some f => Ok (set_switch f inline c) | None => Ok c end
  end.

Fixpoint apply_settings (ss : list setting) (c : CliArgs) : result string CliArgs :=
  match ss with [] => Ok c | s :: ss => c ← apply_setting s c; apply_settings ss c end.

Lemma flag_of_key key f : flag_of key = Some f -> contains_char "=" key = false.
Proof.
  unfold flag_of. destruct (find _ spellings) as [x|] eqn:E; [|done]. intros _.
  apply List.find_some in E as [Hx Hk]. apply bool_decide_eq_true in Hk.
  assert (H : Forall (fun x => Forall (fun k => contains_char "=" k = false) x.2) spellings)
    by (rewrite <- (bool_decide_eq_true _); vm_compute; reflexivity).
  rewrite Forall_forall in H. specialize (H x ltac:(by apply list_elem_of_In)).
  rewrite Forall_forall in H. by apply H.
Qed.

Lemma split_once_none c a : contains_char c a = false -> split_once (String c EmptyString) a = None.
Proof.
  induction a as [|d a IH]; intros H; [done|]; simpl in *.
  destruct (decide (d = c)); [done|]. destruct (decide (c = d)); [congruence|]. by rewrite IH.
Qed.

(** Adding an inline value to a key, or nothing, splits back. *)
Lemma split_flag_inline key f v : flag_of key = Some f -> split_flag (key +:+ "=" +:+ v)%string = (key, Some v).
Proof. intros H%flag_of_key. unfold split_flag. change ("=" +:+ v)%string with (String "=" v). by rewrite (split_once_char "=" key v H). Qed.
Lemma split_flag_bare key f : flag_of key = Some f -> split_flag key = (key, None).
Proof. intros H%flag_of_key. unfold split_flag. by rewrite (split_once_none _ _ H). Qed.

Lemma parse_setting s rest c : setting_ok s ->
  parse_flags (render s ++ rest) c = (c ← apply_setting s c; parse_flags rest c).
Proof.
  destruct s as [key v [|]|key [v|]]; cbn [setting_ok render app apply_setting parse_flags];
    intros H; destruct (flag_of key) as [f|] eqn:Ef; try done;
    injection H as Ht.
  - rewrite (split_flag_inline _ _ _ Ef), ?Ef, Ht. reflexivity.
  - rewrite (split_flag_bare _ _ Ef), ?Ef, Ht. reflexivity.
  - rewrite (split_flag_inline _ _ _ Ef), ?Ef, Ht. reflexivity.
  - rewrite (split_flag_bare _ _ Ef), ?Ef, Ht. reflexivity.
Qed.

(** Flags are read back as they were written.  For every list of flags in
    any of their spellings, each with an arbitrary value (text that starts with
    a dash or holds equals signs too) joined to it by = or in the next argument,
    and after every command word, [parse_args] applies exactly those settings in
    their order: no value is taken for a flag, none is lost, and the first value
    that is refused decides the error. *)
Theorem cli_roundtrip (words : list string) (command : Command) (ss : list setting) :
  parse_command (words ++ concat (render <$> ss)) = Ok (command, concat (render <$> ss)) ->
  Forall setting_ok ss ->
  parse_args (words ++ concat (render <$> ss)) =
    (c ← apply_settings ss default_cli;
     if bool_decide (command = Run \/ command = Verify) && qk_has_proxy_flag (cli_opts c) && is_some (cli_config_path c)
     then Err misused else Ok (command, c)).
Proof.
  intros Hw Hok. unfold parse_args. rewrite Hw. cbn [mbind result_bind].
  assert (H : forall c, parse_flags (concat (render <$> ss)) c = apply_settings ss c); [|by rewrite H].
  clear Hw. induction Hok as [|s ss Hs _ IH]; intros c; [done|]. rewrite fmap_cons. cbn [concat].
  rewrite parse_setting by done. cbn [apply_settings].
  destruct (apply_setting s c) as [c'|e]; [apply IH|done].
Qed.

(** ** Discovery ends *)
Lemma probe_servers_length probe n servers : (length (probe_servers probe n servers) <= length servers)%nat.
Proof.
  revert n; induction servers as [|s servers IH]; intros n; simpl; [lia|].
  specialize (IH (S n)). destruct (probe n s); simpl; lia.
Qed.

Lemma probe_servers_elem probe n servers a :
  a ∈ probe_servers probe n servers -> exists k s, s ∈ servers /\ probe k s = Some a.
Proof.
  revert n; induction servers as [|s servers IH]; intros n; simpl; [by intros ?%elem_of_nil|].
  destruct (probe n s) as [b|] eqn:E; [intros [->|H]%elem_of_cons|intros H].
  - exists n, s. split; [apply elem_of_cons; by left|done].
  - destruct (IH _ H) as (k & s' & Hs & Hp). exists k, s'. split; [apply elem_of_cons; by right|done].
  - destruct (IH _ H) as (k & s' & Hs & Hp). exists k, s'. split; [apply elem_of_cons; by right|done].
Qed.

Lemma fill_samples_spec probe s addrs : forall fuel n, (2 <= length addrs + fuel)%nat ->
  exists more m, fill_samples probe fuel n (Some s) addrs = Some (addrs ++ more, m) /\ (m <= n + fuel)%nat /\
    forall a, a ∈ more -> exists k, probe k s = Some a.
Proof.
  intros fuel; revert addrs; induction fuel as [|fuel IH]; intros addrs n Hl; simpl; destruct (decide _) as [Hd|Hd].
  - lia.
  - exists [], n. rewrite app_nil_r. split_and!; [done|lia|by intros a ?%elem_of_nil].
  - destruct (probe n s) as [a|] eqn:E.
    + destruct (IH (addrs ++ [a]) (S n)) as (more & m & -> & Hm & Hp); [rewrite length_app; simpl; lia|].
      exists (a :: more), m. rewrite <- app_assoc. split_and!; [done|lia|].
      intros b [->|Hb]%elem_of_cons; eauto.
    + exists [], (S n). rewrite app_nil_r. split_and!; [done|lia|by intros a ?%elem_of_nil].
  - exists [], n. rewrite app_nil_r. split_and!; [done|lia|by intros a ?%elem_of_nil].
Qed.

(** [frpc nathole discover] always ends, whatever the network answers: it
    sends at most two probes more than there are servers, and a classification is
    only printed for at least two addresses, every one of them what a probe to one
    of the servers was answered with. *)
Theorem discover_ends probe servers local_ip :
  exists r n, run_nathole_discover probe servers local_ip = Some (r, n) /\ (n <= length servers + 2)%nat /\
    match r with
    | Ok (addrs, f) => (2 <= length addrs)%nat /\ classify_nat_feature addrs local_ip = Ok f /\
        forall a, a ∈ addrs -> exists k s, s ∈ servers /\ probe k s = Some a
    | Err code => code = 1
    end.
Proof.
  destruct servers as [|first servers]; [exists (Err 1), O; split_and!; [done|lia|done]|]. unfold run_nathole_discover.
  set (l := probe_servers probe 0 (first :: servers)).
  destruct (fill_samples_spec probe first l discover_fuel (length (first :: servers))) as (more & m & -> & Hm & Hp);
    [unfold discover_fuel; lia|].
  cbn [mbind option_bind]. do 2 eexists. split; [reflexivity|]. split; [done|].
  destruct (decide _) as [|Hl]; [done|]. destruct (classify_nat_feature _ _) as [f|e] eqn:Ef; [|done].
  split_and!; [lia|done|]. intros a [Ha|Ha]%elem_of_app.
  - by eapply probe_servers_elem.
  - destruct (Hp _ Ha) as [k Hk]. exists k, first. split; [apply elem_of_cons; by left|done].
Qed.

(** ** Several instances *)
Section Instances.
Context (load : string -> bool -> result string ClientConfig) (strict : bool).

Definition loads (path : string) : bool := match load path strict with Ok _ => true | Err _ => false end.

(** The instances run if every file loads; one file that does not ends the
    process. *)
Lemma start_instances_spec order running :
  if forallb loads order
  then exists cs, start_instances load strict order running = (running ++ zip order cs, None) /\
         Forall2 (fun p c => load p strict = Ok c) order cs
  else (start_instances load strict order running).2 = Some 1.
Proof.
  revert running; induction order as [|p order IH]; intros running; simpl.
  - exists []. by rewrite app_nil_r.
  - unfold loads at 1, load_config_or_exit. destruct (load p strict) as [c|e] eqn:E; simpl; [|done].
    specialize (IH (running ++ [(p, c)])). destruct (forallb loads order); [|done].
    destruct IH as (cs & -> & Hc). exists (c :: cs). rewrite <- app_assoc. split; [done|by constructor].
Qed.
End Instances.

Lemma forallb_Permutation {A} (f : A -> bool) l l' : l ≡ₚ l' -> forallb f l = forallb f l'.
Proof.
  induction 1 as [|x l l' _ IH|x y l|l l' l'' _ IH _ IH']; simpl; [done|by rewrite IH| |congruence].
  by destruct (f x), (f y).
Qed.

(** Clients from a directory.  Every regular file of the directory, and
    nothing else, is an instance with the configuration that was loaded from it,
    in whatever order the tasks run, and the process goes on; but only if every
    one of them loads.  A single file that does not load ends the whole process
    with exit code 1, and so does a directory without files. *)
Theorem instances_all_or_exit load read_dir join schedule dir strict names :
  (forall l, schedule l ≡ₚ l) ->
  read_dir dir = Some names ->
  let files := join dir <$> omap (fun e => match e with Some (f, true) => Some f | _ => None end) names in
  let '(running, exit) := run_multiple_clients load read_dir join schedule dir strict in
  if bool_decide (files <> []) && forallb (loads load strict) files
  then exit = None /\ running.*1 ≡ₚ files /\ Forall (fun pc => load pc.1 strict = Ok pc.2) running
  else exit = Some 1.
Proof.
  intros Hs Hd files. unfold run_multiple_clients, list_config_files. rewrite Hd.
  set (sorted := join dir <$> _).
  assert (Hp : sorted ≡ₚ files).
  { unfold sorted, files. apply fmap_Permutation. rewrite stable_sort_perm. clear.
    induction names as [|[[f [|]]|] names IH]; simpl; [done|..]; try by rewrite IH. }
  destruct sorted as [|p sorted'] eqn:E.
  { apply Permutation_nil in Hp. by rewrite Hp. }
  rewrite bool_decide_true by (intros Hf; rewrite Hf in Hp; by apply Permutation_nil_r in Hp).
  cbn [andb]. rewrite <- E in *. clear E p sorted'.
  pose proof (start_instances_spec load strict (schedule sorted) []) as H.
  rewrite (forallb_Permutation _ (schedule sorted) files) in H by (by rewrite Hs).
  destruct (forallb _ files).
  - destruct H as (cs & -> & Hc). cbn [app]. split_and!; [done| |].
    + rewrite fst_zip by (by rewrite (Forall2_length _ _ _ Hc)). by rewrite Hs.
    + revert Hc. generalize (schedule sorted). clear. intros l Hc. induction Hc; constructor; done.
  - by destruct (start_instances _ _ _ _).
Qed.

(** One bad file among good ones: nobody runs, contrary to the comment on
    [run_multiple_clients]. *)
Definition one_bad (path : string) (_ : bool) : result string ClientConfig :=
  if decide (path = "d/b.toml"%string) then Err "syntax error"%string else Ok default_client.
Definition three_files (_ : string) : option (list (option (string * bool))) :=
  Some [Some ("c.toml", true); Some ("sub", false); Some ("a.toml", true); Some ("b.toml", true)]%string.
Definition with_slash (d f : string) : string := (d +:+ "/" +:+ f)%string.

Example one_bad_file_ends_all :
  (run_multiple_clients one_bad three_files with_slash id "d" true).2 = Some 1 /\
  (run_multiple_clients one_bad three_files with_slash id "d" true).1.*1 = ["d/a.toml"%string].
Proof. split; vm_compute; reflexivity. Qed.

(** A switch with a value is switched on whatever the value says. *)
Example switch_off_switches_on :
  qk_use_encryption ∘ cli_opts ∘ snd <$> parse_args ["tcp"; "--use_encryption=false"]%string = Ok true.
Proof. vm_compute. reflexivity. Qed.

(** Proxy flags without a configuration path are accepted and dropped. *)
Example proxy_flags_ignored :
  main_job ["--local_port"; "22"; "--remote_port"; "6000"]%string = Ok (JClient "frpc.toml", true).
Proof. vm_compute. reflexivity. Qed.

(** A time limit that [Duration] can not hold. *)
Example api_timeout_panics :
  match parse_duration "1e300" with Ok d => duration_panics d | Err _ => false end = true.
Proof. vm_compute. reflexivity. Qed.

(** A quick run is not checked: no file with this configuration would load. *)
Example quick_run_unchecked :
  match '(command, c) ← parse_args ["tcp"; "--local_port"; "22"; "-p"; "0"; "-s"; ""]%string; run_quick command (cli_opts c) with
  | Ok c => is_some (match validate_client_config c with Ok _ => None | Err e => Some e end)
  | Err _ => false
  end = true.
Proof. vm_compute. reflexivity. Qed.

Lemma cli_roundtrip_witness :
  parse_args ["stcp"; "visitor"; "--server_name"; "-s=x"; "--bindPort=9000"; "--secret_key=a=b"]%string =
    (c ← apply_settings [Valued "--server_name" "-s=x" false; Valued "--bindPort" "9000" true;
                         Valued "--secret_key" "a=b" true]%string default_cli;
     if bool_decide (Visitor "stcp" = Run \/ Visitor "stcp" = Verify) && qk_has_proxy_flag (cli_opts c) && is_some (cli_config_path c)
     then Err misused else Ok (Visitor "stcp", c)) /\
  (qk_server_name ∘ cli_opts ∘ snd <$>
     parse_args ["stcp"; "visitor"; "--server_name"; "-s=x"; "--bindPort=9000"; "--secret_key=a=b"]%string) = Ok (Some "-s=x"%string).
Proof.
  split; [|vm_compute; reflexivity].
  apply (cli_roundtrip ["stcp"; "visitor"]%string (Visitor "stcp")
    [Valued "--server_name" "-s=x" false; Valued "--bindPort" "9000" true; Valued "--secret_key" "a=b" true]%string).
  - vm_compute. reflexivity.
  - repeat (apply Forall_cons; split; [vm_compute; reflexivity|]). by apply Forall_nil.
Defined.

Definition all_good (path : string) (_ : bool) : result string ClientConfig := Ok default_client.

Lemma instances_all_or_exit_witness :
  let '(running, exit) := run_multiple_clients all_good three_files with_slash (@rev string) "d" true in
  exit = None /\ running.*1 ≡ₚ ["d/c.toml"; "d/a.toml"; "d/b.toml"]%string /\ Forall (fun pc => all_good pc.1 true = Ok pc.2) running.
Proof.
  apply (instances_all_or_exit all_good three_files with_slash (@rev string) "d" true
    [Some ("c.toml", true); Some ("sub", false); Some ("a.toml", true); Some ("b.toml", true)]%string).
  - intros l. symmetry. apply Permutation_rev.
  - reflexivity.
Defined.
