(* ===== verification/AdminWeb.v ===== *)
(** * The client's management port (src/rust_frp_client/src/web.rs,
    src/rust_frp_client/src/admin_client.rs)

    The routes behind Basic authentication, the file that [PUT /config] replaces,
    the two signals to the client's main loop, the small HTTP client of
    [frpc reload|status|stop], and the health checks.  axum's routing and
    rendering are not modelled: a request is an [endpoint], a response its status
    and its body.  The files are a map, and what the system answers to a write, a
    rename or a removal is part of the request's moment. *)
From S2P Require Import Prelude RustStd Utf8 HttpText HttpHead ConfigTypes ConfigLoader JsonValue HttpClient Secrets Auth ClientRegistry Cli.

(** ** The server *)
Record AdminServer := { ad_addr : string; ad_auth : option (string * string) }.

(** [WebServer::new]; parsing the address is given. *)
Definition admin_server_new (parse_addr : string -> result string string) (c : WebServerConfig) : result string AdminServer :=
  addr ← parse_addr (ws_addr c +:+ ":" +:+ dec (ws_port c))%string;
  Ok {| ad_addr := addr;
        ad_auth := match ws_user c, ws_password c with
                   | Some u, Some p => if negb (is_empty u) && negb (is_empty p) then Some (u, p) else None
                   | _, _ => None
                   end |}.

(** [WebServerState] with the files; a [Notify] is whether it holds a permit. *)
Record AdminState := {
  as_proxies : client_proxies;
  as_visitors : client_visitors;
  as_reload : bool;
  as_stop : bool;
  as_config_path : option string;
  as_auth_enabled : bool;
  as_files : gmap string string;
}.

Definition with_files (m : gmap string string) (s : AdminState) : AdminState :=
  {| as_proxies := as_proxies s; as_visitors := as_visitors s; as_reload := as_reload s; as_stop := as_stop s;
     as_config_path := as_config_path s; as_auth_enabled := as_auth_enabled s; as_files := m |}.
Definition notify_reload (s : AdminState) : AdminState :=
  {| as_proxies := as_proxies s; as_visitors := as_visitors s; as_reload := true; as_stop := as_stop s;
     as_config_path := as_config_path s; as_auth_enabled := as_auth_enabled s; as_files := as_files s |}.
Definition notify_stop (s : AdminState) : AdminState :=
  {| as_proxies := as_proxies s; as_visitors := as_visitors s; as_reload := as_reload s; as_stop := true;
     as_config_path := as_config_path s; as_auth_enabled := as_auth_enabled s; as_files := as_files s |}.

(** [WebServer::start]: the state a client's server works on. *)
Definition admin_start (srv : AdminServer) (px : client_proxies) (vs : client_visitors) (path : option string)
    (files : gmap string string) : AdminState :=
  {| as_proxies := px; as_visitors := vs; as_reload := false; as_stop := false; as_config_path := path;
     as_auth_enabled := is_some (ad_auth srv); as_files := files |}.

Inductive endpoint :=
| EHealth | EProxies | EVisitors | EStatus | EStop | EReload | EGetConfig | EPutConfig (body : string) | ENotFound.

(** [value] is the authorization header. *)
Record admin_request := { rq_endpoint : endpoint; rq_authorization : option string }.

Inductive admin_body :=
| NoBody
| Text (s : string)
| Json (v : value)
| ProxyList (l : list ProxyConfig)
| VisitorList (l : list VisitorConfig).

Record admin_response := { rs_code : Z; rs_body : admin_body }.

(** What the system answers while a request is handled: the clock, eight random
    characters, the write (on failure with what it left in the file), the rename
    and the removal. *)
Record moment := {
  mo_timestamp : Z;
  mo_rand : string;
  mo_write : result (string * option string) unit;
  mo_rename : result string unit;
  mo_removed : bool;
}.

(** ** Basic authentication *)

(** [HeaderValue::to_str]: visible ASCII, spaces and tabs. *)
Definition header_to_str (v : string) : option string :=
  if str_all (fun c => bool_decide (32 <= code c < 127 \/ code c = 9)) v then Some v else None.

Definition parse_basic_credentials `{Base64} (value : string) : option (string * string) :=
  encoded ← strip_prefix "Basic " value;
  match b64_std encoded with
  | Ok decoded => if is_utf8 decoded then split_once ":" (of_bytes decoded) else None
  | Err _ => None
  end.

Definition authorized `{Base64} (expected : option (string * string)) (header : option string) : bool :=
  match expected with
  | None => true
  | Some (user, password) =>
      match (h ← header; value ← header_to_str h; parse_basic_credentials value) with
      | Some (u, p) => str_eq_ct u user && str_eq_ct p password
      | None => false
      end
  end.

Definition unauthorized : admin_response := {| rs_code := 401; rs_body := NoBody |}.

Definition basic_auth_middleware `{Base64} {A} (expected : option (string * string)) (header : option string)
    (next : A -> admin_response * A) (s : A) : admin_response * A :=
  if authorized expected header then next s else (unauthorized, s).

(** ** The handlers *)
Definition json200 (v : value) : admin_response := {| rs_code := 200; rs_body := Json v |}.
Definition message (msg : string) : admin_response := json200 (JObj [("msg", JStr msg); ("code", JInt 200)]%string).

Definition health_handler (timestamp : Z) : admin_response :=
  json200 (JObj [("status", JStr "ok"); ("timestamp", JInt timestamp)]%string).

Definition proxies_handler (s : AdminState) : admin_response :=
  {| rs_code := 200; rs_body := ProxyList (snd <$> map_to_list (cp_proxies (as_proxies s))) |}.
Definition visitors_handler (s : AdminState) : admin_response :=
  {| rs_code := 200; rs_body := VisitorList (snd <$> map_to_list (cv_visitors (as_visitors s))) |}.

Definition proxy_status (s : AdminState) (p : ProxyConfig) : value :=
  let '(down, up) := default (0, 0) (traffic_snapshot (as_proxies s) (px_name p)) in
  JObj [("name", JStr (px_name p)); ("type", JStr (px_type p)); ("status", JStr "running");
        ("local_port", JInt (px_local_port p));
        ("remote_port", match px_remote_port p with Some n => JInt n | None => JNull end);
        ("traffic_down", JInt down); ("traffic_up", JInt up)]%string.
Definition visitor_status (v : VisitorConfig) : value :=
  JObj [("name", JStr (vi_name v)); ("type", JStr (vi_type v)); ("server_name", JStr (vi_server_name v));
        ("status", JStr "running")]%string.

Definition status_handler (s : AdminState) : admin_response :=
  json200 (JObj [("proxies", JArr (proxy_status s <$> (snd <$> map_to_list (cp_proxies (as_proxies s)))));
                 ("visitors", JArr (visitor_status <$> (snd <$> map_to_list (cv_visitors (as_visitors s)))))]%string).

Definition reload_handler (s : AdminState) : admin_response * AdminState := (message "reload signal sent", notify_reload s).
Definition stop_handler (s : AdminState) : admin_response * AdminState := (message "stop signal sent", notify_stop s).

Definition config_endpoint_guard (s : AdminState) : result admin_response string :=
  if negb (as_auth_enabled s) then
    Err {| rs_code := 403; rs_body := Text "config API is disabled: configure webServer.user/password first (config content contains auth token)" |}
  else match as_config_path s with
       | None => Err {| rs_code := 403; rs_body := Text "config API is unavailable: frpc was started without a config file path" |}
       | Some path => Ok path
       end.

Definition get_config_handler (s : AdminState) : admin_response :=
  match config_endpoint_guard s with
  | Err r => r
  | Ok path => match as_files s !! path with
               | Some content => {| rs_code := 200; rs_body := Text content |}
               | None => {| rs_code := 500; rs_body := Text "read config failed: No such file or directory (os error 2)" |}
               end
  end.

Definition tmp_path (path rand : string) : string := (path +:+ ".tmp-" +:+ rand)%string.

Section Handlers.
(** [ConfigLoader::validate_client_config_content]. *)
Context (validate : string -> result string ClientConfig).

Definition put_config_handler (mo : moment) (body : string) (s : AdminState) : admin_response * AdminState :=
  match config_endpoint_guard s with
  | Err r => (r, s)
  | Ok path =>
      match validate body with
      | Err e => ({| rs_code := 400; rs_body := Text ("config validation failed: " +:+ e) |}, s)
      | Ok _ =>
          let tmp := tmp_path path (mo_rand mo) in
          match mo_write mo with
          | Err (e, part) =>
              ({| rs_code := 500; rs_body := Text ("write config failed: " +:+ e) |},
               match part with Some begun => with_files (<[tmp := begun]> (as_files s)) s | None => s end)
          | Ok _ =>
              let files := <[tmp := body]> (as_files s) in
              match mo_rename mo with
              | Err e => ({| rs_code := 500; rs_body := Text ("rename config failed: " +:+ e) |},
                          with_files (if mo_removed mo then delete tmp files else files) s)
              | Ok _ => (message "config updated, reload triggered",
                         notify_reload (with_files (<[path := body]> (delete tmp files)) s))
              end
          end
      end
  end.

(** The routes. *)
Definition admin_route (mo : moment) (e : endpoint) (s : AdminState) : admin_response * AdminState :=
  match e with
  | EHealth => (health_handler (mo_timestamp mo), s)
  | EProxies => (proxies_handler s, s)
  | EVisitors => (visitors_handler s, s)
  | EStatus => (status_handler s, s)
  | EStop => stop_handler s
  | EReload => reload_handler s
  | EGetConfig => (get_config_handler s, s)
  | EPutConfig body => put_config_handler mo body s
  | ENotFound => ({| rs_code := 404; rs_body := NoBody |}, s)
  end.

Definition admin_serve `{Base64} (srv : AdminServer) (mo : moment) (r : admin_request) (s : AdminState) : admin_response * AdminState :=
  basic_auth_middleware (ad_auth srv) (rq_authorization r) (admin_route mo (rq_endpoint r)) s.

Fixpoint admin_serve_all `{Base64} (srv : AdminServer) (rs : list (moment * admin_request)) (s : AdminState) : AdminState :=
  match rs with
  | [] => s
  | (mo, r) :: rs => admin_serve_all srv rs (admin_serve srv mo r s).2
  end.
End Handlers.

(** ** The command's HTTP client *)

(** The head [admin_http_request] sends. *)
Definition admin_head `{Base64} (addr : string) (port : Z) (method path : string) (basic_auth : option (string * string)) : string :=
  let auth := match basic_auth with
              | Some (user, pass) => [("Authorization: Basic " +:+ b64_encode (as_bytes (user +:+ ":" +:+ pass)))%string]
              | None => []
              end in
  crlf_lines ((method +:+ " " +:+ path +:+ " HTTP/1.1")%string :: ("Host: " +:+ addr +:+ ":" +:+ dec port)%string
                :: "Connection: close"%string :: auth) crlf.

(** The value of its authorization header. *)
Definition admin_authorization `{Base64} (basic_auth : option (string * string)) : option string :=
  (fun up => "Basic " +:+ b64_encode (as_bytes (up.1 +:+ ":" +:+ up.2)))%string <$> basic_auth.

(** [parse_http_response] of this file: the code of HttpClient.v's with other
    messages; [None] is a panic. *)
Definition parse_admin_response (raw : list byte) : option (result string (Z * string)) :=
  match position_of HEADER_END raw with
  | None => Some (Err "invalid HTTP response: header terminator not found"%string)
  | Some header_end =>
      match str_lines (from_utf8_lossy (take header_end raw)) with
      | [] => Some (Err "invalid HTTP response: empty status line"%string)
      | status_line :: lines =>
          match (s ← split_whitespace status_line !! 1%nat; parse_unsigned 16 s) with
          | None => Some (Err ("invalid HTTP status line: " +:+ status_line)%string)
          | Some status =>
              let '(content_length, chunked) := foldl body_header (None, false) lines in
              let body_bytes := drop (header_end + 4) raw in
              body ← (if chunked : bool then decode_chunked_into body_bytes
                      else Some match content_length with
                                | Some len => take (Z.to_nat (Z.min len (zlen body_bytes))) body_bytes
                                | None => body_bytes
                                end);
              Some (Ok (status, from_utf8_lossy body))
          end
      end
  end.

(** [admin_http_request]: [exchange] connects, sends and reads to the end. *)
Definition admin_http_request `{Base64} (exchange : string -> Z -> list byte -> result string (list byte))
    (addr : string) (port : Z) (method path : string) (basic_auth : option (string * string))
  : option (result string (Z * string)) :=
  match exchange addr port (as_bytes (admin_head addr port method path basic_auth)) with
  | Err e => Some (Err e)
  | Ok raw => parse_admin_response raw
  end.

(** ** Health checks *)

(** What a check saw: whether TCP connected in time, or the text that was read
    ([None]: an error or no end of it in time). *)
Inductive health_outcome := TcpConnected (b : bool) | HttpAnswer (text : option string).

Definition healthy_text (response : string) : bool := contains_str "200 OK" response || contains_str "HTTP/1." response.

(** Which check a configuration asks for; [None] ends the task. *)
Definition check_passed (check_type : string) (o : health_outcome) : option bool :=
  if decide (check_type = "tcp"%string) then Some (match o with TcpConnected b => b | HttpAnswer _ => false end)
  else if decide (check_type = "http"%string) then
    Some (match o with HttpAnswer (Some text) => healthy_text text | _ => false end)
  else None.

(** One turn of the loop: the next [failed_count], a [u32], and whether the
    service is reported unhealthy. *)
Definition health_turn (hc : HealthCheckConfig) (failed : Z) (o : health_outcome) : option (Z * bool) :=
  passed ← check_passed (hc_type hc) o;
  if (passed : bool) then Some (0, false)
  else let failed := wrap_u32 (failed + 1) in
       if bool_decide (hc_max_failed hc <= failed) then Some (0, true) else Some (failed, false).

(** [HealthChecker::start] over the checks that were made: the reports, and
    [failed_count]. *)
Fixpoint health_run (hc : HealthCheckConfig) (failed : Z) (os : list health_outcome) : list bool * Z :=
  match os with
  | [] => ([], failed)
  | o :: os => match health_turn hc failed o with
               | None => ([], failed)
               | Some (failed, report) => let '(rs, n) := health_run hc failed os in (report :: rs, n)
               end
  end.

(** The request of the HTTP check. *)
Definition health_request (path host : string) : string :=
  ("GET " +:+ path +:+ " HTTP/1.0" +:+ crlf +:+ "Host: " +:+ host +:+ crlf +:+ "Connection: close" +:+ crlf +:+ crlf)%string.

(** It is written to a [BufStream] and not flushed: [passed_on] is what reaches
    the socket of it, [service] what a service sends for what it received. *)
Definition http_check (passed_on : list byte -> list byte) (service : list byte -> option string) (p : ProxyConfig) (hc : HealthCheckConfig)
  : health_outcome :=
  HttpAnswer (service (passed_on (as_bytes (health_request (default "/"%string (hc_path hc)) (px_local_ip p))))).

(** ** Who gets in *)
Section Gate.
Context `{Base64}.

(** What a header must carry. *)
Definition carries (header user password : string) : Prop :=
  exists encoded bytes, header_to_str header = Some header /\ header = ("Basic " +:+ encoded)%string /\
    b64_std encoded = Ok bytes /\ is_utf8 bytes = true /\
    of_bytes bytes = (user +:+ ":" +:+ password)%string /\ contains_char ":"%char user = false.

Lemma header_to_str_Some v s : header_to_str v = Some s -> s = v.
Proof. unfold header_to_str. by case_match; intros [= <-]. Qed.

Lemma parse_basic_Some header user password : header_to_str header = Some header ->
  parse_basic_credentials header = Some (user, password) <-> carries header user password.
Proof.
  intros Hs. unfold parse_basic_credentials, carries. split.
  - destruct (strip_prefix "Basic " header) as [enc|] eqn:E; [|done]. cbn [mbind option_bind].
    apply strip_prefix_Some in E. destruct (b64_std enc) as [bytes|e] eqn:Eb; [|done].
    destruct (is_utf8 bytes) eqn:Eu; [|done]. intros Hp. exists enc, bytes.
    split_and!; [done..| |by eapply split_once_colon]. by apply split_once_Some in Hp.
  - intros (enc & bytes & _ & -> & Hb & Hu & Ho & Hc). rewrite (proj2 (strip_prefix_Some _ _ enc)) by done.
    cbn [mbind option_bind]. rewrite Hb, Hu, Ho. by apply (split_once_char ":"%char).
Qed.

Lemma authorized_iff user password header :
  authorized (Some (user, password)) header = true <-> exists h, header = Some h /\ carries h user password.
Proof.
  unfold authorized. split.
  - destruct header as [h|]; [|done]. cbn [mbind option_bind].
    destruct (header_to_str h) as [h'|] eqn:Eh; [|done]. pose proof (header_to_str_Some _ _ Eh) as ->.
    cbn [mbind option_bind]. destruct (parse_basic_credentials h) as [[u p]|] eqn:Ep; [|done].
    intros [->%str_eq_ct_true ->%str_eq_ct_true]%andb_true_iff. exists h. split; [done|].
    by apply parse_basic_Some.
  - intros (h & -> & Hc). assert (header_to_str h = Some h) as Hs by by destruct Hc as (? & ? & ? & _).
    cbn [mbind option_bind]. rewrite Hs. cbn [mbind option_bind].
    rewrite (proj2 (parse_basic_Some h user password Hs) Hc). apply andb_true_iff. by rewrite !str_eq_ct_true.
Qed.

(** A user name with a colon matches no header: such a server lets nobody in. *)
Lemma colon_user_locked_out user password header : contains_char ":"%char user = true ->
  authorized (Some (user, password)) header = false.
Proof.
  intros Hu. apply not_true_iff_false. intros (h & _ & (? & ? & _ & _ & _ & _ & _ & Hc))%authorized_iff. congruence.
Qed.
End Gate.

(** ** What a request may change *)
Section Changes.
Context `{Base64} (validate : string -> result string ClientConfig).

Lemma tmp_path_ne path rand : tmp_path path rand <> path.
Proof.
  unfold tmp_path. intros E. apply (f_equal String.length) in E. rewrite str_length_app in E. simpl in E. lia.
Qed.

(** The handler of [PUT /config]: all or nothing. *)
Lemma put_config_spec mo body s r s' : put_config_handler validate mo body s = (r, s') ->
  as_proxies s' = as_proxies s /\ as_visitors s' = as_visitors s /\ as_stop s' = as_stop s /\
  as_config_path s' = as_config_path s /\ as_auth_enabled s' = as_auth_enabled s /\
  ((rs_code r = 200 /\ exists path, as_auth_enabled s = true /\ as_config_path s = Some path /\ is_ok (validate body) = true /\
      as_files s' = <[path := body]> (delete (tmp_path path (mo_rand mo)) (as_files s)) /\ as_reload s' = true) \/
   (rs_code r <> 200 /\ as_reload s' = as_reload s /\
    forall p, (forall path, as_config_path s = Some path -> p <> tmp_path path (mo_rand mo)) -> as_files s' !! p = as_files s !! p)).
Proof.
  unfold put_config_handler, config_endpoint_guard.
  destruct (as_auth_enabled s) eqn:Ea; cbn [negb]; [|intros [= <- <-]; split_and!; try done; by right].
  destruct (as_config_path s) as [path|] eqn:Ep; [|intros [= <- <-]; split_and!; try done; by right].
  destruct (validate body) as [c|e] eqn:Ev; [|intros [= <- <-]; split_and!; try done; by right].
  destruct (mo_write mo) as [?|[e part]].
  - destruct (mo_rename mo) as [?|e].
    + intros [= <- <-]. split_and!; [done..|left]. split; [done|]. exists path. split_and!; [done..| |done]. cbn. by rewrite delete_insert_eq.
    + intros [= <- <-]. split_and!; [done..|right]. split_and!; [done..|]. intros p Hp.
      specialize (Hp path eq_refl). cbn [as_files with_files].
      destruct (mo_removed mo); rewrite ?lookup_delete_ne, lookup_insert_ne by done; done.
  - intros [= <- <-]. destruct part; split_and!; try done; right; (split_and!; [done..|]); intros p Hp; [|done].
    specialize (Hp path eq_refl). cbn [as_files with_files]. by rewrite lookup_insert_ne.
Qed.
End Changes.

(** ** Sequences of requests *)
Section Trace.
Context `{Base64} (validate : string -> result string ClientConfig) (srv : AdminServer).

(** A request with the credentials the server was given. *)
Definition credentialed (r : admin_request) : Prop :=
  exists user password h, ad_auth srv = Some (user, password) /\ rq_authorization r = Some h /\ carries h user password.

Lemma credentialed_iff r : is_some (ad_auth srv) = true ->
  authorized (ad_auth srv) (rq_authorization r) = true <-> credentialed r.
Proof.
  destruct (ad_auth srv) as [[user password]|] eqn:E; [|done]. intros _. rewrite authorized_iff. unfold credentialed. split.
  - intros (h & Hh & Hc). exists user, password, h. by rewrite E.
  - intros (u & p & h & Hs & Hh & Hc). rewrite E in Hs. injection Hs as <- <-. eauto.
Qed.

(** Any other request of the server leaves the files alone. *)
Lemma admin_route_files mo e s : (forall body, e <> EPutConfig body) ->
  as_files (admin_route validate mo e s).2 = as_files s.
Proof. intros He. destruct e; try done. by destruct (He body). Qed.

Lemma admin_route_same mo e s : let s' := (admin_route validate mo e s).2 in
  as_auth_enabled s' = as_auth_enabled s /\ as_config_path s' = as_config_path s /\
  (as_stop s' = as_stop s \/ e = EStop).
Proof.
  destruct e; cbn; split_and!; try done; try (by left); try (by right);
    destruct (put_config_handler validate mo body s) as [r s'] eqn:E; apply put_config_spec in E; intuition congruence.
Qed.

Lemma admin_serve_same mo r s : let s' := (admin_serve validate srv mo r s).2 in
  as_auth_enabled s' = as_auth_enabled s /\ as_config_path s' = as_config_path s.
Proof.
  unfold admin_serve, basic_auth_middleware. destruct (authorized _ _); [|done].
  by destruct (admin_route_same mo (rq_endpoint r) s) as (? & ? & _).
Qed.

(** One request and the configuration file. *)
Lemma admin_serve_config mo r s path : as_auth_enabled s = is_some (ad_auth srv) -> as_config_path s = Some path ->
  let '(resp, s') := admin_serve validate srv mo r s in
  as_files s' !! path = as_files s !! path \/
  exists body, rq_endpoint r = EPutConfig body /\ credentialed r /\ is_ok (validate body) = true /\
    rs_code resp = 200 /\ as_files s' !! path = Some body /\ as_reload s' = true.
Proof.
  intros Ha Hp. unfold admin_serve, basic_auth_middleware.
  destruct (authorized _ _) eqn:Eauth; [|by left].
  assert ((exists body, rq_endpoint r = EPutConfig body) \/ forall body, rq_endpoint r <> EPutConfig body) as [[body Eb]|Hn]
    by (destruct (rq_endpoint r); eauto).
  - rewrite Eb. cbn [admin_route]. destruct (put_config_handler _ _ _ _) as [resp s'] eqn:E.
    apply put_config_spec in E as (_ & _ & _ & _ & _ & [(Hc & path' & Hen & Hp' & Hv & Hf & Hr)|(_ & _ & Hf)]).
    + right. rewrite Hp in Hp'. injection Hp' as <-. exists body. rewrite Hf, lookup_insert_eq. split_and!; try done.
      apply credentialed_iff; [congruence|done].
    + left. apply Hf. rewrite Hp. intros q [= <-] E. by eapply tmp_path_ne.
  - pose proof (admin_route_files mo (rq_endpoint r) s Hn) as Hf.
    destruct (admin_route _ _ _ _) as [resp s']. simpl in Hf. left. by rewrite Hf.
Qed.

(** C16: The configuration file over the management port.  Whatever requests come
    in, in any order and with any outcome of the writes and renames, the file
    keeps the text it had, or holds exactly the body of a PUT /config request
    that carried the configured credentials and whose body passed the validation:
    never a part of one, and nothing at all when no credentials are configured. *)
Theorem config_file_guarded rs s path :
  as_auth_enabled s = is_some (ad_auth srv) -> as_config_path s = Some path ->
  let s' := admin_serve_all validate srv rs s in
  as_files s' !! path = as_files s !! path \/
  exists mo r body, (mo, r) ∈ rs /\ rq_endpoint r = EPutConfig body /\ credentialed r /\
    is_ok (validate body) = true /\ as_files s' !! path = Some body.
Proof.
  revert s; induction rs as [|[mo r] rs IH]; intros s Ha Hp; [by left|]. cbn [admin_serve_all].
  pose proof (admin_serve_config mo r s path Ha Hp) as Hs. pose proof (admin_serve_same mo r s) as [Ha' Hp'].
  destruct (admin_serve validate srv mo r s) as [resp s1]. simpl in *.
  destruct (IH s1) as [E|(mo' & r' & body & Hin & Hb & Hc & Hv & E)]; [congruence..| |].
  - rewrite E. destruct Hs as [Hs|(body & Hb & Hc & Hv & _ & Hf & _)]; [by left|right].
    exists mo, r, body. split_and!; try done. by apply elem_of_cons; left.
  - right. exists mo', r', body. split_and!; try done. by apply elem_of_cons; right.
Qed.
End Trace.

(** ** A command and the server it talks to *)
Section Commands.
Context `{Base64} (validate : string -> result string ClientConfig).
Context (load : string -> bool -> result string ClientConfig).

(** What a configuration must satisfy: the laws of base64 on its credentials,
    which are UTF-8 text, and a user name without a colon. *)
Definition usable_credentials (w : WebServerConfig) : Prop :=
  forall user password, admin_auth w = Some (user, password) ->
    let text := as_bytes (user +:+ ":" +:+ password)%string in
    b64_std (b64_encode text) = Ok text /\ header_to_str ("Basic " +:+ b64_encode text)%string = Some ("Basic " +:+ b64_encode text)%string /\
    is_utf8 text = true /\ contains_char ":"%char user = false.

Lemma authorized_own w parse srv : usable_credentials w -> admin_server_new parse w = Ok srv ->
  authorized (ad_auth srv) (admin_authorization (admin_auth w)) = true.
Proof.
  intros Hu. unfold admin_server_new. destruct (parse _) as [addr|e]; [|done]. cbn [mbind result_bind]. intros [= <-].
  cbn [ad_auth]. fold (admin_auth w). unfold usable_credentials in Hu.
  destruct (admin_auth w) as [[user password]|]; [|done].
  destruct (Hu user password eq_refl) as (Hb & Hs & Ht & Hc). apply authorized_iff. eexists. split; [done|].
  do 2 eexists. split_and!; [exact Hs|done|exact Hb|done| |done]. by apply String.string_of_list_byte_of_string.
Qed.

(** [frpc reload|status|stop] reaches the client that runs with the same
    configuration file.  With the management port enabled, the command sends its
    request to the configured address and port with credentials the server
    accepts, so the handler runs: a reload or a stop leaves its permit for the main
    loop and is answered with 200, which the command exits with 0 for. *)
Theorem commands_arrive parse path strict method url c srv mo e s :
  load path strict = Ok c -> ws_port (cc_web_server c) <> 0 -> usable_credentials (cc_web_server c) ->
  admin_server_new parse (cc_web_server c) = Ok srv ->
  exists req, Cli.run_admin load path strict method url = Ok req /\
    ar_addr req = ws_addr (cc_web_server c) /\ ar_port req = ws_port (cc_web_server c) /\ ar_method req = method /\ ar_url req = url /\
    let '(resp, s') := admin_serve validate srv mo {| rq_endpoint := e; rq_authorization := admin_authorization (ar_auth req) |} s in
    (resp, s') = admin_route validate mo e s /\
    (e ∈ [EReload; EStop; EStatus] -> rs_code resp = 200 /\ forall text, admin_exit (Some (Ok (rs_code resp, text))) = 0) /\
    (e = EReload -> as_reload s' = true) /\ (e = EStop -> as_stop s' = true).
Proof.
  intros Hl Hp Hu Hs. unfold run_admin, load_config_or_exit. rewrite Hl. cbn [mbind result_bind].
  rewrite bool_decide_false by done. eexists. split; [reflexivity|]. split_and!; [done..|]. cbn [ar_auth].
  unfold admin_serve, basic_auth_middleware. cbn [rq_authorization rq_endpoint].
  rewrite (authorized_own _ _ _ Hu Hs).
  destruct (admin_route validate mo e s) as [resp s'] eqn:E. split; [done|].
  assert (Hr : e ∈ [EReload; EStop; EStatus] -> rs_code resp = 200).
  { rewrite !elem_of_cons. intros [->|[->|[->|[]%elem_of_nil]]]; cbn in E; by injection E as <- <-. }
  split_and!; [intros He; split; [by apply Hr|by intros text; rewrite Hr]|..]; intros ->; cbn in E; by injection E as <- <-.
Qed.
End Commands.

(** ** Reading a response *)
Section Responses.
(** A header line that says nothing about the body. *)
Definition plain_line (l : string) : Prop := forall acc, body_header acc l = acc.

(** Printable ASCII text. *)
Definition printable (c : ascii) : bool := bool_decide (32 <= code c < 127).
Definition head_line (l : string) : Prop := l <> EmptyString /\ str_all printable l = true.

Definition length_line (n : Z) : string := ("content-length: " +:+ dec n)%string.

(** A response as a server writes it. *)
Definition response_bytes (status : Z) (reason : string) (headers : list string) (body : list byte) : list byte :=
  as_bytes (crlf_lines (("HTTP/1.1 " +:+ dec status +:+ " " +:+ reason)%string :: headers) (length_line (zlen body)))
  ++ HEADER_END ++ body.

Lemma position_of_end l rest : Byte.x0d ∉ l -> position_of HEADER_END (l ++ HEADER_END ++ rest) = Some (length l).
Proof.
  intros Hl. apply position_of_first; [simpl; lia|]. intros i Hi E. rewrite drop_app_le in E by lia.
  destruct (drop i l) as [|b l'] eqn:Ed.
  { apply (f_equal length) in Ed. rewrite length_drop in Ed. simpl in Ed. lia. }
  simpl in E. injection E as -> _. apply Hl. apply (elem_of_drop_l _ i). rewrite Ed. left.
Qed.

(** A line in front: the next line is not empty. *)
Lemma position_of_line l x rest p : Byte.x0d ∉ l -> x <> Byte.x0d ->
  position_of HEADER_END (x :: rest) = Some p ->
  position_of HEADER_END (l ++ CRLF ++ x :: rest) = Some (length l + 2 + p)%nat.
Proof.
  intros Hl Hx Hp. induction l as [|b l IH].
  - cbn [app CRLF length]. cbn [position_of]. rewrite decide_False by (intros E; simpl in E; injection E as ->; done).
    cbn [position_of]. rewrite decide_False by done. change (position_of HEADER_END (x :: rest)) with (position_of HEADER_END (x :: rest)) in Hp.
    cbn [position_of] in Hp. rewrite Hp. done.
  - apply not_elem_of_cons in Hl as [Hb Hl]. cbn [app position_of]. rewrite decide_False by (change (length HEADER_END) with 4%nat; unfold HEADER_END, CRLF; cbn [take app]; congruence).
    by rewrite IH.
Qed.

Lemma as_bytes_app a b : as_bytes (a +:+ b)%string = as_bytes a ++ as_bytes b.
Proof. induction a as [|c a IH]; [done|]. cbn [String.append]. change (as_bytes (String c ?s)) with (byte_of_ascii c :: as_bytes s). by rewrite IH. Qed.

Lemma printable_char c : printable c = true -> byte_of_ascii c <> Byte.x0d /\ b2z (byte_of_ascii c) < 128 /\ c <> LF.
Proof. by destruct c as [[] [] [] [] [] [] [] []]; vm_compute. Qed.

Lemma printable_text s : str_all printable s = true ->
  Byte.x0d ∉ as_bytes s /\ ascii_bytes (as_bytes s) /\ contains_char LF s = false.
Proof.
  induction s as [|c s IH]; [intros _; split_and!; [apply not_elem_of_nil|constructor|done]|].
  rewrite str_all_cons, andb_true_iff. intros [Hc Hs]. apply printable_char in Hc as (Hd & Hb & Hl).
  destruct (IH Hs) as (Hn & Ha & Hf). change (as_bytes (String c s)) with (byte_of_ascii c :: as_bytes s). split_and!.
  - by rewrite not_elem_of_cons.
  - by constructor.
  - simpl. by rewrite decide_False.
Qed.

Lemma digits_printable s : is_digits s -> str_all printable s = true.
Proof.
  unfold is_digits. induction s as [|c s IH]; [done|]. rewrite !str_all_cons, !andb_true_iff. intros [Hc Hs].
  split; [|by apply IH]. clear -Hc. revert Hc. by destruct c as [[] [] [] [] [] [] [] []]; vm_compute.
Qed.

(** The head ends where it was ended. *)
Lemma position_of_head ls last body : Forall head_line ls -> head_line last ->
  position_of HEADER_END (as_bytes (crlf_lines ls last) ++ HEADER_END ++ body) = Some (length (as_bytes (crlf_lines ls last))).
Proof.
  intros Hls [Hne Hl]. induction Hls as [|l ls [Hn Hp] Hrest IH].
  - apply position_of_end. by apply printable_text.
  - cbn [crlf_lines foldr]. fold (crlf_lines ls last). rewrite !as_bytes_app, <- !app_assoc.
    change (as_bytes crlf) with CRLF.
    assert (exists x rest, as_bytes (crlf_lines ls last) = x :: rest /\ x <> Byte.x0d) as (x & rest & E & Hx).
    { assert (Hf : forall l y, head_line l -> exists x rest, as_bytes (l +:+ y)%string = x :: rest /\ x <> Byte.x0d).
      { clear. intros [|c l] y [? Hl]; [done|]. rewrite str_all_cons, andb_true_iff in Hl. destruct Hl as [Hc _].
        do 2 eexists. split; [reflexivity|]. by apply printable_char. }
      destruct Hrest as [|l' ls' Hl' _]; [|by apply Hf].
      destruct (Hf last EmptyString (conj Hne Hl)) as (x & rest & E & Hx). exists x, rest. split; [|done].
      rewrite <- E. rewrite as_bytes_app. by rewrite app_nil_r. }
    rewrite E in *. cbn [app] in *. rewrite (position_of_line _ _ _ _ (proj1 (printable_text _ Hp)) Hx IH).
    f_equal. rewrite !length_app. simpl. lia.
Qed.

Lemma str_lines_head ls last : Forall head_line ls -> head_line last -> str_lines (crlf_lines ls last) = ls ++ [last].
Proof.
  intros Hls [Hne Hl]. unfold str_lines. fold LF.
  assert (Hlf : contains_char LF last = false) by by apply printable_text.
  rewrite split_crlf_lines by (eapply Forall_impl; [exact Hls|]; intros l [_ Hp]; by apply printable_text).
  rewrite (split_char_single _ _ Hlf), last_snoc. rewrite (proj2 (is_empty_false last)) by done.
  rewrite map_app. f_equal.
  - induction ls as [|l ls IH]; [done|]. cbn [map]. apply Forall_cons in Hls as [_ Hls]. by rewrite strip_cr_line, IH.
  - cbn [map]. f_equal. unfold strip_cr. destruct (strip_suffix _ last) as [r|] eqn:E; [|done].
    exfalso. apply strip_suffix_Some in E. subst last. destruct (printable_text _ Hl) as [Hn _]. apply Hn.
    rewrite as_bytes_app. apply elem_of_app. right. left.
Qed.

Lemma head_ascii ls last : Forall head_line ls -> head_line last -> ascii_bytes (as_bytes (crlf_lines ls last)).
Proof.
  intros Hls [_ Hl]. induction Hls as [|l ls [_ Hp] _ IH]; [by apply printable_text|].
  cbn [crlf_lines foldr]. fold (crlf_lines ls last). rewrite !as_bytes_app. unfold ascii_bytes in *.
  rewrite !Forall_app. split_and!; [by apply printable_text| |done]. repeat constructor.
Qed.

Lemma foldl_plain ls acc : Forall plain_line ls -> foldl body_header acc ls = acc.
Proof. intros H. revert acc. induction H as [|l ls Hl _ IH]; intros acc; [done|]. cbn [foldl]. by rewrite Hl, IH. Qed.

Lemma length_line_header n acc : 0 <= n < 2 ^ 64 -> body_header acc (length_line n) = (Some n, acc.2).
Proof.
  intros Hn. destruct (dec_spec n) as (Hd & Hne & Hp); [lia|]. unfold body_header, length_line.
  change ("content-length: " +:+ dec n)%string with ("content-length" +:+ String ":" (String " " (dec n)))%string.
  rewrite (split_once_char ":" "content-length" _ eq_refl). rewrite trim_after_space, (solid_trim (dec n)) by by apply digits_solid.
  rewrite decide_True by reflexivity. by rewrite (parse_unsigned_digits 64 (dec n) n Hd Hne Hp) by lia.
Qed.

(** The command reads a response the way it was written.  For every status,
    reason phrase and other header lines of printable text, and every UTF-8 body,
    empty or with blank lines inside, the parser finds the end of the head, the
    status and exactly the body that the content-length line announces. *)
Theorem admin_response_roundtrip status reason headers body :
  0 <= status < 65536 -> str_all printable reason = true ->
  Forall head_line headers -> Forall plain_line headers -> is_utf8 body = true -> zlen body < 2 ^ 64 ->
  parse_admin_response (response_bytes status reason headers body) = Some (Ok (status, of_bytes body)).
Proof.
  intros Hs Hr Hh Hp Hb Hl. destruct (dec_spec status) as (Hd & Hne & Hpd); [lia|].
  destruct (dec_spec (zlen body)) as (Hd' & _ & _); [unfold zlen; lia|].
  set (first := ("HTTP/1.1 " +:+ dec status +:+ " " +:+ reason)%string).
  assert (Hf : head_line first).
  { split; [done|]. unfold first. rewrite !str_all_app, (digits_printable _ Hd), Hr. done. }
  assert (Hll : head_line (length_line (zlen body))).
  { split; [done|]. unfold length_line. by rewrite str_all_app, (digits_printable _ Hd'). }
  unfold parse_admin_response, response_bytes. fold first.
  rewrite position_of_head by (try done; by constructor). rewrite take_app_length.
  rewrite lossy_ascii by (apply head_ascii; [by constructor|done]).
  unfold of_bytes at 1, as_bytes at 1. rewrite String.string_of_list_byte_of_string.
  rewrite str_lines_head by (try done; by constructor). cbn [app].
  destruct (split_two_words "HTTP/1.1" (dec status) reason) as (ws & E & _); [done|done|done|by apply digits_solid|].
  change first with ("HTTP/1.1" +:+ String " " (dec status +:+ String " " reason))%string. rewrite E.
  cbn [lookup list_lookup mbind option_bind]. rewrite (parse_unsigned_digits 16 _ _ Hd Hne Hpd) by lia.
  rewrite foldl_app, (foldl_plain headers) by done. cbn [foldl]. rewrite length_line_header by (unfold zlen in *; lia).
  cbn [snd]. rewrite drop_app_ge by lia.
  replace (length _ + 4 - length _)%nat with 4%nat by lia. cbn [HEADER_END CRLF app drop mbind option_bind].
  rewrite Z.min_id. unfold zlen at 1. rewrite Nat2Z.id, firstn_all. unfold from_utf8_lossy. by rewrite utf8_lossy_id.
Qed.
End Responses.

(** ** Health reports against counting the failures *)

(** The failures in a row up to each check, and a report at every [m]-th. *)
Fixpoint reports (m streak : Z) (passed : list bool) : list bool :=
  match passed with
  | [] => []
  | true :: passed => false :: reports m 0 passed
  | false :: passed => bool_decide ((streak + 1) mod m = 0) :: reports m (streak + 1) passed
  end.

Lemma health_run_streak hc passed : forall os streak,
  1 <= hc_max_failed hc < 2 ^ 32 -> 0 <= streak -> Forall2 (fun o b => check_passed (hc_type hc) o = Some b) os passed ->
  (health_run hc (streak mod hc_max_failed hc) os).1 = reports (hc_max_failed hc) streak passed /\
  0 <= (health_run hc (streak mod hc_max_failed hc) os).2 < hc_max_failed hc.
Proof.
  intros os streak Hm Hs H. revert streak Hs. set (m := hc_max_failed hc) in *.
  induction H as [|o b os passed Ho _ IH]; intros streak Hs; [split; [done|]; apply Z.mod_pos_bound; lia|].
  cbn [health_run]. unfold health_turn. rewrite Ho. cbn [mbind option_bind]. fold m. destruct b.
  - destruct (IH 0) as [IH1 IH2]; [lia|]. rewrite Z.mod_0_l in * by lia.
    destruct (health_run hc 0 os) as [rs n]. simpl in *. by rewrite IH1.
  - assert (Hb : 0 <= streak mod m < m) by (apply Z.mod_pos_bound; lia).
    assert (Hmod : (streak + 1) mod m = (if bool_decide (m <= streak mod m + 1) then 0 else streak mod m + 1)).
    { rewrite <- Z.add_mod_idemp_l by lia. case_bool_decide.
      - replace (streak mod m + 1) with (1 * m) by lia. apply Z.mod_mul. lia.
      - apply Z.mod_small. lia. }
    assert (Hw : wrap_u32 (streak mod m + 1) = streak mod m + 1) by (unfold wrap_u; apply Z.mod_small; lia).
    rewrite Hw. cbv zeta. destruct (IH (streak + 1)) as [IH1 IH2]; [lia|]. rewrite Hmod in IH1, IH2.
    cbn [reports]. rewrite Hmod. case_bool_decide; destruct (health_run hc _ os) as [rs n]; simpl in *.
    + by rewrite IH1.
    + rewrite IH1. split; [|done]. f_equal. symmetry. apply bool_decide_eq_false. lia.
Qed.

(** The health checker reports a service at every [max_failed]-th failure in a
    row, and at no other check: the counter it resets agrees with counting the
    failures since the last success.  The counter never leaves its range, so its
    32 bits never overflow, however long the checker runs. *)
Theorem health_reports hc os passed :
  1 <= hc_max_failed hc < 2 ^ 32 ->
  Forall2 (fun o b => check_passed (hc_type hc) o = Some b) os passed ->
  (health_run hc 0 os).1 = reports (hc_max_failed hc) 0 passed /\ 0 <= (health_run hc 0 os).2 < hc_max_failed hc.
Proof.
  intros Hm H. pose proof (health_run_streak hc passed os 0 Hm ltac:(lia) H) as Hr. by rewrite Z.mod_0_l in Hr by lia.
Qed.

(** ** What the models show *)

(** The request of the HTTP check stays in the buffer: a service that speaks only
    when it is spoken to fails every check. *)
Lemma http_check_never_passes passed_on service p hc :
  hc_type hc = "http"%string ->
  passed_on (as_bytes (health_request (default "/"%string (hc_path hc)) (px_local_ip p))) = [] -> service [] = None ->
  check_passed (hc_type hc) (http_check passed_on service p hc) = Some false.
Proof. intros -> Hp Hs. unfold http_check. by rewrite Hp, Hs. Qed.

(** Any answer in HTTP is a healthy one. *)
Example error_page_is_healthy : check_passed "http" (HttpAnswer (Some "HTTP/1.0 500 Internal Server Error"%string)) = Some true.
Proof. reflexivity. Qed.

Definition demo_admin (auth : option (string * string)) : AdminServer := {| ad_addr := "127.0.0.1:7400"; ad_auth := auth |}.
Definition demo_opts : QuickOpts :=
  set_opt FName (Some "ssh"%string) None [] (set_opt FSecretKey (Some "hunter2"%string) None [] default_opts).
Definition demo_proxies : client_proxies :=
  (add_client_proxy (client_proxies_new None) (quick_proxy "stcp" demo_opts) (Ok tt)).2.
Definition demo_admin_state (auth : option (string * string)) : AdminState :=
  admin_start (demo_admin auth) demo_proxies {| cv_visitors := ∅; cv_tasks := ∅; cv_aborted := [] |} (Some "frpc.toml"%string)
    {[ "frpc.toml" := "old" ]}%string.
Definition demo_mo : moment :=
  {| mo_timestamp := 0; mo_rand := "abcdefgh"; mo_write := Ok tt; mo_rename := Ok tt; mo_removed := true |}.
Definition demo_validate (body : string) : result string ClientConfig :=
  if is_empty body then Err "server_addr is required"%string else Ok default_client.

(** Without credentials the configuration is closed, for the secrets in it; the
    list of proxies, which carries the same secrets, is open. *)
Example secrets_are_listed :
  rs_code (@admin_serve demo_validate toy_base64 (demo_admin None) demo_mo {| rq_endpoint := EGetConfig; rq_authorization := None |}
             (demo_admin_state None)).1 = 403 /\
  match rs_body (@admin_serve demo_validate toy_base64 (demo_admin None) demo_mo {| rq_endpoint := EProxies; rq_authorization := None |}
             (demo_admin_state None)).1 with
  | ProxyList l => px_secret_key <$> l = [Some "hunter2"%string]
  | _ => False
  end.
Proof. split; vm_compute; reflexivity. Qed.

(** ** Witnesses *)
Lemma config_file_guarded_witness :
  let s' := @admin_serve_all demo_validate toy_base64 (demo_admin (Some ("u", "p")%string))
    [(demo_mo, {| rq_endpoint := EPutConfig "evil"; rq_authorization := Some "Basic u:q"%string |});
     (demo_mo, {| rq_endpoint := EPutConfig "new"; rq_authorization := Some "Basic u:p"%string |})] (demo_admin_state (Some ("u", "p")%string)) in
  as_files s' !! "frpc.toml"%string = Some "new"%string /\
  (as_files s' !! "frpc.toml"%string = as_files (demo_admin_state (Some ("u", "p")%string)) !! "frpc.toml"%string \/
   exists mo r body, (mo, r) ∈ [(demo_mo, {| rq_endpoint := EPutConfig "evil"; rq_authorization := Some "Basic u:q"%string |});
     (demo_mo, {| rq_endpoint := EPutConfig "new"; rq_authorization := Some "Basic u:p"%string |})] /\
     rq_endpoint r = EPutConfig body /\ @credentialed toy_base64 (demo_admin (Some ("u", "p")%string)) r /\
     is_ok (demo_validate body) = true /\ as_files s' !! "frpc.toml"%string = Some body).
Proof.
  split; [vm_compute; reflexivity|].
  apply (@config_file_guarded toy_base64 demo_validate (demo_admin (Some ("u", "p")%string))
    [(demo_mo, {| rq_endpoint := EPutConfig "evil"; rq_authorization := Some "Basic u:q"%string |});
     (demo_mo, {| rq_endpoint := EPutConfig "new"; rq_authorization := Some "Basic u:p"%string |})] (demo_admin_state (Some ("u", "p")%string))
    "frpc.toml"%string); reflexivity.
Defined.

Definition demo_client : ClientConfig :=
  let d := default_client in
  {| cc_server_addr := cc_server_addr d; cc_server_port := cc_server_port d; cc_work_conn_port := cc_work_conn_port d;
     cc_user := cc_user d; cc_client_id := cc_client_id d;
     cc_web_server := {| ws_addr := "127.0.0.1"; ws_port := 7400; ws_user := Some "u"%string; ws_password := Some "p:q"%string;
                         ws_expose_metrics := false |};
     cc_auth := cc_auth d; cc_transport := cc_transport d; cc_proxies := cc_proxies d; cc_visitors := cc_visitors d; cc_log := cc_log d;
     cc_log_file := cc_log_file d; cc_log_level := cc_log_level d; cc_log_max_days := cc_log_max_days d; cc_includes := cc_includes d |}.

Lemma commands_arrive_witness :
  exists req, Cli.run_admin (fun _ _ => Ok demo_client) "frpc.toml" true "POST" "/stop" = Ok req /\
    ar_addr req = "127.0.0.1"%string /\ ar_port req = 7400 /\ ar_method req = "POST"%string /\ ar_url req = "/stop"%string /\
    let '(resp, s') := @admin_serve demo_validate toy_base64 (demo_admin (Some ("u", "p:q")%string)) demo_mo
        {| rq_endpoint := EStop; rq_authorization := @admin_authorization toy_base64 (ar_auth req) |}
        (demo_admin_state (Some ("u", "p:q")%string)) in
    (resp, s') = admin_route demo_validate demo_mo EStop (demo_admin_state (Some ("u", "p:q")%string)) /\
    (EStop ∈ [EReload; EStop; EStatus] -> rs_code resp = 200 /\ forall text, admin_exit (Some (Ok (rs_code resp, text))) = 0) /\
    (EStop = EReload -> as_reload s' = true) /\ (EStop = EStop -> as_stop s' = true).
Proof.
  apply (@commands_arrive toy_base64 demo_validate (fun _ _ => Ok demo_client) (fun a => Ok a) "frpc.toml" true "POST" "/stop"
    demo_client (demo_admin (Some ("u", "p:q")%string)) demo_mo EStop (demo_admin_state (Some ("u", "p:q")%string))).
  - reflexivity.
  - discriminate.
  - intros u p [= <- <-]. split_and!; vm_compute; reflexivity.
  - vm_compute. reflexivity.
Defined.

Lemma admin_response_roundtrip_witness :
  parse_admin_response (response_bytes 200 "OK" ["content-type: application/json"; "date: x"]%string (as_bytes "{}")) =
    Some (Ok (200, "{}"%string)).
Proof.
  apply (admin_response_roundtrip 200 "OK" ["content-type: application/json"; "date: x"]%string (as_bytes "{}")).
  - lia.
  - reflexivity.
  - repeat (apply Forall_cons; split; [split; [discriminate|vm_compute; reflexivity]|]). by apply Forall_nil.
  - repeat (apply Forall_cons; split; [intros [a b]; vm_compute; reflexivity|]). by apply Forall_nil.
  - vm_compute. reflexivity.
  - vm_compute. reflexivity.
Defined.

Definition demo_health : HealthCheckConfig :=
  {| hc_type := "tcp"; hc_timeout_seconds := 3; hc_max_failed := 2; hc_interval_seconds := 10; hc_path := None |}.

Lemma health_reports_witness :
  (health_run demo_health 0 (TcpConnected <$> [false; false; false; true; false; false])).1 =
    reports 2 0 [false; false; false; true; false; false] /\
  0 <= (health_run demo_health 0 (TcpConnected <$> [false; false; false; true; false; false])).2 < 2.
Proof.
  apply (health_reports demo_health (TcpConnected <$> [false; false; false; true; false; false]) [false; false; false; true; false; false]).
  - cbn. lia.
  - repeat (apply Forall2_cons; split; [reflexivity|]). by apply Forall2_nil.
Defined.
