(* ===== verification/Logging.v ===== *)
(** * Log files (src/rust_frp_util/src/logging.rs)

    The file writer that starts a new file every day, keeps the old ones under
    their dates and removes the oldest.  The files of the log's directory are a
    map from names to bytes; what the system answers to a rename, an open, a
    directory listing, a removal or a write is part of the event.  A date is the
    text LocalTime.v makes of a day number. *)
From S2P Require Import Prelude RustStd LocalTime.

(** [WriterState]; the handle, when there is one, is on the file named
    [lw_base]. *)
Record WriterState := {
  lw_base : string;
  lw_file : bool;
  lw_date : string;
  lw_max_days : Z;
}.

Notation log_files := (gmap string (list byte)).

(** What the system answers during one write. *)
Record log_answers := {
  la_rename : bool;
  la_open : bool;
  la_list : bool;
  la_remove : string -> bool;
  la_write : option nat;                 (* how many bytes were taken *)
}.

Definition rotated_path (base date : string) : string := (base +:+ "." +:+ date)%string.

Definition open_append (ok : bool) (base : string) (fs : log_files) : option log_files :=
  if ok then Some (<[base := default [] (fs !! base)]> fs) else None.

(** [DailyFileWriter::new] at the local date [today]. *)
Definition writer_new (ok : bool) (base : string) (max_days : Z) (today : string) (fs : log_files)
  : option (WriterState * log_files) :=
  fs ← open_append ok base fs;
  Some ({| lw_base := base; lw_file := true; lw_date := today; lw_max_days := max_days |}, fs).

(** The files [prune] removes. *)
Definition expired (base cutoff name : string) : bool :=
  match strip_prefix (base +:+ ".")%string name with
  | Some suffix => match parse_date suffix with Some _ => String.ltb suffix cutoff | None => false end
  | None => false
  end.

Definition prune (a : log_answers) (w : WriterState) (today : string) (fs : log_files) : log_files :=
  if decide (lw_max_days w = 0) then fs else
  match parse_date today with
  | None => fs
  | Some today_days =>
      let cutoff := format_date (today_days - lw_max_days w) in
      if la_list a
      then filter (fun kv : string * list byte => expired (lw_base w) cutoff kv.1 && la_remove a kv.1 = false) fs
      else fs
  end.

Definition rotate_to (a : log_answers) (today : string) (w : WriterState) (fs : log_files) : WriterState * log_files :=
  let base := lw_base w in
  let fs := match fs !! base with
            | Some content => if la_rename a then <[rotated_path base (lw_date w) := content]> (delete base fs) else fs
            | None => fs
            end in
  match open_append (la_open a) base fs with
  | Some fs =>
      let w := {| lw_base := base; lw_file := true; lw_date := today; lw_max_days := lw_max_days w |} in
      (w, prune a w today fs)
  | None => ({| lw_base := base; lw_file := false; lw_date := lw_date w; lw_max_days := lw_max_days w |}, fs)
  end.

Definition rotate_if_needed (a : log_answers) (today : string) (w : WriterState) (fs : log_files) : WriterState * log_files :=
  if decide (today = lw_date w) then (w, fs) else rotate_to a today w fs.

(** [Write::write]: the number of bytes it reports, [None] for an error. *)
Definition log_write (a : log_answers) (today : string) (buf : list byte) (w : WriterState) (fs : log_files)
  : option nat * WriterState * log_files :=
  let '(w, fs) := rotate_if_needed a today w fs in
  if lw_file w then
    match la_write a with
    | Some n => (Some (Nat.min n (length buf)), w, <[lw_base w := default [] (fs !! lw_base w) ++ take n buf]> fs)
    | None => (None, w, fs)
    end
  else (Some (length buf), w, fs).

(** Writes on given days when the system does all it is asked. *)
Definition all_well (n : nat) : log_answers :=
  {| la_rename := true; la_open := true; la_list := true; la_remove := fun _ => true; la_write := Some n |}.

Fixpoint log_run (es : list (Z * list byte)) (w : WriterState) (fs : log_files) : WriterState * log_files :=
  match es with
  | [] => (w, fs)
  | (day, line) :: es =>
      let '(_, w, fs) := log_write (all_well (length line)) (format_date day) line w fs in log_run es w fs
  end.

(** [init]'s level: [try_new] and [from_default_env] are tracing's. *)
Section Filter.
Context {F : Type} (try_new : string -> option F) (from_default_env : F).

Definition build_filter (level : option string) : F * bool :=
  match trim <$> level with
  | Some l => if is_empty l then (from_default_env, false)
              else match try_new l with Some f => (f, false) | None => (from_default_env, true) end
  | None => (from_default_env, false)
  end.

(** [init] up to installing the subscriber: the filter, whether it warns, and
    the file writer; [None] when the log file does not open. *)
Definition init_logging (to level : option string) (max_days : Z) (opens : string -> bool) (today : string) (fs : log_files)
  : option (F * bool * option (WriterState * log_files)) :=
  let '(f, warns) := build_filter level in
  match trim <$> to with
  | Some path => if is_empty path then Some (f, warns, None)
                 else w ← writer_new (opens path) path max_days today fs; Some (f, warns, Some w)
  | None => Some (f, warns, None)
  end.
End Filter.

(** ** The order of dates *)

(** Comparing texts of equal length in front. *)
Lemma compare_app a b x y : str_len a = str_len b ->
  String.compare (a +:+ x)%string (b +:+ y)%string =
  match String.compare a b with Eq => String.compare x y | r => r end.
Proof.
  revert b; induction a as [|c a IH]; intros [|d b] H; simpl in *; try done.
  - pose proof (str_len_nonneg b). lia.
  - pose proof (str_len_nonneg a). lia.
  - destruct (Ascii.compare c d); [apply IH; lia|done..].
Qed.

Lemma parse_digits_bounds s acc v : parse_digits s acc = Some v ->
  acc * 10 ^ str_len s <= v < (acc + 1) * 10 ^ str_len s.
Proof.
  revert acc; induction s as [|c s IH]; intros acc; simpl; [intros [= ->]; lia|].
  destruct (is_ascii_digit c) eqn:E; [|done]. unfold is_ascii_digit in E. apply bool_decide_eq_true in E.
  intros H%IH. rewrite Z.pow_add_r by (pose proof (str_len_nonneg s); lia).
  assert (0 < 10 ^ str_len s) by (apply Z.pow_pos_nonneg; [lia|apply str_len_nonneg]). nia.
Qed.

Lemma ascii_compare_code c d : Ascii.compare c d = (code c ?= code d).
Proof. unfold Ascii.compare, code. by rewrite N2Z.inj_compare. Qed.

Lemma compare_dash x y : String.compare ("-" +:+ x)%string ("-" +:+ y)%string = String.compare x y.
Proof. done. Qed.

Lemma compare_refl s : String.compare s s = Eq.
Proof. induction s as [|c s IH]; [done|]. simpl. by rewrite ascii_compare_code, Z.compare_refl. Qed.

(** Numbers of one width compare like their texts. *)
Lemma compare_digits a b : forall acc va vb, str_len a = str_len b ->
  parse_digits a acc = Some va -> parse_digits b acc = Some vb -> String.compare a b = (va ?= vb).
Proof.
  revert b; induction a as [|c a IH]; intros [|d b] acc va vb Hl; simpl in *.
  - intros [= <-] [= <-]. by rewrite Z.compare_refl.
  - pose proof (str_len_nonneg b). lia.
  - pose proof (str_len_nonneg a). lia.
  - destruct (is_ascii_digit c), (is_ascii_digit d); try done. rewrite ascii_compare_code. intros Ha Hb.
    destruct (Z.compare_spec (code c) (code d)) as [E|E|E].
    + rewrite E in Ha. eapply IH; [|done..]. lia.
    + apply parse_digits_bounds in Ha, Hb. assert (str_len a = str_len b) as El by lia. rewrite El in Ha.
      assert (0 < 10 ^ str_len b) by (apply Z.pow_pos_nonneg; [lia|apply str_len_nonneg]).
      symmetry. apply Z.compare_lt_iff. nia.
    + apply parse_digits_bounds in Ha, Hb. assert (str_len a = str_len b) as El by lia. rewrite El in Ha.
      assert (0 < 10 ^ str_len b) by (apply Z.pow_pos_nonneg; [lia|apply str_len_nonneg]).
      symmetry. apply Z.compare_gt_iff. nia.
Qed.

Lemma compare_pad0 w a b : 0 < w -> 0 <= a < 10 ^ w -> 0 <= b < 10 ^ w ->
  str_len (pad0 w a) = str_len (pad0 w b) /\ String.compare (pad0 w a) (pad0 w b) = (a ?= b).
Proof.
  intros Hw Ha Hb. destruct (pad0_spec w a Hw Ha) as (_ & Hla & Hpa). destruct (pad0_spec w b Hw Hb) as (_ & Hlb & Hpb).
  split; [lia|]. eapply compare_digits; [lia|done..].
Qed.

(** The days of the years 0 to 9999. *)
Definition in_years (day : Z) : Prop := -719528 <= day <= 2932896.

Definition date_lt (a b : Z * Z * Z) : Prop :=
  let '(y, m, d) := a in let '(y', m', d') := b in y < y' \/ (y = y' /\ (m < m' \/ (m = m' /\ d < d'))).

Lemma next_day_later c : valid_date c -> date_lt c (next_day c).
Proof. destruct c as [[y m] d]. unfold next_day, date_lt. intros _. repeat case_decide; lia. Qed.

Lemma date_lt_trans a b c : date_lt a b -> date_lt b c -> date_lt a c.
Proof. destruct a as [[? ?] ?], b as [[? ?] ?], c as [[? ?] ?]. unfold date_lt. lia. Qed.

Lemma civil_valid z : in_years z -> valid_date (civil_from_days z).
Proof.
  intros Hz. pose proof (civil_days_roundtrip_aux z) as H. unfold in_years, day_bound in *.
  destruct (civil_from_days z) as [[y m] d]. by destruct H as [H _]; [lia|].
Qed.

Lemma civil_increases z n : in_years z -> in_years (z + Z.of_nat (S n)) ->
  date_lt (civil_from_days z) (civil_from_days (z + Z.of_nat (S n))).
Proof.
  unfold in_years. intros Hz. assert (Hnext : forall x, in_years x -> date_lt (civil_from_days x) (civil_from_days (x + 1))).
  { intros x Hx. rewrite (proj2 civil_from_days_next_day) by (unfold in_years, year_bound in *; lia).
    by apply next_day_later, civil_valid. }
  induction n as [|n IH]; intros Hn; [apply Hnext; unfold in_years; lia|].
  eapply date_lt_trans; [apply IH; lia|].
  replace (z + Z.of_nat (S (S n))) with (z + Z.of_nat (S n) + 1) by lia. apply Hnext. unfold in_years. lia.
Qed.

Lemma civil_lt a b : in_years a -> in_years b -> a < b -> date_lt (civil_from_days a) (civil_from_days b).
Proof.
  intros Ha Hb Hlt. replace b with (a + Z.of_nat (S (Z.to_nat (b - a - 1)))) in * by lia. by apply civil_increases.
Qed.

Lemma civil_year day y m d : in_years day -> civil_from_days day = (y, m, d) -> 0 <= y <= 9999 /\ 1 <= m <= 12 /\ 1 <= d <= 31.
Proof.
  intros Hd E. pose proof (civil_valid _ Hd) as Hv. rewrite E in Hv. destruct Hv as [Hm Hdd].
  assert (0 <= y <= 9999).
  { assert (0 <= y /\ y <= 9999) as [? ?]; [split|done].
    - destruct (decide (day = -719528)) as [->|Hne]; [vm_compute in E; injection E as <- _ _; lia|].
      pose proof (civil_lt (-719528) day) as H. unfold in_years in *. rewrite E in H.
      assert (civil_from_days (-719528) = (0, 1, 1)) as E0 by (vm_compute; reflexivity). rewrite E0 in H. unfold date_lt in H. lia.
    - destruct (decide (day = 2932896)) as [->|Hne]; [vm_compute in E; injection E as <- _ _; lia|].
      pose proof (civil_lt day 2932896) as H. unfold in_years in *. rewrite E in H.
      assert (civil_from_days 2932896 = (9999, 12, 31)) as E0 by (vm_compute; reflexivity). rewrite E0 in H. unfold date_lt in H. lia. }
  split_and!; try lia. unfold days_in_month in Hdd. repeat case_match; lia.
Qed.

(** The texts of dates are ordered like the days. *)
Lemma format_date_compare a b : in_years a -> in_years b -> String.compare (format_date a) (format_date b) = (a ?= b).
Proof.
  intros Ha Hb.
  assert (Hlt : forall a b, in_years a -> in_years b -> a < b -> String.compare (format_date a) (format_date b) = Lt).
  { clear. intros a b Ha Hb Hlt. pose proof (civil_lt a b Ha Hb Hlt) as Hc. unfold format_date.
    destruct (civil_from_days a) as [[y m] d] eqn:Ea, (civil_from_days b) as [[y' m'] d'] eqn:Eb.
    destruct (civil_year a y m d Ha Ea) as (Hy & Hm & Hd), (civil_year b y' m' d' Hb Eb) as (Hy' & Hm' & Hd').
    destruct (compare_pad0 4 y y') as [Hly Ecy]; [lia..|]. destruct (compare_pad0 2 m m') as [Hlm Ecm]; [lia..|].
    destruct (compare_pad0 2 d d') as [_ Ecd]; [lia..|].
    rewrite (compare_app _ _ _ _ Hly), Ecy.
    rewrite compare_dash, (compare_app _ _ _ _ Hlm), Ecm, compare_dash, Ecd.
    unfold date_lt in Hc.
    destruct (Z.compare_spec y y'); [|done|lia]. destruct (Z.compare_spec m m'); [|done|lia].
    destruct (Z.compare_spec d d'); [lia|done|lia]. }
  destruct (Z.compare_spec a b) as [->|H|H].
  - apply compare_refl.
  - by apply Hlt.
  - rewrite String.compare_antisym. by rewrite (Hlt b a Hb Ha H).
Qed.

Lemma format_date_inj a b : in_years a -> in_years b -> format_date a = format_date b -> a = b.
Proof.
  intros Ha Hb E. pose proof (format_date_compare a b Ha Hb) as Hc.
  rewrite E in Hc. rewrite compare_refl in Hc. by apply Z.compare_eq_iff.
Qed.

Lemma format_date_parses day : in_years day -> parse_date (format_date day) = Some day.
Proof.
  intros Hd. destruct (civil_from_days day) as [[y m] d] eqn:E. destruct (civil_year day y m d Hd E) as (Hy & _ & _).
  eapply parse_format_date; [done..|]. unfold in_years, day_bound in *. lia.
Qed.

(** ** Names *)
Lemma strip_rotated base x : strip_prefix (base +:+ ".")%string (rotated_path base x) = Some x.
Proof. apply strip_prefix_Some. unfold rotated_path. by rewrite str_app_assoc. Qed.

Lemma rotated_inj base x y : rotated_path base x = rotated_path base y -> x = y.
Proof. intros E. apply (f_equal (strip_prefix (base +:+ ".")%string)) in E. rewrite !strip_rotated in E. congruence. Qed.

Lemma rotated_ne base x : rotated_path base x <> base.
Proof.
  unfold rotated_path. intros E. apply (f_equal str_len) in E. rewrite !str_len_app in E. simpl in E.
  pose proof (str_len_nonneg x). lia.
Qed.

Lemma base_not_expired base cutoff : expired base cutoff base = false.
Proof.
  unfold expired. destruct (strip_prefix _ base) as [x|] eqn:E; [|done].
  apply strip_prefix_Some in E. exfalso. apply (rotated_ne base x). unfold rotated_path. rewrite str_app_assoc. by symmetry.
Qed.

Lemma rotated_expired base c d : in_years c -> in_years d ->
  expired base (format_date c) (rotated_path base (format_date d)) = bool_decide (d < c).
Proof.
  intros Hc Hd. unfold expired. rewrite strip_rotated, format_date_parses by done. unfold String.ltb.
  rewrite format_date_compare by done. destruct (Z.compare_spec d c); symmetry;
    [apply bool_decide_eq_false|apply bool_decide_eq_true|apply bool_decide_eq_false]; lia.
Qed.

(** What [prune] leaves under a name, when the system obeys. *)
Lemma prune_lookup n w today fs name : in_years today -> lw_max_days w <> 0 ->
  prune (all_well n) w (format_date today) fs !! name =
  if expired (lw_base w) (format_date (today - lw_max_days w)) name then None else fs !! name.
Proof.
  intros Ht Hm. unfold prune. rewrite decide_False, format_date_parses by done. cbn [la_list all_well la_remove].
  apply option_eq. intros x. rewrite map_lookup_filter_Some. cbn [fst].
  destruct (expired _ _ name); simpl; [|intuition]. split; [by intros [_ ?]|done].
Qed.

(** ** A run of the writer *)

(** What was written on a day. *)
Definition lines_of (day : Z) (es : list (Z * list byte)) : list byte :=
  concat (snd <$> filter (fun e : Z * list byte => e.1 = day) es).

Fixpoint in_order (from : Z) (es : list (Z * list byte)) : Prop :=
  match es with [] => True | e :: es => from <= e.1 <= 2932896 /\ in_order e.1 es end.

Definition last_day (d0 : Z) (es : list (Z * list byte)) : Z := default d0 (last (fst <$> es)).

(** Whether the text of a day is kept in a file of its own: a day before the
    current one on which the writer was in use, not more than [m] days ago. *)
Definition kept (m d0 cur : Z) (es : list (Z * list byte)) (d : Z) : bool :=
  bool_decide (d < cur /\ (m = 0 \/ cur - m <= d) /\ (d = d0 \/ d ∈ es.*1)).

Record log_inv (base : string) (m d0 cur : Z) (es : list (Z * list byte)) (w : WriterState) (fs : log_files) : Prop := {
  li_writer : w = {| lw_base := base; lw_file := true; lw_date := format_date cur; lw_max_days := m |};
  li_current : fs !! base = Some (lines_of cur es);
  li_days : forall d, in_years d -> fs !! rotated_path base (format_date d) = if kept m d0 cur es d then Some (lines_of d es) else None;
  li_past : Forall (fun e => e.1 <= cur) es /\ d0 <= cur /\ (cur = d0 \/ cur ∈ es.*1);
}.

Lemma lines_of_snoc d es e : lines_of d (es ++ [e]) = lines_of d es ++ (if decide (e.1 = d) then e.2 else []).
Proof.
  unfold lines_of. rewrite filter_app, fmap_app, concat_app. f_equal. rewrite filter_cons, filter_nil.
  case_decide; simpl; by rewrite ?app_nil_r.
Qed.

Lemma lines_of_future d es cur : Forall (fun e => e.1 <= cur) es -> cur < d -> lines_of d es = [].
Proof.
  intros H Hd. unfold lines_of. induction H as [|e es He _ IH]; [done|]. rewrite filter_cons, decide_False by lia. done.
Qed.

Lemma kept_snoc m d0 cur es e d : d < cur -> cur <= e.1 -> kept m d0 cur (es ++ [e]) d = kept m d0 cur es d.
Proof.
  intros Hd He. unfold kept. apply bool_decide_ext. rewrite fmap_app, elem_of_app; cbn [fmap list_fmap]; rewrite elem_of_cons.
  split; intros (? & ? & Hx); split_and!; try done; destruct Hx as [->|Hx]; try (by left); right; try (by left).
  destruct Hx as [Hx|[->|?%elem_of_nil]]; [done| |done]. simpl in *. lia.
Qed.

(** Which texts are kept after a day has ended. *)
Lemma kept_ended m d0 cur es day line : cur < day -> cur = d0 \/ cur ∈ es.*1 ->
  kept m d0 day (es ++ [(day, line)]) cur = bool_decide (m = 0 \/ day - m <= cur).
Proof.
  intros Hlt Ht. unfold kept. apply bool_decide_ext. rewrite fmap_app, elem_of_app. intuition.
Qed.

Lemma kept_older m d0 cur es day line d :
  Forall (fun e => e.1 <= cur) es -> d0 <= cur -> cur < day -> d <> cur -> d <> day ->
  kept m d0 day (es ++ [(day, line)]) d = kept m d0 cur es d && bool_decide (m = 0 \/ day - m <= d).
Proof.
  intros Hp H0 Hlt Hc Hd. unfold kept. rewrite <- bool_decide_and. apply bool_decide_ext.
  rewrite fmap_app, elem_of_app. cbn [fmap list_fmap fst]. rewrite elem_of_cons, elem_of_nil.
  assert (Hnc : d ∈ es.*1 -> d <= cur).
  { intros (e & -> & He)%list_elem_of_fmap. rewrite Forall_forall in Hp. by apply Hp. }
  split.
  - intros (? & ? & [->|[Hx|[?|[]]]]); [|apply Hnc in Hx as Hy|done]; split_and!; intuition lia.
  - intros ((? & ? & [->|Hx]) & ?); [|apply Hnc in Hx as Hy]; split_and!; intuition lia.
Qed.

(** A write on the current day. *)
Lemma same_day_inv base m d0 cur es w fs line : in_years cur ->
  log_inv base m d0 cur es w fs ->
  exists fs', log_write (all_well (length line)) (format_date cur) line w fs = (Some (length line), w, fs') /\
    log_inv base m d0 cur (es ++ [(cur, line)]) w fs'.
Proof.
  intros Hcur [-> Hf Hd (Hp & H0 & Ht)]. unfold log_write, rotate_if_needed. cbn [lw_date lw_file lw_base la_write all_well].
  rewrite decide_True by done. cbn [lw_date lw_file lw_base la_write all_well].
  eexists. split; [by rewrite Nat.min_id|]. rewrite Hf, firstn_all. cbn [default].
  constructor; [done| | |].
  - rewrite lookup_insert_eq, lines_of_snoc. cbn [fst snd]. by rewrite decide_True.
  - intros d Hy. rewrite lookup_insert_ne by (intros E; symmetry in E; by apply rotated_ne in E). rewrite Hd by done.
    destruct (decide (d < cur)) as [Hlt|Hge].
    + rewrite (kept_snoc m d0 cur es (cur, line) d) by (done || simpl; lia). rewrite lines_of_snoc. cbn [fst snd].
      by rewrite decide_False, app_nil_r by lia.
    + assert (forall es, kept m d0 cur es d = false) as Hk by (intros ?; apply bool_decide_eq_false; lia). by rewrite !Hk.
  - rewrite Forall_app, fmap_app, elem_of_app. split_and!; [done|by constructor|done|]. right. right. by left.
Qed.

(** A write on a later day. *)
Lemma next_day_inv base m d0 cur es w fs day line :
  0 <= m <= 719528 -> 0 <= cur < day -> day <= 2932896 -> log_inv base m d0 cur es w fs ->
  exists w' fs', log_write (all_well (length line)) (format_date day) line w fs = (Some (length line), w', fs') /\
    log_inv base m d0 day (es ++ [(day, line)]) w' fs'.
Proof.
  intros Hm Hcur Hday [-> Hf Hd (Hp & H0 & Ht)]. unfold log_write, rotate_if_needed. cbn [lw_date lw_file lw_base].
  assert (Hyc : in_years cur) by (unfold in_years; lia). assert (Hyd : in_years day) by (unfold in_years; lia).
  rewrite decide_False by (intros E%format_date_inj; [lia|done..]).
  unfold rotate_to. cbn [lw_base lw_date lw_max_days all_well la_rename la_open]. rewrite Hf.
  unfold open_append. set (fs1 := <[rotated_path base (format_date cur) := lines_of cur es]> (delete base fs)).
  assert (Hb1 : fs1 !! base = None) by (unfold fs1; rewrite lookup_insert_ne, lookup_delete_eq by apply rotated_ne; done).
  rewrite Hb1. cbn [default]. set (w' := {| lw_base := base; lw_file := true; lw_date := format_date day; lw_max_days := m |}).
  set (fs2 := <[base := []]> fs1). fold (all_well (length line)). set (fs3 := prune _ w' _ fs2).
  assert (Hfs3 : forall name, fs3 !! name = if bool_decide (m <> 0) && expired base (format_date (day - m)) name then None else fs2 !! name).
  { intros name. unfold fs3. destruct (decide (m = 0)) as [E|E].
    - unfold prune. cbn [lw_max_days w']. rewrite decide_True, bool_decide_false by (done || lia). done.
    - rewrite prune_lookup by done. by rewrite bool_decide_true. }
  cbn [lw_file lw_base w' la_write all_well]. rewrite Nat.min_id, firstn_all. rewrite (Hfs3 base), base_not_expired, andb_false_r.
  unfold fs2 at 1. rewrite lookup_insert_eq. cbn [default app].
  do 2 eexists. split; [reflexivity|]. constructor; [done| | |].
  - rewrite lookup_insert_eq, lines_of_snoc, (lines_of_future day es cur) by (done || lia). cbn [fst snd]. by rewrite decide_True.
  - intros d Hy. rewrite lookup_insert_ne by (intros E; symmetry in E; by apply rotated_ne in E). rewrite Hfs3.
    rewrite rotated_expired by (done || unfold in_years; lia). unfold fs2.
    rewrite lookup_insert_ne by (intros E; symmetry in E; by apply rotated_ne in E). unfold fs1.
    assert (Hsn : d <> day -> lines_of d (es ++ [(day, line)]) = lines_of d es).
    { intros Hne. rewrite lines_of_snoc. cbn [fst snd]. by rewrite decide_False, app_nil_r by congruence. }
    destruct (decide (d = cur)) as [->|Hne].
    + rewrite lookup_insert_eq, Hsn, kept_ended by (done || lia).
      repeat case_bool_decide; cbn [andb]; try done; exfalso; lia.
    + rewrite lookup_insert_ne by (intros E%rotated_inj%format_date_inj; [lia|done..]).
      rewrite lookup_delete_ne by (intros E; symmetry in E; by apply rotated_ne in E). rewrite Hd by done.
      destruct (decide (d = day)) as [->|Hnd].
      * assert (forall c es, c <= day -> kept m d0 c es day = false) as Hk by (intros ???; apply bool_decide_eq_false; lia).
        rewrite !Hk by lia. by destruct (_ && _).
      * rewrite Hsn, (kept_older m d0 cur) by (done || lia).
        destruct (kept m d0 cur es d); repeat case_bool_decide; cbn [andb]; try done; exfalso; lia.
  - rewrite Forall_app, fmap_app, elem_of_app. split_and!; [|by constructor|lia|].
    + eapply Forall_impl; [exact Hp|]. intros e He. simpl in *. lia.
    + right. right. by left.
Qed.

Lemma log_run_inv base m d0 es : forall cur seen w fs, 0 <= m <= 719528 -> 0 <= cur <= 2932896 -> in_order cur es ->
  log_inv base m d0 cur seen w fs ->
  let '(w', fs') := log_run es w fs in log_inv base m d0 (last_day cur es) (seen ++ es) w' fs'.
Proof.
  induction es as [|[day line] es IH]; intros cur seen w fs Hm Hc Ho Hi.
  - cbn. by rewrite app_nil_r.
  - destruct Ho as [Hd Ho]. cbn [fst] in *. cbn [log_run].
    assert (exists w' fs', log_write (all_well (length line)) (format_date day) line w fs = (Some (length line), w', fs') /\
      log_inv base m d0 day (seen ++ [(day, line)]) w' fs') as (w' & fs' & -> & Hi').
    { destruct (decide (day = cur)) as [->|].
      - destruct (same_day_inv base m d0 cur seen w fs line) as (fs' & E & Hi'); [unfold in_years; lia|done|eauto].
      - apply (next_day_inv base m d0 cur); (done || lia). }
    specialize (IH day (seen ++ [(day, line)]) w' fs' Hm ltac:(lia) Ho Hi').
    rewrite <- app_assoc in IH. cbn [app] in IH.
    replace (last_day cur ((day, line) :: es)) with (last_day day es); [done|].
    unfold last_day. cbn [fmap list_fmap fst]. rewrite last_cons. by destruct (last es.*1).
Qed.

(** No line of a log is lost while days pass.  With a new log file and a
    clock that does not go back, whatever is written on whatever days: the file
    holds exactly what was written on the current day, and what was written on an
    earlier day is, whole and in order, in the file of that date if the day is at
    most [max_days] days back (always, if that is 0); older files are gone, and
    there is none for a day without the writer. *)
Theorem log_keeps_days base m d0 es fs w fs0 :
  0 <= m <= 719528 -> 0 <= d0 <= 2932896 -> in_order d0 es ->
  fs !! base = None -> (forall d, in_years d -> fs !! rotated_path base (format_date d) = None) ->
  writer_new true base m (format_date d0) fs = Some (w, fs0) ->
  let '(w', fs') := log_run es w fs0 in
  let cur := last_day d0 es in
  fs' !! base = Some (lines_of cur es) /\
  forall d, in_years d -> fs' !! rotated_path base (format_date d) = if kept m d0 cur es d then Some (lines_of d es) else None.
Proof.
  intros Hm H0 Ho Hb Hd. unfold writer_new, open_append. cbn [mbind option_bind]. rewrite Hb. intros [= <- <-].
  pose proof (log_run_inv base m d0 es d0 [] _ (<[base := []]> fs) Hm H0 Ho
    (Build_log_inv base m d0 d0 [] {| lw_base := base; lw_file := true; lw_date := format_date d0; lw_max_days := m |} (<[base := []]> fs)
      eq_refl (lookup_insert_eq _ _ _) ltac:(intros d Hy; rewrite lookup_insert_ne, Hd by
        (done || (intros E; symmetry in E; by apply rotated_ne in E)); unfold kept; rewrite bool_decide_false; [done|];
        intros (? & _ & [?|?%elem_of_nil]); [lia|done])
      ltac:(split_and!; [constructor|lia|by left]))) as H.
  cbn [default app] in *. destruct (log_run es _ _) as [w' fs']. by destruct H.
Qed.

(** ** What the model shows *)
Definition day_run (m d0 : Z) (fs : log_files) (es : list (Z * string)) : list (string * string) :=
  match writer_new true "frp.log" m (format_date d0) fs with
  | Some (w, fs) =>
      let fs := (log_run (prod_map id as_bytes <$> es) w fs).2 in
      omap (fun n => (fun l => (n, of_bytes l)) <$> fs !! n)
        ["frp.log"; "frp.log.2024-01-09"; "frp.log.2024-01-10"; "frp.log.2024-01-11"; "frp.log.2024-01-12"]%string
  | None => []
  end.

(** [max_days] of 1 keeps today's lines and yesterday's. *)
Example one_day_more_is_kept :
  day_run 1 19732 ∅ [(19732, "a"); (19733, "b")]%string = [("frp.log", "b"); ("frp.log.2024-01-10", "a")]%string.
Proof. vm_compute. reflexivity. Qed.

(** A clock that goes back over midnight: the first text of the eleventh is
    replaced by the second. *)
Example clock_back_overwrites :
  day_run 0 19733 ∅ [(19733, "a"); (19732, "b"); (19733, "c"); (19734, "d")]%string =
  [("frp.log", "d"); ("frp.log.2024-01-10", "b"); ("frp.log.2024-01-11", "c")]%string.
Proof. vm_compute. reflexivity. Qed.

(** A file that is there when the process starts counts as today's, whatever
    day it is of. *)
Example restart_changes_the_date :
  day_run 0 19733 {[ "frp.log" := as_bytes "of the ninth." ]}%string [(19733, "a"); (19734, "b")]%string =
  [("frp.log", "b"); ("frp.log.2024-01-11", "of the ninth.a")]%string.
Proof. vm_compute. reflexivity. Qed.

(** ** Witness *)
Lemma log_keeps_days_witness :
  let es := [(19732, as_bytes "a"); (19732, as_bytes "b"); (19734, as_bytes "c")]%string in
  let '(w', fs') := log_run es {| lw_base := "frp.log"; lw_file := true; lw_date := format_date 19732; lw_max_days := 3 |}
    (<["frp.log"%string := []]> ∅) in
  fs' !! "frp.log"%string = Some (lines_of (last_day 19732 es) es) /\
  forall d, in_years d -> fs' !! rotated_path "frp.log" (format_date d) =
    if kept 3 19732 (last_day 19732 es) es d then Some (lines_of d es) else None.
Proof.
  apply (log_keeps_days "frp.log" 3 19732 [(19732, as_bytes "a"); (19732, as_bytes "b"); (19734, as_bytes "c")]%string ∅).
  - lia.
  - lia.
  - cbn. lia.
  - reflexivity.
  - intros d _. apply lookup_empty.
  - reflexivity.
Defined.
