(* ===== verification/ServerMain.v ===== *)
(** * The server's command line (src/rust_frp_server/src/bin/rust_frps.rs)

    What [main] reads from its arguments, and how the process ends.  The
    arguments are those of the process, the program's name first.  Loading the
    configuration, opening the log file, making and running the server and waiting
    for its sessions are arguments; they are ConfigLoader.v's, Logging.v's,
    ServerStart.v's and ServerIngress.v's. *)
From S2P Require Import Prelude RustStd ConfigTypes.

Definition version_requested (args : list string) : bool :=
  existsb (fun a => bool_decide (a = "-v"%string \/ a = "--version"%string)) (drop 1 args).

Definition strict_key (s : string) : bool := bool_decide (s = "--strict_config"%string \/ s = "--strict-config"%string).

Definition strict_arg (strict : bool) (arg : string) : bool :=
  match split_once "=" arg with
  | Some (key, v) => if strict_key key then bool_decide (v ∈ ["true"; "1"; "TRUE"; "True"]%string) else strict
  | None => if strict_key arg then true else strict
  end.

Definition strict_config (args : list string) : bool := foldl strict_arg true (drop 1 args).

Definition server_config_path (args : list string) : string :=
  if decide (2 < length args)%nat then
    match args with
    | _ :: "-c"%string :: path :: _ => path
    | _ => "frps.toml"%string
    end
  else "frps.toml"%string.

(** How the process ends: the version printed, a configuration that does not
    load, a log file that does not open, a server that is not made, or a server
    that ran, with the error of [start] and whether its sessions drained. *)
Inductive server_end :=
| PrintedVersion
| NoConfig (e : string)
| NoLogFile (e : string)
| NoServer (e : string)
| Ran (start : result string unit) (drained : bool).

Section Main.
Context {S : Type} (load : string -> bool -> result string ServerConfig) (init_logging : ResolvedLog -> result string unit)
  (new : ServerConfig -> string -> result string S) (start : S -> result string unit) (drains : S -> bool).

Definition server_main (args : list string) : server_end :=
  if version_requested args then PrintedVersion else
  let path := server_config_path args in
  match load path (strict_config args) with
  | Err e => NoConfig e
  | Ok config =>
      match init_logging (server_resolved_log config) with
      | Err e => NoLogFile e
      | Ok _ => match new config path with
                | Err e => NoServer e
                | Ok s => Ran (start s) (drains s)
                end
      end
  end.
End Main.

Definition exit_code (e : server_end) : Z := match e with NoLogFile _ => 1 | _ => 0 end.

(** ** What the arguments mean *)

(** The last word on strictness counts. *)
Lemma strict_last args a : 1 <= zlen args -> strict_config (args ++ [a]) = strict_arg (strict_config args) a.
Proof.
  intros H. unfold strict_config. destruct args as [|x args]; [done|]. cbn [app drop]. rewrite !drop_0. by rewrite foldl_app.
Qed.

(** Exactly the versions asked for by name are printed, wherever they stand: also
    when they are the value of [-c]. *)
Lemma version_requested_iff args : version_requested args = true <-> exists a, a ∈ drop 1 args /\ (a = "-v"%string \/ a = "--version"%string).
Proof.
  unfold version_requested. rewrite existsb_exists. split; intros (a & Ha & Hb); exists a.
  - apply bool_decide_eq_true in Hb. split; [by apply list_elem_of_In|done].
  - split; [by apply list_elem_of_In|by apply bool_decide_eq_true].
Qed.

(** A server that could not load its configuration, could not be made or could
    not start ends like one that ran. *)
Lemma failures_exit_with_0 e e' d : exit_code (NoConfig e) = 0 /\ exit_code (NoServer e) = 0 /\ exit_code (Ran (Err e') d) = 0.
Proof. done. Qed.

(** [-c] is only seen in front: after another argument the default file is read. *)
Example config_path_only_in_front :
  server_config_path ["frps"; "--strict_config=false"; "-c"; "my.toml"]%string = "frps.toml"%string /\
  server_config_path ["frps"; "-c"; "my.toml"; "--strict_config=false"]%string = "my.toml"%string.
Proof. done. Qed.
