(* ===== verification/Bridge.v ===== *)
(** * Bridging two streams (src/rust_frp_util/src/lib.rs
    [bridge_streams_counted_with_grace])

    Every tunnel ends in a bridge: tokio's [copy_bidirectional] between two
    streams, a timer that starts when the first of them has ended, and two
    shutdowns with a limit each.  The copying itself is tokio's: what it does in
    one poll is a list of calls on the two streams and perhaps a result, part of
    the event.  The streams are any [Transport]s behind [EofWatcher]s.  One poll of
    the bridge's task is one event; [b_eof_at] is a ghost, the time of the first
    notification. *)
From S2P Require Import Prelude RustStd Transport.

(** ** [EofWatcher] *)
Record watched (T : Type) := Watched { wa_inner : T; wa_seen : bool }.
Arguments Watched {T} wa_inner wa_seen.
Arguments wa_inner {T} w.
Arguments wa_seen {T} w.

Definition watch {T} (t : T) : watched T := Watched t false.

Definition is_eof (r : poll (result io_error (list byte))) : bool :=
  match r with Ready (Ok []) => true | _ => false end.

(** [poll_read]; it notifies when [wa_seen] becomes true. *)
Definition watched_read `{Transport T} (w : watched T) (cap : nat) : poll (result io_error (list byte)) * watched T :=
  let '(r, t) := t_read (wa_inner w) cap in (r, Watched t (wa_seen w || is_eof r)).

#[global] Instance watched_transport `{Transport T} : Transport (watched T) := {|
  t_write := fun w bs => let '(r, t) := t_write (wa_inner w) bs in (r, Watched t (wa_seen w));
  t_flush := fun w => let '(r, t) := t_flush (wa_inner w) in (r, Watched t (wa_seen w));
  t_shutdown := fun w => let '(r, t) := t_shutdown (wa_inner w) in (r, Watched t (wa_seen w));
  t_read := watched_read;
  t_sent := fun w => t_sent (wa_inner w);
  t_incoming := fun w => t_incoming (wa_inner w) |}.

(** ** The bridge *)
Definition BRIDGE_HALF_CLOSE_GRACE : Z := secs 60.
Definition shutdown_cap : Z := secs 5.

Definition grace_error (grace : Z) : io_error :=
  IoError TimedOut ("bridge half-close grace (" +:+ dec (grace / secs 1) +:+ "s) exceeded: one direction finished but the peer kept the other direction open without FIN; force-closing to release resources")%string.

(** How the [select!] ended. *)
Inductive ending := Copied (r : result io_error (Z * Z)) | Cut.

Inductive phase :=
| Copying (timer : option Z)              (* when the grace ends *)
| Closing1 (e : ending) (limit : Z)
| Closing2 (e : ending) (limit : Z)
| Done (e : ending).

Record bridge (T1 T2 : Type) := Bridge {
  b_one : watched T1;
  b_two : watched T2;
  b_permit : bool;
  b_phase : phase;
  b_eof_at : option Z;                    (* ghost *)
}.
Arguments Bridge {T1 T2} _ _ _ _ _.
Arguments b_one {T1 T2} _.
Arguments b_two {T1 T2} _.
Arguments b_permit {T1 T2} _.
Arguments b_phase {T1 T2} _.
Arguments b_eof_at {T1 T2} _.

Inductive side := One | Two.
Inductive call := CRead (s : side) (cap : nat) | CWrite (s : side) (bs : list byte) | CFlush (s : side) | CShutdown (s : side).

Record bridge_poll := {
  po_now : Z;
  po_copy_first : bool;                   (* [select!] polls its branches in either order *)
  po_calls : list call;
  po_result : option (result io_error (Z * Z));
}.

Section Bridge.
Context {T1 T2 : Type} `{Transport T1, Transport T2} (grace : Z).

Definition bridge_new (stream1 : T1) (stream2 : T2) : bridge T1 T2 :=
  Bridge (watch stream1) (watch stream2) false (Copying None) None.

Definition call_on {T} `{Transport T} (c : call) (w : watched T) : watched T :=
  match c with
  | CRead _ cap => (t_read w cap).2
  | CWrite _ bs => (t_write w bs).2
  | CFlush _ => (t_flush w).2
  | CShutdown _ => (t_shutdown w).2
  end.
Definition call_side (c : call) : side := match c with CRead s _ | CWrite s _ | CFlush s | CShutdown s => s end.

(** A watcher that sees the end for the first time leaves a permit. *)
Definition run_call (now : Z) (b : bridge T1 T2) (c : call) : bridge T1 T2 :=
  let one := match call_side c with One => call_on c (b_one b) | Two => b_one b end in
  let two := match call_side c with Two => call_on c (b_two b) | One => b_two b end in
  let notified := (negb (wa_seen (b_one b)) && wa_seen one) || (negb (wa_seen (b_two b)) && wa_seen two) in
  Bridge one two (b_permit b || notified) (b_phase b)
    (if notified then Some (default now (b_eof_at b)) else b_eof_at b).

Definition run_calls (now : Z) (cs : list call) (b : bridge T1 T2) : bridge T1 T2 := foldl (run_call now) b cs.

(** The second branch: wait for the permit, then sleep. *)
Definition timer_turn (now : Z) (b : bridge T1 T2) : bridge T1 T2 * bool :=
  match b_phase b with
  | Copying (Some limit) => (b, bool_decide (limit <= now))
  | Copying None =>
      if b_permit b
      then (Bridge (b_one b) (b_two b) false (Copying (Some (now + grace))) (b_eof_at b), bool_decide (now + grace <= now))
      else (b, false)
  | _ => (b, false)
  end.

Definition is_ready {A} (r : poll A) : bool := match r with Ready _ => true | Pending => false end.

(** The two shutdowns under their time-outs, as far as one poll gets. *)
Definition close2_turn (now : Z) (e : ending) (limit : Z) (b : bridge T1 T2) : bridge T1 T2 :=
  let '(r, two) := t_shutdown (b_two b) in
  Bridge (b_one b) two (b_permit b) (if is_ready r || bool_decide (limit <= now) then Done e else Closing2 e limit) (b_eof_at b).
Definition close1_turn (now : Z) (e : ending) (limit : Z) (b : bridge T1 T2) : bridge T1 T2 :=
  let '(r, one) := t_shutdown (b_one b) in
  let b := Bridge one (b_two b) (b_permit b) (Closing1 e limit) (b_eof_at b) in
  if is_ready r || bool_decide (limit <= now) then close2_turn now e (now + shutdown_cap) b else b.
Definition close (now : Z) (e : ending) (b : bridge T1 T2) : bridge T1 T2 := close1_turn now e (now + shutdown_cap) b.

(** One poll of the task. *)
Definition copying_turn (p : bridge_poll) (b : bridge T1 T2) : bridge T1 T2 :=
  let now := po_now p in
  if po_copy_first p then
    let b := run_calls now (po_calls p) b in
    match po_result p with
    | Some r => close now (Copied r) b
    | None => let '(b, fired) := timer_turn now b in if fired : bool then close now Cut b else b
    end
  else
    let '(b, fired) := timer_turn now b in
    if fired : bool then close now Cut b else
    let b := run_calls now (po_calls p) b in
    match po_result p with Some r => close now (Copied r) b | None => b end.

Definition bridge_turn (b : bridge T1 T2) (p : bridge_poll) : bridge T1 T2 :=
  match b_phase b with
  | Copying _ => copying_turn p b
  | Closing1 e limit => close1_turn (po_now p) e limit b
  | Closing2 e limit => close2_turn (po_now p) e limit b
  | Done _ => b
  end.

Definition bridge_run (ps : list bridge_poll) (b : bridge T1 T2) : bridge T1 T2 := foldl bridge_turn b ps.
End Bridge.

(** [bridge_streams_counted]'s result. *)
Definition bridge_result (grace : Z) (e : ending) : result io_error (Z * Z) :=
  match e with Copied r => r | Cut => Err (grace_error grace) end.

(** [is_benign_bridge_error] of an I/O error, and [log_bridge_error]: whether
    the level is [error]. *)
Definition is_benign_bridge_error (e : io_error) : bool :=
  contains_str "half-close grace" (err_msg e) ||
  match err_kind e with ConnectionReset | ConnectionAborted | BrokenPipe | UnexpectedEof => true | _ => false end.
Definition logs_error (e : io_error) : bool := negb (is_benign_bridge_error e).

(** ** The watchers change nothing *)
#[global] Instance watched_laws `{TransportLaws T} : TransportLaws (watched T).
Proof.
  split; cbn [t_write t_flush t_read t_sent t_incoming watched_transport].
  - intros w bs n w' E. destruct (t_write (wa_inner w) bs) as [r t'] eqn:Ew. injection E as -> <-. by apply t_write_ok in Ew.
  - intros w bs r w' E Hr. destruct (t_write (wa_inner w) bs) as [r' t'] eqn:Ew. injection E as -> <-. eapply t_write_other; [exact Ew|done].
  - intros w r w' E. destruct (t_flush (wa_inner w)) as [r' t'] eqn:Ew. injection E as -> <-. by eapply t_flush_frame.
  - intros w cap bs w' E. unfold watched_read in E. destruct (t_read (wa_inner w) cap) as [r' t'] eqn:Ew. injection E as -> <-. by apply t_read_ok in Ew.
  - intros w cap r w' E Hr. unfold watched_read in E. destruct (t_read (wa_inner w) cap) as [r' t'] eqn:Ew. injection E as -> <-. eapply t_read_other; [exact Ew|done].
Qed.

Section Facts.
Context {T1 T2 : Type} `{Transport T1, Transport T2} (grace : Z).
Implicit Types b : bridge T1 T2.

Definition seen b : bool := wa_seen (b_one b) || wa_seen (b_two b).

Lemma call_on_seen {T} `{Transport T} c (w : watched T) : wa_seen w = true -> wa_seen (call_on c w) = true.
Proof.
  intros Hs. destruct c; cbn; unfold watched_read.
  - destruct (t_read _ _). cbn. by rewrite Hs.
  - by destruct (t_write _ _).
  - by destruct (t_flush _).
  - by destruct (t_shutdown _).
Qed.

Lemma run_call_phase now b c : b_phase (run_call now b c) = b_phase b.
Proof. done. Qed.

Lemma run_calls_phase now cs b : b_phase (run_calls now cs b) = b_phase b.
Proof. unfold run_calls. revert b; induction cs as [|c cs IH]; intros b; [done|]. cbn [foldl]. by rewrite IH. Qed.

(** The end is noticed once and kept, and its time is that of the notice. *)
Record eof_inv (now : Z) b : Prop := {
  ei_at : is_Some (b_eof_at b) <-> seen b = true;
  ei_past : forall t, b_eof_at b = Some t -> t <= now;
  ei_waits : b_phase b = Copying None -> seen b = b_permit b;
  ei_timer : forall limit, b_phase b = Copying (Some limit) -> exists t, b_eof_at b = Some t /\ t + grace <= limit <= now + grace;
  ei_cut : b_phase b = Done Cut \/ (exists l, b_phase b = Closing1 Cut l \/ b_phase b = Closing2 Cut l) ->
    exists t, b_eof_at b = Some t /\ t + grace <= now;
  ei_limit : forall e l, b_phase b = Closing1 e l \/ b_phase b = Closing2 e l -> l <= now + shutdown_cap;
}.

(** What a call may change: it notices an end or it does not. *)
Lemma run_call_facts now b c : exists n : bool,
  seen (run_call now b c) = seen b || n /\ b_permit (run_call now b c) = b_permit b || n /\
  b_eof_at (run_call now b c) = (if n then Some (default now (b_eof_at b)) else b_eof_at b).
Proof.
  unfold run_call, seen.
  set (one := match call_side c with One => _ | Two => _ end). set (two := match call_side c with Two => _ | One => _ end).
  assert (Hone : wa_seen (b_one b) = true -> wa_seen one = true) by (unfold one; destruct (call_side c); [apply call_on_seen|done]).
  assert (Htwo : wa_seen (b_two b) = true -> wa_seen two = true) by (unfold two; destruct (call_side c); [done|apply call_on_seen]).
  cbn [b_one b_two b_permit b_eof_at].
  eexists. split_and!; [|reflexivity|reflexivity].
  destruct (wa_seen (b_one b)), (wa_seen (b_two b)), (wa_seen one), (wa_seen two); try done;
    by (specialize (Hone eq_refl) || specialize (Htwo eq_refl)).
Qed.

Lemma run_call_inv now b c : (exists timer, b_phase b = Copying timer) -> eof_inv now b -> eof_inv now (run_call now b c).
Proof.
  intros [timer Htm] [Ha Hp Hw Ht Hc Hl]. destruct (run_call_facts now b c) as (n & Hs & Hpm & He).
  pose proof (run_call_phase now b c) as Hph.
  assert (Hpast : forall t, b_eof_at (run_call now b c) = Some t -> t <= now).
  { rewrite He. intros t. destruct n; [|by apply Hp]. destruct (b_eof_at b) as [t0|]; simpl; intros [= <-]; [by apply Hp|lia]. }
  constructor; rewrite ?Hph, ?Htm; try done.
  - rewrite He, Hs. destruct n; [|by rewrite orb_false_r]. rewrite orb_true_r. split; [done|by eexists].
  - intros [= ->]. rewrite Hs, Hpm. by rewrite Hw.
  - intros limit [= ->]. destruct (Ht limit Htm) as (t & Et & Hb). exists t. split; [|done]. rewrite He, Et. by destruct n.
  - intros [?|(? & [?|?])]; done.
  - intros e l [?|?]; done.
Qed.

Lemma run_calls_inv now cs b : (exists timer, b_phase b = Copying timer) -> eof_inv now b -> eof_inv now (run_calls now cs b).
Proof.
  unfold run_calls. revert b; induction cs as [|c cs IH]; intros b Ht Hi; [done|]. cbn [foldl].
  apply IH; [|by apply run_call_inv]. by rewrite run_call_phase.
Qed.

Lemma eof_inv_later now now' b : now <= now' -> eof_inv now b -> eof_inv now' b.
Proof.
  intros Hle [Ha Hp Hw Ht Hc Hl]. constructor; try done.
  - intros t E. specialize (Hp t E). lia.
  - intros l E. destruct (Ht l E) as (t & ? & ?). exists t. split; [done|lia].
  - intros E. destruct (Hc E) as (t & ? & ?). exists t. split; [done|lia].
  - intros e l E. specialize (Hl e l E). lia.
Qed.

(** The timer's branch: it fires only when the grace is over. *)
Lemma timer_turn_inv now b b' fired : 0 <= grace -> (exists timer, b_phase b = Copying timer) -> eof_inv now b -> timer_turn grace now b = (b', fired) ->
  eof_inv now b' /\ (exists timer, b_phase b' = Copying timer) /\
  (fired = true -> exists t, b_eof_at b' = Some t /\ t + grace <= now).
Proof.
  intros Hg [timer Htm] Hi. unfold timer_turn. rewrite Htm. destruct timer as [limit|].
  - intros [= <- <-]. split_and!; [done|eauto|]. intros Hb%bool_decide_eq_true. destruct Hi as [_ _ _ Ht _ _].
    destruct (Ht limit Htm) as (t & Et & ?). exists t. split; [done|lia].
  - destruct (b_permit b) eqn:Epm; intros [= <- <-]; [|by split_and!; eauto].
    destruct Hi as [Ha Hp Hw Ht Hc Hl]. specialize (Hw Htm). rewrite Epm in Hw.
    destruct (proj2 Ha Hw) as [t Et]. specialize (Hp t Et). split_and!; [|cbn; eauto|].
    + constructor; cbn [b_phase b_eof_at]; try done.
      * rewrite Et. by intros ? [= <-].
      * intros limit [= <-]. exists t. split; [done|lia].
      * intros [?|(? & [?|?])]; done.
      * intros e l [?|?]; done.
    + intros Hb%bool_decide_eq_true. exists t. cbn. split; [done|lia].
Qed.

Lemma close2_turn_inv now e limit b : limit <= now + shutdown_cap ->
  (e = Cut -> exists t, b_eof_at b = Some t /\ t + grace <= now) ->
  (is_Some (b_eof_at b) <-> seen b = true) -> (forall t, b_eof_at b = Some t -> t <= now) ->
  eof_inv now (close2_turn now e limit b).
Proof.
  intros Hl Hc Ha Hp. unfold close2_turn. cbn [t_shutdown watched_transport].
  destruct (t_shutdown (wa_inner (b_two b))) as [r t']. unfold seen in *.
  generalize (is_ready r || bool_decide (limit <= now)). intros fin.
  constructor; unfold seen; cbn [b_phase b_eof_at b_one b_two wa_seen]; try done; destruct fin; try done.
  - intros [?|(? & [?|?])]; try done. apply Hc. by simplify_eq.
  - intros [?|(? & [?|?])]; try done. apply Hc. by simplify_eq.
  - by intros e' l' [?|?].
  - intros e' l' [?|?]; simplify_eq; done.
Qed.

Lemma close1_turn_inv now e limit b : limit <= now + shutdown_cap ->
  (e = Cut -> exists t, b_eof_at b = Some t /\ t + grace <= now) ->
  (is_Some (b_eof_at b) <-> seen b = true) -> (forall t, b_eof_at b = Some t -> t <= now) ->
  eof_inv now (close1_turn now e limit b).
Proof.
  intros Hl Hc Ha Hp. unfold close1_turn. cbn [t_shutdown watched_transport].
  destruct (t_shutdown (wa_inner (b_one b))) as [r t']. destruct (_ || _).
  - apply close2_turn_inv; [lia|done..].
  - unfold seen in *. constructor; unfold seen; cbn [b_phase b_eof_at b_one b_two wa_seen]; try done.
    + intros [?|(? & [?|?])]; try done. apply Hc. by simplify_eq.
    + intros e' l' [?|?]; simplify_eq. done.
Qed.

Lemma bridge_close_inv now e b : eof_inv now b -> (e = Cut -> exists t, b_eof_at b = Some t /\ t + grace <= now) -> eof_inv now (close now e b).
Proof. intros [] Hc. by apply close1_turn_inv; [lia|..]. Qed.

Lemma bridge_turn_inv b p now : 0 <= grace -> now <= po_now p -> eof_inv now b -> eof_inv (po_now p) (bridge_turn grace b p).
Proof.
  intros Hg Hle Hi. apply (eof_inv_later _ (po_now p)) in Hi; [|done]. unfold bridge_turn.
  destruct (b_phase b) as [timer|e l|e l|e] eqn:Eph; [|destruct Hi..|done].
  - unfold copying_turn. destruct (po_copy_first p).
    + assert (Hi' := run_calls_inv (po_now p) (po_calls p) b (ex_intro _ timer Eph) Hi).
      assert (Hph : exists timer, b_phase (run_calls (po_now p) (po_calls p) b) = Copying timer) by (rewrite run_calls_phase; eauto).
      destruct (po_result p) as [r|]; [by apply bridge_close_inv|].
      destruct (timer_turn _ _ _) as [b' fired] eqn:Et.
      destruct (timer_turn_inv _ _ _ _ Hg Hph Hi' Et) as (Hi'' & _ & Hf). destruct fired; [|done].
      apply bridge_close_inv; [done|]. intros _. by apply Hf.
    + destruct (timer_turn _ _ _) as [b' fired] eqn:Et.
      destruct (timer_turn_inv _ _ _ _ Hg (ex_intro _ timer Eph) Hi Et) as (Hi'' & Hph & Hf).
      destruct fired; [apply bridge_close_inv; [done|]; intros _; by apply Hf|].
      assert (Hi' := run_calls_inv (po_now p) (po_calls p) b' Hph Hi''). destruct (po_result p); [by apply bridge_close_inv|done].
  - apply close1_turn_inv; [eauto| |done..]. intros ->. apply ei_cut0. eauto.
  - apply close2_turn_inv; [eauto| |done..]. intros ->. apply ei_cut0. eauto.
Qed.
End Facts.

(** ** The bridge ends *)
Section Ends.
Context {T1 T2 : Type} `{Transport T1, Transport T2} (grace : Z).
Implicit Types b : bridge T1 T2.

(** When the task is to be polled next: at once after a notification, when a
    timer has run off; [None]: not before a stream does something. *)
Definition due (t : Z) b : option Z :=
  match b_phase b with
  | Copying None => if b_permit b then Some t else None
  | Copying (Some l) | Closing1 _ l | Closing2 _ l => Some l
  | Done _ => None
  end.

(** Polls in the order of time, none later than [delay] after it was due. *)
Fixpoint prompt (delay t : Z) b (ps : list bridge_poll) : Prop :=
  match ps with
  | [] => True
  | p :: ps => t <= po_now p /\ match due t b with Some d => po_now p <= Z.max d t + delay | None => True end /\
      prompt delay (po_now p) (bridge_turn grace b p) ps
  end.

Fixpoint ordered_polls (t : Z) (ps : list bridge_poll) : Prop :=
  match ps with [] => True | p :: ps => t <= po_now p /\ ordered_polls (po_now p) ps end.

Definition last_time (t : Z) (ps : list bridge_poll) : Z := default t (last (po_now <$> ps)).

Lemma last_time_cons t p ps : last_time t (p :: ps) = last_time (po_now p) ps.
Proof. unfold last_time. rewrite fmap_cons, last_cons. by destruct (last _). Qed.

Lemma bridge_run_inv ps : 0 <= grace -> forall t b, ordered_polls t ps -> eof_inv grace t b -> eof_inv grace (last_time t ps) (bridge_run grace ps b).
Proof.
  intros Hg. induction ps as [|p ps IH]; intros t b Ho Hi; [done|]. destruct Ho as [Ht Ho].
  rewrite last_time_cons. apply IH; [done|]. by eapply bridge_turn_inv.
Qed.

Lemma bridge_new_inv (s1 : T1) (s2 : T2) t : eof_inv grace t (bridge_new s1 s2).
Proof.
  constructor; cbn; try done; [by intros [?|(? & [?|?])]|by intros ? ? [?|?]].
Qed.

(** The bridge cuts nobody off before one side has ended.  Whatever the two
    streams and the copying do, in whatever order and at whatever times the task
    is polled: while neither side has sent its end the timer does not run, and a
    tunnel that was cut had seen an end at least the whole grace period before. *)
Theorem bridge_cuts_late ps (s1 : T1) (s2 : T2) t :
  0 <= grace -> ordered_polls t ps ->
  let b := bridge_run grace ps (bridge_new s1 s2) in
  (seen b = false -> forall limit, b_phase b <> Copying (Some limit)) /\
  (b_phase b = Done Cut -> exists t0, b_eof_at b = Some t0 /\ t0 + grace <= last_time t ps).
Proof.
  intros Hg Ho b. assert (Hi : eof_inv grace (last_time t ps) b) by (apply bridge_run_inv; [done..|apply bridge_new_inv]).
  destruct Hi as [Ha Hp Hw Ht Hc Hl]. split.
  - intros Hs limit Hph. destruct (Ht limit Hph) as (t0 & E & _). pose proof (proj1 Ha (mk_is_Some _ _ E)) as Hs'. congruence.
  - intros Hd. apply Hc. by left.
Qed.

(** By when the bridge is done, once it saw an end. *)
Definition done_by (delay t : Z) b : Z :=
  match b_phase b with
  | Copying None => t + delay + grace + delay + shutdown_cap + delay + shutdown_cap + delay
  | Copying (Some l) => Z.max l t + delay + shutdown_cap + delay + shutdown_cap + delay
  | Closing1 _ l => Z.max l t + delay + shutdown_cap + delay
  | Closing2 _ l => Z.max l t + delay
  | Done _ => t
  end.

Definition is_done b : bool := match b_phase b with Done _ => true | _ => false end.

(** What is left after closing has begun. *)
Lemma close2_turn_by delay now e l b : 0 <= delay -> l <= now + shutdown_cap ->
  done_by delay now (close2_turn now e l b) <= now + shutdown_cap + delay /\
  (l <= now -> is_done (close2_turn now e l b) = true).
Proof.
  intros Hd Hl. unfold close2_turn. destruct (t_shutdown (b_two b)) as [r two]. unfold done_by, is_done. cbn [b_phase].
  destruct (is_ready r); cbn [orb]; [unfold shutdown_cap, secs; lia|]. case_bool_decide; unfold shutdown_cap, secs in *; lia.
Qed.

Lemma close1_turn_by delay now e l b : 0 <= delay ->
  done_by delay now (close1_turn now e l b) <= Z.max l now + delay + shutdown_cap + delay /\
  (l <= now -> done_by delay now (close1_turn now e l b) <= now + shutdown_cap + delay).
Proof.
  intros Hd. unfold close1_turn. destruct (t_shutdown (b_one b)) as [r one].
  destruct (is_ready r || bool_decide (l <= now)) eqn:E.
  - destruct (close2_turn_by delay now e (now + shutdown_cap) (Bridge one (b_two b) (b_permit b) (Closing1 e l) (b_eof_at b)) Hd ltac:(lia)) as [Hb _].
    split; [|done]. unfold shutdown_cap, secs in *. lia.
  - apply orb_false_iff in E as [_ E%bool_decide_eq_false]. unfold done_by. cbn [b_phase]. split; [lia|done].
Qed.

Lemma close_by delay now e b : 0 <= delay ->
  done_by delay now (close now e b) <= now + shutdown_cap + delay + shutdown_cap + delay.
Proof.
  intros Hd. unfold close. destruct (close1_turn_by delay now e (now + shutdown_cap) b Hd) as [Hb _].
  unfold shutdown_cap, secs in *. lia.
Qed.

(** The calls of a poll and the timer's branch once an end was seen. *)
Lemma timer_turn_by delay t now b : 0 <= delay -> 0 <= grace -> t <= now -> (exists timer, b_phase b = Copying timer) ->
  (b_phase b = Copying None -> b_permit b = true) ->
  match due t b with Some d => now <= Z.max d t + delay | None => True end ->
  let '(b', fired) := timer_turn grace now b in
  (exists l, b_phase b' = Copying (Some l)) /\
  if (fired : bool) then now + shutdown_cap + delay + shutdown_cap + delay <= done_by delay t b
  else done_by delay now b' <= done_by delay t b.
Proof.
  intros Hd Hg Hle [timer Htm] Hpm Hdue. unfold due in Hdue. unfold timer_turn. rewrite Htm in Hdue. rewrite Htm.
  destruct timer as [l|].
  - split; [eauto|]. unfold done_by. rewrite Htm. case_bool_decide; lia.
  - rewrite Hpm in Hdue by done. rewrite Hpm by done. split; [cbn; eauto|]. unfold done_by. rewrite Htm. cbn [b_phase].
    case_bool_decide; lia.
Qed.

Lemma copying_slack delay t now b : 0 <= delay -> 0 <= grace -> (exists timer, b_phase b = Copying timer) ->
  (b_phase b = Copying None -> b_permit b = true) ->
  match due t b with Some d => now <= Z.max d t + delay | None => True end ->
  now + shutdown_cap + delay + shutdown_cap + delay <= done_by delay t b.
Proof.
  intros Hd Hg [timer Htm] Hpm. unfold due, done_by. rewrite Htm. destruct timer as [l|]; [lia|]. rewrite Hpm by done. lia.
Qed.

Definition armed b : Prop := b_phase b = Copying None -> b_permit b = true.

Lemma close_not_copying now e b : b_phase (close now e b) <> Copying None.
Proof.
  unfold close, close1_turn. destruct (t_shutdown (b_one b)) as [r one]. destruct (_ || _); [|done].
  unfold close2_turn. cbn [b_two]. destruct (t_shutdown (b_two b)) as [r' two]. cbn [b_phase]. by destruct (_ || _).
Qed.

Lemma run_calls_permit now cs b : b_permit b = true -> b_permit (run_calls now cs b) = true.
Proof.
  unfold run_calls. revert b; induction cs as [|c cs IH]; intros b Hb; [done|]. cbn [foldl]. apply IH.
  destruct (run_call_facts now b c) as (n & _ & -> & _). by rewrite Hb.
Qed.

Lemma copying_turn_by delay t b p timer : 0 <= delay -> 0 <= grace -> t <= po_now p -> b_phase b = Copying timer -> armed b ->
  match due t b with Some d => po_now p <= Z.max d t + delay | None => True end ->
  done_by delay (po_now p) (copying_turn grace p b) <= done_by delay t b /\ armed (copying_turn grace p b).
Proof.
  intros Hd Hg Hle Htm Ha Hdue. unfold copying_turn.
  assert (Hclose : forall e b', done_by delay (po_now p) (close (po_now p) e b') <= done_by delay t b /\ armed (close (po_now p) e b')).
  { intros e b'. split; [|by intros ?%close_not_copying].
    etrans; [by apply close_by|]. eapply (copying_slack delay t (po_now p) b); eauto. }
  destruct (po_copy_first p).
  - set (b1 := run_calls (po_now p) (po_calls p) b).
    assert (Hph : b_phase b1 = b_phase b) by apply run_calls_phase.
    destruct (po_result p) as [r|]; [apply Hclose|].
    assert (Hby : done_by delay t b1 = done_by delay t b) by (unfold done_by; by rewrite Hph).
    assert (Ha1 : armed b1) by (intros E; apply run_calls_permit, Ha; by rewrite <- Hph).
    pose proof (timer_turn_by delay t (po_now p) b1 Hd Hg Hle (ex_intro _ timer (eq_trans Hph Htm)) Ha1) as Ht.
    assert (match due t b1 with Some d => po_now p <= Z.max d t + delay | None => True end) as Hdue1.
    { unfold due in *. rewrite Hph, Htm in *. destruct timer; [done|]. rewrite (Ha Htm) in Hdue. by rewrite (Ha1 Hph). }
    specialize (Ht Hdue1). destruct (timer_turn grace (po_now p) b1) as [b' fired]. destruct Ht as [[l Hl] Hf].
    destruct fired; [apply Hclose|]. split; [lia|]. intros E. congruence.
  - pose proof (timer_turn_by delay t (po_now p) b Hd Hg Hle (ex_intro _ timer Htm) Ha Hdue) as Ht.
    destruct (timer_turn grace (po_now p) b) as [b' fired]. destruct Ht as [[l Hl] Hf]. destruct fired; [apply Hclose|].
    destruct (po_result p) as [r|]; [apply Hclose|].
    assert (Hph : b_phase (run_calls (po_now p) (po_calls p) b') = b_phase b') by apply run_calls_phase.
    split; [|intros E; congruence]. unfold done_by at 1. rewrite Hph. exact Hf.
Qed.

Lemma bridge_turn_by delay t b p : 0 <= delay -> 0 <= grace -> t <= po_now p -> armed b ->
  match due t b with Some d => po_now p <= Z.max d t + delay | None => True end ->
  (is_done (bridge_turn grace b p) = true \/ done_by delay (po_now p) (bridge_turn grace b p) <= done_by delay t b) /\
  armed (bridge_turn grace b p).
Proof.
  intros Hd Hg Hle Ha Hdue. unfold bridge_turn. destruct (b_phase b) as [timer|e l|e l|e] eqn:Eph.
  - destruct (copying_turn_by delay t b p timer Hd Hg Hle Eph Ha Hdue). split; [by right|done].
  - destruct (close1_turn_by delay (po_now p) e l b Hd) as [Hb1 Hb2]. unfold due in Hdue. rewrite Eph in Hdue.
    split; [right; unfold done_by at 2; rewrite Eph; destruct (decide (l <= po_now p)); [specialize (Hb2 l0)|]; lia|].
    intros E. exfalso. revert E. unfold close1_turn, close2_turn. destruct (t_shutdown (b_one b)) as [r one].
    destruct (_ || _); [|done]. cbn [b_two]. destruct (t_shutdown (b_two b)) as [r' two]. cbn [b_phase]. by destruct (_ || _).
  - unfold close2_turn, due in *. rewrite Eph in Hdue. destruct (t_shutdown (b_two b)) as [r two].
    destruct (is_ready r || bool_decide (l <= po_now p)) eqn:E; [split; [by left|done]|].
    apply orb_false_iff in E as [_ E%bool_decide_eq_false]. split; [|done]. right. unfold done_by. cbn [b_phase]. rewrite Eph. lia.
  - split; [|done]. left. unfold is_done. by rewrite Eph.
Qed.

Lemma bridge_turn_done b p : is_done b = true -> bridge_turn grace b p = b.
Proof. unfold is_done, bridge_turn. by destruct (b_phase b). Qed.

Lemma bridge_run_done ps b : is_done b = true -> is_done (bridge_run grace ps b) = true.
Proof.
  unfold bridge_run. revert b; induction ps as [|p ps IH]; intros b Hb; [done|]. cbn [foldl]. apply IH. by rewrite bridge_turn_done.
Qed.

Lemma bridge_run_by delay ps : 0 <= delay -> 0 <= grace -> forall t b, armed b -> prompt delay t b ps ->
  is_done (bridge_run grace ps b) = true \/ last_time t ps <= done_by delay t b.
Proof.
  intros Hd Hg. induction ps as [|p ps IH]; intros t b Ha Hp.
  - cbn. right. unfold done_by, shutdown_cap, secs. destruct (b_phase b) as [[?|]|?|?|?]; lia.
  - destruct Hp as (Hle & Hdue & Hp). rewrite last_time_cons.
    destruct (bridge_turn_by delay t b p Hd Hg Hle Ha Hdue) as [[Hdone|Hby] Ha'].
    + left. by apply (bridge_run_done ps).
    + destruct (IH _ _ Ha' Hp) as [?|?]; [by left|right; lia].
Qed.

(** As long as the copying reads nothing (it holds data that the side it is for
    does not take) and does not end by itself, the timer is not started: an end
    that a side has sent but that was not read releases nothing. *)
Lemma unread_end_waits ps (s1 : T1) (s2 : T2) :
  Forall (fun p => po_result p = None /\ Forall (fun c => forall s cap, c <> CRead s cap) (po_calls p)) ps ->
  b_phase (bridge_run grace ps (bridge_new s1 s2)) = Copying None.
Proof.
  intros Hps.
  assert (Hcall : forall now c b, (forall s cap, c <> CRead s cap) -> wa_seen (b_one b) = false ->
    wa_seen (b_two b) = false -> b_permit b = false ->
    let b' := run_call now b c in wa_seen (b_one b') = false /\ wa_seen (b_two b') = false /\ b_permit b' = false).
  { intros now c b Hc H1 H2 H3. unfold run_call. cbn [b_one b_two b_permit]. rewrite H1, H2, H3.
    destruct c as [s cap|[] bs|[]|[]]; cbn; [by destruct (Hc s cap)|..];
      repeat match goal with |- context [let '(_, _) := ?x in _] => destruct x end; cbn; rewrite ?H1, ?H2; done. }
  assert (Hcalls : forall now cs b, Forall (fun c => forall s cap, c <> CRead s cap) cs ->
    wa_seen (b_one b) = false -> wa_seen (b_two b) = false -> b_permit b = false ->
    let b' := run_calls now cs b in wa_seen (b_one b') = false /\ wa_seen (b_two b') = false /\ b_permit b' = false).
  { intros now cs. unfold run_calls. induction cs as [|c cs IH]; intros b Hcs H1 H2 H3; [done|].
    apply Forall_cons_1 in Hcs as [Hc Hcs]. cbn [foldl].
    destruct (Hcall now c b Hc H1 H2 H3) as (? & ? & ?). by apply IH. }
  assert (Hrun : forall ps b, Forall (fun p => po_result p = None /\
      Forall (fun c => forall s cap, c <> CRead s cap) (po_calls p)) ps ->
    wa_seen (b_one b) = false -> wa_seen (b_two b) = false -> b_permit b = false -> b_phase b = Copying None ->
    b_phase (bridge_run grace ps b) = Copying None); [|by apply Hrun].
  clear Hps ps. intros ps. unfold bridge_run. induction ps as [|p ps IH]; intros b Hps H1 H2 H3 H4; [done|].
  apply Forall_cons_1 in Hps as [[Hr Hcs] Hps]. cbn [foldl].
  destruct (Hcalls (po_now p) (po_calls p) b Hcs H1 H2 H3) as (E1 & E2 & E3).
  pose proof (run_calls_phase (po_now p) (po_calls p) b) as E4. rewrite H4 in E4.
  assert (bridge_turn grace b p = run_calls (po_now p) (po_calls p) b) as ->; [|by apply IH].
  unfold bridge_turn, copying_turn. rewrite H4, Hr. unfold timer_turn. rewrite E4, E3, H4, H3.
  by destruct (po_copy_first p).
Qed.

(** C7: A half-dead tunnel is released.  Once the copying has read the end of
    either side, and whatever the other side does from then on (it never closes,
    never reads, keeps a shutdown waiting), the bridge's task has ended after
    the grace period and ten seconds, plus four times the delay with which the
    runtime polls it.  (An end that was sent but not yet read starts nothing:
    lemma unread_end_waits.) *)
Theorem bridge_ends delay before ps (s1 : T1) (s2 : T2) t0 :
  0 <= delay -> 0 <= grace -> ordered_polls t0 before ->
  let b := bridge_run grace before (bridge_new s1 s2) in
  let t := last_time t0 before in
  seen b = true -> prompt delay t b ps ->
  t + grace + 2 * shutdown_cap + 4 * delay < last_time t ps ->
  exists e, b_phase (bridge_run grace ps b) = Done e.
Proof.
  intros Hd Hg Ho b t Hs Hp Hl.
  assert (Hi : eof_inv grace t b) by (apply bridge_run_inv; [done..|apply bridge_new_inv]).
  assert (Ha : armed b) by (intros E; destruct Hi as [_ _ Hw _ _ _]; by rewrite <- Hw).
  assert (Hdone : is_done (bridge_run grace ps b) = true -> exists e, b_phase (bridge_run grace ps b) = Done e).
  { unfold is_done. destruct (b_phase (bridge_run grace ps b)) as [?|?|?|e]; try done. eauto. }
  destruct (bridge_run_by delay ps Hd Hg t b Ha Hp) as [?|Hby]; [by apply Hdone|]. exfalso.
  destruct Hi as [_ _ _ Ht _ Hlim]. unfold done_by in Hby. destruct (b_phase b) as [[l|]|e l|e l|e] eqn:Eph.
  - destruct (Ht l eq_refl) as (? & _ & ?). lia.
  - lia.
  - specialize (Hlim e l (or_introl eq_refl)). unfold shutdown_cap, secs in *. lia.
  - specialize (Hlim e l (or_intror eq_refl)). unfold shutdown_cap, secs in *. lia.
  - unfold shutdown_cap, secs in *. lia.
Qed.
End Ends.

(** ** Errors of a bridge *)

(** A cut is not logged as an error. *)
Lemma cut_is_benign grace : logs_error (grace_error grace) = false.
Proof. reflexivity. Qed.

(** ** Concrete bridges *)
Definition demo_stream (incoming : string) : script := Script [] [] (as_bytes incoming).
Definition poll_at (t : Z) (cs : list call) : bridge_poll :=
  {| po_now := secs t; po_copy_first := true; po_calls := cs; po_result := None |}.
Definition demo_before : list bridge_poll := [poll_at 1 [CRead One 10; CShutdown Two]].
Definition demo_after : list bridge_poll := [poll_at 61 []; poll_at 80 []].

(** The visitor half-closes and the answer still flows, a byte every twenty
    seconds: the tunnel is cut in the middle of it. *)
Example transfer_is_cut :
  let b := bridge_run BRIDGE_HALF_CLOSE_GRACE
    [poll_at 1 [CRead One 10; CShutdown Two]; poll_at 20 [CRead Two 1; CWrite One (as_bytes "a")];
     poll_at 40 [CRead Two 1; CWrite One (as_bytes "b")]; poll_at 61 [CRead Two 1; CWrite One (as_bytes "c")]]
    (bridge_new (demo_stream EmptyString) (demo_stream "abcdef")) in
  b_phase b = Done Cut /\ t_sent (b_one b) = as_bytes "abc" /\ t_incoming (b_two b) = as_bytes "def".
Proof. vm_compute. done. Qed.

Lemma bridge_cuts_late_witness :
  let b := bridge_run BRIDGE_HALF_CLOSE_GRACE (demo_before ++ demo_after) (bridge_new (demo_stream EmptyString) (demo_stream "x")) in
  b_phase b = Done Cut /\
  ((seen b = false -> forall limit, b_phase b <> Copying (Some limit)) /\
   (b_phase b = Done Cut -> exists t0, b_eof_at b = Some t0 /\ t0 + BRIDGE_HALF_CLOSE_GRACE <= last_time 0 (demo_before ++ demo_after))).
Proof.
  split; [vm_compute; reflexivity|].
  apply (bridge_cuts_late BRIDGE_HALF_CLOSE_GRACE (demo_before ++ demo_after) (demo_stream EmptyString) (demo_stream "x") 0).
  - by apply Z.leb_le.
  - repeat (split; [by apply Z.leb_le; vm_compute|]). exact I.
Defined.

Lemma bridge_ends_witness :
  exists e, b_phase (bridge_run BRIDGE_HALF_CLOSE_GRACE demo_after
    (bridge_run BRIDGE_HALF_CLOSE_GRACE demo_before (bridge_new (demo_stream EmptyString) (demo_stream "x")))) = Done e.
Proof.
  apply (bridge_ends BRIDGE_HALF_CLOSE_GRACE (secs 1) demo_before demo_after (demo_stream EmptyString) (demo_stream "x") 0).
  - by apply Z.leb_le.
  - by apply Z.leb_le.
  - split; [by apply Z.leb_le; vm_compute|]. exact I.
  - vm_compute. reflexivity.
  - split; [by apply Z.leb_le; vm_compute|]. split; [by apply Z.leb_le; vm_compute|].
    split; [by apply Z.leb_le; vm_compute|]. split; [vm_compute; exact I|exact I].
  - by apply Z.ltb_lt; vm_compute.
Defined.
