(* ===== verification/Doors.v ===== *)
(** * The doors for work connections and virtual hosts
    (src/rust_frp_server/src/server/work_conn.rs [handle_work_connections],
    src/rust_frp_server/src/server/vhost.rs accept loops)

    Each listener has a loop that accepts and a task per connection.  A peer is
    what it does when the task waits for it: its first byte, the TLS handshake,
    what serving it comes to; a task that waits for ever never ends.  A section
    between two waits is one event; permits are those of ServerIngress.v, which
    other tasks hold too.  Reading the first message of a work connection is in
    WorkConnHandler.v, a virtual host's connection in Vhost.v: serving is the
    peer's [pe_served]. *)
From S2P Require Import Prelude RustStd ConfigTypes WorkPool Metrics ServerIngress.

(** ** One connection *)
Inductive peeked := PeekTimedOut | PeekFailed | Peeked (bytes : list byte).
Inductive handshake := HandshakeOk | HandshakeFailed | HandshakeSilent.

(** [pe_served]: whether serving the connection comes to an end. *)
Record peer := { pe_peek : peeked; pe_tls : handshake; pe_served : bool }.

Inductive work_end :=
| NotSniffed                 (* no first byte in time, an error, or closed *)
| TlsRejected                (* turned away, or the handshake failed *)
| Served (tls : bool).

(** The task of [handle_work_connections], with the branches that count a TLS
    rejection as [TlsRejected]; [None]: it never ends. *)
Definition work_task (tls_available tls_only : bool) (p : peer) : option work_end :=
  match pe_peek p with
  | PeekTimedOut | PeekFailed | Peeked [] => Some NotSniffed
  | Peeked (b :: _) =>
      match classify_work_conn (b2z b) tls_available tls_only with
      | ClassTls =>
          if tls_available then
            match pe_tls p with
            | HandshakeOk => if pe_served p then Some (Served true) else None
            | HandshakeFailed => Some TlsRejected
            | HandshakeSilent => None
            end
          else Some TlsRejected
      | ClassPlain => if pe_served p then Some (Served false) else None
      | ClassReject => Some TlsRejected
      end
  end.

(** What the task has passed when it hands the connection on. *)
Definition hands_on (tls_available tls_only : bool) (p : peer) : option bool :=
  match pe_peek p with
  | Peeked (b :: _) =>
      match classify_work_conn (b2z b) tls_available tls_only with
      | ClassTls => if tls_available && match pe_tls p with HandshakeOk => true | _ => false end then Some true else None
      | ClassPlain => Some false
      | ClassReject => None
      end
  | _ => None
  end.

(** ** The loop *)
Record work_door := {
  wd_listening : bool;
  wd_permits : Z;                       (* in use in the whole process *)
  wd_tasks : list peer;
  wd_refused : nat;                     (* ghost *)
  wd_rejects : Z;                       (* [incr_tls_rejects] *)
}.

Definition work_door_new (permits : Z) : work_door :=
  {| wd_listening := true; wd_permits := permits; wd_tasks := []; wd_refused := 0; wd_rejects := 0 |}.

Inductive work_event :=
| WArrives (p : peer)                   (* [accept] gives a connection *)
| WAcceptFails                          (* [accept] gives an error *)
| WEnds (i : nat)                       (* the i-th task ends *)
| WOthers (d : Z).                      (* permits other tasks take or return *)

Section Door.
Context (tls_available tls_only : bool).

Definition work_step (s : work_door) (e : work_event) : option work_door :=
  match e with
  | WArrives p =>
      if wd_listening s then
        match try_acquire_conn_permit (wd_permits s) with
        | Some n => Some {| wd_listening := true; wd_permits := n; wd_tasks := wd_tasks s ++ [p]; wd_refused := wd_refused s;
                            wd_rejects := wd_rejects s |}
        | None => Some {| wd_listening := true; wd_permits := wd_permits s; wd_tasks := wd_tasks s; wd_refused := S (wd_refused s);
                          wd_rejects := wd_rejects s |}
        end
      else None
  | WAcceptFails =>
      if wd_listening s then
        Some {| wd_listening := false; wd_permits := wd_permits s; wd_tasks := wd_tasks s; wd_refused := wd_refused s;
                wd_rejects := wd_rejects s |}
      else None
  | WEnds i =>
      p ← wd_tasks s !! i;
      e ← work_task tls_available tls_only p;
      Some {| wd_listening := wd_listening s; wd_permits := wd_permits s - 1; wd_tasks := delete i (wd_tasks s);
              wd_refused := wd_refused s;
              wd_rejects := match e with TlsRejected => wrap_u64 (wd_rejects s + 1) | _ => wd_rejects s end |}
  | WOthers d =>
      if decide (zlen (wd_tasks s) <= wd_permits s + d <= MAX_INFLIGHT_CONNECTIONS)
      then Some {| wd_listening := wd_listening s; wd_permits := wd_permits s + d; wd_tasks := wd_tasks s; wd_refused := wd_refused s;
                   wd_rejects := wd_rejects s |}
      else None
  end.

Fixpoint work_run (s : work_door) (es : list work_event) : option work_door :=
  match es with [] => Some s | e :: es => s ← work_step s e; work_run s es end.

(** ** What the door lets in *)

(** A connection is handed on over TLS, or in the clear when the server does not
    demand TLS. *)
Lemma hands_on_tls p tls : tls_only = true -> hands_on tls_available tls_only p = Some tls -> tls = true /\ pe_tls p = HandshakeOk.
Proof.
  intros Ho. unfold hands_on. rewrite Ho. destruct (pe_peek p) as [| |[|b bs]]; try done.
  unfold classify_work_conn. case_bool_decide; destruct tls_available; try done. by destruct (pe_tls p); intros [= <-].
Qed.

Record work_inv (s : work_door) : Prop := {
  wi_permits : zlen (wd_tasks s) <= wd_permits s <= MAX_INFLIGHT_CONNECTIONS;
}.

Lemma work_step_inv s e s' : work_inv s -> work_step s e = Some s' -> work_inv s'.
Proof.
  intros [Hp]. destruct e as [p| |i|d]; cbn [work_step].
  - destruct (wd_listening s); [|done]. unfold try_acquire_conn_permit. case_decide; intros [= <-]; constructor; cbn [wd_tasks wd_permits].
    + unfold zlen in *. rewrite length_app. simpl. lia.
    + done.
  - destruct (wd_listening s); [|done]. intros [= <-]. by constructor.
  - destruct (wd_tasks s !! i) as [p|] eqn:Ei; [|done]. cbn [mbind option_bind].
    destruct (work_task _ _ p) as [r|]; [|done]. intros [= <-]. constructor. cbn [wd_tasks wd_permits].
    pose proof (length_delete (wd_tasks s) i ltac:(by eexists)) as Hl. apply lookup_lt_Some in Ei. unfold zlen in *. lia.
  - case_decide; [|done]. intros [= <-]. by constructor.
Qed.

Lemma work_run_inv es : forall s s', work_inv s -> work_run s es = Some s' -> work_inv s'.
Proof.
  induction es as [|e es IH]; intros s s' Hi; [by intros [= <-]|]. cbn [work_run].
  destruct (work_step s e) as [s1|] eqn:E; [|done]. apply IH. by eapply work_step_inv.
Qed.

(** The work port never holds more than its share.  In every history of
    arrivals, failing accepts, ending tasks and other users of the permits, each
    running task holds one permit, all permits together stay within the limit, and
    a server that demands TLS hands on only connections whose handshake
    succeeded. *)
Theorem work_door_bounded es permits s :
  0 <= permits <= MAX_INFLIGHT_CONNECTIONS -> work_run (work_door_new permits) es = Some s ->
  zlen (wd_tasks s) <= wd_permits s <= MAX_INFLIGHT_CONNECTIONS /\
  (tls_only = true -> forall p tls, p ∈ wd_tasks s -> hands_on tls_available tls_only p = Some tls -> tls = true /\ pe_tls p = HandshakeOk).
Proof.
  intros Hp Hr. assert (Hi : work_inv s) by (eapply work_run_inv; [|exact Hr]; by constructor). split; [by destruct Hi|].
  intros Ho p tls _. by apply hands_on_tls.
Qed.

(** ** What the loops do not survive *)

(** After one failed accept (too many open files, a connection that was aborted
    before it was taken) no work connection is taken any more. *)
Lemma accept_error_closes_the_door s s' p : work_step s WAcceptFails = Some s' -> work_step s' (WArrives p) = None.
Proof. cbn [work_step]. destruct (wd_listening s); [|done]. by intros [= <-]. Qed.

Lemma door_stays_closed es : forall s s', wd_listening s = false -> work_run s es = Some s' -> wd_listening s' = false /\ (length (wd_tasks s') <= length (wd_tasks s))%nat.
Proof.
  induction es as [|e es IH]; intros s s' Hl; [intros [= <-]; split; [done|lia]|]. cbn [work_run].
  destruct (work_step s e) as [s1|] eqn:E; [|done]. cbn [mbind option_bind]. intros Hr.
  assert (wd_listening s1 = false /\ (length (wd_tasks s1) <= length (wd_tasks s))%nat) as [Hl1 Ht1].
  { destruct e as [p| |i|d]; cbn [work_step] in E; rewrite ?Hl in E; try done.
    - destruct (wd_tasks s !! i) as [p|] eqn:Ei; [|done]. cbn [mbind option_bind] in E.
      destruct (work_task _ _ p); [|done]. injection E as <-. split; [done|]. cbn [wd_tasks].
      rewrite length_delete by (by eexists). lia.
    - case_decide; [|done]. injection E as <-. split; [done|]. simpl. lia. }
  destruct (IH _ _ Hl1 Hr). split; [done|lia].
Qed.

(** A peer that sends the first byte of a TLS handshake and nothing else: its
    task never ends, and its permit is never returned. *)
Definition silent_peer : peer := {| pe_peek := Peeked [Byte.x16]; pe_tls := HandshakeSilent; pe_served := true |}.

Lemma silent_peer_stays s i : tls_available = true -> wd_tasks s !! i = Some silent_peer -> work_step s (WEnds i) = None.
Proof. intros Ht Hi. cbn [work_step]. rewrite Hi, Ht. done. Qed.
End Door.

(** ** Virtual hosts *)

(** The accept loops of the virtual hosts: no permits, the connections are
    counted; [None] of the handshake and of serving as above.  HTTP has no
    handshake. *)
Record vhost_door := { vd_listening : bool; vd_metrics : MonitorMetrics; vd_tasks : list peer }.

Inductive vhost_event := VArrives (p : peer) | VAcceptFails | VEnds (i : nat).

Definition vhost_ends (https : bool) (p : peer) : bool :=
  if https then match pe_tls p with HandshakeOk => pe_served p | HandshakeFailed => true | HandshakeSilent => false end
  else pe_served p.

Definition vhost_step (https : bool) (s : vhost_door) (e : vhost_event) : option vhost_door :=
  match e with
  | VArrives p =>
      if vd_listening s
      then Some {| vd_listening := true; vd_metrics := increment_connections (vd_metrics s); vd_tasks := vd_tasks s ++ [p] |}
      else None
  | VAcceptFails =>
      if vd_listening s then Some {| vd_listening := false; vd_metrics := vd_metrics s; vd_tasks := vd_tasks s |} else None
  | VEnds i =>
      p ← vd_tasks s !! i;
      if vhost_ends https p
      then Some {| vd_listening := vd_listening s; vd_metrics := decrement_connections (vd_metrics s); vd_tasks := delete i (vd_tasks s) |}
      else None
  end.

(** The loop is over after one failed accept. *)
Lemma vhost_accept_error_is_final https s s' p : vhost_step https s VAcceptFails = Some s' -> vhost_step https s' (VArrives p) = None.
Proof. cbn [vhost_step]. destruct (vd_listening s); [|done]. by intros [= <-]. Qed.

(** ** Witness *)
Definition good_peer : peer := {| pe_peek := Peeked [Byte.x16]; pe_tls := HandshakeOk; pe_served := true |}.
Definition demo_door_events : list work_event := [WArrives good_peer; WOthers 3; WArrives silent_peer; WEnds 0; WAcceptFails].

Lemma work_door_bounded_witness :
  exists s, work_run true true (work_door_new 7) demo_door_events = Some s /\ wd_permits s = 11 /\
  (zlen (wd_tasks s) <= wd_permits s <= MAX_INFLIGHT_CONNECTIONS /\
   (true = true -> forall p tls, p ∈ wd_tasks s -> hands_on true true p = Some tls -> tls = true /\ pe_tls p = HandshakeOk)).
Proof.
  destruct (work_run true true (work_door_new 7) demo_door_events) as [s|] eqn:E; [|vm_compute in E; discriminate].
  exists s. split; [done|]. split; [vm_compute in E; injection E as <-; reflexivity|].
  apply (work_door_bounded true true demo_door_events 7 s); [unfold MAX_INFLIGHT_CONNECTIONS; lia|done].
Defined.
